(* ===== verification/_CoqProject ===== *)
-Q . S2P
Prelude.v
JsString.v
Substring.v
Dates.v
Pricing.v
Domain.v
Json.v
Entitlement.v
Allocation.v
CreditViews.v
TrialKey.v
Store.v
StoreInv.v
StoreProps.v
Provider.v
Credits.v
CreditsProps.v
Paddle.v
Mock.v
ProviderProps.v
Billing.v
BillingSafety.v
Safety.v
BillingProps.v
Webhook.v
Delivery.v
Witnesses.v
AutoRestart.v
OpLock.v
Concurrency.v
Fleet.v
Access.v
Exports.v
CloudInbox.v
TokenBucket.v
CloudTypes.v
InboxDispatcher.v
InboxSafety.v
InboxDelivery.v
InboxDedupe.v
Hosts.v
HostsProps.v
FleetStore.v
IntegrationTypes.v
FleetWorld.v
InstanceManager.v
FleetLogic.v
FleetGuar.v
MoveSafety.v
HealthMonitor.v
PairingManager.v
Reconciler.v
Backups.v
OwnerAccess.v
Integrations.v
Linker.v
LinkerProps.v
Cursor.v
RouteSchemas.v
LlmKeys.v
InstanceRoutes.v
AdminRoutes.v
PairRoutes.v
RouteProps.v
PairingSidecar.v
SidecarProps.v
Watches.v
Onboarding.v
OpenclawConfig.v
OpenclawProps.v
CloudManager.v
CloudTenants.v
CloudProps.v
WebIngress.v
WebProps.v
WebBots.v
ChannelProps.v
RestoreArchive.v
OpenclawRuntime.v
RuntimeProps.v
