(* ===== verification/Prelude.v ===== *)
(** * The billing system and the bot orchestrator of agentforall

    This library models and verifies two parts of the repository:

    - billing, [src/apps/web/src/lib/billing/], with its tables in
      [src/packages/db/src/schema/billing.ts] and the HTTP retry of
      [src/apps/web/src/lib/http/fetch-with-retry.ts];
    - the orchestrator, [src/apps/orchestrator/src/]: the life of a bot, where it
      runs, how it is restarted, configured, linked to Telegram and WhatsApp and
      backed up, and the requests that ask for all this, with the tables in
      [instances.ts] and [whatsapp-cloud.ts] of the schema and the ingress
      repository [src/apps/web/src/lib/whatsapp-cloud/repository.ts].

    ** The program

    Users buy plans and top-ups through a payment provider and receive credits;
    their bots spend money at an LLM gateway, which is metered into credits.
    [BillingService] ([service.ts]) runs the commands of users and handles the
    webhooks of providers; it reads and writes the tables through the
    repositories ([repository.ts]), calls a [PaymentProvider] (Paddle, or a mock
    gateway), and keeps the ledger through [CreditService]
    ([credits/service.ts]), which reads spend and sets ceilings at the gateway.

    A bot is a row of [instances], a container and a state volume on one host.
    [InstanceManager] creates, starts, stops, rebuilds, moves and destroys bots,
    one operation at a time per bot ([InstanceOperationLock]); [Placement] and
    [PortAllocator] say where a bot goes; [AutoRestarter] restarts bots that stop
    answering.  The web application queues the messages of a bot's WhatsApp
    Business number in the database, and [InboxDispatcher] hands them to the
    bot's plugin when it polls.  [HealthMonitor] asks the bots how they are and
    writes their health; [Reconciler] heals what an interrupted operation or a
    restarted host left behind; [PairingManager] links a bot to the owner's
    WhatsApp through a sidecar container.

    Requests come in through the routes: the hook of [middleware/auth.ts] says who
    asks, a schema checks the body, and the handler calls a manager.
    [WhatsappCloudManager] connects a WhatsApp Business number, sends for it and
    escalates to the owner; [ManagedBotLinker] links a Telegram bot;
    [IntegrationsManager] connects apps and relays the bot's calls to them;
    [BackupExportManager] and [BackupImportManager] move a bot's state out and in;
    the owner's managers say who the bot answers to.  Whatever changes a bot's
    channels ends in [updateChannels] of [InstanceManager], and the configuration
    its container reads is generated by [agent-runtime/openclaw/config.ts].

    ** The model, file by file

    Shared:
    - [Prelude]: the monad of a request (state, thrown errors, recorded calls,
      and the interference of other requests between two store accesses), the
      rely/guarantee rules, the [guar] hint database and tactic, list and string
      lemmas.
    - [JsString]: JavaScript string functions on ASCII strings; [Substring]: the
      search for a text in another, and where an occurrence can lie.
    - [Dates]: [dates.ts] over the ECMAScript calendar.

    Billing:
    - [Pricing]: [pricing.ts].
    - [Domain]: [domain.ts], the inputs of [ports.ts], [provider/types.ts] and
      the errors of [errors.ts].
    - [Json]: JSON values and the zod schemas of the two [wire.ts] files.
    - [Entitlement], [Allocation] ([credits/allocation.ts], [credits/period.ts]),
      [CreditViews] ([credits/pools.ts], [history.ts], [runway.ts]), [TrialKey]
      ([credits/trial-claim.ts]): the pure parts.
    - [Store]: the database [Db] and every statement and transaction of
      [repository.ts]; [StoreInv]: the invariant [Inv], the change relation
      [Step] and the interface [StatementsIn]; [StoreProps]: what the
      subscription statements compute.
    - [Provider]: the provider interface with its law [ProviderLaws], HMAC,
      registry, disabled provider, configuration; [Paddle] and [Mock] implement
      it; [ProviderProps] proves what they promise beyond it.
    - [Credits]: [credits/service.ts] and [credits/orchestrator-budget.ts];
      [CreditsProps]: guarantees, metering and ceilings.
    - [Billing]: all of [service.ts]; [BillingSafety]: the guarantee of every
      handler, the requests, and histories of requests.
    - [Safety]: what holds of every reachable store; [BillingProps]: renewals,
      trials, checkouts, cancellation, plan changes; [Webhook]: the inbox;
      [Delivery]: what a paid customer gets under any interleaving.
    - [Witnesses]: the theorems with hypotheses applied at concrete inputs,
      and runs that show defects.

    The orchestrator:
    - [Fleet]: [domain/types.ts], [channels.ts], [owner.ts], [provisioning.ts],
      [errors.ts].
    - [FleetStore]: the [instances] table with its port index and the statements
      of [storage/instance-repository.ts] and [event-repository.ts].
    - [Hosts]: [services/host-runtimes.ts], [host-reachability.ts] and
      [placement.ts]; [HostsProps]: where a bot goes, how much room is reported,
      when the breaker opens.
    - [FleetWorld]: the state [FleetDb] of the orchestrator, the type classes of
      what it calls ([ContainerRuntime], [AgentAdapter], [Collaborators]) and
      [port-allocator.ts]; [InstanceManager]: [services/instance-manager.ts].
    - [FleetLogic]: a logic for the fate of one bot under its lock; [FleetGuar]:
      guarantees of programs, with the [keeps] hint database and tactic, a request
      that nothing interrupts, and concrete implementations of the interfaces for
      examples.
    - [MoveSafety]: the state volume through moves, failures and clean-ups, and
      two runs that show defects.
    - [HealthMonitor]: [services/health-monitor.ts], and what a poll may
      change, the thresholds, what counts as evidence about the channel.
    - [PairingManager]: [services/pairing-manager.ts] with the session registry,
      and the moves of a pairing, and two runs that show defects.
    - [Reconciler]: [services/reconciler.ts], and what a pass makes
      of a bot, the budget of restarts, bots under an operation, and a run that
      shows a defect.
    - [AutoRestart]: [services/auto-restarter.ts] and [background-tasks.ts],
      and the restart budget.
    - [OpLock]: [services/instance-operation-lock.ts]; [Concurrency]:
      [services/concurrency.ts].
    - [CloudInbox]: the WhatsApp Business tables and both repositories;
      [InboxDispatcher]: [services/whatsapp-cloud/inbox-dispatcher.ts];
      [InboxSafety], [InboxDelivery], [InboxDedupe]: no double delivery, a
      waiting bot is answered, a redelivery changes nothing.

    - [TokenBucket]: [whatsapp-cloud/token-bucket.ts]; [CloudTypes] and
      [CloudManager]: [whatsapp-cloud/manager.ts], [owner-alerts.ts], [pin.ts] and
      their routes; [CloudTenants]: bots do not touch each other's
      data; [CloudProps]: sends, escalations, alerts and the container's bearer.
    - [WebIngress]: the web application's side, [web/src/lib/whatsapp-cloud]: the
      webhook of Meta up to the transaction of [CloudInbox], and the connection of a
      number, from the outcome of the popup to the request the orchestrator accepts;
      [WebProps]: the effect of a webhook by the tables alone, the agreement of its
      rows with what the dispatcher reads, and of the two connect schemas.
    - [WebBots]: the web application's bots, [web/src/lib/orchestrator/client.ts],
      [bots/service.ts], [bots/creation-progress.ts], [bots/snapshot.ts] and
      [auth/delete-user.ts]: requests and their retries, creation and deletion over
      any orchestrator that pages its list, the progress bar.
    - [PairingSidecar]: [apps/whatsapp-pairing/src], the session as a machine of
      events and the process around it; [SidecarProps]: the link, the sockets, the
      upload and the exit, and four runs that show defects.
    - [Linker]: [telegram/managed-bot-linker.ts] and [bot-api.ts], its types being in
      [IntegrationTypes]; [LinkerProps]: the life of a link, the end of an attachment,
      and four runs that show defects.
    - [IntegrationTypes] and [Integrations]: [services/integrations/manager.ts],
      [sessions.ts], [catalog-search.ts] and [routes/mcp-relay.ts], with
      the catalog's back-off, the relay's headers.
    - [Exports]: [services/backup-export-manager.ts] as a machine of events;
      [Backups]: [backup-transfer-token.ts] and
      [backup-import-manager.ts].
    - [OwnerAccess]: [owner-identity-manager.ts], [whatsapp-access-manager.ts],
      [domain/phone.ts]; [ChannelProps]: the channels of a bot through all edits.
    - [Access]: [middleware/auth.ts], [error-handler.ts], [routes/bearer.ts].
    - [Cursor], [RouteSchemas]: the cursor of a list and the bodies the routes
      accept; [InstanceRoutes], [AdminRoutes], [PairRoutes]: the handlers, with
      the registration of workers and the proxy to the pairing sidecar; [LlmKeys]:
      [litellm-key-manager.ts] and its client; [RouteProps]: what a bot shows of
      itself, the pages of a list.
    - [OpenclawConfig]: [agent-runtime/openclaw/config.ts]; [OpenclawProps]: what
      a change touches, what the environment holds.
    - [RestoreArchive]: [openclaw/backup.ts] and [hermes/backup.ts], what of an
      archive is laid into a volume, and two runs that show defects;
      [OpenclawRuntime]: [openclaw/adapter.ts] over an abstract container, with
      [gateway-call.ts], [channel-rpc.ts], [gateway-probe.ts], [health.ts],
      [config-rpc.ts], [migrate.ts], [verify.ts], [whatsapp.ts], [browser.ts],
      [customer-alert.ts]; [RuntimeProps]: secrets, guidance, the order of writes,
      verdicts, and a run that shows a defect.
    - [Watches]: [capacity-watch.ts] and [memory-watch.ts]; [Onboarding]:
      [onboarding-checkins.ts], [domain/tenant.ts] and [openclaw/owner-turns.ts].

    ** Concurrency and errors

    A handler is a program of the monad of [Prelude] ([B] of [Store] for billing,
    [Fleet] of [FleetWorld] for the orchestrator).  Before each access
    the world's list [w_env] may change the store: a theorem for every [w_env]
    holds of every interleaving of single SQL statements and transactions, which
    are atomic.  A throw keeps the writes made so far, except inside a
    transaction.  [Guar Inv Step m] says that [m] keeps the invariant and only
    makes [Step]s whatever well-behaved requests do meanwhile; [StatementsIn]
    lets the same proof serve for other relations, such as leaving the inbox
    alone.  Theorems stated on a world with [w_env = []] describe a request that
    nothing interrupts.

    In the orchestrator a database statement may also fail, before or after it
    commits ([StatementOutcome]); Docker, the agents, the buckets and LiteLLM are
    arbitrary functions of an abstract state and may throw.  While an operation
    runs under a bot's lock, others may change every other bot and, of this one,
    what [Rely] of [FleetLogic] allows.  Components made of callbacks and timers
    (the lock, the worker pool, the restarter, the dispatcher, the exports) are states with one
    function per callback, and step relations run them in any order; properties
    of reachable states are proved by induction on those.

    ** What the theorems show

    - Of every history of billing requests, under every interleaving: the ledger
      adds up, grants, payments, checkouts, owners and the inbox only change as
      they may.
    - Of a webhook: it is applied once, retried on failure, handled by one
      delivery at a time; a handled payment is recorded, credited and linked; a
      full refund takes what is unspent.
    - Of the commands: which checkouts are accepted, that cancelling and account
      deletion end every order, one trial per mailbox.
    - Of the ledger: attribution, metering once, ceilings, views; of the
      providers: signature checks, the number of calls, round trips; of prices
      and dates: the catalogue, conversions, the calendar.
    - Of bots: no operation but the bot's destroy removes the volume its state is
      on, wherever it fails (see the theorem for what is assumed); operations of one bot exclude each other and keep their
      order; restarts stay within the budget of a window, and a bot that stays
      down is restarted, cooling down, or reported.
    - Of hosts: a bot goes to the emptiest host that has room for it and for what
      is reserved; the reported room can be used up; two misses open the breaker
      and one answer closes it.
    - Of the inbox: no message is handed out twice within a lease or after it was
      acknowledged, a waiting bot gets its oldest messages at the next tick, and
      a message that arrives again changes nothing.
    - Of the monitor and the reconciler: a poll only writes health, the pairing of
      a bot whose channel it has evidence on and a container found under another
      id; failures add up to degraded and unhealthy and one answer clears them; a
      pass repairs a bot as its container stands, restarts it within a budget,
      and keeps off a bot under an operation.
    - Of pairing: its status only moves by compare-and-set, only the sidecar's
      token records credentials, and the wait for the link ends; a sidecar announces
      a link once, with the credentials written, opens a bounded number of sockets,
      posts at most three times, is never left behind, and exits with code 0 only
      when the credentials were accepted or it was told to stop.
    - Of Meta's webhook: what is refused changes nothing, every other message goes to
      the bot that has the number, a repeated webhook has no effect, a stored row is
      read back as what it was and holds no U+0000 in a text; a popup's outcome is
      accepted by both schemas.
    - Of a WhatsApp Business number: no request about a bot touches another's data,
      a message is sent once and inside the customer's window, a bot cannot flood
      its owner, an alert the agent does not deliver is sent directly.
    - Of the doors: who a request runs as, which bearer a container's relay takes,
      which worker may register, whose backup a link is for, what a restore token
      gives back.
    - Of what is shown and configured: no secret of a bot leaves by the routes, a
      list reaches every bot, a change of the dashboard sets the owned paths of a
      live configuration and nothing else, no value smuggles a variable into the
      environment, a bot has one channel of a kind.
    - Of a bot's container: an archive writes nothing outside the state directory,
      a business agent's files are there before a configuration names it, a
      text of the gateway carries no secret out, a verdict on a configuration is the
      gateway's, the guidance leaves the tenant's text alone.
    - Of links and clocks: a link that expired is matched with nothing, the
      attachment of a bot ends, an hour of the owner's day is the right instant.

    ** Bounds and fuel

    The two retry loops of billing run a fixed number of times (three) and are
    fixpoints on that number; so are [fetchWithRetry] on the attempts left and the
    retries of [reserveIdentity] and [flipToHost] on [maxProvisionRetries].
    [settledIn] of [OpLock] follows a chain of promises that only points back, so
    the position in the chain is enough fuel.  [waitForLink] has 23 turns: its
    polls are two seconds apart at least and its deadline is 45 seconds away
    ([waitForLink_fuel]).  [awaitDelivery] has 36 turns, its polls being five seconds
    apart at least and its deadline three minutes away ([alert_not_lost]);
    [attachChannel] has 94, its waits and failures being counted ([attach_ends]);
    [pages] walks a list with one turn per bot and one more ([list_complete]);
    [applyUntilAcknowledged] has two turns a second of its timeout and one more, each
    turn beginning half a second after the last ([apply_fuel_enough]); [pieces] and
    [redactFrom] have one turn per character.  [exchangeLoop] counts down the two
    attempts of the exchange.  [follow] of [RestoreArchive] is a path
    lookup, of which the theorem is stated for every fuel.  No other definition has fuel.

    ** What is not modelled

    The clock stands still within a billing request.  Logging and waiting are
    omitted.  Work passed to [background] is awaited, its errors being caught
    either way.  Numbers the code keeps whole are unbounded integers; fractional
    ones are exact rationals.  Strings are ASCII; dates are milliseconds; a
    webhook payload is its text.  A tie that an SQL [ORDER BY] leaves open is
    resolved in table order.  The JSON codec, zod's string checks, HMAC, SHA-256,
    URL resolution and the network are the parameters [Platform], [Wire] and [Text], and a
    function [sha256]; the LLM gateway is the parameter [BudgetClient].  Foreign
    keys to the user table are modelled by [deleteUser] only, which is not a
    [Step].  A stored bot configuration is decrypted or found corrupted; the
    encryption itself is not modelled.

    The checks of one health poll are made one after the other.  The promise chain
    of the pairing registry's lock is left out: [startPairingLocked] is what runs
    under it.

    Not modelled at all: the user interface, the Docker client, the
    adapter of Hermes (its archives are), the plugins, the rate limits of the routes;
    of the sidecar, the socket library, the picture of the code and the settings.  Of the programs that run beside a gateway, the sockets and the timer that
    ends them are left out.  They are calls of libraries and wiring, or views; what they
    compute is small. *)
From Stdlib Require Export ZArith Lia Bool List String.
From Stdlib Require Import Permutation Sorted.
From stdpp Require Export base decidable option.
From stdpp Require Import list strings.
#[global] Open Scope Z_scope.

Declare Scope prog_scope.
Delimit Scope prog_scope with prog.

(** ** The effect of a request: state, errors and interference

    A request of the program reads and writes a shared store [D], calls the
    outside world (the calls are recorded, in order, as values of [C]) and may
    throw an [E].  A throw keeps the writes made so far: nothing but a
    [db.transaction] rolls back.  Between two accesses of one request, other
    requests run: [w_env] lists what they do to the store before each access,
    so a theorem for every [w_env] is a theorem for every interleaving at the
    granularity of one store access.  [w_now] is the instant of the request. *)
Record World (D C : Type) := mkWorld {
  w_db : D;
  w_env : list (D -> D);
  w_now : Z;
  w_calls : list C;
}.
Arguments mkWorld {D C} _ _ _ _.
Arguments w_db {D C} _.
Arguments w_env {D C} _.
Arguments w_now {D C} _.
Arguments w_calls {D C} _.

Definition M (D C E A : Type) : Type := World D C -> (E + A) * World D C.

Section Monad.
Context {D C E : Type}.
Implicit Types w : World D C.

Definition ret {A} (a : A) : M D C E A := fun w => (inr a, w).

Definition bind {A B} (m : M D C E A) (k : A -> M D C E B) : M D C E B :=
  fun w => match m w with
           | (inl e, w') => (inl e, w')
           | (inr a, w') => k a w'
           end.

Definition throw {A} (e : E) : M D C E A := fun w => (inl e, w).

(** [try { m } catch (e) { h e }]: the handler runs in the state the throw left. *)
Definition catch {A} (m : M D C E A) (h : E -> M D C E A) : M D C E A :=
  fun w => match m w with
           | (inl e, w') => h e w'
           | (inr a, w') => (inr a, w')
           end.

(** The service's clock. *)
Definition now : M D C E Z := fun w => (inr (w_now w), w).

(** A call that leaves the program is recorded. *)
Definition record (c : C) : M D C E unit :=
  fun w => (inr tt, mkWorld (w_db w) (w_env w) (w_now w) (w_calls w ++ [c])).

(** One access of the store: the pending interference happens first. *)
Definition atomic {A} (op : D -> (E + A) * D) : M D C E A :=
  fun w =>
    let '(d, env) := match w_env w with
                     | [] => (w_db w, [])
                     | f :: fs => (f (w_db w), fs)
                     end in
    let '(r, d') := op d in
    (r, mkWorld d' env (w_now w) (w_calls w)).

(** A read, and a total write. *)
Definition query {A} (q : D -> A) : M D C E A := atomic (fun d => (inr (q d), d)).
Definition exec {A} (op : D -> A * D) : M D C E A :=
  atomic (fun d => let '(a, d') := op d in (inr a, d')).

Definition lift {A} (r : E + A) : M D C E A := fun w => (r, w).

Fixpoint forM {A} (l : list A) (f : A -> M D C E unit) : M D C E unit :=
  match l with
  | [] => ret tt
  | a :: l' => bind (f a) (fun _ => forM l' f)
  end.

Fixpoint foldM {A B} (f : B -> A -> M D C E B) (b : B) (l : list A) : M D C E B :=
  match l with
  | [] => ret b
  | a :: l' => bind (f b a) (fun b' => foldM f b' l')
  end.

Fixpoint traverse {A B} (f : A -> M D C E B) (l : list A) : M D C E (list B) :=
  match l with
  | [] => ret []
  | a :: l' => bind (f a) (fun b => bind (traverse f l') (fun bs => ret (b :: bs)))
  end.
End Monad.

Notation "'let!' x ':=' m 'in' k" := (bind m (fun x => k))
  (at level 10, x pattern, m at level 100, k at level 200,
   format "'[v' 'let!'  x  ':='  m  'in' '/' k ']'") : prog_scope.
Notation "m ';;;' k" := (bind m (fun _ => k))
  (at level 199, right associativity, format "'[v' m  ';;;' '/' k ']'") : prog_scope.
Notation "'when' b 'do' m" := (if b then m else ret tt)
  (at level 198, b at level 100, m at level 198) : prog_scope.
Open Scope prog_scope.

Section MonadLaws.
Context {D C E : Type}.

Lemma bind_ret_l {A B} (a : A) (k : A -> M D C E B) w : bind (ret a) k w = k a w.
Proof. reflexivity. Qed.

Lemma bind_assoc {A B X} (m : M D C E A) (k : A -> M D C E B) (h : B -> M D C E X) w :
  bind (bind m k) h w = bind m (fun a => bind (k a) h) w.
Proof. unfold bind. destruct (m w) as [[e|a] w']; reflexivity. Qed.

Lemma bind_ok {A B} (m : M D C E A) (k : A -> M D C E B) w a w' :
  m w = (inr a, w') -> bind m k w = k a w'.
Proof. unfold bind. intros ->. reflexivity. Qed.

Lemma bind_err {A B} (m : M D C E A) (k : A -> M D C E B) w e w' :
  m w = (inl e, w') -> bind m k w = (inl e, w').
Proof. unfold bind. intros ->. reflexivity. Qed.

Lemma bind_inv {A B} (m : M D C E A) (k : A -> M D C E B) w r w' :
  bind m k w = (r, w') ->
  (exists e, m w = (inl e, w') /\ r = inl e) \/
  (exists a w1, m w = (inr a, w1) /\ k a w1 = (r, w')).
Proof.
  unfold bind. destruct (m w) as [[e|a] w1]; intros H.
  - left. exists e. split; congruence.
  - right. eauto.
Qed.

Lemma catch_inv {A} (m : M D C E A) (h : E -> M D C E A) w r w' :
  catch m h w = (r, w') ->
  (exists a, m w = (inr a, w') /\ r = inr a) \/
  (exists e w1, m w = (inl e, w1) /\ h e w1 = (r, w')).
Proof.
  unfold catch. destruct (m w) as [[e|a] w1]; intros H.
  - right. eauto.
  - left. exists a. split; congruence.
Qed.
End MonadLaws.

(** ** Rely/guarantee

    [Spec I G m Q]: started in a store that satisfies the invariant [I], with
    other requests whose accesses keep [I] and make only changes in [G], the
    program [m] keeps [I], the store has only changed along [G] by the time it
    ends, and a result satisfies [Q].  For a preorder [G] the rules compose, so
    a request satisfies [Spec] as soon as each of its store accesses does. *)
Definition rely {D} (I : D -> Prop) (G : D -> D -> Prop) (env : list (D -> D)) : Prop :=
  Forall (fun f => forall d, I d -> I (f d) /\ G d (f d)) env.

(** A program only consumes interference, and its clock stands still. *)
Definition later {D C} (w w' : World D C) : Prop :=
  (exists used, w_env w = used ++ w_env w') /\ w_now w' = w_now w.

Lemma later_refl {D C} (w w' : World D C) : w_env w' = w_env w -> w_now w' = w_now w -> later w w'.
Proof. intros E1 E2. split; [exists []; rewrite E1; reflexivity | exact E2]. Qed.

Lemma later_trans {D C} (w1 w2 w3 : World D C) : later w1 w2 -> later w2 w3 -> later w1 w3.
Proof.
  intros [[u1 E1] N1] [[u2 E2] N2]. split; [exists (u1 ++ u2); rewrite E1, E2; apply app_assoc | congruence].
Qed.

Lemma later_alone {D C} (w w' : World D C) : later w w' -> w_env w = [] -> w_env w' = [].
Proof. intros [[u E] _] E0. rewrite E0 in E. destruct u; [|discriminate]. symmetry. exact E. Qed.

Lemma rely_later {D C} (I : D -> Prop) G (w w' : World D C) :
  later w w' -> rely I G (w_env w) -> rely I G (w_env w').
Proof. intros [[u E] _] H. unfold rely in *. rewrite E in H. apply Forall_app in H as [_ H]. exact H. Qed.

Definition Spec {D C E A} (I : D -> Prop) (G : D -> D -> Prop) (m : M D C E A) (Q : A -> Prop) : Prop :=
  forall w r w', I (w_db w) -> rely I G (w_env w) -> m w = (r, w') ->
    I (w_db w') /\ G (w_db w) (w_db w') /\ later w w' /\
    match r with inr a => Q a | inl _ => True end.

Definition Guar {D C E A} (I : D -> Prop) (G : D -> D -> Prop) (m : M D C E A) : Prop :=
  Spec I G m (fun _ => True).

Class StepRel {D} (G : D -> D -> Prop) : Prop := {
  step_refl : forall d, G d d;
  step_trans : forall d1 d2 d3, G d1 d2 -> G d2 d3 -> G d1 d3;
}.

Section Guarantee.
Context {D C E : Type} (I : D -> Prop) (G : D -> D -> Prop) `{!StepRel G}.

Lemma spec_weaken {A} (m : M D C E A) (Q R : A -> Prop) :
  Spec I G m Q -> (forall a, Q a -> R a) -> Spec I G m R.
Proof.
  intros Hm HQ w r w' Hi He Hw. destruct (Hm w r w' Hi He Hw) as (? & ? & ? & Hr).
  split; [assumption|]. split; [assumption|]. split; [assumption|]. destruct r; auto.
Qed.

Lemma spec_guar {A} (m : M D C E A) Q : Spec I G m Q -> Guar I G m.
Proof. intros H. apply (spec_weaken _ _ _ H). auto. Qed.

Lemma spec_pure {A} (m : M D C E A) (Q : A -> Prop) :
  (forall w, w_db (m w).2 = w_db w /\ w_env (m w).2 = w_env w /\ w_now (m w).2 = w_now w /\
             match (m w).1 with inr a => Q a | inl _ => True end) -> Spec I G m Q.
Proof.
  intros Hm w r w' Hi He Hw. specialize (Hm w). rewrite Hw in Hm. simpl in Hm.
  destruct Hm as (E1 & E2 & E3 & HQ). rewrite E1.
  split; [assumption|]. split; [apply step_refl|]. split; [apply later_refl; assumption | exact HQ].
Qed.

Lemma spec_ret {A} (a : A) (Q : A -> Prop) : Q a -> Spec I G (ret a : M D C E A) Q.
Proof. intros. apply spec_pure. intros w. repeat split. assumption. Qed.

Lemma guar_ret {A} (a : A) : Guar I G (ret a : M D C E A).
Proof. apply spec_ret. exact Logic.I. Qed.

Lemma spec_throw {A} (e : E) Q : Spec I G (throw e : M D C E A) Q.
Proof. apply spec_pure. intros w. repeat split. Qed.

Lemma guar_now : Guar I G (now : M D C E Z).
Proof. apply spec_pure. intros w. repeat split. Qed.

Lemma guar_record c : Guar I G (record c : M D C E unit).
Proof. apply spec_pure. intros w. repeat split. Qed.

Lemma spec_lift {A} (x : E + A) (Q : A -> Prop) :
  match x with inr a => Q a | inl _ => True end -> Spec I G (lift x : M D C E A) Q.
Proof. intros H. apply spec_pure. intros w. repeat split. exact H. Qed.

Lemma guar_lift {A} (x : E + A) : Guar I G (lift x : M D C E A).
Proof. apply spec_lift. destruct x; exact Logic.I. Qed.

Lemma spec_bind {A B} (m : M D C E A) (k : A -> M D C E B) Q R :
  Spec I G m Q -> (forall a, Q a -> Spec I G (k a) R) -> Spec I G (bind m k) R.
Proof.
  intros Hm Hk w r w' Hi He Hw.
  apply bind_inv in Hw as [(e & Hw & ->) | (a & w1 & Hw & Hw1)].
  - destruct (Hm _ _ _ Hi He Hw) as (? & ? & ? & _). auto.
  - destruct (Hm _ _ _ Hi He Hw) as (Hi1 & H1 & He1 & HQ).
    destruct (Hk a HQ _ _ _ Hi1 (rely_later _ _ _ _ He1 He) Hw1) as (Hi2 & H2 & He2 & HR).
    split; [assumption|]. split; [eapply step_trans; eassumption|].
    split; [eapply later_trans; eassumption | assumption].
Qed.

Lemma guar_bind {A B} (m : M D C E A) (k : A -> M D C E B) R :
  Guar I G m -> (forall a, Spec I G (k a) R) -> Spec I G (bind m k) R.
Proof. intros Hm Hk. apply (spec_bind _ _ _ _ Hm). auto. Qed.

Lemma guar_catch {A} (m : M D C E A) h Q :
  Spec I G m Q -> (forall e, Spec I G (h e) Q) -> Spec I G (catch m h) Q.
Proof.
  intros Hm Hh w r w' Hi He Hw.
  apply catch_inv in Hw as [(a & Hw & ->) | (e & w1 & Hw & Hw1)].
  - exact (Hm _ _ _ Hi He Hw).
  - destruct (Hm _ _ _ Hi He Hw) as (Hi1 & H1 & He1 & _).
    destruct (Hh e _ _ _ Hi1 (rely_later _ _ _ _ He1 He) Hw1) as (Hi2 & H2 & He2 & HQ).
    split; [assumption|]. split; [eapply step_trans; eassumption|].
    split; [eapply later_trans; eassumption | assumption].
Qed.

(** The obligation of one store access. *)
Lemma spec_atomic {A} (op : D -> (E + A) * D) (Q : A -> Prop) :
  (forall d, I d -> I (op d).2 /\ G d (op d).2 /\
             match (op d).1 with inr a => Q a | inl _ => True end) ->
  Spec I G (atomic (C := C) op) Q.
Proof.
  intros Hop w r w' Hi He Hw. unfold atomic in Hw.
  destruct (w_env w) as [|f fs] eqn:Henv.
  - destruct (op (w_db w)) as [r0 d'] eqn:Ho. injection Hw as <- <-. simpl.
    specialize (Hop (w_db w) Hi). rewrite Ho in Hop. destruct Hop as (? & ? & ?).
    split; [assumption|]. split; [assumption|]. split; [|assumption].
    apply later_refl; [exact (eq_sym Henv) | reflexivity].
  - destruct (op (f (w_db w))) as [r0 d'] eqn:Ho. injection Hw as <- <-. simpl.
    apply Forall_cons in He as [Hf Hfs]. destruct (Hf _ Hi) as [Hi1 H1].
    specialize (Hop (f (w_db w)) Hi1). rewrite Ho in Hop. destruct Hop as (? & ? & ?).
    split; [assumption|]. split; [eapply step_trans; eassumption|]. split; [|assumption].
    split; [exists [f]; exact Henv | reflexivity].
Qed.

(** With no interference a run ends in a world that differs by its store and calls. *)
Lemma guar_alone {A} (m : M D C E A) Q d t calls r w' :
  Spec I G m Q -> I d -> m (mkWorld d [] t calls) = (r, w') ->
  exists d' calls', w' = mkWorld d' [] t calls' /\ I d' /\ G d d'.
Proof.
  intros Hm Hd Hw. destruct (Hm (mkWorld d [] t calls) r w' Hd (Forall_nil_2 _) Hw) as (H1 & H2 & H3 & _).
  exists (w_db w'), (w_calls w'). split; [|auto].
  pose proof (later_alone _ _ H3 eq_refl) as He. destruct H3 as [_ Hn]. simpl in Hn.
  destruct w'; simpl in *; subst; reflexivity.
Qed.

(** What a read returns was in a store that satisfies the invariant. *)
Lemma spec_query {A} (q : D -> A) : Spec I G (query q : M D C E A) (fun a => exists d, I d /\ a = q d).
Proof. apply spec_atomic. simpl. intros d Hd. split; [assumption | split; [apply step_refl | eauto]]. Qed.

Lemma spec_exec {A} (op : D -> A * D) (Q : A -> Prop) :
  (forall d, I d -> I (op d).2 /\ G d (op d).2 /\ Q (op d).1) -> Spec I G (exec op : M D C E A) Q.
Proof.
  intros Hop. apply spec_atomic. intros d Hd. specialize (Hop d Hd).
  destruct (op d). exact Hop.
Qed.

Lemma guar_exec {A} (op : D -> A * D) :
  (forall d, I d -> I (op d).2 /\ G d (op d).2) -> Guar I G (exec op : M D C E A).
Proof. intros H. apply spec_exec. intros d Hd. destruct (H d Hd). auto. Qed.

Lemma guar_forM {A} (l : list A) (f : A -> M D C E unit) :
  (forall a, In a l -> Guar I G (f a)) -> Guar I G (forM l f).
Proof.
  induction l as [|a l IH]; intros Hf; simpl.
  - apply guar_ret.
  - apply guar_bind; [apply Hf; simpl; auto | intros; apply IH; intros; apply Hf; simpl; auto].
Qed.

Lemma spec_foldM {A B} (f : B -> A -> M D C E B) (Q : B -> Prop) l :
  (forall b a, In a l -> Q b -> Spec I G (f b a) Q) -> forall b, Q b -> Spec I G (foldM f b l) Q.
Proof.
  induction l as [|a l IH]; intros Hf b Hb; simpl.
  - apply spec_ret. assumption.
  - apply (spec_bind _ _ Q).
    + apply Hf; simpl; auto.
    + intros b' Hb'. apply IH; [|assumption]. intros; apply Hf; simpl; auto.
Qed.
End Guarantee.

(** The guarantees of the handlers are found by this database: the rules above,
    and one lemma per store operation and per sub-handler. *)
Create HintDb guar discriminated.
#[export] Hint Resolve guar_ret spec_throw guar_now guar_record guar_lift : guar.

Lemma guar_query {D C E} (I : D -> Prop) (G : D -> D -> Prop) `{!StepRel G} {A} (q : D -> A) :
  Guar I G (query q : M D C E A).
Proof. apply (spec_guar _ _ _ _ (spec_query I G q)). Qed.
#[export] Hint Resolve guar_query : guar.

(** One rule of the program's structure.  A read hands its result over with the
    store it came from. *)
Ltac guar_step :=
  match goal with
  | |- Spec _ _ (bind (query _) _) _ =>
      let d := fresh "d" in let Hd := fresh "Hd" in
      eapply (spec_bind _ _ _ _ _ _ (spec_query _ _ _)); intros ? (d & Hd & ->)
  | |- Spec _ _ (bind _ _) _ => apply guar_bind; [typeclasses eauto | | intros ?]
  | |- Spec _ _ (catch _ _) _ => apply guar_catch; [typeclasses eauto | | intros ?]
  | |- Spec _ _ (forM _ _) _ => apply guar_forM; [typeclasses eauto | intros ? ?]
  | |- Spec _ _ (match ?x with _ => _ end) _ => destruct x eqn:?
  | |- Spec _ _ (let _ := _ in _) _ => cbv zeta
  | |- Guar _ _ _ => unfold Guar
  end.
Ltac guar_leaf :=
  try match goal with |- Spec ?I ?G ?m (fun _ => True) => change (Guar I G m) end;
  solve [eauto with guar typeclass_instances nocore | apply spec_throw; typeclasses eauto].
Ltac guar := repeat first [ guar_leaf | guar_step ].

(** ** SQL and array helpers *)
Section ListOps.
Context {A : Type}.

(** [UPDATE ... SET f WHERE p]: every matching row; [RETURNING] lists the new rows. *)
Definition update_where (p : A -> bool) (f : A -> A) (l : list A) : list A :=
  List.map (fun x => if p x then f x else x) l.
Definition returning (p : A -> bool) (f : A -> A) (l : list A) : list A :=
  List.map f (List.filter p l).

(** A stable sort: [Array.prototype.sort] is stable since ES2019. *)
Section Sort.
Variable leb : A -> A -> bool.
Fixpoint sinsert (x : A) (l : list A) : list A :=
  match l with
  | [] => [x]
  | y :: l' => if leb x y then x :: y :: l' else y :: sinsert x l'
  end.
Fixpoint isort (l : list A) : list A :=
  match l with
  | [] => []
  | x :: l' => sinsert x (isort l')
  end.
End Sort.

Definition sumZ (f : A -> Z) (l : list A) : Z := List.fold_right (fun x s => f x + s) 0 l.
End ListOps.

Section ListLemmas.
Context {A : Type}.
Implicit Types l : list A.

Lemma sumZ_app (f : A -> Z) l1 l2 : sumZ f (l1 ++ l2) = sumZ f l1 + sumZ f l2.
Proof. induction l1; simpl; lia. Qed.

Lemma sumZ_nonneg (f : A -> Z) l : (forall x, In x l -> 0 <= f x) -> 0 <= sumZ f l.
Proof.
  induction l as [|x l IH]; intros H; simpl; [lia|].
  specialize (H x (or_introl eq_refl)) as Hx. enough (0 <= sumZ f l) by lia.
  apply IH. intros y Hy. apply H. right. exact Hy.
Qed.

Lemma sumZ_ext (f g : A -> Z) l : (forall x, In x l -> f x = g x) -> sumZ f l = sumZ g l.
Proof.
  induction l as [|x l IH]; intros H; simpl; [reflexivity|].
  rewrite (H x) by (left; reflexivity). rewrite IH; [reflexivity|].
  intros y Hy. apply H. right. exact Hy.
Qed.

Lemma sumZ_perm (f : A -> Z) l1 l2 : l1 ≡ₚ l2 -> sumZ f l1 = sumZ f l2.
Proof. induction 1; simpl; lia. Qed.

Lemma fold_left_sumZ (f : A -> Z) l a :
  List.fold_left (fun s x => s + f x) l a = a + sumZ f l.
Proof. revert a. induction l as [|x l IH]; intros a; simpl; [lia|]. rewrite IH. lia. Qed.

Lemma update_where_length p f l : length (update_where p f l) = length l.
Proof. apply length_map. Qed.

Lemma in_update_where p f l (y : A) :
  In y (update_where p f l) <-> exists x, In x l /\ y = if p x then f x else x.
Proof.
  unfold update_where. rewrite in_map_iff. split; intros (x & H1 & H2); exists x; auto.
Qed.

Lemma map_update_where {B} (key : A -> B) p f l :
  (forall x, p x = true -> key (f x) = key x) -> List.map key (update_where p f l) = List.map key l.
Proof.
  intros Hk. unfold update_where. rewrite List.map_map. apply List.map_ext.
  intros x. destruct (p x) eqn:E; auto.
Qed.

Lemma update_where_none p f l :
  List.filter p l = [] -> update_where p f l = l.
Proof.
  induction l as [|x l IH]; simpl; [reflexivity|].
  destruct (p x) eqn:Hp; [discriminate|]. intros H. rewrite IH; auto.
Qed.

Lemma find_update_where_other p q f l :
  (forall x, p x = true -> q x = false) ->
  (forall x, p x = true -> q (f x) = false) ->
  List.find q (update_where p f l) = List.find q l.
Proof.
  intros H1 H2. induction l as [|x l IH]; simpl; [reflexivity|].
  destruct (p x) eqn:Hp.
  - rewrite (H1 x Hp), (H2 x Hp). apply IH.
  - destruct (q x); [reflexivity | apply IH].
Qed.

(** A search by a predicate the update keeps finds the updated row. *)
Lemma find_update_where p q f l :
  (forall x, q (f x) = q x) ->
  List.find q (update_where p f l) =
  match List.find q l with
  | Some x => Some (if p x then f x else x)
  | None => None
  end.
Proof.
  intros Hq. induction l as [|x l IH]; simpl; [reflexivity|].
  destruct (p x) eqn:Hp.
  - rewrite Hq. destruct (q x) eqn:Hqx; [rewrite Hp; reflexivity | apply IH].
  - destruct (q x) eqn:Hqx; [rewrite Hp; reflexivity | apply IH].
Qed.

Lemma find_app (q : A -> bool) l1 l2 :
  List.find q (l1 ++ l2) =
  match List.find q l1 with Some x => Some x | None => List.find q l2 end.
Proof.
  induction l1 as [|x l1 IH]; simpl; [reflexivity|]. destruct (q x); auto.
Qed.

Lemma find_none_filter (q : A -> bool) l : List.find q l = None <-> List.filter q l = [].
Proof.
  induction l as [|x l IH]; simpl; [tauto|]. destruct (q x); [split; discriminate | exact IH].
Qed.

Lemma filter_none (q : A -> bool) l : Forall (fun x => q x = false) l -> List.filter q l = [].
Proof. induction 1 as [|x l Hx _ IH]; simpl; [reflexivity|]. rewrite Hx. exact IH. Qed.

Lemma filter_perm (p : A -> bool) l1 l2 : l1 ≡ₚ l2 -> List.filter p l1 ≡ₚ List.filter p l2.
Proof.
  induction 1; simpl; repeat case_match; try reflexivity; eauto using Permutation_swap, Permutation_trans.
Qed.

Lemma filter_length_perm (q : A -> bool) l1 l2 :
  l1 ≡ₚ l2 -> length (List.filter q l1) = length (List.filter q l2).
Proof.
  induction 1; simpl; try congruence; repeat destruct (q _); simpl; congruence.
Qed.
End ListLemmas.

Section SortLemmas.
Context {A : Type} (leb : A -> A -> bool).
Hypothesis leb_total : forall x y, leb x y = true \/ leb y x = true.
Hypothesis leb_trans : forall x y z, leb x y = true -> leb y z = true -> leb x z = true.

Lemma sinsert_perm x l : sinsert leb x l ≡ₚ x :: l.
Proof.
  induction l as [|y l IH]; simpl; [reflexivity|].
  destruct (leb x y); [reflexivity|]. rewrite IH. apply Permutation_swap.
Qed.

Lemma isort_perm l : isort leb l ≡ₚ l.
Proof. induction l as [|x l IH]; simpl; [reflexivity|]. rewrite sinsert_perm, IH. reflexivity. Qed.

Lemma isort_in x l : In x (isort leb l) <-> In x l.
Proof. split; apply Permutation_in; [|symmetry]; apply isort_perm. Qed.

Lemma sinsert_sorted x l :
  StronglySorted (fun a b => leb a b = true) l ->
  StronglySorted (fun a b => leb a b = true) (sinsert leb x l).
Proof.
  induction 1 as [|y l Hl IH Hy]; simpl; [repeat constructor|].
  destruct (leb x y) eqn:Hxy.
  - constructor; [constructor; assumption|]. constructor; [assumption|].
    eapply Forall_impl; [exact Hy|]. intros z. apply leb_trans. assumption.
  - constructor; [assumption|]. apply Forall_forall. intros z Hz.
    apply list_elem_of_In in Hz. apply (Permutation_in _ (sinsert_perm x l)) in Hz as [<-|Hz].
    + destruct (leb_total x y); congruence.
    + rewrite Forall_forall in Hy. apply Hy. apply list_elem_of_In. assumption.
Qed.

Lemma isort_sorted l : StronglySorted (fun a b => leb a b = true) (isort leb l).
Proof. induction l; simpl; [constructor | apply sinsert_sorted; assumption]. Qed.
End SortLemmas.

(** A table whose rows are only changed along [R] and never removed. *)
Definition extends {A} (R : A -> A -> Prop) (l l' : list A) : Prop :=
  exists l1 l2, l' = l1 ++ l2 /\ Forall2 R l l1.

Section Extends.
Context {A : Type} (R : A -> A -> Prop) `{!PreOrder R}.

#[export] Instance extends_preorder : PreOrder (extends R).
Proof.
  split.
  - intros l. exists l, []. rewrite app_nil_r. split; [reflexivity|].
    apply Forall_Forall2_diag, Forall_forall. reflexivity.
  - intros l1 l2 l3 (a1 & b1 & -> & H1) (a2 & b2 & -> & H2).
    apply Forall2_app_inv_l in H2 as (c1 & c2 & Hc1 & Hc2 & ->).
    exists c1, (c2 ++ b2). rewrite app_assoc. split; [reflexivity|].
    eapply Forall2_trans; [|exact H1|exact Hc1]. intros x y z. apply transitivity.
Qed.

Lemma extends_app l x : extends R l (l ++ x).
Proof. exists l, x. split; [reflexivity|]. apply Forall_Forall2_diag, Forall_forall. reflexivity. Qed.

Lemma extends_update p f l : (forall x, p x = true -> R x (f x)) -> extends R l (update_where p f l).
Proof.
  intros H. exists (update_where p f l), []. rewrite app_nil_r. split; [reflexivity|].
  induction l as [|x l IH]; simpl; constructor; auto. destruct (p x) eqn:E; [auto | reflexivity].
Qed.

(** Every row of the earlier table still stands, as its [R]-successor. *)
Lemma extends_in l l' x : extends R l l' -> In x l -> exists x', In x' l' /\ R x x'.
Proof.
  intros (l1 & l2 & -> & H) Hin. apply In_nth_error in Hin as [n Hn].
  revert n Hn. induction H as [|y y' l l1 Hy _ IH]; intros n Hn; [destruct n; discriminate|].
  destruct n; simpl in Hn.
  - injection Hn as <-. exists y'. simpl. auto.
  - destruct (IH n Hn) as (x' & Hin & HR). exists x'. simpl. auto.
Qed.
End Extends.

(** ** Keys *)
Section Keys.
Context {A B : Type}.

Lemma NoDup_sublist (l1 l2 : list A) : sublist l1 l2 -> NoDup l2 -> NoDup l1.
Proof.
  induction 1 as [|x l1 l2 Hs IH|x l1 l2 Hs IH]; [auto| |].
  - intros H. apply NoDup_cons in H as [Hn Hd]. apply NoDup_cons. split; [|auto].
    intros Hin. apply Hn. eapply elem_of_sublist; eassumption.
  - intros H. apply NoDup_cons in H as [_ Hd]. auto.
Qed.

(** Rows with a unique key are told apart by it. *)
Lemma NoDup_key_inj (key : A -> B) l x y :
  NoDup (List.map key l) -> In x l -> In y l -> key x = key y -> x = y.
Proof.
  induction l as [|z l IH]; simpl; [contradiction|].
  intros H Hx Hy E. apply NoDup_cons in H as [Hn Hd].
  assert (Hk : forall w, In w l -> key w <> key z).
  { intros w Hw Ew. apply Hn. rewrite <- Ew. apply list_elem_of_In, in_map. exact Hw. }
  destruct Hx as [<-|Hx], Hy as [<-|Hy]; auto; [destruct (Hk y Hy) | destruct (Hk x Hx)]; congruence.
Qed.
End Keys.

(** ** Strings *)
Definition str_eqb : string -> string -> bool := String.eqb.
Lemma str_eqb_eq s t : str_eqb s t = true <-> s = t.
Proof. apply String.eqb_eq. Qed.
Lemma str_eqb_refl s : str_eqb s s = true.
Proof. apply String.eqb_refl. Qed.

Definition ostr_eqb (a b : option string) : bool :=
  match a, b with
  | None, None => true
  | Some x, Some y => str_eqb x y
  | _, _ => false
  end.
Lemma ostr_eqb_eq a b : ostr_eqb a b = true <-> a = b.
Proof.
  destruct a, b; simpl; try (split; congruence).
  rewrite str_eqb_eq. split; congruence.
Qed.

Definition oz_eqb (a b : option Z) : bool :=
  match a, b with
  | None, None => true
  | Some x, Some y => x =? y
  | _, _ => false
  end.
Lemma oz_eqb_eq a b : oz_eqb a b = true <-> a = b.
Proof.
  destruct a, b; simpl; try (split; congruence).
  rewrite Z.eqb_eq. split; congruence.
Qed.

(** Closing tactic for a request's run: split the [bind]s of a hypothesis. *)
Ltac run_inv H :=
  repeat match type of H with
  | bind _ _ _ = (_, _) =>
      let e := fresh "e" in let a := fresh "a" in let w1 := fresh "w1" in
      let H1 := fresh "Hrun" in
      apply bind_inv in H as [(e & H1 & ->) | (a & w1 & H1 & H)]
  end.

(** Boolean tests of the code, as propositions. *)
Ltac bools :=
  repeat match goal with
  | H : _ && _ = true |- _ => apply andb_prop in H as [? ?]
  | H : _ || _ = false |- _ => apply orb_false_elim in H as [? ?]
  | H : negb _ = true |- _ => apply negb_true_iff in H
  | H : negb _ = false |- _ => apply negb_false_iff in H
  | H : (_ <? _) = true |- _ => apply Z.ltb_lt in H
  | H : (_ <? _) = false |- _ => apply Z.ltb_ge in H
  | H : (_ <=? _) = true |- _ => apply Z.leb_le in H
  | H : (_ <=? _) = false |- _ => apply Z.leb_gt in H
  | H : (_ =? _) = true |- _ => apply Z.eqb_eq in H
  | H : (_ =? _) = false |- _ => apply Z.eqb_neq in H
  | H : str_eqb _ _ = true |- _ => apply (proj1 (str_eqb_eq _ _)) in H
  | H : ostr_eqb _ _ = true |- _ => apply (proj1 (ostr_eqb_eq _ _)) in H
  | H : oz_eqb _ _ = true |- _ => apply (proj1 (oz_eqb_eq _ _)) in H
  | H : bool_decide _ = true |- _ => apply bool_decide_eq_true_1 in H
  | H : bool_decide _ = false |- _ => apply bool_decide_eq_false_1 in H
  end.
