(* ===== verification/JsString.v ===== *)
(** JavaScript's string functions, on ASCII strings: [trim], [toLowerCase],
    [split] on one character, removal of a character, [encodeURIComponent] and
    the grouping of [toLocaleString(en-US)]. *)
From Stdlib Require Import Ascii.
From S2P Require Import Prelude.
From stdpp Require Import list strings pretty.
#[local] Open Scope string_scope.
#[local] Open Scope Z_scope.

Definition isWhite (c : ascii) : bool :=
  let n := Z.of_nat (nat_of_ascii c) in ((9 <=? n) && (n <=? 13)) || (n =? 32).

Definition lowerAscii (c : ascii) : ascii :=
  let n := nat_of_ascii c in
  if ((65 <=? Z.of_nat n) && (Z.of_nat n <=? 90))%Z then ascii_of_nat (n + 32) else c.

Fixpoint mapString (f : ascii -> ascii) (s : string) : string :=
  match s with
  | EmptyString => EmptyString
  | String c s' => String (f c) (mapString f s')
  end.

Definition toLowerCase (s : string) : string := mapString lowerAscii s.

Fixpoint trimStart (s : string) : string :=
  match s with
  | EmptyString => EmptyString
  | String c s' => if isWhite c then trimStart s' else s
  end.

Fixpoint trimEnd (s : string) : string :=
  match s with
  | EmptyString => EmptyString
  | String c s' =>
      match trimEnd s' with
      | EmptyString => if isWhite c then EmptyString else String c EmptyString
      | r => String c r
      end
  end.

Definition trim (s : string) : string := trimEnd (trimStart s).

(** [s.replace(/\/+$/, '')] *)
Fixpoint dropTrailingSlashes (s : string) : string :=
  match s with
  | EmptyString => EmptyString
  | String c s' =>
      match dropTrailingSlashes s' with
      | EmptyString => if Ascii.eqb c "/"%char then EmptyString else String c EmptyString
      | r => String c r
      end
  end.

(** [s.split(sep)] for a one-character separator: never the empty list. *)
Fixpoint splitOn (sep : ascii) (s : string) : list string :=
  match s with
  | EmptyString => [EmptyString]
  | String c s' =>
      if Ascii.eqb c sep then EmptyString :: splitOn sep s'
      else match splitOn sep s' with
           | [] => [String c EmptyString]
           | p :: ps => String c p :: ps
           end
  end.

(** [s.replace(/c/g, "")]. *)
Fixpoint removeAll (c : ascii) (s : string) : string :=
  match s with
  | EmptyString => EmptyString
  | String a s' => if Ascii.eqb a c then removeAll c s' else String a (removeAll c s')
  end.

(** A character [encodeURIComponent] leaves alone. *)
Definition isUnreserved (c : ascii) : bool :=
  let n := Z.of_nat (nat_of_ascii c) in
  ((48 <=? n) && (n <=? 57)) || ((65 <=? n) && (n <=? 90)) || ((97 <=? n) && (n <=? 122))
  || List.existsb (Ascii.eqb c) ["-"; "_"; "."; "!"; "~"; "*"; "'"; "("; ")"]%char.

Definition upperHexDigit (n : nat) : ascii :=
  ascii_of_nat (if Nat.ltb n 10 then 48 + n else 55 + n).

Fixpoint encodeURIComponent (s : string) : string :=
  match s with
  | EmptyString => EmptyString
  | String c s' =>
      if isUnreserved c then String c (encodeURIComponent s')
      else String "%" (String (upperHexDigit (nat_of_ascii c / 16))
             (String (upperHexDigit (nat_of_ascii c mod 16)) (encodeURIComponent s')))
  end.

(** The part of [s] before its first [c]. *)
Fixpoint before (c : ascii) (s : string) : string :=
  match s with
  | EmptyString => EmptyString
  | String a s' => if Ascii.eqb a c then EmptyString else String a (before c s')
  end.

(** Digits grouped by three from the right. *)
Fixpoint groupThousands (s : string) : string :=
  match s with
  | EmptyString => EmptyString
  | String c s' =>
      String c ((if Nat.eqb (String.length s' mod 3) 0 && negb (str_eqb s' "") then "," else "")
                ++ groupThousands s')
  end.
Definition localeEnUS (n : Z) : string := groupThousands (pretty n).

(** ** Lemmas *)
Lemma append_cons c s t : (String c s ++ t)%string = String c (s ++ t)%string.
Proof. reflexivity. Qed.
Lemma append_nil_l t : ("" ++ t)%string = t.
Proof. reflexivity. Qed.
Lemma append_nil_r s : (s ++ "")%string = s.
Proof. induction s as [|c s IH]; [reflexivity|]. rewrite append_cons, IH. reflexivity. Qed.
Lemma append_assoc s t u : (s ++ t ++ u)%string = ((s ++ t) ++ u)%string.
Proof. induction s as [|c s IH]; [reflexivity|]. rewrite !append_cons, IH. reflexivity. Qed.

Fixpoint allChars (p : ascii -> bool) (s : string) : bool :=
  match s with EmptyString => true | String c s' => p c && allChars p s' end.

Lemma allChars_app p s t : allChars p (s ++ t) = allChars p s && allChars p t.
Proof.
  induction s as [|c s IH]; [reflexivity|]. rewrite append_cons. simpl. rewrite IH. apply andb_assoc.
Qed.

Lemma trim_plain s : allChars (fun c => negb (isWhite c)) s = true -> trim s = s.
Proof.
  intros H. unfold trim.
  assert (E : trimStart s = s).
  { destruct s as [|c s]; [reflexivity|]. cbn in *. bools. rewrite H. reflexivity. }
  rewrite E. clear E. induction s as [|c s IH]; [reflexivity|]. cbn [allChars trimEnd] in *. bools.
  rewrite IH by assumption. destruct s; [rewrite H; reflexivity|reflexivity].
Qed.

Lemma mapString_app f s t : mapString f (s ++ t) = (mapString f s ++ mapString f t)%string.
Proof. induction s as [|c s IH]; [reflexivity|]. rewrite append_cons. simpl. rewrite IH. reflexivity. Qed.

Lemma append_assoc_ (a b c : string) : ((a ++ b) ++ c = a ++ (b ++ c))%string.
Proof. induction a as [|x a IH]; [reflexivity|]. change (String x ((a ++ b) ++ c) = String x (a ++ (b ++ c))). rewrite IH. reflexivity. Qed.

Lemma append_nil_ (a : string) : (a ++ "" = a)%string.
Proof. induction a as [|x a IH]; [reflexivity|]. change (String x (a ++ "") = String x a). rewrite IH. reflexivity. Qed.

Lemma splitOn_app sep s t :
  allChars (fun c => negb (Ascii.eqb c sep)) s = true ->
  splitOn sep (s ++ String sep t) = s :: splitOn sep t.
Proof.
  induction s as [|c s IH]; intros H; rewrite ?append_nil_l, ?append_cons; cbn -[Ascii.eqb] in *.
  - rewrite Ascii.eqb_refl. reflexivity.
  - bools. rewrite H. rewrite IH by assumption. reflexivity.
Qed.

Lemma splitOn_none sep s :
  allChars (fun c => negb (Ascii.eqb c sep)) s = true -> splitOn sep s = [s].
Proof.
  induction s as [|c s IH]; intros H; cbn -[Ascii.eqb] in *; [reflexivity|].
  bools. rewrite H, IH by assumption. reflexivity.
Qed.

Lemma allChars_map p f s : (forall c, p (f c) = p c) -> allChars p (mapString f s) = allChars p s.
Proof. intros H. induction s as [|c s IH]; [reflexivity|]. simpl. rewrite H, IH. reflexivity. Qed.

