(* ===== verification/Substring.v ===== *)
(** Searching a string for another: JavaScript's [indexOf], [includes], [startsWith],
    [endsWith] and [split(text).join(text)], with the lemmas that tell where an occurrence
    can lie.  A search is for the leftmost occurrence. *)
From Stdlib Require Import Ascii.
From S2P Require Import Prelude JsString.
From stdpp Require Import list strings.
#[local] Open Scope Z_scope.

(** [s.startsWith(p)], with what follows. *)
Fixpoint stripPrefix (p s : string) : option string :=
  match p, s with
  | EmptyString, _ => Some s
  | String a p, String c s => if Ascii.eqb a c then stripPrefix p s else None
  | String _ _, EmptyString => None
  end.
Definition startsWith (p s : string) : bool := match stripPrefix p s with Some _ => true | None => false end.

(** What comes before the leftmost occurrence, and what follows it; [None] is an [indexOf] of -1. *)
Fixpoint cut (p s : string) : option (string * string) :=
  match stripPrefix p s with
  | Some rest => Some (EmptyString, rest)
  | None =>
      match s with
      | EmptyString => None
      | String c s' => match cut p s' with Some (a, b) => Some (String c a, b) | None => None end
      end
  end.
Definition occurs (p s : string) : bool := match cut p s with Some _ => true | None => false end.
Definition endsWith (p s : string) : bool :=
  (String.length p <=? String.length s)%nat && str_eqb (String.substring (String.length s - String.length p) (String.length p) s) p.

(** [s.split(p)] for a text [p] that is not empty: each cut takes a character of [fuel]. *)
Fixpoint pieces (fuel : nat) (p s : string) : list string :=
  match fuel with
  | O => [s]
  | S fuel => match cut p s with Some (a, b) => a :: pieces fuel p b | None => [s] end
  end.
Definition splitBy (p s : string) : list string := pieces (S (String.length s)) p s.
(** [s.split(p).join(r)] *)
Definition replaceAll (p r s : string) : string := String.concat r (splitBy p s).

(** ** Where an occurrence lies *)
Lemma append_length (a b : string) : String.length (a +:+ b) = (String.length a + String.length b)%nat.
Proof. induction a as [|c a IH]; [reflexivity|]. exact (f_equal S IH). Qed.

Lemma stripPrefix_iff p : forall s rest, stripPrefix p s = Some rest <-> s = p +:+ rest.
Proof.
  induction p as [|a p IH]; intros [|c s] rest; cbn [stripPrefix]; rewrite ?append_nil_l, ?append_cons; try (split; congruence).
  destruct (Ascii.eqb_spec a c) as [->|Hn]; [rewrite IH; split; congruence | split; congruence].
Qed.

Lemma stripPrefix_app p s r rest : stripPrefix p s = Some rest -> stripPrefix p (s +:+ r) = Some (rest +:+ r).
Proof. rewrite !stripPrefix_iff. intros ->. apply append_assoc_. Qed.

(** Whether a text is at the start does not depend on what lies beyond its length. *)
Lemma stripPrefix_short p : forall s r r', (String.length p <= String.length s)%nat ->
  stripPrefix p (s +:+ r) = None -> stripPrefix p (s +:+ r') = None.
Proof.
  induction p as [|a p IH]; intros [|c s] r r' Hl H; cbn [String.length] in Hl; try lia; [discriminate H .. |].
  rewrite append_cons in *. cbn [stripPrefix] in *. destruct (Ascii.eqb a c); [|reflexivity]. apply (IH s r r'); [lia|exact H].
Qed.

Lemma cut_app p : forall s a b, cut p s = Some (a, b) -> s = a +:+ p +:+ b.
Proof.
  induction s as [|c s IH]; intros a b; cbn [cut]; destruct (stripPrefix p _) as [rest|] eqn:E; try discriminate.
  - intros [= <- <-]. rewrite append_nil_l. apply stripPrefix_iff, E.
  - intros [= <- <-]. rewrite append_nil_l. apply stripPrefix_iff, E.
  - destruct (cut p s) as [[x y]|] eqn:Ec; [|discriminate]. intros [= <- <-]. rewrite append_cons. f_equal. apply IH, eq_refl.
Qed.

(** What follows the leftmost occurrence does not move it. *)
Lemma cut_stable p r r' : forall a, cut p (a +:+ p +:+ r) = Some (a, r) -> cut p (a +:+ p +:+ r') = Some (a, r').
Proof.
  assert (Hat : forall z, stripPrefix p (p +:+ z) = Some z) by (intros z; apply stripPrefix_iff; reflexivity).
  induction a as [|c a IH]; intros H.
  - rewrite append_nil_l. destruct (p +:+ r') eqn:E; cbn [cut]; rewrite <- E, Hat; reflexivity.
  - rewrite append_cons in *. cbn [cut] in *. destruct (stripPrefix p (String c (a +:+ p +:+ r))) as [rest|] eqn:E; [discriminate|].
    destruct (cut p (a +:+ p +:+ r)) as [[x y]|] eqn:Ec; [|discriminate]. injection H as -> ->.
    rewrite (IH eq_refl). rewrite <- append_assoc_, <- append_cons in *.
    rewrite (stripPrefix_short p (String c (a +:+ p)) r r'); [reflexivity| |exact E].
    cbn [String.length]. rewrite append_length. lia.
Qed.

Lemma cut_found p s a b : cut p s = Some (a, b) -> occurs p s = true.
Proof. unfold occurs. intros ->. reflexivity. Qed.

Lemma occurs_cons p c s : occurs p (String c s) = startsWith p (String c s) || occurs p s.
Proof. unfold occurs, startsWith. cbn [cut]. destruct (stripPrefix p _); [reflexivity|]. destruct (cut p s) as [[]|]; reflexivity. Qed.

Lemma occurs_tail p a s : occurs p s = true -> occurs p (a +:+ s) = true.
Proof. intros H. induction a as [|c a IH]; [exact H|]. rewrite append_cons, occurs_cons, IH. apply orb_true_r. Qed.

Lemma occurs_head p s : forall r, occurs p s = true -> occurs p (s +:+ r) = true.
Proof.
  intros r. induction s as [|c s IH]; intros H.
  - destruct p; [|discriminate H]. destruct r; reflexivity.
  - rewrite append_cons, occurs_cons in *. apply orb_prop in H as [H|H]; [|rewrite (IH H); apply orb_true_r].
    unfold startsWith in *. destruct (stripPrefix p (String c s)) as [rest|] eqn:E; [|discriminate].
    rewrite <- append_cons, (stripPrefix_app _ _ r _ E). reflexivity.
Qed.

Lemma occurs_infix p a s b : occurs p (a +:+ s +:+ b) = false -> occurs p s = false.
Proof.
  intros H. destruct (occurs p s) eqn:E; [|reflexivity]. rewrite (occurs_tail p a _ (occurs_head p s b E)) in H. discriminate.
Qed.

(** A character that a text does not have separates its occurrences. *)
Lemma startsWith_sep c p : forall s r, allChars (fun x => negb (Ascii.eqb x c)) p = true ->
  startsWith p (s +:+ String c r) = startsWith p s.
Proof.
  unfold startsWith. induction p as [|a p IH]; intros s r H; [reflexivity|]. cbn [allChars] in H. apply andb_prop in H as [Ha Hp].
  destruct s as [|b s].
  - rewrite append_nil_l. cbn [stripPrefix]. destruct (Ascii.eqb a c); [discriminate|reflexivity].
  - rewrite append_cons. cbn [stripPrefix]. destruct (Ascii.eqb a b); [apply IH, Hp|reflexivity].
Qed.

Lemma occurs_sep c p s r : allChars (fun x => negb (Ascii.eqb x c)) p = true -> p <> EmptyString ->
  occurs p (s +:+ String c r) = occurs p s || occurs p r.
Proof.
  intros Hp Hn. induction s as [|b s IH].
  - rewrite append_nil_l, occurs_cons. pose proof (startsWith_sep c p EmptyString r Hp) as E. rewrite append_nil_l in E. rewrite E.
    destruct p; [congruence|reflexivity].
  - rewrite append_cons, !occurs_cons, IH, <- append_cons, startsWith_sep by assumption. rewrite orb_assoc. reflexivity.
Qed.

(** ** Cutting and replacing *)
Lemma cut_before p : p <> EmptyString -> forall s a b, cut p s = Some (a, b) -> occurs p a = false.
Proof.
  intros Hn. assert (He : occurs p EmptyString = false) by (destruct p; [congruence|reflexivity]).
  induction s as [|c s IH]; intros a b; cbn [cut]; destruct (stripPrefix p _) as [rest|] eqn:E; try discriminate.
  - intros [= <- _]. exact He.
  - intros [= <- _]. exact He.
  - destruct (cut p s) as [[x y]|] eqn:Ec; [|discriminate]. intros [= <- <-]. rewrite occurs_cons, (IH x y eq_refl), orb_false_r.
    unfold startsWith. destruct (stripPrefix p (String c x)) as [rest|] eqn:Ex; [|reflexivity].
    apply (stripPrefix_app _ _ (p +:+ y)) in Ex. rewrite append_cons, <- (cut_app _ _ _ _ Ec) in Ex. congruence.
Qed.

Lemma cut_none p s : cut p s = None -> occurs p s = false.
Proof. unfold occurs. intros ->. reflexivity. Qed.

Lemma pieces_clean p : p <> EmptyString -> forall fuel s, (String.length s < fuel)%nat -> Forall (fun x => occurs p x = false) (pieces fuel p s).
Proof.
  intros Hn. induction fuel as [|fuel IH]; intros s Hf; [lia|]. cbn [pieces].
  destruct (cut p s) as [[a b]|] eqn:E; [|constructor; [apply cut_none, E | constructor]].
  constructor; [eapply cut_before; eassumption|]. apply IH. apply cut_app in E. subst s. rewrite !append_length in Hf.
  destruct p; [congruence|]. cbn [String.length] in Hf. lia.
Qed.

Lemma pieces_keep p q : forall fuel s, occurs q s = false -> Forall (fun x => occurs q x = false) (pieces fuel p s).
Proof.
  induction fuel as [|fuel IH]; intros s Hq; cbn [pieces]; [constructor; [exact Hq|constructor]|].
  destruct (cut p s) as [[a b]|] eqn:E; [|constructor; [exact Hq|constructor]].
  apply cut_app in E. subst s. constructor.
  - apply (occurs_infix q EmptyString a (p +:+ b)), Hq.
  - apply IH. apply (occurs_infix q (a +:+ p) b EmptyString). rewrite append_nil_, append_assoc_. exact Hq.
Qed.

(** A text that is written between brackets. *)
Definition bracketed (m : string) : string := String "[" (m +:+ "]").
Definition unbracketed (p : string) : bool :=
  allChars (fun x => negb (Ascii.eqb x "["%char)) p && allChars (fun x => negb (Ascii.eqb x "]"%char)) p.

Lemma occurs_join q m l : unbracketed q = true -> q <> EmptyString -> occurs q m = false ->
  Forall (fun x => occurs q x = false) l -> occurs q (String.concat (bracketed m) l) = false.
Proof.
  intros Hu Hn Hm Hl. apply andb_prop in Hu as [Ho Hc].
  induction Hl as [|x l Hx Hl IH]; [destruct q; [congruence|reflexivity]|].
  destruct l as [|y l]; [exact Hx|].
  change (String.concat _ (x :: y :: l)) with (x +:+ bracketed m +:+ String.concat (bracketed m) (y :: l)).
  unfold bracketed at 1. rewrite append_cons, occurs_sep, append_assoc_ by assumption.
  change ("]" +:+ ?s) with (String "]" s). rewrite occurs_sep by assumption. rewrite Hx, Hm, IH. reflexivity.
Qed.

(** What a text between brackets replaces is gone, and nothing that was not there appears,
    but the text itself. *)
Lemma replaceAll_gone p m s : p <> EmptyString -> unbracketed p = true -> occurs p m = false ->
  occurs p (replaceAll p (bracketed m) s) = false.
Proof. intros Hn Hu Hm. apply occurs_join; [assumption .. | apply pieces_clean; [exact Hn | lia]]. Qed.

Lemma replaceAll_keeps p q m s : q <> EmptyString -> unbracketed q = true -> occurs q m = false ->
  occurs q s = false -> occurs q (replaceAll p (bracketed m) s) = false.
Proof. intros Hn Hu Hm Hs. apply occurs_join; [assumption .. | apply pieces_keep, Hs]. Qed.
