(* ===== verification/Dates.v ===== *)
(** Calendar arithmetic of [billing/dates.ts] on the UTC dates of ECMAScript.

    A [Date] is its time value in milliseconds.  [Date.UTC] and the [getUTC*]
    accessors are the language's: they are written out after the ECMAScript
    definitions (Day, DayFromYear, YearFromTime, MonthFromTime, MakeDay).  The
    theorems show that decomposing and recomposing a date is the identity and
    that [addMonths] clamps to the end of the target month, never overflowing. *)
From S2P Require Import Prelude.

Definition DAY_MS : Z := 24 * 60 * 60 * 1000.
Definition HOUR_MS : Z := 60 * 60 * 1000.

Module Ecma.
(** Days since 1970-01-01 of January 1st of year [y]. *)
Definition day_from_year (y : Z) : Z :=
  365 * (y - 1970) + (y - 1969) / 4 - (y - 1901) / 100 + (y - 1601) / 400.

Definition in_leap_year (y : Z) : Z :=
  if (y mod 4 =? 0) && (negb (y mod 100 =? 0) || (y mod 400 =? 0)) then 1 else 0.

(** First day of month [m] (0..12) within a year; 12 is the year's length. *)
Definition month_start (leap m : Z) : Z :=
  match m with
  | 0 => 0
  | 1 => 31
  | 2 => 59 + leap
  | 3 => 90 + leap
  | 4 => 120 + leap
  | 5 => 151 + leap
  | 6 => 181 + leap
  | 7 => 212 + leap
  | 8 => 243 + leap
  | 9 => 273 + leap
  | 10 => 304 + leap
  | 11 => 334 + leap
  | _ => 365 + leap
  end.

(** The year a day falls in: an estimate from the mean year, corrected. *)
Definition year_from_day (d : Z) : Z :=
  let y := 1970 + (d * 400) / 146097 in
  if day_from_year (y + 1) <=? d then y + 1
  else if d <? day_from_year y then y - 1
  else y.

Definition month_in_year (leap d : Z) : Z :=
  if d <? month_start leap 1 then 0 else if d <? month_start leap 2 then 1
  else if d <? month_start leap 3 then 2 else if d <? month_start leap 4 then 3
  else if d <? month_start leap 5 then 4 else if d <? month_start leap 6 then 5
  else if d <? month_start leap 7 then 6 else if d <? month_start leap 8 then 7
  else if d <? month_start leap 9 then 8 else if d <? month_start leap 10 then 9
  else if d <? month_start leap 11 then 10 else 11.

Definition day (t : Z) : Z := t / DAY_MS.
Definition time_within_day (t : Z) : Z := t mod DAY_MS.

Definition getUTCFullYear (t : Z) : Z := year_from_day (day t).
Definition getUTCMonth (t : Z) : Z :=
  let y := getUTCFullYear t in month_in_year (in_leap_year y) (day t - day_from_year y).
Definition getUTCDate (t : Z) : Z :=
  let y := getUTCFullYear t in
  day t - day_from_year y - month_start (in_leap_year y) (getUTCMonth t) + 1.

(** [Date.UTC(year, month, date)] in days; the month index may be out of range. *)
Definition make_day (year month date : Z) : Z :=
  let y := year + month / 12 in
  let m := month mod 12 in
  day_from_year y + month_start (in_leap_year y) m + date - 1.

Definition days_in_month (y m : Z) : Z :=
  month_start (in_leap_year y) (m + 1) - month_start (in_leap_year y) m.

Lemma in_leap_year_01 y : in_leap_year y = 0 \/ in_leap_year y = 1.
Proof. unfold in_leap_year. destruct (_ && _); auto. Qed.

(** A year is 365 days, one more in a leap year. *)
Lemma day_from_year_succ y : day_from_year (y + 1) = day_from_year y + 365 + in_leap_year y.
Proof.
  unfold day_from_year, in_leap_year.
  destruct (Z.eqb_spec (y mod 4) 0), (Z.eqb_spec (y mod 100) 0),
    (Z.eqb_spec (y mod 400) 0); simpl;
    Z.to_euclidean_division_equations; lia.
Qed.

Lemma day_from_year_lt y1 y2 : y1 < y2 -> day_from_year (y1 + 1) <= day_from_year y2.
Proof. unfold day_from_year. intros. Z.to_euclidean_division_equations; lia. Qed.

Lemma year_from_day_spec d :
  day_from_year (year_from_day d) <= d < day_from_year (year_from_day d + 1).
Proof.
  unfold year_from_day.
  set (y := 1970 + d * 400 / 146097).
  assert (Hlo : day_from_year (y - 1) <= d).
  { subst y. unfold day_from_year. Z.to_euclidean_division_equations; lia. }
  assert (Hhi : d < day_from_year (y + 2)).
  { subst y. unfold day_from_year. Z.to_euclidean_division_equations; lia. }
  destruct (Z.leb_spec (day_from_year (y + 1)) d) as [H1|H1].
  - replace (y + 1 + 1) with (y + 2) by lia. lia.
  - destruct (Z.ltb_spec d (day_from_year y)) as [H2|H2].
    + replace (y - 1 + 1) with y by lia. lia.
    + lia.
Qed.

Lemma year_from_day_unique d y :
  day_from_year y <= d < day_from_year (y + 1) -> year_from_day d = y.
Proof.
  intros H. pose proof (year_from_day_spec d) as Hs.
  destruct (Z.lt_trichotomy (year_from_day d) y) as [Hlt|[Heq|Hgt]]; [|exact Heq|].
  - apply day_from_year_lt in Hlt. lia.
  - apply day_from_year_lt in Hgt. lia.
Qed.

Lemma month_cases m : 0 <= m < 12 ->
  m = 0 \/ m = 1 \/ m = 2 \/ m = 3 \/ m = 4 \/ m = 5 \/ m = 6 \/ m = 7 \/ m = 8 \/ m = 9
  \/ m = 10 \/ m = 11.
Proof. lia. Qed.

Ltac months m H := destruct (month_cases m H) as
  [->|[->|[->|[->|[->|[->|[->|[->|[->|[->|[->| ->]]]]]]]]]]].

Lemma days_in_month_bounds y m : 0 <= m < 12 -> 28 <= days_in_month y m <= 31.
Proof.
  intros Hm. unfold days_in_month. destruct (in_leap_year_01 y) as [-> | ->];
    months m Hm; vm_compute; split; discriminate.
Qed.

Lemma month_start_bounds y m : 0 <= m < 12 ->
  0 <= month_start (in_leap_year y) m /\
  month_start (in_leap_year y) (m + 1) <= 365 + in_leap_year y.
Proof.
  intros Hm. destruct (in_leap_year_01 y) as [-> | ->];
    months m Hm; vm_compute; split; discriminate.
Qed.

Lemma month_in_year_unique leap m d : leap = 0 \/ leap = 1 -> 0 <= m < 12 ->
  month_start leap m <= d < month_start leap (m + 1) -> month_in_year leap d = m.
Proof.
  intros [-> | ->] Hm; unfold month_in_year; months m Hm; simpl; intros Hd;
    repeat match goal with |- context [?a <? ?b] => destruct (Z.ltb_spec a b); try lia end.
Qed.

Lemma month_in_year_spec leap d : leap = 0 \/ leap = 1 -> 0 <= d < 365 + leap ->
  0 <= month_in_year leap d < 12 /\
  month_start leap (month_in_year leap d) <= d < month_start leap (month_in_year leap d + 1).
Proof.
  intros [-> | ->] Hd; unfold month_in_year; simpl;
    repeat match goal with |- context [?a <? ?b] =>
      destruct (Z.ltb_spec a b); [simpl; lia |] end; simpl; lia.
Qed.

Lemma getUTCMonth_range t : 0 <= getUTCMonth t < 12.
Proof.
  unfold getUTCMonth. apply month_in_year_spec; [apply in_leap_year_01|].
  pose proof (year_from_day_spec (day t)) as H. rewrite day_from_year_succ in H.
  unfold getUTCFullYear. lia.
Qed.

Lemma getUTCDate_range t :
  1 <= getUTCDate t <= days_in_month (getUTCFullYear t) (getUTCMonth t).
Proof.
  unfold getUTCDate, days_in_month, getUTCMonth, getUTCFullYear. cbv zeta.
  set (y := year_from_day (day t)).
  pose proof (year_from_day_spec (day t)) as H. fold y in H. rewrite day_from_year_succ in H.
  destruct (month_in_year_spec (in_leap_year y) (day t - day_from_year y)
              (in_leap_year_01 y)) as [_ Hm]; lia.
Qed.

(** Recomposing the parts of a date gives its day back. *)
Lemma make_day_parts t :
  make_day (getUTCFullYear t) (getUTCMonth t) (getUTCDate t) = day t.
Proof.
  pose proof (getUTCMonth_range t) as Hm. unfold make_day.
  rewrite Z.div_small, Z.mod_small by exact Hm. unfold getUTCDate.
  rewrite Z.add_0_r. cbv zeta. lia.
Qed.

(** The parts of a composed date are the ones given, when the day exists. *)
Lemma parts_of_make_day y mi dom t :
  1 <= dom <= days_in_month (y + mi / 12) (mi mod 12) ->
  day t = make_day y mi dom ->
  getUTCFullYear t = y + mi / 12 /\ getUTCMonth t = mi mod 12 /\ getUTCDate t = dom.
Proof.
  unfold make_day, days_in_month. set (y' := y + mi / 12).
  pose proof (Z.mod_pos_bound mi 12 ltac:(lia)) as Hm. set (m := mi mod 12) in *.
  intros Hd Ht. destruct (month_start_bounds y' m Hm) as [Hs0 Hs1].
  assert (Hy : getUTCFullYear t = y').
  { unfold getUTCFullYear. apply year_from_day_unique. rewrite day_from_year_succ. lia. }
  assert (Hmo : getUTCMonth t = m).
  { unfold getUTCMonth. rewrite Hy. apply month_in_year_unique;
      [apply in_leap_year_01 | exact Hm |]. lia. }
  split; [exact Hy|]. split; [exact Hmo|].
  unfold getUTCDate. rewrite Hmo, Hy. lia.
Qed.
End Ecma.

Import Ecma.

(** [addMonths]: Jan 31 + 1 month = Feb 28/29. *)
Definition addMonths (date months : Z) : Z :=
  let year := getUTCFullYear date in
  let monthIndex := getUTCMonth date + months in
  let lastDayOfTarget := getUTCDate (make_day year (monthIndex + 1) 0 * DAY_MS) in
  let dom := Z.min (getUTCDate date) lastDayOfTarget in
  make_day year monthIndex dom * DAY_MS + time_within_day date.

Definition laterOf (a b : Z) : Z := if a >=? b then a else b.

Lemma laterOf_max a b : laterOf a b = Z.max a b.
Proof. unfold laterOf. destruct (Z.geb_spec a b); lia. Qed.

Lemma DAY_MS_pos : 0 < DAY_MS.
Proof. reflexivity. Qed.

Lemma day_of_ms d r : 0 <= r < DAY_MS -> day (d * DAY_MS + r) = d.
Proof.
  intros Hr. unfold day. rewrite Z.div_add_l by discriminate. rewrite Z.div_small by exact Hr. lia.
Qed.

(** Day 0 of a month is the last day of the month before. *)
Lemma make_day_month_end y mi :
  make_day y (mi + 1) 0 = make_day y mi (days_in_month (y + mi / 12) (mi mod 12)).
Proof.
  pose proof (Z.mod_pos_bound mi 12 ltac:(lia)) as Hm. unfold make_day, days_in_month.
  destruct (Z.eq_dec (mi mod 12) 11) as [H11|H11].
  - replace ((mi + 1) / 12) with (mi / 12 + 1) by (Z.to_euclidean_division_equations; lia).
    replace ((mi + 1) mod 12) with 0 by (Z.to_euclidean_division_equations; lia).
    rewrite H11. replace (y + (mi / 12 + 1)) with (y + mi / 12 + 1) by lia.
    rewrite day_from_year_succ.
    destruct (in_leap_year_01 (y + mi / 12)) as [-> | ->]; simpl; lia.
  - replace ((mi + 1) / 12) with (mi / 12) by (Z.to_euclidean_division_equations; lia).
    replace ((mi + 1) mod 12) with (mi mod 12 + 1) by (Z.to_euclidean_division_equations; lia).
    lia.
Qed.

Lemma make_day_add y mi d e : make_day y mi (d + e) = make_day y mi d + e.
Proof. unfold make_day. lia. Qed.

Lemma days_in_month_of y mi : 28 <= days_in_month (y + mi / 12) (mi mod 12) <= 31.
Proof. apply days_in_month_bounds. apply Z.mod_pos_bound. lia. Qed.

(** Months follow each other: [n] months later starts at least [28 n] days later. *)
Lemma make_day_months y mi n : 0 <= n -> make_day y mi 1 + 28 * n <= make_day y (mi + n) 1.
Proof.
  revert n. apply (natlike_ind (fun n => make_day y mi 1 + 28 * n <= make_day y (mi + n) 1)).
  - replace (mi + 0) with mi by lia. lia.
  - intros n Hn IH. replace (mi + Z.succ n) with (mi + n + 1) by lia.
    pose proof (make_day_month_end y (mi + n)) as He.
    pose proof (days_in_month_of y (mi + n)) as Hb.
    pose proof (make_day_add y (mi + n + 1) 0 1) as H1.
    pose proof (make_day_add y (mi + n) 1
                  (days_in_month (y + (mi + n) / 12) ((mi + n) mod 12) - 1)) as H2.
    replace (1 + (days_in_month (y + (mi + n) / 12) ((mi + n) mod 12) - 1))
      with (days_in_month (y + (mi + n) / 12) ((mi + n) mod 12)) in H2 by lia.
    replace (0 + 1) with 1 in H1 by lia. lia.
Qed.

Lemma last_day_of_target y mi :
  getUTCDate (make_day y (mi + 1) 0 * DAY_MS) = days_in_month (y + mi / 12) (mi mod 12).
Proof.
  pose proof (days_in_month_of y mi) as Hb.
  apply (parts_of_make_day y mi (days_in_month (y + mi / 12) (mi mod 12))); [lia|].
  rewrite <- make_day_month_end. rewrite <- (Z.add_0_r (_ * DAY_MS)).
  apply day_of_ms. unfold DAY_MS; lia.
Qed.

Lemma time_within_day_range t : 0 <= time_within_day t < DAY_MS.
Proof. apply Z.mod_pos_bound. reflexivity. Qed.

(** The calendar parts of [addMonths date months]. *)
Lemma addMonths_parts date months :
  let mi := getUTCMonth date + months in
  let y' := getUTCFullYear date + mi / 12 in
  let m' := mi mod 12 in
  getUTCFullYear (addMonths date months) = y' /\
  getUTCMonth (addMonths date months) = m' /\
  getUTCDate (addMonths date months) = Z.min (getUTCDate date) (days_in_month y' m') /\
  time_within_day (addMonths date months) = time_within_day date.
Proof.
  intros mi y' m'. unfold addMonths. cbv zeta. fold mi. rewrite last_day_of_target.
  fold y' m'. pose proof (getUTCDate_range date) as Hd.
  pose proof (Z.mod_pos_bound mi 12 ltac:(lia)) as Hm. fold m' in Hm.
  pose proof (days_in_month_bounds y' m' Hm) as Hb.
  set (dom := Z.min _ _). pose proof (time_within_day_range date) as Hr.
  destruct (parts_of_make_day (getUTCFullYear date) mi dom
              (make_day (getUTCFullYear date) mi dom * DAY_MS + time_within_day date))
    as (Hy & Hmo & Hda).
  - fold y' m'. subst dom. lia.
  - apply day_of_ms. exact Hr.
  - split; [exact Hy|]. split; [exact Hmo|]. split; [exact Hda|].
    unfold time_within_day in *. rewrite Z.add_comm, Z_mod_plus_full.
    apply Z.mod_small. exact Hr.
Qed.

Lemma addMonths_0 date : addMonths date 0 = date.
Proof.
  unfold addMonths. cbv zeta. rewrite Z.add_0_r, last_day_of_target.
  pose proof (getUTCMonth_range date) as Hm.
  rewrite Z.div_small, Z.mod_small, Z.add_0_r by exact Hm.
  rewrite Z.min_l by apply getUTCDate_range. rewrite make_day_parts.
  unfold day, time_within_day. pose proof (Z.div_mod date DAY_MS ltac:(discriminate)). lia.
Qed.

(** A date some months later is strictly later. *)
Lemma addMonths_later date months : 0 < months -> date < addMonths date months.
Proof.
  intros Hn. unfold addMonths. cbv zeta. rewrite last_day_of_target.
  set (y := getUTCFullYear date). set (m := getUTCMonth date).
  pose proof (getUTCMonth_range date) as Hm. fold m in Hm.
  pose proof (getUTCDate_range date) as Hd. fold y m in Hd.
  pose proof (days_in_month_of y (m + months)) as Hb.
  set (dom := Z.min _ _).
  assert (Hdom : 1 <= dom) by (subst dom; lia).
  pose proof (make_day_months y (m + 1) (months - 1) ltac:(lia)) as Hs.
  replace (m + 1 + (months - 1)) with (m + months) in Hs by lia.
  pose proof (make_day_month_end y m) as He.
  rewrite (Z.div_small m 12), (Z.mod_small m 12), Z.add_0_r in He by exact Hm.
  pose proof (make_day_add y (m + 1) 0 1) as H1. replace (0 + 1) with 1 in H1 by lia.
  pose proof (make_day_add y (m + months) 1 (dom - 1)) as H2.
  replace (1 + (dom - 1)) with dom in H2 by lia.
  pose proof (make_day_add y m (getUTCDate date) (days_in_month y m - getUTCDate date)) as H3.
  replace (getUTCDate date + (days_in_month y m - getUTCDate date))
    with (days_in_month y m) in H3 by lia.
  pose proof (make_day_parts date) as Hp. fold y m in Hp.
  assert (Hlt : day date + 1 <= make_day y (m + months) dom) by lia.
  pose proof (Z.div_mod date DAY_MS ltac:(discriminate)) as Hdm.
  fold (day date) (time_within_day date) in Hdm.
  pose proof (time_within_day_range date) as Hr.
  pose proof (Z.mul_le_mono_nonneg_r _ _ DAY_MS ltac:(discriminate) Hlt). lia.
Qed.

(** Billing periods follow the calendar.  Adding [n] months keeps the time of
    day and the day of the month, clamped to the last day of a shorter month, in
    the month [n] months away; zero months change nothing; and a positive number
    of months is strictly later, so a renewal never shortens a period. *)
Theorem addMonths_calendar date :
  addMonths date 0 = date /\
  (forall n, 0 < n -> date < addMonths date n) /\
  (forall n, let target := getUTCFullYear date * 12 + getUTCMonth date + n in
     getUTCFullYear (addMonths date n) = target / 12 /\
     getUTCMonth (addMonths date n) = target mod 12 /\
     getUTCDate (addMonths date n) = Z.min (getUTCDate date) (days_in_month (target / 12) (target mod 12)) /\
     time_within_day (addMonths date n) = time_within_day date).
Proof.
  split; [apply addMonths_0|]. split; [apply addMonths_later|]. intros n target.
  destruct (addMonths_parts date n) as (H1 & H2 & H3 & H4).
  assert (E : target = getUTCMonth date + n + getUTCFullYear date * 12) by (unfold target; lia).
  assert (Hd : target / 12 = getUTCFullYear date + (getUTCMonth date + n) / 12)
    by (rewrite E, Z.div_add by lia; lia).
  assert (Hm : target mod 12 = (getUTCMonth date + n) mod 12) by (rewrite E, Z_mod_plus_full; reflexivity).
  rewrite Hd, Hm. auto.
Qed.
