(* ===== verification/Pricing.v ===== *)
(** The price list of [billing/pricing.ts]: tiers, plans, credits and top-ups.

    A JavaScript number that may be fractional is a rational [Q]; amounts the
    code keeps whole (agorot, credits, US cents) are [Z].  The theorems fix the
    table the code computes, the yearly discount, the round trips between
    credits and money, and when a plan change is billed at once. *)
From Stdlib Require Import QArith Qround.
From S2P Require Import Prelude Dates.
#[local] Open Scope Z_scope.

Inductive PlanTier := basic_tier | standard_tier | pro_tier.
Inductive BillingInterval := month | year.
Inductive PlanCode := basic | standard | pro | basic_yearly | standard_yearly | pro_yearly.
Inductive PlanChangeBilling := prorate_now | at_renewal.

#[export] Instance PlanTier_eq_dec : EqDecision PlanTier.
Proof. solve_decision. Defined.
#[export] Instance BillingInterval_eq_dec : EqDecision BillingInterval.
Proof. solve_decision. Defined.
#[export] Instance PlanCode_eq_dec : EqDecision PlanCode.
Proof. solve_decision. Defined.
#[export] Instance PlanChangeBilling_eq_dec : EqDecision PlanChangeBilling.
Proof. solve_decision. Defined.

(** 1 credit = $0.005 of LiteLLM spend. *)
Definition USD_CENTS_PER_CREDIT : Q := 1 # 2.
Definition CREDITS_PER_ILS : Z := 40.
Definition PLAN_TIERS : list PlanTier := [basic_tier; standard_tier; pro_tier].
Definition BILLING_INTERVALS : list BillingInterval := [month; year].
Definition MONTHS_PER_INTERVAL (i : BillingInterval) : Z :=
  match i with month => 1 | year => 12 end.
Definition PLAN_CODES : list PlanCode :=
  [basic; standard; pro; basic_yearly; standard_yearly; pro_yearly].
Definition YEARLY_DISCOUNT_PERCENT : Z := 10.

(** The stored spelling of a plan code. *)
Definition plan_code_str (c : PlanCode) : string :=
  match c with
  | basic => "basic" | standard => "standard" | pro => "pro"
  | basic_yearly => "basic_yearly" | standard_yearly => "standard_yearly"
  | pro_yearly => "pro_yearly"
  end%string.

Record Tier := mkTier { tier_name : string; monthlyPriceIls_of_tier : Z; monthlyCredits_of_tier : Z }.

Definition TIERS (t : PlanTier) : Tier :=
  match t with
  | basic_tier => mkTier "בסיסי" 100 2500
  | standard_tier => mkTier "סטנדרט" 200 6500
  | pro_tier => mkTier "פרו" 400 14500
  end%string.

Record Plan := mkPlan {
  plan_code : PlanCode;
  plan_tier : PlanTier;
  plan_name : string;
  priceIls : Q;
  plan_currency : string;
  interval : BillingInterval;
  includedCredits : Z;
}.

Definition planCodeOf (t : PlanTier) (i : BillingInterval) : PlanCode :=
  match t, i with
  | basic_tier, year => basic_yearly
  | standard_tier, year => standard_yearly
  | pro_tier, year => pro_yearly
  | basic_tier, month => basic
  | standard_tier, month => standard
  | pro_tier, month => pro
  end.

Definition buildPlan (t : PlanTier) (i : BillingInterval) : Plan :=
  let '(mkTier name monthlyPriceIls monthlyCredits) := TIERS t in
  let months := MONTHS_PER_INTERVAL i in
  let discountPercent := match i with year => YEARLY_DISCOUNT_PERCENT | month => 0 end in
  {| plan_code := planCodeOf t i;
     plan_tier := t;
     plan_name := name;
     priceIls := Qred (inject_Z (monthlyPriceIls * months * (100 - discountPercent)) / inject_Z 100);
     plan_currency := "ILS";
     interval := i;
     includedCredits := monthlyCredits * months |}.

Definition PLANS (c : PlanCode) : Plan :=
  match c with
  | basic => buildPlan basic_tier month
  | standard => buildPlan standard_tier month
  | pro => buildPlan pro_tier month
  | basic_yearly => buildPlan basic_tier year
  | standard_yearly => buildPlan standard_tier year
  | pro_yearly => buildPlan pro_tier year
  end.

Definition PLAN_CATALOGUE : list Plan := List.map PLANS PLAN_CODES.
Definition DEFAULT_PLAN : PlanCode := standard.
Definition planFor (t : PlanTier) (i : BillingInterval) : Plan := PLANS (planCodeOf t i).
Definition monthlyPriceIls (p : Plan) : Q :=
  (priceIls p / inject_Z (MONTHS_PER_INTERVAL (interval p)))%Q.
Definition isRecommendedPlan (p : Plan) : bool :=
  bool_decide (plan_tier p = plan_tier (PLANS DEFAULT_PLAN)).
Definition monthlyCredits (p : Plan) : Q :=
  (inject_Z (includedCredits p) / inject_Z (MONTHS_PER_INTERVAL (interval p)))%Q.
Definition yearlySavingsIls (t : PlanTier) : Q :=
  (priceIls (planFor t month) * inject_Z (MONTHS_PER_INTERVAL year) - priceIls (planFor t year))%Q.

Definition Qltb (a b : Q) : bool := negb (Qle_bool b a).

Definition planChangeBilling (from to : Plan) : PlanChangeBilling :=
  if negb (bool_decide (interval to = interval from)) || Qltb (priceIls from) (priceIls to)
  then prorate_now else at_renewal.

Definition creditsRatio (p base : Plan) : Q := (monthlyCredits p / monthlyCredits base)%Q.

Definition TRIAL_CREDITS : Z := 400.
Definition ADMIN_GRANT_MAX_CREDITS : Z := 50000.
Definition TRIAL_DAYS : Z := 7.
Definition REFUND_WINDOW_DAYS : Z := 14.
Definition TOPUP_MIN_ILS : Z := 20.
Definition TOPUP_MAX_ILS : Z := 500.
Definition TOPUP_PRESETS_ILS : list Z := [50; 100; 200].
Definition DEFAULT_TOPUP_PRESET_ILS : Z := 100.

Record TopupTerms := mkTopupTerms {
  minIls : Z; maxIls : Z; presetsIls : list Z; creditsPerIls : Z }.
Definition TOPUP_TERMS : TopupTerms :=
  mkTopupTerms TOPUP_MIN_ILS TOPUP_MAX_ILS TOPUP_PRESETS_ILS CREDITS_PER_ILS.

Definition LOW_BALANCE_RATIO : Q := 1 # 5.
Definition MAX_OPEN_CHECKOUTS_PER_HOUR : Z := 10.

(** [isPlanCode] and [findPlan]: the plan a stored spelling names. *)
Definition isPlanCode (value : string) : option PlanCode :=
  List.find (fun c => str_eqb (plan_code_str c) value) PLAN_CODES.

Definition findPlan (code : option string) : option Plan :=
  match code with
  | None => None
  | Some value => option_map PLANS (isPlanCode value)
  end.

Definition resolvePlan (code : option string) : Plan :=
  match findPlan code with Some p => p | None => PLANS DEFAULT_PLAN end.

(** [Math.round]: half-way cases go up. *)
Definition math_round (q : Q) : Z := Qfloor (q + (1 # 2)).

Definition agorotFromIls (ils : Q) : Z := math_round (ils * 100)%Q.
Definition planAmountAgorot (p : Plan) : Z := agorotFromIls (priceIls p).
Definition creditsFromUsdCents (cents : Z) : Z := Qceiling (inject_Z cents / USD_CENTS_PER_CREDIT).
Definition usdCentsFromCredits (credits : Z) : Z :=
  Qfloor (inject_Z credits * USD_CENTS_PER_CREDIT).
Definition ilsFromAgorot (agorot : Z) : Q := (inject_Z agorot / 100)%Q.
Definition isInteger (q : Q) : bool := Qnum q mod QDen q =? 0.
Definition isValidTopupAmountIls (value : Q) : bool :=
  isInteger value && Qle_bool (inject_Z TOPUP_MIN_ILS) value
  && Qle_bool value (inject_Z TOPUP_MAX_ILS).
Definition creditsForTopupIls (ils : Q) : Z := Qfloor (ils * inject_Z CREDITS_PER_ILS).

(** [addInterval] of dates.ts. *)
Definition addInterval (date : Z) (i : BillingInterval) : Z := addMonths date (MONTHS_PER_INTERVAL i).

(** ** Lemmas *)
Lemma plan_code_str_inj c c' : plan_code_str c = plan_code_str c' -> c = c'.
Proof. destruct c, c'; simpl; congruence. Qed.

Lemma isPlanCode_str c : isPlanCode (plan_code_str c) = Some c.
Proof. destruct c; reflexivity. Qed.

Lemma isPlanCode_some v c : isPlanCode v = Some c -> v = plan_code_str c.
Proof.
  unfold isPlanCode. intros H. apply find_some in H as [_ H].
  apply str_eqb_eq in H. congruence.
Qed.

Lemma plan_code_PLANS c : plan_code (PLANS c) = c.
Proof. destruct c; reflexivity. Qed.

Lemma findPlan_code c : findPlan (Some (plan_code_str c)) = Some (PLANS c).
Proof. simpl. rewrite isPlanCode_str. reflexivity. Qed.

Lemma findPlan_some code p :
  findPlan code = Some p -> code = Some (plan_code_str (plan_code p)) /\ p = PLANS (plan_code p).
Proof.
  destruct code as [v|]; simpl; [|discriminate].
  destruct (isPlanCode v) as [c|] eqn:Hc; [|discriminate]. simpl. intros [= <-].
  apply isPlanCode_some in Hc. rewrite plan_code_PLANS. split; congruence.
Qed.

Lemma creditsFromUsdCents_eq cents : creditsFromUsdCents cents = 2 * cents.
Proof.
  unfold creditsFromUsdCents, USD_CENTS_PER_CREDIT, Qceiling, Qfloor.
  unfold Qdiv, Qinv, Qmult, inject_Z. simpl.
  rewrite Z.div_1_r. lia.
Qed.

Lemma usdCentsFromCredits_eq credits : usdCentsFromCredits credits = credits / 2.
Proof.
  unfold usdCentsFromCredits, USD_CENTS_PER_CREDIT, Qfloor, Qmult, inject_Z. simpl.
  rewrite Z.mul_1_r. reflexivity.
Qed.

Lemma addInterval_later date i : date < addInterval date i.
Proof. apply addMonths_later. destruct i; reflexivity. Qed.

Lemma includedCredits_pos c : 0 < includedCredits (PLANS c).
Proof. destruct c; reflexivity. Qed.
Create Rewrite HintDb plans.
#[export] Hint Rewrite plan_code_PLANS isPlanCode_str findPlan_code : plans.

(** The price list is consistent.  The yearly plan of a tier costs twelve
    months less a tenth and includes twelve months of credits; every plan's price
    is a whole number of agorot; a stored plan code finds exactly its plan and no
    other string finds one; and the price of a tier grows with the tier. *)
Theorem price_list_consistent :
  (forall t, (priceIls (planFor t year) == priceIls (planFor t month) * 12 * (9 # 10))%Q /\
     includedCredits (planFor t year) = 12 * includedCredits (planFor t month) /\
     plan_tier (planFor t year) = t /\ interval (planFor t year) = year /\ interval (planFor t month) = month) /\
  (forall c, (inject_Z (planAmountAgorot (PLANS c)) == priceIls (PLANS c) * 100)%Q /\ 0 < planAmountAgorot (PLANS c)) /\
  (forall v p, findPlan (Some v) = Some p <-> v = plan_code_str (plan_code p) /\ p = PLANS (plan_code p)) /\
  (forall i, List.map planAmountAgorot (List.map (fun t => planFor t i) PLAN_TIERS)
     = match i with month => [10000; 20000; 40000] | year => [108000; 216000; 432000] end).
Proof.
  split; [intros []; repeat split|]. split; [intros []; split; reflexivity|]. split; [|intros []; reflexivity].
  intros v p. split.
  - intros H. apply findPlan_some in H as [E1 E2]. split; [congruence | exact E2].
  - intros [-> ->]. rewrite plan_code_PLANS. apply findPlan_code.
Qed.

Lemma isInteger_whole q : isInteger q = true -> (q == inject_Z (Qnum q / Zpos (Qden q)))%Q.
Proof.
  unfold isInteger, Qeq. intros H. bools. simpl.
  pose proof (Z.div_mod (Qnum q) (Zpos (Qden q)) ltac:(discriminate)). lia.
Qed.

(** Money and credits convert without loss.  Spend turned into credits and
    back is the same spend; credits turned into spend never buy more than they
    are worth and lose at most one; and a top-up the shop accepts is a whole
    number of shekels from 20 to 500, charged a hundred agorot and giving forty
    credits each. *)
Theorem credits_money_roundtrip :
  (forall cents, usdCentsFromCredits (creditsFromUsdCents cents) = cents) /\
  (forall credits, creditsFromUsdCents (usdCentsFromCredits credits) <= credits
                   <= creditsFromUsdCents (usdCentsFromCredits credits) + 1) /\
  (forall cents cents', creditsFromUsdCents (cents + cents') = creditsFromUsdCents cents + creditsFromUsdCents cents') /\
  (forall amount, isValidTopupAmountIls amount = true <->
     exists k, amount = Qmake (k * Zpos (Qden amount)) (Qden amount) /\ 20 <= k <= 500 /\
       creditsForTopupIls amount = 40 * k /\ agorotFromIls amount = 100 * k).
Proof.
  split; [intros; rewrite creditsFromUsdCents_eq, usdCentsFromCredits_eq, Z.mul_comm; apply Z.div_mul; lia|].
  split.
  { intros c. rewrite creditsFromUsdCents_eq, usdCentsFromCredits_eq.
    pose proof (Z.div_mod c 2 ltac:(lia)). pose proof (Z.mod_pos_bound c 2 ltac:(lia)). lia. }
  split; [intros; rewrite !creditsFromUsdCents_eq; lia|].
  intros [n den]. unfold isValidTopupAmountIls, creditsForTopupIls, agorotFromIls, math_round, isInteger, Qle_bool.
  cbn [Qnum Qden inject_Z]. unfold TOPUP_MIN_ILS, TOPUP_MAX_ILS, CREDITS_PER_ILS.
  rewrite !andb_true_iff, !Z.leb_le, Z.eqb_eq. split.
  - intros H. exists (n / Zpos den). pose proof (Z.div_mod n (Zpos den) ltac:(discriminate)) as Hd.
    assert (Hn : n = (n / Zpos den) * Zpos den) by (destruct H as [[? ?] ?]; lia || (destruct H; lia)).
    set (k := n / Zpos den) in *. clearbody k. subst n.
    split; [reflexivity|]. split; [nia|]. unfold Qfloor, Qmult, Qplus, inject_Z. cbn [Qnum Qden].
    split.
    + rewrite Pos.mul_1_r. replace (k * Zpos den * 40) with (40 * k * Zpos den) by lia. apply Z.div_mul. discriminate.
    + rewrite !Pos.mul_1_r. rewrite Pos2Z.inj_mul.
      replace (k * Zpos den * 100 * 2 + 1 * Zpos den) with ((200 * k + 1) * Zpos den) by lia.
      replace (Zpos den * 2) with (2 * Zpos den) by lia. rewrite Z.div_mul_cancel_r by discriminate.
      replace (200 * k + 1) with (1 + 100 * k * 2) by lia. rewrite Z.div_add by lia. reflexivity.
  - intros (k & E & Hk & _). injection E as ->. rewrite Z.mod_mul by discriminate. nia.
Qed.
