(* ===== verification/Domain.v ===== *)
(** The billing data model: [billing/domain.ts], the row types of
    [db/schema/billing.ts], the provider types of [billing/provider/types.ts],
    the repository inputs of [billing/ports.ts] and the errors of
    [billing/errors.ts].

    A [Date] is its time value in milliseconds, a [uuid] and every other
    identifier is a string, [null] is [None]. *)
From Stdlib Require Import QArith.
From stdpp Require Import pretty.
From S2P Require Import Prelude Dates Pricing.
#[local] Open Scope Z_scope.

(** ** Enumerations of the schema *)
Inductive PaymentProviderName := P_mock | P_paddle.
Inductive SubscriptionStatus :=
  S_trialing | S_active | S_past_due | S_paused | S_canceled | S_unpaid | S_expired.
Inductive CheckoutKind := K_subscription | K_topup.
Inductive CheckoutSessionStatus := C_pending | C_completed | C_failed.
Inductive PaymentStatus := Pay_succeeded | Pay_failed | Pay_refunded.
Inductive BillingEventStatus := E_received | E_processed | E_ignored | E_failed.
Inductive CreditGrantKind := G_trial | G_plan | G_topup.

#[export] Instance PaymentProviderName_eq_dec : EqDecision PaymentProviderName.
Proof. solve_decision. Defined.
#[export] Instance SubscriptionStatus_eq_dec : EqDecision SubscriptionStatus.
Proof. solve_decision. Defined.
#[export] Instance CheckoutKind_eq_dec : EqDecision CheckoutKind.
Proof. solve_decision. Defined.
#[export] Instance CheckoutSessionStatus_eq_dec : EqDecision CheckoutSessionStatus.
Proof. solve_decision. Defined.
#[export] Instance PaymentStatus_eq_dec : EqDecision PaymentStatus.
Proof. solve_decision. Defined.
#[export] Instance BillingEventStatus_eq_dec : EqDecision BillingEventStatus.
Proof. solve_decision. Defined.
#[export] Instance CreditGrantKind_eq_dec : EqDecision CreditGrantKind.
Proof. solve_decision. Defined.

Notation "a =e b" := (bool_decide (a = b)) (at level 70, no associativity) : prog_scope.

Definition PAYMENT_PROVIDERS : list PaymentProviderName := [P_mock; P_paddle].
Definition provider_str (p : PaymentProviderName) : string :=
  match p with P_mock => "mock" | P_paddle => "paddle" end%string.

Definition SETTLED_SUBSCRIPTION_STATUSES : list SubscriptionStatus :=
  [S_canceled; S_expired; S_unpaid].
Definition isSettledStatus (s : SubscriptionStatus) : bool :=
  List.existsb (fun s' => s' =e s) SETTLED_SUBSCRIPTION_STATUSES.

Definition ABANDONED_EVENT_MINUTES : Z := 10.
Definition MAX_EVENT_ATTEMPTS : Z := 60.

(** ** Rows *)
Record Subscription := mkSubscription {
  sub_id : string;
  sub_userId : option string;
  sub_provider : PaymentProviderName;
  sub_providerSubscriptionId : string;
  sub_providerCustomerId : option string;
  sub_planCode : string;
  sub_scheduledPlanCode : option string;
  sub_status : SubscriptionStatus;
  sub_cancelAtPeriodEnd : bool;
  sub_currentPeriodEnd : option Z;
  sub_trialEndsAt : option Z;
  sub_providerUpdatedAt : Z;
  sub_createdAt : Z;
  sub_updatedAt : Z;
}.

Record CheckoutSession := mkCheckoutSession {
  cs_id : string;
  cs_userId : string;
  cs_provider : PaymentProviderName;
  cs_kind : CheckoutKind;
  cs_productCode : string;
  cs_credits : Z;
  cs_amountAgorot : Z;
  cs_status : CheckoutSessionStatus;
  cs_providerCheckoutId : option string;
  cs_createdAt : Z;
  cs_expiresAt : Z;
  cs_settledAt : option Z;
}.

Record CreditGrant := mkCreditGrant {
  g_id : string;
  g_userId : string;
  g_kind : CreditGrantKind;
  g_credits : Z;
  g_usedCredits : Z;
  g_sourceRef : string;
  g_grantedAt : Z;
  g_expiresAt : option Z;
}.

Record CreditUsageCursor := mkCursor {
  u_botId : string;
  u_userId : string;
  u_lastSpendUsdCents : Z;
  u_consumedCredits : Z;
  u_unallocatedCredits : Z;
  u_version : Z;
  u_syncedAt : Z;
}.

Record Payment := mkPayment {
  pay_id : string;
  pay_userId : option string;
  pay_subscriptionId : option string;
  pay_provider : PaymentProviderName;
  pay_providerPaymentId : string;
  pay_status : PaymentStatus;
  pay_planCode : option string;
  pay_amountAgorot : Z;
  pay_currency : string;
  pay_occurredAt : Z;
}.

Record BillingEvent := mkBillingEvent {
  be_id : string;
  be_provider : PaymentProviderName;
  be_providerEventId : string;
  be_eventType : string;
  be_status : BillingEventStatus;
  be_userId : option string;
  be_providerSubscriptionId : option string;
  be_payload : string;
  be_note : option string;
  be_attempts : Z;
  be_receivedAt : Z;
  be_processedAt : option Z;
}.

Record BillingUser := mkBillingUser {
  bu_id : string;
  bu_email : string;
  bu_name : option string;
  bu_betaAccess : bool;
}.

(** ** Repository inputs (ports.ts) *)
Record UpsertSubscriptionInput := mkUpsert {
  ui_provider : PaymentProviderName;
  ui_providerSubscriptionId : string;
  ui_userId : option string;
  ui_providerCustomerId : option string;
  ui_planCode : string;
  ui_status : SubscriptionStatus;
  ui_cancelAtPeriodEnd : bool;
  ui_currentPeriodEnd : option Z;
  ui_trialEndsAt : option Z;
  ui_providerUpdatedAt : Z;
}.

(** A patch: an absent field ([None]) keeps the column; a nullable column's new
    value is itself an option. *)
Record SubscriptionStatePatch := mkPatch {
  pt_status : option SubscriptionStatus;
  pt_planCode : option string;
  pt_scheduledPlanCode : option (option string);
  pt_cancelAtPeriodEnd : option bool;
  pt_currentPeriodEnd : option (option Z);
  pt_providerCustomerId : option (option string);
  pt_providerUpdatedAt : Z;
}.

Record NewCheckoutSession := mkNewCheckout {
  nc_userId : string;
  nc_provider : PaymentProviderName;
  nc_kind : CheckoutKind;
  nc_productCode : string;
  nc_credits : Z;
  nc_amountAgorot : Z;
  nc_expiresAt : Z;
}.

(** [ReopenableCheckoutQuery]: the same fields with [openUntil] for the expiry. *)
Record ReopenableCheckoutQuery := mkReopenable {
  rq_userId : string;
  rq_provider : PaymentProviderName;
  rq_kind : CheckoutKind;
  rq_productCode : string;
  rq_credits : Z;
  rq_amountAgorot : Z;
  rq_openUntil : Z;
}.

Record NewPayment := mkNewPayment {
  np_userId : option string;
  np_subscriptionId : option string;
  np_provider : PaymentProviderName;
  np_providerPaymentId : string;
  np_status : PaymentStatus;
  np_planCode : option string;
  np_amountAgorot : Z;
  np_currency : string;
  np_occurredAt : Z;
}.

Inductive PaymentApplication :=
| Applied_payment (subscription : Subscription)
| Duplicate_payment
| Conflict_payment.

Record RenewalInput := mkRenewal {
  ri_payment : NewPayment;
  ri_subscriptionId : string;
  ri_expectedPeriodEnd : option Z;
  ri_patch : SubscriptionStatePatch;
}.

Record NewCreditGrant := mkNewGrant {
  ng_userId : string;
  ng_kind : CreditGrantKind;
  ng_credits : Z;
  ng_sourceRef : string;
  ng_expiresAt : option Z;
}.

Record ConsumptionAttribution := mkAttribution { at_grantId : string; at_credits : Z }.

Record AdvanceUsageInput := mkAdvance {
  ad_botId : string;
  ad_userId : string;
  ad_expectedVersion : Z;
  ad_spendUsdCents : Z;
  ad_consumedDelta : Z;
  ad_unallocatedDelta : Z;
  ad_attributions : list ConsumptionAttribution;
  ad_syncedAt : Z;
}.

Record BotSpend := mkBotSpend {
  sp_botId : string;
  sp_supported : bool;
  sp_spendUsdCents : Z;
  sp_maxBudgetUsdCents : option Z;
}.

Record ClaimBillingEventInput := mkClaimInput {
  ci_provider : PaymentProviderName;
  ci_providerEventId : string;
  ci_eventType : string;
  ci_providerSubscriptionId : option string;
  ci_payload : string;
}.

Inductive ClaimBillingEventResult :=
| Claim_new (id : string)
| Claim_retry (id : string)
| Claim_duplicate (status : BillingEventStatus).

(** [userId] absent ([None]) keeps the stored one. *)
Record FinishBillingEventInput := mkFinish {
  fi_status : BillingEventStatus;
  fi_userId : option (option string);
  fi_note : option string;
}.

(** ** Provider types (provider/types.ts) *)
Record ProviderCapabilities := mkCapabilities {
  cap_cancel : bool;
  cap_resume : bool;
  cap_customerPortal : bool;
  cap_updatePaymentMethod : bool;
  cap_cancelWhilePastDue : bool;
  cap_changePlan : bool;
}.

Inductive CheckoutMode := mode_subscription | mode_one_time.

Record CreateCheckoutInput := mkCreateCheckout {
  ck_checkoutSessionId : string;
  ck_userId : string;
  ck_email : string;
  ck_name : option string;
  ck_mode : CheckoutMode;
  ck_interval : option BillingInterval;
  ck_productCode : string;
  ck_credits : Z;
  ck_amountAgorot : Z;
  ck_currency : string;
  ck_successUrl : string;
  ck_failureUrl : string;
  ck_expiresAt : Z;
}.

Record CreateCheckoutResult := mkCheckoutResult {
  cr_url : string; cr_providerCheckoutId : option string }.

Record ProviderSubscription := mkProviderSubscription {
  ps_providerSubscriptionId : string;
  ps_providerCustomerId : option string;
  ps_planCode : string;
  ps_status : SubscriptionStatus;
  ps_cancelAtPeriodEnd : bool;
  ps_currentPeriodEnd : option Z;
  ps_trialEndsAt : option Z;
  ps_providerUpdatedAt : Z;
}.

Record ProviderPayment := mkProviderPayment {
  pp_providerPaymentId : string; pp_amountAgorot : Z; pp_currency : string }.

Record ProrationLine := mkProrationLine { pl_planCode : PlanCode; pl_quantity : Z; pl_rate : Q }.

Record ProviderPlanChangePreview := mkPreview {
  pv_chargeNowAgorot : option Z;
  pv_creditAgorot : Z;
  pv_lines : list ProrationLine;
  pv_nextChargeAgorot : option Z;
  pv_nextChargeAt : option Z;
}.

Record EventBase := mkEventBase {
  eb_providerEventId : string; eb_eventType : string; eb_occurredAt : Z; eb_payload : string }.

Record PaymentSucceeded := mkPaymentSucceeded {
  sc_providerSubscriptionId : option string;
  sc_providerCustomerId : option string;
  sc_planCode : option string;
  sc_payment : ProviderPayment;
  sc_listAmountAgorot : option Z;
  sc_periodEnd : option Z;
}.

(** The event's kind with its own fields; base and reference are common. *)
Inductive EventBody :=
| Ev_snapshot (subscription : ProviderSubscription)
| Ev_payment_succeeded (p : PaymentSucceeded)
| Ev_prorated (providerSubscriptionId : string) (payment : ProviderPayment)
    (lines : list ProrationLine) (periodEnd : option Z)
| Ev_payment_failed (providerSubscriptionId : option string) (payment : option ProviderPayment)
    (reason : option string)
| Ev_canceled (providerSubscriptionId : string) (accessEndsAt : option Z)
| Ev_refunded (providerPaymentId : string) (providerSubscriptionId : option string) (full : bool)
| Ev_checkout_failed (reason : option string)
| Ev_ignored.

(** [reference.checkoutSessionId]; the [ignored] kind has none. *)
Record ProviderEvent := mkEvent {
  ev_base : EventBase; ev_body : EventBody; ev_checkoutSessionId : option string }.

Record WebhookRequest := mkWebhookRequest {
  wr_rawBody : string; wr_header : string -> option string }.

Definition subscriptionIdOf (event : ProviderEvent) : option string :=
  match ev_body event with
  | Ev_snapshot s => Some (ps_providerSubscriptionId s)
  | Ev_payment_succeeded p => sc_providerSubscriptionId p
  | Ev_payment_failed sid _ _ => sid
  | Ev_refunded _ sid _ => sid
  | Ev_canceled sid _ => Some sid
  | Ev_prorated sid _ _ _ => Some sid
  | Ev_checkout_failed _ | Ev_ignored => None
  end.

(** ** Errors *)
Inductive ProcessingNote :=
  stale_event | duplicate_payment | already_settled | topup_failed | unknown_subscription
| missing_subscription | unresolved_user | unknown_plan | item_mismatch
| topup_with_subscription | unknown_payment | partial_refund | standing_order_not_ended
| account_deleted.

Definition note_str (n : ProcessingNote) : string :=
  match n with
  | stale_event => "stale_event" | duplicate_payment => "duplicate_payment"
  | already_settled => "already_settled" | topup_failed => "topup_failed"
  | unknown_subscription => "unknown_subscription"
  | missing_subscription => "missing_subscription" | unresolved_user => "unresolved_user"
  | unknown_plan => "unknown_plan" | item_mismatch => "item_mismatch"
  | topup_with_subscription => "topup_with_subscription"
  | unknown_payment => "unknown_payment" | partial_refund => "partial_refund"
  | standing_order_not_ended => "standing_order_not_ended"
  | account_deleted => "account_deleted"
  end%string.

(** Everything a request can throw: the [BillingError] subclasses, the service's
    own [EventProcessingError], and a plain [Error]. *)
Inductive Err :=
| BillingUnavailableError (reason : string)
| InvalidTopupAmountError (amountIls : Q)
| SamePlanError (plan : string)
| YearlyPlanChangeError
| PaymentOverdueError
| PaymentDeclinedError
| SubscriptionEndingError
| RenewalImminentError
| AlreadySubscribedError
| NoSubscriptionError
| UnsupportedBillingOperationError (operation provider : string)
| UnknownProviderError (provider : string)
| CheckoutSessionNotFoundError
| CheckoutAlreadySettledError
| TrialUnavailableError
| PendingCheckoutError
| TooManyCheckoutsError (limitPerHour : Z)
| WebhookVerificationError (reason : string)
| WebhookInFlightError
| MalformedWebhookError (reason : string)
| PaymentProviderError (provider message : string) (providerStatus : option Z)
    (retryable : bool) (providerCode : option string)
| EventProcessingError (note : ProcessingNote) (userId : option string)
| JsError (message : string).

(** HTTP status and code a [BillingError] is answered with; the rest is a 500. *)
Definition err_status (e : Err) : option (string * Z) :=
  match e with
  | BillingUnavailableError _ => Some ("billing_unavailable", 503)
  | InvalidTopupAmountError _ => Some ("invalid_amount", 400)
  | SamePlanError _ => Some ("same_plan", 409)
  | YearlyPlanChangeError => Some ("plan_change_unavailable", 409)
  | PaymentOverdueError => Some ("payment_overdue", 409)
  | PaymentDeclinedError => Some ("payment_declined", 402)
  | SubscriptionEndingError => Some ("subscription_ending", 409)
  | RenewalImminentError => Some ("renewal_imminent", 409)
  | AlreadySubscribedError => Some ("already_subscribed", 409)
  | NoSubscriptionError => Some ("no_subscription", 404)
  | UnsupportedBillingOperationError _ _ => Some ("unsupported_operation", 400)
  | UnknownProviderError _ => Some ("not_found", 404)
  | CheckoutSessionNotFoundError => Some ("not_found", 404)
  | CheckoutAlreadySettledError => Some ("conflict", 409)
  | TrialUnavailableError => Some ("payment_required", 402)
  | PendingCheckoutError => Some ("checkout_pending", 409)
  | TooManyCheckoutsError _ => Some ("rate_limited", 429)
  | WebhookVerificationError _ => Some ("invalid_signature", 401)
  | WebhookInFlightError => Some ("conflict", 409)
  | MalformedWebhookError _ => Some ("invalid_webhook", 400)
  | PaymentProviderError _ _ _ _ _ => Some ("provider_error", 502)
  | EventProcessingError _ _ | JsError _ => None
  end%string.

Definition str_of_Z (z : Z) : string := pretty z.

(** [errorMessage]: the [message] each constructor builds. *)
Definition err_message (e : Err) : string :=
  match e with
  | BillingUnavailableError reason => "billing unavailable: " ++ reason
  | InvalidTopupAmountError _ =>
      "top-up must be a whole amount between " ++ str_of_Z TOPUP_MIN_ILS ++ " and "
      ++ str_of_Z TOPUP_MAX_ILS ++ " ILS"
  | SamePlanError plan => "already on plan " ++ plan
  | YearlyPlanChangeError => "a yearly plan cannot be changed before it ends"
  | PaymentOverdueError => "the subscription has an overdue payment"
  | PaymentDeclinedError => "the saved payment method was declined; nothing changed"
  | SubscriptionEndingError => "resume the subscription before changing its plan"
  | RenewalImminentError => "the current plan renews too soon to change it"
  | AlreadySubscribedError => "user already has an active subscription"
  | NoSubscriptionError => "user has no active subscription"
  | UnsupportedBillingOperationError op p => p ++ " does not support " ++ op
  | UnknownProviderError p => "no payment provider named " ++ p
  | CheckoutSessionNotFoundError => "checkout session not found"
  | CheckoutAlreadySettledError => "checkout session already settled"
  | TrialUnavailableError => "no trial available and no active subscription"
  | PendingCheckoutError =>
      "a checkout is still pending; wait for it to settle before deleting the account"
  | TooManyCheckoutsError n => "more than " ++ str_of_Z n ++ " checkouts opened in the last hour"
  | WebhookVerificationError reason => "webhook rejected: " ++ reason
  | WebhookInFlightError => "event is still being processed"
  | MalformedWebhookError reason => "malformed webhook: " ++ reason
  | PaymentProviderError p message _ _ _ => p ++ ": " ++ message
  | EventProcessingError note _ => note_str note
  | JsError message => message
  end%string.

Definition isPaymentOverdue (e : Err) : bool :=
  match e with PaymentOverdueError => true | _ => false end.

(** ** Lemmas *)
Lemma provider_str_inj p q : provider_str p = provider_str q -> p = q.
Proof. destruct p, q; simpl; congruence. Qed.

Lemma eqe_true {A} `{EqDecision A} (a b : A) : (a =e b) = true <-> a = b.
Proof. apply bool_decide_eq_true. Qed.

Lemma eqe_false {A} `{EqDecision A} (a b : A) : (a =e b) = false <-> a <> b.
Proof. apply bool_decide_eq_false. Qed.

Lemma eqe_refl {A} `{EqDecision A} (a : A) : (a =e a) = true.
Proof. apply eqe_true. reflexivity. Qed.

Lemma isSettledStatus_spec s :
  isSettledStatus s = true <-> s = S_canceled \/ s = S_expired \/ s = S_unpaid.
Proof. destruct s; vm_compute; intuition congruence. Qed.
