(* ===== verification/Json.v ===== *)
(** JSON values, as [JSON.parse] gives them, and the schemas that read them:
    the combinators of zod the code uses, [providers/mock/wire.ts] and
    [providers/paddle/wire.ts].

    [Wire] names what these schemas take from libraries: the reading of an ISO
    timestamp that zod's [datetime] accepts, and zod's [uuid] and [url] checks.
    A schema drops the keys it does not name.  An absent key and a [null] are
    both [None] where the code treats them alike. *)
From Stdlib Require Import Ascii QArith.
From S2P Require Import Prelude Domain.
From stdpp Require Import list strings.
#[local] Open Scope Z_scope.

Inductive Json :=
| JNull
| JBool (b : bool)
| JNum (q : Q)
| JStr (s : string)
| JArr (l : list Json)
| JObj (fields : list (string * Json)).

Record Wire := mkWire {
  parseTimestamp : string -> option Z;
  isUuid : string -> bool;
  isUrl : string -> bool;
}.

(** ** Schema combinators *)
Definition Schema (A : Type) : Type := Json -> option A.

Definition lookupField (key : string) (fields : list (string * Json)) : option Json :=
  option_map snd (List.find (fun p => str_eqb p.1 key) fields).

(** [z.object({ key: s })]. *)
Definition field {A} (key : string) (s : Schema A) : Schema A := fun j =>
  match j with
  | JObj fields => match lookupField key fields with Some v => s v | None => None end
  | _ => None
  end.

Definition nullable {A} (s : Schema A) : Schema (option A) := fun j =>
  match j with JNull => Some None | _ => option_map Some (s j) end.

(** [key: s.nullable().optional()], with [undefined] read as [null]. *)
Definition optionalField {A} (key : string) (s : Schema A) : Schema (option A) := fun j =>
  match j with
  | JObj fields => match lookupField key fields with Some v => nullable s v | None => Some None end
  | _ => None
  end.

(** [key: s.optional()]: a [null] is not accepted. *)
Definition undefinedField {A} (key : string) (s : Schema A) : Schema (option A) := fun j =>
  match j with
  | JObj fields => match lookupField key fields with Some v => option_map Some (s v) | None => Some None end
  | _ => None
  end.

Definition zString : Schema string := fun j => match j with JStr s => Some s | _ => None end.
Definition refine {A} (p : A -> bool) (s : Schema A) : Schema A := fun j =>
  match s j with Some a => if p a then Some a else None | None => None end.
Definition zNonEmpty : Schema string := refine (fun s => negb (str_eqb s "")) zString.
Definition zLength (n : nat) : Schema string := refine (fun s => Nat.eqb (String.length s) n) zString.
Definition zLiteral (v : string) : Schema string := refine (str_eqb v) zString.
Definition zEnum (vs : list string) : Schema string := refine (fun s => List.existsb (str_eqb s) vs) zString.
Definition zInt : Schema Z := fun j =>
  match j with
  | JNum q => if Pos.eqb (Qden (Qred q)) 1 then Some (Qnum (Qred q)) else None
  | _ => None
  end.
Definition zNonNegative : Schema Z := refine (fun n => 0 <=? n) zInt.
Definition zUnknown : Schema Json := fun j => Some j.

Fixpoint mapOption {A B} (f : A -> option B) (l : list A) : option (list B) :=
  match l with
  | [] => Some []
  | a :: l' => match f a, mapOption f l' with Some b, Some bs => Some (b :: bs) | _, _ => None end
  end.
Definition zArray {A} (s : Schema A) : Schema (list A) := fun j =>
  match j with JArr l => mapOption s l | _ => None end.
(** [z.record(z.string(), z.unknown())]: the entries. *)
Definition zRecord : Schema (list (string * Json)) := fun j =>
  match j with JObj fields => Some fields | _ => None end.

Definition zUuid (w : Wire) : Schema string := refine (isUuid w) zString.
Definition zUrl (w : Wire) : Schema string := refine (isUrl w) zString.
Definition zTimestamp (w : Wire) : Schema Z := fun j =>
  match j with JStr s => parseTimestamp w s | _ => None end.

(** ** Decimal strings *)
Definition digitOf (c : ascii) : option Z :=
  let n := Z.of_nat (nat_of_ascii c) in if (48 <=? n) && (n <=? 57) then Some (n - 48) else None.

Fixpoint readDigits (acc : Z) (s : string) : option Z :=
  match s with
  | EmptyString => Some acc
  | String c s' => match digitOf c with Some v => readDigits (10 * acc + v) s' | None => None end
  end.

(** [Number(s)] of a string matching /^\d+$/; [None] when it does not match. *)
Definition decimal (s : string) : option Z :=
  match s with EmptyString => None | _ => readDigits 0 s end.

(** ... of one matching /^-?\d+$/. *)
Definition signedDecimal (s : string) : option Z :=
  match s with
  | String c s' => if Ascii.eqb c "-" then option_map Z.opp (decimal s') else decimal s
  | EmptyString => None
  end.

Fixpoint splitAtDot (s : string) : string * option string :=
  match s with
  | EmptyString => (EmptyString, None)
  | String c s' =>
      if Ascii.eqb c "." then (EmptyString, Some s')
      else let '(a, b) := splitAtDot s' in (String c a, b)
  end.

(** ... of one matching /^\d+(\.\d+)?$/. *)
Definition decimalFraction (s : string) : option Q :=
  match splitAtDot s with
  | (a, None) => option_map inject_Z (decimal a)
  | (a, Some b) =>
      match decimal a, decimal b with
      | Some x, Some y =>
          Some (inject_Z x + inject_Z y / inject_Z (10 ^ Z.of_nat (String.length b)))%Q
      | _, _ => None
      end
  end.

(** A string field that must match a pattern is kept as its number. *)
Definition zDecimal : Schema Z := fun j => match j with JStr s => decimal s | _ => None end.
Definition zSignedDecimal : Schema Z := fun j => match j with JStr s => signedDecimal s | _ => None end.
Definition zFraction : Schema Q := fun j => match j with JStr s => decimalFraction s | _ => None end.

(** ** providers/mock/wire.ts *)
Definition MOCK_SIGNATURE_HEADER : string := "x-mock-signature".

Record MockPayment := mkMockPayment { mp_id : string; mp_amountAgorot : Z; mp_currency : string }.

Inductive MockMode := mock_subscription | mock_one_time.

Inductive MockWebhookBody :=
| Mock_checkout_completed (checkoutSessionId : string) (mode : MockMode) (subscriptionId : option string)
    (customerId productCode : string) (payment : MockPayment)
| Mock_checkout_failed (checkoutSessionId : string) (reason : option string)
| Mock_payment_succeeded (subscriptionId : string) (payment : MockPayment)
| Mock_payment_failed (subscriptionId : string) (payment : option MockPayment) (reason : option string)
| Mock_subscription_canceled (subscriptionId : string) (accessEndsAt : option Z).

Record MockWebhookEvent := mkMockEvent {
  me_id : string; me_occurredAt : Z; me_type : string; me_body : MockWebhookBody }.

Section Schemas.
Variable w : Wire.

Definition MockPaymentSchema : Schema MockPayment := fun j =>
  match field "id" zNonEmpty j, field "amountAgorot" zNonNegative j, field "currency" (zLength 3) j with
  | Some id, Some amount, Some currency => Some (mkMockPayment id amount currency)
  | _, _, _ => None
  end.

Definition mockMode (s : string) : MockMode :=
  if str_eqb s "subscription" then mock_subscription else mock_one_time.

(** The discriminated union: the variant is chosen by [type]. *)
Definition MockBodySchema (type : string) : Schema MockWebhookBody := fun j =>
  if str_eqb type "checkout.completed" then
    match field "checkoutSessionId" (zUuid w) j, field "mode" (zEnum ["subscription"; "one_time"]) j,
          field "subscriptionId" (nullable zNonEmpty) j, field "customerId" zNonEmpty j,
          field "productCode" zNonEmpty j, field "payment" MockPaymentSchema j with
    | Some session, Some mode, Some sub, Some customer, Some product, Some payment =>
        Some (Mock_checkout_completed session (mockMode mode) sub customer product payment)
    | _, _, _, _, _, _ => None
    end
  else if str_eqb type "checkout.failed" then
    match field "checkoutSessionId" (zUuid w) j, field "reason" (nullable zString) j with
    | Some session, Some reason => Some (Mock_checkout_failed session reason)
    | _, _ => None
    end
  else if str_eqb type "payment.succeeded" then
    match field "subscriptionId" zNonEmpty j, field "payment" MockPaymentSchema j with
    | Some sub, Some payment => Some (Mock_payment_succeeded sub payment)
    | _, _ => None
    end
  else if str_eqb type "payment.failed" then
    match field "subscriptionId" zNonEmpty j, field "payment" (nullable MockPaymentSchema) j,
          field "reason" (nullable zString) j with
    | Some sub, Some payment, Some reason => Some (Mock_payment_failed sub payment reason)
    | _, _, _ => None
    end
  else if str_eqb type "subscription.canceled" then
    match field "subscriptionId" zNonEmpty j, field "accessEndsAt" (nullable (zTimestamp w)) j with
    | Some sub, Some accessEndsAt => Some (Mock_subscription_canceled sub accessEndsAt)
    | _, _ => None
    end
  else None.

Definition MockWebhookSchema : Schema MockWebhookEvent := fun j =>
  match field "type" zString j, field "id" zNonEmpty j, field "occurredAt" (zTimestamp w) j with
  | Some type, Some id, Some at_ =>
      match MockBodySchema type j with
      | Some body => Some (mkMockEvent id at_ type body)
      | None => None
      end
  | _, _, _ => None
  end.
End Schemas.

(** ** providers/paddle/wire.ts *)
Definition PADDLE_SIGNATURE_HEADER : string := "paddle-signature".
Definition CHECKOUT_SESSION_KEY : string := "checkout_session_id".
Definition PRICE_PLAN_KEY : string := "agentforall_plan".
Definition SINGLE_UNIT : Json := JObj [("minimum", JNum 1); ("maximum", JNum 1)]%string.

Record PaddlePeriod := mkPeriod { pe_starts_at : Z; pe_ends_at : Z }.

Record PaddlePrice := mkPaddlePrice {
  pr_id : string;
  pr_custom_data : option (list (string * Json));
  pr_unit_price : option Z;
}.

(** [Item]: its price. *)
Definition PaddleItem : Type := option PaddlePrice.

Record PaddleLineItem := mkLineItem { li_price_id : string; li_quantity : Z; li_rate : option Q }.

Record PaddleTransaction := mkPaddleTransaction {
  tx_id : string;
  tx_status : string;
  tx_customer_id : option string;
  tx_subscription_id : option string;
  tx_custom_data : option (list (string * Json));
  tx_currency_code : string;
  tx_origin : string;
  tx_billing_period : option PaddlePeriod;
  tx_items : list PaddleItem;
  tx_details : option (Z * option (list PaddleLineItem));
  tx_checkout_url : option string;
}.

Inductive PaddleScheduledAction := act_cancel | act_pause | act_resume.

Record PaddleSubscription := mkPaddleSubscription {
  su_id : string;
  su_status : SubscriptionStatus;
  su_customer_id : string;
  su_custom_data : option (list (string * Json));
  su_items : list PaddleItem;
  su_current_billing_period : option PaddlePeriod;
  su_scheduled_change : option PaddleScheduledAction;
  su_updated_at : Z;
}.

Record PaddleSubscriptionPreview := mkPaddlePreview {
  vw_next_billed_at : option Z;
  vw_immediate : option (Z * list PaddleLineItem);
  vw_next_total : option Z;
  vw_credit : option Z;
}.

Record PaddleAdjustment := mkAdjustment {
  aj_id : string;
  aj_action : string;
  aj_status : string;
  aj_type : option string;
  aj_transaction_id : string;
  aj_subscription_id : option string;
}.

Record PaddleEnvelope := mkEnvelope {
  en_event_id : string; en_event_type : string; en_occurred_at : Z; en_data : Json }.

Section PaddleSchemas.
Variable w : Wire.

Definition PeriodSchema : Schema PaddlePeriod := fun j =>
  match field "starts_at" (zTimestamp w) j, field "ends_at" (zTimestamp w) j with
  | Some s, Some e => Some (mkPeriod s e)
  | _, _ => None
  end.

Definition PaddlePriceSchema : Schema PaddlePrice := fun j =>
  match field "id" zNonEmpty j, optionalField "custom_data" zRecord j,
        optionalField "unit_price" (field "amount" zDecimal) j with
  | Some id, Some custom, Some amount => Some (mkPaddlePrice id custom amount)
  | _, _, _ => None
  end.

Definition ItemSchema : Schema PaddleItem := optionalField "price" PaddlePriceSchema.

Definition LineItemSchema : Schema PaddleLineItem := fun j =>
  match field "price_id" zNonEmpty j, field "quantity" zInt j,
        optionalField "proration" (field "rate" zFraction) j with
  | Some price, Some quantity, Some rate => Some (mkLineItem price quantity rate)
  | _, _, _ => None
  end.

Definition TransactionDetailsSchema : Schema (Z * option (list PaddleLineItem)) := fun j =>
  match field "totals" (field "total" zDecimal) j, undefinedField "line_items" (zArray LineItemSchema) j with
  | Some total, Some lines => Some (total, lines)
  | _, _ => None
  end.

Definition PaddleTransactionSchema : Schema PaddleTransaction := fun j =>
  match field "id" zNonEmpty j, field "status" zString j, field "customer_id" (nullable zString) j,
        field "subscription_id" (nullable zString) j, optionalField "custom_data" zRecord j,
        field "currency_code" (zLength 3) j, field "origin" zString j with
  | Some id, Some status, Some customer, Some sub, Some custom, Some currency, Some origin =>
      match optionalField "billing_period" PeriodSchema j, field "items" (zArray ItemSchema) j,
            optionalField "details" TransactionDetailsSchema j,
            optionalField "checkout" (field "url" (nullable (zUrl w))) j with
      | Some period, Some items, Some details, Some checkout =>
          Some (mkPaddleTransaction id status customer sub custom currency origin period items details
                  (match checkout with Some url => url | None => None end))
      | _, _, _, _ => None
      end
  | _, _, _, _, _, _, _ => None
  end.

Definition paddleStatus (s : string) : option SubscriptionStatus :=
  if str_eqb s "active" then Some S_active
  else if str_eqb s "canceled" then Some S_canceled
  else if str_eqb s "past_due" then Some S_past_due
  else if str_eqb s "paused" then Some S_paused
  else if str_eqb s "trialing" then Some S_trialing
  else None.

Definition zPaddleStatus : Schema SubscriptionStatus := fun j =>
  match j with JStr s => paddleStatus s | _ => None end.

Definition scheduledAction (s : string) : option PaddleScheduledAction :=
  if str_eqb s "cancel" then Some act_cancel
  else if str_eqb s "pause" then Some act_pause
  else if str_eqb s "resume" then Some act_resume
  else None.

Definition ScheduledChangeSchema : Schema PaddleScheduledAction := fun j =>
  match field "action" (fun a => match a with JStr s => scheduledAction s | _ => None end) j,
        field "effective_at" (zTimestamp w) j with
  | Some action, Some _ => Some action
  | _, _ => None
  end.

Definition PaddleSubscriptionSchema : Schema PaddleSubscription := fun j =>
  match field "id" zNonEmpty j, field "status" zPaddleStatus j, field "customer_id" zNonEmpty j,
        optionalField "custom_data" zRecord j, field "items" (zArray ItemSchema) j,
        optionalField "current_billing_period" PeriodSchema j,
        optionalField "scheduled_change" ScheduledChangeSchema j, field "updated_at" (zTimestamp w) j with
  | Some id, Some status, Some customer, Some custom, Some items, Some period, Some change, Some updated =>
      Some (mkPaddleSubscription id status customer custom items period change updated)
  | _, _, _, _, _, _, _, _ => None
  end.

Definition ImmediateSchema : Schema (Z * list PaddleLineItem) :=
  field "details" (fun j =>
    match field "totals" (field "grand_total" zDecimal) j, field "line_items" (zArray LineItemSchema) j with
    | Some total, Some lines => Some (total, lines)
    | _, _ => None
    end).

Definition PaddleSubscriptionPreviewSchema : Schema PaddleSubscriptionPreview := fun j =>
  match optionalField "next_billed_at" (zTimestamp w) j, optionalField "immediate_transaction" ImmediateSchema j,
        optionalField "next_transaction" (field "details" (field "totals" (field "total" zDecimal))) j,
        optionalField "update_summary" (field "credit" (field "amount" zSignedDecimal)) j with
  | Some billed, Some immediate, Some next, Some credit => Some (mkPaddlePreview billed immediate next credit)
  | _, _, _, _ => None
  end.

Definition PaddleAdjustmentSchema : Schema PaddleAdjustment := fun j =>
  match field "id" zNonEmpty j, field "action" zString j, field "status" zString j,
        undefinedField "type" (zEnum ["full"; "partial"]) j, field "transaction_id" zNonEmpty j,
        optionalField "subscription_id" zString j with
  | Some id, Some action, Some status, Some type, Some tx, Some sub =>
      Some (mkAdjustment id action status type tx sub)
  | _, _, _, _, _, _ => None
  end.

Definition PaddlePortalSessionSchema : Schema string :=
  field "urls" (field "general" (field "overview" (zUrl w))).

Definition PaddleEnvelopeSchema : Schema PaddleEnvelope := fun j =>
  match field "event_id" zNonEmpty j, field "event_type" zNonEmpty j,
        field "occurred_at" (zTimestamp w) j with
  | Some id, Some type, Some at_ =>
      match j with
      | JObj fields => Some (mkEnvelope id type at_
          (match lookupField "data" fields with Some data => data | None => JNull end))
      | _ => None
      end
  | _, _, _ => None
  end.

(** [PaddleErrorSchema]: the error's code. *)
Definition PaddleErrorSchema : Schema string :=
  field "error" (fun j =>
    match field "code" zString j, undefinedField "detail" zString j with
    | Some code, Some _ => Some code
    | _, _ => None
    end).

Definition customDataSessionId (customData : option (list (string * Json))) : option string :=
  match customData with
  | Some fields => match lookupField CHECKOUT_SESSION_KEY fields with Some v => zUuid w v | None => None end
  | None => None
  end.
End PaddleSchemas.
