(* ===== verification/Entitlement.v ===== *)
(** Access from the paid relationship: [billing/entitlement.ts], with the
    [TrialState] of [billing/credits/service.ts] it reads. *)
From S2P Require Import Prelude Dates Domain.
#[local] Open Scope Z_scope.

(** The ledger's view of the trial; [expiresAt] is an instant. *)
Inductive TrialState :=
| Trial_available
| Trial_active (expiresAt remainingCredits daysLeft : Z)
| Trial_used.

Inductive EntitlementReason :=
  R_subscription_active | R_subscription_trial | R_grace_period
| R_canceled_until_period_end | R_trial | R_trial_available | R_beta_access
| R_enforcement_disabled | R_no_subscription | R_subscription_inactive.

Record Entitlement := mkEntitlement { entitled : bool; reason : EntitlementReason }.

Record EntitlementInput := mkEntitlementInput {
  ei_subscription : option Subscription;
  ei_trial : TrialState;
  ei_betaAccess : bool;
  ei_enforcement : bool;
  ei_now : Z;
}.

Definition ACTIVE_GRACE_MS : Z := 3 * DAY_MS.
Definition PAST_DUE_GRACE_MS : Z := 7 * DAY_MS.

Definition INACTIVE : Entitlement := mkEntitlement false R_subscription_inactive.

Definition withinPeriod (end_ : option Z) (now graceMs : Z) : bool :=
  match end_ with None => true | Some e => now <? e + graceMs end.

Definition evaluateSubscription (subscription : option Subscription) (now : Z) : Entitlement :=
  match subscription with
  | None => mkEntitlement false R_no_subscription
  | Some s =>
      let end_ := sub_currentPeriodEnd s in
      match sub_status s with
      | S_trialing =>
          if withinPeriod end_ now ACTIVE_GRACE_MS
          then mkEntitlement true R_subscription_trial else INACTIVE
      | S_active =>
          if withinPeriod end_ now ACTIVE_GRACE_MS
          then mkEntitlement true R_subscription_active else INACTIVE
      | S_past_due =>
          if withinPeriod end_ now PAST_DUE_GRACE_MS
          then mkEntitlement true R_grace_period else INACTIVE
      | S_canceled =>
          if (match end_ with None => false | Some _ => true end) && withinPeriod end_ now 0
          then mkEntitlement true R_canceled_until_period_end else INACTIVE
      | S_paused | S_unpaid | S_expired => INACTIVE
      end
  end.

Definition computeEntitlement (input : EntitlementInput) : Entitlement :=
  let fromSubscription := evaluateSubscription (ei_subscription input) (ei_now input) in
  if entitled fromSubscription then fromSubscription
  else match ei_trial input with
       | Trial_active _ _ _ => mkEntitlement true R_trial
       | Trial_available => mkEntitlement true R_trial_available
       | Trial_used =>
           if ei_betaAccess input then mkEntitlement true R_beta_access
           else if negb (ei_enforcement input) then mkEntitlement true R_enforcement_disabled
           else fromSubscription
       end.

Definition isPaidReason (r : EntitlementReason) : bool :=
  match r with
  | R_subscription_active | R_subscription_trial | R_grace_period
  | R_canceled_until_period_end => true
  | R_trial | R_trial_available | R_beta_access | R_enforcement_disabled
  | R_no_subscription | R_subscription_inactive => false
  end.

(** ** Lemmas *)
Lemma withinPeriod_antitone e t1 t2 g :
  t1 <= t2 -> withinPeriod e t2 g = true -> withinPeriod e t1 g = true.
Proof. destruct e; simpl; intros; bools; try apply Z.ltb_lt; auto; lia. Qed.

Lemma evaluate_entitled_paid s now :
  entitled (evaluateSubscription s now) = isPaidReason (reason (evaluateSubscription s now)).
Proof.
  destruct s as [s|]; [|reflexivity]. simpl.
  destruct (sub_status s); try reflexivity; repeat case_match; reflexivity.
Qed.

(** A paid relationship that grants access now granted it at every earlier
    instant: for a fixed row, access only lapses. *)
Lemma evaluate_antitone s t1 t2 :
  t1 <= t2 -> entitled (evaluateSubscription s t2) = true ->
  evaluateSubscription s t1 = evaluateSubscription s t2.
Proof.
  intros Ht. destruct s as [s|]; [|discriminate]. simpl.
  pose proof (withinPeriod_antitone (sub_currentPeriodEnd s) t1 t2) as Hw.
  destruct (sub_status s); try discriminate;
    match goal with |- context [withinPeriod _ t2 ?g] =>
      specialize (Hw g Ht); destruct (withinPeriod _ t2 g) end;
    rewrite ?Hw, ?andb_false_r by reflexivity; auto; discriminate.
Qed.

(** The last instant, if any, at which a row still grants access. *)
Definition accessEndsAt (s : Subscription) : option (option Z) :=
  match sub_status s, sub_currentPeriodEnd s with
  | (S_trialing | S_active | S_past_due), None => Some None
  | (S_trialing | S_active), Some e => Some (Some (e + ACTIVE_GRACE_MS))
  | S_past_due, Some e => Some (Some (e + PAST_DUE_GRACE_MS))
  | S_canceled, Some e => Some (Some e)
  | S_canceled, None => None
  | (S_paused | S_unpaid | S_expired), _ => None
  end.

Lemma evaluate_access s now :
  entitled (evaluateSubscription (Some s) now) = true <->
  exists deadline, accessEndsAt s = Some deadline /\
    match deadline with None => True | Some d => now < d end.
Proof.
  unfold accessEndsAt. simpl.
  destruct (sub_status s), (sub_currentPeriodEnd s) as [e|]; simpl.
  all: try (split; [intros _; eexists; split; [reflexivity | exact I] | reflexivity]).
  all: try (split; [discriminate | intros (d & [=] & _)]).
  all: match goal with |- context [?n <? ?x] => destruct (n <? x) eqn:Hlt end; simpl; bools.
  all: split; [intros Ht | intros (d & [= <-] & Hd); cbn in Hd].
  all: first [discriminate | reflexivity | lia | eexists; split; [reflexivity | simpl; lia]].
Qed.

(** What each input decides, in the order the code asks. *)
(** Access is computed in a fixed precedence.  The answer carries a paid
    reason exactly when the subscription alone grants access (its deadline
    [accessEndsAt] has not passed), whatever the trial and the overrides say;
    an unpaid account is entitled exactly when its trial is unused or running,
    it is a beta account, or enforcement is off; and otherwise the refusal
    carries the subscription's own reason. *)
Theorem entitlement_precedence i :
  let e := computeEntitlement i in
  isPaidReason (reason e) = entitled (evaluateSubscription (ei_subscription i) (ei_now i)) /\
  (isPaidReason (reason e) = true -> e = evaluateSubscription (ei_subscription i) (ei_now i)) /\
  (entitled e = true <->
     (exists s d, ei_subscription i = Some s /\ accessEndsAt s = Some d /\
        match d with None => True | Some t => ei_now i < t end) \/
     ei_trial i <> Trial_used \/ ei_betaAccess i = true \/ ei_enforcement i = false) /\
  (entitled e = false -> e = evaluateSubscription (ei_subscription i) (ei_now i)).
Proof.
  assert (Hacc : entitled (evaluateSubscription (ei_subscription i) (ei_now i)) = true <->
    exists s d, ei_subscription i = Some s /\ accessEndsAt s = Some d /\
      match d with None => True | Some t => ei_now i < t end).
  { destruct (ei_subscription i) as [s|].
    - rewrite evaluate_access. split; [intros (d & H); eauto | intros (? & d & [= <-] & H); eauto].
    - simpl. split; [discriminate | intros (? & ? & [=] & _)]. }
  pose proof (evaluate_entitled_paid (ei_subscription i) (ei_now i)) as Hp.
  cbv zeta. rewrite <- Hacc. unfold computeEntitlement. cbv zeta.
  destruct (entitled (evaluateSubscription (ei_subscription i) (ei_now i))) eqn:He; cbv iota.
  - rewrite <- Hp. intuition congruence.
  - destruct (ei_trial i), (ei_betaAccess i), (ei_enforcement i); simpl;
      rewrite <- ?Hp, ?He; intuition congruence.
Qed.
