(* ===== verification/Allocation.v ===== *)
(** Which grant pays for consumption: [billing/credits/allocation.ts] and
    [billing/credits/period.ts]. *)
From Stdlib Require Import Permutation Sorted.
From S2P Require Import Prelude Dates Domain Entitlement.
From stdpp Require Import list sorting.
#[local] Open Scope Z_scope.

Record AttributionResult := mkAttributionResult {
  attributions : list ConsumptionAttribution; unallocated : Z }.

Definition isGrantLive (grant : CreditGrant) (at_ : Z) : bool :=
  (g_usedCredits grant <? g_credits grant) &&
  match g_expiresAt grant with None => true | Some e => at_ <? e end.

Definition remainingCredits (grant : CreditGrant) : Z :=
  Z.max 0 (g_credits grant - g_usedCredits grant).

(** The comparator of the sort, as "[a] may stand before [b]": its result is
    not positive. *)
Definition consumptionCompare (a b : CreditGrant) : Z :=
  match g_expiresAt a, g_expiresAt b with
  | None, Some _ => 1
  | Some _, None => -1
  | Some ea, Some eb =>
      if negb (ea =? eb) then ea - eb else g_grantedAt a - g_grantedAt b
  | None, None => g_grantedAt a - g_grantedAt b
  end.

Definition consumptionOrder (grants : list CreditGrant) : list CreditGrant :=
  isort (fun a b => consumptionCompare a b <=? 0) grants.

(** The loop of [attributeConsumption]: [left] is what is still to place. *)
Fixpoint attributeLoop (grants : list CreditGrant) (left asOf : Z) : AttributionResult :=
  match grants with
  | [] => mkAttributionResult [] left
  | grant :: rest =>
      if left =? 0 then mkAttributionResult [] left
      else if negb (isGrantLive grant asOf) then attributeLoop rest left asOf
      else
        let take := Z.min left (remainingCredits grant) in
        let r := attributeLoop rest (left - take) asOf in
        mkAttributionResult (mkAttribution (g_id grant) take :: attributions r) (unallocated r)
  end.

(** [None] is the [RangeError] of a negative amount. *)
Definition attributeConsumption (grants : list CreditGrant) (consumed asOf : Z)
  : option AttributionResult :=
  if consumed <? 0 then None
  else Some (attributeLoop (consumptionOrder grants) consumed asOf).

Definition availableCredits (grants : list CreditGrant) (now : Z) : Z :=
  List.fold_left (fun sum g => sum + remainingCredits g)
    (List.filter (fun g => isGrantLive g now) grants) 0.

Definition currentAllowance (grants : list CreditGrant) (now : Z) : Z :=
  List.fold_left (fun sum g => sum + g_credits g)
    (List.filter (fun g => isGrantLive g now) grants) 0.

(** *** period.ts *)
Definition periodEndOf (kind : CreditGrantKind) (expiresAt : option Z) : option Z :=
  match expiresAt with
  | None => None
  | Some e => Some (if kind =e G_plan then e - ACTIVE_GRACE_MS else e)
  end.

Definition isInCurrentPeriod (kind : CreditGrantKind) (expiresAt : option Z) (now : Z) : bool :=
  match periodEndOf kind expiresAt with None => true | Some e => now <? e end.

(** ** Lemmas *)
Lemma remainingCredits_live g t : isGrantLive g t = true ->
  remainingCredits g = g_credits g - g_usedCredits g /\ 0 < remainingCredits g.
Proof. unfold isGrantLive, remainingCredits. intros. bools. lia. Qed.

Lemma remainingCredits_nonneg g : 0 <= remainingCredits g.
Proof. unfold remainingCredits. lia. Qed.

Lemma isGrantLive_antitone g t1 t2 : t1 <= t2 -> isGrantLive g t2 = true -> isGrantLive g t1 = true.
Proof.
  unfold isGrantLive. intros Ht H. apply andb_prop in H as [-> H]. simpl.
  destruct (g_expiresAt g); [|reflexivity]. bools. apply Z.ltb_lt. lia.
Qed.

Lemma availableCredits_sum grants now :
  availableCredits grants now =
  sumZ remainingCredits (List.filter (fun g => isGrantLive g now) grants).
Proof. unfold availableCredits. rewrite fold_left_sumZ. reflexivity. Qed.

Lemma currentAllowance_sum grants now :
  currentAllowance grants now = sumZ g_credits (List.filter (fun g => isGrantLive g now) grants).
Proof. unfold currentAllowance. rewrite fold_left_sumZ. reflexivity. Qed.

Lemma availableCredits_nonneg grants now : 0 <= availableCredits grants now.
Proof. rewrite availableCredits_sum. apply sumZ_nonneg. intros. apply remainingCredits_nonneg. Qed.

Lemma availableCredits_perm l1 l2 now : l1 ≡ₚ l2 -> availableCredits l1 now = availableCredits l2 now.
Proof. intros H. rewrite !availableCredits_sum. apply sumZ_perm, filter_perm, H. Qed.

(** [consumptionCompare] orders by expiry (never is last), then by grant date. *)
Definition expiryKey (g : CreditGrant) : option Z := g_expiresAt g.
Definition expiresBefore (a b : option Z) : Prop :=
  match a, b with Some x, Some y => x < y | Some _, None => True | None, _ => False end.

Lemma consumption_le_iff a b :
  consumptionCompare a b <= 0 <->
  expiresBefore (g_expiresAt a) (g_expiresAt b) \/
  (g_expiresAt a = g_expiresAt b /\ g_grantedAt a <= g_grantedAt b).
Proof.
  unfold consumptionCompare.
  destruct (g_expiresAt a) as [x|], (g_expiresAt b) as [y|]; simpl;
    try (split; [intros; try lia; auto | intros [?|[[=] ?]]; try lia; auto]; fail).
  - destruct (x =? y) eqn:Hxy; simpl; bools; subst; split.
    + intros. right. split; [reflexivity | lia].
    + intros [?|[_ ?]]; lia.
    + intros. left. lia.
    + intros [?|[[=] ?]]; lia.
  - split; [intros; right; split; [reflexivity|lia] | intros [[]|[_ ?]]; lia].
Qed.

Lemma consumption_total a b :
  (consumptionCompare a b <=? 0) = true \/ (consumptionCompare b a <=? 0) = true.
Proof.
  rewrite !Z.leb_le, !consumption_le_iff.
  destruct (g_expiresAt a) as [x|], (g_expiresAt b) as [y|]; simpl; auto.
  - destruct (Z.lt_trichotomy x y) as [H|[->|H]]; auto.
    destruct (Z.le_ge_cases (g_grantedAt a) (g_grantedAt b)); auto.
  - destruct (Z.le_ge_cases (g_grantedAt a) (g_grantedAt b)); auto.
Qed.

Lemma consumption_trans a b c :
  (consumptionCompare a b <=? 0) = true -> (consumptionCompare b c <=? 0) = true ->
  (consumptionCompare a c <=? 0) = true.
Proof.
  rewrite !Z.leb_le, !consumption_le_iff.
  destruct (g_expiresAt a) as [x|], (g_expiresAt b) as [y|], (g_expiresAt c) as [z|]; simpl;
    intuition (try congruence); repeat match goal with H : Some _ = Some _ |- _ => injection H as H end;
    try (left; lia); right; split; try congruence; lia.
Qed.

Lemma consumptionOrder_perm l : consumptionOrder l ≡ₚ l.
Proof. apply isort_perm. Qed.

Lemma consumptionOrder_sorted l :
  StronglySorted (fun a b => consumptionCompare a b <= 0) (consumptionOrder l).
Proof.
  pose proof (isort_sorted _ consumption_total consumption_trans l) as H.
  unfold consumptionOrder. induction H; constructor; auto.
  eapply Forall_impl; [eassumption|]. simpl. intros. bools. assumption.
Qed.

(** In a sorted list, an element strictly below another stands before it. *)
Lemma sorted_before l1 g l2 g' :
  StronglySorted (fun a b => consumptionCompare a b <= 0) (l1 ++ g :: l2) ->
  In g' (l1 ++ g :: l2) -> consumptionCompare g' g < 0 -> In g' l1.
Proof.
  intros Hs Hin Hlt. apply in_app_or in Hin as [Hin|[->|Hin]]; [assumption| |].
  - exfalso. unfold consumptionCompare in Hlt.
    destruct (g_expiresAt g'); rewrite ?Z.eqb_refl in Hlt; simpl in Hlt; lia.
  - exfalso. apply StronglySorted_app_1_r in Hs. inversion Hs as [|? ? _ Hall]; subst.
    rewrite Forall_forall in Hall. specialize (Hall g' ltac:(apply list_elem_of_In; assumption)).
    revert Hlt Hall. unfold consumptionCompare.
    destruct (g_expiresAt g) as [x|], (g_expiresAt g') as [y|]; try lia.
    rewrite (Z.eqb_sym y x). destruct (x =? y); simpl; lia.
Qed.

(** What an attribution takes from the grant [id]. *)
Definition takenFrom (id : string) (l : list ConsumptionAttribution) : Z :=
  sumZ at_credits (List.filter (fun a => str_eqb (at_grantId a) id) l).

Lemma attributeLoop_conserves l left asOf : 0 <= left ->
  sumZ at_credits (attributions (attributeLoop l left asOf))
    + unallocated (attributeLoop l left asOf) = left /\
  unallocated (attributeLoop l left asOf)
    = Z.max 0 (left - sumZ remainingCredits (List.filter (fun g => isGrantLive g asOf) l)).
Proof.
  revert left. induction l as [|g l IH]; intros left Hl; simpl; [lia|].
  assert (Hnn : 0 <= sumZ remainingCredits (List.filter (fun g => isGrantLive g asOf) l))
    by (apply sumZ_nonneg; intros; apply remainingCredits_nonneg).
  pose proof (remainingCredits_nonneg g).
  destruct (left =? 0) eqn:Hz; bools.
  - subst. simpl. destruct (isGrantLive g asOf); simpl; lia.
  - destruct (isGrantLive g asOf) eqn:Hlive; simpl; [|apply IH; assumption].
    specialize (IH (left - Z.min left (remainingCredits g)) ltac:(lia)). lia.
Qed.

Lemma attributeLoop_in l left asOf a : 0 <= left ->
  In a (attributions (attributeLoop l left asOf)) ->
  exists g, In g l /\ at_grantId a = g_id g /\ isGrantLive g asOf = true /\
            0 < at_credits a <= remainingCredits g.
Proof.
  revert left. induction l as [|g l IH]; intros left Hl; simpl; [intros []|].
  destruct (left =? 0) eqn:Hz; simpl; [intros []|]. bools.
  destruct (isGrantLive g asOf) eqn:Hlive; simpl.
  - pose proof (remainingCredits_live _ _ Hlive).
    intros [<-|Hin]; [exists g; simpl; auto with lia|].
    apply IH in Hin as (g' & ? & ?); [eauto | lia].
  - intros Hin. apply IH in Hin as (g' & ? & ?); eauto.
Qed.

Lemma attributeLoop_nonneg l left asOf a : 0 <= left ->
  In a (attributions (attributeLoop l left asOf)) -> 0 <= at_credits a.
Proof. intros Hl Ha. apply attributeLoop_in in Ha as (? & _ & _ & _ & ?); lia. Qed.

Lemma takenFrom_absent id l :
  (forall a, In a l -> at_grantId a <> id) -> takenFrom id l = 0.
Proof.
  unfold takenFrom. induction l as [|a l IH]; intros H; [reflexivity|]. simpl.
  destruct (str_eqb (at_grantId a) id) eqn:He.
  - apply str_eqb_eq in He. destruct (H a); simpl; auto.
  - apply IH. intros b Hb. apply H. right. exact Hb.
Qed.

Lemma takenFrom_cons_eq id n l : takenFrom id (mkAttribution id n :: l) = n + takenFrom id l.
Proof. unfold takenFrom. simpl. rewrite str_eqb_refl. reflexivity. Qed.

Lemma takenFrom_cons_ne id id' n l :
  id' <> id -> takenFrom id (mkAttribution id' n :: l) = takenFrom id l.
Proof.
  intros H. unfold takenFrom. simpl. destruct (str_eqb id' id) eqn:E; [|reflexivity].
  apply str_eqb_eq in E. contradiction.
Qed.

Lemma attributeLoop_other l left asOf id : 0 <= left ->
  ~ In id (List.map g_id l) -> takenFrom id (attributions (attributeLoop l left asOf)) = 0.
Proof.
  intros Hl Hid. apply takenFrom_absent. intros a Ha <-.
  apply attributeLoop_in in Ha as (g & Hg & E & _); [|assumption].
  apply Hid. rewrite E. apply in_map, Hg.
Qed.

(** The greedy order: a grant is touched only once every live grant before it is spent. *)
Lemma attributeLoop_greedy l1 g l2 left asOf : 0 <= left ->
  NoDup (List.map g_id (l1 ++ g :: l2)) ->
  0 < takenFrom (g_id g) (attributions (attributeLoop (l1 ++ g :: l2) left asOf)) ->
  forall g', In g' l1 -> isGrantLive g' asOf = true ->
    takenFrom (g_id g') (attributions (attributeLoop (l1 ++ g :: l2) left asOf))
    = remainingCredits g'.
Proof.
  revert left. induction l1 as [|h l1 IH]; intros left Hl Hnd Ht g' Hin Hlive; [destruct Hin|].
  simpl in *. apply NoDup_cons in Hnd as [Hh Hnd]. rewrite list_elem_of_In in Hh.
  assert (Hgh : g_id h <> g_id g).
  { intros E. apply Hh. rewrite E. apply in_map, in_elt. }
  destruct (left =? 0) eqn:Hz; [simpl in Ht; discriminate|]. bools.
  destruct (isGrantLive h asOf) eqn:Hlh; simpl in *.
  - rewrite takenFrom_cons_ne in Ht by assumption.
    destruct Hin as [->|Hin].
    + rewrite takenFrom_cons_eq, attributeLoop_other by (assumption || lia).
      pose proof (remainingCredits_live _ _ Hlh).
      destruct (Z.eq_dec (left - Z.min left (remainingCredits g')) 0) as [E|E]; [|lia].
      rewrite E in Ht. destruct l1; simpl in Ht; discriminate.
    + rewrite takenFrom_cons_ne.
      * apply IH; auto. lia.
      * intros E. apply Hh. rewrite E. apply in_map, in_or_app. auto.
  - destruct Hin as [->|Hin]; [congruence|]. apply IH; auto.
Qed.

Lemma attributeLoop_taken_le l left asOf g : 0 <= left ->
  NoDup (List.map g_id l) -> In g l ->
  0 <= takenFrom (g_id g) (attributions (attributeLoop l left asOf)) <= remainingCredits g /\
  (isGrantLive g asOf = false ->
     takenFrom (g_id g) (attributions (attributeLoop l left asOf)) = 0).
Proof.
  revert left. induction l as [|h l IH]; intros left Hl Hnd Hin; [destruct Hin|].
  pose proof (remainingCredits_nonneg g). pose proof (remainingCredits_nonneg h).
  simpl in *. apply NoDup_cons in Hnd as [Hh Hnd]. rewrite list_elem_of_In in Hh.
  destruct (left =? 0) eqn:Hz; [simpl; unfold takenFrom; simpl; lia|]. bools.
  destruct Hin as [->|Hin].
  - destruct (isGrantLive g asOf) eqn:Hlg; simpl.
    + rewrite takenFrom_cons_eq, attributeLoop_other by (assumption || lia).
      split; [lia | discriminate].
    + rewrite attributeLoop_other by assumption. lia.
  - assert (g_id h <> g_id g) by (intros E; apply Hh; rewrite E; apply in_map, Hin).
    destruct (isGrantLive h asOf) eqn:Hlh; simpl; [|apply IH; auto].
    rewrite takenFrom_cons_ne by assumption. apply IH; auto. lia.
Qed.

(** Attribution of a bot's consumption to its user's grants.  It fails
    exactly on a negative amount.  Otherwise no credit is lost or invented: what
    the grants pay and what stays unallocated add up to the consumption, and
    only what exceeds every live grant together stays unallocated.  A grant that
    was spent or expired at [asOf] pays nothing, a live one never more than it
    has left; and a grant pays only after every live grant that comes before it
    in the spending order (soonest expiry first, never-expiring last, older
    grants first among equals) has paid all it had. *)
Theorem attributeConsumption_spec grants consumed asOf :
  NoDup (List.map g_id grants) ->
  match attributeConsumption grants consumed asOf with
  | None => consumed < 0
  | Some r =>
      0 <= consumed /\
      sumZ at_credits (attributions r) + unallocated r = consumed /\
      unallocated r = Z.max 0 (consumed - availableCredits grants asOf) /\
      (forall g, In g grants ->
         0 <= takenFrom (g_id g) (attributions r) <= remainingCredits g /\
         (isGrantLive g asOf = false -> takenFrom (g_id g) (attributions r) = 0)) /\
      (forall g1 g2, In g1 grants -> In g2 grants -> isGrantLive g1 asOf = true ->
         consumptionCompare g1 g2 < 0 -> 0 < takenFrom (g_id g2) (attributions r) ->
         takenFrom (g_id g1) (attributions r) = remainingCredits g1)
  end.
Proof.
  intros Hnd. unfold attributeConsumption. destruct (consumed <? 0) eqn:Hc; bools; [assumption|].
  pose proof (consumptionOrder_perm grants) as Hp.
  assert (Hnd' : NoDup (List.map g_id (consumptionOrder grants)))
    by (rewrite (Permutation_map g_id Hp); assumption).
  destruct (attributeLoop_conserves (consumptionOrder grants) consumed asOf Hc) as [H1 H2].
  repeat split; try assumption.
  - rewrite <- availableCredits_sum, (availableCredits_perm _ _ _ Hp) in H2. exact H2.
  - eapply attributeLoop_taken_le; eauto. apply (Permutation_in _ (symmetry Hp)); assumption.
  - eapply attributeLoop_taken_le; eauto. apply (Permutation_in _ (symmetry Hp)); assumption.
  - eapply attributeLoop_taken_le; eauto. apply (Permutation_in _ (symmetry Hp)); assumption.
  - intros g1 g2 Hg1 Hg2 Hlive Hcmp Ht.
    apply (Permutation_in _ (symmetry Hp)) in Hg2.
    apply (Permutation_in _ (symmetry Hp)) in Hg1.
    apply in_split in Hg2 as (l1 & l2 & Hs). pose proof (consumptionOrder_sorted grants) as Hsort.
    rewrite Hs in *. apply attributeLoop_greedy with (g := g2); auto.
    eapply sorted_before; eauto.
Qed.
