(* ===== verification/CreditViews.v ===== *)
(** What a user is shown of the ledger: [billing/credits/pools.ts],
    [billing/credits/history.ts] and [billing/credits/runway.ts].

    A view's ISO strings are the instants they print: for the years 0 to 9999
    comparing two of them, [localeCompare] included, compares the instants, and
    [slice(0, 10)] is the UTC day.  A [Map] is an association list in insertion
    order.  The divisions of [runwayDays] are exact rationals. *)
From Stdlib Require Import QArith Qround Permutation Sorted.
From S2P Require Import Prelude Dates Domain Entitlement Allocation.
From stdpp Require Import list.
#[local] Open Scope Z_scope.

(** [CreditGrantView] of credits/service.ts. *)
Record CreditGrantView := mkGrantView {
  gv_id : string;
  gv_kind : CreditGrantKind;
  gv_credits : Z;
  gv_usedCredits : Z;
  gv_grantedAt : Z;
  gv_expiresAt : option Z;
  gv_periodEnd : option Z;
  gv_live : bool;
  gv_inCurrentPeriod : bool;
}.

(** [map.set(key, update(map.get(key) ?? fresh))] on a map in insertion order. *)
Section AssocMap.
Context {K V : Type} `{EqDecision K}.
Fixpoint map_upsert (key : K) (fresh : V) (update : V -> V) (m : list (K * V)) : list (K * V) :=
  match m with
  | [] => [(key, update fresh)]
  | (k, v) :: m' =>
      if bool_decide (k = key) then (k, update v) :: m' else (k, v) :: map_upsert key fresh update m'
  end.

Lemma map_upsert_keys key fresh update m :
  (In key (List.map fst m) -> List.map fst (map_upsert key fresh update m) = List.map fst m) /\
  (~ In key (List.map fst m) ->
     List.map fst (map_upsert key fresh update m) = List.map fst m ++ [key]).
Proof.
  induction m as [|[k v] m [IH1 IH2]]; simpl; [intuition|].
  destruct (decide (k = key)) as [->|Hk].
  - rewrite bool_decide_true by reflexivity. simpl. intuition.
  - rewrite bool_decide_false by assumption. simpl. split; intros H; f_equal; intuition.
Qed.

Lemma map_upsert_NoDup key fresh update m :
  NoDup (List.map fst m) -> NoDup (List.map fst (map_upsert key fresh update m)).
Proof.
  intros H. destruct (map_upsert_keys key fresh update m) as [H1 H2].
  destruct (In_dec (fun a b => decide (a = b)) key (List.map fst m)) as [Hin|Hin]; [rewrite H1; assumption|].
  rewrite H2 by assumption. apply NoDup_app. split; [assumption|]. split; [|apply NoDup_singleton].
  intros x Hx Hx'. apply list_elem_of_singleton in Hx'. subst.
  apply Hin, list_elem_of_In. assumption.
Qed.

(** A sum over the entries grows by what the update adds. *)
Lemma map_upsert_sum (f : K -> V -> Z) key fresh update m d :
  f key fresh = 0 -> (forall v, f key (update v) = f key v + d) ->
  sumZ (fun p => f p.1 p.2) (map_upsert key fresh update m) = sumZ (fun p => f p.1 p.2) m + d.
Proof.
  intros H0 Hd. induction m as [|[k v] m IH]; simpl.
  - rewrite Hd, H0. lia.
  - case_bool_decide; subst; simpl; [rewrite Hd | rewrite IH]; lia.
Qed.

Lemma map_upsert_forall (P : K -> V -> Prop) key fresh update m :
  P key (update fresh) -> (forall v, P key v -> P key (update v)) ->
  Forall (fun p => P p.1 p.2) m ->
  Forall (fun p => P p.1 p.2) (map_upsert key fresh update m).
Proof.
  intros Hf Hu. induction 1 as [|[k v] m Hkv Hm IH]; simpl; [repeat constructor; assumption|].
  simpl in Hkv. case_bool_decide; subst; constructor; simpl; auto.
Qed.
End AssocMap.

(** *** pools.ts *)
Definition dayOf (t : Z) : Z := t / DAY_MS.

(** The pool's key [kind:earlier|current:day|never], as its three parts. *)
Definition PoolKey : Type := CreditGrantKind * bool * option Z.

Record CreditPool := mkPool {
  pl_kind : CreditGrantKind;
  pl_earlier : bool;
  pl_available : Z;
  pl_credits : Z;
  pl_validUntil : option Z;
}.

Definition isCurrentGrant (grant : CreditGrantView) : bool :=
  gv_live grant ||
  (match gv_periodEnd grant with None => false | Some _ => true end && gv_inCurrentPeriod grant).

Definition validUntilOf (grant : CreditGrantView) : option Z :=
  if gv_inCurrentPeriod grant then gv_periodEnd grant else gv_expiresAt grant.

(** [untilOf(a) - untilOf(b) <= 0]; two infinities compare as [NaN], which the
    sort treats as equal. *)
Definition poolBefore (a b : CreditPool) : bool :=
  match pl_validUntil a, pl_validUntil b with
  | Some x, Some y => x - y <=? 0
  | Some _, None => true
  | None, Some _ => false
  | None, None => true
  end.

Definition poolKey (grant : CreditGrantView) : PoolKey :=
  (gv_kind grant, (gv_kind grant =e G_plan) && negb (gv_inCurrentPeriod grant),
   option_map dayOf (validUntilOf grant)).

Definition addToPool (grant : CreditGrantView) (pool : CreditPool) : CreditPool :=
  let validUntil := validUntilOf grant in
  mkPool (pl_kind pool) (pl_earlier pool)
    (pl_available pool + Z.max 0 (gv_credits grant - gv_usedCredits grant))
    (pl_credits pool + gv_credits grant)
    (match validUntil, pl_validUntil pool with
     | Some v, Some p => if p <? v then validUntil else pl_validUntil pool
     | _, _ => pl_validUntil pool
     end).

Definition poolStep (pools : list (PoolKey * CreditPool)) (grant : CreditGrantView) :=
  if negb (isCurrentGrant grant) then pools
  else
    let '(kind, earlier, _) as key := poolKey grant in
    map_upsert key (mkPool kind earlier 0 0 (validUntilOf grant)) (addToPool grant) pools.

Definition balancePools (grants : list CreditGrantView) : list CreditPool :=
  isort poolBefore (List.map snd (List.fold_left poolStep grants [])).

(** *** history.ts *)
Record PastPeriod := mkPastPeriod {
  pp_kind : CreditGrantKind;
  pp_startsAt : Z;
  pp_endsAt : Z;
  pp_credits : Z;
  pp_used : Z;
}.

Definition addToPeriod (grant : CreditGrantView) (period : PastPeriod) : PastPeriod :=
  mkPastPeriod (pp_kind period)
    (if gv_grantedAt grant <? pp_startsAt period then gv_grantedAt grant else pp_startsAt period)
    (pp_endsAt period)
    (pp_credits period + gv_credits grant)
    (pp_used period + gv_usedCredits grant).

(** The state of the loop: the periods by day, and the days still running. *)
Definition periodStep (st : list (Z * PastPeriod) * list Z) (grant : CreditGrantView) :=
  let '(periods, current) := st in
  match gv_periodEnd grant with
  | Some pend =>
      if negb (gv_kind grant =e G_plan) then st
      else
        let key := dayOf pend in
        (map_upsert key (mkPastPeriod G_plan (gv_grantedAt grant) pend 0 0) (addToPeriod grant) periods,
         if gv_inCurrentPeriod grant then key :: current else current)
  | None => st
  end.

Definition pastPeriods (grants : list CreditGrantView) : list PastPeriod :=
  let '(periods, current) := List.fold_left periodStep grants ([], []) in
  let history :=
    isort (fun a b => pp_endsAt b <=? pp_endsAt a)
      (List.map snd
        (List.filter (fun kp => negb (List.existsb (Z.eqb kp.1) current)) periods)) in
  match List.find (fun g => gv_kind g =e G_trial) grants with
  | Some trial =>
      match gv_periodEnd trial with
      | Some pend =>
          if negb (gv_inCurrentPeriod trial)
          then history ++ [mkPastPeriod G_trial (gv_grantedAt trial) pend
                             (gv_credits trial) (gv_usedCredits trial)]
          else history
      | None => history
      end
  | None => history
  end.

(** *** runway.ts *)
Definition MIN_PACE_DAYS : Q := 1.

Definition latestGrant (latest : option CreditGrant) (grant : CreditGrant) : option CreditGrant :=
  match latest with
  | Some l => if g_grantedAt grant <=? g_grantedAt l then latest else Some grant
  | None => Some grant
  end.

Definition runwayDays (grants : list CreditGrant) (available now : Z) : option Z :=
  if available <=? 0 then None
  else
    match List.fold_left latestGrant
            (List.filter (fun g => negb (g_kind g =e G_topup) && isGrantLive g now) grants) None with
    | None => None
    | Some current =>
        if g_usedCredits current =? 0 then None
        else match periodEndOf (g_kind current) (g_expiresAt current) with
             | None => None
             | Some pend =>
                 if pend <=? now then None
                 else
                   let elapsedDays := (inject_Z (now - g_grantedAt current) / inject_Z DAY_MS)%Q in
                   if negb (Qle_bool MIN_PACE_DAYS elapsedDays) then None
                   else
                     let days := Qfloor (inject_Z available
                                         / (inject_Z (g_usedCredits current) / elapsedDays)) in
                     if Qle_bool (inject_Z (pend - now) / inject_Z DAY_MS) (inject_Z days) then None
                     else Some days
             end
    end.

(** ** Lemmas *)
Lemma sumZ_filter {A} (p : A -> bool) (f : A -> Z) l :
  sumZ f (List.filter p l) = sumZ (fun x => if p x then f x else 0) l.
Proof. induction l as [|x l IH]; simpl; [reflexivity|]. destruct (p x); simpl; lia. Qed.

Lemma sumZ_map {A B} (g : A -> B) (f : B -> Z) l :
  sumZ f (List.map g l) = sumZ (fun x => f (g x)) l.
Proof. induction l; simpl; congruence. Qed.

(** An accumulating loop whose step adds [d a] to a measure of its state. *)
Lemma fold_left_measure {A S} (step : S -> A -> S) (m : S -> Z) (d : A -> Z) l s :
  (forall s a, m (step s a) = m s + d a) ->
  m (List.fold_left step l s) = m s + sumZ d l.
Proof.
  intros H. revert s. induction l as [|a l IH]; intros s; simpl; [lia|]. rewrite IH, H. lia.
Qed.

Lemma fold_left_inv {A S} (step : S -> A -> S) (P : S -> Prop) l s :
  (forall s a, In a l -> P s -> P (step s a)) -> P s -> P (List.fold_left step l s).
Proof.
  revert s. induction l as [|a l IH]; intros s H Hs; simpl; [assumption|].
  apply IH; [intros; apply H; simpl; auto | apply H; simpl; auto].
Qed.

Definition keyOfPool (pool : CreditPool) : PoolKey :=
  (pl_kind pool, pl_earlier pool, option_map dayOf (pl_validUntil pool)).

Lemma poolStep_unfold pools g :
  poolStep pools g =
  if isCurrentGrant g
  then map_upsert (poolKey g) (mkPool (gv_kind g) ((gv_kind g =e G_plan) && negb (gv_inCurrentPeriod g))
                                 0 0 (validUntilOf g)) (addToPool g) pools
  else pools.
Proof. unfold poolStep, poolKey. destruct (isCurrentGrant g); reflexivity. Qed.

Lemma addToPool_key g pool :
  keyOfPool pool = poolKey g -> keyOfPool (addToPool g pool) = poolKey g.
Proof.
  unfold keyOfPool, poolKey, addToPool. simpl. intros [= -> -> Hv]. apply (f_equal2 pair eq_refl).
  destruct (validUntilOf g) as [v|] eqn:E, (pl_validUntil pool) as [p|]; simpl in *; try congruence.
  destruct (p <? v); simpl; congruence.
Qed.

Definition poolsOf (grants : list CreditGrantView) := List.fold_left poolStep grants [].

Lemma poolsOf_keys grants :
  Forall (fun kp => kp.1 = keyOfPool kp.2) (poolsOf grants) /\ NoDup (List.map fst (poolsOf grants)).
Proof.
  unfold poolsOf. apply fold_left_inv; [|split; constructor].
  intros pools g _ [Hk Hn]. rewrite poolStep_unfold. destruct (isCurrentGrant g); [|auto].
  split; [|apply map_upsert_NoDup; assumption].
  apply (map_upsert_forall (fun k v => k = keyOfPool v)); [| |assumption].
  - symmetry. apply addToPool_key. reflexivity.
  - intros v Hv. symmetry. apply addToPool_key. congruence.
Qed.

Lemma poolsOf_sum (f : CreditPool -> Z) (d : CreditGrantView -> Z) grants :
  (forall kind earlier until, f (mkPool kind earlier 0 0 until) = 0) ->
  (forall g v, f (addToPool g v) = f v + d g) ->
  sumZ f (List.map snd (poolsOf grants)) = sumZ d (List.filter isCurrentGrant grants).
Proof.
  intros H0 Hd. rewrite sumZ_map, sumZ_filter. unfold poolsOf.
  rewrite (fold_left_measure poolStep (fun m => sumZ (fun p => f p.2) m)
             (fun g => if isCurrentGrant g then d g else 0)); [reflexivity|].
  intros pools g. rewrite poolStep_unfold. destruct (isCurrentGrant g); [|lia].
  apply (map_upsert_sum (fun _ v => f v)); auto.
Qed.

Lemma poolBefore_total a b : poolBefore a b = true \/ poolBefore b a = true.
Proof.
  unfold poolBefore. destruct (pl_validUntil a), (pl_validUntil b); auto.
  rewrite !Z.leb_le. lia.
Qed.

Lemma poolBefore_trans a b c :
  poolBefore a b = true -> poolBefore b c = true -> poolBefore a c = true.
Proof.
  unfold poolBefore.
  destruct (pl_validUntil a), (pl_validUntil b), (pl_validUntil c); auto; try discriminate.
  rewrite !Z.leb_le. lia.
Qed.

(** The balance a user sees.  The pools together hold exactly the remaining
    and the granted credits of the current grants: no credit is shown twice or
    left out.  No two pools have the same kind, period and last day, and the
    pools are listed soonest end first, the never-ending ones last. *)
Theorem balancePools_spec grants :
  let pools := balancePools grants in
  sumZ pl_available pools =
    sumZ (fun g => Z.max 0 (gv_credits g - gv_usedCredits g)) (List.filter isCurrentGrant grants) /\
  sumZ pl_credits pools = sumZ gv_credits (List.filter isCurrentGrant grants) /\
  NoDup (List.map keyOfPool pools) /\
  StronglySorted (fun a b => poolBefore a b = true) pools.
Proof.
  cbv zeta. unfold balancePools. fold (poolsOf grants).
  repeat split.
  - rewrite (sumZ_perm _ _ _ (isort_perm _ _)). apply poolsOf_sum; reflexivity.
  - rewrite (sumZ_perm _ _ _ (isort_perm _ _)). apply poolsOf_sum; reflexivity.
  - rewrite (Permutation_map keyOfPool (isort_perm _ _)), List.map_map.
    destruct (poolsOf_keys grants) as [Hk Hn]. erewrite List.map_ext_in; [exact Hn|].
    intros kp Hin. rewrite Forall_forall in Hk. symmetry. apply Hk, list_elem_of_In, Hin.
  - apply isort_sorted; [apply poolBefore_total | apply poolBefore_trans].
Qed.

(** *** history *)
Definition isPlanPeriod (g : CreditGrantView) : bool :=
  (gv_kind g =e G_plan) && match gv_periodEnd g with Some _ => true | None => false end.
Definition periodDay (g : CreditGrantView) : Z :=
  match gv_periodEnd g with Some e => dayOf e | None => 0 end.

Definition periodsOf (grants : list CreditGrantView) := List.fold_left periodStep grants ([], []).

Lemma periodStep_eq periods current g :
  periodStep (periods, current) g =
  if isPlanPeriod g
  then (map_upsert (periodDay g)
          (mkPastPeriod G_plan (gv_grantedAt g)
             (match gv_periodEnd g with Some e => e | None => 0 end) 0 0) (addToPeriod g) periods,
        if gv_inCurrentPeriod g then periodDay g :: current else current)
  else (periods, current).
Proof.
  unfold periodStep, isPlanPeriod, periodDay.
  destruct (gv_periodEnd g), (gv_kind g); reflexivity.
Qed.

Lemma periodsOf_current grants d :
  In d (periodsOf grants).2 <->
  exists g, In g grants /\ isPlanPeriod g = true /\ gv_inCurrentPeriod g = true /\ periodDay g = d.
Proof.
  unfold periodsOf.
  enough (H : forall st, In d (List.fold_left periodStep grants st).2 <->
    In d st.2 \/ exists g, In g grants /\ isPlanPeriod g = true /\
                        gv_inCurrentPeriod g = true /\ periodDay g = d).
  { rewrite H. simpl. intuition. }
  induction grants as [|g grants IH]; intros [periods current]; cbn [List.fold_left In snd].
  - split; [auto | intros [?|(? & [] & _)]; assumption].
  - rewrite IH, periodStep_eq. clear IH.
    assert (Hstep : In d (if isPlanPeriod g
        then (map_upsert (periodDay g)
          (mkPastPeriod G_plan (gv_grantedAt g)
             (match gv_periodEnd g with Some e => e | None => 0 end) 0 0) (addToPeriod g) periods,
              if gv_inCurrentPeriod g then periodDay g :: current else current)
        else (periods, current)).2 <->
      In d current \/ (isPlanPeriod g = true /\ gv_inCurrentPeriod g = true /\ periodDay g = d)).
    { destruct (isPlanPeriod g), (gv_inCurrentPeriod g); simpl; intuition congruence. }
    rewrite Hstep. split.
    + intros [[H|H]|(g' & H1 & H2)]; eauto 6.
    + intros [H|(g' & [<-|H1] & H2)]; eauto 6.
Qed.

Lemma periodsOf_sum (f : PastPeriod -> Z) (d : CreditGrantView -> Z) (Q : Z -> bool) grants :
  (forall k s e, f (mkPastPeriod k s e 0 0) = 0) ->
  (forall g v, f (addToPeriod g v) = f v + d g) ->
  sumZ (fun kp => if Q kp.1 then f kp.2 else 0) (periodsOf grants).1 =
  sumZ d (List.filter (fun g => isPlanPeriod g && Q (periodDay g)) grants).
Proof.
  intros H0 Hd. rewrite sumZ_filter. unfold periodsOf.
  rewrite (fold_left_measure periodStep
    (fun st => sumZ (fun kp => if Q kp.1 then f kp.2 else 0) st.1)
    (fun g => if isPlanPeriod g && Q (periodDay g) then d g else 0)); [reflexivity|].
  intros [periods current] g. rewrite periodStep_eq. destruct (isPlanPeriod g); simpl; [|lia].
  apply (map_upsert_sum (fun k v => if Q k then f v else 0));
    intros; destruct (Q (periodDay g)); auto; rewrite ?Hd; lia.
Qed.

(** The UTC days on which a plan period that is still running ends. *)
Definition runningDay (grants : list CreditGrantView) (d : Z) : bool :=
  List.existsb (fun g => isPlanPeriod g && gv_inCurrentPeriod g && (periodDay g =? d)) grants.

Lemma periodsOf_running grants d :
  List.existsb (Z.eqb d) (periodsOf grants).2 = runningDay grants d.
Proof.
  apply eq_true_iff_eq. unfold runningDay. rewrite !existsb_exists. split.
  - intros (d' & Hin & He). bools. subst. apply periodsOf_current in Hin as (g & H1 & H2 & H3 & <-).
    exists g. rewrite H2, H3, Z.eqb_refl. auto.
  - intros (g & Hin & H). bools. exists d. rewrite Z.eqb_refl. split; [|reflexivity].
    apply periodsOf_current. eauto.
Qed.

Lemma periodsOf_keys grants :
  Forall (fun kp => kp.1 = dayOf (pp_endsAt kp.2) /\ pp_kind kp.2 = G_plan) (periodsOf grants).1 /\
  NoDup (List.map fst (periodsOf grants).1).
Proof.
  unfold periodsOf. apply (fold_left_inv periodStep (fun st =>
    Forall (fun kp => kp.1 = dayOf (pp_endsAt kp.2) /\ pp_kind kp.2 = G_plan) st.1 /\
    NoDup (List.map fst st.1))); [|split; constructor].
  intros [periods current] g _ [Hk Hn]. rewrite periodStep_eq.
  destruct (isPlanPeriod g) eqn:Hp; [|auto]. split; [|apply map_upsert_NoDup; assumption].
  apply (map_upsert_forall (fun k v => k = dayOf (pp_endsAt v) /\ pp_kind v = G_plan)); simpl; auto.
  unfold isPlanPeriod, periodDay in *. destruct (gv_periodEnd g); [auto|]. bools. discriminate.
Qed.

(** The finished plan periods, newest first, as [pastPeriods] lists them. *)
Definition planHistory (grants : list CreditGrantView) : list PastPeriod :=
  isort (fun a b => pp_endsAt b <=? pp_endsAt a)
    (List.map snd (List.filter (fun kp => negb (runningDay grants kp.1)) (periodsOf grants).1)).

Lemma planHistory_perm grants :
  planHistory grants ≡ₚ
  List.map snd (List.filter (fun kp => negb (runningDay grants kp.1)) (periodsOf grants).1).
Proof. apply isort_perm. Qed.

Lemma pastPeriods_plan grants :
  exists trial, pastPeriods grants = planHistory grants ++ trial /\
    (length trial <= 1)%nat /\ Forall (fun p => pp_kind p = G_trial) trial.
Proof.
  unfold pastPeriods, planHistory. fold (periodsOf grants).
  rewrite (List.filter_ext _ (fun kp => negb (List.existsb (Z.eqb kp.1) (periodsOf grants).2)))
    by (intros; rewrite periodsOf_running; reflexivity).
  destruct (periodsOf grants) as [periods current].
  destruct (List.find _ grants) as [t|];
    [destruct (gv_periodEnd t); [destruct (gv_inCurrentPeriod t)|]|]; simpl.
  2: { eexists. split; [reflexivity|]. split; [simpl; lia|]. repeat constructor. }
  all: exists []; rewrite app_nil_r; split; [reflexivity|]; split; [simpl; lia | constructor].
Qed.

Lemma planHistory_sum (f : PastPeriod -> Z) (d : CreditGrantView -> Z) grants :
  (forall k s e, f (mkPastPeriod k s e 0 0) = 0) ->
  (forall g v, f (addToPeriod g v) = f v + d g) ->
  sumZ f (planHistory grants) =
  sumZ d (List.filter (fun g => isPlanPeriod g && negb (runningDay grants (periodDay g))) grants).
Proof.
  intros H0 Hd. rewrite (sumZ_perm _ _ _ (planHistory_perm grants)), sumZ_map, sumZ_filter.
  apply (periodsOf_sum f d (fun k => negb (runningDay grants k))); assumption.
Qed.

(** The usage history a user sees.  Its plan periods are exactly the days on
    which no running period ends: their credits and their use add up to those of
    all the plan grants that ended on such days, so an upgrade in mid-period is
    counted once and nothing of a running period leaks in.  Each day has one
    entry, newest first, and at most one trial entry follows. *)
Theorem pastPeriods_spec grants :
  exists history trial, pastPeriods grants = history ++ trial /\
    (length trial <= 1)%nat /\ Forall (fun p => pp_kind p = G_trial) trial /\
    sumZ pp_credits history = sumZ gv_credits
      (List.filter (fun g => isPlanPeriod g && negb (runningDay grants (periodDay g))) grants) /\
    sumZ pp_used history = sumZ gv_usedCredits
      (List.filter (fun g => isPlanPeriod g && negb (runningDay grants (periodDay g))) grants) /\
    (forall p, In p history -> pp_kind p = G_plan /\ runningDay grants (dayOf (pp_endsAt p)) = false) /\
    NoDup (List.map (fun p => dayOf (pp_endsAt p)) history) /\
    StronglySorted (fun a b => (pp_endsAt b <=? pp_endsAt a) = true) history.
Proof.
  destruct (pastPeriods_plan grants) as (trial & Heq & Hlen & Ht).
  exists (planHistory grants), trial. destruct (periodsOf_keys grants) as [Hk Hn].
  rewrite Forall_forall in Hk. setoid_rewrite list_elem_of_In in Hk.
  repeat (split; [first [assumption | apply planHistory_sum; reflexivity]|]). split; [|split].
  - intros p Hp. apply (Permutation_in _ (planHistory_perm grants)), in_map_iff in Hp as (kp & <- & Hkp).
    apply filter_In in Hkp as [Hkp Hr]. destruct (Hk _ Hkp) as [<- ->]. bools. auto.
  - rewrite (Permutation_map _ (planHistory_perm grants)), List.map_map.
    rewrite (List.map_ext_in _ fst).
    + generalize (periodsOf grants).1 Hn. intros l. induction l as [|kp l IH]; simpl; [auto|].
      intros [Hx Hl]%NoDup_cons. destruct (negb _); simpl; [|auto]. constructor; [|auto].
      rewrite list_elem_of_In in *. intros Hin. apply Hx.
      apply in_map_iff in Hin as (y & Hy1 & Hy2). rewrite <- Hy1. apply in_map.
      apply filter_In in Hy2. tauto.
    + intros kp Hkp. apply filter_In in Hkp as [Hkp _]. symmetry. apply Hk, Hkp.
  - apply isort_sorted; intros; rewrite ?Z.leb_le in *; lia.
Qed.

(** *** runway *)
Lemma latest_in l acc c :
  List.fold_left latestGrant l acc = Some c -> acc = Some c \/ In c l.
Proof.
  revert acc. induction l as [|g l IH]; intros acc H; simpl in *; [auto|].
  apply IH in H as [H|H]; [|auto]. destruct acc as [a|]; simpl in H.
  - destruct (g_grantedAt g <=? g_grantedAt a); [auto|]. injection H as ->. auto.
  - injection H as ->. auto.
Qed.

Lemma latest_max l acc c :
  List.fold_left latestGrant l acc = Some c ->
  (forall a, acc = Some a -> g_grantedAt a <= g_grantedAt c) /\
  (forall g, In g l -> g_grantedAt g <= g_grantedAt c).
Proof.
  revert acc. induction l as [|g l IH]; intros acc H; simpl in *.
  - split; [intros a Ha; replace a with c by congruence; lia | intros ? []].
  - apply IH in H as [H1 H2]. destruct acc as [a|]; simpl in H1.
    + destruct (g_grantedAt g <=? g_grantedAt a) eqn:E; bools; specialize (H1 _ eq_refl);
        (split; [intros ? [= <-] | intros ? [<-|?]]); auto; lia.
    + specialize (H1 _ eq_refl). split; [discriminate | intros ? [<-|?]; auto].
Qed.

Lemma pace_days available used elapsed :
  0 < used -> 0 < elapsed ->
  Qfloor (inject_Z available / (inject_Z used / (inject_Z elapsed / inject_Z DAY_MS)))
  = available * elapsed / (used * DAY_MS).
Proof.
  intros Hu He.
  assert (E : (inject_Z available / (inject_Z used / (inject_Z elapsed / inject_Z DAY_MS))
               == inject_Z (available * elapsed) / inject_Z (used * DAY_MS))%Q).
  { rewrite !inject_Z_mult. field. repeat split; unfold Qeq, DAY_MS; simpl; lia. }
  rewrite E. symmetry. apply Zdiv_Qdiv.
Qed.

(** The runway estimate.  When one is shown, [d] days at the pace of the
    newest live trial or plan grant (what it used since it was granted, at least
    a day ago) spend no more than the credits available, one day more would
    spend more, and the credits run out before that grant's period ends. *)
Theorem runwayDays_spec grants available now d :
  (forall g, In g grants -> 0 <= g_usedCredits g) ->
  runwayDays grants available now = Some d ->
  exists g e, In g grants /\ g_kind g <> G_topup /\ isGrantLive g now = true /\
    (forall g', In g' grants -> g_kind g' <> G_topup -> isGrantLive g' now = true ->
       g_grantedAt g' <= g_grantedAt g) /\
    periodEndOf (g_kind g) (g_expiresAt g) = Some e /\
    DAY_MS <= now - g_grantedAt g /\ 0 <= d /\
    d * DAY_MS * g_usedCredits g <= available * (now - g_grantedAt g)
      < (d + 1) * DAY_MS * g_usedCredits g /\
    now + d * DAY_MS < e.
Proof.
  intros Hused. unfold runwayDays. destruct (available <=? 0) eqn:Hav; [discriminate|].
  destruct (List.fold_left latestGrant _ None) as [g|] eqn:Hl; [|discriminate].
  destruct (g_usedCredits g =? 0) eqn:Hu; [discriminate|].
  destruct (periodEndOf _ _) as [e|] eqn:He; [|discriminate].
  destruct (e <=? now) eqn:Hen; [discriminate|].
  destruct (Qle_bool MIN_PACE_DAYS _) eqn:Hpace; [|discriminate].
  cbv zeta. remember (Qfloor _) as days eqn:Hd.
  destruct (Qle_bool (inject_Z (e - now) / inject_Z DAY_MS) _) eqn:Hend; [discriminate|].
  intros [= <-]. cbn [negb] in *. bools.
  destruct (latest_in _ _ _ Hl) as [[=]|Hin]. apply filter_In in Hin as [Hin Hf]. bools.
  pose proof (latest_max _ _ _ Hl) as [_ Hmax]. specialize (Hused g Hin).
  apply Qle_bool_iff in Hpace. unfold MIN_PACE_DAYS in Hpace.
  assert (Hday : DAY_MS <= now - g_grantedAt g).
  { revert Hpace. unfold Qle, DAY_MS. simpl. lia. }
  assert (HDP : 0 < DAY_MS) by reflexivity.
  rewrite pace_days in Hd by lia.
  pose proof (Z.div_mod (available * (now - g_grantedAt g)) (g_usedCredits g * DAY_MS) ltac:(nia)).
  pose proof (Z.mod_pos_bound (available * (now - g_grantedAt g)) (g_usedCredits g * DAY_MS) ltac:(nia)).
  rewrite <- Hd in *.
  assert (Hlt : days * DAY_MS < e - now).
  { apply Z.lt_nge. intros Hle. apply not_true_iff_false in Hend. apply Hend, Qle_bool_iff.
    unfold Qle, DAY_MS in *. simpl. lia. }
  exists g, e. repeat split; auto; try nia; try lia.
  - intros g' Hg' Hk Hlive. apply Hmax, filter_In. split; [assumption|].
    rewrite Hlive. apply eqe_false in Hk. rewrite Hk. reflexivity.
Qed.
