(* ===== verification/TrialKey.v ===== *)
(** One trial per mailbox: [billing/credits/trial-claim.ts].

    Addresses are ASCII.  SHA-256 with its hex digest is the parameter [sha256]. *)
From Stdlib Require Import Ascii.
From S2P Require Import Prelude JsString.
From stdpp Require Import list strings.
#[local] Open Scope string_scope.
#[local] Open Scope Z_scope.

(** [`${folded}@${domain}`], the message that is hashed. *)
Definition trialMailbox (email : string) : string :=
  let parts := splitOn "@" (toLowerCase (trim email)) in
  let rawLocal := List.nth 0 parts "" in
  let rawDomain := List.nth 1 parts "" in
  let domain := if str_eqb rawDomain "googlemail.com" then "gmail.com" else rawDomain in
  let local := List.nth 0 (splitOn "+" rawLocal) "" in
  let folded := if str_eqb domain "gmail.com" then removeAll "." local else local in
  (folded ++ "@" ++ domain)%string.

Definition trialClaimKey (sha256 : string -> string) (email : string) : string :=
  sha256 (trialMailbox email).

(** ** Lemmas *)
Lemma lowerAscii_spec c :
  isWhite (lowerAscii c) = isWhite c /\
  Ascii.eqb (lowerAscii c) "@" = Ascii.eqb c "@" /\ Ascii.eqb (lowerAscii c) "+" = Ascii.eqb c "+" /\
  Ascii.eqb (lowerAscii c) "." = Ascii.eqb c ".".
Proof. destruct c as [[] [] [] [] [] [] [] []]; vm_compute; auto. Qed.

(** A character of a local part or a domain: no blank, no [@], no [+]. *)
Definition plainChar (c : ascii) : bool :=
  negb (isWhite c) && negb (Ascii.eqb c "@") && negb (Ascii.eqb c "+").

Lemma allChars_impl (p q : ascii -> bool) s :
  (forall c, p c = true -> q c = true) -> allChars p s = true -> allChars q s = true.
Proof. intros H. induction s; simpl; intros; bools; auto. rewrite H, IHs; auto. Qed.

Definition canonicalDomain (domain : string) : string :=
  if str_eqb (toLowerCase domain) "googlemail.com" then "gmail.com" else toLowerCase domain.
Definition canonicalLocal (domain local : string) : string :=
  if str_eqb (canonicalDomain domain) "gmail.com" then removeAll "." (toLowerCase local)
  else toLowerCase local.

(** The mailbox of a well-formed address, with or without a tag. *)
Lemma trialMailbox_plain local tag domain :
  allChars plainChar local = true -> allChars plainChar domain = true ->
  match tag with Some t => allChars (fun c => negb (isWhite c) && negb (Ascii.eqb c "@")) t = true
               | None => True end ->
  trialMailbox (local ++ match tag with Some t => "+" ++ t | None => "" end ++ "@" ++ domain)%string
  = (canonicalLocal domain local ++ "@" ++ canonicalDomain domain)%string.
Proof.
  intros Hl Hd Ht. unfold trialMailbox.
  assert (Hw : forall s, allChars plainChar s = true -> allChars (fun c => negb (isWhite c)) s = true)
    by (intros s; apply allChars_impl; unfold plainChar; intros; bools; rewrite H; reflexivity).
  assert (Hat : forall s, allChars plainChar s = true ->
            allChars (fun c => negb (Ascii.eqb c "@")) (toLowerCase s) = true).
  { intros s Hs. unfold toLowerCase. rewrite allChars_map.
    - revert Hs. apply allChars_impl. unfold plainChar. intros. bools.
      match goal with H : Ascii.eqb _ "@" = false |- _ => rewrite H end. reflexivity.
    - intros c. destruct (lowerAscii_spec c) as (_ & -> & _). reflexivity. }
  assert (Hplus : forall s, allChars plainChar s = true ->
            allChars (fun c => negb (Ascii.eqb c "+")) (toLowerCase s) = true).
  { intros s Hs. unfold toLowerCase. rewrite allChars_map.
    - revert Hs. apply allChars_impl. unfold plainChar. intros. bools.
      match goal with H : Ascii.eqb _ "+" = false |- _ => rewrite H end. reflexivity.
    - intros c. destruct (lowerAscii_spec c) as (_ & _ & -> & _). reflexivity. }
  rewrite trim_plain.
  2: { assert (Htag : allChars (fun c => negb (isWhite c))
         (match tag with Some t => "+" ++ t | None => "" end)%string = true).
       { destruct tag as [t|]; [|reflexivity]. rewrite allChars_app. cbn [allChars].
         revert Ht. apply allChars_impl. intros c Hc. bools. rewrite H. reflexivity. }
       rewrite !allChars_app, (Hw _ Hl), (Hw _ Hd), Htag. reflexivity. }
  unfold toLowerCase. rewrite !mapString_app. fold (toLowerCase local) (toLowerCase domain).
  set (suffix := mapString lowerAscii (match tag with Some t => "+" ++ t | None => "" end)%string).
  replace (toLowerCase local ++ suffix ++ mapString lowerAscii "@" ++ toLowerCase domain)%string
    with ((toLowerCase local ++ suffix) ++ String "@" (toLowerCase domain))%string
    by (rewrite <- append_assoc; reflexivity).
  rewrite splitOn_app.
  2: { rewrite allChars_app, Hat by assumption. subst suffix. destruct tag as [t|]; [|reflexivity].
       rewrite append_cons, append_nil_l; cbn [mapString andb]. change (allChars _ (String _ ?s)) with (allChars (fun c => negb (Ascii.eqb c "@")) s).
       rewrite allChars_map.
       - revert Ht. apply allChars_impl. intros. bools.
         match goal with H : Ascii.eqb _ "@" = false |- _ => rewrite H end. reflexivity.
       - intros c. destruct (lowerAscii_spec c) as (_ & -> & _). reflexivity. }
  rewrite splitOn_none by (apply Hat; assumption). cbn [List.nth].
  replace (List.nth 0 (splitOn "+" (toLowerCase local ++ suffix)) "")%string with (toLowerCase local).
  - reflexivity.
  - subst suffix. destruct tag as [t|]; rewrite ?append_cons, ?append_nil_l; cbn [mapString].
    + rewrite (splitOn_app "+"%char) by (apply Hplus; assumption). reflexivity.
    + rewrite append_nil_r, splitOn_none by (apply Hplus; assumption). reflexivity.
Qed.

(** A well-formed address [local+tag@domain]; the tag is optional. *)
Record Address := mkAddress { a_local : string; a_tag : option string; a_domain : string }.

Definition address (a : Address) : string :=
  (a_local a ++ match a_tag a with Some t => "+" ++ t | None => "" end ++ "@" ++ a_domain a)%string.

Definition wellFormed (a : Address) : bool :=
  allChars plainChar (a_local a) && allChars plainChar (a_domain a) &&
  match a_tag a with
  | Some t => allChars (fun c => negb (isWhite c) && negb (Ascii.eqb c "@")) t
  | None => true
  end.

Lemma allChars_removeAll p c s : allChars p s = true -> allChars p (removeAll c s) = true.
Proof.
  induction s as [|a s IH]; [reflexivity|]. simpl. intros H. bools.
  destruct (Ascii.eqb a c); simpl; [auto|]. rewrite H, IH by assumption. reflexivity.
Qed.

Lemma lower_no_at s : allChars plainChar s = true ->
  allChars (fun c => negb (Ascii.eqb c "@")) (toLowerCase s) = true.
Proof.
  intros Hs. unfold toLowerCase. rewrite allChars_map.
  - revert Hs. apply allChars_impl. unfold plainChar. intros. bools.
    match goal with H : Ascii.eqb _ "@" = false |- _ => rewrite H end. reflexivity.
  - intros c. destruct (lowerAscii_spec c) as (_ & -> & _). reflexivity.
Qed.

Lemma canonical_no_at a : wellFormed a = true ->
  allChars (fun c => negb (Ascii.eqb c "@")) (canonicalLocal (a_domain a) (a_local a)) = true /\
  allChars (fun c => negb (Ascii.eqb c "@")) (canonicalDomain (a_domain a)) = true.
Proof.
  unfold wellFormed. intros H. bools.
  assert (allChars plainChar (a_local a) = true /\ allChars plainChar (a_domain a) = true) as [? ?] by auto.
  split.
  - unfold canonicalLocal. destruct (str_eqb _ _); [apply allChars_removeAll|]; apply lower_no_at; assumption.
  - unfold canonicalDomain. destruct (str_eqb _ _); [reflexivity | apply lower_no_at; assumption].
Qed.

Lemma trialMailbox_address a : wellFormed a = true ->
  trialMailbox (address a)
  = (canonicalLocal (a_domain a) (a_local a) ++ "@" ++ canonicalDomain (a_domain a))%string.
Proof.
  unfold wellFormed. intros H. bools. apply trialMailbox_plain; auto.
  destruct (a_tag a); auto.
Qed.

(** One trial per mailbox.  For well-formed addresses the hashed message,
    and so the claim key, does not depend on the tag, on the letter case, on
    [googlemail.com] versus [gmail.com] nor, for Gmail, on the dots of the local
    part; and nothing else is folded: two addresses hash the same message
    exactly when their canonical local parts and domains are the same. *)
Theorem trialClaimKey_mailbox (sha256 : string -> string) a b :
  wellFormed a = true -> wellFormed b = true ->
  let same := canonicalDomain (a_domain a) = canonicalDomain (a_domain b) /\
              canonicalLocal (a_domain a) (a_local a) = canonicalLocal (a_domain b) (a_local b) in
  (trialMailbox (address a) = trialMailbox (address b) <-> same) /\
  (same -> trialClaimKey sha256 (address a) = trialClaimKey sha256 (address b)).
Proof.
  intros Ha Hb same. unfold trialClaimKey.
  rewrite (trialMailbox_address a), (trialMailbox_address b) by assumption.
  destruct (canonical_no_at a Ha) as [Hla Hda], (canonical_no_at b Hb) as [Hlb Hdb]. subst same.
  split; [split|]; [|intros [-> ->]; reflexivity ..].
  intros E. apply (f_equal (splitOn "@")) in E. rewrite !append_cons, !append_nil_l in E.
  rewrite !splitOn_app, !splitOn_none in E by assumption. injection E. auto.
Qed.

Example trialClaimKey_mailbox_witness :
  let a := mkAddress "Jo.Doe" (Some "shop") "GoogleMail.com" in
  let b := mkAddress "jodoe" None "gmail.com" in
  wellFormed a = true /\ wellFormed b = true /\
  trialClaimKey (fun m => m) (address a) = trialClaimKey (fun m => m) (address b).
Proof.
  cbv zeta. split; [reflexivity|]. split; [reflexivity|].
  apply (trialClaimKey_mailbox (fun m => m) (mkAddress "Jo.Doe" (Some "shop") "GoogleMail.com")
           (mkAddress "jodoe" None "gmail.com")); [reflexivity | reflexivity | split; reflexivity].
Defined.
