(* ===== verification/Store.v ===== *)
(** The billing tables and their repositories: [db/schema/billing.ts] and
    [billing/repository.ts].

    A table is the list of its rows in insertion order.  Each SQL statement, and
    each [db.transaction], is one function of the database; a repository method
    is the program of its statements in the monad [B], so that other requests
    may run between two statements and not inside one.  A tie left open by an
    [ORDER BY] is resolved in table order. *)
From S2P Require Import Prelude Dates Pricing Domain Json.
From stdpp Require Import list.
#[local] Open Scope Z_scope.

(** ** State *)
Record TrialClaimRow := mkTrialClaim { tc_emailHash : string; tc_userId : option string }.

(** [db_uuid] is the stream of [gen_random_uuid()]s, [db_next] how many were
    drawn; [db_liveBotOwners] lists the owners of the instances whose status is
    not gone, which belong to another component and are only read. *)
Record Db := mkDb {
  db_uuid : nat -> string;
  db_next : nat;
  db_subs : list Subscription;
  db_checkouts : list CheckoutSession;
  db_payments : list Payment;
  db_grants : list CreditGrant;
  db_usage : list CreditUsageCursor;
  db_claims : list TrialClaimRow;
  db_events : list BillingEvent;
  db_liveBotOwners : list string;
}.

(** What leaves the program: HTTP requests to Paddle, calls of the LLM gateway,
    and product events. *)
Inductive Call :=
| Call_paddle (method path : string) (body : option Json)
| Call_listLiveBotIds (userId : string)
| Call_readSpend (userId botId : string)
| Call_setCeiling (userId botId : string) (ceilingUsdCents : Z)
| Track_trial_started (userId : string)
| Track_checkout_started (userId : string) (kind : CheckoutKind) (product : string) (amountAgorot : Z)
| Track_credits_purchased (userId product : string) (amountAgorot : Z) (currency : string)
| Track_subscription_paid (userId : string) (plan : PlanCode) (newSubscription : bool)
    (amountAgorot : Z) (currency : string).

(** The monad of a billing request. *)
Definition B (A : Type) : Type := M Db Call Err A.

(** A call of the outside world: recorded, and answered by a function of the
    calls made so far, so that repeating a call may give another answer. *)
Definition invoke {A} (c : Call) (answer : list Call -> Err + A) : B A :=
  record c ;;; fun w => (answer (w_calls w), w).

Definition newId (d : Db) : string := db_uuid d (db_next d).

Definition set_subs (l : list Subscription) (d : Db) : Db :=
  mkDb (db_uuid d) (db_next d) l (db_checkouts d) (db_payments d) (db_grants d)
    (db_usage d) (db_claims d) (db_events d) (db_liveBotOwners d).
Definition set_checkouts (l : list CheckoutSession) (d : Db) : Db :=
  mkDb (db_uuid d) (db_next d) (db_subs d) l (db_payments d) (db_grants d)
    (db_usage d) (db_claims d) (db_events d) (db_liveBotOwners d).
Definition set_payments (l : list Payment) (d : Db) : Db :=
  mkDb (db_uuid d) (db_next d) (db_subs d) (db_checkouts d) l (db_grants d)
    (db_usage d) (db_claims d) (db_events d) (db_liveBotOwners d).
Definition set_grants (l : list CreditGrant) (d : Db) : Db :=
  mkDb (db_uuid d) (db_next d) (db_subs d) (db_checkouts d) (db_payments d) l
    (db_usage d) (db_claims d) (db_events d) (db_liveBotOwners d).
Definition set_usage (l : list CreditUsageCursor) (d : Db) : Db :=
  mkDb (db_uuid d) (db_next d) (db_subs d) (db_checkouts d) (db_payments d) (db_grants d)
    l (db_claims d) (db_events d) (db_liveBotOwners d).
Definition set_claims (l : list TrialClaimRow) (d : Db) : Db :=
  mkDb (db_uuid d) (db_next d) (db_subs d) (db_checkouts d) (db_payments d) (db_grants d)
    (db_usage d) l (db_events d) (db_liveBotOwners d).
Definition set_events (l : list BillingEvent) (d : Db) : Db :=
  mkDb (db_uuid d) (db_next d) (db_subs d) (db_checkouts d) (db_payments d) (db_grants d)
    (db_usage d) (db_claims d) l (db_liveBotOwners d).
Definition drawId (d : Db) : Db :=
  mkDb (db_uuid d) (S (db_next d)) (db_subs d) (db_checkouts d) (db_payments d) (db_grants d)
    (db_usage d) (db_claims d) (db_events d) (db_liveBotOwners d).

(** [SELECT ... ORDER BY key DESC]. *)
Definition orderDesc {A} (key : A -> Z) (l : list A) : list A :=
  isort (fun a b => key b <=? key a) l.
Definition orderAsc {A} (key : A -> Z) (l : list A) : list A :=
  isort (fun a b => key a <=? key b) l.

(** ** Subscriptions *)
Definition ofUser (userId : string) (s : Subscription) : bool := ostr_eqb (sub_userId s) (Some userId).

Definition findCurrentByUserId_q (userId : string) (d : Db) : option Subscription :=
  List.hd_error (orderDesc sub_createdAt (List.filter (ofUser userId) (db_subs d))).

Definition listLiveByUserId_q (userId : string) (d : Db) : list Subscription :=
  orderDesc sub_createdAt
    (List.filter (fun s => ofUser userId s && negb (isSettledStatus (sub_status s))) (db_subs d)).

Definition sameRef (provider : PaymentProviderName) (ref : string) (s : Subscription) : bool :=
  (sub_provider s =e provider) && str_eqb (sub_providerSubscriptionId s) ref.

Definition findByProviderRef_q (provider : PaymentProviderName) (ref : string) (d : Db)
  : option Subscription := List.find (sameRef provider ref) (db_subs d).

Definition findCurrentByUserId (userId : string) : B (option Subscription) :=
  query (findCurrentByUserId_q userId).
Definition listLiveByUserId (userId : string) : B (list Subscription) :=
  query (listLiveByUserId_q userId).
Definition findByProviderRef (provider : PaymentProviderName) (ref : string) : B (option Subscription) :=
  query (findByProviderRef_q provider ref).

Definition keepsPaidPlan (row : Subscription) (input : UpsertSubscriptionInput) : bool :=
  match sub_scheduledPlanCode row with
  | Some scheduled => str_eqb scheduled (ui_planCode input)
  | None => false
  end && oz_eqb (sub_currentPeriodEnd row) (ui_currentPeriodEnd input).

Definition coalesce {A} (a b : option A) : option A := match a with Some _ => a | None => b end.

(** The row of [onConflictDoUpdate], and the row of the plain insert. *)
Definition mergeSubscription (now : Z) (input : UpsertSubscriptionInput) (row : Subscription) : Subscription :=
  mkSubscription (sub_id row) (coalesce (sub_userId row) (ui_userId input))
    (sub_provider row) (sub_providerSubscriptionId row)
    (coalesce (ui_providerCustomerId input) (sub_providerCustomerId row))
    (if keepsPaidPlan row input then sub_planCode row else ui_planCode input)
    (if keepsPaidPlan row input then sub_scheduledPlanCode row else None)
    (ui_status input) (ui_cancelAtPeriodEnd input) (ui_currentPeriodEnd input)
    (ui_trialEndsAt input) (ui_providerUpdatedAt input) (sub_createdAt row) now.

Definition newSubscription (now : Z) (input : UpsertSubscriptionInput) (id : string) : Subscription :=
  mkSubscription id (ui_userId input) (ui_provider input) (ui_providerSubscriptionId input)
    (ui_providerCustomerId input) (ui_planCode input) None (ui_status input)
    (ui_cancelAtPeriodEnd input) (ui_currentPeriodEnd input) (ui_trialEndsAt input)
    (ui_providerUpdatedAt input) now now.

Definition upsert_stmt (now : Z) (input : UpsertSubscriptionInput) (d : Db) : option Subscription * Db :=
  let ref := sameRef (ui_provider input) (ui_providerSubscriptionId input) in
  match List.find ref (db_subs d) with
  | None =>
      let row := newSubscription now input (newId d) in
      (Some row, drawId (set_subs (db_subs d ++ [row]) d))
  | Some _ =>
      let p := fun s => ref s && (sub_providerUpdatedAt s <=? ui_providerUpdatedAt input) in
      (List.hd_error (returning p (mergeSubscription now input) (db_subs d)),
       set_subs (update_where p (mergeSubscription now input) (db_subs d)) d)
  end.

Record UpsertSubscriptionResult := mkUpsertResult { up_subscription : Subscription; up_applied : bool }.

(** [upsertIfNewer] on the connection, and inside a transaction. *)
Definition upsertIfNewer (input : UpsertSubscriptionInput) : B UpsertSubscriptionResult :=
  let! t := now in
  let! updated := exec (upsert_stmt t input) in
  match updated with
  | Some row => ret (mkUpsertResult row true)
  | None =>
      let! existing := findByProviderRef (ui_provider input) (ui_providerSubscriptionId input) in
      match existing with
      | None => throw (JsError "subscription upsert returned no row and none exists")
      | Some row => ret (mkUpsertResult row false)
      end
  end.

Definition applyPatch (now : Z) (patch : SubscriptionStatePatch) (s : Subscription) : Subscription :=
  let get {A} (o : option A) (old : A) := match o with Some x => x | None => old end in
  mkSubscription (sub_id s) (sub_userId s) (sub_provider s) (sub_providerSubscriptionId s)
    (get (pt_providerCustomerId patch) (sub_providerCustomerId s))
    (get (pt_planCode patch) (sub_planCode s))
    (get (pt_scheduledPlanCode patch) (sub_scheduledPlanCode s))
    (get (pt_status patch) (sub_status s))
    (get (pt_cancelAtPeriodEnd patch) (sub_cancelAtPeriodEnd s))
    (get (pt_currentPeriodEnd patch) (sub_currentPeriodEnd s))
    (sub_trialEndsAt s) (pt_providerUpdatedAt patch) (sub_createdAt s) now.

(** [UPDATE billing_subscriptions SET f WHERE p RETURNING *], first row. *)
Definition update_subs (p : Subscription -> bool) (f : Subscription -> Subscription) (d : Db)
  : option Subscription * Db :=
  (List.hd_error (returning p f (db_subs d)), set_subs (update_where p f (db_subs d)) d).

Definition hasId (id : string) (s : Subscription) : bool := str_eqb (sub_id s) id.

Definition updateState (id : string) (patch : SubscriptionStatePatch) : B Subscription :=
  let! t := now in
  let! row := exec (update_subs (hasId id) (applyPatch t patch)) in
  match row with
  | None => throw (JsError ("subscription " ++ id ++ " not found")%string)
  | Some s => ret s
  end.

Definition setPlan (now : Z) (planCode : string) (scheduledPlanCode : option string)
    (providerUpdatedAt : Z) (s : Subscription) : Subscription :=
  mkSubscription (sub_id s) (sub_userId s) (sub_provider s) (sub_providerSubscriptionId s)
    (sub_providerCustomerId s) planCode scheduledPlanCode (sub_status s) (sub_cancelAtPeriodEnd s)
    (sub_currentPeriodEnd s) (sub_trialEndsAt s) providerUpdatedAt (sub_createdAt s) now.

Definition updatePlanIfNewer (id planCode : string) (scheduledPlanCode : option string)
    (providerUpdatedAt : Z) : B Subscription :=
  let! t := now in
  let! updated := exec (update_subs
      (fun s => hasId id s && (sub_providerUpdatedAt s <=? providerUpdatedAt))
      (setPlan t planCode scheduledPlanCode providerUpdatedAt)) in
  match updated with
  | Some s => ret s
  | None =>
      let! stored := query (fun d => List.find (hasId id) (db_subs d)) in
      match stored with
      | None => throw (JsError ("subscription " ++ id ++ " not found")%string)
      | Some s => ret s
      end
  end.

(** ** Checkout sessions *)
Definition hasCheckoutId (id : string) (c : CheckoutSession) : bool := str_eqb (cs_id c) id.

Definition insertCheckout_stmt (now : Z) (input : NewCheckoutSession) (d : Db) : CheckoutSession * Db :=
  let row := mkCheckoutSession (newId d) (nc_userId input) (nc_provider input) (nc_kind input)
    (nc_productCode input) (nc_credits input) (nc_amountAgorot input) C_pending None
    now (nc_expiresAt input) None in
  (row, drawId (set_checkouts (db_checkouts d ++ [row]) d)).

Definition createCheckoutSession (input : NewCheckoutSession) : B CheckoutSession :=
  let! t := now in exec (insertCheckout_stmt t input).

Definition findCheckoutById (id : string) : B (option CheckoutSession) :=
  query (fun d => List.find (hasCheckoutId id) (db_checkouts d)).

Definition hasProviderCheckoutId (provider : PaymentProviderName) (ref : string) (c : CheckoutSession) : bool :=
  (cs_provider c =e provider) && ostr_eqb (cs_providerCheckoutId c) (Some ref).

Definition findByProviderCheckoutId (provider : PaymentProviderName) (ref : string) : B (option CheckoutSession) :=
  query (fun d => List.find (hasProviderCheckoutId provider ref) (db_checkouts d)).

Definition isReopenable (q : ReopenableCheckoutQuery) (c : CheckoutSession) : bool :=
  str_eqb (cs_userId c) (rq_userId q) && (cs_provider c =e rq_provider q) && (cs_kind c =e rq_kind q)
  && str_eqb (cs_productCode c) (rq_productCode q) && (cs_credits c =? rq_credits q)
  && (cs_amountAgorot c =? rq_amountAgorot q) && (cs_status c =e C_pending)
  && match cs_providerCheckoutId c with Some _ => true | None => false end
  && (rq_openUntil q <? cs_expiresAt c).

Definition findReopenable (q : ReopenableCheckoutQuery) : B (option CheckoutSession) :=
  query (fun d => List.hd_error (orderDesc cs_createdAt (List.filter (isReopenable q) (db_checkouts d)))).

Definition withProviderCheckoutId (ref : string) (c : CheckoutSession) : CheckoutSession :=
  mkCheckoutSession (cs_id c) (cs_userId c) (cs_provider c) (cs_kind c) (cs_productCode c)
    (cs_credits c) (cs_amountAgorot c) (cs_status c) (Some ref) (cs_createdAt c) (cs_expiresAt c)
    (cs_settledAt c).

(** The unique index on (provider, provider_checkout_id) rejects a second session. *)
Definition setCheckoutRef_stmt (id ref : string) (d : Db) : (Err + unit) * Db :=
  let clash := List.existsb (fun c => hasCheckoutId id c &&
    List.existsb (fun c' => negb (hasCheckoutId id c') && hasProviderCheckoutId (cs_provider c) ref c')
      (db_checkouts d)) (db_checkouts d) in
  if clash then (inl (JsError "duplicate key value violates unique constraint"), d)
  else (inr tt, set_checkouts (update_where (hasCheckoutId id) (withProviderCheckoutId ref) (db_checkouts d)) d).

Definition setProviderCheckoutId (id ref : string) : B unit := atomic (setCheckoutRef_stmt id ref).

Definition settled (status : CheckoutSessionStatus) (at_ : Z) (c : CheckoutSession) : CheckoutSession :=
  mkCheckoutSession (cs_id c) (cs_userId c) (cs_provider c) (cs_kind c) (cs_productCode c)
    (cs_credits c) (cs_amountAgorot c) status (cs_providerCheckoutId c) (cs_createdAt c)
    (cs_expiresAt c) (Some at_).

Definition settle_stmt (id : string) (status : CheckoutSessionStatus) (at_ : Z) (d : Db) : unit * Db :=
  (tt, set_checkouts
    (update_where (fun c => hasCheckoutId id c && (cs_status c =e C_pending)) (settled status at_)
       (db_checkouts d)) d).

Definition settleCheckout (id : string) (status : CheckoutSessionStatus) (at_ : Z) : B unit :=
  exec (settle_stmt id status at_).

Definition hasPendingSince (userId : string) (since : Z) : B bool :=
  query (fun d => List.existsb (fun c => str_eqb (cs_userId c) userId && (cs_status c =e C_pending)
                                  && (since <=? cs_createdAt c)) (db_checkouts d)).

Definition openedSince (userId : string) (since : Z) (d : Db) : Z :=
  Z.of_nat (length (List.filter (fun c => str_eqb (cs_userId c) userId && (since <=? cs_createdAt c))
                      (db_checkouts d))).
Definition countOpenedSince (userId : string) (since : Z) : B Z := query (openedSince userId since).

(** ** Payments *)
Definition samePayment (provider : PaymentProviderName) (ref : string) (p : Payment) : bool :=
  (pay_provider p =e provider) && str_eqb (pay_providerPaymentId p) ref.

Definition insertPayment_stmt (input : NewPayment) (d : Db) : bool * Db :=
  if List.existsb (samePayment (np_provider input) (np_providerPaymentId input)) (db_payments d)
  then (false, d)
  else
    let row := mkPayment (newId d) (np_userId input) (np_subscriptionId input) (np_provider input)
      (np_providerPaymentId input) (np_status input) (np_planCode input) (np_amountAgorot input)
      (np_currency input) (np_occurredAt input) in
    (true, drawId (set_payments (db_payments d ++ [row]) d)).

Definition recordPayment (input : NewPayment) : B bool := exec (insertPayment_stmt input).

Definition chargedAgorot (provider : PaymentProviderName) (ref : string) : B (option Z) :=
  query (fun d => option_map pay_amountAgorot (List.find (samePayment provider ref) (db_payments d))).

Definition refunded (p : Payment) : Payment :=
  mkPayment (pay_id p) (pay_userId p) (pay_subscriptionId p) (pay_provider p) (pay_providerPaymentId p)
    Pay_refunded (pay_planCode p) (pay_amountAgorot p) (pay_currency p) (pay_occurredAt p).

(** [Some userId] when a row matched. *)
Definition refund_stmt (provider : PaymentProviderName) (ref : string) (d : Db) : option (option string) * Db :=
  (option_map pay_userId (List.hd_error (returning (samePayment provider ref) refunded (db_payments d))),
   set_payments (update_where (samePayment provider ref) refunded (db_payments d)) d).

Definition markRefunded (provider : PaymentProviderName) (ref : string) : B (option (option string)) :=
  exec (refund_stmt provider ref).

Definition withSubscriptionId (id : string) (p : NewPayment) : NewPayment :=
  mkNewPayment (np_userId p) (Some id) (np_provider p) (np_providerPaymentId p) (np_status p)
    (np_planCode p) (np_amountAgorot p) (np_currency p) (np_occurredAt p).

(** One transaction: the upsert, its fallback read, the payment.  Its only
    throw is the upsert's, before any write. *)
Definition firstPayment_tx (now : Z) (payment : NewPayment) (subscription : UpsertSubscriptionInput)
    (d : Db) : (Err + PaymentApplication) * Db :=
  let '(updated, d1) := upsert_stmt now subscription d in
  let row := match updated with
             | Some s => Some s
             | None => findByProviderRef_q (ui_provider subscription) (ui_providerSubscriptionId subscription) d1
             end in
  match row with
  | None => (inl (JsError "subscription upsert returned no row and none exists"), d)
  | Some s =>
      let '(recorded, d2) := insertPayment_stmt (withSubscriptionId (sub_id s) payment) d1 in
      (inr (if recorded then Applied_payment s else Duplicate_payment), d2)
  end.

Definition recordFirstPayment (payment : NewPayment) (subscription : UpsertSubscriptionInput)
  : B PaymentApplication :=
  let! t := now in atomic (firstPayment_tx t payment subscription).

(** One transaction: the payment, then the compare-and-set of the period; a lost
    race rolls both back. *)
Definition renewal_tx (now : Z) (input : RenewalInput) (d : Db) : PaymentApplication * Db :=
  let '(recorded, d1) := insertPayment_stmt (withSubscriptionId (ri_subscriptionId input) (ri_payment input)) d in
  if negb recorded then (Duplicate_payment, d1)
  else
    match update_subs (fun s => hasId (ri_subscriptionId input) s &&
                                oz_eqb (sub_currentPeriodEnd s) (ri_expectedPeriodEnd input))
            (applyPatch now (ri_patch input)) d1 with
    | (None, _) => (Conflict_payment, d)
    | (Some s, d2) => (Applied_payment s, d2)
    end.

Definition recordRenewal (input : RenewalInput) : B PaymentApplication :=
  let! t := now in exec (renewal_tx t input).

(** ** Credit grants *)
Definition grantsOfUsers (userIds : list string) (d : Db) : list CreditGrant :=
  orderAsc g_grantedAt (List.filter (fun g => List.existsb (str_eqb (g_userId g)) userIds) (db_grants d)).

Definition listGrantsByUserIds (userIds : list string) : B (list CreditGrant) :=
  match userIds with
  | [] => ret []
  | _ => query (grantsOfUsers userIds)
  end.
Definition listGrantsByUserId (userId : string) : B (list CreditGrant) := listGrantsByUserIds [userId].

Definition insertGrant_stmt (now : Z) (input : NewCreditGrant) (d : Db) : option CreditGrant * Db :=
  if List.existsb (fun g => str_eqb (g_sourceRef g) (ng_sourceRef input)) (db_grants d)
  then (None, d)
  else
    let row := mkCreditGrant (newId d) (ng_userId input) (ng_kind input) (ng_credits input) 0
      (ng_sourceRef input) now (ng_expiresAt input) in
    (Some row, drawId (set_grants (db_grants d ++ [row]) d)).

Definition insertIfAbsent (input : NewCreditGrant) : B (option CreditGrant) :=
  let! t := now in exec (insertGrant_stmt t input).

Definition withCredits (c : Z) (g : CreditGrant) : CreditGrant :=
  mkCreditGrant (g_id g) (g_userId g) (g_kind g) c (g_usedCredits g) (g_sourceRef g)
    (g_grantedAt g) (g_expiresAt g).
Definition withUsed (u : Z) (g : CreditGrant) : CreditGrant :=
  mkCreditGrant (g_id g) (g_userId g) (g_kind g) (g_credits g) u (g_sourceRef g)
    (g_grantedAt g) (g_expiresAt g).

Definition revocable (sourceRefs : list string) (g : CreditGrant) : bool :=
  List.existsb (str_eqb (g_sourceRef g)) sourceRefs && (g_usedCredits g <? g_credits g).
Definition shrink (g : CreditGrant) : CreditGrant := withCredits (g_usedCredits g) g.

Definition revoke_stmt (sourceRefs : list string) (d : Db) : list string * Db :=
  (List.map g_userId (returning (revocable sourceRefs) shrink (db_grants d)),
   set_grants (update_where (revocable sourceRefs) shrink (db_grants d)) d).

Definition revokeUnusedGrants (sourceRefs : list string) : B (list string) :=
  match sourceRefs with
  | [] => ret []
  | _ => exec (revoke_stmt sourceRefs)
  end.

(** ** Trial claims *)
Definition findClaim_q (emailHash : string) (d : Db) : option TrialClaimRow :=
  List.find (fun c => str_eqb (tc_emailHash c) emailHash) (db_claims d).

(** [Some userId] when the mailbox is claimed. *)
Definition findClaimant (emailHash : string) : B (option (option string)) :=
  query (fun d => option_map tc_userId (findClaim_q emailHash d)).

Definition claim_stmt (emailHash userId : string) (d : Db) : bool * Db :=
  match findClaim_q emailHash d with
  | None => (true, set_claims (db_claims d ++ [mkTrialClaim emailHash (Some userId)]) d)
  | Some _ =>
      let p := fun c => str_eqb (tc_emailHash c) emailHash && ostr_eqb (tc_userId c) (Some userId) in
      let f := fun c => mkTrialClaim (tc_emailHash c) (Some userId) in
      (match returning p f (db_claims d) with [] => false | _ => true end,
       set_claims (update_where p f (db_claims d)) d)
  end.

Definition claimTrial (emailHash userId : string) : B bool := exec (claim_stmt emailHash userId).

(** ** Usage cursors *)
Definition ofBot (botId : string) (c : CreditUsageCursor) : bool := str_eqb (u_botId c) botId.

Definition findCursorByBotId (botId : string) : B (option CreditUsageCursor) :=
  query (fun d => List.find (ofBot botId) (db_usage d)).

Definition listCursorsByUserIds (userIds : list string) : B (list CreditUsageCursor) :=
  match userIds with
  | [] => ret []
  | _ => query (fun d => List.filter (fun c => List.existsb (str_eqb (u_userId c)) userIds) (db_usage d))
  end.
Definition listCursorsByUserId (userId : string) : B (list CreditUsageCursor) := listCursorsByUserIds [userId].

(** [min(synced_at)] of a user's cursors; [asc nulls first]. *)
Definition lastSync (d : Db) (userId : string) : option Z :=
  List.fold_left (fun m c => if str_eqb (u_userId c) userId
                             then Some (match m with Some t => Z.min t (u_syncedAt c) | None => u_syncedAt c end)
                             else m) (db_usage d) None.

Definition metered_q (d : Db) : list string :=
  let owners := List.nodup String.string_dec
    (List.map g_userId (db_grants d) ++ List.map u_userId (db_usage d) ++ db_liveBotOwners d) in
  isort (fun a b => match lastSync d a, lastSync d b with
                    | None, _ => true
                    | Some _, None => false
                    | Some x, Some y => x <=? y
                    end) owners.

Definition listMeteredUserIds : B (list string) := query metered_q.

Definition advancedCursor (input : AdvanceUsageInput) (c : CreditUsageCursor) : CreditUsageCursor :=
  mkCursor (u_botId c) (u_userId c) (ad_spendUsdCents input)
    (u_consumedCredits c + ad_consumedDelta input)
    (u_unallocatedCredits c + ad_unallocatedDelta input) (u_version c + 1) (ad_syncedAt input).

Definition advanceCursor_stmt (input : AdvanceUsageInput) (d : Db) : bool * Db :=
  match List.find (ofBot (ad_botId input)) (db_usage d) with
  | None =>
      (true, set_usage (db_usage d ++ [mkCursor (ad_botId input) (ad_userId input) (ad_spendUsdCents input)
         (ad_consumedDelta input) (ad_unallocatedDelta input) 1 (ad_syncedAt input)]) d)
  | Some _ =>
      let p := fun c => ofBot (ad_botId input) c && (u_version c =? ad_expectedVersion input) in
      (match returning p (advancedCursor input) (db_usage d) with [] => false | _ => true end,
       set_usage (update_where p (advancedCursor input) (db_usage d)) d)
  end.

Definition canTake (a : ConsumptionAttribution) (g : CreditGrant) : bool :=
  str_eqb (g_id g) (at_grantId a) && (g_usedCredits g + at_credits a <=? g_credits g).
Definition takeCredits (a : ConsumptionAttribution) (g : CreditGrant) : CreditGrant :=
  withUsed (g_usedCredits g + at_credits a) g.

(** The attributions of the transaction; [None] is the conflict that rolls back. *)
Fixpoint takeAll (l : list ConsumptionAttribution) (grants : list CreditGrant) : option (list CreditGrant) :=
  match l with
  | [] => Some grants
  | a :: l' =>
      match returning (canTake a) (takeCredits a) grants with
      | [] => None
      | _ => takeAll l' (update_where (canTake a) (takeCredits a) grants)
      end
  end.

Definition advance_tx (input : AdvanceUsageInput) (d : Db) : bool * Db :=
  let '(ok, d1) := advanceCursor_stmt input d in
  if negb ok then (false, d)
  else match takeAll (ad_attributions input) (db_grants d1) with
       | None => (false, d)
       | Some grants => (true, set_grants grants d1)
       end.

Definition advanceUsage (input : AdvanceUsageInput) : B bool := exec (advance_tx input).

(** ** Webhook events *)
Definition sameEvent (provider : PaymentProviderName) (ref : string) (e : BillingEvent) : bool :=
  (be_provider e =e provider) && str_eqb (be_providerEventId e) ref.

Definition insertEvent_stmt (now : Z) (input : ClaimBillingEventInput) (d : Db) : option string * Db :=
  if List.existsb (sameEvent (ci_provider input) (ci_providerEventId input)) (db_events d)
  then (None, d)
  else
    let row := mkBillingEvent (newId d) (ci_provider input) (ci_providerEventId input) (ci_eventType input)
      E_received None (ci_providerSubscriptionId input) (ci_payload input) None 1 now None in
    (Some (be_id row), drawId (set_events (db_events d ++ [row]) d)).

(** A failed event, or one received longer ago than the abandon delay, below the attempt limit. *)
Definition reclaimable (now : Z) (e : BillingEvent) : bool :=
  (be_attempts e <? MAX_EVENT_ATTEMPTS) &&
  ((be_status e =e E_failed) ||
   ((be_status e =e E_received) && (be_receivedAt e <? now - ABANDONED_EVENT_MINUTES * 60 * 1000))).

Definition reclaimed (now : Z) (e : BillingEvent) : BillingEvent :=
  mkBillingEvent (be_id e) (be_provider e) (be_providerEventId e) (be_eventType e) E_received
    (be_userId e) (be_providerSubscriptionId e) (be_payload e) None (be_attempts e + 1) now None.

Definition reclaim_stmt (now : Z) (input : ClaimBillingEventInput) (d : Db) : option string * Db :=
  let p := fun e => sameEvent (ci_provider input) (ci_providerEventId input) e && reclaimable now e in
  (List.hd_error (List.map be_id (returning p (reclaimed now) (db_events d))),
   set_events (update_where p (reclaimed now) (db_events d)) d).

Definition claimEvent (input : ClaimBillingEventInput) : B ClaimBillingEventResult :=
  let! t := now in
  let! inserted := exec (insertEvent_stmt t input) in
  match inserted with
  | Some id => ret (Claim_new id)
  | None =>
      let! retried := exec (reclaim_stmt t input) in
      match retried with
      | Some id => ret (Claim_retry id)
      | None =>
          let! existing := query (fun d =>
            List.find (sameEvent (ci_provider input) (ci_providerEventId input)) (db_events d)) in
          match existing with
          | None => throw (JsError "billing event conflict but no row found")
          | Some e => ret (Claim_duplicate (be_status e))
          end
      end
  end.

Definition finished (now : Z) (input : FinishBillingEventInput) (e : BillingEvent) : BillingEvent :=
  mkBillingEvent (be_id e) (be_provider e) (be_providerEventId e) (be_eventType e) (fi_status input)
    (match fi_userId input with Some u => u | None => be_userId e end)
    (be_providerSubscriptionId e) (be_payload e) (fi_note input) (be_attempts e) (be_receivedAt e) (Some now).

Definition finish_stmt (now : Z) (id : string) (input : FinishBillingEventInput) (d : Db) : unit * Db :=
  (tt, set_events (update_where (fun e => str_eqb (be_id e) id) (finished now input) (db_events d)) d).

Definition finishEvent (id : string) (input : FinishBillingEventInput) : B unit :=
  let! t := now in exec (finish_stmt t id input).

(** ** Account deletion: the schema's [onDelete] clauses *)
Definition forget (userId : string) (o : option string) : option string :=
  if ostr_eqb o (Some userId) then None else o.

Definition deleteUser (userId : string) (d : Db) : Db :=
  mkDb (db_uuid d) (db_next d)
    (List.map (fun s => mkSubscription (sub_id s) (forget userId (sub_userId s)) (sub_provider s)
       (sub_providerSubscriptionId s) (sub_providerCustomerId s) (sub_planCode s)
       (sub_scheduledPlanCode s) (sub_status s) (sub_cancelAtPeriodEnd s) (sub_currentPeriodEnd s)
       (sub_trialEndsAt s) (sub_providerUpdatedAt s) (sub_createdAt s) (sub_updatedAt s)) (db_subs d))
    (List.filter (fun c => negb (str_eqb (cs_userId c) userId)) (db_checkouts d))
    (List.map (fun p => mkPayment (pay_id p) (forget userId (pay_userId p)) (pay_subscriptionId p)
       (pay_provider p) (pay_providerPaymentId p) (pay_status p) (pay_planCode p) (pay_amountAgorot p)
       (pay_currency p) (pay_occurredAt p)) (db_payments d))
    (List.filter (fun g => negb (str_eqb (g_userId g) userId)) (db_grants d))
    (List.filter (fun c => negb (str_eqb (u_userId c) userId)) (db_usage d))
    (List.map (fun c => mkTrialClaim (tc_emailHash c) (forget userId (tc_userId c))) (db_claims d))
    (db_events d) (db_liveBotOwners d).
