(* ===== verification/StoreInv.v ===== *)
(** The invariant of the billing database and what its statements may change.

    [Inv] is the well-formedness of a store; [Step] says how a later store
    extends an earlier one.  Every statement of [Store] keeps [Inv] and makes a
    [Step]; the lemmas named after the repository methods are in the [guar]
    database, so every request of the service inherits both. *)
From S2P Require Import Prelude Dates Pricing Domain Store.
From stdpp Require Import list.
#[local] Open Scope Z_scope.

(** ** What a row may become *)
Record R_sub (s s' : Subscription) : Prop := {
  rs_id : sub_id s' = sub_id s;
  rs_provider : sub_provider s' = sub_provider s;
  rs_ref : sub_providerSubscriptionId s' = sub_providerSubscriptionId s;
  rs_createdAt : sub_createdAt s' = sub_createdAt s;
  rs_user : forall u, sub_userId s = Some u -> sub_userId s' = Some u;
}.

Record R_checkout (c c' : CheckoutSession) : Prop := {
  rc_id : cs_id c' = cs_id c;
  rc_sold : (cs_userId c', cs_provider c', cs_kind c', cs_productCode c', cs_credits c', cs_amountAgorot c')
          = (cs_userId c, cs_provider c, cs_kind c, cs_productCode c, cs_credits c, cs_amountAgorot c);
  rc_times : (cs_createdAt c', cs_expiresAt c') = (cs_createdAt c, cs_expiresAt c);
  rc_settled : cs_status c <> C_pending ->
               cs_status c' = cs_status c /\ cs_settledAt c' = cs_settledAt c;
}.

Record R_payment (p p' : Payment) : Prop := {
  rp_ids : (pay_id p', pay_provider p', pay_providerPaymentId p') = (pay_id p, pay_provider p, pay_providerPaymentId p);
  rp_owner : (pay_userId p', pay_subscriptionId p') = (pay_userId p, pay_subscriptionId p);
  rp_money : (pay_planCode p', pay_amountAgorot p', pay_currency p', pay_occurredAt p')
           = (pay_planCode p, pay_amountAgorot p, pay_currency p, pay_occurredAt p);
  rp_status : pay_status p' = pay_status p \/ pay_status p' = Pay_refunded;
}.

Record R_grant (g g' : CreditGrant) : Prop := {
  rg_ids : (g_id g', g_userId g', g_sourceRef g') = (g_id g, g_userId g, g_sourceRef g);
  rg_kind : (g_kind g', g_grantedAt g', g_expiresAt g') = (g_kind g, g_grantedAt g, g_expiresAt g);
  rg_used : g_usedCredits g <= g_usedCredits g';
  rg_credits : g_credits g' <= g_credits g;
}.

Record R_cursor (c c' : CreditUsageCursor) : Prop := {
  ru_ids : (u_botId c', u_userId c') = (u_botId c, u_userId c);
  ru_consumed : u_consumedCredits c <= u_consumedCredits c';
  ru_unallocated : u_unallocatedCredits c <= u_unallocatedCredits c';
  ru_version : u_version c <= u_version c';
}.

Record R_event (e e' : BillingEvent) : Prop := {
  re_ids : (be_id e', be_provider e', be_providerEventId e') = (be_id e, be_provider e, be_providerEventId e);
  re_data : (be_eventType e', be_providerSubscriptionId e', be_payload e')
          = (be_eventType e, be_providerSubscriptionId e, be_payload e);
  re_attempts : be_attempts e <= be_attempts e';
}.

#[export] Instance R_sub_preorder : PreOrder R_sub.
Proof. split; [constructor; auto | intros a b c [] []; constructor; try congruence; auto]. Qed.
#[export] Instance R_checkout_preorder : PreOrder R_checkout.
Proof.
  split; [constructor; auto | intros a b c [H1 H2 H3 H4] [K1 K2 K3 K4]; constructor; try congruence].
  intros Hp. destruct (H4 Hp) as [E1 E2]. destruct K4 as [K4 K5]; [congruence|]. split; congruence.
Qed.
#[export] Instance R_payment_preorder : PreOrder R_payment.
Proof.
  split; [constructor; auto | intros a b c [] []; constructor; try congruence].
  intuition congruence.
Qed.
#[export] Instance R_grant_preorder : PreOrder R_grant.
Proof. split; [constructor; auto; lia | intros a b c [] []; constructor; congruence || lia]. Qed.
#[export] Instance R_cursor_preorder : PreOrder R_cursor.
Proof. split; [constructor; auto; lia | intros a b c [] []; constructor; congruence || lia]. Qed.
#[export] Instance R_event_preorder : PreOrder R_event.
Proof. split; [constructor; auto; lia | intros a b c [] []; constructor; congruence || lia]. Qed.

(** ** What a store may become: rows are added and changed, never removed; a
    trial claim is never changed at all. *)
Record Step (d d' : Db) : Prop := {
  st_uuid : db_uuid d' = db_uuid d;
  st_next : (db_next d <= db_next d')%nat;
  st_subs : extends R_sub (db_subs d) (db_subs d');
  st_checkouts : extends R_checkout (db_checkouts d) (db_checkouts d');
  st_payments : extends R_payment (db_payments d) (db_payments d');
  st_grants : extends R_grant (db_grants d) (db_grants d');
  st_usage : extends R_cursor (db_usage d) (db_usage d');
  st_claims : extends eq (db_claims d) (db_claims d');
  st_events : extends R_event (db_events d) (db_events d');
}.

#[export] Instance Step_steprel : StepRel Step.
Proof.
  split.
  - intros d. constructor; reflexivity || lia.
  - intros a b c [] []; constructor; etransitivity; eassumption.
Qed.

(** ** The invariant *)
Definition issued (d : Db) (id : string) : Prop := exists k, (k < db_next d)%nat /\ id = db_uuid d k.

Definition subKey (s : Subscription) := (sub_provider s, sub_providerSubscriptionId s).
Definition payKey (p : Payment) := (pay_provider p, pay_providerPaymentId p).
Definition eventKey (e : BillingEvent) := (be_provider e, be_providerEventId e).

Definition grantOk (g : CreditGrant) : Prop := 0 <= g_usedCredits g <= g_credits g.
Definition checkoutOk (c : CheckoutSession) : Prop :=
  0 <= cs_credits c /\ (cs_status c = C_pending <-> cs_settledAt c = None).
Definition cursorOk (c : CreditUsageCursor) : Prop :=
  0 <= u_unallocatedCredits c <= u_consumedCredits c /\ 1 <= u_version c.
Definition eventOk (e : BillingEvent) : Prop := 1 <= be_attempts e <= MAX_EVENT_ATTEMPTS.

(** Credits paid by the grants, and credits consumed that a grant paid. *)
Definition usedTotal (d : Db) : Z := sumZ g_usedCredits (db_grants d).
Definition paidTotal (d : Db) : Z := sumZ (fun c => u_consumedCredits c - u_unallocatedCredits c) (db_usage d).

Record Inv (d : Db) : Prop := {
  inv_uuid : forall i j, db_uuid d i = db_uuid d j -> i = j;
  inv_sub_ids : Forall (issued d) (List.map sub_id (db_subs d)) /\ NoDup (List.map sub_id (db_subs d));
  inv_checkout_ids : Forall (issued d) (List.map cs_id (db_checkouts d)) /\ NoDup (List.map cs_id (db_checkouts d));
  inv_grant_ids : Forall (issued d) (List.map g_id (db_grants d)) /\ NoDup (List.map g_id (db_grants d));
  inv_event_ids : Forall (issued d) (List.map be_id (db_events d)) /\ NoDup (List.map be_id (db_events d));
  inv_sub_keys : NoDup (List.map subKey (db_subs d));
  inv_pay_keys : NoDup (List.map payKey (db_payments d));
  inv_source_refs : NoDup (List.map g_sourceRef (db_grants d));
  inv_bots : NoDup (List.map u_botId (db_usage d));
  inv_mailboxes : NoDup (List.map tc_emailHash (db_claims d));
  inv_event_keys : NoDup (List.map eventKey (db_events d));
  inv_grants : Forall grantOk (db_grants d);
  inv_checkouts : Forall checkoutOk (db_checkouts d);
  inv_usage : Forall cursorOk (db_usage d);
  inv_events : Forall eventOk (db_events d);
  inv_ledger : usedTotal d = paidTotal d;
}.

(** The database a deployment starts with. *)
Definition emptyDb (uuid : nat -> string) (owners : list string) : Db :=
  mkDb uuid 0 [] [] [] [] [] [] [] owners.

Lemma Inv_empty uuid owners : (forall i j, uuid i = uuid j -> i = j) -> Inv (emptyDb uuid owners).
Proof. intros H. constructor; simpl; auto; repeat constructor; auto. Qed.

(** ** Generic facts *)
Lemma issued_fresh d id : Inv d -> issued d id -> id <> newId d.
Proof. intros Hi (k & Hk & ->) E. apply (inv_uuid d Hi) in E. lia. Qed.

Lemma issued_draw d d' id :
  db_uuid d' = db_uuid d -> (db_next d <= db_next d')%nat -> issued d id -> issued d' id.
Proof. intros E H (k & Hk & ->). exists k. rewrite E. split; [lia | reflexivity]. Qed.

Lemma ids_draw d d' ids : db_uuid d' = db_uuid d -> db_next d' = S (db_next d) ->
  Forall (issued d) ids -> Forall (issued d') ids.
Proof. intros E1 E2 H. eapply Forall_impl; [exact H|]. intros. apply (issued_draw d); auto. lia. Qed.

Lemma ids_app d d' (ids : list string) : Inv d -> db_uuid d' = db_uuid d -> db_next d' = S (db_next d) ->
  Forall (issued d) ids /\ NoDup ids ->
  Forall (issued d') (ids ++ [newId d]) /\ NoDup (ids ++ [newId d]).
Proof.
  intros Hi E1 E2 [H1 H2]. split.
  - apply Forall_app. split; [apply (ids_draw d); assumption|]. constructor; [|constructor].
    exists (db_next d). rewrite E1, E2. split; [lia | reflexivity].
  - apply NoDup_app. split; [assumption|]. split; [|apply NoDup_singleton].
    intros x Hx Hx'. apply list_elem_of_singleton in Hx'. subst.
    rewrite Forall_forall in H1. apply (issued_fresh d (newId d)); auto.
Qed.

Lemma NoDup_snoc {A} (l : list A) x : NoDup l -> ~ In x l -> NoDup (l ++ [x]).
Proof.
  intros Hl Hx. apply NoDup_app. split; [assumption|]. split; [|apply NoDup_singleton].
  intros y Hy Hy'. apply list_elem_of_singleton in Hy'. subst. apply Hx, list_elem_of_In, Hy.
Qed.

Lemma Forall_update {A} (P : A -> Prop) p f l :
  (forall x, In x l -> p x = true -> P x -> P (f x)) -> Forall P l -> Forall P (update_where p f l).
Proof.
  intros H. induction 1 as [|x l Hx Hl IH]; simpl; constructor.
  - destruct (p x) eqn:E; [apply H; simpl; auto | assumption].
  - apply IH. intros. apply H; simpl; auto.
Qed.

(** A unique key: at most one row matches. *)
Lemma existsb_key_false {A K} (key : A -> K) (p : A -> bool) k l :
  (forall x, p x = true <-> key x = k) -> List.existsb p l = false -> ~ In k (List.map key l).
Proof.
  intros Hp H Hin. apply in_map_iff in Hin as (x & <- & Hx).
  apply not_true_iff_false in H. apply H, existsb_exists. exists x. split; [assumption|].
  apply Hp. reflexivity.
Qed.

Lemma find_key_none {A K} (key : A -> K) (p : A -> bool) k l :
  (forall x, p x = true <-> key x = k) -> List.find p l = None -> ~ In k (List.map key l).
Proof.
  intros Hp H Hin. apply in_map_iff in Hin as (x & <- & Hx).
  apply (List.find_none _ _ H) in Hx. apply not_true_iff_false in Hx. apply Hx, Hp. reflexivity.
Qed.

Lemma sameRef_key p r s : sameRef p r s = true <-> subKey s = (p, r).
Proof.
  unfold sameRef, subKey. rewrite andb_true_iff, eqe_true, str_eqb_eq. intuition congruence.
Qed.
Lemma samePayment_key p r s : samePayment p r s = true <-> payKey s = (p, r).
Proof.
  unfold samePayment, payKey. rewrite andb_true_iff, eqe_true, str_eqb_eq. intuition congruence.
Qed.
Lemma sameEvent_key p r s : sameEvent p r s = true <-> eventKey s = (p, r).
Proof.
  unfold sameEvent, eventKey. rewrite andb_true_iff, eqe_true, str_eqb_eq. intuition congruence.
Qed.

(** A sum over a table where one row, found by its unique key, grows by [d]. *)
Lemma sumZ_update_unique {A K} (key : A -> K) (f : A -> A) (p : A -> bool) (v : A -> Z) d k l :
  NoDup (List.map key l) -> (forall x, p x = true -> key x = k) ->
  (forall x, v (f x) = v x + d) -> List.filter p l <> [] ->
  sumZ v (update_where p f l) = sumZ v l + d.
Proof.
  intros Hnd Hp Hv. induction l as [|x l IH]; simpl; [congruence|].
  simpl in Hnd. apply NoDup_cons in Hnd as [Hx Hnd]. rewrite list_elem_of_In in Hx.
  destruct (p x) eqn:E; intros Hne.
  - assert (Hnone : List.filter p l = []).
    { destruct (List.filter p l) as [|y ys] eqn:Ef; [reflexivity|]. exfalso. apply Hx.
      assert (Hy : In y (List.filter p l)) by (rewrite Ef; simpl; auto).
      apply filter_In in Hy as [Hy1 Hy2]. rewrite (Hp _ E), <- (Hp _ Hy2). apply in_map, Hy1. }
    fold (update_where p f l). rewrite (update_where_none p f l Hnone), Hv. lia.
  - fold (update_where p f l). rewrite (IH Hnd Hne). lia.
Qed.

Lemma returning_nil {A} (p : A -> bool) (f : A -> A) l : returning p f l = [] <-> List.filter p l = [].
Proof. unfold returning. destruct (List.filter p l); simpl; split; congruence. Qed.

(** ** Updating rows in place, table by table *)
Ltac inv_fields Hi := destruct Hi; constructor; simpl; try assumption.
Ltac step_fields := constructor; simpl; try reflexivity; try lia.

(** The identifiers of the tables a draw does not touch. *)
Ltac ids_other :=
  try match goal with
  | H : Forall (issued ?d) ?l /\ NoDup ?l |- Forall (issued (drawId _)) ?l /\ _ =>
      destruct H; split; [apply (ids_draw d); auto | assumption]
  end.

Section Updates.
Variable d : Db.
Hypothesis Hi : Inv d.

Lemma update_subs_ok p f : (forall s, p s = true -> R_sub s (f s)) ->
  let d' := set_subs (update_where p f (db_subs d)) d in Inv d' /\ Step d d'.
Proof.
  intros Hf. split; [|step_fields; apply extends_update; assumption || typeclasses eauto].
  inv_fields Hi; rewrite (map_update_where _ p); auto; intros s Hs; destruct (Hf s Hs);
    unfold subKey; congruence.
Qed.

Lemma update_checkouts_ok p f :
  (forall c, p c = true -> R_checkout c (f c) /\ (checkoutOk c -> checkoutOk (f c))) ->
  let d' := set_checkouts (update_where p f (db_checkouts d)) d in Inv d' /\ Step d d'.
Proof.
  intros Hf. split; [|step_fields; apply extends_update; [typeclasses eauto | apply Hf]].
  inv_fields Hi.
  - rewrite (map_update_where _ p); auto. intros c Hc. destruct (Hf c Hc) as [[] _]. assumption.
  - apply Forall_update; [|assumption]. intros c _ Hc. apply Hf, Hc.
Qed.

Lemma update_payments_ok p f : (forall s, p s = true -> R_payment s (f s)) ->
  let d' := set_payments (update_where p f (db_payments d)) d in Inv d' /\ Step d d'.
Proof.
  intros Hf. split; [|step_fields; apply extends_update; assumption || typeclasses eauto].
  inv_fields Hi. rewrite (map_update_where _ p); auto. intros s Hs. destruct (Hf s Hs) as [E].
  unfold payKey. congruence.
Qed.

Lemma update_grants_ok p f :
  (forall g, p g = true -> R_grant g (f g) /\ (grantOk g -> grantOk (f g)) /\
                           g_usedCredits (f g) = g_usedCredits g) ->
  let d' := set_grants (update_where p f (db_grants d)) d in Inv d' /\ Step d d'.
Proof.
  intros Hf. split; [|step_fields; apply extends_update; [typeclasses eauto | apply Hf]].
  inv_fields Hi.
  1, 2: rewrite (map_update_where _ p); auto; intros g Hg; destruct (Hf g Hg) as [[E] _]; congruence.
  - apply Forall_update; [|assumption]. intros g _ Hg. apply Hf, Hg.
  - unfold usedTotal, paidTotal in *. simpl. rewrite <- inv_ledger0.
    unfold update_where. generalize (db_grants d). intros l.
    induction l as [|g l IH]; simpl; [reflexivity|].
    destruct (p g) eqn:E; [rewrite (proj2 (proj2 (Hf g E)))|]; lia.
Qed.

Lemma update_events_ok p f :
  (forall e, p e = true -> R_event e (f e) /\ (eventOk e -> eventOk (f e))) ->
  let d' := set_events (update_where p f (db_events d)) d in Inv d' /\ Step d d'.
Proof.
  intros Hf. split; [|step_fields; apply extends_update; [typeclasses eauto | apply Hf]].
  inv_fields Hi.
  1, 2: rewrite (map_update_where _ p); auto; intros e He; destruct (Hf e He) as [[E] _];
    unfold eventKey; congruence.
  apply Forall_update; [|assumption]. intros e _ He. apply Hf, He.
Qed.

(** *** Statements that insert *)
Lemma upsert_stmt_ok now input : Inv (upsert_stmt now input d).2 /\ Step d (upsert_stmt now input d).2.
Proof.
  unfold upsert_stmt. destruct (List.find _ _) eqn:Hf; simpl.
  - apply update_subs_ok. intros row Hrow. constructor; simpl; auto.
    intros u ->. reflexivity.
  - split; [|step_fields; apply extends_app; typeclasses eauto].
    pose proof (find_key_none subKey _ (ui_provider input, ui_providerSubscriptionId input) _
                  (sameRef_key _ _) Hf) as Hk.
    pose proof Hi as Hi'. inv_fields Hi'; ids_other; rewrite List.map_app.
    + apply (ids_app d); auto.
    + apply NoDup_snoc; assumption.
Qed.

Lemma insertPayment_stmt_ok input :
  Inv (insertPayment_stmt input d).2 /\ Step d (insertPayment_stmt input d).2.
Proof.
  unfold insertPayment_stmt. destruct (List.existsb _ _) eqn:Hf; simpl; [split; [assumption|apply step_refl]|].
  split; [|step_fields; apply extends_app; typeclasses eauto].
  pose proof (existsb_key_false payKey _ (np_provider input, np_providerPaymentId input) _
                (samePayment_key _ _) Hf) as Hk.
  pose proof Hi as Hi'. inv_fields Hi'; ids_other.
  rewrite List.map_app. apply NoDup_snoc; assumption.
Qed.

Lemma insertGrant_stmt_ok now input : 0 <= ng_credits input ->
  Inv (insertGrant_stmt now input d).2 /\ Step d (insertGrant_stmt now input d).2.
Proof.
  intros Hc. unfold insertGrant_stmt.
  destruct (List.existsb _ _) eqn:Hf; simpl; [split; [assumption|apply step_refl]|].
  split; [|step_fields; apply extends_app; typeclasses eauto].
  pose proof (existsb_key_false g_sourceRef _ (ng_sourceRef input) _
                (fun g => str_eqb_eq _ _) Hf) as Hk.
  pose proof Hi as Hi'. inv_fields Hi'; ids_other; rewrite ?List.map_app.
  - apply (ids_app d); auto.
  - apply NoDup_snoc; assumption.
  - apply Forall_app. split; [assumption|]. repeat constructor; unfold grantOk; simpl; lia.
  - unfold usedTotal, paidTotal in *. simpl. rewrite sumZ_app. simpl. lia.
Qed.

Lemma insertCheckout_ok row : cs_id row = newId d -> checkoutOk row ->
  let d' := drawId (set_checkouts (db_checkouts d ++ [row]) d) in Inv d' /\ Step d d'.
Proof.
  intros Hid Hok. split; [|step_fields; apply extends_app; typeclasses eauto].
  pose proof Hi as Hi'. inv_fields Hi'; ids_other.
  - rewrite List.map_app. simpl. rewrite Hid. apply (ids_app d); auto.
  - apply Forall_app. split; [assumption|]. constructor; [assumption | constructor].
Qed.

Lemma insertEvent_stmt_ok now input :
  Inv (insertEvent_stmt now input d).2 /\ Step d (insertEvent_stmt now input d).2.
Proof.
  unfold insertEvent_stmt. destruct (List.existsb _ _) eqn:Hf; simpl; [split; [assumption|apply step_refl]|].
  split; [|step_fields; apply extends_app; typeclasses eauto].
  pose proof (existsb_key_false eventKey _ (ci_provider input, ci_providerEventId input) _
                (sameEvent_key _ _) Hf) as Hk.
  pose proof Hi as Hi'. inv_fields Hi'; ids_other; rewrite ?List.map_app.
  - apply (ids_app d); auto.
  - apply NoDup_snoc; assumption.
  - apply Forall_app. split; [assumption|]. repeat constructor; unfold eventOk; vm_compute; discriminate.
Qed.

Lemma claim_stmt_ok mailbox userId :
  Inv (claim_stmt mailbox userId d).2 /\ Step d (claim_stmt mailbox userId d).2.
Proof.
  unfold claim_stmt, findClaim_q. destruct (List.find _ _) eqn:Hf; simpl.
  - assert (E : forall c, str_eqb (tc_emailHash c) mailbox && ostr_eqb (tc_userId c) (Some userId) = true ->
                c = mkTrialClaim (tc_emailHash c) (Some userId)).
    { intros [h u] H. simpl in *. bools. subst. reflexivity. }
    assert (Hsame : update_where
      (fun c => str_eqb (tc_emailHash c) mailbox && ostr_eqb (tc_userId c) (Some userId))
      (fun c => mkTrialClaim (tc_emailHash c) (Some userId)) (db_claims d) = db_claims d).
    { unfold update_where. rewrite <- (List.map_id (db_claims d)) at 2. apply List.map_ext.
      intros c. destruct (_ && _) eqn:Hc; [symmetry; apply E, Hc | reflexivity]. }
    rewrite Hsame. destruct d. split; [assumption | apply step_refl].
  - split; [|step_fields; apply extends_app; typeclasses eauto].
    pose proof (find_key_none tc_emailHash _ mailbox _ (fun c => str_eqb_eq _ _) Hf) as Hk.
    pose proof Hi as Hi'. inv_fields Hi'. rewrite List.map_app. apply NoDup_snoc; assumption.
Qed.
End Updates.

(** *** Transactions *)
Lemma firstPayment_tx_ok now payment subscription d : Inv d ->
  Inv (firstPayment_tx now payment subscription d).2 /\ Step d (firstPayment_tx now payment subscription d).2.
Proof.
  intros Hi. unfold firstPayment_tx.
  destruct (upsert_stmt now subscription d) as [updated d1] eqn:Eu.
  destruct (upsert_stmt_ok d Hi now subscription) as [Hi1 H1]. rewrite Eu in Hi1, H1. simpl in *.
  destruct (match updated with Some s => Some s | None => _ end) as [s|];
    [|split; [assumption | apply step_refl]].
  destruct (insertPayment_stmt (withSubscriptionId (sub_id s) payment) d1) as [recorded d2] eqn:Ep.
  destruct (insertPayment_stmt_ok d1 Hi1 (withSubscriptionId (sub_id s) payment)) as [Hi2 H2].
  rewrite Ep in Hi2, H2. simpl in *. split; [assumption | eapply step_trans; eassumption].
Qed.

Lemma applyPatch_R now patch s : R_sub s (applyPatch now patch s).
Proof. constructor; simpl; auto. Qed.

Lemma renewal_tx_ok now input d : Inv d ->
  Inv (renewal_tx now input d).2 /\ Step d (renewal_tx now input d).2.
Proof.
  intros Hi. unfold renewal_tx.
  set (np := withSubscriptionId (ri_subscriptionId input) (ri_payment input)).
  destruct (insertPayment_stmt np d) as [recorded d1] eqn:Ep.
  destruct (insertPayment_stmt_ok d Hi np) as [Hi1 H1]. rewrite Ep in Hi1, H1. simpl in *.
  destruct recorded; [|split; assumption]. simpl.
  unfold update_subs. destruct (List.hd_error _) as [s|]; [|split; [assumption | apply step_refl]].
  simpl. destruct (update_subs_ok d1 Hi1
    (fun s => hasId (ri_subscriptionId input) s && oz_eqb (sub_currentPeriodEnd s) (ri_expectedPeriodEnd input))
    (applyPatch now (ri_patch input))) as [Hi2 H2]; [intros; apply applyPatch_R|].
  split; [assumption | eapply step_trans; eassumption].
Qed.

(** What [attributeConsumption] hands to [advance]. *)
Record advanceOk (input : AdvanceUsageInput) : Prop := {
  ao_credits : Forall (fun a => 0 <= at_credits a) (ad_attributions input);
  ao_unallocated : 0 <= ad_unallocatedDelta input;
  ao_sum : sumZ at_credits (ad_attributions input) + ad_unallocatedDelta input = ad_consumedDelta input;
}.

Lemma takeAll_ok l grants grants' :
  Forall (fun a => 0 <= at_credits a) l -> NoDup (List.map g_id grants) -> Forall grantOk grants ->
  takeAll l grants = Some grants' ->
  extends R_grant grants grants' /\ List.map g_id grants' = List.map g_id grants /\
  List.map g_sourceRef grants' = List.map g_sourceRef grants /\ Forall grantOk grants' /\
  sumZ g_usedCredits grants' = sumZ g_usedCredits grants + sumZ at_credits l.
Proof.
  intros Hl. revert grants. induction Hl as [|a l Ha Hl IH]; intros grants Hnd Hok H; simpl in H.
  - injection H as <-. repeat split; auto; [reflexivity | simpl; lia].
  - destruct (returning (canTake a) (takeCredits a) grants) as [|g0 l0] eqn:Er; [discriminate|].
    assert (Hid : List.map g_id (update_where (canTake a) (takeCredits a) grants) = List.map g_id grants)
      by (apply map_update_where; reflexivity).
    assert (Hok' : Forall grantOk (update_where (canTake a) (takeCredits a) grants)).
    { apply Forall_update; [|assumption]. unfold canTake, grantOk. intros g _ Hg ?. bools. simpl. lia. }
    apply IH in H as (H1 & H2 & H3 & H4 & H5); [|rewrite Hid; assumption | assumption].
    repeat split; [ | congruence | | assumption | ].
    + etransitivity; [|exact H1]. apply extends_update; [typeclasses eauto|].
      intros g _. constructor; simpl; auto; lia.
    + rewrite H3. apply map_update_where. reflexivity.
    + rewrite H5. simpl. rewrite (sumZ_update_unique g_id (takeCredits a) (canTake a) g_usedCredits (at_credits a) (at_grantId a));
        auto; [lia | unfold canTake; intros g Hg; bools; assumption |].
      intros E. apply (returning_nil _ (takeCredits a)) in E. congruence.
Qed.

Lemma advanceCursor_stmt_ok input d : advanceOk input -> Inv d ->
  let d' := (advanceCursor_stmt input d).2 in
  (advanceCursor_stmt input d).1 = true ->
  d' = set_usage (db_usage d') d /\ Step d d' /\
  NoDup (List.map u_botId (db_usage d')) /\ Forall cursorOk (db_usage d') /\
  paidTotal d' = paidTotal d + sumZ at_credits (ad_attributions input).
Proof.
  intros [Hc Hu Hs] Hi. pose proof (inv_bots d Hi) as Hb. pose proof (inv_usage d Hi) as Hus.
  assert (Hsum : 0 <= sumZ at_credits (ad_attributions input)).
  { apply sumZ_nonneg. intros a Ha. rewrite Forall_forall in Hc. apply Hc, list_elem_of_In, Ha. }
  unfold advanceCursor_stmt. destruct (List.find _ _) as [c|] eqn:Hf; simpl.
  - set (p := fun c => ofBot (ad_botId input) c && (u_version c =? ad_expectedVersion input)).
    destruct (returning p (advancedCursor input) (db_usage d)) as [|c0 l0] eqn:Er; [discriminate|]. intros _.
    split; [reflexivity|]. split; [|split; [|split]].
    + step_fields. apply extends_update; [typeclasses eauto|]. intros x _. constructor; simpl; auto; lia.
    + rewrite (map_update_where _ p); auto.
    + apply Forall_update; [|assumption]. unfold cursorOk. simpl. lia.
    + unfold paidTotal. simpl.
      rewrite (sumZ_update_unique u_botId (advancedCursor input) p _ (sumZ at_credits (ad_attributions input)) (ad_botId input)); auto.
      * unfold p, ofBot. intros x Hx. bools. assumption.
      * simpl. lia.
      * intros E. apply (returning_nil _ (advancedCursor input)) in E. rewrite E in Er. discriminate.
  - intros _. split; [reflexivity|]. split; [|split; [|split]].
    + step_fields. apply extends_app; typeclasses eauto.
    + rewrite List.map_app. apply NoDup_snoc; [assumption|].
      apply (find_key_none u_botId (ofBot (ad_botId input))); [|assumption].
      intros x. apply str_eqb_eq.
    + apply Forall_app. split; [assumption|]. repeat constructor; simpl; lia.
    + unfold paidTotal. simpl. rewrite sumZ_app. simpl. lia.
Qed.

Lemma advance_tx_ok input d : advanceOk input -> Inv d ->
  Inv (advance_tx input d).2 /\ Step d (advance_tx input d).2.
Proof.
  intros Ha Hi. unfold advance_tx. pose proof (advanceCursor_stmt_ok input d Ha Hi) as Hadv.
  destruct (advanceCursor_stmt input d) as [ok d1]. simpl in Hadv.
  destruct ok; simpl; [|split; [assumption | apply step_refl]].
  destruct (Hadv eq_refl) as (Hd1 & Hstep & Hb & Hu & Hp). clear Hadv.
  destruct (takeAll (ad_attributions input) (db_grants d1)) as [grants|] eqn:Et; simpl;
    [|split; [assumption | apply step_refl]].
  assert (Hg : db_grants d1 = db_grants d) by (rewrite Hd1; reflexivity). rewrite Hg in Et.
  apply takeAll_ok in Et as (H1 & H2 & H3 & H4 & H5);
    [| apply Ha | apply (inv_grant_ids d Hi) | apply (inv_grants d Hi)].
  split.
  - unfold paidTotal in Hp. rewrite Hd1. inv_fields Hi; try congruence.
    + rewrite H2. assumption.
    + unfold usedTotal, paidTotal in *. simpl. lia.
  - apply (step_trans _ d1); [assumption|]. step_fields. rewrite Hg. assumption.
Qed.

Lemma revoke_stmt_ok refs d : Inv d -> Inv (revoke_stmt refs d).2 /\ Step d (revoke_stmt refs d).2.
Proof.
  intros Hi. apply update_grants_ok; [assumption|]. intros g Hg. unfold revocable in Hg. bools.
  repeat split; simpl; auto; unfold grantOk in *; simpl; lia.
Qed.

Lemma reclaim_stmt_ok now input d : Inv d ->
  Inv (reclaim_stmt now input d).2 /\ Step d (reclaim_stmt now input d).2.
Proof.
  intros Hi. apply update_events_ok; [assumption|]. intros e He. unfold reclaimable in He. bools.
  repeat split; simpl; auto; unfold eventOk in *; simpl; lia.
Qed.

Lemma insertCheckout_stmt_ok now input d : 0 <= nc_credits input -> Inv d ->
  Inv (insertCheckout_stmt now input d).2 /\ Step d (insertCheckout_stmt now input d).2.
Proof.
  intros Hc Hd. apply insertCheckout_ok; auto. split; simpl; [assumption | tauto].
Qed.

Lemma setCheckoutRef_stmt_ok id ref d : Inv d ->
  Inv (setCheckoutRef_stmt id ref d).2 /\ Step d (setCheckoutRef_stmt id ref d).2.
Proof.
  intros Hd. unfold setCheckoutRef_stmt.
  destruct (List.existsb _ _); simpl; [split; [assumption | apply step_refl]|].
  apply update_checkouts_ok; [assumption|].
  intros c _. split; [constructor; auto | unfold checkoutOk; simpl; tauto].
Qed.

Lemma settle_stmt_ok id status at_ d : status <> C_pending -> Inv d ->
  Inv (settle_stmt id status at_ d).2 /\ Step d (settle_stmt id status at_ d).2.
Proof.
  intros Hs Hd. apply update_checkouts_ok; [assumption|].
  intros c Hc. bools. split; [constructor; auto; intros []; assumption | unfold checkoutOk; simpl].
  intros [? _]. split; [assumption|]. split; [contradiction | discriminate].
Qed.

Lemma refund_stmt_ok provider ref d : Inv d ->
  Inv (refund_stmt provider ref d).2 /\ Step d (refund_stmt provider ref d).2.
Proof. intros Hd. apply update_payments_ok; [assumption|]. intros p _. constructor; auto. Qed.

Lemma finish_stmt_ok now id input d : Inv d ->
  Inv (finish_stmt now id input d).2 /\ Step d (finish_stmt now id input d).2.
Proof.
  intros Hd. apply update_events_ok; [assumption|].
  intros e _. split; [constructor; auto; simpl; lia | auto].
Qed.

(** ** The guarantees of the repositories

    [StatementsIn G]: every statement the handlers of the service run, on a
    well-formed store and with the arguments they give it, makes a change in [G].
    The guarantees below hold for every such [G]; [Step] is one, and so is
    leaving the webhook inbox alone. *)
Class StatementsIn (G : Db -> Db -> Prop) : Prop := {
  in_rel :: StepRel G;
  in_upsert : forall t input d, Inv d -> G d (upsert_stmt t input d).2;
  in_update_subs : forall p f d, Inv d -> (forall s, p s = true -> R_sub s (f s)) -> G d (update_subs p f d).2;
  in_checkout : forall t input d, Inv d -> 0 <= nc_credits input -> G d (insertCheckout_stmt t input d).2;
  in_checkout_ref : forall id ref d, Inv d -> G d (setCheckoutRef_stmt id ref d).2;
  in_settle : forall id status at_ d, Inv d -> status <> C_pending -> G d (settle_stmt id status at_ d).2;
  in_payment : forall input d, Inv d -> G d (insertPayment_stmt input d).2;
  in_refund : forall provider ref d, Inv d -> G d (refund_stmt provider ref d).2;
  in_first_payment : forall t payment sub d, Inv d -> G d (firstPayment_tx t payment sub d).2;
  in_renewal : forall t input d, Inv d -> G d (renewal_tx t input d).2;
  in_grant : forall t input d, Inv d -> 0 <= ng_credits input -> G d (insertGrant_stmt t input d).2;
  in_revoke : forall refs d, Inv d -> G d (revoke_stmt refs d).2;
  in_claim : forall mailbox userId d, Inv d -> G d (claim_stmt mailbox userId d).2;
  in_advance : forall input d, Inv d -> advanceOk input -> G d (advance_tx input d).2;
}.

#[export] Instance statements_step : StatementsIn Step.
Proof.
  constructor; intros; [typeclasses eauto | ..].
  - apply upsert_stmt_ok; assumption.
  - apply update_subs_ok; assumption.
  - apply insertCheckout_stmt_ok; assumption.
  - apply setCheckoutRef_stmt_ok; assumption.
  - apply settle_stmt_ok; assumption.
  - apply insertPayment_stmt_ok; assumption.
  - apply refund_stmt_ok; assumption.
  - apply firstPayment_tx_ok; assumption.
  - apply renewal_tx_ok; assumption.
  - apply insertGrant_stmt_ok; assumption.
  - apply revoke_stmt_ok; assumption.
  - apply claim_stmt_ok; assumption.
  - apply advance_tx_ok; assumption.
Qed.

(** The inbox is written by [claimEvent] and [finishEvent] only. *)
Definition SameEvents (d d' : Db) : Prop := db_events d' = db_events d.

#[export] Instance statements_same_events : StatementsIn SameEvents.
Proof.
  constructor; unfold SameEvents; intros.
  - split; unfold SameEvents; intros; congruence.
  - unfold upsert_stmt. destruct (List.find _ _); reflexivity.
  - reflexivity.
  - reflexivity.
  - unfold setCheckoutRef_stmt. destruct (List.existsb _ _); reflexivity.
  - reflexivity.
  - unfold insertPayment_stmt. destruct (List.existsb _ _); reflexivity.
  - reflexivity.
  - unfold firstPayment_tx, upsert_stmt, insertPayment_stmt.
    destruct (List.find _ _); cbv beta iota zeta; repeat case_match; simplify_eq; reflexivity.
  - unfold renewal_tx, insertPayment_stmt, update_subs.
    destruct (List.existsb _ _); simpl; [reflexivity|]. destruct (List.hd_error _); reflexivity.
  - unfold insertGrant_stmt. destruct (List.existsb _ _); reflexivity.
  - reflexivity.
  - unfold claim_stmt. destruct (findClaim_q _ _); reflexivity.
  - unfold advance_tx, advanceCursor_stmt. destruct (List.find _ _); [destruct (returning _ _ _)|];
      simpl; try destruct (takeAll _ _); reflexivity.
Qed.

Section Repositories.
Context {G : Db -> Db -> Prop} `{HG : !StatementsIn G}.

Lemma ok_exec {A} (stmt : Db -> A * Db) :
  (forall d, Inv d -> Inv (stmt d).2 /\ G d (stmt d).2) -> Guar Inv G (exec stmt : B A).
Proof. apply guar_exec; typeclasses eauto. Qed.

Lemma ok_invoke {A} c (answer : list Call -> Err + A) : Guar Inv G (invoke c answer).
Proof.
  apply guar_bind; [typeclasses eauto | guar | intros _].
  intros w r w' Hi He Hw. injection Hw as <- <-. split; [assumption|].
  split; [apply step_refl|]. split; [apply later_refl; reflexivity|]. destruct (answer _); exact I.
Qed.

Lemma ok_upsertIfNewer input : Guar Inv G (upsertIfNewer input).
Proof.
  unfold upsertIfNewer, findByProviderRef. apply guar_bind; [typeclasses eauto | guar | intros t].
  apply guar_bind; [typeclasses eauto | apply ok_exec; intros; split; [apply upsert_stmt_ok | apply in_upsert]; assumption |].
  intros ?. guar.
Qed.

Lemma ok_update_subs p f : (forall s, p s = true -> R_sub s (f s)) -> Guar Inv G (exec (update_subs p f) : B _).
Proof. intros Hf. apply ok_exec. intros d Hd. split; [apply update_subs_ok | apply in_update_subs]; assumption. Qed.

Lemma ok_updateState id patch : Guar Inv G (updateState id patch).
Proof.
  unfold updateState. guar_step; guar_step; [guar|].
  apply guar_bind; [typeclasses eauto | apply ok_update_subs; intros; apply applyPatch_R |].
  intros ?. guar.
Qed.

Lemma ok_updatePlanIfNewer id plan scheduled at_ : Guar Inv G (updatePlanIfNewer id plan scheduled at_).
Proof.
  unfold updatePlanIfNewer. guar_step; guar_step; [guar|].
  apply guar_bind; [typeclasses eauto | apply ok_update_subs; intros; constructor; auto |].
  intros ?. guar.
Qed.

Lemma ok_createCheckoutSession input : 0 <= nc_credits input -> Guar Inv G (createCheckoutSession input).
Proof.
  intros Hc. unfold createCheckoutSession. guar_step; guar_step; [guar|].
  apply ok_exec. intros d Hd. split; [apply insertCheckout_stmt_ok | apply in_checkout]; assumption.
Qed.

Lemma ok_setProviderCheckoutId id ref : Guar Inv G (setProviderCheckoutId id ref).
Proof.
  apply spec_atomic; [typeclasses eauto|]. intros d Hd.
  split; [apply setCheckoutRef_stmt_ok, Hd | split; [apply in_checkout_ref, Hd|]].
  destruct (setCheckoutRef_stmt id ref d).1; exact I.
Qed.

Lemma ok_settleCheckout id status at_ : status <> C_pending -> Guar Inv G (settleCheckout id status at_).
Proof. intros Hs. apply ok_exec. intros. split; [apply settle_stmt_ok | apply in_settle]; assumption. Qed.

Lemma ok_recordPayment input : Guar Inv G (recordPayment input).
Proof. apply ok_exec. intros. split; [apply insertPayment_stmt_ok | apply in_payment]; assumption. Qed.

Lemma ok_markRefunded provider ref : Guar Inv G (markRefunded provider ref).
Proof. apply ok_exec. intros. split; [apply refund_stmt_ok | apply in_refund]; assumption. Qed.

Lemma ok_recordFirstPayment payment subscription : Guar Inv G (recordFirstPayment payment subscription).
Proof.
  unfold recordFirstPayment. guar_step; guar_step; [guar|]. apply spec_atomic; [typeclasses eauto|].
  intros d Hd. split; [apply firstPayment_tx_ok, Hd | split; [apply in_first_payment, Hd|]]. destruct (firstPayment_tx _ _ _ _).1; exact I.
Qed.

Lemma ok_recordRenewal input : Guar Inv G (recordRenewal input).
Proof.
  unfold recordRenewal. guar_step; guar_step; [guar|].
  apply ok_exec. intros. split; [apply renewal_tx_ok | apply in_renewal]; assumption.
Qed.

Lemma ok_listGrantsByUserIds ids : Guar Inv G (listGrantsByUserIds ids).
Proof. unfold listGrantsByUserIds. guar. Qed.

Lemma ok_insertIfAbsent input : 0 <= ng_credits input -> Guar Inv G (insertIfAbsent input).
Proof.
  intros. unfold insertIfAbsent. guar_step; guar_step; [guar|].
  apply ok_exec. intros. split; [apply insertGrant_stmt_ok | apply in_grant]; assumption.
Qed.

Lemma ok_revokeUnusedGrants refs : Guar Inv G (revokeUnusedGrants refs).
Proof.
  unfold revokeUnusedGrants. destruct refs; [guar|]. apply ok_exec. intros. split; [apply revoke_stmt_ok | apply in_revoke]; assumption.
Qed.

Lemma ok_claimTrial mailbox userId : Guar Inv G (claimTrial mailbox userId).
Proof. apply ok_exec. intros. split; [apply claim_stmt_ok | apply in_claim]; assumption. Qed.

Lemma ok_listCursorsByUserIds ids : Guar Inv G (listCursorsByUserIds ids).
Proof. unfold listCursorsByUserIds. guar. Qed.

Lemma ok_advanceUsage input : advanceOk input -> Guar Inv G (advanceUsage input).
Proof. intros Ha. apply ok_exec. intros. split; [apply advance_tx_ok | apply in_advance]; assumption. Qed.

End Repositories.

Lemma ok_claimEvent input : Guar Inv Step (claimEvent input).
Proof.
  unfold claimEvent. guar_step; guar_step; [guar|].
  apply guar_bind; [typeclasses eauto | apply guar_exec; [typeclasses eauto|]; intros; apply insertEvent_stmt_ok; assumption|].
  intros [?|]; [guar|].
  apply guar_bind; [typeclasses eauto | apply guar_exec; [typeclasses eauto|]; intros; apply reclaim_stmt_ok; assumption|].
  intros ?. guar.
Qed.

Lemma ok_finishEvent id input : Guar Inv Step (finishEvent id input).
Proof.
  unfold finishEvent. guar_step; guar_step; [guar|]. apply guar_exec; [typeclasses eauto|]. intros. apply finish_stmt_ok. assumption.
Qed.

#[export] Hint Resolve ok_invoke ok_upsertIfNewer ok_updateState ok_updatePlanIfNewer ok_createCheckoutSession
  ok_setProviderCheckoutId ok_settleCheckout ok_recordPayment ok_markRefunded ok_recordFirstPayment
  ok_recordRenewal ok_listGrantsByUserIds ok_insertIfAbsent ok_revokeUnusedGrants ok_claimTrial
  ok_listCursorsByUserIds ok_advanceUsage ok_claimEvent ok_finishEvent : guar.
