(* ===== verification/StoreProps.v ===== *)
(** What the subscription and payment statements of the store compute: the
    specification behind the safety of [StoreInv]. *)
From S2P Require Import Prelude Dates Pricing Domain Store StoreInv.
From stdpp Require Import list strings pretty.
#[local] Open Scope Z_scope.

(** ** Rows found by a unique key *)
Section UniqueKey.
Context {A K : Type} (key : A -> K) (q : A -> bool) (k : K).
Hypothesis q_key : forall x, q x = true <-> key x = k.

Lemma unique_key_eq l x y :
  NoDup (List.map key l) -> In x l -> In y l -> key x = key y -> x = y.
Proof.
  induction l as [|z l IH]; simpl; intros Hnd Hx Hy E; [contradiction|].
  apply NoDup_cons in Hnd as [Hz Hnd]. rewrite list_elem_of_In in Hz.
  destruct Hx as [->|Hx], Hy as [->|Hy]; auto.
  - exfalso. apply Hz. rewrite E. apply in_map, Hy.
  - exfalso. apply Hz. rewrite <- E. apply in_map, Hx.
Qed.

Lemma find_unique l x : NoDup (List.map key l) -> In x l -> key x = k -> List.find q l = Some x.
Proof.
  intros Hnd Hin E. destruct (List.find q l) as [y|] eqn:Hf.
  - apply List.find_some in Hf as [Hy Hq]. apply q_key in Hq. f_equal.
    apply (unique_key_eq l); auto. congruence.
  - exfalso. apply (find_key_none key q k l q_key Hf). rewrite <- E. apply in_map, Hin.
Qed.

(** [UPDATE ... WHERE key AND r RETURNING]: at most the row of the key. *)
Lemma hd_returning_unique r (f : A -> A) l s :
  NoDup (List.map key l) -> List.find q l = Some s ->
  List.hd_error (returning (fun x => q x && r x) f l) = if r s then Some (f s) else None.
Proof.
  induction l as [|x l IH]; simpl; intros Hnd Hf; [discriminate|].
  apply NoDup_cons in Hnd as [Hx Hnd]. rewrite list_elem_of_In in Hx. unfold returning. simpl.
  destruct (q x) eqn:Hq; simpl.
  - injection Hf as ->. destruct (r s); simpl; [reflexivity|].
    destruct (List.filter _ l) as [|y ys] eqn:E; simpl; [reflexivity|]. exfalso. apply Hx.
    assert (Hy : In y (y :: ys)) by (simpl; auto). rewrite <- E in Hy.
    apply filter_In in Hy as [Hy Hqy]. bools.
    rewrite (proj1 (q_key s) Hq). match goal with H : q y = true |- _ => apply q_key in H; rewrite <- H end.
    apply in_map, Hy.
  - apply IH; assumption.
Qed.

Lemma hd_returning_none r (f : A -> A) l : List.find q l = None ->
  List.hd_error (returning (fun x => q x && r x) f l) = None.
Proof.
  induction l as [|x l IH]; simpl; intros Hf; [reflexivity|]. unfold returning in *. simpl.
  destruct (q x); [discriminate|]. simpl. apply IH, Hf.
Qed.

Lemma update_where_unmatched r (f : A -> A) l s :
  NoDup (List.map key l) -> List.find q l = Some s -> r s = false ->
  update_where (fun x => q x && r x) f l = l.
Proof.
  intros Hnd Hf Hr. apply update_where_none.
  pose proof (hd_returning_unique r f l s Hnd Hf) as H. rewrite Hr in H. unfold returning in H.
  destruct (List.filter _ l); [reflexivity | discriminate].
Qed.
End UniqueKey.

(** ** Subscriptions: the newest report of the provider wins *)
Definition stored (p : PaymentProviderName) (ref : string) (d : Db) : option Subscription :=
  findByProviderRef_q p ref d.

(** The row a report leaves, as a function of the row it finds. *)
Definition reported (now : Z) (input : UpsertSubscriptionInput) (id : string) (old : option Subscription)
  : Subscription :=
  match old with
  | None => newSubscription now input id
  | Some s => if sub_providerUpdatedAt s <=? ui_providerUpdatedAt input then mergeSubscription now input s else s
  end.

Lemma upsert_stored now input d p ref :
  stored p ref (upsert_stmt now input d).2 =
  if (ui_provider input =e p) && str_eqb (ui_providerSubscriptionId input) ref
  then Some (reported now input (newId d) (stored p ref d)) else stored p ref d.
Proof.
  unfold stored, findByProviderRef_q, upsert_stmt.
  destruct ((ui_provider input =e p) && str_eqb (ui_providerSubscriptionId input) ref) eqn:Hk.
  - bools. subst p ref.
    destruct (List.find _ (db_subs d)) as [s|] eqn:Hf; cbn [snd set_subs drawId db_subs].
    + rewrite find_update_where by reflexivity. rewrite Hf. simpl. apply List.find_some in Hf as [_ Hf].
      rewrite Hf. destruct (_ <=? _); reflexivity.
    + rewrite find_app, Hf. simpl. unfold sameRef. simpl. rewrite eqe_refl, str_eqb_refl. reflexivity.
  - assert (Hne : forall x, sameRef (ui_provider input) (ui_providerSubscriptionId input) x = true ->
                  sameRef p ref x = false).
    { intros x Hx. destruct (sameRef p ref x) eqn:E; [|reflexivity].
      apply sameRef_key in Hx, E. rewrite Hx in E. injection E as <- <-.
      rewrite eqe_refl, str_eqb_refl in Hk. discriminate. }
    destruct (List.find (sameRef (ui_provider input) _) (db_subs d)) as [s|] eqn:Hf; cbn [snd set_subs drawId db_subs].
    + apply find_update_where_other; intros x Hx; apply andb_prop in Hx as [Hx _]; exact (Hne x Hx).
    + rewrite find_app. cbn [List.find].
      replace (sameRef p ref (newSubscription now input (newId d))) with false by (symmetry; exact Hk).
      destruct (List.find (sameRef p ref) (db_subs d)); reflexivity.
Qed.

Lemma upsert_returned now input d : Inv d ->
  (upsert_stmt now input d).1 =
  match stored (ui_provider input) (ui_providerSubscriptionId input) d with
  | None => Some (newSubscription now input (newId d))
  | Some s => if sub_providerUpdatedAt s <=? ui_providerUpdatedAt input
              then Some (mergeSubscription now input s) else None
  end.
Proof.
  intros Hi. unfold stored, findByProviderRef_q, upsert_stmt.
  destruct (List.find _ (db_subs d)) as [s|] eqn:Hf; [|reflexivity].
  apply (hd_returning_unique subKey (sameRef (ui_provider input) (ui_providerSubscriptionId input))
    (ui_provider input, ui_providerSubscriptionId input) (sameRef_key _ _)
    (fun s => sub_providerUpdatedAt s <=? ui_providerUpdatedAt input)); [apply (inv_sub_keys d Hi) | exact Hf].
Qed.

Lemma upsert_stale now input d s : Inv d ->
  stored (ui_provider input) (ui_providerSubscriptionId input) d = Some s ->
  ui_providerUpdatedAt input < sub_providerUpdatedAt s -> upsert_stmt now input d = (None, d).
Proof.
  intros Hi Hs Hlt. pose proof (upsert_returned now input d Hi) as H1. rewrite Hs in H1.
  replace (sub_providerUpdatedAt s <=? ui_providerUpdatedAt input) with false in H1 by (symmetry; apply Z.leb_gt, Hlt).
  unfold stored, findByProviderRef_q in Hs. unfold upsert_stmt in *. rewrite Hs in *. cbn [fst] in H1. rewrite H1.
  f_equal. rewrite (update_where_unmatched subKey (sameRef (ui_provider input) (ui_providerSubscriptionId input))
    (ui_provider input, ui_providerSubscriptionId input) (sameRef_key _ _)
    (fun s => sub_providerUpdatedAt s <=? ui_providerUpdatedAt input) _ _ s); auto.
  - destruct d; reflexivity.
  - apply (inv_sub_keys d Hi).
  - apply Z.leb_gt, Hlt.
Qed.

(** What a provider reports of a subscription. *)
Definition providerState (s : Subscription) :=
  (sub_planCode s, sub_scheduledPlanCode s, sub_status s, sub_cancelAtPeriodEnd s,
   (sub_currentPeriodEnd s, sub_trialEndsAt s, sub_providerUpdatedAt s)).

(** Running [upsertIfNewer] with nothing else running. *)
Lemma upsertIfNewer_alone input d t calls : Inv d ->
  let key := stored (ui_provider input) (ui_providerSubscriptionId input) in
  let d' := (upsert_stmt t input d).2 in
  exists s', key d' = Some s' /\
    upsertIfNewer input (mkWorld d [] t calls)
    = (inr (mkUpsertResult s' (match key d with
                               | Some s => sub_providerUpdatedAt s <=? ui_providerUpdatedAt input
                               | None => true
                               end)), mkWorld d' [] t calls).
Proof.
  intros Hi key d'. pose proof (upsert_returned t input d Hi) as H1.
  pose proof (upsert_stored t input d (ui_provider input) (ui_providerSubscriptionId input)) as H2.
  rewrite eqe_refl, str_eqb_refl in H2. fold d' key in H2. fold key in H1. cbn [andb] in H2.
  exists (reported t input (newId d) (key d)). split; [exact H2|].
  unfold upsertIfNewer, findByProviderRef. cbv [bind now exec query atomic w_env w_db w_now w_calls].
  destruct (upsert_stmt t input d) as [row dd] eqn:Hu. cbn [fst snd] in *. subst d' row.
  destruct (key d) as [s|] eqn:Hk; cbn [reported] in *.
  - destruct (sub_providerUpdatedAt s <=? ui_providerUpdatedAt input) eqn:E; [reflexivity|].
    unfold key, stored in H2. rewrite H2. reflexivity.
  - reflexivity.
Qed.

(** The newest report of the provider wins.  With nothing else running,
    [upsertIfNewer] always ends.  A report not older than the stored row is
    applied: the row takes its status, cancellation flag, period end, trial end
    and date, and its plan unless it is the provider announcing, in the running
    period, a change the user scheduled for the renewal, which leaves both the
    plan and the schedule.  An older report changes nothing and hands the stored
    row back.  Either way the row keeps an owner it has, and no other
    subscription is touched. *)
Theorem upsertIfNewer_last_writer_wins input d t calls : Inv d ->
  let key := stored (ui_provider input) (ui_providerSubscriptionId input) in
  exists d' s' applied,
    upsertIfNewer input (mkWorld d [] t calls) = (inr (mkUpsertResult s' applied), mkWorld d' [] t calls) /\
    key d' = Some s' /\
    (forall p ref, (p, ref) <> (ui_provider input, ui_providerSubscriptionId input) ->
       stored p ref d' = stored p ref d) /\
    match key d with
    | Some s =>
        applied = (sub_providerUpdatedAt s <=? ui_providerUpdatedAt input) /\
        sub_id s' = sub_id s /\ (forall u, sub_userId s = Some u -> sub_userId s' = Some u) /\
        if applied then
          (sub_status s', sub_cancelAtPeriodEnd s', sub_currentPeriodEnd s', sub_trialEndsAt s', sub_providerUpdatedAt s')
          = (ui_status input, ui_cancelAtPeriodEnd input, ui_currentPeriodEnd input, ui_trialEndsAt input,
             ui_providerUpdatedAt input) /\
          (sub_planCode s', sub_scheduledPlanCode s')
          = (if keepsPaidPlan s input then (sub_planCode s, sub_scheduledPlanCode s)
             else (ui_planCode input, None))
        else d' = d
    | None => applied = true /\ s' = newSubscription t input (newId d)
    end.
Proof.
  intros Hi key. destruct (upsertIfNewer_alone input d t calls Hi) as (s' & Hs' & Hrun).
  exists (upsert_stmt t input d).2, s'. eexists. split; [exact Hrun|]. split; [exact Hs'|].
  pose proof (upsert_stored t input d) as Hst. split.
  { intros p ref Hne. rewrite Hst. destruct (_ && _) eqn:E; [|reflexivity]. bools. subst. congruence. }
  rewrite Hst, eqe_refl, str_eqb_refl in Hs'. cbn [andb] in Hs'. fold key in Hs'. injection Hs' as <-.
  fold key. destruct (key d) as [s|] eqn:Hk; [|auto]. cbn [reported]. split; [reflexivity|].
  destruct (_ <=? _) eqn:E; cbn [mergeSubscription sub_id sub_userId sub_status sub_planCode sub_scheduledPlanCode
    sub_cancelAtPeriodEnd sub_currentPeriodEnd sub_trialEndsAt sub_providerUpdatedAt].
  - split; [reflexivity|]. split; [intros u ->; reflexivity|]. split; [reflexivity|].
    destruct (keepsPaidPlan s input); reflexivity.
  - split; [reflexivity|]. split; [auto|]. bools. rewrite (upsert_stale t input d s Hi Hk E). reflexivity.
Qed.

(** Reports may arrive in any order.  Two reports of the same subscription
    with different dates leave it in the same state whichever is handled first,
    for a subscription that is new or has no scheduled plan change. *)
Theorem reports_commute i1 i2 d t1 t2 : Inv d ->
  (ui_provider i1, ui_providerSubscriptionId i1) = (ui_provider i2, ui_providerSubscriptionId i2) ->
  ui_providerUpdatedAt i1 <> ui_providerUpdatedAt i2 ->
  let key := stored (ui_provider i1) (ui_providerSubscriptionId i1) in
  (forall s, key d = Some s -> sub_scheduledPlanCode s = None) ->
  option_map providerState (key (upsert_stmt t2 i2 (upsert_stmt t1 i1 d).2).2)
  = option_map providerState (key (upsert_stmt t2 i1 (upsert_stmt t1 i2 d).2).2).
Proof.
  intros Hi Ek Hne key Hsched. injection Ek as E1 E2. subst key.
  rewrite !upsert_stored, <- E1, <- E2, eqe_refl, str_eqb_refl. cbn [andb option_map].
  destruct (stored _ _ d) as [s|]; f_equal; cbn [reported].
  - specialize (Hsched s eq_refl).
    assert (Hk : forall i, keepsPaidPlan s i = false) by (intros; unfold keepsPaidPlan; rewrite Hsched; reflexivity).
    destruct (sub_providerUpdatedAt s <=? ui_providerUpdatedAt i1) eqn:A1;
      destruct (sub_providerUpdatedAt s <=? ui_providerUpdatedAt i2) eqn:A2;
      cbn [mergeSubscription sub_providerUpdatedAt]; rewrite ?A1, ?A2;
      repeat match goal with |- context [if ?x <=? ?y then _ else _] => destruct (x <=? y) eqn:? end;
      bools; try lia; unfold providerState, mergeSubscription, keepsPaidPlan in *; simpl in *;
      rewrite ?Hk; simpl; rewrite ?Hsched; reflexivity.
  - cbn [newSubscription sub_providerUpdatedAt].
    repeat match goal with |- context [if ?x <=? ?y then _ else _] => destruct (x <=? y) eqn:? end;
      bools; try lia; reflexivity.
Qed.
