(* ===== verification/Provider.v ===== *)
(** The payment providers' contract: [billing/provider/types.ts],
    [billing/provider/hmac.ts], [billing/provider/registry.ts],
    [billing/providers/disabled.ts] and the configuration they read
    ([billing/config.ts], [billing/urls.ts]).

    [Platform] names what the providers take from outside the repository: zod's
    string checks, the JSON text codec, HMAC-SHA256 in hex, the WHATWG URL of a
    path against a base, and the network. *)
From Stdlib Require Import Ascii QArith.
From S2P Require Import Prelude JsString Dates Pricing Domain Json Store StoreInv.
From stdpp Require Import list strings.
#[local] Open Scope Z_scope.

(** What [fetch] ends with: the name of a network error or timeout, or a status,
    the [retry-after] header as a number, and the JSON body if it is one. *)
Inductive HttpAnswer :=
| Http_network (errorName : string)
| Http_response (status : Z) (retryAfterSeconds : option Q) (body : option Json).

Record Platform := mkPlatform {
  pf_wire : Wire;
  pf_jsonParse : string -> option Json;
  pf_jsonStringify : Json -> string;
  pf_hmacHex : string -> string -> string;
  pf_resolveUrl : string -> string -> string;
  pf_fetch : string -> string -> option Json -> list Call -> HttpAnswer;
}.

(** ** provider/types.ts: the interface *)
Record PaymentProvider := mkProvider {
  pv_name : PaymentProviderName;
  pv_available : bool;
  pv_capabilities : ProviderCapabilities;
  pv_createCheckout : CreateCheckoutInput -> B CreateCheckoutResult;
  pv_checkoutUrl : string -> B string;
  pv_parseWebhook : WebhookRequest -> B ProviderEvent;
  pv_cancelSubscription : string -> B (option ProviderSubscription);
  pv_resumeSubscription : string -> B (option ProviderSubscription);
  pv_previewPlanChange : string -> string -> PlanChangeBilling -> B ProviderPlanChangePreview;
  pv_changePlan : string -> string -> PlanChangeBilling -> B ProviderSubscription;
  pv_getCustomerPortalUrl : string -> B (option string);
  pv_getUpdatePaymentMethodUrl : string -> string -> B (option string);
}.

(** What the service relies on: a provider never touches our tables.  [Remote m]
    says so of one operation: it leaves the store as it found it, and is not
    interleaved with accesses of it. *)
Definition Remote {A} (m : B A) : Prop :=
  forall w, w_db (m w).2 = w_db w /\ w_env (m w).2 = w_env w /\ w_now (m w).2 = w_now w.

Class ProviderLaws (p : PaymentProvider) : Prop := {
  law_createCheckout : forall i, Remote (pv_createCheckout p i);
  law_checkoutUrl : forall id, Remote (pv_checkoutUrl p id);
  law_parseWebhook : forall r, Remote (pv_parseWebhook p r);
  law_cancelSubscription : forall id, Remote (pv_cancelSubscription p id);
  law_resumeSubscription : forall id, Remote (pv_resumeSubscription p id);
  law_previewPlanChange : forall id plan b, Remote (pv_previewPlanChange p id plan b);
  law_changePlan : forall id plan b, Remote (pv_changePlan p id plan b);
  law_getCustomerPortalUrl : forall id, Remote (pv_getCustomerPortalUrl p id);
  law_getUpdatePaymentMethodUrl : forall id url, Remote (pv_getUpdatePaymentMethodUrl p id url);
}.

(** *** Programs that stay outside the store *)
Section RemoteLemmas.
Lemma remote_ret {A} (a : A) : Remote (ret a).
Proof. intros w. auto. Qed.
Lemma remote_throw {A} (e : Err) : Remote (throw e : B A).
Proof. intros w. auto. Qed.
Lemma remote_lift {A} (x : Err + A) : Remote (lift x : B A).
Proof. intros w. auto. Qed.
Lemma remote_now : Remote now.
Proof. intros w. auto. Qed.
Lemma remote_bind {A X} (m : B A) (k : A -> B X) :
  Remote m -> (forall a, Remote (k a)) -> Remote (bind m k).
Proof.
  intros Hm Hk w. specialize (Hm w). unfold bind. destruct (m w) as [[e|a] w1]; simpl in *; [assumption|].
  destruct (Hk a w1) as (? & ? & ?). destruct Hm as (? & ? & ?). repeat split; congruence.
Qed.
Lemma remote_catch {A} (m : B A) h : Remote m -> (forall e, Remote (h e)) -> Remote (catch m h).
Proof.
  intros Hm Hh w. specialize (Hm w). unfold catch. destruct (m w) as [[e|a] w1]; simpl in *; [|assumption].
  destruct (Hh e w1) as (? & ? & ?). destruct Hm as (? & ? & ?). repeat split; congruence.
Qed.
Lemma remote_record c : Remote (record c).
Proof. intros w. auto. Qed.
Lemma remote_invoke {A} c (answer : list Call -> Err + A) : Remote (invoke c answer).
Proof. apply remote_bind; [apply remote_record | intros _ w; auto]. Qed.

Lemma ok_remote {A} (G : Db -> Db -> Prop) `{!StepRel G} (m : B A) : Remote m -> Guar Inv G m.
Proof.
  intros Hm w r w' Hi He Hw. specialize (Hm w). rewrite Hw in Hm. simpl in Hm.
  destruct Hm as (E1 & E2 & E3). rewrite E1. split; [assumption|]. split; [apply step_refl|].
  split; [apply later_refl; assumption|]. destruct r; exact Logic.I.
Qed.
End RemoteLemmas.

Create HintDb remote discriminated.
#[export] Hint Resolve remote_ret remote_throw remote_lift remote_now remote_record remote_invoke : remote.
Ltac remote :=
  repeat first
    [ solve [eauto with remote nocore]
    | apply remote_bind; [| intros ?]
    | apply remote_catch; [| intros ?]
    | match goal with
      | |- Remote (match ?x with _ => _ end) => destruct x
      | |- Remote (let _ := _ in _) => cbv zeta
      end ].

(** ** config.ts and urls.ts *)
Definition Env := string -> option string.

Definition readAppUrl (env : Env) : Err + string :=
  let raw := match env "NEXT_PUBLIC_APP_URL"%string with
             | Some v => Some v
             | None => env "BETTER_AUTH_URL"%string
             end in
  match option_map (fun v => dropTrailingSlashes (trim v)) raw with
  | Some appUrl =>
      if str_eqb appUrl "" then inl (BillingUnavailableError "NEXT_PUBLIC_APP_URL or BETTER_AUTH_URL is required")
      else inr appUrl
  | None => inl (BillingUnavailableError "NEXT_PUBLIC_APP_URL or BETTER_AUTH_URL is required")
  end.

Record BillingConfig := mkBillingConfig { cfg_enforcement : bool; cfg_appUrl : string }.

Definition TRUE_VALUES : list string := ["1"; "true"; "yes"; "on"].

Definition readBillingConfig (env : Env) : Err + BillingConfig :=
  let raw := match env "BILLING_REQUIRED"%string with Some v => v | None => ""%string end in
  match readAppUrl env with
  | inl e => inl e
  | inr appUrl =>
      inr (mkBillingConfig (List.existsb (str_eqb (toLowerCase (trim raw))) TRUE_VALUES) appUrl)
  end.

Definition SETTINGS_PATH : string := "/app/settings".
Definition CHECKOUT_RETURN_PATH : string := "/app/billing/return".
Definition checkoutReturnPath (sessionId : string) : string :=
  (CHECKOUT_RETURN_PATH ++ "?session=" ++ encodeURIComponent sessionId)%string.

(** ** hmac.ts *)
Definition hexDigitOf (c : ascii) : option Z :=
  let n := Z.of_nat (nat_of_ascii c) in
  if (48 <=? n) && (n <=? 57) then Some (n - 48)
  else if (97 <=? n) && (n <=? 102) then Some (n - 87)
  else if (65 <=? n) && (n <=? 70) then Some (n - 55)
  else None.

(** [Buffer.from(s, "hex")] stops at the first pair that is not hex. *)
Fixpoint hexBytes (s : string) : list Z :=
  match s with
  | String a (String b s') =>
      match hexDigitOf a, hexDigitOf b with
      | Some x, Some y => (16 * x + y) :: hexBytes s'
      | _, _ => []
      end
  | _ => []
  end.

Section Hmac.
Variable hmacHex : string -> string -> string.

Definition signBody (secret rawBody : string) : string := hmacHex secret rawBody.

Definition verifyBodySignature (secret rawBody : string) (signature : option string) : bool :=
  match signature with
  | None => false
  | Some sig =>
      if str_eqb sig "" then false
      else
        let expected := hexBytes (signBody secret rawBody) in
        let received := hexBytes (trim sig) in
        if Nat.eqb (length received) 0 || negb (Nat.eqb (length received) (length expected)) then false
        else bool_decide (received = expected)
  end.
End Hmac.

(** ** disabled.ts *)
Definition disabledCapabilities : ProviderCapabilities := mkCapabilities false false false false true false.

Definition DisabledPaymentProvider (name : PaymentProviderName) (reason : string) : PaymentProvider :=
  let reject {A} : B A := throw (BillingUnavailableError reason) in
  mkProvider name false disabledCapabilities (fun _ => reject) (fun _ => reject) (fun _ => reject)
    (fun _ => reject) (fun _ => reject) (fun _ _ _ => reject) (fun _ _ _ => reject)
    (fun _ => reject) (fun _ _ => reject).

#[export] Instance disabled_laws name reason : ProviderLaws (DisabledPaymentProvider name reason).
Proof. constructor; intros; simpl; apply remote_throw. Qed.

(** ** registry.ts *)
Record ProviderRegistry := mkRegistry {
  rg_active : PaymentProvider;
  rg_byName : string -> option PaymentProvider;
}.

Definition providerNameOf (value : string) : option PaymentProviderName :=
  List.find (fun p => str_eqb (provider_str p) value) PAYMENT_PROVIDERS.

Definition isTruthy (s : option string) : bool :=
  match s with Some v => negb (str_eqb v "") | None => false end.

Definition quoted (s : string) : string :=
  String (ascii_of_nat 34) (s ++ String (ascii_of_nat 34) EmptyString).

Definition resolveActiveProviderName (env : Env) : Err + PaymentProviderName :=
  match option_map trim (env "PAYMENT_PROVIDER"%string) with
  | None => inl (BillingUnavailableError "PAYMENT_PROVIDER is not set")
  | Some raw =>
      if str_eqb raw "" then inl (BillingUnavailableError "PAYMENT_PROVIDER is not set")
      else match providerNameOf raw with
           | Some name => inr name
           | None => inl (BillingUnavailableError
               ("unknown PAYMENT_PROVIDER " ++ quoted raw)%string)
           end
  end.

(** [factory name] is [FACTORIES[name](env, deps)].  The loop stops at the first
    error that is not about an unconfigured provider. *)
Fixpoint buildProviders (factory : PaymentProviderName -> Err + PaymentProvider)
    (activeName : PaymentProviderName) (names : list PaymentProviderName)
  : Err + list (PaymentProviderName * PaymentProvider) :=
  match names with
  | [] => inr []
  | name :: names' =>
      let one :=
        match factory name with
        | inr p => inr [(name, p)]
        | inl (BillingUnavailableError reason) =>
            if negb (name =e activeName) then inr []
            else inr [(name, DisabledPaymentProvider name reason)]
        | inl e => inl e
        end in
      match one with
      | inl e => inl e
      | inr ps =>
          match buildProviders factory activeName names' with
          | inl e => inl e
          | inr ps' => inr (ps ++ ps')
          end
      end
  end.

Definition lookupProvider (name : PaymentProviderName) (ps : list (PaymentProviderName * PaymentProvider))
  : option PaymentProvider := option_map snd (List.find (fun q => q.1 =e name) ps).

Definition createProviderRegistry (env : Env) (factory : PaymentProviderName -> Err + PaymentProvider)
  : Err + ProviderRegistry :=
  match resolveActiveProviderName env with
  | inl (BillingUnavailableError reason) =>
      inr (mkRegistry (DisabledPaymentProvider P_mock reason) (fun _ => None))
  | inl e => inl e
  | inr activeName =>
      match buildProviders factory activeName PAYMENT_PROVIDERS with
      | inl e => inl e
      | inr providers =>
          match lookupProvider activeName providers with
          | None => inl (JsError ("provider " ++ provider_str activeName ++ " missing from registry")%string)
          | Some active =>
              inr (mkRegistry active (fun name =>
                match providerNameOf name with
                | None => None
                | Some n =>
                    match lookupProvider n providers with
                    | Some p => if pv_available p then Some p else None
                    | None => None
                    end
                end))
          end
      end
  end.

(** What the service needs of its registry: every provider it can hand out
    keeps the contract and answers to its own name. *)
Class RegistryLaws (r : ProviderRegistry) : Prop := {
  reg_active : ProviderLaws (rg_active r);
  reg_byName : forall name p, rg_byName r name = Some p -> ProviderLaws p;
  reg_name : forall name p, rg_byName r name = Some p -> provider_str (pv_name p) = name;
}.

(** ** The registry keeps its promise *)
Section RegistryLemmas.
Variable factory : PaymentProviderName -> Err + PaymentProvider.
Hypothesis factory_laws : forall name p, factory name = inr p -> ProviderLaws p /\ pv_name p = name.

Lemma buildProviders_ok active names ps :
  buildProviders factory active names = inr ps ->
  Forall (fun q => ProviderLaws q.2 /\ pv_name q.2 = q.1) ps.
Proof.
  revert ps. induction names as [|n names IH]; intros ps H; simpl in H.
  - injection H as <-. constructor.
  - destruct (factory n) as [e|p] eqn:Hf.
    + destruct e; try discriminate. destruct (n =e active); simpl in H.
      * destruct (buildProviders factory active names) as [|ps']; [discriminate|]. injection H as <-.
        constructor; [split; [apply disabled_laws | reflexivity] | auto].
      * destruct (buildProviders factory active names) as [|ps']; [discriminate|]. injection H as <-. auto.
    + destruct (buildProviders factory active names) as [|ps']; [discriminate|]. injection H as <-.
      constructor; [apply factory_laws, Hf | auto].
Qed.

Lemma lookupProvider_ok n ps p :
  Forall (fun q => ProviderLaws q.2 /\ pv_name q.2 = q.1) ps -> lookupProvider n ps = Some p ->
  ProviderLaws p /\ pv_name p = n.
Proof.
  unfold lookupProvider. intros Hps H. destruct (List.find _ ps) as [q|] eqn:E; [|discriminate].
  injection H as <-. apply List.find_some in E as [Hin E]. bools. rewrite Forall_forall in Hps.
  rewrite <- E. apply Hps, list_elem_of_In, Hin.
Qed.

Lemma providerNameOf_str value n : providerNameOf value = Some n <-> provider_str n = value.
Proof.
  unfold providerNameOf. split.
  - intros H. apply List.find_some in H as [_ H]. bools. assumption.
  - intros <-. destruct n; reflexivity.
Qed.

Lemma registry_laws env r : createProviderRegistry env factory = inr r -> RegistryLaws r.
Proof.
  unfold createProviderRegistry. destruct (resolveActiveProviderName env) as [e|active] eqn:Ha.
  - destruct e; try discriminate. intros [= <-]. constructor; simpl; [apply disabled_laws | discriminate | discriminate].
  - destruct (buildProviders _ _ _) as [|ps] eqn:Hb; [discriminate|].
    destruct (lookupProvider active ps) as [a|] eqn:Hl; [|discriminate]. intros [= <-].
    pose proof (buildProviders_ok _ _ _ Hb) as Hps. constructor; simpl.
    + apply (lookupProvider_ok active ps); assumption.
    + intros name p. destruct (providerNameOf name) as [n|]; [|discriminate].
      destruct (lookupProvider n ps) as [q|] eqn:Hq; [|discriminate].
      destruct (pv_available q); [|discriminate]. intros [= <-]. apply (lookupProvider_ok _ _ _ Hps Hq).
    + intros name p. destruct (providerNameOf name) as [n|] eqn:Hn; [|discriminate].
      destruct (lookupProvider n ps) as [q|] eqn:Hq; [|discriminate].
      destruct (pv_available q); [|discriminate]. intros [= <-].
      rewrite (proj2 (lookupProvider_ok _ _ _ Hps Hq)). apply providerNameOf_str, Hn.
Qed.
End RegistryLemmas.
