(* ===== verification/Credits.v ===== *)
(** The credit ledger: [billing/credits/service.ts] and
    [billing/credits/orchestrator-budget.ts].

    The LLM gateway is reached through the orchestrator's HTTP client; the
    client's answers are the fields of [BudgetClient].  The clock is constant
    within one request.  Logging is not modelled.  [syncAll] runs up to four
    users at a time: the model runs them in order, and what the other workers do
    meanwhile is interference. *)
From S2P Require Import Prelude Dates Pricing Domain Entitlement Allocation CreditViews Store.
From stdpp Require Import list.
#[local] Open Scope Z_scope.

Definition MAX_ADVANCE_ATTEMPTS : nat := 3.

(** ** orchestrator-budget.ts *)
Inductive BotStatus :=
  B_provisioning | B_running | B_degraded | B_unhealthy | B_stopped | B_destroying | B_destroyed | B_error.

(** [GONE_BOT_STATUSES] of orchestrator/types.ts. *)
Definition isGone (s : BotStatus) : bool :=
  match s with B_destroying | B_destroyed | B_error => true | _ => false end.

(** [BotUsage]: what the gateway reports for a bot, when it supports it. *)
Inductive BotUsage :=
| Usage_unsupported
| Usage_supported (spendCents : Z) (maxBudgetCents : option Z).

(** The orchestrator's answers, as functions of the calls made so far. *)
Record BudgetClient := mkBudgetClient {
  bc_listBots : string -> list Call -> Err + list (string * BotStatus);
  bc_getBotUsage : string -> string -> list Call -> Err + BotUsage;
  bc_updateBotBudget : string -> string -> Z -> list Call -> Err + unit;
}.

Definition listLiveBotIds (client : BudgetClient) (userId : string) : B (list string) :=
  let! bots := invoke (Call_listLiveBotIds userId) (bc_listBots client userId) in
  ret (List.map fst (List.filter (fun bot => negb (isGone bot.2)) bots)).

Definition readSpend (client : BudgetClient) (userId botId : string) : B BotSpend :=
  let! usage := invoke (Call_readSpend userId botId) (bc_getBotUsage client userId botId) in
  match usage with
  | Usage_unsupported => ret (mkBotSpend botId false 0 None)
  | Usage_supported spend maxBudget => ret (mkBotSpend botId true spend maxBudget)
  end.

Definition setCeiling (client : BudgetClient) (userId botId : string) (maxBudgetUsdCents : Z) : B unit :=
  invoke (Call_setCeiling userId botId maxBudgetUsdCents)
    (bc_updateBotBudget client userId botId maxBudgetUsdCents).

(** ** Views of the ledger *)
Inductive OutOfCreditsReason := trial_ended | plan_ended | credits_spent.
Inductive BalanceState := Bal_none | Bal_ok | Bal_low | Bal_out (reason : OutOfCreditsReason).

Record CreditSummary := mkSummary {
  sm_available : Z;
  sm_topupAvailable : Z;
  sm_allowance : Z;
  sm_consumed : Z;
  sm_unallocated : Z;
  sm_balance : BalanceState;
  sm_trial : TrialState;
  sm_grants : list CreditGrantView;
  sm_runwayDays : option Z;
  sm_asOf : Z;
  sm_syncedAt : option Z;
  sm_stale : bool;
}.

Definition outOfCreditsReason (grants : list CreditGrant) : OutOfCreditsReason :=
  if List.forallb (fun g => g_kind g =e G_trial) grants then trial_ended
  else
    match List.hd_error (orderDesc g_grantedAt (List.filter (fun g => g_kind g =e G_plan) grants)) with
    | Some latestPlan =>
        if g_usedCredits latestPlan <? g_credits latestPlan then plan_ended else credits_spent
    | None => credits_spent
    end.

(** [available <= allowance * LOW_BALANCE_RATIO] with the ratio one fifth. *)
Definition balanceStateOf (grants : list CreditGrant) (metered : bool) (available allowance : Z) : BalanceState :=
  match grants with
  | [] => if metered then Bal_out credits_spent else Bal_none
  | _ =>
      if allowance =? 0 then Bal_out (outOfCreditsReason grants)
      else if QArith_base.Qle_bool (QArith_base.inject_Z available)
                (QArith_base.Qmult (QArith_base.inject_Z allowance) LOW_BALANCE_RATIO)
      then Bal_low else Bal_ok
  end.

(** [Math.ceil(ms / DAY_MS)]. *)
Definition ceilDays (ms : Z) : Z := - ((- ms) / DAY_MS).

Definition trialStateOf (grants : list CreditGrant) (now : Z) : TrialState :=
  match List.find (fun g => g_kind g =e G_trial) grants with
  | None => Trial_available
  | Some trial =>
      match g_expiresAt trial with
      | Some e =>
          if isGrantLive trial now
          then Trial_active e (remainingCredits trial) (ceilDays (e - now))
          else Trial_used
      | None => Trial_used
      end
  end.

Definition toGrantView (now : Z) (g : CreditGrant) : CreditGrantView :=
  mkGrantView (g_id g) (g_kind g) (g_credits g) (g_usedCredits g) (g_grantedAt g) (g_expiresAt g)
    (periodEndOf (g_kind g) (g_expiresAt g)) (isGrantLive g now)
    (isInCurrentPeriod (g_kind g) (g_expiresAt g) now).

Definition latestSync (cursors : list CreditUsageCursor) : option Z :=
  List.fold_left (fun latest c =>
    match latest with
    | None => Some (u_syncedAt c)
    | Some t => if t <? u_syncedAt c then Some (u_syncedAt c) else latest
    end) cursors None.

Definition summarize (now : Z) (grants : list CreditGrant) (cursors : list CreditUsageCursor) (stale : bool)
  : CreditSummary :=
  let available := availableCredits grants now in
  let allowance := currentAllowance grants now in
  mkSummary available
    (availableCredits (List.filter (fun g => g_kind g =e G_topup) grants) now)
    allowance
    (List.fold_left (fun sum c => sum + u_consumedCredits c) cursors 0)
    (List.fold_left (fun sum c => sum + u_unallocatedCredits c) cursors 0)
    (balanceStateOf grants (match cursors with [] => false | _ => true end) available allowance)
    (trialStateOf grants now)
    (List.map (toGrantView now) grants)
    (runwayDays grants available now)
    now (latestSync cursors) stale.

Definition markStale (s : CreditSummary) : CreditSummary :=
  mkSummary (sm_available s) (sm_topupAvailable s) (sm_allowance s) (sm_consumed s) (sm_unallocated s)
    (sm_balance s) (sm_trial s) (sm_grants s) (sm_runwayDays s) (sm_asOf s) (sm_syncedAt s) true.

Definition withTrial (trial : TrialState) (s : CreditSummary) : CreditSummary :=
  mkSummary (sm_available s) (sm_topupAvailable s) (sm_allowance s) (sm_consumed s) (sm_unallocated s)
    (sm_balance s) trial (sm_grants s) (sm_runwayDays s) (sm_asOf s) (sm_syncedAt s) (sm_stale s).

(** ** The service *)
Definition isSome {A} (o : option A) : bool := match o with Some _ => true | None => false end.

Definition trialState (userId : string) : B TrialState :=
  let! grants := listGrantsByUserId userId in
  let! t := now in
  ret (trialStateOf grants t).

Definition startTrial (userId : string) : B bool :=
  let! t := now in
  let! grant := insertIfAbsent (mkNewGrant userId G_trial TRIAL_CREDITS ("trial:" ++ userId)%string
                                  (Some (t + TRIAL_DAYS * DAY_MS))) in
  ret (isSome grant).

Definition grantPlanCredits (userId : string) (credits expiresAt : Z) (sourceRef : string) : B bool :=
  let! grant := insertIfAbsent (mkNewGrant userId G_plan credits sourceRef (Some expiresAt)) in
  ret (isSome grant).

Definition revokeUnused (sourceRefs : list string) : B (list string) := revokeUnusedGrants sourceRefs.

Definition grantTopup (userId : string) (credits : Z) (sourceRef : string) : B bool :=
  let! grant := insertIfAbsent (mkNewGrant userId G_topup credits sourceRef None) in
  ret (isSome grant).

Definition summary (userId : string) : B CreditSummary :=
  let! grants := listGrantsByUserId userId in
  let! cursors := listCursorsByUserId userId in
  let! t := now in
  ret (summarize t grants cursors false).

(** Keys of a [Map] built from a list: first occurrences. *)
Definition mapKeys (l : list string) : list string :=
  List.fold_left (fun acc x => if List.existsb (str_eqb x) acc then acc else acc ++ [x]) l [].

Definition summaries (userIds : list string) : B (list (string * CreditSummary)) :=
  let! grants := listGrantsByUserIds userIds in
  let! cursors := listCursorsByUserIds userIds in
  let! t := now in
  ret (List.map (fun userId => (userId,
         summarize t (List.filter (fun g => str_eqb (g_userId g) userId) grants)
                     (List.filter (fun c => str_eqb (u_userId c) userId) cursors) false))
       (mapKeys userIds)).

Definition consumptionDelta (cursor : option CreditUsageCursor) (spend : BotSpend) : Z :=
  match cursor with
  | None => creditsFromUsdCents (sp_spendUsdCents spend)
  | Some c =>
      let restarted := sp_spendUsdCents spend <? u_lastSpendUsdCents c in
      creditsFromUsdCents (if restarted then sp_spendUsdCents spend
                           else sp_spendUsdCents spend - u_lastSpendUsdCents c)
  end.

Record BotSyncResult := mkBotSync { bs_cursor : option CreditUsageCursor; bs_grants : list CreditGrant }.

(** The retry loop; [attempts] counts down from [MAX_ADVANCE_ATTEMPTS]. *)
Fixpoint advanceLoop (attempts : nat) (userId botId : string) (spend : BotSpend)
    (current : option CreditUsageCursor) (grants : list CreditGrant) : B BotSyncResult :=
  match attempts with
  | O => throw (JsError ("credit sync for bot " ++ botId ++ " lost the race 3 times")%string)
  | S attempts' =>
      let delta := consumptionDelta current spend in
      if isSome current && (delta =? 0) then
        let! reread := listGrantsByUserId userId in
        ret (mkBotSync current reread)
      else
        let! t := now in
        match attributeConsumption grants delta
                (match current with Some c => u_syncedAt c | None => t end) with
        | None => throw (JsError "consumed must be a non-negative integer")
        | Some attribution =>
            let! advanced := advanceUsage (mkAdvance botId userId
              (match current with Some c => u_version c | None => 0 end)
              (sp_spendUsdCents spend) delta (unallocated attribution) (attributions attribution) t) in
            if advanced then
              let! cursor := findCursorByBotId botId in
              let! reread := listGrantsByUserId userId in
              ret (mkBotSync cursor reread)
            else
              let! current' := findCursorByBotId botId in
              let! grants' := listGrantsByUserId userId in
              advanceLoop attempts' userId botId spend current' grants'
        end
  end.

Definition advanceCursor (userId botId : string) (spend : BotSpend) (grants : list CreditGrant)
  : B BotSyncResult :=
  let! current := findCursorByBotId botId in
  advanceLoop MAX_ADVANCE_ATTEMPTS userId botId spend current grants.

Definition syncBot (client : BudgetClient) (userId botId : string) (grants : list CreditGrant)
  : B BotSyncResult :=
  let! spend := readSpend client userId botId in
  if negb (sp_supported spend) then ret (mkBotSync None grants)
  else
    let! advanced := advanceCursor userId botId spend grants in
    let! t := now in
    let ceiling := sp_spendUsdCents spend + usdCentsFromCredits (availableCredits (bs_grants advanced) t) in
    (when negb (oz_eqb (sp_maxBudgetUsdCents spend) (Some ceiling)) do
       setCeiling client userId botId ceiling) ;;;
    ret advanced.

(** The state of [sync]'s loop over the bots. *)
Record SyncState := mkSyncState {
  ss_grants : list CreditGrant; ss_cursors : list CreditUsageCursor; ss_stale : bool }.

Definition syncStep (client : BudgetClient) (userId : string) (s : SyncState) (botId : string) : B SyncState :=
  catch
    (let! result := syncBot client userId botId (ss_grants s) in
     ret (mkSyncState (bs_grants result)
            (match bs_cursor result with Some c => ss_cursors s ++ [c] | None => ss_cursors s end)
            (ss_stale s)))
    (fun _ => ret (mkSyncState (ss_grants s) (ss_cursors s) true)).

Definition sync (client : BudgetClient) (userId : string) : B CreditSummary :=
  let! grants := listGrantsByUserId userId in
  let! botIds := listLiveBotIds client userId in
  let! s := foldM (syncStep client userId) (mkSyncState grants [] false) botIds in
  let! t := now in
  ret (summarize t (ss_grants s) (ss_cursors s) (ss_stale s)).

Definition grantByAdmin (client : BudgetClient) (userId : string) (credits : Z) (ref actorId : string)
  : B CreditSummary :=
  let! _ := insertIfAbsent (mkNewGrant userId G_topup credits ("admin:" ++ ref)%string None) in
  catch (sync client userId)
    (fun _ => let! s := summary userId in ret (markStale s)).

Definition settleBot (client : BudgetClient) (userId botId : string) : B unit :=
  let! grants := listGrantsByUserId userId in
  let! spend := readSpend client userId botId in
  if negb (sp_supported spend) then ret tt
  else advanceCursor userId botId spend grants ;;; ret tt.

Record SyncAllResult := mkSyncAll { sa_users : Z; sa_failures : list string }.

Definition syncAll (client : BudgetClient) : B SyncAllResult :=
  let! userIds := listMeteredUserIds in
  let! failures := foldM (fun failures userId =>
    catch (let! s := sync client userId in
           ret (if sm_stale s then failures ++ [userId] else failures))
          (fun _ => ret (failures ++ [userId]))) [] userIds in
  ret (mkSyncAll (Z.of_nat (length userIds)) failures).
