(* ===== verification/CreditsProps.v ===== *)
(** What the credit ledger guarantees: every operation of [Credits] keeps the
    store's invariant whatever runs beside it, and a sync charges each unit of
    spend once. *)
From Stdlib Require Import Permutation.
From S2P Require Import Prelude Dates Pricing Domain Entitlement Allocation CreditViews Store StoreInv Credits.
From stdpp Require Import list.
#[local] Open Scope Z_scope.

(** ** Guarantees *)
Lemma attribution_advanceOk grants delta asOf r botId userId version spend t :
  attributeConsumption grants delta asOf = Some r ->
  advanceOk (mkAdvance botId userId version spend delta (unallocated r) (attributions r) t).
Proof.
  unfold attributeConsumption. destruct (delta <? 0) eqn:Hd; [discriminate|]. intros [= <-]. bools.
  destruct (attributeLoop_conserves (consumptionOrder grants) delta asOf Hd) as [H1 H2].
  constructor; simpl; [| lia | exact H1].
  apply Forall_forall. intros a Ha. apply (attributeLoop_nonneg (consumptionOrder grants) delta asOf a Hd).
  apply list_elem_of_In, Ha.
Qed.

Section Guarantees.
Context {G : Db -> Db -> Prop} `{HG : !StatementsIn G}.
Variable client : BudgetClient.

Lemma ok_listLiveBotIds userId : Guar Inv G (listLiveBotIds client userId).
Proof. unfold listLiveBotIds. guar. Qed.
Lemma ok_readSpend userId botId : Guar Inv G (readSpend client userId botId).
Proof. unfold readSpend. guar. Qed.
Lemma ok_setCeiling userId botId c : Guar Inv G (setCeiling client userId botId c).
Proof. unfold setCeiling. guar. Qed.
Lemma ok_listGrantsByUserId userId : Guar Inv G (listGrantsByUserId userId).
Proof. unfold listGrantsByUserId. guar. Qed.
Lemma ok_listCursorsByUserId userId : Guar Inv G (listCursorsByUserId userId).
Proof. unfold listCursorsByUserId. guar. Qed.
Lemma ok_findCursorByBotId botId : Guar Inv G (findCursorByBotId botId).
Proof. unfold findCursorByBotId. guar. Qed.
#[local] Hint Resolve ok_listLiveBotIds ok_readSpend ok_setCeiling ok_listGrantsByUserId
  ok_listCursorsByUserId ok_findCursorByBotId : guar.

Lemma ok_trialState userId : Guar Inv G (trialState userId).
Proof. unfold trialState. guar. Qed.
Lemma ok_startTrial userId : Guar Inv G (startTrial userId).
Proof.
  unfold startTrial. guar_step; guar_step; [guar|]. guar_step; [|guar].
  apply ok_insertIfAbsent. vm_compute. discriminate.
Qed.
Lemma ok_grantPlanCredits userId credits e ref :
  0 <= credits -> Guar Inv G (grantPlanCredits userId credits e ref).
Proof. intros. unfold grantPlanCredits. guar. Qed.
Lemma ok_grantTopup userId credits ref :
  0 <= credits -> Guar Inv G (grantTopup userId credits ref).
Proof. intros. unfold grantTopup. guar. Qed.
Lemma ok_revokeUnused refs : Guar Inv G (revokeUnused refs).
Proof. unfold revokeUnused. guar. Qed.
Lemma ok_summary userId : Guar Inv G (summary userId).
Proof. unfold summary. guar. Qed.
Lemma ok_summaries userIds : Guar Inv G (summaries userIds).
Proof. unfold summaries. guar. Qed.

Lemma ok_advanceLoop attempts userId botId spend current grants :
  Guar Inv G (advanceLoop attempts userId botId spend current grants).
Proof.
  revert current grants. induction attempts as [|n IH]; intros current grants; simpl; [guar|].
  destruct (isSome current && _); [guar|]. guar_step; guar_step; [guar|].
  destruct (attributeConsumption _ _ _) as [r|] eqn:Ha; [|guar].
  guar_step; [apply ok_advanceUsage; eapply attribution_advanceOk; exact Ha|].
  guar.
Qed.

Lemma ok_advanceCursor userId botId spend grants :
  Guar Inv G (advanceCursor userId botId spend grants).
Proof. unfold advanceCursor. guar_step; guar_step; [guar|]. apply ok_advanceLoop. Qed.
#[local] Hint Resolve ok_advanceCursor : guar.

Lemma ok_syncBot userId botId grants : Guar Inv G (syncBot client userId botId grants).
Proof. unfold syncBot. guar. Qed.
#[local] Hint Resolve ok_syncBot : guar.

Lemma ok_sync userId : Guar Inv G (sync client userId).
Proof.
  unfold sync. guar_step; guar_step; [guar|]. guar_step; [guar|]. guar_step; [|guar].
  apply spec_foldM; [typeclasses eauto | | exact I]. intros s botId _ _. unfold syncStep. guar.
Qed.
#[local] Hint Resolve ok_sync ok_summary : guar.

Lemma ok_grantByAdmin userId credits ref actorId :
  0 <= credits -> Guar Inv G (grantByAdmin client userId credits ref actorId).
Proof. intros. unfold grantByAdmin. guar. Qed.
Lemma ok_settleBot userId botId : Guar Inv G (settleBot client userId botId).
Proof. unfold settleBot. guar. Qed.
Lemma ok_syncAll : Guar Inv G (syncAll client).
Proof.
  unfold syncAll, listMeteredUserIds. guar_step; guar_step. guar_step; [|guar].
  apply spec_foldM; [typeclasses eauto | | exact I]. intros s userId _ _. guar.
Qed.
End Guarantees.
#[export] Hint Resolve ok_listLiveBotIds ok_readSpend ok_setCeiling ok_listGrantsByUserId
  ok_listCursorsByUserId ok_findCursorByBotId ok_trialState ok_startTrial ok_grantPlanCredits
  ok_grantTopup ok_revokeUnused ok_summary ok_summaries ok_advanceCursor ok_syncBot ok_sync
  ok_grantByAdmin ok_settleBot ok_syncAll : guar.

(** ** One sync, alone *)
Lemma attributeLoop_ids l left asOf : 0 <= left -> NoDup (List.map g_id l) ->
  NoDup (List.map at_grantId (attributions (attributeLoop l left asOf))).
Proof.
  revert left. induction l as [|g l IH]; intros left Hl Hnd; simpl; [constructor|].
  simpl in Hnd. apply NoDup_cons in Hnd as [Hg Hnd]. rewrite list_elem_of_In in Hg.
  destruct (left =? 0) eqn:Hz; [constructor|]. bools.
  destruct (isGrantLive g asOf) eqn:Hlive; simpl; [|auto].
  pose proof (remainingCredits_live _ _ Hlive).
  constructor; [|apply IH; auto; lia]. rewrite list_elem_of_In. intros Hin. apply Hg.
  apply in_map_iff in Hin as (a & <- & Ha). apply attributeLoop_in in Ha as (g' & Hg' & -> & _); [|lia].
  apply in_map, Hg'.
Qed.

Lemma takeAll_succeeds l gs :
  NoDup (List.map g_id gs) -> NoDup (List.map at_grantId l) ->
  (forall a, In a l -> exists g, In g gs /\ g_id g = at_grantId a /\
     g_usedCredits g + at_credits a <= g_credits g) ->
  exists gs', takeAll l gs = Some gs'.
Proof.
  revert gs. induction l as [|a l IH]; intros gs Hg Hl Hall; simpl; [eauto|].
  simpl in Hl. apply NoDup_cons in Hl as [Ha Hl]. rewrite list_elem_of_In in Ha.
  destruct (Hall a (or_introl eq_refl)) as (g & Hin & Hid & Hle).
  assert (Hmatch : In (takeCredits a g) (returning (canTake a) (takeCredits a) gs)).
  { apply in_map, filter_In. split; [assumption|]. unfold canTake. rewrite Hid, str_eqb_refl. simpl.
    apply Z.leb_le. assumption. }
  destruct (returning (canTake a) (takeCredits a) gs) as [|g0 gl]; [destruct Hmatch|].
  apply IH; [rewrite (map_update_where g_id); auto | assumption|].
  intros b Hb. destruct (Hall b (or_intror Hb)) as (gb & Hgb & Hidb & Hleb).
  exists gb. split; [|auto]. apply in_update_where. exists gb. split; [assumption|].
  unfold canTake. destruct (str_eqb (g_id gb) (at_grantId a)) eqn:E; [|reflexivity].
  bools. exfalso. apply Ha. rewrite <- E, Hidb. apply in_map, Hb.
Qed.

Lemma grantsOfUsers_in users d g : In g (grantsOfUsers users d) -> In g (db_grants d).
Proof. unfold grantsOfUsers, orderAsc. rewrite isort_in. intros H. apply filter_In in H. apply H. Qed.

Lemma grantsOfUsers_ids users d : Inv d -> NoDup (List.map g_id (grantsOfUsers users d)).
Proof.
  intros Hi. unfold grantsOfUsers, orderAsc.
  rewrite (Permutation_map g_id (isort_perm _ _)). destruct (inv_grant_ids d Hi) as [_ Hnd].
  revert Hnd. generalize (db_grants d). intros l. induction l as [|g l IH]; simpl; [auto|].
  intros [Hx Hl]%NoDup_cons. destruct (List.existsb _ users); simpl; [|auto].
  constructor; [|auto]. rewrite list_elem_of_In in *. intros Hin. apply Hx.
  apply in_map_iff in Hin as (y & <- & Hy). apply in_map. apply filter_In in Hy. tauto.
Qed.

(** [attributeConsumption_spec] in the form the transaction needs. *)
Lemma attributeConsumption_parts grants delta asOf :
  NoDup (List.map g_id grants) -> 0 <= delta ->
  exists r, attributeConsumption grants delta asOf = Some r /\
    sumZ at_credits (attributions r) = delta - unallocated r /\
    unallocated r = Z.max 0 (delta - availableCredits grants asOf) /\
    NoDup (List.map at_grantId (attributions r)) /\
    (forall a, In a (attributions r) -> exists g, In g grants /\ g_id g = at_grantId a /\
       g_usedCredits g + at_credits a <= g_credits g).
Proof.
  intros Hnd Hd. pose proof (consumptionOrder_perm grants) as Hp. eexists. split.
  { unfold attributeConsumption. replace (delta <? 0) with false by (symmetry; apply Z.ltb_ge; assumption).
    reflexivity. }
  destruct (attributeLoop_conserves (consumptionOrder grants) delta asOf Hd) as [H1 H2].
  split; [lia|]. split; [rewrite availableCredits_sum, <- (sumZ_perm _ _ _ (filter_perm _ _ _ Hp)); exact H2|].
  split; [apply attributeLoop_ids; [assumption | rewrite (Permutation_map g_id Hp); assumption]|].
  intros a Ha. apply attributeLoop_in in Ha as (g & Hg & Hid & Hlive & Hle); [|assumption].
  exists g. apply (Permutation_in _ Hp) in Hg. pose proof (remainingCredits_live _ _ Hlive).
  repeat split; auto. lia.
Qed.

(** What [advanceCursor] leaves for the bot: its cursor and the amount no grant paid. *)
Definition advancedBy (d d' : Db) (botId : string) (spendUsdCents delta unpaid t : Z) : Prop :=
  exists c', List.find (ofBot botId) (db_usage d') = Some c' /\
    u_lastSpendUsdCents c' = spendUsdCents /\ u_syncedAt c' = t /\
    match List.find (ofBot botId) (db_usage d) with
    | Some c => u_consumedCredits c' = u_consumedCredits c + delta /\
                u_unallocatedCredits c' = u_unallocatedCredits c + unpaid /\
                u_version c' = u_version c + 1
    | None => u_consumedCredits c' = delta /\ u_unallocatedCredits c' = unpaid /\ u_version c' = 1
    end.

(** The cursor the sync starts from is up to date. *)
Definition upToDate (d : Db) (botId : string) (spend : BotSpend) : Prop :=
  isSome (List.find (ofBot botId) (db_usage d)) = true /\
  consumptionDelta (List.find (ofBot botId) (db_usage d)) spend = 0.

Lemma advance_tx_alone d userId botId spend t : Inv d ->
  let c := List.find (ofBot botId) (db_usage d) in
  let delta := consumptionDelta c spend in
  let asOf := match c with Some c => u_syncedAt c | None => t end in
  0 <= delta ->
  exists r, attributeConsumption (grantsOfUsers [userId] d) delta asOf = Some r /\
    unallocated r = Z.max 0 (delta - availableCredits (grantsOfUsers [userId] d) asOf) /\
    let input := mkAdvance botId userId (match c with Some c => u_version c | None => 0 end)
      (sp_spendUsdCents spend) delta (unallocated r) (attributions r) t in
    exists d', advance_tx input d = (true, d') /\
      usedTotal d' = usedTotal d + (delta - unallocated r) /\
      advancedBy d d' botId (sp_spendUsdCents spend) delta (unallocated r) t.
Proof.
  intros Hi c delta asOf Hd.
  pose proof (grantsOfUsers_ids [userId] d Hi) as Hids.
  pose proof (attributeConsumption_parts (grantsOfUsers [userId] d) delta asOf Hids Hd)
    as (r & Hr & Hsum & Hun & Hnd & Hin).
  exists r. split; [assumption|]. split; [assumption|]. cbv zeta.
  set (input := mkAdvance _ _ _ _ _ _ _ _).
  assert (Hok : advanceOk input) by (eapply attribution_advanceOk; exact Hr).
  destruct (takeAll_succeeds (attributions r) (db_grants d)) as (gs & Htake); [apply (inv_grant_ids d Hi) | assumption | |].
  { intros a Ha. destruct (Hin a Ha) as (g & Hg & ? & ?). exists g. split; [|auto].
    eapply grantsOfUsers_in. exact Hg. }
  pose proof (takeAll_ok _ _ _ (ao_credits _ Hok) (proj2 (inv_grant_ids d Hi)) (inv_grants d Hi) Htake)
    as (_ & _ & _ & _ & Hused).
  unfold advance_tx, advanceCursor_stmt, advancedBy. cbn [ad_botId input].
  subst c. destruct (List.find (ofBot botId) (db_usage d)) as [c|] eqn:Hc.
  - set (p := fun c => ofBot botId c && _).
    pose proof (List.find_some _ _ Hc) as [Hcin Hcbot].
    assert (Hp : p c = true) by (unfold p; rewrite Hcbot; cbn [ad_expectedVersion input]; apply Z.eqb_refl).
    destruct (returning p (advancedCursor input) (db_usage d)) as [|x xs] eqn:Er.
    { apply returning_nil in Er. assert (Hf : In c (List.filter p (db_usage d))) by (apply filter_In; auto).
      rewrite Er in Hf. destruct Hf. }
    cbn [negb ad_attributions input set_usage db_grants]. rewrite Htake.
    eexists. split; [reflexivity|]. split; [unfold usedTotal; simpl; simpl in Hused; lia|].
    exists (advancedCursor input c). cbn [set_grants set_usage db_usage].
    rewrite find_update_where by reflexivity. rewrite Hc, Hp. simpl. auto 10.
  - cbn [negb ad_attributions input set_usage db_grants]. rewrite Htake.
    eexists. split; [reflexivity|]. split; [unfold usedTotal; simpl; simpl in Hused; lia|].
    eexists. cbn [set_grants set_usage db_usage]. rewrite find_app, Hc. cbn [List.find ofBot u_botId].
    unfold ofBot. cbn [u_botId]. rewrite str_eqb_refl. simpl. auto 10.
Qed.

Lemma consumptionDelta_nonneg cursor spend : 0 <= sp_spendUsdCents spend -> 0 <= consumptionDelta cursor spend.
Proof.
  intros Hs. unfold consumptionDelta. destruct cursor as [c|]; rewrite creditsFromUsdCents_eq; [|lia].
  destruct (sp_spendUsdCents spend <? u_lastSpendUsdCents c) eqn:E; bools; lia.
Qed.

Lemma consumptionDelta_same c spend :
  u_lastSpendUsdCents c = sp_spendUsdCents spend -> consumptionDelta (Some c) spend = 0.
Proof.
  intros E. unfold consumptionDelta. rewrite creditsFromUsdCents_eq, E, Z.ltb_irrefl. lia.
Qed.

(** A world in which nothing else runs. *)
Definition alone (d : Db) (t : Z) (calls : list Call) : World Db Call := mkWorld d [] t calls.

Lemma advanceCursor_upToDate d t calls userId botId spend grants :
  upToDate d botId spend ->
  advanceCursor userId botId spend grants (alone d t calls)
  = (inr (mkBotSync (List.find (ofBot botId) (db_usage d)) (grantsOfUsers [userId] d)), alone d t calls).
Proof.
  intros [H1 H2]. unfold advanceCursor, findCursorByBotId, alone.
  cbv [bind query atomic w_env w_db w_now w_calls].
  destruct (List.find _ _) as [c|]; [|discriminate]. cbn [advanceLoop MAX_ADVANCE_ATTEMPTS].
  rewrite H2. reflexivity.
Qed.

(** What one metering of a bot charges, and what it leaves unpaid. *)
Definition charge (d : Db) (botId : string) (spend : BotSpend) : Z :=
  consumptionDelta (List.find (ofBot botId) (db_usage d)) spend.
Definition shortfall (d : Db) (userId botId : string) (spend : BotSpend) (t : Z) : Z :=
  Z.max 0 (charge d botId spend - availableCredits (grantsOfUsers [userId] d)
    (match List.find (ofBot botId) (db_usage d) with Some c => u_syncedAt c | None => t end)).

Lemma advanceCursor_alone d t calls userId botId spend :
  Inv d -> 0 <= sp_spendUsdCents spend ->
  exists d',
    advanceCursor userId botId spend (grantsOfUsers [userId] d) (alone d t calls)
    = (inr (mkBotSync (List.find (ofBot botId) (db_usage d')) (grantsOfUsers [userId] d')), alone d' t calls) /\
    ((upToDate d botId spend /\ d' = d) \/
     (advancedBy d d' botId (sp_spendUsdCents spend) (charge d botId spend) (shortfall d userId botId spend t) t /\
      usedTotal d' = usedTotal d + (charge d botId spend - shortfall d userId botId spend t))).
Proof.
  intros Hi Hs. unfold shortfall, charge.
  destruct (isSome (List.find (ofBot botId) (db_usage d)) && (consumptionDelta (List.find (ofBot botId) (db_usage d)) spend =? 0)) eqn:Hup.
  { bools. exists d. split; [apply advanceCursor_upToDate; split; assumption | left].
    split; [split; assumption | reflexivity]. }
  pose proof (consumptionDelta_nonneg (List.find (ofBot botId) (db_usage d)) spend Hs) as Hd.
  destruct (advance_tx_alone d userId botId spend t Hi Hd) as (r & Hr & Hun & d' & Htx & Hused & Hadv).
  exists d'. split; [|right; rewrite <- Hun; auto].
  unfold advanceCursor, findCursorByBotId, alone.
  cbv [bind query atomic w_env w_db w_now w_calls]. cbn [advanceLoop MAX_ADVANCE_ATTEMPTS].
  rewrite Hup. cbv [bind now w_now]. rewrite Hr.
  cbv [advanceUsage exec atomic w_env w_db w_now w_calls]. rewrite Htx. reflexivity.
Qed.

(** Metering a bot charges each unit of spend once.  With nothing else
    running, and whatever the ledger holds, advancing a bot's cursor to a reading
    ends (it never loses its own race) and either finds the cursor up to date and
    changes nothing, or records the reading, the charge and the part of it no
    grant could pay; the grants' use grows by exactly the charge less that part.
    Metering the same reading again, at any later time, changes nothing at all. *)
Theorem advanceCursor_once d t calls userId botId spend :
  Inv d -> 0 <= sp_spendUsdCents spend ->
  exists d' res,
    advanceCursor userId botId spend (grantsOfUsers [userId] d) (alone d t calls) = (inr res, alone d' t calls) /\
    ((upToDate d botId spend /\ d' = d) \/
     (advancedBy d d' botId (sp_spendUsdCents spend) (charge d botId spend) (shortfall d userId botId spend t) t /\
      usedTotal d' = usedTotal d + (charge d botId spend - shortfall d userId botId spend t))) /\
    forall t' calls' grants,
      advanceCursor userId botId spend grants (alone d' t' calls')
      = (inr (mkBotSync (List.find (ofBot botId) (db_usage d')) (grantsOfUsers [userId] d')), alone d' t' calls').
Proof.
  intros Hi Hs. destruct (advanceCursor_alone d t calls userId botId spend Hi Hs) as (d' & Hrun & Hcase).
  exists d'. eexists. split; [exact Hrun|]. split; [exact Hcase|].
  intros. apply advanceCursor_upToDate. destruct Hcase as [[Hup ->]|[(c' & Hc' & Hl & _) _]]; [assumption|].
  unfold upToDate. rewrite Hc'. split; [reflexivity | apply consumptionDelta_same, Hl].
Qed.

(** The gateway's ceiling never lets a bot spend credits its user does not
    have.  After a sync of a bot whose spend can be read, the budget in force at
    the gateway, set now or found already right, is the spend plus half a cent
    per credit the ledger then holds available, rounded down; so whatever the
    bot spends up to that ceiling costs at most the available credits. *)
Theorem syncBot_ceiling client d t calls userId botId spendCents maxBudget :
  Inv d -> 0 <= spendCents ->
  bc_getBotUsage client userId botId (calls ++ [Call_readSpend userId botId])
    = inr (Usage_supported spendCents maxBudget) ->
  (forall c h, bc_updateBotBudget client userId botId c h = inr tt) ->
  exists d' res calls',
    syncBot client userId botId (grantsOfUsers [userId] d) (alone d t calls) = (inr res, alone d' t calls') /\
    let available := availableCredits (grantsOfUsers [userId] d') t in
    let ceiling := spendCents + available / 2 in
    bs_grants res = grantsOfUsers [userId] d' /\
    calls' = calls ++ [Call_readSpend userId botId]
             ++ (if oz_eqb maxBudget (Some ceiling) then [] else [Call_setCeiling userId botId ceiling]) /\
    forall spent, spent <= ceiling -> creditsFromUsdCents (spent - spendCents) <= available.
Proof.
  intros Hi Hs Hread Hset.
  destruct (advanceCursor_alone d t (calls ++ [Call_readSpend userId botId]) userId botId
              (mkBotSpend botId true spendCents maxBudget) Hi Hs) as (d' & Hrun & _).
  exists d'. unfold syncBot, readSpend, setCeiling, invoke, alone in *.
  cbv [bind record w_env w_db w_now w_calls]. rewrite Hread. cbv [ret sp_supported negb now w_now].
  rewrite Hrun. cbn [bs_grants sp_spendUsdCents sp_maxBudgetUsdCents].
  rewrite usdCentsFromCredits_eq.
  assert (Hceil : forall spent, spent <= spendCents + availableCredits (grantsOfUsers [userId] d') t / 2 ->
    creditsFromUsdCents (spent - spendCents) <= availableCredits (grantsOfUsers [userId] d') t).
  { intros spent Hsp. rewrite creditsFromUsdCents_eq.
    pose proof (Z.mul_div_le (availableCredits (grantsOfUsers [userId] d') t) 2 ltac:(lia)). lia. }
  cbv zeta. destruct (oz_eqb maxBudget _) eqn:E; cbn [negb]; rewrite ?Hset;
    eexists; eexists; (split; [reflexivity|]); cbn [bs_grants]; (split; [reflexivity|]); (split; [|exact Hceil]); rewrite <- ?app_assoc; reflexivity.
Qed.
