(* ===== verification/Paddle.v ===== *)
(** Paddle: [billing/providers/paddle/config.ts], [client.ts] and [adapter.ts],
    with [lib/http/fetch-with-retry.ts].

    Waiting between two attempts and its random jitter decide nothing and are
    not modelled.  The numbers of a Paddle amount are unbounded integers. *)
From Stdlib Require Import Ascii QArith.
From S2P Require Import Prelude JsString Dates Pricing Domain Json Store Provider.
From stdpp Require Import list strings pretty.
#[local] Open Scope Z_scope.

(** ** config.ts *)
Inductive PaddleEnvironment := sandbox | production.

Record PaddleConfig := mkPaddleConfig {
  pc_environment : PaddleEnvironment;
  pc_apiKey : string;
  pc_webhookSecret : string;
  pc_priceIds : list (PlanCode * string);
  pc_topupProductId : string;
  pc_clientToken : string;
  pc_appUrl : string;
}.

Definition required (env : Env) (name : string) : Err + string :=
  match option_map trim (env name) with
  | Some value => if str_eqb value "" then inl (BillingUnavailableError ("missing env: " ++ name)%string)
                  else inr value
  | None => inl (BillingUnavailableError ("missing env: " ++ name)%string)
  end.

Definition readEnvironment (env : Env) : Err + PaddleEnvironment :=
  match required env "PADDLE_ENVIRONMENT" with
  | inl e => inl e
  | inr value =>
      if str_eqb value "sandbox" then inr sandbox
      else if str_eqb value "production" then inr production
      else inl (BillingUnavailableError "PADDLE_ENVIRONMENT must be one of sandbox, production")
  end.

Definition isLowerAlnum (c : ascii) : bool :=
  let n := Z.of_nat (nat_of_ascii c) in ((48 <=? n) && (n <=? 57)) || ((97 <=? n) && (n <=? 122)).

(** /^pri_[a-z0-9]+$/ *)
Definition isPriceId (s : string) : bool :=
  match s with
  | String a (String b (String c (String d rest))) =>
      Ascii.eqb a "p" && Ascii.eqb b "r" && Ascii.eqb c "i" && Ascii.eqb d "_"
      && negb (str_eqb rest "") && allChars isLowerAlnum rest
  | _ => false
  end.

Definition priceIdEntry (e : string * Json) : option (string * string) :=
  match e.2 with JStr s => if isPriceId s then Some (e.1, s) else None | _ => None end.

Definition readPriceIds (jsonParse : string -> option Json) (raw : string) : Err + list (PlanCode * string) :=
  match jsonParse raw with
  | None => inl (BillingUnavailableError "PADDLE_PRICE_IDS is not JSON")
  | Some json =>
      match (match json with JObj fields => mapOption priceIdEntry fields | _ => None end) with
      | None => inl (BillingUnavailableError "PADDLE_PRICE_IDS must map plan codes to pri_ ids")
      | Some entries =>
          let idOf := fun code => option_map snd (List.find (fun e => str_eqb e.1 (plan_code_str code)) entries) in
          let missing := List.filter (fun code => match idOf code with Some _ => false | None => true end) PLAN_CODES in
          match missing with
          | [] => inr (omap (fun code => option_map (fun id => (code, id)) (idOf code)) PLAN_CODES)
          | _ => inl (BillingUnavailableError
                   ("PADDLE_PRICE_IDS is missing: " ++ String.concat ", " (List.map plan_code_str missing))%string)
          end
      end
  end.

Definition readPaddleConfig (jsonParse : string -> option Json) (env : Env) : Err + PaddleConfig :=
  match readEnvironment env with inl e => inl e | inr environment =>
  match required env "PADDLE_API_KEY" with inl e => inl e | inr apiKey =>
  match required env "PADDLE_WEBHOOK_SECRET" with inl e => inl e | inr webhookSecret =>
  match required env "PADDLE_PRICE_IDS" with inl e => inl e | inr rawIds =>
  match readPriceIds jsonParse rawIds with inl e => inl e | inr priceIds =>
  match required env "PADDLE_TOPUP_PRODUCT_ID" with inl e => inl e | inr topupProductId =>
  match required env "PADDLE_CLIENT_TOKEN" with inl e => inl e | inr clientToken =>
  match readAppUrl env with inl e => inl e | inr appUrl =>
  inr (mkPaddleConfig environment apiKey webhookSecret priceIds topupProductId clientToken appUrl)
  end end end end end end end end.

(** ** client.ts *)
Definition API_BASE (e : PaddleEnvironment) : string :=
  match e with sandbox => "https://sandbox-api.paddle.com" | production => "https://api.paddle.com" end.

Definition MAX_RETRY_AFTER_MS : Q := 5000.
Definition IDEMPOTENT_ATTEMPTS : nat := 3.

Definition isRetryable (status : Z) : bool := (status =? 429) || (500 <=? status).

Section Client.
Variable pf : Platform.
Variable config : PaddleConfig.

Definition send (method url : string) (body : option Json) : B HttpAnswer :=
  invoke (Call_paddle method url body) (fun calls => inr (pf_fetch pf method url body calls)).

(** [fetchWithRetry]: [retries] attempts may still follow this one. *)
Fixpoint fetchWithRetry (retries : nat) (method url : string) (body : option Json) : B HttpAnswer :=
  let! res := send method url body in
  match retries, res with
  | O, _ => ret res
  | S n, Http_network _ => fetchWithRetry n method url body
  | S n, Http_response status retryAfter _ =>
      if negb (isRetryable status) then ret res
      else if match retryAfter with Some s => negb (Qle_bool (s * 1000) MAX_RETRY_AFTER_MS) | None => false end
      then ret res
      else fetchWithRetry n method url body
  end.

Definition paddleError (message : string) (status : option Z) (retryable : bool) (code : option string) : Err :=
  PaymentProviderError "paddle" message status retryable code.

Definition paddleRequest {A} (method path : string) (schema : Schema A) (body : option Json)
    (idempotent : bool) : B A :=
  let operation := (method ++ " " ++ before "?" path)%string in
  let! res := fetchWithRetry (if idempotent then pred IDEMPOTENT_ATTEMPTS else 0%nat) method
                (API_BASE (pc_environment config) ++ path)%string body in
  match res with
  | Http_network name => throw (paddleError (operation ++ ": " ++ name)%string None true None)
  | Http_response status _ json =>
      let json := match json with Some j => j | None => JNull end in
      if negb ((200 <=? status) && (status <=? 299)) then
        let providerCode := PaddleErrorSchema json in
        throw (paddleError
          (operation ++ ": " ++ match providerCode with Some c => c | None => "HTTP " ++ pretty status end)%string
          (Some status) ((status =? 429) || (500 <=? status)) providerCode)
      else match field "data" schema json with
           | Some a => ret a
           | None => throw (paddleError (operation ++ ": unexpected response shape")%string (Some status) false None)
           end
  end.

Inductive PaddleProrationMode := prorated_immediately | do_not_bill.
Definition modeStr (m : PaddleProrationMode) : string :=
  match m with prorated_immediately => "prorated_immediately" | do_not_bill => "do_not_bill" end.

Inductive PaddleTransactionItem :=
| Item_price (priceId : string)
| Item_custom (name description productId amount currencyCode : string).

Definition itemJson (i : PaddleTransactionItem) : Json :=
  match i with
  | Item_price id => JObj [("price_id", JStr id); ("quantity", JNum 1)]%string
  | Item_custom name description productId amount currency =>
      JObj [("quantity", JNum 1);
            ("price", JObj [("name", JStr name); ("description", JStr description);
              ("product_id", JStr productId);
              ("unit_price", JObj [("amount", JStr amount); ("currency_code", JStr currency)]);
              ("tax_mode", JStr "internal"); ("quantity", SINGLE_UNIT)])]%string
  end.

Definition subscriptionPath (id : string) : string := ("/subscriptions/" ++ encodeURIComponent id)%string.

Definition priceChangeBody (priceId : string) (mode : PaddleProrationMode) : Json :=
  JObj [("items", JArr [JObj [("price_id", JStr priceId); ("quantity", JNum 1)]]);
        ("proration_billing_mode", JStr (modeStr mode)); ("on_payment_failure", JStr "prevent_change")]%string.

Definition createTransaction (item : PaddleTransactionItem) (currencyCode checkoutSessionId : string)
  : B PaddleTransaction :=
  paddleRequest "POST" "/transactions" (PaddleTransactionSchema (pf_wire pf))
    (Some (JObj [("items", JArr [itemJson item]); ("currency_code", JStr currencyCode);
                 ("custom_data", JObj [(CHECKOUT_SESSION_KEY, JStr checkoutSessionId)])]%string)) false.

Definition getPrice (id : string) : B PaddlePrice :=
  paddleRequest "GET" ("/prices/" ++ encodeURIComponent id)%string PaddlePriceSchema None true.

Definition getSubscription (id : string) : B PaddleSubscription :=
  paddleRequest "GET" (subscriptionPath id) (PaddleSubscriptionSchema (pf_wire pf)) None true.

Definition cancelAtPeriodEnd (id : string) : B PaddleSubscription :=
  paddleRequest "POST" (subscriptionPath id ++ "/cancel")%string (PaddleSubscriptionSchema (pf_wire pf))
    (Some (JObj [("effective_from", JStr "next_billing_period")]%string)) true.

Definition removeScheduledChange (id : string) : B PaddleSubscription :=
  paddleRequest "PATCH" (subscriptionPath id) (PaddleSubscriptionSchema (pf_wire pf))
    (Some (JObj [("scheduled_change", JNull)]%string)) true.

Definition previewPriceChange (id priceId : string) (mode : PaddleProrationMode) : B PaddleSubscriptionPreview :=
  paddleRequest "PATCH" (subscriptionPath id ++ "/preview")%string (PaddleSubscriptionPreviewSchema (pf_wire pf))
    (Some (priceChangeBody priceId mode)) true.

(** A charging call is sent once. *)
Definition changePrice (id priceId : string) (mode : PaddleProrationMode) : B PaddleSubscription :=
  let charges := match mode with prorated_immediately => true | do_not_bill => false end in
  paddleRequest "PATCH" (subscriptionPath id) (PaddleSubscriptionSchema (pf_wire pf))
    (Some (priceChangeBody priceId mode)) (negb charges).

Definition createPortalUrl (customerId subscriptionId : string) : B string :=
  paddleRequest "POST" ("/customers/" ++ encodeURIComponent customerId ++ "/portal-sessions")%string
    (PaddlePortalSessionSchema (pf_wire pf))
    (Some (JObj [("subscription_ids", JArr [JStr subscriptionId])]%string)) true.

Definition getPaymentMethodUpdateTransaction (subscriptionId : string) : B PaddleTransaction :=
  paddleRequest "GET" (subscriptionPath subscriptionId ++ "/update-payment-method-transaction")%string
    (PaddleTransactionSchema (pf_wire pf)) None true.

(** ** adapter.ts *)
Definition PADDLE_PAY_PATH : string := "/pay".
Definition SIGNATURE_TOLERANCE_MS : Z := 5 * 60 * 1000.
Definition CHECKOUT_ORIGIN : string := "api".
Definition RENEWAL_ORIGIN : string := "subscription_recurring".
Definition PLAN_CHANGE_ORIGIN : string := "subscription_update".

Definition PRORATION_MODE (b : PlanChangeBilling) : PaddleProrationMode :=
  match b with prorate_now => prorated_immediately | at_renewal => do_not_bill end.

Definition planChangeError (code : string) : option Err :=
  if str_eqb code "subscription_payment_declined" then Some PaymentDeclinedError
  else if str_eqb code "subscription_update_when_past_due" then Some PaymentOverdueError
  else if str_eqb code "subscription_locked_renewal" then Some RenewalImminentError
  else if str_eqb code "subscription_update_transaction_balance_less_than_charge_limit"
  then Some RenewalImminentError
  else None.

Definition planChangeCall {A} (call : B A) : B A :=
  catch call (fun err =>
    throw (match err with
           | PaymentProviderError _ _ _ _ (Some code) =>
               match planChangeError code with Some known => known | None => err end
           | _ => err
           end)).

Definition SUBSCRIPTION_EVENTS : list string :=
  ["subscription.created"; "subscription.updated"; "subscription.activated"; "subscription.canceled";
   "subscription.past_due"; "subscription.paused"; "subscription.resumed"; "subscription.trialing"].
Definition ADJUSTMENT_EVENTS : list string := ["adjustment.created"; "adjustment.updated"].
Definition MONEY_BACK_ACTIONS : list string := ["refund"; "chargeback"; "chargeback_warning"].

Definition member (s : string) (l : list string) : bool := List.existsb (str_eqb s) l.

Definition paddleCapabilities : ProviderCapabilities := mkCapabilities true true true true false true.

(** The inverse of the price map; a later plan wins a shared price. *)
Definition planByPriceId (priceId : string) : option PlanCode :=
  option_map fst (List.find (fun p => str_eqb p.2 priceId) (List.rev (pc_priceIds config))).

Definition paddleCheckoutUrl (checkoutSessionId : string) : B string :=
  ret (pf_resolveUrl pf PADDLE_PAY_PATH (pc_appUrl config) ++ "?session=" ++ encodeURIComponent checkoutSessionId)%string.

Definition priceIdFor (productCode : string) : B string :=
  match match isPlanCode productCode with
        | Some code => option_map snd (List.find (fun p => bool_decide (p.1 = code)) (pc_priceIds config))
        | None => None
        end with
  | Some priceId => ret priceId
  | None => throw (JsError ("no Paddle price configured for plan " ++ productCode)%string)
  end.

Definition itemFor (input : CreateCheckoutInput) : B PaddleTransactionItem :=
  match ck_mode input with
  | mode_subscription => let! priceId := priceIdFor (ck_productCode input) in ret (Item_price priceId)
  | mode_one_time =>
      ret (Item_custom (localeEnUS (ck_credits input) ++ " credits")%string (ck_productCode input)
             (pc_topupProductId config) (pretty (ck_amountAgorot input)) (ck_currency input))
  end.

Definition paddleCreateCheckout (input : CreateCheckoutInput) : B CreateCheckoutResult :=
  let! item := itemFor input in
  let! transaction := createTransaction item (ck_currency input) (ck_checkoutSessionId input) in
  let! url := paddleCheckoutUrl (ck_checkoutSessionId input) in
  ret (mkCheckoutResult url (Some (tx_id transaction))).

Definition planTagOf (price : option PaddlePrice) : option PlanCode :=
  match price with
  | Some p =>
      match pr_custom_data p with
      | Some fields =>
          match lookupField PRICE_PLAN_KEY fields with Some (JStr tag) => isPlanCode tag | _ => None end
      | None => None
      end
  | None => None
  end.

Definition hasPrice (priceId : string) (item : PaddleItem) : bool :=
  match item with Some p => str_eqb (pr_id p) priceId | None => false end.

Definition planOfPrice (priceId : string) (items : list PaddleItem) : option PlanCode :=
  match planTagOf (match List.find (hasPrice priceId) items with Some i => i | None => None end) with
  | Some code => Some code
  | None => planByPriceId priceId
  end.

Definition planOf (items : list PaddleItem) : option PlanCode :=
  match items with
  | Some p :: _ => planOfPrice (pr_id p) items
  | _ => None
  end.

Definition resolvePlanOfPrice (priceId : string) (items : list PaddleItem) : B (option PlanCode) :=
  match planOfPrice priceId items with
  | Some code => ret (Some code)
  | None => let! price := getPrice priceId in ret (planTagOf (Some price))
  end.

Fixpoint prorationLines (lineItems : list PaddleLineItem) (items : list PaddleItem) : B (option (list ProrationLine)) :=
  match lineItems with
  | [] => ret (Some [])
  | line :: rest =>
      let! planCode := resolvePlanOfPrice (li_price_id line) items in
      match planCode with
      | None => ret None
      | Some code =>
          let! lines := prorationLines rest items in
          ret (option_map (fun ls => mkProrationLine code (li_quantity line)
                 (match li_rate line with Some rate => rate | None => 1 end) :: ls) lines)
      end
  end.

(** The price of the only item; [None] when the charge is not a single priced item. *)
Definition listAmountOf (items : list PaddleItem) : option Z :=
  match items with
  | [Some price] => pr_unit_price price
  | _ => None
  end.

Definition toSubscription (subscription : PaddleSubscription) : option ProviderSubscription :=
  match planOf (su_items subscription) with
  | None => None
  | Some planCode =>
      let paidUntil := option_map (fun period =>
        if su_status subscription =e S_past_due then pe_starts_at period else pe_ends_at period)
        (su_current_billing_period subscription) in
      Some (mkProviderSubscription (su_id subscription) (Some (su_customer_id subscription))
        (plan_code_str planCode) (su_status subscription)
        ((su_status subscription =e S_canceled) ||
         match su_scheduled_change subscription with Some act_cancel => true | _ => false end)
        paidUntil None (su_updated_at subscription))
  end.

Definition fromApi (subscription : PaddleSubscription) : B ProviderSubscription :=
  match toSubscription subscription with
  | Some snapshot => ret snapshot
  | None => throw (paddleError ("subscription " ++ su_id subscription ++ " is on a price with no plan")%string
                     None false None)
  end.

Definition paddleCancelSubscription (id : string) : B (option ProviderSubscription) :=
  let! current := getSubscription id in
  if su_status current =e S_past_due then throw PaymentOverdueError
  else
    let! cancelled := cancelAtPeriodEnd id in
    let! snapshot := fromApi cancelled in
    ret (Some snapshot).

Definition paddleResumeSubscription (id : string) : B (option ProviderSubscription) :=
  let! resumed := removeScheduledChange id in
  let! snapshot := fromApi resumed in
  ret (Some snapshot).

Definition paddlePreviewPlanChange (id planCode : string) (billing : PlanChangeBilling) : B ProviderPlanChangePreview :=
  let! preview := planChangeCall
    (let! priceId := priceIdFor planCode in previewPriceChange id priceId (PRORATION_MODE billing)) in
  let! lines := match vw_immediate preview with
                | Some (_, lineItems) => prorationLines lineItems []
                | None => ret (Some [])
                end in
  match lines with
  | None => throw (paddleError ("plan change on subscription " ++ id ++ " prices a plan we do not sell")%string
                     None false None)
  | Some lines =>
      ret (mkPreview (option_map fst (vw_immediate preview))
             (Z.abs (match vw_credit preview with Some c => c | None => 0 end)) lines
             (vw_next_total preview) (vw_next_billed_at preview))
  end.

Definition paddleChangePlan (id planCode : string) (billing : PlanChangeBilling) : B ProviderSubscription :=
  let! changed := planChangeCall
    (let! priceId := priceIdFor planCode in changePrice id priceId (PRORATION_MODE billing)) in
  fromApi changed.

Definition paddleCustomerPortalUrl (id : string) : B (option string) :=
  let! subscription := getSubscription id in
  let! url := createPortalUrl (su_customer_id subscription) id in
  ret (Some url).

Definition paddleUpdatePaymentMethodUrl (id returnUrl : string) : B (option string) :=
  let! transaction := getPaymentMethodUpdateTransaction id in
  ret (tx_checkout_url transaction).

(** [part.split(EQ, 2)]: the key, and the value up to a second separator. *)
Definition splitPart (part : string) : string * option string :=
  match splitOn "=" part with
  | [] => (EmptyString, None)
  | [k] => (k, None)
  | k :: v :: _ => (k, Some v)
  end.

Definition verifyPaddle (now : Z) (request : WebhookRequest) : Err + unit :=
  match wr_header request PADDLE_SIGNATURE_HEADER with
  | None => inl (WebhookVerificationError "missing signature")
  | Some header =>
      if str_eqb header "" then inl (WebhookVerificationError "missing signature")
      else
        let parts := List.map splitPart (splitOn ";" header) in
        let ts := match List.find (fun p => str_eqb p.1 "ts") parts with Some (_, v) => v | None => None end in
        let signatures := List.map (fun p => match p.2 with Some v => v | None => EmptyString end)
                            (List.filter (fun p => str_eqb p.1 "h1") parts) in
        match ts, match ts with Some s => decimal s | None => None end, signatures with
        | Some ts, Some seconds, _ :: _ =>
            if SIGNATURE_TOLERANCE_MS <? Z.abs (now - seconds * 1000)
            then inl (WebhookVerificationError "signature timestamp outside tolerance")
            else
              let signed := (ts ++ ":" ++ wr_rawBody request)%string in
              if List.existsb (fun signature =>
                   verifyBodySignature (pf_hmacHex pf) (pc_webhookSecret config) signed (Some signature)) signatures
              then inr tt
              else inl (WebhookVerificationError "bad signature")
        | _, _, _ => inl (WebhookVerificationError "malformed signature")
        end
  end.

Definition parseEnvelope (rawBody : string) : Err + (EventBase * Json) :=
  match pf_jsonParse pf rawBody with
  | None => inl (MalformedWebhookError "body is not JSON")
  | Some json =>
      match PaddleEnvelopeSchema (pf_wire pf) json with
      | None => inl (MalformedWebhookError "unexpected envelope")
      | Some e => inr (mkEventBase (en_event_id e) (en_event_type e) (en_occurred_at e) rawBody, en_data e)
      end
  end.

Definition parseData {A} (schema : Schema A) (data : Json) : B A :=
  match schema data with
  | Some a => ret a
  | None => throw (MalformedWebhookError "unexpected data shape")
  end.

Definition toProration (base : EventBase) (transaction : PaddleTransaction) : B ProviderEvent :=
  match tx_subscription_id transaction, tx_details transaction with
  | Some sub, Some (total, lineItems) =>
      if str_eqb sub "" then
        throw (MalformedWebhookError "plan change charge without subscription or totals")
      else
        let! lines := prorationLines (match lineItems with Some l => l | None => [] end) (tx_items transaction) in
        match lines with
        | None => throw (MalformedWebhookError
            ("plan change charge " ++ tx_id transaction ++ " prices a plan we do not sell")%string)
        | Some lines =>
            ret (mkEvent base (Ev_prorated sub
              (mkProviderPayment (tx_id transaction) total (tx_currency_code transaction)) lines
              (option_map pe_ends_at (tx_billing_period transaction))) None)
        end
  | _, _ => throw (MalformedWebhookError "plan change charge without subscription or totals")
  end.

Definition toPayment (base : EventBase) (transaction : PaddleTransaction) : B (option ProviderEvent) :=
  if str_eqb (tx_origin transaction) PLAN_CHANGE_ORIGIN then
    let! event := toProration base transaction in ret (Some event)
  else
    let fromCheckout := str_eqb (tx_origin transaction) CHECKOUT_ORIGIN in
    if negb fromCheckout && negb (str_eqb (tx_origin transaction) RENEWAL_ORIGIN) then ret None
    else match tx_details transaction with
         | None => throw (MalformedWebhookError "completed transaction without totals")
         | Some (total, _) =>
             ret (Some (mkEvent base
               (Ev_payment_succeeded (mkPaymentSucceeded (tx_subscription_id transaction)
                 (tx_customer_id transaction)
                 (option_map plan_code_str (planOf (tx_items transaction)))
                 (mkProviderPayment (tx_id transaction) total (tx_currency_code transaction))
                 (listAmountOf (tx_items transaction))
                 (option_map pe_ends_at (tx_billing_period transaction))))
               (if fromCheckout then customDataSessionId (pf_wire pf) (tx_custom_data transaction) else None)))
         end.

Definition toProviderEvent (base : EventBase) (data : Json) : B (option ProviderEvent) :=
  if str_eqb (eb_eventType base) "transaction.completed" then
    let! transaction := parseData (PaddleTransactionSchema (pf_wire pf)) data in
    toPayment base transaction
  else if member (eb_eventType base) SUBSCRIPTION_EVENTS then
    let! subscription := parseData (PaddleSubscriptionSchema (pf_wire pf)) data in
    match toSubscription subscription with
    | None => throw (MalformedWebhookError
        ("subscription " ++ su_id subscription ++ " is on a price with no plan")%string)
    | Some snapshot =>
        ret (Some (mkEvent base (Ev_snapshot snapshot)
                     (customDataSessionId (pf_wire pf) (su_custom_data subscription))))
    end
  else if member (eb_eventType base) ADJUSTMENT_EVENTS then
    let! adjustment := parseData PaddleAdjustmentSchema data in
    if negb (member (aj_action adjustment) MONEY_BACK_ACTIONS) || negb (str_eqb (aj_status adjustment) "approved")
    then ret None
    else ret (Some (mkEvent base
           (Ev_refunded (aj_transaction_id adjustment) (aj_subscription_id adjustment)
              (ostr_eqb (aj_type adjustment) (Some "full"%string))) None))
  else ret None.

Definition paddleParseWebhook (request : WebhookRequest) : B ProviderEvent :=
  let! t := now in
  let! _ := lift (verifyPaddle t request) in
  let! envelope := lift (parseEnvelope (wr_rawBody request)) in
  let! event := toProviderEvent envelope.1 envelope.2 in
  ret (match event with Some e => e | None => mkEvent envelope.1 Ev_ignored None end).

Definition PaddlePaymentProvider : PaymentProvider :=
  mkProvider P_paddle true paddleCapabilities paddleCreateCheckout paddleCheckoutUrl paddleParseWebhook
    paddleCancelSubscription paddleResumeSubscription paddlePreviewPlanChange paddleChangePlan
    paddleCustomerPortalUrl paddleUpdatePaymentMethodUrl.
End Client.

(** ** The adapter keeps the provider contract *)
Section Laws.
Variable pf : Platform.
Variable config : PaddleConfig.

Lemma remote_fetchWithRetry n method url body : Remote (fetchWithRetry pf n method url body).
Proof. induction n; simpl; unfold send; remote. Qed.
#[local] Hint Resolve remote_fetchWithRetry : remote.

Lemma remote_paddleRequest {A} method path (schema : Schema A) body idempotent :
  Remote (paddleRequest pf config method path schema body idempotent).
Proof. unfold paddleRequest. remote. Qed.
#[local] Hint Resolve remote_paddleRequest : remote.

Lemma remote_prorationLines lines items : Remote (prorationLines pf config lines items).
Proof. induction lines; simpl; unfold resolvePlanOfPrice, getPrice; remote. Qed.
#[local] Hint Resolve remote_prorationLines : remote.

Lemma remote_planChangeCall {A} (call : B A) : Remote call -> Remote (planChangeCall call).
Proof. intros H. unfold planChangeCall. remote. Qed.
#[local] Hint Resolve remote_planChangeCall : remote.

Lemma remote_fromApi s : Remote (fromApi config s).
Proof. unfold fromApi. remote. Qed.
Lemma remote_priceIdFor code : Remote (priceIdFor config code).
Proof. unfold priceIdFor. remote. Qed.
#[local] Hint Resolve remote_fromApi remote_priceIdFor : remote.

#[export] Instance paddle_laws : ProviderLaws (PaddlePaymentProvider pf config).
Proof.
  constructor; intros; simpl;
    unfold paddleCreateCheckout, itemFor, priceIdFor, paddleCheckoutUrl, createTransaction, paddleParseWebhook,
      toProviderEvent, toPayment, toProration, parseData, paddleCancelSubscription, getSubscription,
      cancelAtPeriodEnd, fromApi, paddleResumeSubscription, removeScheduledChange, paddlePreviewPlanChange,
      previewPriceChange, paddleChangePlan, changePrice, paddleCustomerPortalUrl, createPortalUrl,
      paddleUpdatePaymentMethodUrl, getPaymentMethodUpdateTransaction, planChangeCall; remote.
Qed.
End Laws.
