(* ===== verification/Mock.v ===== *)
(** The mock gateway of development: [billing/providers/mock/config.ts] and
    [billing/providers/mock/adapter.ts]. *)
From S2P Require Import Prelude JsString Dates Pricing Domain Json Store Provider.
From stdpp Require Import list strings.
#[local] Open Scope Z_scope.

(** ** config.ts *)
Record MockProviderConfig := mkMockConfig { mc_webhookSecret : string; mc_appUrl : string }.

Definition MIN_SECRET_LENGTH : nat := 16.

Definition readMockProviderConfig (env : Env) : Err + MockProviderConfig :=
  if ostr_eqb (env "NODE_ENV"%string) (Some "production"%string)
  then inl (BillingUnavailableError "mock payment provider is not allowed in production")
  else match option_map trim (env "MOCK_PAYMENT_WEBHOOK_SECRET"%string) with
       | None => inl (BillingUnavailableError "missing env: MOCK_PAYMENT_WEBHOOK_SECRET")
       | Some secret =>
           if str_eqb secret "" then inl (BillingUnavailableError "missing env: MOCK_PAYMENT_WEBHOOK_SECRET")
           else if Nat.ltb (String.length secret) MIN_SECRET_LENGTH
           then inl (BillingUnavailableError "MOCK_PAYMENT_WEBHOOK_SECRET must be at least 16 chars")
           else match readAppUrl env with
                | inl e => inl e
                | inr appUrl => inr (mkMockConfig secret appUrl)
                end
       end.

(** ** adapter.ts *)
Definition mockCapabilities : ProviderCapabilities := mkCapabilities true true false false true false.

Definition mockCheckoutId (checkoutSessionId : string) : string := ("mock_chk_" ++ checkoutSessionId)%string.

Definition toMockPayment (p : MockPayment) : ProviderPayment :=
  mkProviderPayment (mp_id p) (mp_amountAgorot p) (mp_currency p).

Definition mockEventBody (body : MockWebhookBody) : EventBody * option string :=
  match body with
  | Mock_checkout_completed session mode subscriptionId customerId productCode payment =>
      let isSub := match mode with mock_subscription => true | mock_one_time => false end in
      (Ev_payment_succeeded (mkPaymentSucceeded
         (if isSub then subscriptionId else None) (Some customerId)
         (if isSub then Some productCode else None) (toMockPayment payment)
         (Some (mp_amountAgorot payment)) None), Some session)
  | Mock_checkout_failed session reason => (Ev_checkout_failed reason, Some session)
  | Mock_payment_succeeded sub payment =>
      (Ev_payment_succeeded (mkPaymentSucceeded (Some sub) None None (toMockPayment payment)
         (Some (mp_amountAgorot payment)) None), None)
  | Mock_payment_failed sub payment reason =>
      (Ev_payment_failed (Some sub) (option_map toMockPayment payment) reason, None)
  | Mock_subscription_canceled sub accessEndsAt => (Ev_canceled sub accessEndsAt, None)
  end.

Definition mockProviderEvent (event : MockWebhookEvent) (payload : string) : ProviderEvent :=
  let '(body, session) := mockEventBody (me_body event) in
  mkEvent (mkEventBase (me_id event) (me_type event) (me_occurredAt event) payload) body session.

Section Adapter.
Variable pf : Platform.
Variable config : MockProviderConfig.

Definition mockCheckoutUrl (checkoutSessionId : string) : B string :=
  ret (pf_resolveUrl pf "/app/billing/mock-checkout" (mc_appUrl config) ++ "?session="
       ++ encodeURIComponent checkoutSessionId)%string.

Definition mockCreateCheckout (input : CreateCheckoutInput) : B CreateCheckoutResult :=
  let! url := mockCheckoutUrl (ck_checkoutSessionId input) in
  ret (mkCheckoutResult url (Some (mockCheckoutId (ck_checkoutSessionId input)))).

Definition mockParse (request : WebhookRequest) : Err + ProviderEvent :=
  if negb (verifyBodySignature (pf_hmacHex pf) (mc_webhookSecret config) (wr_rawBody request)
             (wr_header request MOCK_SIGNATURE_HEADER))
  then inl (WebhookVerificationError "bad or missing signature")
  else match pf_jsonParse pf (wr_rawBody request) with
       | None => inl (MalformedWebhookError "body is not JSON")
       | Some json =>
           match MockWebhookSchema (pf_wire pf) json with
           | None => inl (MalformedWebhookError "unexpected payload shape")
           | Some event => inr (mockProviderEvent event (wr_rawBody request))
           end
       end.

Definition mockUnsupported {A} : B A := throw (UnsupportedBillingOperationError "changePlan" "mock").

Definition MockPaymentProvider : PaymentProvider :=
  mkProvider P_mock true mockCapabilities mockCreateCheckout mockCheckoutUrl
    (fun request => lift (mockParse request))
    (fun _ => ret None) (fun _ => ret None)
    (fun _ _ _ => mockUnsupported) (fun _ _ _ => mockUnsupported)
    (fun _ => ret None) (fun _ _ => ret None).

(** [signedWebhook]: the gateway's side of a webhook. *)
Definition signedWebhook (event : Json) : WebhookRequest :=
  let rawBody := pf_jsonStringify pf event in
  let signature := signBody (pf_hmacHex pf) (mc_webhookSecret config) rawBody in
  mkWebhookRequest rawBody
    (fun name => if str_eqb (toLowerCase name) MOCK_SIGNATURE_HEADER then Some signature else None).

#[export] Instance mock_laws : ProviderLaws MockPaymentProvider.
Proof. constructor; intros; simpl; unfold mockCreateCheckout, mockCheckoutUrl, mockUnsupported; remote. Qed.
End Adapter.
