(* ===== verification/ProviderProps.v ===== *)
(** What the payment providers promise beyond the contract of [Provider]: which
    webhooks are accepted, how often Paddle is called, and which providers a
    deployment can reach. *)
From Stdlib Require Import Ascii QArith.
From S2P Require Import Prelude JsString Dates Pricing Domain Json Store StoreInv Provider Paddle Mock.
From stdpp Require Import list strings pretty.
#[local] Open Scope Z_scope.

(** ** Signatures *)
Definition isHexDigit (c : ascii) : bool := match hexDigitOf c with Some _ => true | None => false end.

(** What a hex HMAC is: hex digits, at least two of them. *)
Definition hexDigest (s : string) : Prop := allChars isHexDigit s = true /\ (2 <= String.length s)%nat.

Lemma hex_not_white c : isHexDigit c = true -> isWhite c = false.
Proof.
  unfold isHexDigit, hexDigitOf, isWhite. intros H.
  repeat match goal with H : context [if ?b then _ else _] |- _ => destruct b eqn:?; try discriminate end;
    bools; apply orb_false_iff; split; [apply andb_false_iff; right; apply Z.leb_gt | apply Z.eqb_neq
      | apply andb_false_iff; right; apply Z.leb_gt | apply Z.eqb_neq
      | apply andb_false_iff; right; apply Z.leb_gt | apply Z.eqb_neq]; lia.
Qed.

Lemma hexDigest_trim s : hexDigest s -> trim s = s.
Proof.
  intros [H _]. apply trim_plain. induction s as [|c s IH]; [reflexivity|]. simpl in *. bools.
  rewrite hex_not_white, IH by assumption. reflexivity.
Qed.

Lemma hexDigest_bytes s : hexDigest s -> hexBytes s <> [] /\ s <> EmptyString.
Proof.
  intros [H L]. destruct s as [|a [|b s]]; simpl in L; [lia | lia |]. simpl in *. unfold isHexDigit in H.
  destruct (hexDigitOf a), (hexDigitOf b); simpl in H; try discriminate. split; discriminate.
Qed.

Lemma verifyBodySignature_iff hmacHex secret body signature :
  verifyBodySignature hmacHex secret body signature = true <->
  exists sig, signature = Some sig /\ hexBytes (trim sig) = hexBytes (hmacHex secret body) /\
              hexBytes (hmacHex secret body) <> [].
Proof.
  unfold verifyBodySignature, signBody. destruct signature as [sig|]; [|split; [discriminate | intros (? & [=] & _)]].
  destruct (str_eqb sig "") eqn:E; bools; [subst; split; [discriminate | intros (? & [= <-] & H1 & H2)]|].
  { cbn in H1. congruence. }
  split.
  - destruct (Nat.eqb _ 0 || negb _) eqn:Hl; [discriminate|]. intros H. bools. exists sig. split; [reflexivity|].
    split; [exact H|]. rewrite <- H. destruct (hexBytes (trim sig)); [discriminate | discriminate].
  - intros (s & [= <-] & H1 & H2). rewrite H1, Nat.eqb_refl. cbn [negb].
    destruct (hexBytes (hmacHex secret body)); [contradiction|]. simpl. apply bool_decide_eq_true_2. reflexivity.
Qed.

(** [signature] signs [body] under [secret]: the same non-empty byte string in hex. *)
Definition Signs (hmacHex : string -> string -> string) (secret body signature : string) : Prop :=
  hexBytes (trim signature) = hexBytes (hmacHex secret body) /\ hexBytes (hmacHex secret body) <> [].

Lemma verify_signs hmacHex secret body sig :
  verifyBodySignature hmacHex secret body (Some sig) = true <-> Signs hmacHex secret body sig.
Proof.
  rewrite verifyBodySignature_iff. unfold Signs. split; [intros (s & [= <-] & H); exact H | intros H; eauto].
Qed.

(** ** What a program returns, whatever it does *)
Definition Returns {A} (m : B A) (Q : A -> Prop) : Prop := forall w a w', m w = (inr a, w') -> Q a.

Lemma returns_ret {A} (a : A) (Q : A -> Prop) : Q a -> Returns (ret a) Q.
Proof. intros HQ w x w' [= <- _]. exact HQ. Qed.
Lemma returns_throw {A} e (Q : A -> Prop) : Returns (throw e) Q.
Proof. intros w x w' H. discriminate. Qed.
Lemma returns_bind {A X} (m : B A) (k : A -> B X) P (Q : X -> Prop) :
  Returns m P -> (forall a, P a -> Returns (k a) Q) -> Returns (bind m k) Q.
Proof.
  intros Hm Hk w x w' H. apply bind_inv in H as [(? & _ & E)|(a & w1 & H1 & H)]; [discriminate|].
  exact (Hk a (Hm _ _ _ H1) _ _ _ H).
Qed.
Lemma returns_any {A} (m : B A) : Returns m (fun _ => True).
Proof. intros ? ? ? _. exact I. Qed.

Ltac returns :=
  repeat match goal with
  | |- Returns (ret _) _ => apply returns_ret; try reflexivity
  | |- Returns (throw _) _ => apply returns_throw
  | |- Returns (bind _ _) _ => eapply returns_bind; [apply returns_any | intros ? _]
  | |- Returns (match ?x with _ => _ end) _ => destruct x
  | |- Returns (let _ := _ in _) _ => cbv zeta
  end.

Section PaddleProps.
Variable pf : Platform.
Variable config : PaddleConfig.

(** An event is handed over with the envelope it came in. *)
Definition carries (base : EventBase) (e : option ProviderEvent) : Prop :=
  match e with Some e => ev_base e = base | None => True end.

Lemma toProration_base base tx : Returns (toProration pf config base tx) (fun e => ev_base e = base).
Proof. unfold toProration. returns. Qed.

Lemma toPayment_base base tx : Returns (toPayment pf config base tx) (carries base).
Proof.
  unfold toPayment. destruct (str_eqb _ _); [|returns; exact I].
  eapply returns_bind; [apply toProration_base | intros e He; apply returns_ret; exact He].
Qed.

Lemma toProviderEvent_base base data : Returns (toProviderEvent pf config base data) (carries base).
Proof.
  unfold toProviderEvent.
  repeat match goal with |- Returns (if ?b then _ else _) _ => destruct b end;
    try (eapply returns_bind; [apply returns_any | intros ? _]); try apply toPayment_base; returns; exact I.
Qed.

(** Only a signed and fresh Paddle webhook is accepted.  The check passes
    exactly when the header carries a timestamp in whole seconds, within five
    minutes of the service's clock either way, and one of its [h1] values is the
    HMAC, under the webhook secret, of that timestamp, a colon and the raw body;
    and an event that is handed to the service carries that body. *)
Theorem paddle_webhook_authentic now_ request :
  (verifyPaddle pf config now_ request = inr tt <->
   exists header ts seconds sig,
     wr_header request PADDLE_SIGNATURE_HEADER = Some header /\
     let parts := List.map splitPart (splitOn ";" header) in
     List.find (fun p => str_eqb p.1 "ts") parts = Some ("ts"%string, Some ts) /\ decimal ts = Some seconds /\
     Z.abs (now_ - seconds * 1000) <= 5 * 60 * 1000 /\
     (exists v, In ("h1"%string, v) parts /\ sig = match v with Some s => s | None => EmptyString end) /\
     Signs (pf_hmacHex pf) (pc_webhookSecret config) (ts ++ ":" ++ wr_rawBody request) sig) /\
  forall w event w', paddleParseWebhook pf config request w = (inr event, w') ->
    verifyPaddle pf config (w_now w) request = inr tt /\ eb_payload (ev_base event) = wr_rawBody request.
Proof.
  split.
  - unfold verifyPaddle. destruct (wr_header request PADDLE_SIGNATURE_HEADER) as [header|] eqn:Hh;
      [|split; [discriminate | intros (? & ? & ? & ? & [=] & _)]].
    destruct (str_eqb header "") eqn:He; bools.
    { subst. split; [discriminate|]. intros (? & ? & ? & ? & [= <-] & Hts & _). discriminate Hts. }
    set (parts := List.map splitPart (splitOn ";" header)). split.
    + destruct (List.find (fun p => str_eqb p.1 "ts") parts) as [[k v]|] eqn:Hf; [|discriminate].
      destruct v as [ts|]; [|discriminate]. destruct (decimal ts) as [seconds|] eqn:Hd; [|discriminate].
      set (sigs := List.map _ (List.filter _ parts)). destruct sigs as [|x xs] eqn:Hs; [discriminate|].
      destruct (SIGNATURE_TOLERANCE_MS <? _) eqn:Ht; [discriminate|]. bools.
      destruct (List.existsb _ _) eqn:Hv; [|discriminate]. intros _.
      apply existsb_exists in Hv as (sig & Hin & Hv). rewrite <- Hs in Hin. apply in_map_iff in Hin as ([k1 v1] & E & Hin).
      apply filter_In in Hin as [Hin Hk]. simpl in Hk, E. bools. subst k1.
      exists header, ts, seconds, sig. split; [reflexivity|]. apply List.find_some in Hf as Hf'. destruct Hf' as [_ Hk].
      simpl in Hk. bools. subst k. split; [exact Hf|]. split; [exact Hd|]. split; [exact Ht|].
      split; [exists v1; auto | apply verify_signs, Hv].
    + intros (h & ts & seconds & sig & [= <-] & Hf & Hd & Ht & (v & Hin & Es) & Hsig). fold parts in Hf, Hin.
      rewrite Hf, Hd. set (sigs := List.map _ (List.filter _ parts)).
      assert (Hin' : In sig sigs).
      { apply in_map_iff. exists ("h1"%string, v). split; [symmetry; exact Es|]. apply filter_In. split; [exact Hin | reflexivity]. }
      destruct sigs as [|x xs] eqn:Hs; [destruct Hin'|]. rewrite <- Hs in *.
      replace (SIGNATURE_TOLERANCE_MS <? _) with false by (symmetry; apply Z.ltb_ge; exact Ht).
      replace (List.existsb _ _) with true; [reflexivity|]. symmetry. apply existsb_exists. exists sig.
      split; [exact Hin' | apply verify_signs, Hsig].
  - intros w event w' H. unfold paddleParseWebhook in H. cbv [bind now lift] in H.
    destruct (verifyPaddle pf config (w_now w) request) as [|[]]; [discriminate|]. split; [reflexivity|].
    destruct (parseEnvelope pf _) as [|[base data]] eqn:Hp; [discriminate|]. cbn [fst snd] in H.
    assert (Hbase : eb_payload base = wr_rawBody request).
    { unfold parseEnvelope in Hp. destruct (pf_jsonParse pf _); [|discriminate].
      destruct (PaddleEnvelopeSchema _ _); [|discriminate]. injection Hp as <- _. reflexivity. }
    destruct (toProviderEvent pf config base data w) as [[|e] w1] eqn:Hev; [discriminate|]. injection H as <- _.
    destruct e as [e|]; [|exact Hbase]. rewrite <- Hbase. f_equal. exact (toProviderEvent_base _ _ _ _ _ Hev).
Qed.
End PaddleProps.

(** ** How often Paddle is called *)
Section Calls.
Variable pf : Platform.
Variable config : PaddleConfig.

(** [m] makes between one and [n] calls of the world, all of them [c]. *)
Definition Sends {A} (n : nat) (c : Call) (m : B A) : Prop :=
  forall w, exists k, (1 <= k <= n)%nat /\ w_calls (m w).2 = w_calls w ++ repeat c k.

Lemma fetchWithRetry_sends n method url body :
  Sends (S n) (Call_paddle method url body) (fetchWithRetry pf n method url body).
Proof.
  induction n as [|n IH]; intros w.
  - exists 1%nat. split; [lia | reflexivity].
  - simpl. unfold send, invoke, bind at 1, record, bind at 1. cbn [w_calls].
    set (w1 := mkWorld _ _ _ _). destruct (IH w1) as (k & Hk & Hc).
    assert (Hagain : exists k, (1 <= k <= S (S n))%nat /\
      w_calls (fetchWithRetry pf n method url body w1).2 = w_calls w ++ repeat (Call_paddle method url body) k).
    { exists (S k). split; [lia|]. rewrite Hc. cbn [w1 w_calls]. rewrite <- app_assoc. reflexivity. }
    assert (Hstop : exists k, (1 <= k <= S (S n))%nat /\ w_calls w1 = w_calls w ++ repeat (Call_paddle method url body) k).
    { exists 1%nat. split; [lia | reflexivity]. }
    destruct (pf_fetch pf method url body _) as [name|status retry json]; [exact Hagain|].
    destruct (negb _); [exact Hstop|]. destruct (match retry with Some _ => _ | None => _ end); assumption.
Qed.

Lemma paddleRequest_sends {A} method path (schema : Schema A) body (idempotent : bool) :
  Sends (if idempotent then 3 else 1)%nat (Call_paddle method (API_BASE (pc_environment config) ++ path)%string body)
    (paddleRequest pf config method path schema body idempotent).
Proof.
  intros w. unfold paddleRequest, bind.
  destruct (fetchWithRetry_sends (if idempotent then pred IDEMPOTENT_ATTEMPTS else 0%nat) method
              (API_BASE (pc_environment config) ++ path)%string body w) as (k & Hk & Hc).
  exists k. split; [destruct idempotent; exact Hk|].
  destruct (fetchWithRetry _ _ _ _ _ w) as [[e|res] w1]; cbn [snd] in Hc; [exact Hc|].
  destruct res as [name|status retry json]; [exact Hc|]. cbv zeta.
  destruct (negb _); [exact Hc|]. destruct (field "data" schema _); exact Hc.
Qed.

Lemma sends_once {A} c (m : B A) w : Sends 1%nat c m -> w_calls (m w).2 = w_calls w ++ [c].
Proof. intros H. destruct (H w) as (k & Hk & ->). replace k with 1%nat by lia. reflexivity. Qed.

(** Paddle is never charged twice by a retry.  The two calls that take money,
    opening a transaction and changing a price with immediate proration, are sent
    exactly once whatever the network answers; every other call is the same
    request, sent at most three times. *)
Theorem charging_call_sent_once w :
  (forall item currency session,
     exists body, w_calls (createTransaction pf config item currency session w).2
       = w_calls w ++ [Call_paddle "POST" (API_BASE (pc_environment config) ++ "/transactions")%string (Some body)]) /\
  (forall id price, w_calls (changePrice pf config id price prorated_immediately w).2
     = w_calls w ++ [Call_paddle "PATCH" (API_BASE (pc_environment config) ++ subscriptionPath id)%string
                       (Some (priceChangeBody price prorated_immediately))]) /\
  (forall A method path (schema : Schema A) body (idempotent : bool), exists k, (1 <= k <= if idempotent then 3 else 1)%nat /\
     w_calls (paddleRequest pf config method path schema body idempotent w).2
     = w_calls w ++ repeat (Call_paddle method (API_BASE (pc_environment config) ++ path)%string body) k).
Proof.
  split; [|split].
  - intros. eexists. apply sends_once, (paddleRequest_sends _ _ _ _ false).
  - intros. apply sends_once, (paddleRequest_sends _ _ _ _ false).
  - intros. apply paddleRequest_sends.
Qed.
End Calls.

(** ** The mock gateway *)
Section MockProps.
Variable pf : Platform.
Variable config : MockProviderConfig.

(** The mock gateway's webhooks round-trip.  With a JSON codec that reads what
    it writes and an HMAC that yields a hex digest, what the gateway signs the
    adapter accepts, and hands over as the event that was sent, with the body as
    its payload; under another body or secret whose digest differs, the same
    signature is refused. *)
Theorem mock_webhook_roundtrip json event :
  pf_jsonParse pf (pf_jsonStringify pf json) = Some json ->
  hexDigest (pf_hmacHex pf (mc_webhookSecret config) (pf_jsonStringify pf json)) ->
  MockWebhookSchema (pf_wire pf) json = Some event ->
  mockParse pf config (signedWebhook pf config json) = inr (mockProviderEvent event (pf_jsonStringify pf json)) /\
  forall body, hexBytes (pf_hmacHex pf (mc_webhookSecret config) body)
      <> hexBytes (pf_hmacHex pf (mc_webhookSecret config) (pf_jsonStringify pf json)) ->
    mockParse pf config (mkWebhookRequest body (wr_header (signedWebhook pf config json)))
    = inl (WebhookVerificationError "bad or missing signature").
Proof.
  intros Hjson Hhex Hschema.
  assert (Hh : wr_header (signedWebhook pf config json) MOCK_SIGNATURE_HEADER
    = Some (pf_hmacHex pf (mc_webhookSecret config) (pf_jsonStringify pf json))) by reflexivity.
  split.
  - unfold mockParse. rewrite Hh. cbn [signedWebhook wr_rawBody].
    rewrite (proj2 (verify_signs _ _ _ _)).
    + cbn [negb]. rewrite Hjson, Hschema. reflexivity.
    + split; [rewrite hexDigest_trim by exact Hhex; reflexivity | apply hexDigest_bytes, Hhex].
  - intros body Hne. unfold mockParse. cbn [wr_rawBody wr_header]. rewrite Hh.
    replace (verifyBodySignature _ _ _ _) with false; [reflexivity|]. symmetry. apply not_true_iff_false.
    rewrite verify_signs. intros [H _]. rewrite hexDigest_trim in H by exact Hhex. congruence.
Qed.
End MockProps.

(** ** Which providers a deployment reaches *)
Section RegistryProps.
Variable factory : PaymentProviderName -> Err + PaymentProvider.

Lemma buildProviders_lookup active names ps n : NoDup names -> buildProviders factory active names = inr ps ->
  lookupProvider n ps = if List.existsb (fun m => m =e n) names then
    match factory n with
    | inr p => Some p
    | inl (BillingUnavailableError reason) => if n =e active then Some (DisabledPaymentProvider n reason) else None
    | inl _ => None
    end else None.
Proof.
  revert ps. induction names as [|m names IH]; intros ps Hnd H; simpl in H.
  { injection H as <-. reflexivity. }
  apply NoDup_cons in Hnd as [Hm Hnd]. rewrite list_elem_of_In in Hm.
  set (one := match factory m with
              | inr p => [(m, p)]
              | inl (BillingUnavailableError reason) => if m =e active then [(m, DisabledPaymentProvider m reason)] else []
              | inl _ => []
              end).
  assert (Hone : match buildProviders factory active names with inl e => inl e | inr ps' => inr (one ++ ps') end = inr ps).
  { subst one. destruct (factory m) as [e|p]; [destruct e; try discriminate; destruct (m =e active)|]; exact H. }
  destruct (buildProviders factory active names) as [|ps']; [discriminate|]. injection Hone as <-.
  specialize (IH ps' Hnd eq_refl). subst one.
  unfold lookupProvider in *. rewrite find_app. destruct (decide (n = m)) as [->|Hne].
  - assert (Hno : List.existsb (fun x => x =e m) names = false).
    { apply not_true_iff_false. intros E. apply existsb_exists in E as (x & Hx & E). bools. subst. exact (Hm Hx). }
    cbn [List.existsb]. rewrite eqe_refl. cbn [orb]. rewrite Hno in IH.
    destruct (factory m) as [e|p]; [destruct e; try exact IH; destruct (m =e active); [|exact IH]|];
      simpl; rewrite eqe_refl; reflexivity.
  - assert (Hmn : (m =e n) = false) by (apply eqe_false; congruence).
    assert (Hskip : forall x : PaymentProvider, List.find (fun q => q.1 =e n) [(m, x)] = None).
    { intros x. simpl. rewrite Hmn. reflexivity. }
    cbn [List.existsb]. rewrite Hmn. cbn [orb]. rewrite <- IH.
    destruct (factory m) as [e|p]; [destruct e; try reflexivity; destruct (m =e active); [|reflexivity]|];
      rewrite Hskip; reflexivity.
Qed.

(** A webhook reaches a provider only if the deployment configured it.  When
    a registry is built from factories that return their own, available provider,
    a name is served exactly when some configured provider has it, and a
    misconfigured active provider is replaced by one that refuses every
    operation with the reason. *)
Theorem registry_reaches_configured env r :
  (forall n p, factory n = inr p -> pv_name p = n /\ pv_available p = true) ->
  createProviderRegistry env factory = inr r ->
  (forall name p, rg_byName r name = Some p ->
     exists n, provider_str n = name /\ factory n = inr p /\ pv_available p = true) /\
  (forall n p active, resolveActiveProviderName env = inr active -> factory n = inr p ->
     rg_byName r (provider_str n) = Some p) /\
  match resolveActiveProviderName env with
  | inr active => match factory active with
                  | inr p => rg_active r = p
                  | inl (BillingUnavailableError reason) => rg_active r = DisabledPaymentProvider active reason
                  | inl _ => False
                  end
  | inl (BillingUnavailableError reason) => rg_active r = DisabledPaymentProvider P_mock reason
  | inl _ => False
  end.
Proof.
  intros Hf Hr. unfold createProviderRegistry in Hr.
  destruct (resolveActiveProviderName env) as [e|active].
  { destruct e; try discriminate. injection Hr as <-. split; [discriminate|]. split; [discriminate | reflexivity]. }
  destruct (buildProviders _ _ _) as [|ps] eqn:Hb; [discriminate|].
  assert (Hnd : NoDup PAYMENT_PROVIDERS) by (apply (bool_decide_unpack _); vm_compute; exact I).
  assert (Hall : forall n, lookupProvider n ps = match factory n with
    | inr p => Some p
    | inl (BillingUnavailableError reason) => if n =e active then Some (DisabledPaymentProvider n reason) else None
    | inl _ => None
    end).
  { intros n. rewrite (buildProviders_lookup _ _ _ n Hnd Hb). destruct n; reflexivity. }
  destruct (lookupProvider active ps) as [a|] eqn:Ha; [|discriminate]. injection Hr as <-. cbn [rg_byName rg_active].
  split; [|split].
  - intros name p H. destruct (providerNameOf name) as [n|] eqn:Hn; [|discriminate]. apply providerNameOf_str in Hn.
    destruct (lookupProvider n ps) as [q|] eqn:Hq; [|discriminate]. destruct (pv_available q) eqn:Hav; [|discriminate].
    injection H as <-. exists n. split; [exact Hn|]. split; [|exact Hav]. rewrite Hall in Hq.
    destruct (factory n) as [e|p]; [|congruence]. destruct e; try discriminate.
    destruct (n =e active); [|discriminate]. injection Hq as <-. discriminate Hav.
  - intros n p _ _ H. rewrite (proj2 (providerNameOf_str _ n) eq_refl), Hall, H, (proj2 (Hf _ _ H)). reflexivity.
  - rewrite Hall in Ha. destruct (factory active) as [e|p]; [|congruence]. destruct e; try discriminate.
    rewrite eqe_refl in Ha. congruence.
Qed.
End RegistryProps.
