(* ===== verification/Billing.v ===== *)
(** The billing service: [billing/service.ts].

    A method of [BillingService] is a program of the monad [B] with the same
    name.  [Promise.all] runs its parts in order.  [background] work is awaited
    here; its errors are caught either way.  The clock is constant within a
    request.  Logging is not modelled; [track] is recorded as a call. *)
From Stdlib Require Import QArith Qround.
From S2P Require Import Prelude JsString Dates Pricing Domain Json Entitlement Allocation CreditViews TrialKey.
From S2P Require Import Store Provider Credits.
From stdpp Require Import list strings pretty.
#[local] Open Scope Z_scope.

Definition CHECKOUT_TTL_MS : Z := HOUR_MS.
Definition REUSED_CHECKOUT_MIN_LIFETIME_MS : Z := HOUR_MS / 4.
Definition PLAN_CHANGE_RENEWAL_BUFFER_MS : Z := HOUR_MS.
Definition RENEWAL_ATTEMPTS : nat := 3.

Record SubscriptionView := mkSubscriptionView {
  sv_provider : PaymentProviderName;
  sv_planCode : string;
  sv_scheduledPlanCode : option string;
  sv_status : SubscriptionStatus;
  sv_cancelAtPeriodEnd : bool;
  sv_currentPeriodEnd : option Z;
  sv_trialEndsAt : option Z;
}.

Inductive CreditsAction := act_topup | act_subscribe | act_contact.

Record BillingStatus := mkStatus {
  bst_provider : option PaymentProviderName;
  bst_available : bool;
  bst_enforcement : bool;
  bst_entitled : bool;
  bst_reason : EntitlementReason;
  bst_paid : bool;
  bst_creditsAction : CreditsAction;
  bst_plan : Plan;
  bst_subscription : option SubscriptionView;
  bst_capabilities : ProviderCapabilities;
  bst_credits : CreditSummary;
  bst_topup : TopupTerms;
}.

Record PlanChangePreview := mkPlanChangePreview {
  pcv_plan : PlanCode;
  pcv_billing : PlanChangeBilling;
  pcv_chargeNowAgorot : option Z;
  pcv_creditAgorot : Z;
  pcv_credits : Z;
  pcv_nextChargeAgorot : option Z;
  pcv_nextChargeAt : option Z;
}.

Record PlanChange := mkPlanChange {
  ch_subscription : Subscription; ch_provider : PaymentProvider; ch_billing : PlanChangeBilling }.

Inductive WebhookOutcome := W_processed | W_duplicate | W_ignored.

Record CheckoutProduct := mkProduct {
  cp_kind : CheckoutKind;
  cp_interval : option BillingInterval;
  cp_productCode : string;
  cp_credits : Z;
  cp_amountAgorot : Z;
}.

Record Applied := mkApplied { ap_userId : option string; ap_note : option ProcessingNote }.

(** ** Pure helpers *)
Definition subscriptionProduct (plan : Plan) : CheckoutProduct :=
  mkProduct K_subscription (Some (interval plan)) (plan_code_str (plan_code plan)) (includedCredits plan)
    (planAmountAgorot plan).

Definition prorationCredits (lines : list ProrationLine) : Z :=
  let total := List.fold_left (fun sum line =>
    (sum + inject_Z (pl_quantity line) * pl_rate line * inject_Z (includedCredits (PLANS (pl_planCode line))))%Q)
    lines 0%Q in
  Z.max 0 (math_round total).

Definition planGrantRef (provider : PaymentProviderName) (paymentId : string) : string :=
  ("plan:" ++ provider_str provider ++ ":" ++ paymentId)%string.
Definition topupGrantRef (provider : PaymentProviderName) (paymentId : string) : string :=
  ("topup:" ++ provider_str provider ++ ":" ++ paymentId)%string.

Definition isContinuing (subscription : Subscription) (now : Z) : bool :=
  entitled (evaluateSubscription (Some subscription) now) && negb (sub_cancelAtPeriodEnd subscription)
  && negb (sub_status subscription =e S_canceled).

Definition matchesSession (event : PaymentSucceeded) (session : CheckoutSession) : bool :=
  let plan := if cs_kind session =e K_subscription then Some (cs_productCode session) else None in
  ostr_eqb (sc_planCode event) plan && str_eqb (pp_currency (sc_payment event)) "ILS"
  && match sc_listAmountAgorot event with Some amount => cs_amountAgorot session <=? amount | None => false end.

Definition isStale (occurredAt : Z) (existing : Subscription) : bool :=
  occurredAt <? sub_providerUpdatedAt existing.

Definition planCodeFor (event : PaymentSucceeded) (session : option CheckoutSession)
    (existing : option Subscription) : option string :=
  match session with
  | Some s => if cs_kind s =e K_subscription then Some (cs_productCode s)
              else coalesce (sc_planCode event) (option_map sub_planCode existing)
  | None => coalesce (sc_planCode event) (option_map sub_planCode existing)
  end.

Definition renewsWithin (subscription : Subscription) (now windowMs : Z) : bool :=
  match sub_currentPeriodEnd subscription with
  | None => false
  | Some e => e - now <? windowMs
  end.

Definition nextPeriodEnd (subscription : Subscription) (reported : option Z) (paidAt : Z) (plan : Plan) : Z :=
  let current := sub_currentPeriodEnd subscription in
  match reported with
  | Some r => match current with Some c => laterOf r c | None => r end
  | None =>
      let base := match current with Some c => laterOf c paidAt | None => paidAt end in
      addInterval base (interval plan)
  end.

Definition toNewPayment (provider : PaymentProviderName) (payment : ProviderPayment) (status : PaymentStatus)
    (occurredAt : Z) (userId subscriptionId planCode : option string) : NewPayment :=
  mkNewPayment userId subscriptionId provider (pp_providerPaymentId payment) status planCode
    (pp_amountAgorot payment) (pp_currency payment) occurredAt.

Definition toUpsert (provider : PaymentProviderName) (snapshot : ProviderSubscription) (userId : option string)
  : UpsertSubscriptionInput :=
  mkUpsert provider (ps_providerSubscriptionId snapshot) userId (ps_providerCustomerId snapshot)
    (ps_planCode snapshot) (ps_status snapshot) (ps_cancelAtPeriodEnd snapshot)
    (ps_currentPeriodEnd snapshot) (ps_trialEndsAt snapshot) (ps_providerUpdatedAt snapshot).

Definition toSubscriptionView (s : Subscription) : SubscriptionView :=
  mkSubscriptionView (sub_provider s) (sub_planCode s) (sub_scheduledPlanCode s) (sub_status s)
    (sub_cancelAtPeriodEnd s) (sub_currentPeriodEnd s) (sub_trialEndsAt s).

(** Patches used by the handlers. *)
Definition cancelledPatch (now : Z) : SubscriptionStatePatch :=
  mkPatch (Some S_canceled) None None (Some true) None None now.
Definition resumedPatch (now : Z) : SubscriptionStatePatch :=
  mkPatch (Some S_active) None None (Some false) None None now.

Definition newestOf (l : list Subscription) : option Subscription :=
  List.fold_left (fun newest s =>
    match newest with
    | Some n => if sub_createdAt s <=? sub_createdAt n then newest else Some s
    | None => Some s
    end) l None.

Section Service.
Variable providers : ProviderRegistry.
Variable client : BudgetClient.
Variable enforcement : bool.
Variable appUrl : string.
Variable sha256 : string -> string.

Definition byName (name : PaymentProviderName) : option PaymentProvider :=
  rg_byName providers (provider_str name).

(** ** Status *)
Definition entitlementOf (user : BillingUser) (subscription : option Subscription) (trial : TrialState)
  : B Entitlement :=
  let! t := now in
  ret (computeEntitlement (mkEntitlementInput subscription trial (bu_betaAccess user) enforcement t)).

Definition honourTrialClaim (user : BillingUser) (trial : TrialState) : B TrialState :=
  match trial with
  | Trial_available =>
      let! claim := findClaimant (trialClaimKey sha256 (bu_email user)) in
      ret (match claim with
           | None => trial
           | Some owner => if ostr_eqb owner (Some (bu_id user)) then trial else Trial_used
           end)
  | _ => ret trial
  end.

Definition buildStatus (user : BillingUser) (subscription : option Subscription) (summary : CreditSummary)
  : B BillingStatus :=
  let active := rg_active providers in
  let! trial := honourTrialClaim user (sm_trial summary) in
  let! entitlement := entitlementOf user subscription trial in
  let owner := match subscription with Some s => byName (sub_provider s) | None => None end in
  let paid := isPaidReason (reason entitlement) in
  ret (mkStatus
    (if pv_available active then Some (pv_name active) else None) (pv_available active) enforcement
    (entitled entitlement) (reason entitlement) paid
    (if negb (pv_available active) then act_contact else if paid then act_topup else act_subscribe)
    (resolvePlan (option_map sub_planCode subscription)) (option_map toSubscriptionView subscription)
    (pv_capabilities (match owner with Some p => p | None => active end))
    (withTrial trial summary) TOPUP_TERMS).

Definition statusFor (user : BillingUser) (subscription : Subscription) : B BillingStatus :=
  let! credits := summary (bu_id user) in
  buildStatus user (Some subscription) credits.

Definition getStatus (user : BillingUser) : B BillingStatus :=
  let! subscription := findCurrentByUserId (bu_id user) in
  let! credits := summary (bu_id user) in
  buildStatus user subscription credits.

Definition refreshStatus (user : BillingUser) : B BillingStatus :=
  let! subscription := findCurrentByUserId (bu_id user) in
  let! credits := catch (sync client (bu_id user))
    (fun _ => let! s := summary (bu_id user) in ret (markStale s)) in
  buildStatus user subscription credits.

Definition isEntitled (user : BillingUser) : B bool :=
  let! subscription := findCurrentByUserId (bu_id user) in
  let! state := trialState (bu_id user) in
  let! trial := honourTrialClaim user state in
  let! e := entitlementOf user subscription trial in
  ret (entitled e).

(** ** Bot lifecycle *)
Definition beforeBotCreate (user : BillingUser) : B unit :=
  let! subscription := findCurrentByUserId (bu_id user) in
  let! state := trialState (bu_id user) in
  let! trial := honourTrialClaim user state in
  match trial with
  | Trial_active _ _ _ => ret tt
  | _ =>
      let! withoutTrial := entitlementOf user subscription Trial_used in
      if isPaidReason (reason withoutTrial) then ret tt
      else
        let! claimed := (match trial with
                         | Trial_available => claimTrial (trialClaimKey sha256 (bu_email user)) (bu_id user)
                         | _ => ret false
                         end) in
        if (claimed : bool) then
          startTrial (bu_id user) ;;; record (Track_trial_started (bu_id user))
        else if negb (entitled withoutTrial) then throw TrialUnavailableError
        else ret tt
  end.

Definition afterBotCreated (userId : string) : B CreditSummary := sync client userId.
Definition beforeBotDelete (userId botId : string) : B unit := settleBot client userId botId.
Definition syncAllCredits : B SyncAllResult := syncAll client.
Definition grantCreditsByAdmin (userId : string) (credits : Z) (ref actorId : string) : B CreditSummary :=
  grantByAdmin client userId credits ref actorId.
Definition creditSummaries (userIds : list string) : B (list (string * CreditSummary)) := summaries userIds.

(** ** Checkout *)
Definition chargedFor (session : CheckoutSession) : B (option Z) :=
  match cs_providerCheckoutId session with
  | Some ref => if str_eqb ref "" then ret None else chargedAgorot (cs_provider session) ref
  | None => ret None
  end.

Definition findCheckoutSession (user : BillingUser) (id : string) : B (option CheckoutSession) :=
  let! session := findCheckoutById id in
  ret (match session with
       | Some s => if str_eqb (cs_userId s) (bu_id user) then session else None
       | None => None
       end).

Definition findCheckoutByProviderCheckoutId := findByProviderCheckoutId.

Definition isStuckOverdue (subscription : Subscription) : bool :=
  (sub_status subscription =e S_past_due) &&
  match byName (sub_provider subscription) with
  | Some p => negb (cap_cancelWhilePastDue (pv_capabilities p))
  | None => false
  end.

Definition isPayable (session : CheckoutSession) : B bool :=
  if negb (cs_status session =e C_pending) then ret false
  else if negb (cs_kind session =e K_subscription) then ret true
  else
    let! current := findCurrentByUserId (cs_userId session) in
    let! t := now in
    ret (match current with
         | None => true
         | Some c => if isStuckOverdue c then false else negb (isContinuing c t)
         end).

Definition findReopenableCheckout (userId : string) (provider : PaymentProviderName) (product : CheckoutProduct)
    (t : Z) : B (option CheckoutSession) :=
  let! open_ := findReopenable (mkReopenable userId provider (cp_kind product) (cp_productCode product)
    (cp_credits product) (cp_amountAgorot product) (t + REUSED_CHECKOUT_MIN_LIFETIME_MS)) in
  match open_ with
  | None => ret None
  | Some s => let! payable := isPayable s in ret (if payable then Some s else None)
  end.

Definition assertCheckoutAllowed (userId : string) (kind : CheckoutKind) (t : Z) : B unit :=
  (when (kind =e K_subscription) do
    (let! current := findCurrentByUserId userId in
     match current with
     | Some c => if isStuckOverdue c then throw PaymentOverdueError else ret tt
     | None => ret tt
     end)) ;;;
  let! opened := countOpenedSince userId (t - HOUR_MS) in
  if MAX_OPEN_CHECKOUTS_PER_HOUR <=? opened then throw (TooManyCheckoutsError MAX_OPEN_CHECKOUTS_PER_HOUR)
  else ret tt.

Definition createProviderCheckout (provider : PaymentProvider) (input : CreateCheckoutInput) : B CreateCheckoutResult :=
  catch (pv_createCheckout provider input)
    (fun err =>
      let! t := now in
      settleCheckout (ck_checkoutSessionId input) C_failed t ;;; throw err).

Definition checkoutReturnUrl (sessionId : string) : string := (appUrl ++ checkoutReturnPath sessionId)%string.

Definition openCheckout (user : BillingUser) (product : CheckoutProduct) : B string :=
  let provider := rg_active providers in
  let! t := now in
  let! open_ := findReopenableCheckout (bu_id user) (pv_name provider) product t in
  match open_ with
  | Some s => pv_checkoutUrl provider (cs_id s)
  | None =>
      assertCheckoutAllowed (bu_id user) (cp_kind product) t ;;;
      let expiresAt := t + CHECKOUT_TTL_MS in
      let! session := createCheckoutSession (mkNewCheckout (bu_id user) (pv_name provider) (cp_kind product)
        (cp_productCode product) (cp_credits product) (cp_amountAgorot product) expiresAt) in
      let checkout := mkCreateCheckout (cs_id session) (bu_id user) (bu_email user) (bu_name user)
        (if cp_kind product =e K_subscription then mode_subscription else mode_one_time)
        (cp_interval product) (cp_productCode product) (cp_credits product) (cp_amountAgorot product)
        "ILS" (checkoutReturnUrl (cs_id session)) (checkoutReturnUrl (cs_id session)) expiresAt in
      let! result := createProviderCheckout provider checkout in
      (match cr_providerCheckoutId result with
       | Some ref => if str_eqb ref "" then ret tt else setProviderCheckoutId (cs_id session) ref
       | None => ret tt
       end) ;;;
      record (Track_checkout_started (bu_id user) (cp_kind product) (cp_productCode product)
                (cp_amountAgorot product)) ;;;
      ret (cr_url result)
  end.

(** ** Requiring a subscription *)
Definition requireSubscription (userId : string) : B Subscription :=
  let! current := findCurrentByUserId userId in
  match current with Some s => ret s | None => throw NoSubscriptionError end.

Definition requireEntitledSubscription (userId : string) : B Subscription :=
  let! current := requireSubscription userId in
  let! t := now in
  if negb (entitled (evaluateSubscription (Some current) t)) then throw NoSubscriptionError
  else ret current.

(** [keyof ProviderCapabilities], as the operation's name and the flag it reads. *)
Definition providerFor (subscription : Subscription) (operation : string)
    (flag : ProviderCapabilities -> bool) : B PaymentProvider :=
  match byName (sub_provider subscription) with
  | None => throw (UnsupportedBillingOperationError operation (provider_str (sub_provider subscription)))
  | Some p =>
      if flag (pv_capabilities p) then ret p
      else throw (UnsupportedBillingOperationError operation (provider_str (pv_name p)))
  end.

Definition startCheckout (user : BillingUser) (planCode : PlanCode) : B string :=
  let! current := findCurrentByUserId (bu_id user) in
  let! t := now in
  if match current with Some c => isContinuing c t | None => false end then throw AlreadySubscribedError
  else openCheckout user (subscriptionProduct (PLANS planCode)).

(** ** Plan changes *)
Definition planChange (userId : string) (planCode : PlanCode) : B PlanChange :=
  let! subscription := requireEntitledSubscription userId in
  let! provider := providerFor subscription "changePlan" cap_changePlan in
  if sub_status subscription =e S_past_due then throw PaymentOverdueError
  else if sub_cancelAtPeriodEnd subscription then throw SubscriptionEndingError
  else
    let paid := resolvePlan (Some (sub_planCode subscription)) in
    if bool_decide (interval paid = year) then throw YearlyPlanChangeError
    else
      let! t := now in
      if renewsWithin subscription t PLAN_CHANGE_RENEWAL_BUFFER_MS then throw RenewalImminentError
      else if str_eqb (plan_code_str planCode)
                (match sub_scheduledPlanCode subscription with
                 | Some scheduled => scheduled
                 | None => plan_code_str (plan_code paid)
                 end)
      then throw (SamePlanError (plan_code_str planCode))
      else ret (mkPlanChange subscription provider (planChangeBilling paid (PLANS planCode))).

Definition previewPlanChange (user : BillingUser) (planCode : PlanCode) : B PlanChangePreview :=
  let! change := planChange (bu_id user) planCode in
  let! preview := pv_previewPlanChange (ch_provider change)
    (sub_providerSubscriptionId (ch_subscription change)) (plan_code_str planCode) (ch_billing change) in
  ret (mkPlanChangePreview planCode (ch_billing change) (pv_chargeNowAgorot preview) (pv_creditAgorot preview)
         (prorationCredits (pv_lines preview)) (pv_nextChargeAgorot preview) (pv_nextChargeAt preview)).

Definition changePlan (user : BillingUser) (planCode : PlanCode) : B BillingStatus :=
  let! change := planChange (bu_id user) planCode in
  let subscription := ch_subscription change in
  let! snapshot := pv_changePlan (ch_provider change) (sub_providerSubscriptionId subscription)
    (plan_code_str planCode) (ch_billing change) in
  let! updated :=
    (if bool_decide (ch_billing change = at_renewal) then
       updatePlanIfNewer (sub_id subscription) (sub_planCode subscription)
         (if str_eqb (plan_code_str planCode) (sub_planCode subscription) then None
          else Some (plan_code_str planCode))
         (ps_providerUpdatedAt snapshot)
     else
       let! r := upsertIfNewer (toUpsert (pv_name (ch_provider change)) snapshot (Some (bu_id user))) in
       ret (up_subscription r)) in
  statusFor user updated.

Definition startTopup (user : BillingUser) (amountIls : Q) : B string :=
  if negb (isValidTopupAmountIls amountIls) then throw (InvalidTopupAmountError amountIls)
  else
    requireEntitledSubscription (bu_id user) ;;;
    openCheckout user (mkProduct K_topup None ("topup_ils_" ++ pretty (Qfloor amountIls))%string
      (creditsForTopupIls amountIls) (agorotFromIls amountIls)).

(** ** Cancelling and resuming *)
Definition applyCancellation (current : Subscription) (snapshot : option ProviderSubscription) : B Subscription :=
  match snapshot with
  | Some s =>
      let! r := upsertIfNewer (toUpsert (sub_provider current) s (sub_userId current)) in
      ret (up_subscription r)
  | None => let! t := now in updateState (sub_id current) (cancelledPatch t)
  end.

Definition applyResumption (current : Subscription) (snapshot : option ProviderSubscription) : B Subscription :=
  match snapshot with
  | Some s =>
      let! r := upsertIfNewer (toUpsert (sub_provider current) s (sub_userId current)) in
      ret (up_subscription r)
  | None => let! t := now in updateState (sub_id current) (resumedPatch t)
  end.

Definition cancelAtProvider (subscription : Subscription) (provider : PaymentProvider) : B Subscription :=
  let! snapshot := pv_cancelSubscription provider (sub_providerSubscriptionId subscription) in
  applyCancellation subscription snapshot.

Definition endableLiveOrders (userId : string) : B (list Subscription) :=
  let! live := listLiveByUserId userId in
  if List.existsb isStuckOverdue live then throw PaymentOverdueError else ret live.

Definition cancelStep (current latest subscription : Subscription) : B Subscription :=
  if sub_cancelAtPeriodEnd subscription then ret latest
  else
    let! provider := providerFor subscription "cancel" cap_cancel in
    let! cancelled := cancelAtProvider subscription provider in
    ret (if str_eqb (sub_id subscription) (sub_id current) then cancelled else latest).

Definition cancel (user : BillingUser) : B BillingStatus :=
  let! current := requireEntitledSubscription (bu_id user) in
  let! orders := endableLiveOrders (bu_id user) in
  let! latest := foldM (cancelStep current) current orders in
  statusFor user latest.

Definition resume (user : BillingUser) : B BillingStatus :=
  let! current := requireEntitledSubscription (bu_id user) in
  if negb (sub_cancelAtPeriodEnd current) then statusFor user current
  else
    let! provider := providerFor current "resume" cap_resume in
    let! snapshot := pv_resumeSubscription provider (sub_providerSubscriptionId current) in
    let! subscription := applyResumption current snapshot in
    statusFor user subscription.

Definition getCustomerPortalUrl (user : BillingUser) : B string :=
  let! current := requireSubscription (bu_id user) in
  let! provider := providerFor current "customerPortal" cap_customerPortal in
  let! url := pv_getCustomerPortalUrl provider (sub_providerSubscriptionId current) in
  if isTruthy url then ret (match url with Some u => u | None => EmptyString end)
  else throw (UnsupportedBillingOperationError "customerPortal" (provider_str (pv_name provider))).

Definition getUpdatePaymentMethodUrl (user : BillingUser) : B string :=
  let! current := requireSubscription (bu_id user) in
  let! provider := providerFor current "updatePaymentMethod" cap_updatePaymentMethod in
  let! url := pv_getUpdatePaymentMethodUrl provider (sub_providerSubscriptionId current)
                (appUrl ++ SETTINGS_PATH)%string in
  if isTruthy url then ret (match url with Some u => u | None => EmptyString end)
  else throw (UnsupportedBillingOperationError "updatePaymentMethod" (provider_str (pv_name provider))).

Definition deletionStep (subscription : Subscription) : B unit :=
  if sub_cancelAtPeriodEnd subscription then ret tt
  else match byName (sub_provider subscription) with
       | Some provider =>
           if cap_cancel (pv_capabilities provider)
           then cancelAtProvider subscription provider ;;; ret tt
           else applyCancellation subscription None ;;; ret tt
       | None => applyCancellation subscription None ;;; ret tt
       end.

Definition cancelForAccountDeletion (userId : string) : B unit :=
  let! t := now in
  let! pending := hasPendingSince userId (t - CHECKOUT_TTL_MS) in
  if pending then throw PendingCheckoutError
  else
    let! orders := endableLiveOrders userId in
    forM orders deletionStep.

(** ** Webhooks *)
Definition recapAfterLedgerWrite (userId : string) : B unit :=
  catch (sync client userId ;;; ret tt) (fun _ => ret tt).

Definition findReferencedSession (provider : PaymentProviderName) (sessionId : option string)
  : B (option CheckoutSession) :=
  match sessionId with
  | None => ret None
  | Some id =>
      if str_eqb id "" then ret None
      else
        let! session := findCheckoutById id in
        ret (match session with
             | Some s => if cs_provider s =e provider then session else None
             | None => None
             end)
  end.

Definition applyCheckoutFailed (at_ : Z) (session : option CheckoutSession) (note : option ProcessingNote) : B Applied :=
  (match session with Some s => settleCheckout (cs_id s) C_failed at_ | None => ret tt end) ;;;
  ret (mkApplied (option_map cs_userId session) note).

Definition applyTopup (provider : PaymentProviderName) (occurredAt : Z) (event : PaymentSucceeded)
    (session : CheckoutSession) : B Applied :=
  match sc_providerSubscriptionId event with
  | Some _ => throw (EventProcessingError topup_with_subscription (Some (cs_userId session)))
  | None =>
      if negb (matchesSession event session)
      then throw (EventProcessingError item_mismatch (Some (cs_userId session)))
      else
        let! recorded := recordPayment (toNewPayment provider (sc_payment event) Pay_succeeded occurredAt
          (Some (cs_userId session)) None None) in
        (when recorded do
          record (Track_credits_purchased (cs_userId session) (cs_productCode session)
            (pp_amountAgorot (sc_payment event)) (pp_currency (sc_payment event)))) ;;;
        settleCheckout (cs_id session) C_completed occurredAt ;;;
        grantTopup (cs_userId session) (cs_credits session)
          (topupGrantRef provider (pp_providerPaymentId (sc_payment event))) ;;;
        recapAfterLedgerWrite (cs_userId session) ;;;
        ret (mkApplied (Some (cs_userId session)) (if recorded then None else Some duplicate_payment))
  end.

Definition startSubscription (provider : PaymentProviderName) (occurredAt : Z) (event : PaymentSucceeded)
    (providerSubscriptionId : string) (plan : Plan) (userId : string) : B PaymentApplication :=
  let! application := recordFirstPayment
    (toNewPayment provider (sc_payment event) Pay_succeeded occurredAt (Some userId) None
       (Some (plan_code_str (plan_code plan))))
    (mkUpsert provider providerSubscriptionId (Some userId) (sc_providerCustomerId event)
       (plan_code_str (plan_code plan)) S_active false
       (Some (match sc_periodEnd event with Some e => e | None => addInterval occurredAt (interval plan) end))
       None occurredAt) in
  match application with
  | Conflict_payment => throw (JsError "first payment reported a conflict")
  | _ => ret application
  end.

(** What a renewal writes: a charge older than the stored state only extends the period. *)
Definition renewalPatch (occurredAt : Z) (event : PaymentSucceeded) (current : Subscription) (plan : Plan)
  : SubscriptionStatePatch :=
  let currentPeriodEnd := nextPeriodEnd current (sc_periodEnd event) occurredAt plan in
  if isStale occurredAt current
  then mkPatch None None None None (Some (Some currentPeriodEnd)) None (sub_providerUpdatedAt current)
  else mkPatch (Some S_active) (Some (plan_code_str (plan_code plan))) (Some None) (Some false)
         (Some (Some currentPeriodEnd))
         (Some (coalesce (sc_providerCustomerId event) (sub_providerCustomerId current))) occurredAt.

Fixpoint renewLoop (attempts : nat) (provider : PaymentProviderName) (occurredAt : Z) (event : PaymentSucceeded)
    (existing current : Subscription) (plan : Plan) (userId : string) : B PaymentApplication :=
  match attempts with
  | O => throw (JsError ("renewal of " ++ sub_id existing ++ " conflicted 3 times")%string)
  | S attempts' =>
      let! application := recordRenewal (mkRenewal
        (toNewPayment provider (sc_payment event) Pay_succeeded occurredAt (Some userId) (Some (sub_id current))
           (Some (plan_code_str (plan_code plan))))
        (sub_id current) (sub_currentPeriodEnd current) (renewalPatch occurredAt event current plan)) in
      match application with
      | Conflict_payment =>
          let! reread := findByProviderRef provider (sub_providerSubscriptionId current) in
          match reread with
          | None => throw (JsError ("subscription " ++ sub_id current ++ " vanished during renewal")%string)
          | Some s => renewLoop attempts' provider occurredAt event existing s plan userId
          end
      | _ => ret application
      end
  end.

Definition renew (provider : PaymentProviderName) (occurredAt : Z) (event : PaymentSucceeded)
    (existing : Subscription) (plan : Plan) (userId : string) : B PaymentApplication :=
  renewLoop RENEWAL_ATTEMPTS provider occurredAt event existing existing plan userId.

Definition endStandingOrder (subscription : Subscription) : B unit :=
  if isStuckOverdue subscription then throw PaymentOverdueError
  else match byName (sub_provider subscription) with
       | Some provider =>
           if cap_cancel (pv_capabilities provider)
           then cancelAtProvider subscription provider ;;; ret tt
           else applyCancellation subscription None ;;; ret tt
       | None => applyCancellation subscription None ;;; ret tt
       end.

Definition endOlderStep (userId : string) (kept : option Subscription) (other : Subscription) : B unit :=
  match kept with
  | None => ret tt
  | Some k =>
      if str_eqb (sub_id other) (sub_id k) then ret tt
      else catch (endStandingOrder other)
             (fun err => if isPaymentOverdue err then ret tt
                         else throw (EventProcessingError standing_order_not_ended (Some userId)))
  end.

Definition endOlderStandingOrders (userId : string) : B unit :=
  let! live := listLiveByUserId userId in
  let continuing := List.filter (fun s => negb (sub_cancelAtPeriodEnd s)) live in
  forM continuing (endOlderStep userId (newestOf continuing)).

Definition applySubscriptionPayment (provider : PaymentProviderName) (occurredAt : Z) (event : PaymentSucceeded)
    (session : option CheckoutSession) : B Applied :=
  match sc_providerSubscriptionId event with
  | None => throw (EventProcessingError missing_subscription None)
  | Some providerSubscriptionId =>
      let! existing := findByProviderRef provider providerSubscriptionId in
      match coalesce (option_map cs_userId session)
              (match existing with Some e => sub_userId e | None => None end) with
      | None => throw (EventProcessingError unresolved_user None)
      | Some userId =>
          if str_eqb userId "" then throw (EventProcessingError unresolved_user None)
          else match findPlan (planCodeFor event session existing) with
          | None => throw (EventProcessingError unknown_plan (Some userId))
          | Some plan =>
              if match session with Some s => negb (matchesSession event s) | None => false end
              then throw (EventProcessingError item_mismatch (Some userId))
              else
                let! application :=
                  (match existing with
                   | Some e => renew provider occurredAt event e plan userId
                   | None => startSubscription provider occurredAt event providerSubscriptionId plan userId
                   end) in
                let applied := match application with Applied_payment s => Some s | _ => None end in
                match coalesce applied existing with
                | None => throw (JsError "duplicate first payment without a stored subscription")
                | Some subscription =>
                    (when isSome applied do
                      record (Track_subscription_paid userId (plan_code plan) (isSome session)
                        (pp_amountAgorot (sc_payment event)) (pp_currency (sc_payment event)))) ;;;
                    (match session with
                     | Some s => settleCheckout (cs_id s) C_completed occurredAt
                     | None => ret tt
                     end) ;;;
                    grantPlanCredits userId (includedCredits plan)
                      ((match sub_currentPeriodEnd subscription with Some e => e | None => occurredAt end)
                         + ACTIVE_GRACE_MS)
                      (planGrantRef provider (pp_providerPaymentId (sc_payment event))) ;;;
                    recapAfterLedgerWrite userId ;;;
                    endOlderStandingOrders userId ;;;
                    ret (mkApplied (Some userId)
                      (match application with Duplicate_payment => Some duplicate_payment | _ => None end))
                end
          end
      end
  end.

Definition applyPaymentFailed (provider : PaymentProviderName) (occurredAt : Z)
    (providerSubscriptionId : option string) (payment : option ProviderPayment) : B Applied :=
  match providerSubscriptionId with
  | None => throw (EventProcessingError missing_subscription None)
  | Some ref =>
      let! existing := findByProviderRef provider ref in
      match existing with
      | None => throw (EventProcessingError unknown_subscription None)
      | Some e =>
          (match payment with
           | Some p =>
               recordPayment (toNewPayment provider p Pay_failed occurredAt (sub_userId e) (Some (sub_id e)) None)
                 ;;; ret tt
           | None => ret tt
           end) ;;;
          if isStale occurredAt e then ret (mkApplied (sub_userId e) (Some stale_event))
          else if isSettledStatus (sub_status e) then ret (mkApplied (sub_userId e) (Some already_settled))
          else
            updateState (sub_id e) (mkPatch (Some S_past_due) None None None None None occurredAt) ;;;
            ret (mkApplied (sub_userId e) None)
      end
  end.

Definition applyCanceled (provider : PaymentProviderName) (occurredAt : Z) (providerSubscriptionId : string)
    (accessEndsAt : option Z) : B Applied :=
  let! existing := findByProviderRef provider providerSubscriptionId in
  match existing with
  | None => throw (EventProcessingError unknown_subscription None)
  | Some e =>
      if isStale occurredAt e then ret (mkApplied (sub_userId e) (Some stale_event))
      else
        updateState (sub_id e) (mkPatch (Some S_canceled) None None (Some true)
          (Some (coalesce accessEndsAt (sub_currentPeriodEnd e))) None occurredAt) ;;;
        ret (mkApplied (sub_userId e) None)
  end.

(** A stored owner that is the empty string is no owner. *)
Definition truthyUser (u : option string) : option string := if isTruthy u then u else None.

Definition applySnapshot (provider : PaymentProviderName) (occurredAt : Z) (snapshot : ProviderSubscription)
    (session : option CheckoutSession) : B Applied :=
  let! existing := findByProviderRef provider (ps_providerSubscriptionId snapshot) in
  let userId := coalesce (option_map cs_userId session)
                  (match existing with Some e => sub_userId e | None => None end) in
  if negb (isTruthy userId) && negb (isSome existing)
  then throw (EventProcessingError unresolved_user None)
  else
    let! result := upsertIfNewer (toUpsert provider snapshot userId) in
    (match session with
     | Some s => settleCheckout (cs_id s) C_completed occurredAt
     | None => ret tt
     end) ;;;
    ret (mkApplied userId
      (if negb (isTruthy userId) then Some account_deleted
       else if up_applied result then None else Some stale_event)).

Definition applyProration (provider : PaymentProviderName) (occurredAt : Z) (providerSubscriptionId : string)
    (payment : ProviderPayment) (lines : list ProrationLine) (periodEnd : option Z) : B Applied :=
  let! existing := findByProviderRef provider providerSubscriptionId in
  match existing with
  | None => throw (EventProcessingError unknown_subscription None)
  | Some subscription =>
      let! recorded := recordPayment (toNewPayment provider payment Pay_succeeded occurredAt
        (sub_userId subscription) (Some (sub_id subscription)) None) in
      match truthyUser (sub_userId subscription) with
      | None => ret (mkApplied None (Some account_deleted))
      | Some userId =>
          let credits := prorationCredits lines in
          (when (0 <? credits) do
            (let end_ := match coalesce periodEnd (sub_currentPeriodEnd subscription) with
                         | Some e => e
                         | None => occurredAt
                         end in
             grantPlanCredits userId credits (end_ + ACTIVE_GRACE_MS)
               (planGrantRef provider (pp_providerPaymentId payment)) ;;;
             recapAfterLedgerWrite userId)) ;;;
          ret (mkApplied (Some userId) (if recorded then None else Some duplicate_payment))
      end
  end.

Definition applyRefund (provider : PaymentProviderName) (paymentId : string) (full : bool) : B Applied :=
  if negb full then ret (mkApplied None (Some partial_refund))
  else
    let! payment := markRefunded provider paymentId in
    let! owners := revokeUnused [planGrantRef provider paymentId; topupGrantRef provider paymentId] in
    match payment, owners with
    | None, [] => throw (EventProcessingError unknown_payment None)
    | _, _ =>
        let userId := coalesce (match payment with Some u => u | None => None end) (List.hd_error owners) in
        (match truthyUser userId with Some u => recapAfterLedgerWrite u | None => ret tt end) ;;;
        ret (mkApplied userId None)
    end.

Definition isTopupSession (session : option CheckoutSession) : bool :=
  match session with Some s => cs_kind s =e K_topup | None => false end.

Definition applyCorrelatedEvent (provider : PaymentProviderName) (event : ProviderEvent)
    (session : option CheckoutSession) : B Applied :=
  let occurredAt := eb_occurredAt (ev_base event) in
  match ev_body event with
  | Ev_checkout_failed _ => applyCheckoutFailed occurredAt session None
  | Ev_payment_succeeded p =>
      match session with
      | Some s => if isTopupSession session then applyTopup provider occurredAt p s
                  else applySubscriptionPayment provider occurredAt p session
      | None => applySubscriptionPayment provider occurredAt p session
      end
  | Ev_payment_failed ref payment _ =>
      if isTopupSession session then applyCheckoutFailed occurredAt session (Some topup_failed)
      else applyPaymentFailed provider occurredAt ref payment
  | Ev_canceled ref accessEndsAt => applyCanceled provider occurredAt ref accessEndsAt
  | Ev_snapshot snapshot => applySnapshot provider occurredAt snapshot session
  | Ev_refunded paymentId _ full => applyRefund provider paymentId full
  | Ev_prorated ref payment lines periodEnd => applyProration provider occurredAt ref payment lines periodEnd
  | Ev_ignored => ret (mkApplied None None)
  end.

Definition applyEvent (provider : PaymentProviderName) (event : ProviderEvent) (eventId : string) : B WebhookOutcome :=
  match ev_body event with
  | Ev_ignored => finishEvent eventId (mkFinish E_ignored None None) ;;; ret W_ignored
  | _ =>
      let! session := findReferencedSession provider (ev_checkoutSessionId event) in
      let! applied := applyCorrelatedEvent provider event session in
      finishEvent eventId (mkFinish E_processed (Some (ap_userId applied)) (option_map note_str (ap_note applied))) ;;;
      ret W_processed
  end.

(** What a failed attempt leaves on the event row. *)
Definition failureOf (err : Err) : FinishBillingEventInput :=
  match err with
  | EventProcessingError note userId => mkFinish E_failed (Some userId) (Some (note_str note))
  | _ => mkFinish E_failed None (Some (err_message err))
  end.

Definition processClaimed (provider : PaymentProviderName) (event : ProviderEvent) (eventId : string) : B WebhookOutcome :=
  catch (applyEvent provider event eventId)
    (fun err =>
      catch (finishEvent eventId (failureOf err)) (fun _ => ret tt) ;;;
      throw err).

Definition claimInputOf (provider : PaymentProviderName) (event : ProviderEvent) : ClaimBillingEventInput :=
  mkClaimInput provider (eb_providerEventId (ev_base event)) (eb_eventType (ev_base event))
    (subscriptionIdOf event) (eb_payload (ev_base event)).

Definition handleWebhook (providerName : string) (request : WebhookRequest) : B WebhookOutcome :=
  match rg_byName providers providerName with
  | None => throw (UnknownProviderError providerName)
  | Some provider =>
      let! event := pv_parseWebhook provider request in
      let! claim := claimEvent (claimInputOf (pv_name provider) event) in
      match claim with
      | Claim_duplicate status =>
          if status =e E_received then throw WebhookInFlightError else ret W_duplicate
      | Claim_new id | Claim_retry id => processClaimed (pv_name provider) event id
      end
  end.
End Service.
