(* ===== verification/BillingSafety.v ===== *)
(** Safety of the whole billing service, under every interleaving.

    A [Request] is any public operation of the service; [serve] runs it.  Other
    requests are interference: before each of its store accesses any sequence of
    the service's statements may run.  Every request keeps the store's invariant
    and only makes [Step]s, so the facts below hold of every reachable store. *)
From S2P Require Import Prelude Dates Pricing Domain Entitlement Allocation CreditViews TrialKey.
From S2P Require Import Store StoreInv Provider Credits CreditsProps Billing.
From Stdlib Require Import QArith.
From stdpp Require Import list strings.
#[local] Open Scope Z_scope.

(** ** Facts about the products on sale *)
Lemma subscriptionProduct_credits c : 0 <= cp_credits (subscriptionProduct (PLANS c)).
Proof. destruct c; vm_compute; discriminate. Qed.

Lemma topup_credits amount : isValidTopupAmountIls amount = true -> 0 <= creditsForTopupIls amount.
Proof.
  unfold isValidTopupAmountIls, creditsForTopupIls. intros H. bools.
  match goal with H : Qle_bool (inject_Z TOPUP_MIN_ILS) amount = true |- _ => apply Qle_bool_iff in H end.
  change 0 with (Qround.Qfloor (inject_Z 0)). apply Qround.Qfloor_resp_le.
  change (inject_Z 0) with (0 * inject_Z CREDITS_PER_ILS)%Q.
  apply Qmult_le_compat_r; [|vm_compute; discriminate].
  eapply Qle_trans; [|eassumption]. vm_compute. discriminate.
Qed.

Lemma prorationCredits_nonneg lines : 0 <= prorationCredits lines.
Proof. unfold prorationCredits. lia. Qed.

Lemma includedCredits_nonneg code plan : findPlan code = Some plan -> 0 <= includedCredits plan.
Proof.
  unfold findPlan. destruct code as [v|]; [|discriminate]. destruct (isPlanCode v) as [c|]; [|discriminate].
  intros [= <-]. destruct c; vm_compute; discriminate.
Qed.

(** A session read from a well-formed store sells a non-negative number of credits. *)
Lemma ok_findCheckout {G} `{!StatementsIn G} id :
  Spec Inv G (findCheckoutById id) (fun s => match s with Some c => 0 <= cs_credits c | None => True end).
Proof.
  eapply spec_weaken; [apply spec_query; typeclasses eauto|]. intros s (d & Hd & ->).
  destruct (List.find _ _) as [c|] eqn:Hf; [|exact I]. apply List.find_some in Hf as [Hin _].
  pose proof (inv_checkouts d Hd) as Hc. rewrite Forall_forall in Hc.
  apply Hc, list_elem_of_In, Hin.
Qed.

Section Handlers.
Context {G : Db -> Db -> Prop} `{HG : !StatementsIn G}.
Variable providers : ProviderRegistry.
Context `{Hreg : !RegistryLaws providers}.
Variable client : BudgetClient.
Variable enforcement : bool.
Variable appUrl : string.
Variable sha256 : string -> string.

Lemma active_contract : ProviderLaws (rg_active providers).
Proof. apply reg_active. Qed.
Lemma byName_contract name p : byName providers name = Some p -> ProviderLaws p.
Proof. apply reg_byName. Qed.

(** The providers' operations, in the [guar] database. *)
Section Operations.
Variable p : PaymentProvider.
Hypothesis Hp : ProviderLaws p.
Lemma ok_pv_createCheckout i : Guar Inv G (pv_createCheckout p i).
Proof. apply ok_remote; [typeclasses eauto|]; apply law_createCheckout. Qed.
Lemma ok_pv_checkoutUrl i : Guar Inv G (pv_checkoutUrl p i).
Proof. apply ok_remote; [typeclasses eauto|]; apply law_checkoutUrl. Qed.
Lemma ok_pv_parseWebhook i : Guar Inv G (pv_parseWebhook p i).
Proof. apply ok_remote; [typeclasses eauto|]; apply law_parseWebhook. Qed.
Lemma ok_pv_cancelSubscription i : Guar Inv G (pv_cancelSubscription p i).
Proof. apply ok_remote; [typeclasses eauto|]; apply law_cancelSubscription. Qed.
Lemma ok_pv_resumeSubscription i : Guar Inv G (pv_resumeSubscription p i).
Proof. apply ok_remote; [typeclasses eauto|]; apply law_resumeSubscription. Qed.
Lemma ok_pv_previewPlanChange i c b : Guar Inv G (pv_previewPlanChange p i c b).
Proof. apply ok_remote; [typeclasses eauto|]; apply law_previewPlanChange. Qed.
Lemma ok_pv_changePlan i c b : Guar Inv G (pv_changePlan p i c b).
Proof. apply ok_remote; [typeclasses eauto|]; apply law_changePlan. Qed.
Lemma ok_pv_getCustomerPortalUrl i : Guar Inv G (pv_getCustomerPortalUrl p i).
Proof. apply ok_remote; [typeclasses eauto|]; apply law_getCustomerPortalUrl. Qed.
Lemma ok_pv_getUpdatePaymentMethodUrl i u : Guar Inv G (pv_getUpdatePaymentMethodUrl p i u).
Proof. apply ok_remote; [typeclasses eauto|]; apply law_getUpdatePaymentMethodUrl. Qed.
End Operations.
#[local] Hint Resolve ok_pv_createCheckout ok_pv_checkoutUrl ok_pv_parseWebhook ok_pv_cancelSubscription
  ok_pv_resumeSubscription ok_pv_previewPlanChange ok_pv_changePlan ok_pv_getCustomerPortalUrl
  ok_pv_getUpdatePaymentMethodUrl active_contract byName_contract : guar.

(** *** Reading the account *)
Lemma ok_findCurrentByUserId u : Guar Inv G (findCurrentByUserId u).
Proof. unfold findCurrentByUserId. guar. Qed.
Lemma ok_listLiveByUserId u : Guar Inv G (listLiveByUserId u).
Proof. unfold listLiveByUserId. guar. Qed.
Lemma ok_findByProviderRef p r : Guar Inv G (findByProviderRef p r).
Proof. unfold findByProviderRef. guar. Qed.
Lemma ok_findCheckoutById id : Guar Inv G (findCheckoutById id).
Proof. unfold findCheckoutById. guar. Qed.
#[local] Hint Resolve ok_findCurrentByUserId ok_listLiveByUserId ok_findByProviderRef ok_findCheckoutById : guar.

Lemma ok_honourTrialClaim user t : Guar Inv G (honourTrialClaim sha256 user t).
Proof. unfold honourTrialClaim, findClaimant. guar. Qed.
Lemma ok_entitlementOf user s t : Guar Inv G (entitlementOf enforcement user s t).
Proof. unfold entitlementOf. guar. Qed.
#[local] Hint Resolve ok_honourTrialClaim ok_entitlementOf : guar.
Lemma ok_buildStatus user s c : Guar Inv G (buildStatus providers enforcement sha256 user s c).
Proof. unfold buildStatus. guar. Qed.
#[local] Hint Resolve ok_buildStatus : guar.
Lemma ok_statusFor user s : Guar Inv G (statusFor providers enforcement sha256 user s).
Proof. unfold statusFor. guar. Qed.
#[local] Hint Resolve ok_statusFor : guar.

Lemma ok_requireEntitledSubscription u : Guar Inv G (requireEntitledSubscription u).
Proof. unfold requireEntitledSubscription, requireSubscription. guar. Qed.
Lemma ok_requireSubscription u : Guar Inv G (requireSubscription u).
Proof. unfold requireSubscription. guar. Qed.
#[local] Hint Resolve ok_requireEntitledSubscription ok_requireSubscription : guar.

Lemma ok_providerFor s op flag : Spec Inv G (providerFor providers s op flag) ProviderLaws.
Proof.
  unfold providerFor. destruct (byName providers (sub_provider s)) as [p|] eqn:E; [|apply spec_throw; typeclasses eauto].
  destruct (flag _); [|apply spec_throw; typeclasses eauto].
  apply spec_ret; [typeclasses eauto|]. apply byName_contract in E. exact E.
Qed.

(** [providerFor] hands over a provider that keeps the contract. *)
Ltac with_provider :=
  match goal with
  | |- Spec _ _ (bind (providerFor _ _ _ _) _) _ =>
      eapply (spec_bind _ _ _ _ _ _ (ok_providerFor _ _ _)); intros ? ?
  end.
Ltac serve := repeat first [ guar_leaf | with_provider | guar_step ].

(** *** Commands *)
Lemma ok_isPayable s : Guar Inv G (isPayable providers s).
Proof. unfold isPayable. guar. Qed.
#[local] Hint Resolve ok_isPayable : guar.
Lemma ok_findReopenableCheckout u p pr t : Guar Inv G (findReopenableCheckout providers u p pr t).
Proof. unfold findReopenableCheckout, findReopenable. guar. Qed.
Lemma ok_assertCheckoutAllowed u k t : Guar Inv G (assertCheckoutAllowed providers u k t).
Proof. unfold assertCheckoutAllowed, countOpenedSince. guar. Qed.
#[local] Hint Resolve ok_findReopenableCheckout ok_assertCheckoutAllowed : guar.

Lemma ok_createProviderCheckout p input : ProviderLaws p -> Guar Inv G (createProviderCheckout p input).
Proof.
  intros Hp. unfold createProviderCheckout. guar.
  apply ok_settleCheckout. discriminate.
Qed.
#[local] Hint Resolve ok_createProviderCheckout : guar.

Lemma ok_openCheckout user product : 0 <= cp_credits product ->
  Guar Inv G (openCheckout providers appUrl user product).
Proof. intros Hc. unfold openCheckout. guar. Qed.

Lemma ok_startCheckout user plan : Guar Inv G (startCheckout providers appUrl user plan).
Proof. unfold startCheckout. guar. apply ok_openCheckout, subscriptionProduct_credits. Qed.

Lemma ok_startTopup user amount : Guar Inv G (startTopup providers appUrl user amount).
Proof.
  unfold startTopup. destruct (isValidTopupAmountIls amount) eqn:Hv; simpl; [|guar].
  guar_step; guar_step; [guar|]. apply ok_openCheckout. apply topup_credits, Hv.
Qed.

Lemma ok_planChange u plan : Spec Inv G (planChange providers u plan) (fun c => ProviderLaws (ch_provider c)).
Proof.
  unfold planChange. guar_step; [guar|]. with_provider.
  destruct (_ =e S_past_due); [guar|]. destruct (sub_cancelAtPeriodEnd _); [guar|]. cbv zeta.
  destruct (bool_decide _); [guar|]. guar_step; [guar|]. destruct (renewsWithin _ _ _); [guar|].
  destruct (str_eqb _ _); [guar|]. apply spec_ret; [typeclasses eauto|]. assumption.
Qed.

Lemma ok_previewPlanChange user plan : Guar Inv G (previewPlanChange providers user plan).
Proof.
  unfold previewPlanChange. eapply spec_bind; [typeclasses eauto | apply ok_planChange | intros c Hc]. guar.
Qed.

Lemma ok_changePlan user plan : Guar Inv G (changePlan providers enforcement sha256 user plan).
Proof.
  unfold changePlan. eapply spec_bind; [typeclasses eauto | apply ok_planChange | intros c Hc].
  cbv zeta. guar.
Qed.

Lemma ok_applyCancellation s snap : Guar Inv G (applyCancellation s snap).
Proof. unfold applyCancellation. guar. Qed.
Lemma ok_applyResumption s snap : Guar Inv G (applyResumption s snap).
Proof. unfold applyResumption. guar. Qed.
#[local] Hint Resolve ok_applyCancellation ok_applyResumption : guar.
Lemma ok_cancelAtProvider s p : ProviderLaws p -> Guar Inv G (cancelAtProvider s p).
Proof. intros. unfold cancelAtProvider. guar. Qed.
#[local] Hint Resolve ok_cancelAtProvider : guar.
Lemma ok_endableLiveOrders u : Guar Inv G (endableLiveOrders providers u).
Proof. unfold endableLiveOrders. guar. Qed.
#[local] Hint Resolve ok_endableLiveOrders : guar.

Lemma ok_cancel user : Guar Inv G (Billing.cancel providers enforcement sha256 user).
Proof.
  unfold Billing.cancel. guar_step; guar_step; [guar|]. guar_step; [guar|]. guar_step; [|guar].
  apply spec_foldM; [typeclasses eauto | | exact I]. intros latest s _ _. unfold cancelStep. serve.
Qed.

Lemma ok_resume user : Guar Inv G (resume providers enforcement sha256 user).
Proof. unfold resume. serve. Qed.

Lemma ok_getCustomerPortalUrl user : Guar Inv G (getCustomerPortalUrl providers user).
Proof. unfold getCustomerPortalUrl. serve. Qed.
Lemma ok_getUpdatePaymentMethodUrl user : Guar Inv G (getUpdatePaymentMethodUrl providers appUrl user).
Proof. unfold getUpdatePaymentMethodUrl. serve. Qed.

Lemma ok_cancelForAccountDeletion u : Guar Inv G (cancelForAccountDeletion providers u).
Proof. unfold cancelForAccountDeletion, hasPendingSince, deletionStep. guar. Qed.

Lemma ok_beforeBotCreate user : Guar Inv G (beforeBotCreate enforcement sha256 user).
Proof. unfold beforeBotCreate. guar. Qed.

(** *** Webhook handlers *)
Lemma ok_recapAfterLedgerWrite u : Guar Inv G (recapAfterLedgerWrite client u).
Proof. unfold recapAfterLedgerWrite. guar. Qed.
#[local] Hint Resolve ok_recapAfterLedgerWrite : guar.

(** The session a webhook refers to sells a non-negative number of credits. *)
Definition sells (session : option CheckoutSession) : Prop :=
  match session with Some c => 0 <= cs_credits c | None => True end.

Lemma ok_findReferencedSession p id : Spec Inv G (findReferencedSession p id) sells.
Proof.
  unfold findReferencedSession. destruct id as [id|]; [|apply spec_ret; [typeclasses eauto | exact I]].
  destruct (str_eqb id _); [apply spec_ret; [typeclasses eauto | exact I]|].
  eapply spec_bind; [typeclasses eauto | apply ok_findCheckout | intros s Hs].
  apply spec_ret; [typeclasses eauto|]. destruct s as [c|]; [|exact I]. destruct (_ =e p); [exact Hs | exact I].
Qed.

Lemma ok_settle_opt (session : option CheckoutSession) status at_ : status <> C_pending ->
  Guar Inv G (match session with Some s => settleCheckout (cs_id s) status at_ | None => ret tt end).
Proof. intros. destruct session; [apply ok_settleCheckout; assumption | guar]. Qed.

Lemma ok_applyCheckoutFailed at_ session note : Guar Inv G (applyCheckoutFailed at_ session note).
Proof. unfold applyCheckoutFailed. guar_step; guar_step; [apply ok_settle_opt; discriminate | guar]. Qed.

Lemma ok_applyTopup p at_ event session : 0 <= cs_credits session ->
  Guar Inv G (applyTopup client p at_ event session).
Proof.
  intros Hc. unfold applyTopup. guar. apply ok_settleCheckout. discriminate.
Qed.

Lemma ok_startSubscription p at_ event ref plan u : Guar Inv G (startSubscription p at_ event ref plan u).
Proof. unfold startSubscription. guar. Qed.

Lemma ok_renewLoop n p at_ event existing current plan u :
  Guar Inv G (renewLoop n p at_ event existing current plan u).
Proof. revert current. induction n; intros current; simpl; guar. Qed.

Lemma ok_endStandingOrder s : Guar Inv G (endStandingOrder providers s).
Proof. unfold endStandingOrder. guar. Qed.
#[local] Hint Resolve ok_endStandingOrder ok_startSubscription : guar.

Lemma ok_endOlderStandingOrders u : Guar Inv G (endOlderStandingOrders providers u).
Proof. unfold endOlderStandingOrders, endOlderStep. guar. Qed.
#[local] Hint Resolve ok_endOlderStandingOrders : guar.

Lemma ok_applySubscriptionPayment p at_ event session :
  Guar Inv G (applySubscriptionPayment providers client p at_ event session).
Proof.
  unfold applySubscriptionPayment, renew. destruct (sc_providerSubscriptionId event) as [ref|]; [|guar].
  guar_step; guar_step; [guar|]. destruct (coalesce _ _) as [userId|]; [|guar]. destruct (str_eqb userId _); [guar|].
  destruct (findPlan _) as [plan|] eqn:Hplan; [|guar]. destruct (match session with Some _ => _ | None => _ end); [guar|].
  pose proof (includedCredits_nonneg _ _ Hplan).
  guar_step; [destruct a; [apply ok_renewLoop | guar]|].
  cbv zeta. destruct (coalesce _ _); [|guar].
  guar_step; [guar|]. guar_step; [apply ok_settle_opt; discriminate|]. guar.
Qed.

Lemma ok_applyPaymentFailed p at_ ref payment : Guar Inv G (applyPaymentFailed p at_ ref payment).
Proof. unfold applyPaymentFailed. guar. Qed.
Lemma ok_applyCanceled p at_ ref e : Guar Inv G (applyCanceled p at_ ref e).
Proof. unfold applyCanceled. guar. Qed.

Lemma ok_applySnapshot p at_ snap session : Guar Inv G (applySnapshot p at_ snap session).
Proof.
  unfold applySnapshot. guar_step; guar_step; [guar|]. cbv zeta. destruct (_ && _); [guar|].
  guar_step; [guar|]. guar_step; [apply ok_settle_opt; discriminate | guar].
Qed.

Lemma ok_applyProration p at_ ref payment lines e : Guar Inv G (applyProration client p at_ ref payment lines e).
Proof.
  unfold applyProration. guar. apply ok_grantPlanCredits, prorationCredits_nonneg.
Qed.

Lemma ok_applyRefund p id full : Guar Inv G (applyRefund client p id full).
Proof. unfold applyRefund. guar. Qed.
#[local] Hint Resolve ok_applyCheckoutFailed ok_applySubscriptionPayment ok_applyPaymentFailed ok_applyCanceled
  ok_applySnapshot ok_applyProration ok_applyRefund : guar.

Lemma ok_applyCorrelatedEvent p event session : sells session ->
  Guar Inv G (applyCorrelatedEvent providers client p event session).
Proof.
  intros Hs. unfold applyCorrelatedEvent. cbv zeta. destruct (ev_body event); try (guar; fail).
  destruct session as [c|]; [|guar]. destruct (isTopupSession _); [apply ok_applyTopup; exact Hs | guar].
Qed.

End Handlers.

#[export] Hint Resolve ok_pv_createCheckout ok_pv_checkoutUrl ok_pv_parseWebhook ok_pv_cancelSubscription
  ok_pv_resumeSubscription ok_pv_previewPlanChange ok_pv_changePlan ok_pv_getCustomerPortalUrl
  ok_pv_getUpdatePaymentMethodUrl active_contract byName_contract ok_findCurrentByUserId ok_listLiveByUserId
  ok_findByProviderRef ok_findCheckoutById ok_honourTrialClaim ok_entitlementOf ok_buildStatus ok_statusFor
  ok_requireEntitledSubscription ok_requireSubscription ok_isPayable ok_recapAfterLedgerWrite
  ok_applyCancellation ok_applyResumption ok_cancelAtProvider ok_endableLiveOrders ok_endStandingOrder
  ok_startSubscription ok_endOlderStandingOrders
  ok_applyCorrelatedEvent ok_beforeBotCreate ok_startCheckout ok_previewPlanChange ok_changePlan ok_startTopup
  ok_cancel ok_resume ok_getCustomerPortalUrl ok_getUpdatePaymentMethodUrl ok_cancelForAccountDeletion : guar.

(** ** Deliveries

    From here on the store only makes [Step]s: claiming and finishing an event is
    what [SameEvents] excludes. *)
Section Safety.
Variable providers : ProviderRegistry.
Context `{Hreg : !RegistryLaws providers}.
Variable client : BudgetClient.
Variable enforcement : bool.
Variable appUrl : string.
Variable sha256 : string -> string.

Lemma ok_applyEvent p event id : Guar Inv Step (applyEvent providers client p event id).
Proof.
  assert (Hcorr : Guar Inv Step
    (let! session := findReferencedSession p (ev_checkoutSessionId event) in
     let! applied := applyCorrelatedEvent providers client p event session in
     finishEvent id (mkFinish E_processed (Some (ap_userId applied)) (option_map note_str (ap_note applied))) ;;;
     ret W_processed)).
  { eapply spec_bind; [typeclasses eauto | eapply ok_findReferencedSession | intros session Hs].
    guar_step; [eapply ok_applyCorrelatedEvent; assumption | guar]. }
  unfold applyEvent. destruct (ev_body event); try exact Hcorr. guar.
Qed.
#[local] Hint Resolve ok_applyEvent : guar.

Lemma ok_handleWebhook name request : Guar Inv Step (handleWebhook providers client name request).
Proof.
  unfold handleWebhook, processClaimed. destruct (rg_byName providers name) as [p|] eqn:Hn; [|guar].
  pose proof (reg_byName _ _ Hn). guar.
Qed.

(** ** Requests *)
Inductive Request :=
| R_getStatus (user : BillingUser)
| R_refreshStatus (user : BillingUser)
| R_isEntitled (user : BillingUser)
| R_beforeBotCreate (user : BillingUser)
| R_afterBotCreated (userId : string)
| R_beforeBotDelete (userId botId : string)
| R_syncAllCredits
| R_grantCreditsByAdmin (userId : string) (credits : Z) (ref actorId : string)
| R_creditSummaries (userIds : list string)
| R_chargedFor (session : CheckoutSession)
| R_findCheckoutSession (user : BillingUser) (id : string)
| R_isPayable (session : CheckoutSession)
| R_startCheckout (user : BillingUser) (plan : PlanCode)
| R_previewPlanChange (user : BillingUser) (plan : PlanCode)
| R_changePlan (user : BillingUser) (plan : PlanCode)
| R_startTopup (user : BillingUser) (amountIls : Q)
| R_cancel (user : BillingUser)
| R_resume (user : BillingUser)
| R_getCustomerPortalUrl (user : BillingUser)
| R_getUpdatePaymentMethodUrl (user : BillingUser)
| R_cancelForAccountDeletion (userId : string)
| R_handleWebhook (providerName : string) (request : WebhookRequest).

(** The admin API only accepts a whole positive number of credits. *)
Definition wellFormedRequest (r : Request) : bool :=
  match r with R_grantCreditsByAdmin _ credits _ _ => 0 <=? credits | _ => true end.

Definition discard {A} (m : B A) : B unit := m ;;; ret tt.

Definition serve (r : Request) : B unit :=
  match r with
  | R_getStatus user => discard (getStatus providers enforcement sha256 user)
  | R_refreshStatus user => discard (refreshStatus providers client enforcement sha256 user)
  | R_isEntitled user => discard (isEntitled enforcement sha256 user)
  | R_beforeBotCreate user => beforeBotCreate enforcement sha256 user
  | R_afterBotCreated userId => discard (afterBotCreated client userId)
  | R_beforeBotDelete userId botId => beforeBotDelete client userId botId
  | R_syncAllCredits => discard (syncAllCredits client)
  | R_grantCreditsByAdmin userId credits ref actorId =>
      discard (grantCreditsByAdmin client userId credits ref actorId)
  | R_creditSummaries userIds => discard (creditSummaries userIds)
  | R_chargedFor session => discard (chargedFor session)
  | R_findCheckoutSession user id => discard (findCheckoutSession user id)
  | R_isPayable session => discard (isPayable providers session)
  | R_startCheckout user plan => discard (startCheckout providers appUrl user plan)
  | R_previewPlanChange user plan => discard (previewPlanChange providers user plan)
  | R_changePlan user plan => discard (changePlan providers enforcement sha256 user plan)
  | R_startTopup user amount => discard (startTopup providers appUrl user amount)
  | R_cancel user => discard (Billing.cancel providers enforcement sha256 user)
  | R_resume user => discard (resume providers enforcement sha256 user)
  | R_getCustomerPortalUrl user => discard (getCustomerPortalUrl providers user)
  | R_getUpdatePaymentMethodUrl user => discard (getUpdatePaymentMethodUrl providers appUrl user)
  | R_cancelForAccountDeletion userId => cancelForAccountDeletion providers userId
  | R_handleWebhook name request => discard (handleWebhook providers client name request)
  end.

Lemma ok_discard {A} (m : B A) : Guar Inv Step m -> Guar Inv Step (discard m).
Proof. intros. unfold discard. guar. Qed.
#[local] Hint Resolve ok_discard ok_handleWebhook : guar.

Lemma ok_serve r : wellFormedRequest r = true -> Guar Inv Step (serve r).
Proof.
  intros Hr. destruct r; simpl in *; try (guar; fail); apply ok_discard.
  - unfold getStatus. guar.
  - unfold refreshStatus. guar.
  - unfold isEntitled. guar.
  - unfold grantCreditsByAdmin. bools. guar.
  - unfold chargedFor, chargedAgorot. guar.
  - unfold findCheckoutSession. guar.
Qed.

(** ** Histories

    What the other requests do to the store: any sequence of the statements of
    [Store], with the arguments the service gives them. *)
Inductive Access : (Db -> Db) -> Prop :=
| acc_upsert t input : Access (fun d => (upsert_stmt t input d).2)
| acc_update_state t id patch : Access (fun d => (update_subs (hasId id) (applyPatch t patch) d).2)
| acc_set_plan t id plan scheduled at_ :
    Access (fun d => (update_subs (fun s => hasId id s && (sub_providerUpdatedAt s <=? at_))
                        (setPlan t plan scheduled at_) d).2)
| acc_checkout t input : 0 <= nc_credits input -> Access (fun d => (insertCheckout_stmt t input d).2)
| acc_checkout_ref id ref : Access (fun d => (setCheckoutRef_stmt id ref d).2)
| acc_settle id status at_ : status <> C_pending -> Access (fun d => (settle_stmt id status at_ d).2)
| acc_refund provider ref : Access (fun d => (refund_stmt provider ref d).2)
| acc_payment input : Access (fun d => (insertPayment_stmt input d).2)
| acc_first_payment t payment sub : Access (fun d => (firstPayment_tx t payment sub d).2)
| acc_renewal t input : Access (fun d => (renewal_tx t input d).2)
| acc_grant t input : 0 <= ng_credits input -> Access (fun d => (insertGrant_stmt t input d).2)
| acc_revoke refs : Access (fun d => (revoke_stmt refs d).2)
| acc_claim mailbox userId : Access (fun d => (claim_stmt mailbox userId d).2)
| acc_advance input : advanceOk input -> Access (fun d => (advance_tx input d).2)
| acc_event t input : Access (fun d => (insertEvent_stmt t input d).2)
| acc_reclaim t input : Access (fun d => (reclaim_stmt t input d).2)
| acc_finish t id input : Access (fun d => (finish_stmt t id input d).2)
| acc_idle : Access (fun d => d)
| acc_then f g : Access f -> Access g -> Access (fun d => g (f d)).

Lemma access_ok f : Access f -> forall d, Inv d -> Inv (f d) /\ Step d (f d).
Proof.
  induction 1; intros d Hd;
    eauto using upsert_stmt_ok, insertCheckout_stmt_ok, setCheckoutRef_stmt_ok, settle_stmt_ok,
      refund_stmt_ok, insertPayment_stmt_ok, firstPayment_tx_ok, renewal_tx_ok, insertGrant_stmt_ok,
      revoke_stmt_ok, claim_stmt_ok, advance_tx_ok, insertEvent_stmt_ok, reclaim_stmt_ok, finish_stmt_ok.
  - apply update_subs_ok; [assumption|]. intros. apply applyPatch_R.
  - apply update_subs_ok; [assumption|]. intros. constructor; auto.
  - split; [assumption | apply step_refl].
  - destruct (IHAccess1 d Hd) as [Hi1 H1]. destruct (IHAccess2 _ Hi1) as [Hi2 H2].
    split; [assumption | eapply step_trans; eassumption].
Qed.

(** One request served from [d], any accesses of other requests in between. *)
Inductive Served : Db -> Db -> Prop :=
| served r env t calls d res w' :
    wellFormedRequest r = true -> Forall Access env ->
    serve r (mkWorld d env t calls) = (res, w') -> Served d (w_db w').

(** A history: requests served one after the other. *)
Inductive History : Db -> Db -> Prop :=
| history_nil d : History d d
| history_cons d1 d2 d3 : Served d1 d2 -> History d2 d3 -> History d1 d3.

Lemma served_ok d d' : Served d d' -> Inv d -> Inv d' /\ Step d d'.
Proof.
  intros [r env t calls d0 res w' Hr He Hrun] Hd.
  destruct (ok_serve r Hr (mkWorld d0 env t calls) res w') as (H1 & H2 & _); auto.
  unfold rely. eapply Forall_impl; [exact He|]. intros f Hf db Hi. apply access_ok; assumption.
Qed.

Lemma history_ok d d' : History d d' -> Inv d -> Inv d' /\ Step d d'.
Proof.
  induction 1 as [d0|d1 d2 d3 H1 _ IH]; intros Hd; [split; [assumption | apply step_refl]|].
  destruct (served_ok _ _ H1 Hd) as [Hi2 Hs2]. destruct (IH Hi2) as [Hi3 Hs3].
  split; [assumption | eapply step_trans; eassumption].
Qed.
End Safety.
