(* ===== verification/Safety.v ===== *)
(** What no history of requests can break, whatever runs at the same time: the
    ledger, the payments, the checkouts, the owners of subscriptions, the trial
    claims and the webhook inbox. *)
From S2P Require Import Prelude Dates Pricing Domain Entitlement Allocation CreditViews TrialKey.
From S2P Require Import Store StoreInv Provider Credits CreditsProps Billing BillingSafety.
From stdpp Require Import list strings pretty.
#[local] Open Scope Z_scope.

(** ** A small deployment, for concrete runs: a payment provider whose webhooks
    are the strings [paid] (the checkout of session 0 was paid) and [cancelled],
    one user with one bot whose gateway reports 30 cents spent under a ceiling of
    200 cents. *)
Module Demo.
Definition day1 : Z := 86400000.

Definition base (id type : string) (at_ : Z) : EventBase := mkEventBase id type at_ "{}".
Definition paidEvent : ProviderEvent :=
  mkEvent (base "evt-1" "transaction.completed" day1)
    (Ev_payment_succeeded (mkPaymentSucceeded (Some "sub-1") (Some "cus-1") (Some "basic")
       (mkProviderPayment "pay-1" 10000 "ILS") (Some 10000) None)) (Some "0")%string.
Definition cancelledEvent : ProviderEvent :=
  mkEvent (base "evt-2" "subscription.canceled" (3 * day1)) (Ev_canceled "sub-1" None) None.

Definition parse (r : WebhookRequest) : Err + ProviderEvent :=
  if str_eqb (wr_rawBody r) "paid" then inr paidEvent
  else if str_eqb (wr_rawBody r) "cancelled" then inr cancelledEvent
  else inl (WebhookVerificationError "bad signature").

Definition provider : PaymentProvider :=
  mkProvider P_mock true (mkCapabilities true true false false true false)
    (fun _ => ret (mkCheckoutResult "https://pay.example" (Some "chk-1"%string)))
    (fun _ => ret "https://pay.example"%string) (fun r => lift (parse r))
    (fun _ => ret None) (fun _ => ret None)
    (fun _ _ _ => throw (UnsupportedBillingOperationError "changePlan" "mock"))
    (fun _ _ _ => throw (UnsupportedBillingOperationError "changePlan" "mock"))
    (fun _ => ret None) (fun _ _ => ret None).

#[global] Instance provider_laws : ProviderLaws provider.
Proof. constructor; intros; simpl; remote. Qed.

Definition registry : ProviderRegistry :=
  mkRegistry provider (fun name => if str_eqb name "mock" then Some provider else None).
#[global] Instance registry_laws : RegistryLaws registry.
Proof.
  constructor; simpl; [typeclasses eauto | |]; intros name p; destruct (str_eqb name "mock") eqn:E;
    try discriminate; intros [= <-]; [typeclasses eauto | bools; subst; reflexivity].
Qed.

Definition client : BudgetClient :=
  mkBudgetClient (fun _ _ => inr [("bot-1", B_running)])%string
    (fun _ _ _ => inr (Usage_supported 30 (Some 200))) (fun _ _ _ _ => inr tt).
Definition user : BillingUser := mkBillingUser "user-1" "dana@example.com" None false.
Definition uuid (n : nat) : string := pretty n.
Definition start : Db := emptyDb uuid ["user-1"%string].
Definition serveAt (t : Z) (r : Request) (d : Db) : Db :=
  w_db (serve registry client true "https://app.example" (fun m => m) r (mkWorld d [] t [])).2.
Definition request (body : string) : WebhookRequest := mkWebhookRequest body (fun _ => None).
Definition webhook (body : string) : Request := R_handleWebhook "mock" (request body).

(** A checkout of the basic plan is opened and paid, then the order is cancelled. *)
Definition opened : Db := serveAt day1 (R_startCheckout user basic) start.
Definition paid : Db := serveAt day1 (webhook "paid") opened.
Definition ended : Db := serveAt (3 * day1) (webhook "cancelled") paid.

Lemma uuid_inj i j : uuid i = uuid j -> i = j.
Proof. apply (inj pretty). Qed.
Lemma start_ok : Inv start.
Proof. apply Inv_empty, uuid_inj. Qed.

Lemma served_at t r d : wellFormedRequest r = true ->
  Served registry client true "https://app.example" (fun m => m) d (serveAt t r d).
Proof.
  intros Hr. unfold serveAt. destruct (serve _ _ _ _ _ r (mkWorld d [] t [])) as [res w'] eqn:E.
  eapply (served _ _ _ _ _ r [] t []); [exact Hr | constructor | exact E].
Qed.

Lemma history_paid : History registry client true "https://app.example" (fun m => m) start paid.
Proof.
  apply (history_cons _ _ _ _ _ start opened); [apply served_at; reflexivity|].
  apply (history_cons _ _ _ _ _ opened paid); [apply served_at; reflexivity|].
  apply history_nil.
Qed.
Lemma history_ended : History registry client true "https://app.example" (fun m => m) paid ended.
Proof.
  apply (history_cons _ _ _ _ _ paid ended); [|apply history_nil].
  unfold ended. apply served_at. reflexivity.
Qed.
Lemma opened_ok : Inv opened.
Proof. apply (served_ok _ _ _ _ _ _ _ (served_at day1 (R_startCheckout user basic) start eq_refl) start_ok). Qed.
Lemma paid_ok : Inv paid.
Proof. apply (history_ok _ _ _ _ _ _ _ history_paid start_ok). Qed.

(** The payment made an active subscription with 2500 credits, 60 of them
    already used by the bot, and completed the checkout. *)
Example demo_paid :
  (List.map sub_status (db_subs paid), List.map pay_status (db_payments paid),
   List.map cs_status (db_checkouts paid), List.map be_status (db_events paid),
   List.map (fun g => (g_kind g, g_credits g, g_usedCredits g)) (db_grants paid))
  = ([S_active], [Pay_succeeded], [C_completed], [E_processed], [(G_plan, 2500, 60)]).
Proof. vm_compute. reflexivity. Qed.
End Demo.

Section Theorems.
Variable providers : ProviderRegistry.
Context `{Hreg : !RegistryLaws providers}.
Variable client : BudgetClient.
Variable enforcement : bool.
Variable appUrl : string.
Variable sha256 : string -> string.

(** C1: The ledger always adds up.  In every store a deployment can reach from an
    empty one, by any requests and any interleaving of their accesses, no grant
    has negative use or more use than credits, no two grants have the same
    source, and the credits the grants have paid equal, over all bots, the
    credits consumed less those reported as unpaid. *)
Theorem ledger_conserved uuid owners d :
  (forall i j, uuid i = uuid j -> i = j) ->
  History providers client enforcement appUrl sha256 (emptyDb uuid owners) d ->
  (forall g, In g (db_grants d) -> 0 <= g_usedCredits g <= g_credits g) /\
  NoDup (List.map g_sourceRef (db_grants d)) /\
  (forall c, In c (db_usage d) -> 0 <= u_unallocatedCredits c <= u_consumedCredits c) /\
  sumZ g_usedCredits (db_grants d)
    = sumZ (fun c => u_consumedCredits c - u_unallocatedCredits c) (db_usage d).
Proof.
  intros Hu Hh. destruct (history_ok _ _ _ _ _ _ _ Hh (Inv_empty _ _ Hu)) as [Hi _].
  split; [|split; [|split]].
  - intros g Hg. pose proof (inv_grants d Hi) as H. rewrite Forall_forall in H.
    apply H, list_elem_of_In, Hg.
  - apply inv_source_refs, Hi.
  - intros c Hc. pose proof (inv_usage d Hi) as H. rewrite Forall_forall in H.
    apply H, list_elem_of_In, Hc.
  - apply (inv_ledger d Hi).
Qed.

(** Credits are never lost behind the user's back.  Whatever requests are
    served, a grant never disappears, keeps its owner, kind, source, date and
    expiry, its use only grows and its credits only shrink (a refund), never
    below its use; and a bot's metered consumption never goes down. *)
Theorem ledger_monotone d d' : Inv d -> History providers client enforcement appUrl sha256 d d' ->
  (forall g, In g (db_grants d) -> exists g', In g' (db_grants d') /\
     (g_id g', g_userId g', g_sourceRef g') = (g_id g, g_userId g, g_sourceRef g) /\
     (g_kind g', g_grantedAt g', g_expiresAt g') = (g_kind g, g_grantedAt g, g_expiresAt g) /\
     g_usedCredits g <= g_usedCredits g' <= g_credits g' /\ g_credits g' <= g_credits g) /\
  (forall c, In c (db_usage d) -> exists c', In c' (db_usage d') /\
     (u_botId c', u_userId c') = (u_botId c, u_userId c) /\
     u_consumedCredits c <= u_consumedCredits c' /\ u_unallocatedCredits c <= u_unallocatedCredits c').
Proof.
  intros Hi Hh. destruct (history_ok _ _ _ _ _ _ _ Hh Hi) as [Hi' Hs]. split.
  - intros g Hg. destruct (extends_in _ _ _ _ (st_grants _ _ Hs) Hg) as (g' & Hg' & [H1 H2 H3 H4]).
    exists g'. pose proof (inv_grants d' Hi') as H. rewrite Forall_forall in H.
    specialize (H g' (proj2 (list_elem_of_In _ _) Hg')). unfold grantOk in H. repeat split; auto; lia.
  - intros c Hc. destruct (extends_in _ _ _ _ (st_usage _ _ Hs) Hc) as (c' & Hc' & [H1 H2 H3 H4]).
    exists c'. auto.
Qed.

(** Money is recorded once and for ever.  In a well-formed store two payments
    never share a provider and a payment id, and served requests keep it so; a
    recorded payment never disappears, its amount, currency, date, plan, owner
    and subscription never change, and its status can only become refunded. *)
Theorem payments_immutable d d' : Inv d -> History providers client enforcement appUrl sha256 d d' ->
  NoDup (List.map payKey (db_payments d')) /\
  forall p, In p (db_payments d) -> exists p', In p' (db_payments d') /\
    (pay_id p', pay_provider p', pay_providerPaymentId p') = (pay_id p, pay_provider p, pay_providerPaymentId p) /\
    (pay_planCode p', pay_amountAgorot p', pay_currency p', pay_occurredAt p')
      = (pay_planCode p, pay_amountAgorot p, pay_currency p, pay_occurredAt p) /\
    (pay_userId p', pay_subscriptionId p') = (pay_userId p, pay_subscriptionId p) /\
    (pay_status p' = pay_status p \/ pay_status p' = Pay_refunded).
Proof.
  intros Hi Hh. destruct (history_ok _ _ _ _ _ _ _ Hh Hi) as [Hi' Hs]. split; [apply inv_pay_keys, Hi'|].
  intros p Hp. destruct (extends_in _ _ _ _ (st_payments _ _ Hs) Hp) as (p' & Hp' & [H1 H2 H3 H4]).
  exists p'. auto.
Qed.

(** A checkout settles once.  A session that is completed or failed keeps its
    outcome and its settlement date whatever comes after, what any session sells
    (buyer, product, credits, price) never changes, and a session is pending
    exactly as long as it has no settlement date. *)
Theorem checkout_settles_once d d' : Inv d -> History providers client enforcement appUrl sha256 d d' ->
  (forall c, In c (db_checkouts d') -> cs_status c = C_pending <-> cs_settledAt c = None) /\
  forall c, In c (db_checkouts d) -> exists c', In c' (db_checkouts d') /\ cs_id c' = cs_id c /\
    (cs_userId c', cs_provider c', cs_kind c', cs_productCode c', cs_credits c', cs_amountAgorot c')
      = (cs_userId c, cs_provider c, cs_kind c, cs_productCode c, cs_credits c, cs_amountAgorot c) /\
    (cs_status c <> C_pending -> cs_status c' = cs_status c /\ cs_settledAt c' = cs_settledAt c).
Proof.
  intros Hi Hh. destruct (history_ok _ _ _ _ _ _ _ Hh Hi) as [Hi' Hs]. split.
  - intros c Hc. pose proof (inv_checkouts d' Hi') as H. rewrite Forall_forall in H.
    apply H, list_elem_of_In, Hc.
  - intros c Hc. destruct (extends_in _ _ _ _ (st_checkouts _ _ Hs) Hc) as (c' & Hc' & [H1 H2 H3 H4]).
    exists c'. auto.
Qed.

(** A subscription belongs to one user for ever.  No two stored
    subscriptions answer to the same provider reference, none disappears or
    changes its reference, and once one is linked to a user no webhook, checkout
    or plan change links it to another. *)
Theorem subscription_owner_kept d d' : Inv d -> History providers client enforcement appUrl sha256 d d' ->
  NoDup (List.map subKey (db_subs d')) /\
  forall s, In s (db_subs d) -> exists s', In s' (db_subs d') /\ sub_id s' = sub_id s /\ subKey s' = subKey s /\
    (forall u, sub_userId s = Some u -> sub_userId s' = Some u).
Proof.
  intros Hi Hh. destruct (history_ok _ _ _ _ _ _ _ Hh Hi) as [Hi' Hs]. split; [apply inv_sub_keys, Hi'|].
  intros s Hin. destruct (extends_in _ _ _ _ (st_subs _ _ Hs) Hin) as (s' & Hs' & [H1 H2 H3 H4 H5]).
  exists s'. unfold subKey. repeat split; auto; congruence.
Qed.

(** The webhook inbox has one row per provider event, never loses one and
    never takes one up more than 60 times. *)
Theorem inbox_bounded d d' : Inv d -> History providers client enforcement appUrl sha256 d d' ->
  NoDup (List.map eventKey (db_events d')) /\
  (forall e, In e (db_events d') -> 1 <= be_attempts e <= 60) /\
  forall e, In e (db_events d) -> exists e', In e' (db_events d') /\ be_id e' = be_id e /\
    eventKey e' = eventKey e /\ be_payload e' = be_payload e /\ be_attempts e <= be_attempts e'.
Proof.
  intros Hi Hh. destruct (history_ok _ _ _ _ _ _ _ Hh Hi) as [Hi' Hs]. split; [apply inv_event_keys, Hi'|]. split.
  - intros e He. pose proof (inv_events d' Hi') as H. rewrite Forall_forall in H.
    apply H, list_elem_of_In, He.
  - intros e He. destruct (extends_in _ _ _ _ (st_events _ _ Hs) He) as (e' & He' & [H1 H2 H3]).
    exists e'. injection H1 as E1 E2 E3. injection H2 as F1 F2 F3. unfold eventKey.
    repeat split; auto; congruence.
Qed.
End Theorems.

(** ** Witnesses *)
Example ledger_conserved_witness :
  (forall i j, Demo.uuid i = Demo.uuid j -> i = j) /\
  sumZ g_usedCredits (db_grants Demo.paid)
    = sumZ (fun c => u_consumedCredits c - u_unallocatedCredits c) (db_usage Demo.paid).
Proof.
  split; [exact Demo.uuid_inj|].
  exact (proj2 (proj2 (proj2 (ledger_conserved Demo.registry Demo.client true "https://app.example" (fun m => m)
           Demo.uuid ["user-1"%string] Demo.paid Demo.uuid_inj Demo.history_paid)))).
Defined.

Example ledger_monotone_witness :
  (length (db_grants Demo.paid) = 1)%nat /\
  forall g, In g (db_grants Demo.paid) -> exists g', In g' (db_grants Demo.ended) /\
     (g_id g', g_userId g', g_sourceRef g') = (g_id g, g_userId g, g_sourceRef g) /\
     (g_kind g', g_grantedAt g', g_expiresAt g') = (g_kind g, g_grantedAt g, g_expiresAt g) /\
     g_usedCredits g <= g_usedCredits g' <= g_credits g' /\ g_credits g' <= g_credits g.
Proof.
  split; [vm_compute; reflexivity|].
  exact (proj1 (ledger_monotone Demo.registry Demo.client true "https://app.example" (fun m => m)
           Demo.paid Demo.ended Demo.paid_ok Demo.history_ended)).
Defined.

Example payments_immutable_witness :
  (length (db_payments Demo.paid) = 1)%nat /\ NoDup (List.map payKey (db_payments Demo.ended)).
Proof.
  split; [vm_compute; reflexivity|].
  exact (proj1 (payments_immutable Demo.registry Demo.client true "https://app.example" (fun m => m)
           Demo.paid Demo.ended Demo.paid_ok Demo.history_ended)).
Defined.

Example checkout_settles_once_witness :
  (length (db_checkouts Demo.paid) = 1)%nat /\
  forall c, In c (db_checkouts Demo.ended) -> cs_status c = C_pending <-> cs_settledAt c = None.
Proof.
  split; [vm_compute; reflexivity|].
  exact (proj1 (checkout_settles_once Demo.registry Demo.client true "https://app.example" (fun m => m)
           Demo.paid Demo.ended Demo.paid_ok Demo.history_ended)).
Defined.

Example subscription_owner_kept_witness :
  (length (db_subs Demo.paid) = 1)%nat /\ NoDup (List.map subKey (db_subs Demo.ended)).
Proof.
  split; [vm_compute; reflexivity|].
  exact (proj1 (subscription_owner_kept Demo.registry Demo.client true "https://app.example" (fun m => m)
           Demo.paid Demo.ended Demo.paid_ok Demo.history_ended)).
Defined.

Example inbox_bounded_witness :
  (length (db_events Demo.ended) = 2)%nat /\ NoDup (List.map eventKey (db_events Demo.ended)).
Proof.
  split; [vm_compute; reflexivity|].
  exact (proj1 (inbox_bounded Demo.registry Demo.client true "https://app.example" (fun m => m)
           Demo.paid Demo.ended Demo.paid_ok Demo.history_ended)).
Defined.

