(* ===== verification/BillingProps.v ===== *)
(** What the billing service computes: renewals, trials, checkouts,
    cancellations, plan changes and refunds, with nothing else running unless a
    theorem says otherwise. *)
From S2P Require Import Prelude Dates Pricing Domain Entitlement Allocation CreditViews TrialKey.
From S2P Require Import Store StoreInv StoreProps Provider Credits CreditsProps Billing BillingSafety Safety.
From stdpp Require Import list strings pretty.
#[local] Open Scope Z_scope.

(** ** Payments *)
Definition paidAlready (provider : PaymentProviderName) (ref : string) (d : Db) : bool :=
  List.existsb (samePayment provider ref) (db_payments d).

Lemma hasId_key id s : hasId id s = true <-> sub_id s = id.
Proof. apply str_eqb_eq. Qed.

Lemma nextPeriodEnd_forward s reported paidAt plan c :
  sub_currentPeriodEnd s = Some c ->
  c <= nextPeriodEnd s reported paidAt plan /\ (reported = None -> c < nextPeriodEnd s reported paidAt plan).
Proof.
  intros Hc. unfold nextPeriodEnd. rewrite Hc. destruct reported as [r|].
  - rewrite laterOf_max. split; [lia | discriminate].
  - pose proof (addInterval_later (laterOf c paidAt) (interval plan)) as H. rewrite laterOf_max in *.
    split; [|intros _]; lia.
Qed.

(** One renewal transaction, in a store where the compare-and-set matches. *)
Lemma renewal_tx_matches t input d s : Inv d -> In s (db_subs d) -> sub_id s = ri_subscriptionId input ->
  sub_currentPeriodEnd s = ri_expectedPeriodEnd input ->
  let pay := ri_payment input in
  if paidAlready (np_provider pay) (np_providerPaymentId pay) d
  then renewal_tx t input d = (Duplicate_payment, d)
  else exists row d', renewal_tx t input d = (Applied_payment (applyPatch t (ri_patch input) s), d') /\
    samePayment (np_provider pay) (np_providerPaymentId pay) row = true /\
    db_payments d' = db_payments d ++ [row] /\
    stored (sub_provider s) (sub_providerSubscriptionId s) d' = Some (applyPatch t (ri_patch input) s) /\
    db_grants d' = db_grants d.
Proof.
  intros Hi Hin Hid Hexp pay. unfold paidAlready, renewal_tx, insertPayment_stmt, withSubscriptionId.
  cbn [np_provider np_providerPaymentId]. fold pay.
  destruct (List.existsb _ _) eqn:Hp; cbn [negb]; [reflexivity|].
  set (row := mkPayment _ _ _ _ _ _ _ _ _ _). set (d1 := drawId _).
  assert (Hf : List.find (hasId (ri_subscriptionId input)) (db_subs d1) = Some s).
  { apply (find_unique sub_id _ _ (hasId_key _)); [apply (inv_sub_ids d Hi) | exact Hin | exact Hid]. }
  assert (Hret := hd_returning_unique sub_id (hasId (ri_subscriptionId input)) _ (hasId_key _)
    (fun s => oz_eqb (sub_currentPeriodEnd s) (ri_expectedPeriodEnd input)) (applyPatch t (ri_patch input))
    _ s (proj2 (inv_sub_ids d Hi)) Hf).
  cbv beta in Hret.  rewrite (proj2 (oz_eqb_eq _ _) Hexp) in Hret.
  unfold update_subs. change (db_subs d1) with (db_subs d). rewrite Hret. exists row. eexists. split; [reflexivity|].
  split; [unfold samePayment; simpl; rewrite eqe_refl, str_eqb_refl; reflexivity|].
  split; [reflexivity|]. split; [|reflexivity].
  unfold stored, findByProviderRef_q. cbn [set_subs db_subs].
  rewrite find_update_where by reflexivity.
  rewrite (find_unique subKey _ (sub_provider s, sub_providerSubscriptionId s) (sameRef_key _ _) _ s);
    [| apply (inv_sub_keys d Hi) | exact Hin | reflexivity].
  rewrite (proj2 (hasId_key _ _) Hid), (proj2 (oz_eqb_eq _ _) Hexp). reflexivity.
Qed.

(** C32: A renewal is applied once and never shortens access.  With nothing else
    running, [renew] ends without a conflict.  If the charge is already recorded
    it changes nothing.  Otherwise it records the charge and moves the period end
    to the reported one or one interval further, never backwards; a charge at
    least as new as the stored state reactivates the subscription on the paid
    plan and clears a pending cancellation and a scheduled change, and an older
    one only extends the period: status, plan, flags and date stay. *)
Theorem renewal_once provider at_ event e plan userId d t calls : Inv d -> In e (db_subs d) ->
  let ref := pp_providerPaymentId (sc_payment event) in
  let w := mkWorld d [] t calls in
  if paidAlready provider ref d
  then renew provider at_ event e plan userId w = (inr Duplicate_payment, w)
  else exists s' row d', renew provider at_ event e plan userId w = (inr (Applied_payment s'), mkWorld d' [] t calls) /\
    db_payments d' = db_payments d ++ [row] /\ paidAlready provider ref d' = true /\
    stored (sub_provider e) (sub_providerSubscriptionId e) d' = Some s' /\
    sub_currentPeriodEnd s' = Some (nextPeriodEnd e (sc_periodEnd event) at_ plan) /\
    (forall c, sub_currentPeriodEnd e = Some c -> c <= nextPeriodEnd e (sc_periodEnd event) at_ plan /\
       (sc_periodEnd event = None -> c < nextPeriodEnd e (sc_periodEnd event) at_ plan)) /\
    (sub_id s', sub_userId s', sub_trialEndsAt s') = (sub_id e, sub_userId e, sub_trialEndsAt e) /\
    (sub_status s', sub_planCode s', sub_scheduledPlanCode s', sub_cancelAtPeriodEnd s', sub_providerUpdatedAt s')
    = if at_ <? sub_providerUpdatedAt e
      then (sub_status e, sub_planCode e, sub_scheduledPlanCode e, sub_cancelAtPeriodEnd e, sub_providerUpdatedAt e)
      else (S_active, plan_code_str (plan_code plan), None, false, at_).
Proof.
  intros Hi Hin ref w. unfold renew. cbn [renewLoop RENEWAL_ATTEMPTS].
  set (input := mkRenewal _ _ _ _).
  pose proof (renewal_tx_matches t input d e Hi Hin eq_refl eq_refl) as H. cbv zeta in H.
  change (np_provider (ri_payment input)) with provider in H.
  change (np_providerPaymentId (ri_payment input)) with ref in H.
  unfold recordRenewal, w. cbv [bind now exec atomic w_env w_db w_now w_calls].
  destruct (paidAlready provider ref d) eqn:Hp; [rewrite H; reflexivity|].
  destruct H as (row & d' & Htx & Hrow & Hpay & Hst & _). rewrite Htx.
  exists (applyPatch t (ri_patch input) e), row, d'. split; [reflexivity|]. split; [assumption|].
  split; [unfold paidAlready; rewrite Hpay, List.existsb_app; simpl; rewrite Hrow, orb_true_r; reflexivity|].
  split; [assumption|].
  change (ri_patch input) with (renewalPatch at_ event e plan). unfold renewalPatch, isStale.
  split; [destruct (at_ <? _); reflexivity|]. split; [intros c; apply nextPeriodEnd_forward|].
  destruct (at_ <? _); split; reflexivity.
Qed.

(** ** Trials *)
Section Trials.
Variable providers : ProviderRegistry.
Context `{Hreg : !RegistryLaws providers}.
Variable client : BudgetClient.
Variable enforcement : bool.
Variable appUrl : string.
Variable sha256 : string -> string.

Definition mailbox (user : BillingUser) : string := trialClaimKey sha256 (bu_email user).

(** What the paid reasons say of the user, the trial apart. *)
Definition entitlementWithoutTrial (user : BillingUser) (d : Db) (t : Z) : Entitlement :=
  computeEntitlement (mkEntitlementInput (findCurrentByUserId_q (bu_id user) d) Trial_used (bu_betaAccess user) enforcement t).

Lemma paid_entitled i : isPaidReason (reason (computeEntitlement i)) = true -> entitled (computeEntitlement i) = true.
Proof.
  unfold computeEntitlement. pose proof (evaluate_entitled_paid (ei_subscription i) (ei_now i)) as Hp.
  destruct (entitled (evaluateSubscription _ _)) eqn:E; cbv zeta; [intros _; exact E|].
  destruct (ei_trial i), (ei_betaAccess i), (ei_enforcement i); simpl; congruence.
Qed.

Lemma claim_extends k d d' c : extends eq (db_claims d) (db_claims d') -> findClaim_q k d = Some c ->
  findClaim_q k d' = Some c.
Proof.
  unfold findClaim_q. intros (l1 & l2 & -> & H) Hf. assert (l1 = db_claims d) as -> by (clear Hf; induction H; congruence).
  rewrite find_app, Hf. reflexivity.
Qed.

Lemma claim_survives_deletion k u d c : findClaim_q k d = Some c ->
  findClaim_q k (deleteUser u d) = Some (mkTrialClaim (tc_emailHash c) (forget u (tc_userId c))).
Proof.
  unfold findClaim_q, deleteUser. cbn [db_claims].
  induction (db_claims d) as [|x l IH]; simpl; [discriminate|]. destruct (str_eqb (tc_emailHash x) k); [|exact IH].
  intros [= ->]. reflexivity.
Qed.

(** A user whose mailbox is someone else's gets nothing. *)
Lemma beforeBotCreate_claimed user d t calls c :
  findClaim_q (mailbox user) d = Some c -> tc_userId c <> Some (bu_id user) ->
  beforeBotCreate enforcement sha256 user (mkWorld d [] t calls)
  = (match trialStateOf (grantsOfUsers [bu_id user] d) t with
     | Trial_active _ _ _ => inr tt
     | _ => if isPaidReason (reason (entitlementWithoutTrial user d t)) then inr tt
            else if negb (entitled (entitlementWithoutTrial user d t)) then inl TrialUnavailableError
            else inr tt
     end, mkWorld d [] t calls).
Proof.
  intros Hc Hne. unfold beforeBotCreate, findCurrentByUserId, trialState, listGrantsByUserId, listGrantsByUserIds,
    honourTrialClaim, findClaimant, entitlementOf.
  cbv [bind query atomic now ret throw w_env w_db w_now w_calls].
  fold (mailbox user). fold (entitlementWithoutTrial user d t).
  destruct (trialStateOf _ _) eqn:Et; rewrite ?Hc; cbn [option_map];
    replace (ostr_eqb (tc_userId c) (Some (bu_id user))) with false
      by (symmetry; apply not_true_iff_false; rewrite ostr_eqb_eq; exact Hne);
    unfold entitlementWithoutTrial;
    repeat match goal with |- context [if ?b then _ else _] => destruct b end; reflexivity.
Qed.

(** C40: A mailbox gets one trial, for ever.  Once claimed, the claim of a mailbox
    survives every history of requests and the deletion of any account, keeping
    its claimant or, when that account is the one deleted, nobody.  A user the
    claim does not name then gets no trial: their request to create a bot claims
    nothing, grants nothing, records no product event, and is refused unless
    a trial already granted to them, a paid reason, or a deployment that does not
    enforce billing, lets them through. *)
Theorem trial_once_per_mailbox d d' k c gone : Inv d ->
  History providers client enforcement appUrl sha256 d d' -> findClaim_q k d = Some c ->
  forall d'', d'' = d' \/ d'' = deleteUser gone d' ->
  exists c'', findClaim_q k d'' = Some c'' /\
    (tc_userId c'' = tc_userId c \/ (tc_userId c = Some gone /\ tc_userId c'' = None)) /\
    forall user t calls, mailbox user = k -> tc_userId c'' <> Some (bu_id user) ->
      let run := beforeBotCreate enforcement sha256 user (mkWorld d'' [] t calls) in
      run.2 = mkWorld d'' [] t calls /\
      (trialStateOf (grantsOfUsers [bu_id user] d'') t = Trial_available \/
       trialStateOf (grantsOfUsers [bu_id user] d'') t = Trial_used ->
       entitled (entitlementWithoutTrial user d'' t) = false -> run.1 = inl TrialUnavailableError).
Proof.
  intros Hi Hh Hc d'' Hd.
  destruct (history_ok _ _ _ _ _ _ _ Hh Hi) as [_ Hs].
  pose proof (claim_extends _ _ _ _ (st_claims _ _ Hs) Hc) as Hc'.
  assert (Hex : exists c'', findClaim_q k d'' = Some c'' /\
    (tc_userId c'' = tc_userId c \/ (tc_userId c = Some gone /\ tc_userId c'' = None))).
  { destruct Hd as [-> | ->]; [exists c; auto|].
    exists (mkTrialClaim (tc_emailHash c) (forget gone (tc_userId c))).
    split; [apply claim_survives_deletion, Hc'|]. cbn [tc_userId]. unfold forget.
    destruct (ostr_eqb _ _) eqn:E; bools; auto. }
  destruct Hex as (c'' & Hc'' & Hown). exists c''. split; [exact Hc''|]. split; [exact Hown|].
  intros user t calls Hk Hne run. subst k run.
  rewrite (beforeBotCreate_claimed user d'' t calls c'' Hc'' Hne). cbn [fst snd]. split; [reflexivity|].
  intros Htr Hent. assert (Hp : isPaidReason (reason (entitlementWithoutTrial user d'' t)) = false).
  { apply not_true_iff_false. intros Hp. apply paid_entitled in Hp. unfold entitlementWithoutTrial in Hent. congruence. }
  rewrite Hp, Hent. destruct Htr as [-> | ->]; reflexivity.
Qed.

(** The first bot of a new mailbox starts the trial.  An unpaid user with no
    grant, whose mailbox nobody claimed, may create a bot; the mailbox is then
    claimed by them, and they hold one trial grant of 400 credits that expires
    seven days later, announced once.  Asking again at any time before it
    expires changes nothing and is allowed. *)
Theorem trial_starts_once user d t calls :
  findClaim_q (mailbox user) d = None -> grantsOfUsers [bu_id user] d = [] ->
  (forall g, In g (db_grants d) -> g_sourceRef g <> ("trial:" ++ bu_id user)%string) ->
  isPaidReason (reason (entitlementWithoutTrial user d t)) = false ->
  exists d' g,
    beforeBotCreate enforcement sha256 user (mkWorld d [] t calls)
      = (inr tt, mkWorld d' [] t (calls ++ [Track_trial_started (bu_id user)])) /\
    findClaim_q (mailbox user) d' = Some (mkTrialClaim (mailbox user) (Some (bu_id user))) /\
    db_grants d' = db_grants d ++ [g] /\
    (g_userId g, g_kind g, g_credits g, g_usedCredits g, g_expiresAt g)
      = (bu_id user, G_trial, 400, 0, Some (t + 7 * DAY_MS)) /\
    forall t' calls', t <= t' < t + 7 * DAY_MS ->
      beforeBotCreate enforcement sha256 user (mkWorld d' [] t' calls') = (inr tt, mkWorld d' [] t' calls').
Proof.
  intros Hc Hg Href Hpaid.
  assert (Hnew : List.existsb (fun g => str_eqb (g_sourceRef g) ("trial:" ++ bu_id user)) (db_grants d) = false).
  { apply not_true_iff_false. intros H. apply existsb_exists in H as (g & Hin & H). bools. exact (Href g Hin H). }
  set (row := mkTrialClaim (mailbox user) (Some (bu_id user))).
  set (g := mkCreditGrant (newId d) (bu_id user) G_trial TRIAL_CREDITS 0 ("trial:" ++ bu_id user) t (Some (t + TRIAL_DAYS * DAY_MS))).
  exists (drawId (set_grants (db_grants d ++ [g]) (set_claims (db_claims d ++ [row]) d))), g.
  split.
  { unfold beforeBotCreate, findCurrentByUserId, trialState, listGrantsByUserId, listGrantsByUserIds,
      honourTrialClaim, findClaimant, entitlementOf, claimTrial, startTrial, insertIfAbsent.
    cbv [bind query exec atomic now ret throw record w_env w_db w_now w_calls].
    fold (mailbox user). rewrite Hg.
    change (trialStateOf [] t) with Trial_available. cbv iota beta. rewrite Hc. cbn [option_map].
    unfold entitlementWithoutTrial in Hpaid. rewrite Hpaid.
    unfold claim_stmt. rewrite Hc. cbv iota beta zeta.
    unfold insertGrant_stmt. cbn [ng_sourceRef set_claims db_grants]. rewrite Hnew. reflexivity. }
  split.
  { unfold findClaim_q in *. cbn [drawId set_grants set_claims db_claims]. rewrite find_app, Hc. simpl.
    rewrite str_eqb_refl. reflexivity. }
  split; [reflexivity|]. split; [reflexivity|].
  intros t' calls' Ht.
  unfold beforeBotCreate, findCurrentByUserId, trialState, listGrantsByUserId, listGrantsByUserIds,
    honourTrialClaim.
  cbv [bind query exec atomic now ret throw record w_env w_db w_now w_calls].
  assert (Hgs : grantsOfUsers [bu_id user] (drawId (set_grants (db_grants d ++ [g]) (set_claims (db_claims d ++ [row]) d))) = [g]).
  { unfold grantsOfUsers in *. cbn [drawId set_grants db_grants].
    assert (Hnil : List.filter (fun g => List.existsb (str_eqb (g_userId g)) [bu_id user]) (db_grants d) = []).
    { pose proof (isort_perm (fun a b => g_grantedAt a <=? g_grantedAt b)
        (List.filter (fun g => List.existsb (str_eqb (g_userId g)) [bu_id user]) (db_grants d))) as Hp.
      unfold orderAsc in Hg. rewrite Hg in Hp. apply Permutation_nil in Hp. exact Hp. }
    rewrite List.filter_app, Hnil. simpl. rewrite str_eqb_refl. reflexivity. }
  rewrite Hgs. unfold trialStateOf. cbn [List.find g_kind g]. rewrite eqe_refl. cbn [g_expiresAt g].
  assert (Hlive : isGrantLive g t' = true).
  { unfold isGrantLive, g. cbn. unfold TRIAL_DAYS. apply Z.ltb_lt. lia. }
  rewrite Hlive. reflexivity.
Qed.
End Trials.

(** ** Checkouts *)
Section Checkouts.
Variable providers : ProviderRegistry.
Context `{Hreg : !RegistryLaws providers}.
Variable appUrl : string.

Definition activeProvider : PaymentProvider := rg_active providers.

Definition reopenQuery (user : BillingUser) (product : CheckoutProduct) (t : Z) : ReopenableCheckoutQuery :=
  mkReopenable (bu_id user) (pv_name activeProvider) (cp_kind product) (cp_productCode product)
    (cp_credits product) (cp_amountAgorot product) (t + REUSED_CHECKOUT_MIN_LIFETIME_MS).

Definition owesRenewal (userId : string) (d : Db) : bool :=
  match findCurrentByUserId_q userId d with Some s => isStuckOverdue providers s | None => false end.

(** The session a checkout opens. *)
Definition openedSession (user : BillingUser) (product : CheckoutProduct) (d : Db) (t : Z) : CheckoutSession :=
  mkCheckoutSession (newId d) (bu_id user) (pv_name activeProvider) (cp_kind product) (cp_productCode product)
    (cp_credits product) (cp_amountAgorot product) C_pending None t (t + HOUR_MS) None.

Definition checkoutInput (user : BillingUser) (product : CheckoutProduct) (d : Db) (t : Z) : CreateCheckoutInput :=
  mkCreateCheckout (newId d) (bu_id user) (bu_email user) (bu_name user)
    (if cp_kind product =e K_subscription then mode_subscription else mode_one_time)
    (cp_interval product) (cp_productCode product) (cp_credits product) (cp_amountAgorot product)
    "ILS" (checkoutReturnUrl appUrl (newId d)) (checkoutReturnUrl appUrl (newId d)) (t + HOUR_MS).

Definition withSession (c : CheckoutSession) (d : Db) : Db := drawId (set_checkouts (db_checkouts d ++ [c]) d).

Lemma orderDesc_nil {A} (key : A -> Z) : orderDesc key [] = [].
Proof. reflexivity. Qed.

Lemma assertCheckoutAllowed_alone userId kind t d calls :
  assertCheckoutAllowed providers userId kind t (mkWorld d [] t calls)
  = (if (kind =e K_subscription) && owesRenewal userId d then inl PaymentOverdueError
     else if 10 <=? openedSince userId (t - HOUR_MS) d then inl (TooManyCheckoutsError 10)
     else inr tt, mkWorld d [] t calls).
Proof.
  unfold assertCheckoutAllowed, countOpenedSince, findCurrentByUserId, owesRenewal.
  change MAX_OPEN_CHECKOUTS_PER_HOUR with 10.
  cbv [bind query atomic now ret throw w_env w_db w_now w_calls].
  destruct (kind =e K_subscription); cbn [andb]; [|destruct (_ <=? _); reflexivity].
  destruct (findCurrentByUserId_q userId d) as [s|]; [destruct (isStuckOverdue providers s)|]; try reflexivity;
    destruct (_ <=? _); reflexivity.
Qed.

Lemma session_found d (f : CheckoutSession -> CheckoutSession) p c : Inv d ->
  cs_id c = newId d -> (forall x, cs_id (f x) = cs_id x) ->
  List.find (hasCheckoutId (newId d)) (update_where p f (db_checkouts (withSession c d)))
  = Some (if p c then f c else c).
Proof.
  intros Hi Hid Hf. rewrite find_update_where by (intros x; unfold hasCheckoutId; rewrite Hf; reflexivity).
  cbn [withSession drawId set_checkouts db_checkouts]. rewrite find_app.
  destruct (List.find (hasCheckoutId (newId d)) (db_checkouts d)) as [x|] eqn:Hx.
  - apply List.find_some in Hx as [Hin Hx]. unfold hasCheckoutId in Hx. bools. exfalso.
    destruct (inv_checkout_ids d Hi) as [Hids _]. rewrite Forall_forall in Hids.
    apply (issued_fresh d (cs_id x) Hi); [|assumption]. apply Hids, list_elem_of_In, in_map, Hin.
  - simpl. unfold hasCheckoutId. rewrite Hid, str_eqb_refl. reflexivity.
Qed.

(** Opening a checkout is limited and never leaves a dead session open.  With
    no session to reopen, a user whose subscription waits for an overdue payment
    that only its provider can settle, or who opened ten sessions in the last
    hour, is refused and nothing changes.  Otherwise one session is stored, with
    the product as it is sold, before the provider hears of it; if the provider
    refuses, the error is passed on and the session is failed at once; if a link
    comes back, the session is pending and carries the provider's id. *)
Theorem openCheckout_outcome user product d t calls : Inv d -> 0 <= cp_credits product ->
  List.filter (isReopenable (reopenQuery user product t)) (db_checkouts d) = [] ->
  let run := openCheckout providers appUrl user product (mkWorld d [] t calls) in
  let c := openedSession user product d t in
  if (cp_kind product =e K_subscription) && owesRenewal (bu_id user) d
  then run = (inl PaymentOverdueError, mkWorld d [] t calls)
  else if 10 <=? openedSince (bu_id user) (t - HOUR_MS) d
  then run = (inl (TooManyCheckoutsError 10), mkWorld d [] t calls)
  else
    match (pv_createCheckout activeProvider (checkoutInput user product d t) (mkWorld (withSession c d) [] t calls)).1 with
    | inl err =>
        run.1 = inl err /\
        List.find (hasCheckoutId (newId d)) (db_checkouts (w_db run.2)) = Some (settled C_failed t c)
    | inr result =>
        forall url, run.1 = inr url -> url = cr_url result /\
        List.find (hasCheckoutId (newId d)) (db_checkouts (w_db run.2))
        = Some (match cr_providerCheckoutId result with
                | Some ref => if str_eqb ref "" then c else withProviderCheckoutId ref c
                | None => c
                end)
    end.
Proof.
  intros Hi Hcr Hnone run c. subst run. unfold openCheckout, findReopenableCheckout, findReopenable.
  fold activeProvider. cbv [bind now query atomic w_env w_db w_now w_calls].
  fold (reopenQuery user product t). rewrite Hnone, orderDesc_nil. cbn [List.hd_error]. cbv [ret].
  rewrite assertCheckoutAllowed_alone. destruct (_ && _); [reflexivity|]. destruct (10 <=? _); [reflexivity|].
  cbv [createCheckoutSession now exec atomic bind w_env w_db w_now w_calls].
  unfold insertCheckout_stmt. cbv beta iota zeta.
  cbn [nc_userId nc_provider nc_kind nc_productCode nc_credits nc_amountAgorot nc_expiresAt cs_id].
  change CHECKOUT_TTL_MS with HOUR_MS.
  fold (openedSession user product d t). fold c. fold (withSession c d). fold (checkoutInput user product d t).
  unfold createProviderCheckout. cbv [catch bind].
  destruct (law_createCheckout (ProviderLaws := reg_active) (checkoutInput user product d t)
              (mkWorld (withSession c d) [] t calls)) as (E1 & E2 & E3). fold activeProvider in *.
  destruct (pv_createCheckout activeProvider _ _) as [[err|result] w1]; cbn [fst snd w_db w_env w_now] in *.
  - cbv [now settleCheckout exec atomic throw ret]. rewrite E1, E2, E3. cbn [checkoutInput ck_checkoutSessionId fst snd w_db].
    split; [reflexivity|]. unfold settle_stmt. cbn [snd set_checkouts db_checkouts].
    rewrite session_found; [|assumption|reflexivity|reflexivity].
    unfold hasCheckoutId, c. cbn [openedSession cs_id cs_status]. rewrite str_eqb_refl. reflexivity.
  - assert (Hsame : List.find (hasCheckoutId (newId d)) (db_checkouts (withSession c d)) = Some c).
    { pose proof (session_found d (fun x => x) (fun _ => false) c Hi eq_refl (fun _ => eq_refl)) as H.
      unfold update_where in H. rewrite List.map_id in H. exact H. }
    destruct (cr_providerCheckoutId result) as [ref|]; [destruct (str_eqb ref "")|];
      cbv [setProviderCheckoutId atomic record ret bind].
    + cbn [fst snd w_db]. rewrite E1. intros url [= <-]. auto.
    + rewrite E1, E2. unfold setCheckoutRef_stmt. destruct (List.existsb _ _); cbn [fst snd w_db]; intros url [= <-].
      split; [reflexivity|]. cbn [set_checkouts db_checkouts].
      rewrite session_found; [|assumption|reflexivity|reflexivity].
      unfold hasCheckoutId, c. cbn [openedSession cs_id]. rewrite str_eqb_refl. reflexivity.
    + cbn [fst snd w_db]. rewrite E1. intros url [= <-]. auto.
Qed.
End Checkouts.

(** ** Ending the standing orders of an account *)
Section Endings.
Variable providers : ProviderRegistry.
Context `{Hreg : !RegistryLaws providers}.

(** A provider's answer to a cancellation, when it is a snapshot: the same
    subscription, scheduled to end, no older than what is stored. *)
Definition CancelAnswers (p : PaymentProvider) : Prop :=
  forall ref w snap w', pv_cancelSubscription p ref w = (inr (Some snap), w') ->
    ps_providerSubscriptionId snap = ref /\ ps_cancelAtPeriodEnd snap = true /\
    forall s, stored (pv_name p) ref (w_db w) = Some s -> sub_providerUpdatedAt s <= ps_providerUpdatedAt snap.
Hypothesis Hcancel : forall name p, rg_byName providers name = Some p -> CancelAnswers p.

Definition ending (id : string) (d : Db) : Prop :=
  exists s, In s (db_subs d) /\ sub_id s = id /\ sub_cancelAtPeriodEnd s = true.

Lemma ending_update id p f d d' : db_subs d' = update_where p f (db_subs d) ->
  (forall s, sub_id (f s) = sub_id s) -> (forall s, sub_cancelAtPeriodEnd (f s) = true) -> ending id d -> ending id d'.
Proof.
  intros Hd Hid Hf (s & Hin & Hs & He). exists (if p s then f s else s). rewrite Hd.
  split; [apply in_update_where; eauto|]. destruct (p s); [rewrite Hid|]; auto.
Qed.

Lemma ended_update p f d d' s : db_subs d' = update_where p f (db_subs d) ->
  (forall s, sub_id (f s) = sub_id s) -> (forall s, sub_cancelAtPeriodEnd (f s) = true) ->
  In s (db_subs d) -> p s = true -> ending (sub_id s) d'.
Proof.
  intros Hd Hid Hf Hin Hp. exists (f s). rewrite Hd, Hid. split; [|auto].
  apply in_update_where. exists s. rewrite Hp. auto.
Qed.

(** The row of an order, in the store reached so far. *)
Definition rowOf (s : Subscription) (d : Db) : Prop :=
  exists s0, In s0 (db_subs d) /\ sub_id s0 = sub_id s /\ subKey s0 = subKey s.

Lemma rowOf_step s d d' : Step d d' -> rowOf s d -> rowOf s d'.
Proof.
  intros Hs (s0 & Hin & Hid & Hk). destruct (extends_in _ _ _ _ (st_subs _ _ Hs) Hin) as (s1 & Hin1 & [H1 H2 H3 _ _]).
  exists s1. unfold subKey in *. repeat split; auto; congruence.
Qed.

Lemma updateState_ends s d t calls w' x : rowOf s d ->
  updateState (sub_id s) (cancelledPatch t) (mkWorld d [] t calls) = (inr x, w') ->
  ending (sub_id s) (w_db w') /\ forall id, ending id d -> ending id (w_db w').
Proof.
  intros (s0 & Hin & Hid & _) H. unfold updateState in H.
  cbv [bind now exec atomic w_env w_db w_now w_calls] in H. unfold update_subs in H. cbv beta iota zeta in H.
  destruct (List.hd_error _); [|discriminate]. injection H as _ <-. cbn [w_db].
  split; [rewrite <- Hid; eapply ended_update; [reflexivity | reflexivity | reflexivity | exact Hin | apply str_eqb_eq; reflexivity]
         | intros id; eapply ending_update; reflexivity].
Qed.

Lemma upsert_ends s input d t calls w' x : Inv d -> rowOf s d -> ui_cancelAtPeriodEnd input = true ->
  (ui_provider input, ui_providerSubscriptionId input) = subKey s ->
  (forall s0, stored (sub_provider s) (sub_providerSubscriptionId s) d = Some s0 ->
     sub_providerUpdatedAt s0 <= ui_providerUpdatedAt input) ->
  upsertIfNewer input (mkWorld d [] t calls) = (inr x, w') ->
  ending (sub_id s) (w_db w') /\ forall id, ending id d -> ending id (w_db w').
Proof.
  intros Hi (s0 & Hin & Hid & Hk) Hc Hkey Hnew H.
  destruct (upsertIfNewer_alone input d t calls Hi) as (s' & _ & Hrun). rewrite Hrun in H. injection H as _ <-.
  cbn [w_db]. unfold subKey in *. injection Hkey as E1 E2. rewrite <- E1, <- E2 in *.
  assert (Hst : stored (ui_provider input) (ui_providerSubscriptionId input) d = Some s0).
  { apply (find_unique subKey _ _ (sameRef_key _ _)); [apply (inv_sub_keys d Hi) | exact Hin | exact Hk]. }
  specialize (Hnew s0 Hst). unfold stored, findByProviderRef_q in Hst.
  assert (Hd : db_subs (upsert_stmt t input d).2 = update_where
    (fun s => sameRef (ui_provider input) (ui_providerSubscriptionId input) s && (sub_providerUpdatedAt s <=? ui_providerUpdatedAt input))
    (mergeSubscription t input) (db_subs d)) by (unfold upsert_stmt; rewrite Hst; reflexivity).
  split; [rewrite <- Hid; eapply ended_update; [exact Hd | reflexivity | intros; exact Hc | exact Hin |]
         | intros id; apply (ending_update id _ _ d _ Hd); [reflexivity | intros; exact Hc]].
  apply andb_true_intro. split; [apply sameRef_key; exact Hk | apply Z.leb_le, Hnew].
Qed.

Lemma cancellation_ends s snap d t calls w' x : Inv d -> rowOf s d ->
  (forall sn, snap = Some sn -> ps_providerSubscriptionId sn = sub_providerSubscriptionId s /\
     ps_cancelAtPeriodEnd sn = true /\
     forall s0, stored (sub_provider s) (sub_providerSubscriptionId s) d = Some s0 ->
       sub_providerUpdatedAt s0 <= ps_providerUpdatedAt sn) ->
  applyCancellation s snap (mkWorld d [] t calls) = (inr x, w') ->
  ending (sub_id s) (w_db w') /\ forall id, ending id d -> ending id (w_db w').
Proof.
  intros Hi Hrow Hsn H. destruct snap as [sn|]; simpl in H.
  - destruct (Hsn sn eq_refl) as (E1 & E2 & E3).
    apply bind_inv in H as [(? & _ & E)|(r & w1 & H & Hw)]; [discriminate|]. injection Hw as _ <-.
    eapply (upsert_ends s (toUpsert (sub_provider s) sn (sub_userId s))); eauto.
    unfold subKey. cbn. congruence.
  - eapply updateState_ends; [eassumption | exact H].
Qed.

Lemma byName_name name p : byName providers name = Some p -> pv_name p = name.
Proof. intros H. apply reg_name in H. destruct (pv_name p), name; simpl in H; congruence. Qed.

Lemma deletionStep_ends s d t calls w' : Inv d -> rowOf s d -> sub_cancelAtPeriodEnd s = false ->
  deletionStep providers s (mkWorld d [] t calls) = (inr tt, w') ->
  ending (sub_id s) (w_db w') /\ forall id, ending id d -> ending id (w_db w').
Proof.
  intros Hi Hrow Hc H. unfold deletionStep in H. rewrite Hc in H.
  assert (Hnone : forall d calls w' (x : unit), Inv d -> rowOf s d ->
    (applyCancellation s None ;;; ret tt) (mkWorld d [] t calls) = (inr x, w') ->
    ending (sub_id s) (w_db w') /\ forall id, ending id d -> ending id (w_db w')).
  { clear. intros d calls w' x Hi Hrow H. apply bind_inv in H as [(? & _ & E)|(y & w1 & H & Hw)]; [discriminate|].
    injection Hw as _ <-. eapply (cancellation_ends s None d t calls _ y Hi Hrow); [discriminate | exact H]. }
  destruct (byName providers (sub_provider s)) as [p|] eqn:Hp; [|eapply Hnone; eassumption].
  destruct (cap_cancel _); [|eapply Hnone; eassumption].
  apply bind_inv in H as [(? & _ & E)|(y & w1 & H & Hw)]; [discriminate|]. injection Hw as <-.
  apply bind_inv in H as [(? & _ & E)|(snap & w2 & H & Hw)]; [discriminate|].
  destruct (law_cancelSubscription (ProviderLaws := reg_byName _ _ Hp) (sub_providerSubscriptionId s) (mkWorld d [] t calls))
    as (E1 & E2 & E3). rewrite H in *. simpl in E1, E2, E3.
  assert (Ew : w2 = mkWorld d [] t (w_calls w2)) by (destruct w2; simpl in *; subst; reflexivity).
  rewrite Ew in Hw. eapply (cancellation_ends s snap); try eassumption.
  intros sn ->. destruct (Hcancel _ _ Hp _ _ _ _ H) as (F1 & F2 & F3). rewrite (byName_name _ _ Hp) in F3. auto.
Qed.

Lemma deletionSteps_end orders d t calls w' : Inv d -> (forall s, In s orders -> rowOf s d) ->
  (forall s, In s orders -> sub_cancelAtPeriodEnd s = true -> ending (sub_id s) d) ->
  forM orders (deletionStep providers) (mkWorld d [] t calls) = (inr tt, w') ->
  (forall s, In s orders -> ending (sub_id s) (w_db w')) /\ forall id, ending id d -> ending id (w_db w').
Proof.
  revert d calls. induction orders as [|s orders IH]; intros d calls Hi Hrow Hend H; simpl in H.
  - injection H as <-. split; [intros s [] | auto].
  - apply bind_inv in H as [(? & _ & E)|([] & w1 & H1 & H)]; [discriminate|].
    assert (Hok : Guar Inv Step (deletionStep providers s)) by (unfold deletionStep; guar).
    destruct (guar_alone _ _ _ _ _ _ _ _ _ Hok Hi H1) as (d1 & c1 & -> & Hi1 & Hs1).
    assert (Hkeep : ending (sub_id s) d1 /\ forall id, ending id d -> ending id d1).
    { destruct (sub_cancelAtPeriodEnd s) eqn:Ec.
      - unfold deletionStep in H1. rewrite Ec in H1. injection H1 as <- _.
        split; [apply Hend; simpl; auto | auto].
      - apply (deletionStep_ends s d t calls _ Hi (Hrow s (or_introl eq_refl)) Ec H1). }
    destruct Hkeep as [Hk1 Hk2].
    destruct (IH d1 c1 Hi1) as [IH1 IH2].
    + intros x Hx. apply (rowOf_step x d d1 Hs1), Hrow. right. exact Hx.
    + intros x Hx Ex. apply Hk2, Hend; [right|]; assumption.
    + exact H.
    + split; [intros x [<-|Hx]; auto | auto].
Qed.

Lemma listLive_rows userId d s : In s (listLiveByUserId_q userId d) -> rowOf s d.
Proof.
  unfold listLiveByUserId_q, orderDesc. intros H. apply isort_in, filter_In in H as [H _]. exists s. auto.
Qed.

(** Deleting an account is all or nothing.  With a checkout opened in the last
    hour still pending, or an order whose overdue payment only its provider can
    settle, the deletion is refused before any provider is called and nothing
    changes.  When it goes through, and the providers answer a cancellation with
    a snapshot that is scheduled to end (or with none), every live standing order
    of the account is one that ends. *)
Theorem account_deletion_ends_orders userId d t calls : Inv d ->
  let run := cancelForAccountDeletion providers userId (mkWorld d [] t calls) in
  let pending := List.existsb (fun c => str_eqb (cs_userId c) userId && (cs_status c =e C_pending)
                    && (t - HOUR_MS <=? cs_createdAt c)) (db_checkouts d) in
  let orders := listLiveByUserId_q userId d in
  if pending then run = (inl PendingCheckoutError, mkWorld d [] t calls)
  else if List.existsb (isStuckOverdue providers) orders then run = (inl PaymentOverdueError, mkWorld d [] t calls)
  else run.1 = inr tt ->
    forall s, In s orders -> exists s', In s' (db_subs (w_db run.2)) /\ sub_id s' = sub_id s /\
      sub_cancelAtPeriodEnd s' = true.
Proof.
  intros Hi run pending orders. subst run.
  assert (Hrun : cancelForAccountDeletion providers userId (mkWorld d [] t calls)
    = if pending then (inl PendingCheckoutError, mkWorld d [] t calls)
      else if List.existsb (isStuckOverdue providers) orders then (inl PaymentOverdueError, mkWorld d [] t calls)
      else forM orders (deletionStep providers) (mkWorld d [] t calls)).
  { unfold cancelForAccountDeletion, hasPendingSince, endableLiveOrders, listLiveByUserId.
    cbv [bind now query atomic throw ret w_env w_db w_now w_calls]. change CHECKOUT_TTL_MS with HOUR_MS.
    fold pending. destruct pending; [reflexivity|]. fold orders. destruct (List.existsb _ orders); reflexivity. }
  rewrite Hrun. destruct pending; [reflexivity|]. destruct (List.existsb _ orders); [reflexivity|].
  destruct (forM _ _ _) as [r w'] eqn:H. cbn [fst snd]. intros -> s Hs.
  assert (Hrows : forall s, In s orders -> rowOf s d) by (intros; eapply listLive_rows; eassumption).
  destruct (deletionSteps_end orders d t calls w' Hi Hrows) as [He _]; [|exact H|apply He, Hs].
  intros x Hx Ex. unfold orders, listLiveByUserId_q, orderDesc in Hx. apply isort_in, filter_In in Hx as [Hx _].
  exists x. auto.
Qed.

Lemma ok_cancelStep current latest s : Guar Inv Step (cancelStep providers current latest s).
Proof.
  unfold cancelStep. destruct (sub_cancelAtPeriodEnd s); [guar|]. unfold Guar.
  eapply spec_bind; [typeclasses eauto | eapply ok_providerFor; typeclasses eauto | intros p Hp]. guar.
Qed.

(** The status is read: it changes nothing. *)
Lemma statusFor_reads enforcement sha256 user s d t calls : Inv d ->
  exists r, (statusFor providers enforcement sha256 user s (mkWorld d [] t calls)) = (inr r, mkWorld d [] t calls).
Proof.
  intros _. unfold statusFor, summary, listGrantsByUserId, listGrantsByUserIds, listCursorsByUserId,
    listCursorsByUserIds, buildStatus, honourTrialClaim, findClaimant, entitlementOf.
  cbv [bind now query atomic throw ret w_env w_db w_now w_calls].
  destruct (sm_trial _); eexists; reflexivity.
Qed.

Lemma providerFor_found s op flag w p w' : providerFor providers s op flag w = (inr p, w') ->
  byName providers (sub_provider s) = Some p /\ w' = w.
Proof.
  unfold providerFor. destruct (byName providers (sub_provider s)) as [q|]; [|discriminate].
  destruct (flag _); [|discriminate]. intros [= <- <-]. auto.
Qed.

Lemma cancelStep_ends current latest s d t calls r w' : Inv d -> rowOf s d -> sub_cancelAtPeriodEnd s = false ->
  cancelStep providers current latest s (mkWorld d [] t calls) = (inr r, w') ->
  ending (sub_id s) (w_db w') /\ forall id, ending id d -> ending id (w_db w').
Proof.
  intros Hi Hrow Hc H. unfold cancelStep in H. rewrite Hc in H.
  apply bind_inv in H as [(? & _ & E)|(p & w1 & H1 & H)]; [discriminate|].
  apply providerFor_found in H1 as [Hp ->].
  apply bind_inv in H as [(? & _ & E)|(y & w2 & H & Hw)]; [discriminate|]. injection Hw as _ <-.
  apply bind_inv in H as [(? & _ & E)|(snap & w3 & H & Hw)]; [discriminate|].
  destruct (law_cancelSubscription (ProviderLaws := reg_byName _ _ Hp) (sub_providerSubscriptionId s) (mkWorld d [] t calls))
    as (E1 & E2 & E3). rewrite H in *. simpl in E1, E2, E3.
  assert (Ew : w3 = mkWorld d [] t (w_calls w3)) by (destruct w3; simpl in *; subst; reflexivity).
  rewrite Ew in Hw. eapply (cancellation_ends s snap); try eassumption.
  intros sn ->. destruct (Hcancel _ _ Hp _ _ _ _ H) as (F1 & F2 & F3). rewrite (byName_name _ _ Hp) in F3. auto.
Qed.

Lemma cancelSteps_end current orders latest d t calls r w' : Inv d -> (forall s, In s orders -> rowOf s d) ->
  (forall s, In s orders -> sub_cancelAtPeriodEnd s = true -> ending (sub_id s) d) ->
  foldM (cancelStep providers current) latest orders (mkWorld d [] t calls) = (inr r, w') ->
  Inv (w_db w') /\ (forall s, In s orders -> ending (sub_id s) (w_db w')) /\
  (forall id, ending id d -> ending id (w_db w')) /\ exists d' c', w' = mkWorld d' [] t c'.
Proof.
  revert latest d calls. induction orders as [|s orders IH]; intros latest d calls Hi Hrow Hend H; simpl in H.
  - injection H as _ <-. split; [exact Hi|]. split; [intros s []|]. split; [auto | exists d, calls; reflexivity].
  - apply bind_inv in H as [(? & _ & E)|(l1 & w1 & H1 & H)]; [discriminate|].
    assert (Hok : Guar Inv Step (cancelStep providers current latest s)) by apply ok_cancelStep.
    destruct (guar_alone _ _ _ _ _ _ _ _ _ Hok Hi H1) as (d1 & c1 & -> & Hi1 & Hs1).
    assert (Hkeep : ending (sub_id s) d1 /\ forall id, ending id d -> ending id d1).
    { destruct (sub_cancelAtPeriodEnd s) eqn:Ec.
      - unfold cancelStep in H1. rewrite Ec in H1. injection H1 as _ <- _.
        split; [apply Hend; simpl; auto | auto].
      - apply (cancelStep_ends current latest s d t calls l1 _ Hi (Hrow s (or_introl eq_refl)) Ec H1). }
    destruct Hkeep as [Hk1 Hk2].
    destruct (IH l1 d1 c1 Hi1) as (IH0 & IH1 & IH2 & IH3).
    + intros x Hx. apply (rowOf_step x d d1 Hs1), Hrow. right. exact Hx.
    + intros x Hx Ex. apply Hk2, Hend; [right|]; assumption.
    + exact H.
    + split; [exact IH0|]. split; [intros x [<-|Hx]; auto|]. auto.
Qed.

(** Cancelling ends every standing order.  The command is refused, with
    nothing changed, when the user's current subscription grants no access or
    when an order waits for an overdue payment that only its provider can settle;
    when it goes through, and the providers answer with a snapshot that is
    scheduled to end (or with none), every live order of the user is one that
    ends. *)
Theorem cancel_ends_orders enforcement sha256 user d t calls : Inv d ->
  let run := Billing.cancel providers enforcement sha256 user (mkWorld d [] t calls) in
  let orders := listLiveByUserId_q (bu_id user) d in
  match findCurrentByUserId_q (bu_id user) d with
  | None => run = (inl NoSubscriptionError, mkWorld d [] t calls)
  | Some current =>
      if negb (entitled (evaluateSubscription (Some current) t))
      then run = (inl NoSubscriptionError, mkWorld d [] t calls)
      else if List.existsb (isStuckOverdue providers) orders
      then run = (inl PaymentOverdueError, mkWorld d [] t calls)
      else forall status, run.1 = inr status ->
        forall s, In s orders -> exists s', In s' (db_subs (w_db run.2)) /\ sub_id s' = sub_id s /\
          sub_cancelAtPeriodEnd s' = true
  end.
Proof.
  intros Hi run orders. subst run. unfold Billing.cancel, requireEntitledSubscription, requireSubscription,
    findCurrentByUserId, endableLiveOrders, listLiveByUserId.
  cbv [bind now query atomic throw ret w_env w_db w_now w_calls].
  destruct (findCurrentByUserId_q (bu_id user) d) as [current|]; [|reflexivity].
  destruct (negb _); [reflexivity|]. fold orders. destruct (List.existsb _ orders); [reflexivity|].
  destruct (foldM _ current orders _) as [[err|latest] w1] eqn:H; [discriminate|].
  intros status Hst s Hs.
  destruct (cancelSteps_end current orders current d t calls latest w1 Hi) as (Hi1 & He & _ & d1 & c1 & ->).
  - intros x Hx. eapply listLive_rows; eassumption.
  - intros x Hx Ex. unfold orders, listLiveByUserId_q, orderDesc in Hx. apply isort_in, filter_In in Hx as [Hx _].
    exists x. auto.
  - exact H.
  - destruct (statusFor_reads enforcement sha256 user latest d1 t c1 Hi1) as [r Hr]. rewrite Hr. apply He, Hs.
Qed.
End Endings.

(** ** Plan changes *)
Section PlanChanges.
Variable providers : ProviderRegistry.

(** What a plan change needs, of the user's current subscription [s] and its provider [p]. *)
Record Changeable (s : Subscription) (p : PaymentProvider) (plan : PlanCode) (t : Z) : Prop := {
  cg_entitled : entitled (evaluateSubscription (Some s) t) = true;
  cg_provider : byName providers (sub_provider s) = Some p;
  cg_capable : cap_changePlan (pv_capabilities p) = true;
  cg_paid_up : sub_status s <> S_past_due;
  cg_continuing : sub_cancelAtPeriodEnd s = false;
  cg_monthly : interval (resolvePlan (Some (sub_planCode s))) = month;
  cg_not_renewing : forall e, sub_currentPeriodEnd s = Some e -> t + HOUR_MS <= e;
  cg_other_plan : plan_code_str plan <>
    match sub_scheduledPlanCode s with
    | Some scheduled => scheduled
    | None => plan_code_str (plan_code (resolvePlan (Some (sub_planCode s))))
    end;
}.

Lemma renewsWithin_false s t : renewsWithin s t PLAN_CHANGE_RENEWAL_BUFFER_MS = false <->
  forall e, sub_currentPeriodEnd s = Some e -> t + HOUR_MS <= e.
Proof.
  unfold renewsWithin. change PLAN_CHANGE_RENEWAL_BUFFER_MS with HOUR_MS.
  destruct (sub_currentPeriodEnd s) as [e|]; [|split; [discriminate | reflexivity]].
  rewrite Z.ltb_ge. split; [intros H ? [= <-]; lia | intros H; specialize (H e eq_refl); lia].
Qed.

Ltac refused := split; [reflexivity | intros; split;
  [simpl; discriminate | intros (? & ? & [= <-] & [] & _); try congruence]].

(** Which plan changes are accepted.  A change is accepted exactly when the
    user's current subscription grants access, its provider can change plans, no
    payment is overdue, it is not set to end, it is billed monthly, its renewal
    is at least an hour away, and the target is not already the scheduled plan
    or, with none scheduled, the paid one.  The check changes nothing, and hands
    over the subscription, its provider and when the change is charged: now when
    the new plan is yearly or dearer, otherwise at the renewal. *)
Theorem planChange_accepted userId plan d t calls :
  let run := planChange providers userId plan (mkWorld d [] t calls) in
  run.2 = mkWorld d [] t calls /\
  (forall change, run.1 = inr change <->
     exists s p, findCurrentByUserId_q userId d = Some s /\ Changeable s p plan t /\
       change = mkPlanChange s p
         (if bool_decide (interval (PLANS plan) = year) ||
             Qltb (priceIls (resolvePlan (Some (sub_planCode s)))) (priceIls (PLANS plan))
          then prorate_now else at_renewal)).
Proof.
  assert (Hbill : forall paid, interval paid = month -> planChangeBilling paid (PLANS plan)
    = if bool_decide (interval (PLANS plan) = year) || Qltb (priceIls paid) (priceIls (PLANS plan))
      then prorate_now else at_renewal).
  { intros paid Hm. unfold planChangeBilling. rewrite Hm. destruct (interval (PLANS plan)); reflexivity. }
  unfold planChange, requireEntitledSubscription, requireSubscription, findCurrentByUserId, providerFor.
  cbv [bind query atomic now ret throw w_env w_db w_now w_calls]. cbv zeta.
  destruct (findCurrentByUserId_q userId d) as [s|]; cbv iota beta;
    [|split; [reflexivity | intros; split; [simpl; discriminate | intros (? & ? & [=] & _)]]].
  destruct (entitled (evaluateSubscription (Some s) t)) eqn:He; cbn [negb]; [|refused].
  destruct (byName providers (sub_provider s)) as [p|] eqn:Hp; [|refused].
  destruct (cap_changePlan (pv_capabilities p)) eqn:Hcap; [|refused].
  destruct (sub_status s =e S_past_due) eqn:Hst; bools; [refused|].
  destruct (sub_cancelAtPeriodEnd s) eqn:Hend; [refused|].
  destruct (bool_decide (interval (resolvePlan (Some (sub_planCode s))) = year)) eqn:Hy; bools; [refused|].
  destruct (renewsWithin s t _) eqn:Hr.
  { refused. apply renewsWithin_false in cg_not_renewing0. congruence. }
  destruct (str_eqb (plan_code_str plan) _) eqn:Hs; [bools; refused|].
  assert (Hmonth : interval (resolvePlan (Some (sub_planCode s))) = month)
    by (destruct (interval (resolvePlan _)); [reflexivity | contradiction]).
  rewrite (Hbill _ Hmonth). split; [reflexivity|]. intros change. split.
  - intros [= <-]. exists s, p. split; [reflexivity|]. split; [|reflexivity]. constructor; auto.
    + apply renewsWithin_false, Hr.
    + intros E. apply str_eqb_eq in E. congruence.
  - intros (s' & p' & [= <-] & Hch & ->). pose proof (cg_provider _ _ _ _ Hch) as Hpr.
    rewrite Hp in Hpr. injection Hpr as <-. reflexivity.
Qed.
End PlanChanges.
