(* ===== verification/Webhook.v ===== *)
(** The webhook inbox: claiming, retrying and acknowledging an event.

    The theorems run [handleWebhook] of [Billing] with nothing else running; what
    concurrent deliveries do is bounded by [Safety.inbox_bounded]. *)
From S2P Require Import Prelude Dates Pricing Domain Entitlement Allocation CreditViews TrialKey.
From S2P Require Import Store StoreInv StoreProps Provider Credits CreditsProps Billing BillingSafety Safety.
From stdpp Require Import list strings pretty.
#[local] Open Scope Z_scope.

(** ** One row of the inbox *)
Definition inbox (p : PaymentProviderName) (ref : string) (d : Db) : option BillingEvent :=
  List.find (sameEvent p ref) (db_events d).

Lemma existsb_find {A} (q : A -> bool) l :
  List.existsb q l = match List.find q l with Some _ => true | None => false end.
Proof. induction l as [|x l IH]; simpl; [reflexivity|]. destruct (q x); [reflexivity | exact IH]. Qed.

Lemma hd_error_map {A X} (f : A -> X) l : List.hd_error (List.map f l) = option_map f (List.hd_error l).
Proof. destruct l; reflexivity. Qed.

(** What a delivery finds and what it leaves, as a function of the row. *)
Inductive Claimed (t : Z) (input : ClaimBillingEventInput) (d : Db)
  : option BillingEvent -> ClaimBillingEventResult -> Db -> Prop :=
| claimed_new d' e :
    inbox (ci_provider input) (ci_providerEventId input) d' = Some e ->
    (be_status e, be_attempts e, be_receivedAt e) = (E_received, 1, t) ->
    Claimed t input d None (Claim_new (be_id e)) d'
| claimed_retry e d' :
    reclaimable t e = true ->
    inbox (ci_provider input) (ci_providerEventId input) d' = Some (reclaimed t e) ->
    Claimed t input d (Some e) (Claim_retry (be_id e)) d'
| claimed_duplicate e :
    reclaimable t e = false ->
    Claimed t input d (Some e) (Claim_duplicate (be_status e)) d.

Lemma claimEvent_alone input d t calls : Inv d ->
  exists res d', claimEvent input (mkWorld d [] t calls) = (inr res, mkWorld d' [] t calls) /\ Inv d' /\
    Claimed t input d (inbox (ci_provider input) (ci_providerEventId input) d) res d'.
Proof.
  intros Hi. unfold claimEvent, inbox. cbv [bind now exec query atomic w_env w_db w_now w_calls].
  pose proof (insertEvent_stmt_ok d Hi t input) as [Hi1 _].
  pose proof (reclaim_stmt_ok t input d Hi) as [Hi2 _].
  unfold insertEvent_stmt in *. rewrite existsb_find in *.
  destruct (List.find _ (db_events d)) as [e|] eqn:Hf; cbv beta iota zeta in *.
  - pose proof (hd_returning_unique eventKey (sameEvent (ci_provider input) (ci_providerEventId input))
      (ci_provider input, ci_providerEventId input) (sameEvent_key _ _) (reclaimable t) (reclaimed t) _ e
      (inv_event_keys d Hi) Hf) as Hr. cbv beta in Hr.
    unfold reclaim_stmt in *. rewrite hd_error_map, Hr.
    destruct (reclaimable t e) eqn:Hrec; cbn [option_map fst snd] in *.
    + eexists. eexists. split; [reflexivity|]. split; [exact Hi2|]. apply (claimed_retry t input d e); [exact Hrec|].
      unfold inbox. cbn [set_events db_events]. rewrite find_update_where by reflexivity. rewrite Hf.
      apply List.find_some in Hf as [_ Hf]. rewrite Hf, Hrec. reflexivity.
    + rewrite (update_where_unmatched eventKey _ _ (sameEvent_key _ _) _ _ _ e (inv_event_keys d Hi) Hf Hrec) in *.
      assert (E : set_events (db_events d) d = d) by (destruct d; reflexivity). rewrite E in *.
      rewrite Hf. eexists. eexists. split; [reflexivity|]. split; [exact Hi|]. apply claimed_duplicate, Hrec.
  - eexists. eexists. split; [reflexivity|]. split; [exact Hi1|]. apply claimed_new; [|reflexivity].
    unfold inbox. cbn [drawId set_events db_events]. rewrite find_app, Hf. simpl. unfold sameEvent. simpl.
    rewrite eqe_refl, str_eqb_refl. reflexivity.
Qed.

Lemma finishEvent_alone id input d t calls p ref e :
  inbox p ref d = Some e -> be_id e = id ->
  exists d', finishEvent id input (mkWorld d [] t calls) = (inr tt, mkWorld d' [] t calls) /\
    inbox p ref d' = Some (finished t input e).
Proof.
  intros He Hid. exists (finish_stmt t id input d).2. split; [reflexivity|]. unfold inbox, finish_stmt. cbn [snd set_events db_events].
  rewrite find_update_where by reflexivity. unfold inbox in He. rewrite He, Hid, str_eqb_refl. reflexivity.
Qed.

(** ** Processing a claimed event *)
Section Delivery.
Variable providers : ProviderRegistry.
Context `{Hreg : !RegistryLaws providers}.
Variable client : BudgetClient.

(** The handlers leave the inbox alone; the finish marks the claimed row. *)
Lemma applyEvent_finishes pn event id d t calls p ref e out w' :
  Inv d -> inbox p ref d = Some e -> be_id e = id ->
  applyEvent providers client pn event id (mkWorld d [] t calls) = (inr out, w') ->
  exists d' calls' e', w' = mkWorld d' [] t calls' /\ inbox p ref d' = Some e' /\
    (out = W_processed /\ be_status e' = E_processed \/ out = W_ignored /\ be_status e' = E_ignored).
Proof.
  intros Hi He Hid Hrun.
  assert (Hcorr : forall w1,
    (let! session := findReferencedSession pn (ev_checkoutSessionId event) in
     let! applied := applyCorrelatedEvent providers client pn event session in
     finishEvent id (mkFinish E_processed (Some (ap_userId applied)) (option_map note_str (ap_note applied))) ;;;
     ret W_processed) (mkWorld d [] t calls) = (inr out, w1) ->
    exists d' calls' e', w1 = mkWorld d' [] t calls' /\ inbox p ref d' = Some e' /\
      (out = W_processed /\ be_status e' = E_processed)).
  { intros w1 Hw. apply bind_inv in Hw as [(? & _ & ?)|(session & w2 & H1 & Hw)]; [discriminate|].
    pose proof (ok_findReferencedSession (G := SameEvents) pn (ev_checkoutSessionId event)) as Hs.
    assert (Hsells : sells session).
    { destruct (Hs (mkWorld d [] t calls) _ _ Hi (Forall_nil_2 _) H1) as (_ & _ & _ & HQ). exact HQ. }
    apply (guar_alone _ _ _ _ _ _ _ _ _ Hs Hi) in H1 as (d2 & c2 & -> & Hi2 & E2).
    apply bind_inv in Hw as [(? & _ & ?)|(applied & w3 & H2 & Hw)]; [discriminate|].
    pose proof (ok_applyCorrelatedEvent (G := SameEvents) providers client pn event session Hsells) as Ha.
    apply (guar_alone _ _ _ _ _ _ _ _ _ Ha Hi2) in H2 as (d3 & c3 & -> & Hi3 & E3).
    assert (He3 : inbox p ref d3 = Some e) by (unfold inbox in *; rewrite E3, E2; exact He).
    destruct (finishEvent_alone id (mkFinish E_processed (Some (ap_userId applied))
      (option_map note_str (ap_note applied))) d3 t c3 p ref e He3 Hid) as (d4 & Hfin & Hin).
    rewrite (bind_ok _ _ _ _ _ Hfin) in Hw. injection Hw as <- <-. eauto 10. }
  unfold applyEvent in Hrun. destruct (ev_body event);
    try (destruct (Hcorr _ Hrun) as (? & ? & ? & ? & ? & ?); eauto 10; fail).
  destruct (finishEvent_alone id (mkFinish E_ignored None None) d t calls p ref e He Hid) as (d4 & Hfin & Hin).
  rewrite (bind_ok _ _ _ _ _ Hfin) in Hrun. injection Hrun as <- <-. exists d4, calls. eexists.
  split; [reflexivity|]. split; [exact Hin|]. right. split; reflexivity.
Qed.

Lemma applyEvent_fails pn event id d t calls p ref e err w' :
  Inv d -> inbox p ref d = Some e -> applyEvent providers client pn event id (mkWorld d [] t calls) = (inl err, w') ->
  exists d' calls', w' = mkWorld d' [] t calls' /\ Inv d' /\ inbox p ref d' = Some e.
Proof.
  intros Hi He Hrun.
  assert (Hcorr :
    (let! session := findReferencedSession pn (ev_checkoutSessionId event) in
     let! applied := applyCorrelatedEvent providers client pn event session in
     finishEvent id (mkFinish E_processed (Some (ap_userId applied)) (option_map note_str (ap_note applied))) ;;;
     ret W_processed) (mkWorld d [] t calls) = (inl err, w') ->
    exists d' calls', w' = mkWorld d' [] t calls' /\ Inv d' /\ inbox p ref d' = Some e).
  { intros Hw. pose proof (ok_findReferencedSession (G := SameEvents) pn (ev_checkoutSessionId event)) as Hs.
    apply bind_inv in Hw as [(? & H1 & E)|(session & w2 & H1 & Hw)].
    { apply (guar_alone _ _ _ _ _ _ _ _ _ Hs Hi) in H1 as (d2 & c2 & -> & Hi2 & E2).
      exists d2, c2. unfold inbox. rewrite E2. auto. }
    assert (Hsells : sells session).
    { destruct (Hs (mkWorld d [] t calls) _ _ Hi (Forall_nil_2 _) H1) as (_ & _ & _ & HQ). exact HQ. }
    apply (guar_alone _ _ _ _ _ _ _ _ _ Hs Hi) in H1 as (d2 & c2 & -> & Hi2 & E2).
    pose proof (ok_applyCorrelatedEvent (G := SameEvents) providers client pn event session Hsells) as Ha.
    apply bind_inv in Hw as [(? & H2 & E)|(applied & w3 & H2 & Hw)];
      apply (guar_alone _ _ _ _ _ _ _ _ _ Ha Hi2) in H2 as (d3 & c3 & -> & Hi3 & E3); [|discriminate Hw].
    exists d3, c3. unfold inbox. rewrite E3, E2. auto. }
  unfold applyEvent in Hrun. destruct (ev_body event); try (apply Hcorr, Hrun). discriminate Hrun.
Qed.

(** A delivery up to its claim. *)
Lemma handleWebhook_claim name p request event d t calls w1 :
  Inv d -> rg_byName providers name = Some p ->
  pv_parseWebhook p request (mkWorld d [] t calls) = (inr event, w1) ->
  let input := claimInputOf (pv_name p) event in
  exists res d1, Inv d1 /\ w1 = mkWorld d [] t (w_calls w1) /\
    Claimed t input d (inbox (ci_provider input) (ci_providerEventId input) d) res d1 /\
    handleWebhook providers client name request (mkWorld d [] t calls)
    = (match res with
       | Claim_duplicate status => if status =e E_received then throw WebhookInFlightError else ret W_duplicate
       | Claim_new id | Claim_retry id => processClaimed providers client (pv_name p) event id
       end) (mkWorld d1 [] t (w_calls w1)).
Proof.
  intros Hi Hp Hparse input. destruct (law_parseWebhook (ProviderLaws := reg_byName _ _ Hp) request (mkWorld d [] t calls))
    as (E1 & E2 & E3). rewrite Hparse in *. simpl in E1, E2, E3.
  assert (Hw1 : w1 = mkWorld d [] t (w_calls w1)) by (destruct w1; simpl in *; subst; reflexivity).
  destruct (claimEvent_alone input d t (w_calls w1) Hi) as (res & d1 & Hrun & Hi1 & Hc).
  exists res, d1. split; [assumption|]. split; [assumption|]. split; [assumption|].
  unfold handleWebhook. rewrite Hp, (bind_ok _ _ _ _ _ Hparse). rewrite Hw1 at 1. rewrite (bind_ok _ _ _ _ _ Hrun).
  reflexivity.
Qed.
End Delivery.

(** The row says the event is done with: handled, or given up after the last attempt. *)
Definition settledEvent (e : BillingEvent) : Prop :=
  be_status e <> E_received /\ forall t, reclaimable t e = false.

Lemma settled_handled e : be_status e = E_processed \/ be_status e = E_ignored -> settledEvent e.
Proof.
  unfold settledEvent, reclaimable. intros H. split; [destruct H as [-> | ->]; discriminate|].
  intros t. destruct H as [-> | ->]; cbn; apply andb_false_r.
Qed.

(** A row that may not be claimed at [t], and is not being handled, never may. *)
Lemma settled_refused t e : reclaimable t e = false -> be_status e <> E_received -> settledEvent e.
Proof.
  intros Hr Hs. split; [assumption|]. intros t'. unfold reclaimable in *.
  apply andb_false_iff. apply andb_false_iff in Hr as [Hr|Hr]; [left; exact Hr|right].
  apply orb_false_iff in Hr as [-> _]. replace (be_status e =e E_received) with false; [reflexivity|].
  symmetry. apply eqe_false, Hs.
Qed.

Section Theorems.
Variable providers : ProviderRegistry.
Context `{Hreg : !RegistryLaws providers}.
Variable client : BudgetClient.

(** C2: An acknowledged webhook is applied once.  Whenever a delivery was
    answered without an error, a later delivery of the same provider event that
    the provider accepts, at any time and in any store with the same inbox, is
    answered [duplicate] and changes nothing at all. *)
Theorem webhook_acknowledged_once name p request event d t calls r w1 w' d2 t2 calls2 request2 event2 w2 :
  Inv d -> Inv d2 -> rg_byName providers name = Some p ->
  pv_parseWebhook p request (mkWorld d [] t calls) = (inr event, w1) ->
  handleWebhook providers client name request (mkWorld d [] t calls) = (inr r, w') ->
  db_events d2 = db_events (w_db w') ->
  pv_parseWebhook p request2 (mkWorld d2 [] t2 calls2) = (inr event2, w2) ->
  eb_providerEventId (ev_base event2) = eb_providerEventId (ev_base event) ->
  handleWebhook providers client name request2 (mkWorld d2 [] t2 calls2) = (inr W_duplicate, w2) /\ w_db w2 = d2.
Proof.
  intros Hi Hi2 Hp Hparse Hrun Hev Hparse2 Hsame.
  destruct (handleWebhook_claim providers client name p request event d t calls w1 Hi Hp Hparse)
    as (res & d1 & Hi1 & _ & Hc & Heq). rewrite Hrun in Heq. cbn [ci_provider ci_providerEventId claimInputOf] in Hc.
  set (ref := eb_providerEventId (ev_base event)) in *.
  assert (Hset : exists e, inbox (pv_name p) ref (w_db w') = Some e /\ settledEvent e).
  { assert (Hdone : forall id e, inbox (pv_name p) ref d1 = Some e -> be_id e = id ->
      (inr r, w') = processClaimed providers client (pv_name p) event id (mkWorld d1 [] t (w_calls w1)) ->
      exists e, inbox (pv_name p) ref (w_db w') = Some e /\ settledEvent e).
    { intros id e He Hid Hw. symmetry in Hw.
      apply catch_inv in Hw as [(out & Hw & Er)|(err & w3 & _ & Hw)].
      - injection Er as ->.
        destruct (applyEvent_finishes _ _ _ _ _ _ _ _ _ _ _ _ _ Hi1 He Hid Hw) as (d4 & c4 & e' & -> & He' & Ho).
        exists e'. split; [exact He'|]. apply settled_handled. tauto.
      - apply bind_inv in Hw as [(? & _ & Hw)|(? & ? & _ & Hw)]; discriminate. }
    inversion Hc as [d' e He Hst Eold Eres Ed|e d' Hrec He Eold Eres Ed|e Hrec Eold Eres Ed]; subst res.
    - apply (Hdone _ e He eq_refl Heq).
    - apply (Hdone _ _ He eq_refl Heq).
    - subst d1. destruct (be_status e =e E_received) eqn:Es; [discriminate Heq|]. apply eqe_false in Es.
      injection Heq as -> ->. exists e. split; [symmetry; exact Eold | eapply settled_refused; eassumption]. }
  destruct Hset as (e & He & Hs & Hr).
  destruct (handleWebhook_claim providers client name p request2 event2 d2 t2 calls2 w2 Hi2 Hp Hparse2)
    as (res2 & d3 & _ & Hw2 & Hc2 & Heq2). cbn [ci_provider ci_providerEventId claimInputOf] in Hc2.
  rewrite Hsame in Hc2. fold ref in Hc2. unfold inbox in *. rewrite Hev, He in Hc2.
  inversion Hc2 as [|e0 d' Hrec He0 Eold Eres Ed|e0 Hrec Eold Eres Ed]; subst; [congruence|].
  replace (be_status e =e E_received) with false in Heq2 by (symmetry; apply eqe_false, Hs).
  rewrite Hw2. split; [exact Heq2 | reflexivity].
Qed.

(** C39: A failed webhook is retried.  When handling a claimed event throws, the
    error is passed on to the sender, the event is marked failed with the reason,
    its attempt is counted, and every later delivery may claim it again until it
    has been tried 60 times. *)
Theorem webhook_failure_retried name p request event d t calls err w1 w' :
  Inv d -> rg_byName providers name = Some p ->
  pv_parseWebhook p request (mkWorld d [] t calls) = (inr event, w1) ->
  let old := inbox (pv_name p) (eb_providerEventId (ev_base event)) d in
  match old with Some e => reclaimable t e = true | None => True end ->
  handleWebhook providers client name request (mkWorld d [] t calls) = (inl err, w') ->
  exists e', inbox (pv_name p) (eb_providerEventId (ev_base event)) (w_db w') = Some e' /\
    be_status e' = E_failed /\
    be_note e' = Some (match err with EventProcessingError note _ => note_str note | _ => err_message err end) /\
    be_attempts e' = match old with Some e => be_attempts e + 1 | None => 1 end /\
    forall t', reclaimable t' e' = (be_attempts e' <? 60).
Proof.
  intros Hi Hp Hparse old Hfree Hrun. subst old.
  destruct (handleWebhook_claim providers client name p request event d t calls w1 Hi Hp Hparse)
    as (res & d1 & Hi1 & _ & Hc & Heq). rewrite Hrun in Heq. cbn [ci_provider ci_providerEventId claimInputOf] in Hc.
  set (ref := eb_providerEventId (ev_base event)) in *.
  assert (Hdone : forall e, inbox (pv_name p) ref d1 = Some e ->
    (inl err, w') = processClaimed providers client (pv_name p) event (be_id e) (mkWorld d1 [] t (w_calls w1)) ->
    exists e', inbox (pv_name p) ref (w_db w') = Some e' /\ e' = finished t (failureOf err) e).
  { intros e He Hw. symmetry in Hw. apply catch_inv in Hw as [(out & _ & Er)|(err' & w3 & Ha & Hw)]; [discriminate|].
    destruct (applyEvent_fails _ _ _ _ _ _ _ _ _ _ _ _ _ Hi1 He Ha) as (d4 & c4 & -> & Hi4 & He4).
    destruct (finishEvent_alone (be_id e) (failureOf err') d4 t c4 _ _ e He4 eq_refl) as (d5 & Hfin & He5).
    unfold bind, catch in Hw. rewrite Hfin in Hw. injection Hw as <- <-. eauto. }
  assert (Hfields : forall e, be_status (finished t (failureOf err) e) = E_failed /\
    be_note (finished t (failureOf err) e)
    = Some (match err with EventProcessingError note _ => note_str note | _ => err_message err end) /\
    forall t', reclaimable t' (finished t (failureOf err) e) = (be_attempts e <? 60)).
  { intros e. destruct err; (split; [reflexivity|]; split; [reflexivity|]; intros; apply andb_true_r). }
  inversion Hc as [d' e He Hst Eold Eres Ed|e d' Hrec He Eold Eres Ed|e Hrec Eold Eres Ed]; subst res.
  - destruct (Hdone e He Heq) as (e' & He' & ->). eexists. split; [exact He'|].
    destruct (Hfields e) as (H1 & H2 & H3). repeat split; auto. simpl. congruence.
  - destruct (Hdone _ He Heq) as (e' & He' & ->). eexists. split; [exact He'|].
    destruct (Hfields (reclaimed t e)) as (H1 & H2 & H3). repeat split; auto.
  - exfalso. rewrite <- Eold in Hfree. congruence.
Qed.

(** One delivery handles an event at a time.  A delivery of an event that
    another one took up in the last ten minutes is answered with a retryable
    error and changes nothing; after ten minutes without an outcome it is taken
    up again, unless it was tried 60 times. *)
Theorem webhook_in_flight name p request event d t calls w1 e :
  Inv d -> rg_byName providers name = Some p ->
  pv_parseWebhook p request (mkWorld d [] t calls) = (inr event, w1) ->
  inbox (pv_name p) (eb_providerEventId (ev_base event)) d = Some e -> be_status e = E_received ->
  (if (t - 10 * 60 * 1000 <=? be_receivedAt e) || (60 <=? be_attempts e)
   then handleWebhook providers client name request (mkWorld d [] t calls) = (inl WebhookInFlightError, w1) /\
        w_db w1 = d
   else exists d1, inbox (pv_name p) (eb_providerEventId (ev_base event)) d1 = Some (reclaimed t e) /\
        handleWebhook providers client name request (mkWorld d [] t calls)
        = processClaimed providers client (pv_name p) event (be_id e) (mkWorld d1 [] t (w_calls w1))).
Proof.
  intros Hi Hp Hparse He Hst.
  destruct (handleWebhook_claim providers client name p request event d t calls w1 Hi Hp Hparse)
    as (res & d1 & Hi1 & Hw1 & Hc & Heq). cbn [ci_provider ci_providerEventId claimInputOf] in Hc.
  rewrite He in Hc.
  assert (Hrec : reclaimable t e = negb ((t - 10 * 60 * 1000 <=? be_receivedAt e) || (60 <=? be_attempts e))).
  { unfold reclaimable. rewrite Hst. change (E_received =e E_failed) with false. rewrite eqe_refl.
    change (ABANDONED_EVENT_MINUTES * 60 * 1000) with (10 * 60 * 1000).
    rewrite negb_orb, <- !Z.ltb_antisym, andb_comm. reflexivity. }
  destruct (_ || _); cbn [negb] in Hrec.
  - inversion Hc; subst; [congruence|]. rewrite Hst, eqe_refl in Heq. rewrite Hw1 at 2. split; [|rewrite Hw1; reflexivity].
    rewrite Heq, <- Hw1. reflexivity.
  - inversion Hc; subst; [|congruence]. exists d1. split; [assumption | exact Heq].
Qed.
End Theorems.

(** ** Witnesses *)
Example webhook_acknowledged_once_witness :
  let again := handleWebhook Demo.registry Demo.client "mock" (Demo.request "paid")
                 (mkWorld Demo.paid [] (2 * Demo.day1) []) in
  again.1 = inr W_duplicate /\ w_db again.2 = Demo.paid.
Proof.
  pose (w := mkWorld Demo.opened [] Demo.day1 [] : World Db Call).
  pose (w2 := mkWorld Demo.paid [] (2 * Demo.day1) [] : World Db Call).
  destruct (webhook_acknowledged_once Demo.registry Demo.client "mock" Demo.provider
    (Demo.request "paid") Demo.paidEvent Demo.opened Demo.day1 [] W_processed w
    (handleWebhook Demo.registry Demo.client "mock" (Demo.request "paid") w).2
    Demo.paid (2 * Demo.day1) [] (Demo.request "paid") Demo.paidEvent w2) as [E1 E2].
  - exact Demo.opened_ok.
  - exact Demo.paid_ok.
  - reflexivity.
  - reflexivity.
  - vm_compute. reflexivity.
  - vm_compute. reflexivity.
  - reflexivity.
  - reflexivity.
  - exact (conj (f_equal fst E1) (eq_trans (f_equal (fun run => w_db run.2) E1) E2)).
Defined.

(** The session of the payment is unknown to an empty store. *)
Example webhook_failure_retried_witness :
  let w := mkWorld Demo.start [] Demo.day1 [] in
  let run := handleWebhook Demo.registry Demo.client "mock" (Demo.request "paid") w in
  run.1 = inl (EventProcessingError unresolved_user None) /\
  exists e', inbox P_mock "evt-1" (w_db run.2) = Some e' /\ be_status e' = E_failed /\ be_attempts e' = 1.
Proof.
  pose (w := mkWorld Demo.start [] Demo.day1 [] : World Db Call).
  cbv zeta. fold w. split; [vm_compute; reflexivity|].
  destruct (webhook_failure_retried Demo.registry Demo.client "mock" Demo.provider (Demo.request "paid")
    Demo.paidEvent Demo.start Demo.day1 [] (EventProcessingError unresolved_user None) w
    (handleWebhook Demo.registry Demo.client "mock" (Demo.request "paid") w).2) as (e' & H1 & H2 & _ & H4 & _).
  - exact Demo.start_ok.
  - reflexivity.
  - reflexivity.
  - exact I.
  - vm_compute. reflexivity.
  - exists e'. auto.
Defined.

Definition inFlight : Db := (insertEvent_stmt Demo.day1 (claimInputOf P_mock Demo.paidEvent) Demo.start).2.

Example webhook_in_flight_witness :
  let w := mkWorld inFlight [] (Demo.day1 + 1000) [] in
  handleWebhook Demo.registry Demo.client "mock" (Demo.request "paid") w = (inl WebhookInFlightError, w).
Proof.
  pose (w := mkWorld inFlight [] (Demo.day1 + 1000) [] : World Db Call).
  pose (e := match inbox P_mock "evt-1" inFlight with
             | Some e => e
             | None => mkBillingEvent "" P_mock "" "" E_failed None None "" None 0 0 None
             end).
  pose proof (webhook_in_flight Demo.registry Demo.client "mock" Demo.provider (Demo.request "paid")
    Demo.paidEvent inFlight (Demo.day1 + 1000) [] w e) as H.
  assert (Ht : (Demo.day1 + 1000 - 10 * 60 * 1000 <=? be_receivedAt e) || (60 <=? be_attempts e) = true)
    by (vm_compute; reflexivity).
  rewrite Ht in H. apply H.
  - apply (insertEvent_stmt_ok _ Demo.start_ok).
  - reflexivity.
  - reflexivity.
  - vm_compute. reflexivity.
  - vm_compute. reflexivity.
Defined.
