(* ===== verification/Delivery.v ===== *)
(** What a paid customer gets, under every interleaving: a payment that was
    acknowledged is recorded, credited and linked, whatever other requests did
    in the meantime.  [Ensures m P] is about the store a successful run ends in;
    a [Stable] fact survives the rest of the run and everything after it. *)
From S2P Require Import Prelude Dates Pricing Domain Entitlement Allocation CreditViews TrialKey.
From S2P Require Import Store StoreInv StoreProps Provider Credits CreditsProps Billing BillingSafety Safety BillingProps.
From stdpp Require Import list strings pretty.
#[local] Open Scope Z_scope.

Class Stable (P : Db -> Prop) : Prop := stable : forall d d', Inv d' -> Step d d' -> P d -> P d'.

Section Ensures.
(** A stable fact the run may start from. *)
Variable R : Db -> Prop.
Context `{!Stable R}.

Definition Ensures {A} (m : B A) (P : A -> Db -> Prop) : Prop :=
  forall w a w', Inv (w_db w) -> rely Inv Step (w_env w) -> R (w_db w) -> m w = (inr a, w') -> P a (w_db w').

Lemma ensures_bind_l {A X} (m : B A) (k : A -> B X) (P : Db -> Prop) `{!Stable P} :
  Guar Inv Step m -> Ensures m (fun _ => P) -> (forall a, Guar Inv Step (k a)) -> Ensures (bind m k) (fun _ => P).
Proof.
  intros Hm HP Hk w a w' Hi He HR H. apply bind_inv in H as [(? & _ & E)|(x & w1 & H1 & H)]; [discriminate|].
  destruct (Hm _ _ _ Hi He H1) as (Hi1 & _ & Hl & _).
  destruct (Hk x _ _ _ Hi1 (rely_later _ _ _ _ Hl He) H) as (Hi2 & Hs & _ & _).
  eapply stable; [exact Hi2 | exact Hs | exact (HP _ _ _ Hi He HR H1)].
Qed.

Lemma ensures_bind_r {A X} (m : B A) (k : A -> B X) (P : X -> Db -> Prop) :
  Guar Inv Step m -> (forall a, Ensures (k a) P) -> Ensures (bind m k) P.
Proof.
  intros Hm Hk w a w' Hi He HR H. apply bind_inv in H as [(? & _ & E)|(x & w1 & H1 & H)]; [discriminate|].
  destruct (Hm _ _ _ Hi He H1) as (Hi1 & Hs & Hl & _).
  eapply Hk; [exact Hi1 | exact (rely_later _ _ _ _ Hl He) | exact (stable _ _ Hi1 Hs HR) | exact H].
Qed.

Lemma ensures_atomic {A} (op : Db -> (Err + A) * Db) (P : A -> Db -> Prop) :
  (forall d a, Inv d -> R d -> (op d).1 = inr a -> P a (op d).2) -> Ensures (atomic op) P.
Proof.
  intros H w a w' Hi He HR Hw. unfold atomic in Hw. destruct (w_env w) as [|f fs] eqn:Henv.
  - destruct (op (w_db w)) as [r d'] eqn:Ho. injection Hw as -> <-. simpl.
    specialize (H (w_db w) a Hi HR). rewrite Ho in H. apply H. reflexivity.
  - destruct (op (f (w_db w))) as [r d'] eqn:Ho. injection Hw as -> <-. simpl.
    apply Forall_cons in He as [Hf _]. destruct (Hf _ Hi) as [Hi1 Hs1].
    specialize (H (f (w_db w)) a Hi1 (stable _ _ Hi1 Hs1 HR)). rewrite Ho in H. apply H. reflexivity.
Qed.

Lemma ensures_exec {A} (op : Db -> A * Db) (P : A -> Db -> Prop) :
  (forall d, Inv d -> R d -> P (op d).1 (op d).2) -> Ensures (exec op) P.
Proof.
  intros H. apply ensures_atomic. intros d a Hi HR. specialize (H d Hi HR). destruct (op d) as [x d'].
  simpl in *. intros [= <-]. exact H.
Qed.

Lemma ensures_now {A} (k : Z -> B A) P : (forall t, Ensures (k t) P) -> Ensures (let! t := now in k t) P.
Proof. intros H. apply ensures_bind_r; [guar | exact H]. Qed.

Lemma ensures_throw {A} e (P : A -> Db -> Prop) : Ensures (throw e) P.
Proof. intros w a w' _ _ _ H. discriminate. Qed.

Lemma ensures_weaken {A} (m : B A) (P Q : A -> Db -> Prop) :
  Ensures m P -> (forall a d, P a d -> Q a d) -> Ensures m Q.
Proof. intros H HQ w a w' Hi He HR Hw. apply HQ. exact (H w a w' Hi He HR Hw). Qed.

Lemma ensures_run {A} (m : B A) (P : A -> Db -> Prop) w a w' :
  Inv (w_db w) -> rely Inv Step (w_env w) -> R (w_db w) -> m w = (inr a, w') -> Ensures m P -> P a (w_db w').
Proof. intros Hi He HR Hw H. exact (H w a w' Hi He HR Hw). Qed.
End Ensures.

(** ** Stable facts of the store *)
Definition Paid (p : PaymentProviderName) (ref : string) (d : Db) : Prop :=
  exists row, In row (db_payments d) /\ payKey row = (p, ref).
Definition Granted (ref : string) (d : Db) : Prop := exists g, In g (db_grants d) /\ g_sourceRef g = ref.
Definition Linked (p : PaymentProviderName) (ref : string) (d : Db) : Prop :=
  exists s, In s (db_subs d) /\ subKey s = (p, ref).
Definition Opened (id : string) (d : Db) : Prop := exists c, In c (db_checkouts d) /\ cs_id c = id.
Definition Closed (id : string) (d : Db) : Prop :=
  exists c, In c (db_checkouts d) /\ cs_id c = id /\ cs_status c <> C_pending.

#[export] Instance stable_paid p ref : Stable (Paid p ref).
Proof.
  intros d d' _ Hs (x & Hin & Hk). destruct (extends_in _ _ _ _ (st_payments _ _ Hs) Hin) as (y & Hy & [H _ _ _]).
  exists y. unfold payKey in *. split; [assumption | congruence].
Qed.
#[export] Instance stable_granted ref : Stable (Granted ref).
Proof.
  intros d d' _ Hs (x & Hin & Hk). destruct (extends_in _ _ _ _ (st_grants _ _ Hs) Hin) as (y & Hy & [H _ _ _]).
  exists y. split; [assumption | congruence].
Qed.
#[export] Instance stable_linked p ref : Stable (Linked p ref).
Proof.
  intros d d' _ Hs (x & Hin & Hk). destruct (extends_in _ _ _ _ (st_subs _ _ Hs) Hin) as (y & Hy & [_ H1 H2 _ _]).
  exists y. unfold subKey in *. split; [assumption | congruence].
Qed.
#[export] Instance stable_opened id : Stable (Opened id).
Proof.
  intros d d' _ Hs (x & Hin & Hk). destruct (extends_in _ _ _ _ (st_checkouts _ _ Hs) Hin) as (y & Hy & [H _ _ _]).
  exists y. split; [assumption | congruence].
Qed.
#[export] Instance stable_closed id : Stable (Closed id).
Proof.
  intros d d' _ Hs (x & Hin & Hk & Hst). destruct (extends_in _ _ _ _ (st_checkouts _ _ Hs) Hin) as (y & Hy & [H _ _ H4]).
  exists y. destruct (H4 Hst). split; [assumption|]. split; congruence.
Qed.

(** A grant of the past, still there; and one with nothing left. *)
Definition bought (g : CreditGrant) (d : Db) : Prop :=
  exists g', In g' (db_grants d) /\ g_id g' = g_id g /\ g_sourceRef g' = g_sourceRef g /\
    g_usedCredits g <= g_usedCredits g' /\ g_credits g' <= g_credits g.
Definition spent (g : CreditGrant) (d : Db) : Prop :=
  exists g', In g' (db_grants d) /\ g_id g' = g_id g /\ g_credits g' = g_usedCredits g' /\
    g_usedCredits g <= g_usedCredits g' /\ g_credits g' <= g_credits g.
Definition refundedPayment (id : string) (d : Db) : Prop :=
  exists q, In q (db_payments d) /\ pay_id q = id /\ pay_status q = Pay_refunded.

#[export] Instance stable_bought g : Stable (bought g).
Proof.
  intros d d' _ Hs (x & Hin & H1 & H2 & H3 & H4). destruct (extends_in _ _ _ _ (st_grants _ _ Hs) Hin) as (y & Hy & [E1 _ E3 E4]).
  injection E1 as E5 E6 E7. exists y. repeat split; [assumption | congruence | congruence | lia | lia].
Qed.
#[export] Instance stable_spent g : Stable (spent g).
Proof.
  intros d d' Hi Hs (x & Hin & H1 & H2 & H3 & H4). destruct (extends_in _ _ _ _ (st_grants _ _ Hs) Hin) as (y & Hy & [E1 _ E3 E4]).
  injection E1 as E5 E6 E7. exists y.
  pose proof (inv_grants d' Hi) as Hok. rewrite Forall_forall in Hok.
  specialize (Hok y (proj2 (list_elem_of_In _ _) Hy)). unfold grantOk in Hok.
  repeat split; [assumption | congruence | lia | lia | lia].
Qed.
#[export] Instance stable_refunded id : Stable (refundedPayment id).
Proof.
  intros d d' _ Hs (x & Hin & H1 & H2). destruct (extends_in _ _ _ _ (st_payments _ _ Hs) Hin) as (y & Hy & [E1 _ _ E4]).
  injection E1 as E5 E6 E7. exists y. split; [assumption|]. split; [congruence|]. destruct E4; congruence.
Qed.

(** ** What the statements establish *)
Lemma insertPayment_paid input d :
  Paid (np_provider input) (np_providerPaymentId input) (insertPayment_stmt input d).2.
Proof.
  unfold insertPayment_stmt, Paid. destruct (List.existsb _ _) eqn:E.
  - apply existsb_exists in E as (x & Hin & Hx). exists x. split; [exact Hin | apply samePayment_key, Hx].
  - cbn [snd drawId set_payments db_payments]. eexists. split; [apply in_app_iff; right; left; reflexivity | reflexivity].
Qed.

Section Operations.
Variable R : Db -> Prop.
Context `{!Stable R}.

Lemma recordPayment_paid input : Ensures R (recordPayment input)
  (fun _ => Paid (np_provider input) (np_providerPaymentId input)).
Proof. apply ensures_exec; [assumption|]. intros d _ _. apply insertPayment_paid. Qed.

Lemma insertIfAbsent_granted input : Ensures R (insertIfAbsent input) (fun _ => Granted (ng_sourceRef input)).
Proof.
  unfold insertIfAbsent. apply ensures_now; [assumption|]. intros t. apply ensures_exec; [assumption|]. intros d _ _.
  unfold insertGrant_stmt, Granted. destruct (List.existsb _ _) eqn:E.
  - apply existsb_exists in E as (x & Hin & Hx). bools. eauto.
  - cbn [snd drawId set_grants db_grants]. eexists. split; [apply in_app_iff; right; left; reflexivity | reflexivity].
Qed.

Lemma settle_closes id status at_ d : status <> C_pending -> Opened id d -> Closed id (settle_stmt id status at_ d).2.
Proof.
  intros Hs (c & Hin & Hid). unfold settle_stmt. cbn [snd set_checkouts].
  exists (if hasCheckoutId id c && (cs_status c =e C_pending) then settled status at_ c else c).
  cbn [set_checkouts db_checkouts]. split; [apply in_update_where; eauto|].
  unfold hasCheckoutId. rewrite Hid, str_eqb_refl. cbn [andb].
  destruct (cs_status c =e C_pending) eqn:E; [split; assumption|]. apply eqe_false in E. auto.
Qed.

Lemma revoke_spends refs g d : Inv d -> bought g d -> In (g_sourceRef g) refs ->
  spent g (revoke_stmt refs d).2.
Proof.
  intros Hok (x & Hin & H1 & H2 & H3 & H4) Href. exists (if revocable refs x then shrink x else x).
  cbn [revoke_stmt snd set_grants db_grants]. split; [apply in_update_where; eauto|].
  unfold revocable. replace (List.existsb (str_eqb (g_sourceRef x)) refs) with true.
  - pose proof (inv_grants d Hok) as Hg. rewrite Forall_forall in Hg.
    specialize (Hg x (proj2 (list_elem_of_In _ _) Hin)). unfold grantOk in Hg. cbn [andb]. destruct (g_usedCredits x <? g_credits x) eqn:E; bools; simpl;
      repeat split; lia || congruence.
  - symmetry. apply existsb_exists. exists (g_sourceRef x). rewrite H2 at 1. split; [exact Href | apply str_eqb_refl].
Qed.

Lemma upsert_linked t input d :
  Linked (ui_provider input) (ui_providerSubscriptionId input) (upsert_stmt t input d).2.
Proof.
  pose proof (upsert_stored t input d (ui_provider input) (ui_providerSubscriptionId input)) as H.
  rewrite eqe_refl, str_eqb_refl in H. cbn [andb] in H. unfold stored, findByProviderRef_q in H.
  apply List.find_some in H as [Hin H]. exists (reported t input (newId d) (stored (ui_provider input) (ui_providerSubscriptionId input) d)).
  split; [exact Hin | apply sameRef_key, H].
Qed.

Lemma insertPayment_subs input d : db_subs (insertPayment_stmt input d).2 = db_subs d.
Proof. unfold insertPayment_stmt. destruct (List.existsb _ _); reflexivity. Qed.

Lemma firstPayment_done payment sub : Ensures R (recordFirstPayment payment sub)
  (fun _ d => Paid (np_provider payment) (np_providerPaymentId payment) d /\
              Linked (ui_provider sub) (ui_providerSubscriptionId sub) d).
Proof.
  unfold recordFirstPayment. apply ensures_now; [assumption|]. intros t. apply ensures_atomic; [assumption|]. intros d a _ _.
  pose proof (upsert_linked t sub d) as Hl. unfold firstPayment_tx.
  destruct (upsert_stmt t sub d) as [updated d1]. cbn [snd] in Hl.
  destruct (match updated with Some s => Some s | None => _ end) as [s|]; [|discriminate].
  pose proof (insertPayment_paid (withSubscriptionId (sub_id s) payment) d1) as Hp.
  pose proof (insertPayment_subs (withSubscriptionId (sub_id s) payment) d1) as Hsubs.
  destruct (insertPayment_stmt _ d1) as [rec d2]. cbn [snd] in *. intros _.
  split; [exact Hp|]. destruct Hl as (x & Hin & Hx). exists x. rewrite Hsubs. auto.
Qed.

Lemma renewal_done input : Ensures R (recordRenewal input)
  (fun a d => a <> Conflict_payment ->
     Paid (np_provider (ri_payment input)) (np_providerPaymentId (ri_payment input)) d).
Proof.
  unfold recordRenewal. apply ensures_now; [assumption|]. intros t. apply ensures_exec; [assumption|]. intros d _ _. unfold renewal_tx.
  pose proof (insertPayment_paid (withSubscriptionId (ri_subscriptionId input) (ri_payment input)) d) as Hp.
  destruct (insertPayment_stmt _ d) as [rec d1]. cbn [snd] in Hp.
  destruct rec; cbn [negb]; [|intros _; exact Hp].
  unfold update_subs. destruct (List.hd_error _); cbn [fst snd]; [intros _; exact Hp | congruence].
Qed.

Lemma settle_closed id status at_ : status <> C_pending -> (forall d, R d -> Opened id d) ->
  Ensures R (settleCheckout id status at_) (fun _ => Closed id).
Proof. intros Hs HR. apply ensures_exec; [assumption|]. intros d _ Hd. apply settle_closes; auto. Qed.

Lemma grantTopup_granted userId credits ref : Ensures R (grantTopup userId credits ref) (fun _ => Granted ref).
Proof.
  intros w a w' Hi He HR H. apply bind_inv in H as [(? & _ & E)|(x & w1 & H1 & H)]; [discriminate|].
  injection H as _ <-. exact (insertIfAbsent_granted _ _ _ _ Hi He HR H1).
Qed.

Lemma grantPlan_granted userId credits e ref : Ensures R (grantPlanCredits userId credits e ref) (fun _ => Granted ref).
Proof.
  intros w a w' Hi He HR H. apply bind_inv in H as [(? & _ & E)|(x & w1 & H1 & H)]; [discriminate|].
  injection H as _ <-. exact (insertIfAbsent_granted _ _ _ _ Hi He HR H1).
Qed.

(** The retry loop of a renewal only returns once the charge is recorded. *)
Lemma renewLoop_paid n p at_ event existing current plan u :
  Ensures R (renewLoop n p at_ event existing current plan u)
    (fun _ => Paid p (pp_providerPaymentId (sc_payment event))).
Proof.
  revert current. induction n as [|n IH]; intros current; simpl; [apply ensures_throw|].
  set (input := mkRenewal _ _ _ _). intros w a w' Hi He HR H.
  apply bind_inv in H as [(? & _ & E)|(x & w1 & H1 & H)]; [discriminate|].
  pose proof (renewal_done input w x w1 Hi He HR H1) as Hpaid.
  destruct (ok_recordRenewal (G := Step) input _ _ _ Hi He H1) as (Hi1 & Hs1 & Hl1 & _).
  destruct x; try (injection H as _ <-; apply Hpaid; discriminate).
  apply (ensures_run R _ (fun _ => Paid p (pp_providerPaymentId (sc_payment event))) w1 a w' Hi1
    (rely_later _ _ _ _ Hl1 He) (stable _ _ Hi1 Hs1 HR) H).
  apply ensures_bind_r; [assumption | guar | intros [s|]]; [apply IH | apply ensures_throw].
Qed.

Lemma query_stored p ref : Ensures R (findByProviderRef p ref)
  (fun a d => match a with Some _ => Linked p ref d | None => True end).
Proof.
  apply ensures_atomic; [assumption|]. intros d a _ _ [= <-]. cbn [snd]. unfold findByProviderRef_q.
  destruct (List.find _ _) as [s|] eqn:E; [|exact I]. apply List.find_some in E as [Hin E]. exists s.
  split; [exact Hin | apply sameRef_key, E].
Qed.

Lemma startSubscription_done p at_ event ref plan u : Ensures R (startSubscription p at_ event ref plan u)
  (fun _ d => Paid p (pp_providerPaymentId (sc_payment event)) d /\ Linked p ref d).
Proof.
  intros w a w' Hi He HR H. unfold startSubscription in H.
  apply bind_inv in H as [(? & _ & E)|(x & w1 & H1 & H)]; [discriminate|].
  pose proof (firstPayment_done _ _ _ _ _ Hi He HR H1) as Hd. cbn in Hd.
  destruct x; injection H as _ <-; exact Hd.
Qed.
End Operations.

Ltac after := apply ensures_bind_r; [typeclasses eauto | solve [guar] | intros ?].

Section Theorems.
Variable providers : ProviderRegistry.
Context `{Hreg : !RegistryLaws providers}.
Variable client : BudgetClient.


(** What is left to do once the charge is applied. *)
Lemma payment_tail_delivers p at_ event session userId plan existing application w a w' :
  Inv (w_db w) -> rely Inv Step (w_env w) -> 0 <= includedCredits plan ->
  let ref := pp_providerPaymentId (sc_payment event) in
  (let applied := match application with Applied_payment s => Some s | _ => None end in
   match coalesce applied existing with
   | None => throw (JsError "duplicate first payment without a stored subscription")
   | Some subscription =>
       (when isSome applied do
         record (Track_subscription_paid userId (plan_code plan) (isSome session)
           (pp_amountAgorot (sc_payment event)) (pp_currency (sc_payment event)))) ;;;
       (match session with Some s => settleCheckout (cs_id s) C_completed at_ | None => ret tt end) ;;;
       grantPlanCredits userId (includedCredits plan)
         ((match sub_currentPeriodEnd subscription with Some e => e | None => at_ end) + ACTIVE_GRACE_MS)
         (planGrantRef p ref) ;;;
       recapAfterLedgerWrite client userId ;;;
       endOlderStandingOrders providers userId ;;;
       ret (mkApplied (Some userId) (match application with Duplicate_payment => Some duplicate_payment | _ => None end))
   end) w = (inr a, w') ->
  Inv (w_db w') /\ Step (w_db w) (w_db w') /\ Granted (planGrantRef p ref) (w_db w') /\
  forall s, session = Some s -> Opened (cs_id s) (w_db w) -> Closed (cs_id s) (w_db w').
Proof.
  intros Hi He Hc ref. cbv zeta. destruct (coalesce _ _) as [sub|]; [|discriminate]. intros Hrun.
  set (T := fun _ : Db => True). assert (HT : Stable T) by (intros ? ? ? ? ?; exact I).
  assert (Hsettle : Guar Inv Step (match session with Some s => settleCheckout (cs_id s) C_completed at_ | None => ret tt end))
    by (destruct session; [apply ok_settleCheckout; discriminate | guar]).
  assert (Hgrant : forall e, Guar Inv Step (grantPlanCredits userId (includedCredits plan) e (planGrantRef p ref)))
    by (intros; unfold grantPlanCredits; guar).
  match type of Hrun with ?m w = _ => assert (Hg : Guar Inv Step m) by guar end.
  destruct (Hg w _ w' Hi He Hrun) as (Hi' & Hs' & _). split; [exact Hi'|]. split; [exact Hs'|]. split.
  - apply (ensures_run T _ (fun _ => Granted (planGrantRef p ref)) w a w' Hi He I Hrun). do 2 after.
    apply ensures_bind_l; [typeclasses eauto | apply Hgrant | apply grantPlan_granted; assumption | intros; guar].
  - intros s -> Ho.
    apply (ensures_run (Opened (cs_id s)) _ (fun _ => Closed (cs_id s)) w a w' Hi He Ho Hrun). after.
    apply ensures_bind_l; [typeclasses eauto | exact Hsettle
      | apply settle_closed; [typeclasses eauto | discriminate | auto] | intros; guar].
Qed.

(** C3: A paid subscription is delivered.  When the webhook of a subscription's
    payment, first or renewal, is handled without an error, under any
    interleaving, then in the store it ends in the payment is recorded, credits
    were granted under that payment's reference, the subscription of the
    provider's reference exists, and the checkout it answers is settled. *)
Theorem subscription_payment_delivered p at_ event session w a w' :
  Inv (w_db w) -> rely Inv Step (w_env w) ->
  (forall s, session = Some s -> Opened (cs_id s) (w_db w)) ->
  applySubscriptionPayment providers client p at_ event session w = (inr a, w') ->
  exists subRef, sc_providerSubscriptionId event = Some subRef /\
    let ref := pp_providerPaymentId (sc_payment event) in
    Linked p subRef (w_db w') /\ Paid p ref (w_db w') /\ Granted (planGrantRef p ref) (w_db w') /\
    forall s, session = Some s -> Closed (cs_id s) (w_db w').
Proof.
  intros Hi He Ho Hrun. unfold applySubscriptionPayment in Hrun.
  destruct (sc_providerSubscriptionId event) as [subRef|]; [|discriminate]. exists subRef. split; [reflexivity|].
  set (T := fun _ : Db => True). assert (HT : Stable T) by (intros ? ? ? ? ?; exact I).
  apply bind_inv in Hrun as [(? & _ & E)|(existing & w1 & H1 & Hrun)]; [discriminate|].
  pose proof (query_stored T p subRef w _ _ Hi He I H1) as Hex.
  destruct (ok_findByProviderRef (G := Step) p subRef w _ _ Hi He H1) as (Hi1 & Hs1 & Hl1 & _).
  pose proof (rely_later _ _ _ _ Hl1 He) as He1.
  destruct (coalesce _ _) as [userId|]; [|discriminate]. destruct (str_eqb userId ""); [discriminate|].
  destruct (findPlan _) as [plan|] eqn:Hplan; [|discriminate].
  destruct (match session with Some _ => _ | None => _ end); [discriminate|].
  apply bind_inv in Hrun as [(? & _ & E)|(application & w2 & H2 & Hrun)]; [discriminate|].
  assert (Happ : Inv (w_db w2) /\ Step (w_db w1) (w_db w2) /\ rely Inv Step (w_env w2) /\ Linked p subRef (w_db w2) /\
    Paid p (pp_providerPaymentId (sc_payment event)) (w_db w2)).
  { destruct existing as [e|].
    - destruct (ok_renewLoop (G := Step) RENEWAL_ATTEMPTS p at_ event e e plan userId w1 _ _ Hi1 He1 H2) as (Hi2 & Hs2 & Hl2 & _).
      pose proof (renewLoop_paid T _ _ _ _ _ _ _ _ _ _ _ Hi1 He1 I H2).
      pose proof (stable _ _ Hi2 Hs2 Hex). eauto 10 using rely_later.
    - destruct (ok_startSubscription (G := Step) p at_ event subRef plan userId w1 _ _ Hi1 He1 H2) as (Hi2 & Hs2 & Hl2 & _).
      destruct (startSubscription_done T _ _ _ _ _ _ _ _ _ Hi1 He1 I H2). eauto 10 using rely_later. }
  destruct Happ as (Hi2 & Hs2 & He2 & Hlink & Hpaid).
  destruct (payment_tail_delivers p at_ event session userId plan existing application w2 a w' Hi2 He2
    (includedCredits_nonneg _ _ Hplan) Hrun) as (Hi3 & Hs3 & Hg & Hcl).
  split; [exact (stable _ _ Hi3 Hs3 Hlink)|]. split; [exact (stable _ _ Hi3 Hs3 Hpaid)|]. split; [exact Hg|].
  intros s Es. apply Hcl; [exact Es|].
  exact (stable _ _ Hi2 Hs2 (stable _ _ Hi1 Hs1 (Ho s Es))).
Qed.

End Theorems.
