(* ===== verification/Witnesses.v ===== *)
(** The theorems with hypotheses, applied at concrete inputs: mostly the small
    deployment [Safety.Demo], in which one user bought the basic plan. *)
From Stdlib Require Import QArith.
From S2P Require Import Prelude JsString Dates Pricing Domain Json Entitlement Allocation CreditViews TrialKey Store.
From S2P Require Import StoreInv StoreProps Provider Credits CreditsProps Paddle Mock ProviderProps Billing.
From S2P Require Import BillingSafety Safety BillingProps Webhook Delivery.
From stdpp Require Import list strings pretty.
#[local] Open Scope Z_scope.

(** *** Credits *)
Definition ledger : list CreditGrant :=
  [ mkCreditGrant "g1" "user-1" G_topup 100 0 "topup:mock:1" 0 None;
    mkCreditGrant "g2" "user-1" G_plan 50 20 "plan:mock:1" 0 (Some (40 * DAY_MS)) ].

(** Forty credits: the plan's thirty first, then ten of the top-up. *)
Example attributeConsumption_spec_witness :
  exists r, attributeConsumption ledger 40 DAY_MS = Some r /\ sumZ at_credits (attributions r) + unallocated r = 40.
Proof.
  assert (Hnd : NoDup (List.map g_id ledger)) by (apply (bool_decide_unpack _); vm_compute; exact I).
  exists (mkAttributionResult [mkAttribution "g2" 30; mkAttribution "g1" 10] 0).
  pose proof (attributeConsumption_spec ledger 40 DAY_MS Hnd) as H.
  assert (E : attributeConsumption ledger 40 DAY_MS
    = Some (mkAttributionResult [mkAttribution "g2" 30; mkAttribution "g1" 10] 0)) by (vm_compute; reflexivity).
  rewrite E in H. split; [exact E | exact (proj1 (proj2 H))].
Defined.

Definition used10 : CreditGrant := mkCreditGrant "g3" "user-1" G_plan 100 10 "plan:mock:2" 0 (Some (40 * DAY_MS)).

(** Ten credits in five days: ninety last forty-five more, past the period; five last two. *)
Example runwayDays_spec_witness :
  runwayDays [used10] 90 (5 * DAY_MS) = None /\
  exists g e, In g [used10] /\ periodEndOf (g_kind g) (g_expiresAt g) = Some e /\ 5 * DAY_MS + 2 * DAY_MS < e.
Proof.
  split; [vm_compute; reflexivity|].
  destruct (runwayDays_spec [used10] 5 (5 * DAY_MS) 2) as (g & e & H1 & _ & _ & _ & H2 & _ & _ & _ & H3).
  - intros g [<-|[]]. vm_compute. discriminate.
  - vm_compute. reflexivity.
  - eauto.
Defined.

Example advanceCursor_once_witness :
  exists d' res,
    advanceCursor "user-1" "bot-1" (mkBotSpend "bot-1" true 50 None) (grantsOfUsers ["user-1"%string] Demo.paid)
      (alone Demo.paid (2 * Demo.day1) []) = (inr res, alone d' (2 * Demo.day1) []) /\
    usedTotal d' = usedTotal Demo.paid + 40.
Proof.
  destruct (advanceCursor_once Demo.paid (2 * Demo.day1) [] "user-1" "bot-1" (mkBotSpend "bot-1" true 50 None))
    as (d' & res & Hrun & [[[_ Hup] _]|[_ Hused]] & _).
  - exact Demo.paid_ok.
  - vm_compute. discriminate.
  - vm_compute in Hup. discriminate.
  - exists d', res. split; [exact Hrun|]. rewrite Hused. vm_compute. reflexivity.
Defined.

Example syncBot_ceiling_witness :
  exists d' res calls',
    syncBot Demo.client "user-1" "bot-1" (grantsOfUsers ["user-1"%string] Demo.opened) (alone Demo.opened Demo.day1 [])
      = (inr res, alone d' Demo.day1 calls') /\
    bs_grants res = grantsOfUsers ["user-1"%string] d'.
Proof.
  destruct (syncBot_ceiling Demo.client Demo.opened Demo.day1 [] "user-1" "bot-1" 30 (Some 200))
    as (d' & res & calls' & Hrun & Hg & _).
  - exact Demo.opened_ok.
  - lia.
  - reflexivity.
  - reflexivity.
  - exists d', res, calls'. split; [exact Hrun | exact Hg].
Defined.

(** *** Subscriptions *)
Definition report (status : SubscriptionStatus) (at_ : Z) : UpsertSubscriptionInput :=
  mkUpsert P_mock "sub-1" None None "basic" status false (Some (40 * DAY_MS)) None at_.

Example upsertIfNewer_last_writer_wins_witness :
  exists d' s', upsertIfNewer (report S_past_due (5 * DAY_MS)) (mkWorld Demo.paid [] (5 * DAY_MS) [])
    = (inr (mkUpsertResult s' true), mkWorld d' [] (5 * DAY_MS) []) /\ sub_status s' = S_past_due.
Proof.
  destruct (upsertIfNewer_last_writer_wins (report S_past_due (5 * DAY_MS)) Demo.paid (5 * DAY_MS) [] Demo.paid_ok)
    as (d' & s' & applied & Hrun & _ & _ & H).
  exists d', s'.
  destruct (stored (ui_provider (report S_past_due (5 * DAY_MS))) _ Demo.paid) as [s|] eqn:E;
    [|vm_compute in E; discriminate].
  destruct H as (Ha & _ & _ & H). assert (Ht : applied = true).
  { rewrite Ha. vm_compute in E. injection E as <-. reflexivity. }
  rewrite Ht in *. destruct H as [H _]. split; [exact Hrun | exact (f_equal (fun q => q.1.1.1.1) H)].
Defined.

Example reports_commute_witness :
  option_map providerState (stored P_mock "sub-1"
    (upsert_stmt 9 (report S_past_due (6 * DAY_MS)) (upsert_stmt 8 (report S_active (5 * DAY_MS)) Demo.paid).2).2)
  = option_map providerState (stored P_mock "sub-1"
    (upsert_stmt 9 (report S_active (5 * DAY_MS)) (upsert_stmt 8 (report S_past_due (6 * DAY_MS)) Demo.paid).2).2).
Proof.
  apply (reports_commute (report S_active (5 * DAY_MS)) (report S_past_due (6 * DAY_MS)) Demo.paid 8 9).
  - exact Demo.paid_ok.
  - reflexivity.
  - vm_compute. discriminate.
  - intros s E. vm_compute in E. injection E as <-. reflexivity.
Defined.

Definition theOrder : Subscription :=
  match db_subs Demo.paid with
  | s :: _ => s
  | [] => newSubscription 0 (report S_active 0) ""
  end.
Definition charge2 : PaymentSucceeded :=
  mkPaymentSucceeded (Some "sub-1"%string) None None (mkProviderPayment "pay-2" 10000 "ILS") (Some 10000) None.

Example renewal_once_witness :
  exists s' d', renew P_mock (30 * DAY_MS) charge2 theOrder (PLANS basic) "user-1" (mkWorld Demo.paid [] (30 * DAY_MS) [])
    = (inr (Applied_payment s'), mkWorld d' [] (30 * DAY_MS) []) /\ paidAlready P_mock "pay-2" d' = true.
Proof.
  pose proof (renewal_once P_mock (30 * DAY_MS) charge2 theOrder (PLANS basic) "user-1" Demo.paid (30 * DAY_MS) []
    Demo.paid_ok) as H.
  assert (Hin : In theOrder (db_subs Demo.paid)) by (vm_compute; left; reflexivity).
  specialize (H Hin). cbv zeta in H.
  assert (Hnew : paidAlready P_mock (pp_providerPaymentId (sc_payment charge2)) Demo.paid = false) by (vm_compute; reflexivity).
  rewrite Hnew in H. destruct H as (s' & row & d' & Hrun & _ & Hp & _). exists s', d'. split; [exact Hrun | exact Hp].
Defined.

(** *** Trials *)
Definition trialUser : BillingUser := mkBillingUser "user-1" "dana@example.com" None false.
Definition otherUser : BillingUser := mkBillingUser "user-2" "Dana+two@example.com" None false.
Definition hash (m : string) : string := m.
Definition claimed : Db := Demo.serveAt Demo.day1 (R_beforeBotCreate trialUser) Demo.start.

Example trial_once_per_mailbox_witness :
  (beforeBotCreate true hash otherUser (mkWorld (deleteUser "user-1" claimed) [] (9 * Demo.day1) [])).1
    = inl TrialUnavailableError.
Proof.
  pose (row := mkTrialClaim (mailbox hash trialUser) (Some "user-1"%string)).
  destruct (trial_once_per_mailbox Demo.registry Demo.client true "https://app.example" hash claimed claimed
    (mailbox hash trialUser) row "user-1") with (d'' := deleteUser "user-1" claimed)
    as (c'' & Hc & _ & Hno).
  - apply (served_ok _ _ _ _ _ _ _ (Demo.served_at Demo.day1 (R_beforeBotCreate trialUser) Demo.start eq_refl) Demo.start_ok).
  - apply history_nil.
  - vm_compute. reflexivity.
  - right. reflexivity.
  - destruct (Hno otherUser (9 * Demo.day1) []) as [_ Hrefused].
    + vm_compute. reflexivity.
    + vm_compute in Hc. injection Hc as <-. discriminate.
    + apply Hrefused; [left; vm_compute; reflexivity | vm_compute; reflexivity].
Defined.

Example trial_starts_once_witness :
  exists d' g, beforeBotCreate true hash trialUser (mkWorld Demo.start [] Demo.day1 [])
    = (inr tt, mkWorld d' [] Demo.day1 [Track_trial_started "user-1"]) /\
    db_grants d' = [g] /\ g_credits g = 400.
Proof.
  destruct (trial_starts_once true hash trialUser Demo.start Demo.day1 []) as (d' & g & H1 & _ & H2 & H3 & _).
  - vm_compute. reflexivity.
  - vm_compute. reflexivity.
  - intros g [].
  - vm_compute. reflexivity.
  - exists d', g. split; [exact H1|]. split; [exact H2|]. congruence.
Defined.

(** *** Checkouts and account deletion *)
Example openCheckout_outcome_witness :
  (openCheckout Demo.registry "https://app.example" Demo.user (subscriptionProduct (PLANS basic))
    (mkWorld Demo.start [] Demo.day1 [])).1 = inr "https://pay.example"%string /\
  option_map cs_providerCheckoutId (List.find (hasCheckoutId (newId Demo.start))
    (db_checkouts (w_db (openCheckout Demo.registry "https://app.example" Demo.user (subscriptionProduct (PLANS basic))
      (mkWorld Demo.start [] Demo.day1 [])).2))) = Some (Some "chk-1"%string).
Proof.
  pose proof (openCheckout_outcome Demo.registry "https://app.example" Demo.user (subscriptionProduct (PLANS basic))
    Demo.start Demo.day1 [] Demo.start_ok) as H.
  assert (Hrun : (openCheckout Demo.registry "https://app.example" Demo.user (subscriptionProduct (PLANS basic))
    (mkWorld Demo.start [] Demo.day1 [])).1 = inr "https://pay.example"%string) by (vm_compute; reflexivity).
  split; [exact Hrun|].
  specialize (H ltac:(vm_compute; discriminate) eq_refl). cbv zeta in H.
  change ((cp_kind (subscriptionProduct (PLANS basic)) =e K_subscription) && owesRenewal Demo.registry (bu_id Demo.user) Demo.start)
    with false in H.
  change (10 <=? openedSince (bu_id Demo.user) (Demo.day1 - HOUR_MS) Demo.start) with false in H.
  cbv iota in H. cbn [fst pv_createCheckout activeProvider rg_active Demo.registry Demo.provider ret] in H.
  destruct (H _ Hrun) as [_ Hf]. rewrite Hf. reflexivity.
Defined.

Example account_deletion_ends_orders_witness :
  (cancelForAccountDeletion Demo.registry "user-1" (mkWorld Demo.paid [] (3 * Demo.day1) [])).1 = inr tt /\
  exists s', In s' (db_subs (w_db (cancelForAccountDeletion Demo.registry "user-1"
               (mkWorld Demo.paid [] (3 * Demo.day1) [])).2)) /\ sub_cancelAtPeriodEnd s' = true.
Proof.
  assert (Hrun : (cancelForAccountDeletion Demo.registry "user-1" (mkWorld Demo.paid [] (3 * Demo.day1) [])).1 = inr tt)
    by (vm_compute; reflexivity).
  split; [exact Hrun|].
  assert (Hcancel : forall name p, rg_byName Demo.registry name = Some p -> CancelAnswers p).
  { intros name p H. simpl in H. destruct (str_eqb name "mock"); [|discriminate]. injection H as <-.
    intros ref w snap w' H. discriminate H. }
  pose proof (account_deletion_ends_orders Demo.registry Hcancel "user-1" Demo.paid (3 * Demo.day1) [] Demo.paid_ok) as H.
  cbv zeta in H.
  match type of H with context [if List.existsb ?f (db_checkouts Demo.paid) then _ else _] =>
    assert (E : List.existsb f (db_checkouts Demo.paid) = false) by (vm_compute; reflexivity); rewrite E in H; clear E end.
  match type of H with context [if List.existsb ?f ?l then _ else _] =>
    assert (E : List.existsb f l = false) by (vm_compute; reflexivity); rewrite E in H; clear E end.
  assert (Hin : In theOrder (listLiveByUserId_q "user-1" Demo.paid)) by (vm_compute; left; reflexivity).
  destruct (H Hrun theOrder Hin) as (s' & H1 & _ & H2). exists s'. split; [exact H1 | exact H2].
Defined.

(** *** Deliveries *)
Definition theSession : CheckoutSession :=
  match db_checkouts Demo.opened with
  | c :: _ => c
  | [] => mkCheckoutSession "" "" P_mock K_topup "" 0 0 C_pending None 0 0 None
  end.
Definition payment1 : PaymentSucceeded :=
  mkPaymentSucceeded (Some "sub-1"%string) (Some "cus-1"%string) (Some "basic"%string)
    (mkProviderPayment "pay-1" 10000 "ILS") (Some 10000) None.
Definition atOpened : World Db Call := mkWorld Demo.opened [] Demo.day1 [].

Example subscription_payment_delivered_witness :
  let run := applySubscriptionPayment Demo.registry Demo.client P_mock Demo.day1 payment1 (Some theSession) atOpened in
  run.1 = inr (mkApplied (Some "user-1"%string) None) /\
  Paid P_mock "pay-1" (w_db run.2) /\ Granted "plan:mock:pay-1" (w_db run.2) /\ Closed (cs_id theSession) (w_db run.2).
Proof.
  cbv zeta.
  assert (Hrun : (applySubscriptionPayment Demo.registry Demo.client P_mock Demo.day1 payment1 (Some theSession) atOpened).1
    = inr (mkApplied (Some "user-1"%string) None)) by (vm_compute; reflexivity).
  split; [exact Hrun|].
  destruct (applySubscriptionPayment Demo.registry Demo.client P_mock Demo.day1 payment1 (Some theSession) atOpened)
    as [r w'] eqn:E. cbn [fst snd] in *. subst r.
  destruct (subscription_payment_delivered Demo.registry Demo.client P_mock Demo.day1 payment1 (Some theSession)
    atOpened (mkApplied (Some "user-1"%string) None) w' Demo.opened_ok) as (ref & Href & _ & Hp & Hg & Hc).
  - constructor.
  - intros s Es. injection Es as <-. exists theSession. split; [vm_compute; left; reflexivity | reflexivity].
  - exact E.
  - split; [exact Hp|]. split; [exact Hg | exact (Hc theSession eq_refl)].
Defined.

Definition topupOpened : Db :=
  (insertCheckout_stmt Demo.day1 (mkNewCheckout "user-1" P_mock K_topup "topup_ils_50" 2000 5000 (2 * Demo.day1)) Demo.start).2.
Definition topupSession : CheckoutSession :=
  match db_checkouts topupOpened with c :: _ => c | [] => theSession end.
Definition topupPayment : PaymentSucceeded :=
  mkPaymentSucceeded None None None (mkProviderPayment "pay-9" 5000 "ILS") (Some 5000) None.
Definition atTopup : World Db Call := mkWorld topupOpened [] Demo.day1 [].


Definition theGrant : CreditGrant :=
  match db_grants Demo.paid with
  | g :: _ => g
  | [] => used10
  end.
Definition atPaid : World Db Call := mkWorld Demo.paid [] (2 * Demo.day1) [].


(** *** Providers *)
Definition wire : Wire := mkWire (fun _ => Some 0) (fun _ => true) (fun _ => true).
Definition mockJson : Json :=
  JObj [("type", JStr "payment.succeeded"); ("id", JStr "evt-7"); ("occurredAt", JStr "1970-01-01T00:00:00Z");
        ("subscriptionId", JStr "sub-1");
        ("payment", JObj [("id", JStr "pay-7"); ("amountAgorot", JNum 10000); ("currency", JStr "ILS")])]%string.
Definition platform : Platform :=
  mkPlatform wire (fun s => if str_eqb s "{...}" then Some mockJson else None) (fun _ => "{...}"%string)
    (fun _ body => if str_eqb body "{...}" then "a0b1" else "c2")%string (fun path base => (base ++ path)%string)
    (fun _ _ _ _ => Http_network "AbortError").
Definition mockConfig : MockProviderConfig := mkMockConfig "0123456789abcdef" "https://app.example".
Definition mockEvent : MockWebhookEvent :=
  mkMockEvent "evt-7" 0 "payment.succeeded" (Mock_payment_succeeded "sub-1" (mkMockPayment "pay-7" 10000 "ILS")).

Example mock_webhook_roundtrip_witness :
  mockParse platform mockConfig (signedWebhook platform mockConfig mockJson)
  = inr (mockProviderEvent mockEvent "{...}").
Proof.
  apply (mock_webhook_roundtrip platform mockConfig mockJson mockEvent).
  - reflexivity.
  - split; [reflexivity | simpl; lia].
  - vm_compute. reflexivity.
Defined.

Definition mockFactory (n : PaymentProviderName) : Err + PaymentProvider :=
  match n with
  | P_mock => inr (MockPaymentProvider platform mockConfig)
  | P_paddle => inl (BillingUnavailableError "missing env: PADDLE_ENVIRONMENT")
  end.
Definition mockEnv : Env := fun name => if str_eqb name "PAYMENT_PROVIDER" then Some " mock "%string else None.

Example registry_reaches_configured_witness :
  exists r, createProviderRegistry mockEnv mockFactory = inr r /\
    rg_byName r "mock" = Some (MockPaymentProvider platform mockConfig) /\
    rg_active r = MockPaymentProvider platform mockConfig.
Proof.
  assert (Hf : forall n p, mockFactory n = inr p -> pv_name p = n /\ pv_available p = true).
  { intros [] p H; [injection H as <-; split; reflexivity | discriminate]. }
  assert (Ha : resolveActiveProviderName mockEnv = inr P_mock) by (vm_compute; reflexivity).
  assert (Hr : exists r, createProviderRegistry mockEnv mockFactory = inr r).
  { unfold createProviderRegistry. rewrite Ha. eexists. reflexivity. }
  destruct Hr as [r E]. exists r. split; [exact E|].
  destruct (registry_reaches_configured mockFactory mockEnv r Hf E) as (_ & H1 & H2).
  rewrite Ha in H2. split; [exact (H1 P_mock _ P_mock Ha eq_refl) | exact H2].
Defined.

Example cancel_ends_orders_witness :
  let run := Billing.cancel Demo.registry true hash Demo.user (mkWorld Demo.paid [] (3 * Demo.day1) []) in
  match run.1 with inr _ => True | inl _ => False end /\
  exists s', In s' (db_subs (w_db run.2)) /\ sub_cancelAtPeriodEnd s' = true.
Proof.
  cbv zeta.
  assert (Hcancel : forall name p, rg_byName Demo.registry name = Some p -> CancelAnswers p).
  { intros name p H. simpl in H. destruct (str_eqb name "mock"); [|discriminate]. injection H as <-.
    intros ref w snap w' H. discriminate H. }
  pose proof (cancel_ends_orders Demo.registry Hcancel true hash Demo.user Demo.paid (3 * Demo.day1) [] Demo.paid_ok) as H.
  cbv zeta in H.
  assert (Hcur : findCurrentByUserId_q (bu_id Demo.user) Demo.paid = Some theOrder) by (vm_compute; reflexivity).
  rewrite Hcur in H.
  match type of H with context [if negb ?b then _ else _] =>
    assert (E : b = true) by (vm_compute; reflexivity); rewrite E in H; clear E end.
  match type of H with context [if List.existsb ?f ?l then _ else _] =>
    assert (E : List.existsb f l = false) by (vm_compute; reflexivity); rewrite E in H; clear E end.
  assert (Hin : In theOrder (listLiveByUserId_q "user-1" Demo.paid)) by (vm_compute; left; reflexivity).
  destruct (Billing.cancel Demo.registry true hash Demo.user (mkWorld Demo.paid [] (3 * Demo.day1) [])) as [[err|st] w'] eqn:E.
  - exfalso. assert (E' : match (Billing.cancel Demo.registry true hash Demo.user
      (mkWorld Demo.paid [] (3 * Demo.day1) [])).1 with inr _ => True | inl _ => False end) by (vm_compute; exact I).
    rewrite E in E'. exact E'.
  - split; [exact I|]. destruct (H st eq_refl theOrder Hin) as (s' & H1 & _ & H2). exists s'. split; [exact H1 | exact H2].
Defined.

(** ** Runs that show defects

    Runs that show where the code falls short of its intent. *)
Definition meter (spendCents t : Z) (d : Db) : Db :=
  w_db (advanceCursor "user-1" "bot-1" (mkBotSpend "bot-1" true spendCents None)
          (grantsOfUsers ["user-1"%string] d) (alone d t [])).2.

(** A gateway counter that restarts is noticed only if a reading is lower than the
    last one and not zero: the reading 0 is taken for "nothing new" and is not
    stored.  After 30 cents, a restart read at 0 and 50 cents of new spend, the
    bot is charged for 50 cents in all, not for 80. *)
Example restart_read_at_zero_undercharges :
  let restarted := meter 0 (2 * Demo.day1) Demo.paid in
  let after := meter 50 (3 * Demo.day1) restarted in
  List.map u_lastSpendUsdCents (db_usage Demo.paid) = [30] /\ restarted = Demo.paid /\
  usedTotal after = creditsFromUsdCents 50 /\ usedTotal after <> creditsFromUsdCents (30 + 50).
Proof.
  cbv zeta. split; [vm_compute; reflexivity|]. split; [vm_compute; reflexivity|].
  split; vm_compute; [reflexivity | discriminate].
Qed.

(** What a concurrent webhook may do between the staleness check of
    [applyCanceled] and its update: store a newer report of the provider. *)
Definition newerReport : UpsertSubscriptionInput :=
  mkUpsert P_mock "sub-1" (Some "user-1"%string) None "basic" S_active false (Some (60 * DAY_MS)) None (9 * DAY_MS).

(** The check and the update are two accesses, and the update has no guard: a
    cancellation of day 3 overwrites a report of day 9 and rewinds its date. *)
Example stale_cancellation_overwrites :
  let w := mkWorld Demo.paid [(fun d => d); (fun d => (upsert_stmt (9 * DAY_MS) newerReport d).2)] (9 * DAY_MS) [] in
  let run := applyCanceled P_mock (3 * DAY_MS) "sub-1" None w in
  run.1 = inr (mkApplied (Some "user-1"%string) None) /\
  List.map (fun s => (sub_status s, sub_providerUpdatedAt s)) (db_subs (w_db run.2)) = [(S_canceled, 3 * DAY_MS)].
Proof. vm_compute. split; reflexivity. Qed.
