(* ===== verification/AutoRestart.v ===== *)
(** Restarting bots that stopped answering:
    [orchestrator/src/services/auto-restarter.ts], over the task set of
    [background-tasks.ts].

    The restarter is told at every poll of the health monitor which bots are
    down, and asks the instance manager to restart those that stay down, within
    a budget per bot and time window.

    A [BotState] is an object shared by the map of bots and by the restart in
    flight, and [prune] forgets the map's reference while the restart keeps its
    own: the objects live in a heap and the map holds their addresses.  A
    background task runs up to its first [await] when it is launched; the rest
    is a step of its own ([settleRestart], [settleRecord]), so every interleaving
    of polls and answers is a sequence of steps. *)
From Stdlib Require Import Sorted.
From S2P Require Import Prelude.
From stdpp Require Import list strings gmap.
#[local] Open Scope Z_scope.

(** ** Data *)
Inductive LivenessSample := S_live | S_down | S_booting | S_unknown.

#[export] Instance LivenessSample_eq_dec : EqDecision LivenessSample.
Proof. solve_decision. Defined.

Record LivenessReport := mkReport { lr_instanceId : string; lr_sample : LivenessSample }.

Record AutoRestartConfig := mkAutoRestartConfig {
  ac_failureThreshold : Z;
  ac_cooldownMs : Z;
  ac_maxRestartsPerWindow : Z;
  ac_windowMs : Z;
}.

Inductive SystemRestartOutcome :=
| Restarted
| NotRestarted (reason : string) (transient : bool).

Definition FLEET_OUTAGE_MIN_DOWN : Z := 3.

Record BotState := mkBotState {
  bs_consecutiveFailures : Z;
  bs_restartsAt : list Z;
  bs_restarting : bool;
  bs_exhaustedNotified : bool;
}.

Record RestartPayload := mkRestartPayload { rp_consecutiveFailures : Z; rp_restartsInWindow : Z }.

(** The events of [AUTO_RESTART_EVENTS] with their payloads. *)
Inductive RestartEvent :=
| E_restarted (p : RestartPayload)
| E_failed (p : RestartPayload) (error : string)
| E_blocked (p : RestartPayload) (reason : string)
| E_exhausted (restartsInWindow windowMs : Z).

(** What leaves the component: a request to the manager, an event to append. *)
Inductive RestarterCall :=
| Call_restartBySystem (instanceId : string)
| Call_append (instanceId : string) (ev : RestartEvent).

(** A background task at its pending [await]: the manager's answer, the event of
    a settled restart, the event of an exhausted budget. *)
Inductive Task :=
| T_restart (instanceId : string) (ref : nat) (now : Z) (payload : RestartPayload)
| T_record (ref : nat)
| T_notify.

Record AutoRestarter := mkAutoRestarter {
  ar_heap : list BotState;
  ar_bots : gmap string nat;
  ar_fleetOutage : bool;
  ar_tasks : list Task;
  ar_calls : list RestarterCall;
}.

Definition initRestarter : AutoRestarter := mkAutoRestarter [] ∅ false [] [].

Section Restarter.
Context (cfg : AutoRestartConfig).
Implicit Types st : AutoRestarter.

(** ** The private methods *)
Definition newBotState : BotState := mkBotState 0 [] false false.

Definition stateFor (id : string) st : nat * AutoRestarter :=
  match ar_bots st !! id with
  | Some ref => (ref, st)
  | None =>
      let ref := length (ar_heap st) in
      (ref, mkAutoRestarter (ar_heap st ++ [newBotState]) (<[id := ref]> (ar_bots st))
              (ar_fleetOutage st) (ar_tasks st) (ar_calls st))
  end.

Definition setBot (ref : nat) (f : BotState -> BotState) st : AutoRestarter :=
  mkAutoRestarter (alter f ref (ar_heap st)) (ar_bots st) (ar_fleetOutage st) (ar_tasks st) (ar_calls st).

Definition botAt (ref : nat) st : BotState := default newBotState (ar_heap st !! ref).

Definition call (c : RestarterCall) st : AutoRestarter :=
  mkAutoRestarter (ar_heap st) (ar_bots st) (ar_fleetOutage st) (ar_tasks st) (ar_calls st ++ [c]).

(** [BackgroundTasks.launch]. *)
Definition launch (t : Task) st : AutoRestarter :=
  mkAutoRestarter (ar_heap st) (ar_bots st) (ar_fleetOutage st) (ar_tasks st ++ [t]) (ar_calls st).

Definition finishTask (i : nat) st : AutoRestarter :=
  mkAutoRestarter (ar_heap st) (ar_bots st) (ar_fleetOutage st) (delete i (ar_tasks st)) (ar_calls st).

Definition setFailures (n : Z) (b : BotState) : BotState :=
  mkBotState n (bs_restartsAt b) (bs_restarting b) (bs_exhaustedNotified b).
Definition setRestartsAt (l : list Z) (b : BotState) : BotState :=
  mkBotState (bs_consecutiveFailures b) l (bs_restarting b) (bs_exhaustedNotified b).
Definition setRestarting (x : bool) (b : BotState) : BotState :=
  mkBotState (bs_consecutiveFailures b) (bs_restartsAt b) x (bs_exhaustedNotified b).
Definition setNotified (x : bool) (b : BotState) : BotState :=
  mkBotState (bs_consecutiveFailures b) (bs_restartsAt b) (bs_restarting b) x.

Definition prune (active : list string) st : AutoRestarter :=
  mkAutoRestarter (ar_heap st) (filter (fun kv => kv.1 ∈ active) (ar_bots st))
    (ar_fleetOutage st) (ar_tasks st) (ar_calls st).

Definition downCount (report : list LivenessReport) : Z :=
  Z.of_nat (length (List.filter (fun e => bool_decide (lr_sample e = S_down)) report)).

Definition isOutage (report : list LivenessReport) : bool :=
  (FLEET_OUTAGE_MIN_DOWN <=? downCount report) && (Z.of_nat (length report) <? downCount report * 2).

Definition detectFleetOutage (report : list LivenessReport) st : bool * AutoRestarter :=
  (isOutage report,
   mkAutoRestarter (ar_heap st) (ar_bots st) (isOutage report) (ar_tasks st) (ar_calls st)).

(** [restart] and [notifyExhausted] up to their first [await]. *)
Definition restart (id : string) (ref : nat) (now : Z) st : AutoRestarter :=
  let b := botAt ref st in
  let payload := mkRestartPayload (bs_consecutiveFailures b) (Z.of_nat (length (bs_restartsAt b)) + 1) in
  launch (T_restart id ref now payload)
    (call (Call_restartBySystem id) (setBot ref (setRestarting true) st)).

Definition notifyExhausted (id : string) (ref : nat) st : AutoRestarter :=
  let b := botAt ref st in
  if bs_exhaustedNotified b then st
  else launch T_notify
    (call (Call_append id (E_exhausted (Z.of_nat (length (bs_restartsAt b))) (ac_windowMs cfg)))
      (setBot ref (setNotified true) st)).

Definition coolingDown (now : Z) (b : BotState) : bool :=
  match last (bs_restartsAt b) with
  | Some at_ => now - at_ <? ac_cooldownMs cfg
  | None => false
  end.

Definition inWindow (now : Z) (l : list Z) : list Z :=
  List.filter (fun at_ => now - at_ <? ac_windowMs cfg) l.

Definition track (now : Z) st (e : LivenessReport) : AutoRestarter :=
  let '(ref, st) := stateFor (lr_instanceId e) st in
  let b := botAt ref st in
  if bs_restarting b then st
  else match lr_sample e with
  | S_booting | S_unknown => st
  | S_live => setBot ref (setFailures 0) st
  | S_down =>
      let failures := bs_consecutiveFailures b + 1 in
      let st := setBot ref (setFailures failures) st in
      if failures <? ac_failureThreshold cfg then st
      else if coolingDown now b then st
      else
        let recent := inWindow now (bs_restartsAt b) in
        let st := setBot ref (setRestartsAt recent) st in
        if ac_maxRestartsPerWindow cfg <=? Z.of_nat (length recent)
        then notifyExhausted (lr_instanceId e) ref st
        else restart (lr_instanceId e) ref now (setBot ref (setNotified false) st)
  end.

(** ** The steps *)
Definition observe (now : Z) (report : list LivenessReport) st : AutoRestarter :=
  let st := prune (List.map lr_instanceId report) st in
  let '(outage, st) := detectFleetOutage report st in
  if outage then st else fold_left (track now) report st.

(** The [finally] of [restart]. *)
Definition finallyRestart (ref : nat) st : AutoRestarter :=
  setBot ref (fun b => setFailures 0 (setRestarting false b)) st.

Definition spendBudget (ref : nat) (now : Z) st : AutoRestarter :=
  setBot ref (fun b => setRestartsAt (bs_restartsAt b ++ [now]) b) st.

(** The manager answered (or threw) for task [i]: the rest of [restart] up to
    the event it records, if any. *)
Definition settleRestart (i : nat) (answer : string + SystemRestartOutcome) st : AutoRestarter :=
  match ar_tasks st !! i with
  | Some (T_restart id ref now payload) =>
      let st := finishTask i st in
      let recorded ev :=
        launch (T_record ref) (call (Call_append id ev) (spendBudget ref now st)) in
      match answer with
      | inr Restarted => recorded (E_restarted payload)
      | inr (NotRestarted reason transient) =>
          if transient then finallyRestart ref st
          else recorded (E_blocked payload reason)
      | inl err => recorded (E_failed payload err)
      end
  | _ => st
  end.

(** The event of task [i] was appended, or failed to be and was logged. *)
Definition settleRecord (i : nat) st : AutoRestarter :=
  match ar_tasks st !! i with
  | Some (T_record ref) => finallyRestart ref (finishTask i st)
  | Some T_notify => finishTask i st
  | _ => st
  end.

(** The attempts that spend budget, by bot object and launch time. *)
Definition charge (i : nat) (answer : string + SystemRestartOutcome) st : list (nat * Z) :=
  match ar_tasks st !! i with
  | Some (T_restart _ ref now _) =>
      match answer with
      | inr (NotRestarted _ true) => []
      | _ => [(ref, now)]
      end
  | _ => []
  end.

(** Reachable states, with the last clock reading and the attempts charged so
    far: polls at a clock that does not run backwards, and answers in any order. *)
Inductive Run : Z -> list (nat * Z) -> AutoRestarter -> Prop :=
| run_init t : Run t [] initRestarter
| run_observe t ch st now report :
    Run t ch st -> t <= now -> Run now ch (observe now report st)
| run_settle t ch st i answer :
    Run t ch st -> Run t (ch ++ charge i answer st) (settleRestart i answer st)
| run_record t ch st i :
    Run t ch st -> Run t ch (settleRecord i st).

(** The launch times charged to one bot object, and those in [(T - window, T]]. *)
Definition times (ref : nat) (ch : list (nat * Z)) : list Z :=
  List.map snd (List.filter (fun p => Nat.eqb p.1 ref) ch).

Definition countWithin (T : Z) (l : list Z) : Z :=
  Z.of_nat (length (List.filter (fun at_ => (T - ac_windowMs cfg <? at_) && (at_ <=? T)) l)).

Definition holds (ref : nat) (t : Task) : bool :=
  match t with
  | T_restart _ r _ _ | T_record r => Nat.eqb r ref
  | T_notify => false
  end.

Definition holders (ref : nat) st : nat := length (List.filter (holds ref) (ar_tasks st)).
End Restarter.

(** ** What the auto restarter promises

    What the auto restarter promises: the restart budget of every history, and
    that a bot that stays down is attended to. *)
(** ** Lists of times *)
Section Windows.
Context (cfg : AutoRestartConfig).

(** An attempt launched at [n] after the attempts [l]. *)
Definition fits (l : list Z) (n : Z) : Prop :=
  Forall (fun a => a <= n) l /\
  Z.of_nat (length (inWindow cfg n l)) < ac_maxRestartsPerWindow cfg /\
  match last l with Some a => ac_cooldownMs cfg <= n - a | None => True end.

Definition budgeted (l : list Z) : Prop := forall p n s, l = p ++ n :: s -> fits p n.

Lemma budgeted_nil : budgeted [].
Proof. intros [|] ? ?; discriminate. Qed.

Lemma budgeted_snoc l n : budgeted l -> fits l n -> budgeted (l ++ [n]).
Proof.
  intros Hl Hn p m s E. destruct s as [|x s _] using rev_ind.
  - apply app_inj_tail in E as [-> <-]. exact Hn.
  - rewrite app_comm_cons, app_assoc in E. apply app_inj_tail in E as [-> _].
    apply (Hl p m s). reflexivity.
Qed.

Lemma inWindow_app n l1 l2 : inWindow cfg n (l1 ++ l2) = inWindow cfg n l1 ++ inWindow cfg n l2.
Proof. apply List.filter_app. Qed.

Lemma inWindow_old n l :
  Forall (fun a => ac_windowMs cfg <= n - a) l -> inWindow cfg n l = [].
Proof.
  induction 1 as [|a l Ha _ IH]; simpl; [reflexivity|].
  destruct (n - a <? ac_windowMs cfg) eqn:E; bools; [lia | exact IH].
Qed.

(** The attempts in any window are among those the last of them was checked against. *)
Lemma budgeted_count T l :
  budgeted l -> countWithin cfg T l <= Z.max 0 (ac_maxRestartsPerWindow cfg).
Proof.
  unfold countWithin. induction l as [|n l IH] using rev_ind; intros Hb; [simpl; lia|].
  assert (Hl : budgeted l).
  { intros p m s ->. apply (Hb p m (s ++ [n])). rewrite <- app_assoc. reflexivity. }
  specialize (IH Hl). destruct (Hb l n []) as (Hle & Hcount & _); [reflexivity|].
  rewrite List.filter_app, length_app. simpl.
  destruct ((T - ac_windowMs cfg <? n) && (n <=? T)) eqn:E; simpl; [|lia]. bools.
  enough (Z.of_nat (length (List.filter (fun a => (T - ac_windowMs cfg <? a) && (a <=? T)) l)) <=
          Z.of_nat (length (inWindow cfg n l))) by lia.
  clear -Hle H H0. unfold inWindow. induction Hle as [|a l Ha _ IH]; simpl; [lia|].
  destruct ((T - ac_windowMs cfg <? a) && (a <=? T)) eqn:E1;
    destruct (n - a <? ac_windowMs cfg) eqn:E2; bools; simpl; lia.
Qed.

Lemma budgeted_sorted l : budgeted l -> StronglySorted Z.le l.
Proof.
  induction l as [|n l IH] using rev_ind; intros Hb; [constructor|].
  assert (Hl : budgeted l).
  { intros p m s ->. apply (Hb p m (s ++ [n])). rewrite <- app_assoc. reflexivity. }
  destruct (Hb l n []) as (Hle & _ & _); [reflexivity|]. specialize (IH Hl). clear Hb Hl.
  induction IH as [|a l Hs IH' Ha]; simpl; [repeat constructor|].
  apply Forall_cons in Hle as [? Hle].
  constructor; [auto|]. apply Forall_app. auto.
Qed.

Lemma budgeted_gap l p u v s :
  budgeted l -> l = p ++ u :: v :: s -> ac_cooldownMs cfg <= v - u.
Proof.
  intros Hb ->. destruct (Hb (p ++ [u]) v s) as (_ & _ & H); [rewrite <- app_assoc; reflexivity|].
  rewrite last_snoc in H. exact H.
Qed.

Lemma times_app r ch1 ch2 : times r (ch1 ++ ch2) = times r ch1 ++ times r ch2.
Proof. unfold times. rewrite List.filter_app. apply List.map_app. Qed.

Lemma in_times r a ch : In a (times r ch) <-> In (r, a) ch.
Proof.
  unfold times. rewrite in_map_iff. split.
  - intros ([r' a'] & Ha & Hin). apply filter_In in Hin as [Hin Hr]. simpl in *.
    apply Nat.eqb_eq in Hr. subst. exact Hin.
  - intros Hin. exists (r, a). rewrite filter_In. simpl. rewrite Nat.eqb_refl. auto.
Qed.
End Windows.

(** ** The invariant *)
Section Invariant.
Context (cfg : AutoRestartConfig).

(** The list an object keeps is the recent end of what it was charged. *)
Definition Keeps (t : Z) (l : list Z) (b : BotState) : Prop :=
  exists dropped, l = dropped ++ bs_restartsAt b /\
    Forall (fun a => ac_windowMs cfg <= t - a /\ ac_cooldownMs cfg <= t - a) dropped.

Definition taskOk (t : Z) (ch : list (nat * Z)) (n : nat) (x : Task) : Prop :=
  match x with
  | T_restart _ r now _ => (r < n)%nat /\ now <= t /\ fits cfg (times r ch) now
  | T_record r => (r < n)%nat
  | T_notify => True
  end.

Record ArInv (t : Z) (ch : list (nat * Z)) (st : AutoRestarter) : Prop := mkArInv {
  ai_bots : forall id r, ar_bots st !! id = Some r -> (r < length (ar_heap st))%nat;
  ai_charged : Forall (fun p => (p.1 < length (ar_heap st))%nat /\ p.2 <= t) ch;
  ai_budget : forall r, budgeted cfg (times r ch);
  ai_heap : forall r b, ar_heap st !! r = Some b ->
    Keeps t (times r ch) b /\ holders r st = if bs_restarting b then 1%nat else 0%nat;
  ai_tasks : Forall (taskOk t ch (length (ar_heap st))) (ar_tasks st);
}.

Lemma arInv_init t : ArInv t [] initRestarter.
Proof.
  split; [discriminate | constructor | intros; apply budgeted_nil | | constructor].
  intros r b H. destruct r; discriminate.
Qed.

Lemma keeps_later t t' l b : t <= t' -> Keeps t l b -> Keeps t' l b.
Proof.
  intros Ht (d & -> & Hd). exists d. split; [reflexivity|].
  eapply Forall_impl; [exact Hd|]. intros a. simpl. lia.
Qed.

Lemma arInv_later t t' ch st : t <= t' -> ArInv t ch st -> ArInv t' ch st.
Proof.
  intros Ht [H1 H2 H3 H4 H5]. split; auto.
  - eapply Forall_impl; [exact H2|]. intros p. simpl. lia.
  - intros r b Hb. destruct (H4 r b Hb). split; [eapply keeps_later; eauto | assumption].
  - eapply Forall_impl; [exact H5|]. intros [id r n' p|r|]; simpl; intuition lia.
Qed.

(** Calls, the map and the outage flag are not the invariant's business. *)
Lemma arInv_frame t ch st st' :
  ar_heap st' = ar_heap st -> ar_tasks st' = ar_tasks st ->
  (forall id r, ar_bots st' !! id = Some r -> ar_bots st !! id = Some r) ->
  ArInv t ch st -> ArInv t ch st'.
Proof.
  intros Eh Et Hb [H1 H2 H3 H4 H5].
  split; rewrite ?Eh, ?Et; unfold holders in *; rewrite ?Et; eauto.
Qed.

Lemma arInv_setBot t ch st ref f :
  (forall b, ar_heap st !! ref = Some b -> bs_restarting (f b) = bs_restarting b /\
     (Keeps t (times ref ch) b -> Keeps t (times ref ch) (f b))) ->
  ArInv t ch st -> ArInv t ch (setBot ref f st).
Proof.
  intros Hf [H1 H2 H3 H4 H5]. split; simpl; rewrite ?length_alter; auto.
  intros r b Hb. change (holders r (setBot ref f st)) with (holders r st).
  destruct (decide (r = ref)) as [->|Hne].
  - rewrite list_lookup_alter_eq in Hb. destruct (ar_heap st !! ref) as [b0|] eqn:E; [|discriminate].
    injection Hb as <-. destruct (H4 ref b0 E) as [Hk Hh]. destruct (Hf b0 eq_refl) as [Hr Hk'].
    rewrite Hr. auto.
  - rewrite list_lookup_alter_ne in Hb by congruence. auto.
Qed.

Lemma arInv_stateFor t ch st id :
  ArInv t ch st ->
  ArInv t ch (stateFor id st).2 /\ ((stateFor id st).1 < length (ar_heap (stateFor id st).2))%nat.
Proof.
  intros HI. unfold stateFor. destruct (ar_bots st !! id) as [r|] eqn:Er; simpl.
  { split; [exact HI | exact (ai_bots _ _ _ HI id r Er)]. }
  destruct HI as [H1 H2 H3 H4 H5]. rewrite length_app. simpl. split; [|lia].
  assert (Hnew : times (length (ar_heap st)) ch = []).
  { destruct (times (length (ar_heap st)) ch) as [|a l] eqn:E; [reflexivity|]. exfalso.
    assert (Hin : In (length (ar_heap st), a) ch) by (apply in_times; rewrite E; left; reflexivity).
    rewrite Forall_forall in H2. apply list_elem_of_In in Hin. apply H2 in Hin. simpl in Hin. lia. }
  split; simpl; rewrite ?length_app; simpl; auto.
  - intros id' r. rewrite lookup_insert_Some. intros [[_ <-]|[_ Hr]]; [lia|]. apply H1 in Hr. lia.
  - eapply Forall_impl; [exact H2|]. intros p. simpl. lia.
  - intros r b Hb. apply lookup_app_Some in Hb as [Hb|[Hge Hb]]; [exact (H4 r b Hb)|].
    apply list_lookup_singleton_Some in Hb as [Hr <-].
    assert (r = length (ar_heap st)) as -> by lia. rewrite Hnew. split; [exists []; auto|].
    simpl. unfold holders. simpl. rewrite filter_none; [reflexivity|].
    eapply Forall_impl; [exact H5|].
    intros [i r n' p|r|]; simpl; intuition; apply Nat.eqb_neq; lia.
  - eapply Forall_impl; [exact H5|]. intros [i r n' p|r|]; simpl; intuition lia.
Qed.
End Invariant.

(** ** Every step keeps it *)
Section Steps.
Context (cfg : AutoRestartConfig).

Lemma inWindow_all n l : Forall (fun a => n - a < ac_windowMs cfg) l -> inWindow cfg n l = l.
Proof.
  induction 1 as [|a l Ha _ IH]; simpl; [reflexivity|].
  rewrite (proj2 (Z.ltb_lt _ _) Ha), IH. reflexivity.
Qed.

(** On an ordered list the filter drops a prefix. *)
Lemma inWindow_split n l :
  StronglySorted Z.le l ->
  exists old, l = old ++ inWindow cfg n l /\ Forall (fun a => ac_windowMs cfg <= n - a) old.
Proof.
  induction 1 as [|a l Hl IH Ha]; simpl; [exists []; auto|].
  destruct (n - a <? ac_windowMs cfg) eqn:E; bools.
  - exists []. rewrite inWindow_all; [auto|].
    eapply Forall_impl; [exact Ha|]. simpl. intros x. lia.
  - destruct IH as (old & -> & Hold). exists (a :: old).
    rewrite inWindow_app, (inWindow_old _ n old Hold). simpl. split; [|auto].
    f_equal. f_equal. symmetry.
    clear. induction l as [|x l IH]; simpl; [reflexivity|].
    destruct (n - x <? ac_windowMs cfg) eqn:E; simpl; [rewrite E, IH; reflexivity | exact IH].
Qed.

Lemma sorted_last_max (l : list Z) a x : StronglySorted Z.le l -> last l = Some a -> In x l -> x <= a.
Proof.
  intros Hs Hl Hx. destruct l as [|y l' _] using rev_ind; [discriminate|].
  rewrite last_snoc in Hl. injection Hl as ->.
  apply in_app_iff in Hx as [Hx|[->|[]]]; [|lia].
  induction l' as [|z l' IH]; simpl in *; [contradiction|].
  apply StronglySorted_inv in Hs as [Hs Hz]. destruct Hx as [->|Hx]; [|auto].
  rewrite Forall_forall in Hz. apply Hz. apply list_elem_of_In, in_app_iff. simpl. auto.
Qed.

Lemma sorted_suffix (l1 l2 : list Z) : StronglySorted Z.le (l1 ++ l2) -> StronglySorted Z.le l2.
Proof. induction l1; simpl; [auto|]. intros H. apply StronglySorted_inv in H as [H _]. auto. Qed.

(** What the code checks before a restart is what the budget needs. *)
Lemma keeps_fits t l b :
  Forall (fun a => a <= t) l -> Keeps cfg t l b -> coolingDown cfg t b = false ->
  Z.of_nat (length (inWindow cfg t (bs_restartsAt b))) < ac_maxRestartsPerWindow cfg ->
  fits cfg l t.
Proof.
  intros Hle (d & -> & Hd) Hc Hn. split; [exact Hle|]. split.
  - rewrite inWindow_app, inWindow_old; [exact Hn|].
    eapply Forall_impl; [exact Hd|]. simpl. intuition.
  - unfold coolingDown in Hc. destruct (bs_restartsAt b) as [|a r] using rev_ind.
    + rewrite app_nil_r. destruct (last d) as [u|] eqn:E; [|exact I].
      apply last_Some in E as (d' & ->). apply Forall_app in Hd as [_ Hd].
      apply Forall_cons in Hd as [[_ Hd] _]. exact Hd.
    + rewrite app_assoc, last_snoc. rewrite last_snoc in Hc. bools. lia.
Qed.

Lemma keeps_window t l b :
  budgeted cfg l -> Keeps cfg t l b -> coolingDown cfg t b = false ->
  Keeps cfg t l (setRestartsAt (inWindow cfg t (bs_restartsAt b)) b).
Proof.
  intros Hb (d & -> & Hd) Hc. pose proof (budgeted_sorted _ _ Hb) as Hs.
  apply sorted_suffix in Hs. destruct (inWindow_split t _ Hs) as (old & E & Hold).
  exists (d ++ old). simpl. rewrite <- app_assoc, <- E. split; [reflexivity|].
  apply Forall_app. split; [exact Hd|]. rewrite Forall_forall in Hold. apply Forall_forall.
  intros a Ha. split; [apply Hold; exact Ha|]. unfold coolingDown in Hc.
  destruct (last (bs_restartsAt b)) as [u|] eqn:El; [|rewrite last_None in El; rewrite El in E; destruct old; [inversion Ha | discriminate]].
  bools. enough (a <= u) by lia. apply (sorted_last_max _ _ _ Hs El). rewrite E.
  apply in_app_iff. left. apply list_elem_of_In. exact Ha.
Qed.

Lemma times_le t ch st r : ArInv cfg t ch st -> Forall (fun a => a <= t) (times r ch).
Proof.
  intros [_ H _ _ _]. apply Forall_forall. intros a Ha. apply list_elem_of_In, in_times in Ha.
  rewrite Forall_forall in H. apply list_elem_of_In in Ha. apply (H _ Ha).
Qed.

Lemma arInv_restart t ch st id ref b :
  ArInv cfg t ch st -> ar_heap st !! ref = Some b -> bs_restarting b = false ->
  fits cfg (times ref ch) t -> ArInv cfg t ch (restart id ref t st).
Proof.
  intros [H1 H2 H3 H4 H5] Hb Hr Hf. unfold restart, launch, call, setBot. split; simpl;
    rewrite ?length_alter; auto.
  - intros r b' Hb'. unfold holders. simpl. rewrite List.filter_app, length_app. simpl.
    destruct (decide (r = ref)) as [->|Hne].
    + rewrite list_lookup_alter_eq, Hb in Hb'. injection Hb' as <-.
      destruct (H4 ref b Hb) as [Hk Hh]. rewrite Hr in Hh. unfold holders in Hh. rewrite Hh, Nat.eqb_refl.
      split; [exact Hk | reflexivity].
    + rewrite list_lookup_alter_ne in Hb' by congruence. destruct (H4 r b' Hb') as [Hk Hh].
      unfold holders in Hh. rewrite Hh, (proj2 (Nat.eqb_neq ref r)) by congruence.
      split; [exact Hk | simpl; lia].
  - apply Forall_app. split; [exact H5|]. apply Forall_singleton. simpl.
    split; [apply lookup_lt_Some in Hb; exact Hb | split; [lia | exact Hf]].
Qed.

Lemma arInv_notify t ch st id ref :
  ArInv cfg t ch st -> ArInv cfg t ch (notifyExhausted cfg id ref st).
Proof.
  intros HI. unfold notifyExhausted. destruct (bs_exhaustedNotified (botAt ref st)); [exact HI|].
  assert (HI' : ArInv cfg t ch (setBot ref (setNotified true) st)).
  { apply arInv_setBot; [|exact HI]. intros b _. split; [reflexivity | auto]. }
  destruct HI' as [H1 H2 H3 H4 H5]. split; auto.
  - intros r b Hb. destruct (H4 r b Hb) as [Hk Hh]. split; [exact Hk|].
    rewrite <- Hh. unfold holders. simpl. rewrite List.filter_app, length_app. simpl. lia.
  - simpl in *. rewrite length_alter in *. apply Forall_app. split; [exact H5 | repeat constructor].
Qed.

Lemma arInv_track t ch st e : ArInv cfg t ch st -> ArInv cfg t ch (track cfg t st e).
Proof.
  intros HI. apply (arInv_stateFor _ _ _ _ (lr_instanceId e)) in HI as [HI Hlt]. unfold track.
  destruct (stateFor (lr_instanceId e) st) as [ref st1] eqn:Es. simpl in HI, Hlt.
  apply lookup_lt_is_Some in Hlt as [b Hb]. unfold botAt. rewrite Hb. simpl.
  destruct (bs_restarting b) eqn:Hr; [exact HI|].
  assert (Hset : forall f n, (forall x, bs_restarting (f x) = bs_restarting x /\ bs_restartsAt (f x) = bs_restartsAt x) ->
    ArInv cfg t ch n -> ArInv cfg t ch (setBot ref f n)).
  { intros f n Hf Hn. apply arInv_setBot; [|exact Hn]. intros x _. destruct (Hf x) as [E1 E2].
    split; [exact E1|]. unfold Keeps. rewrite E2. auto. }
  destruct (lr_sample e); try exact HI; [apply Hset; [auto | exact HI]|].
  assert (HI2 : ArInv cfg t ch (setBot ref (setFailures (bs_consecutiveFailures b + 1)) st1))
    by (apply Hset; [auto | exact HI]).
  destruct (_ <? _); [exact HI2|]. destruct (coolingDown cfg t b) eqn:Hc; [exact HI2|].
  destruct (ai_heap _ _ _ _ HI ref b Hb) as [Hk _].
  pose proof (ai_budget _ _ _ _ HI ref) as Hbud.
  assert (HI3 : ArInv cfg t ch (setBot ref (setRestartsAt (inWindow cfg t (bs_restartsAt b)))
                  (setBot ref (setFailures (bs_consecutiveFailures b + 1)) st1))).
  { apply arInv_setBot; [|exact HI2]. simpl. intros b2 Hb2.
    rewrite list_lookup_alter_eq, Hb in Hb2. injection Hb2 as <-. split; [reflexivity|].
    intros _. exact (keeps_window _ _ _ Hbud Hk Hc). }
  destruct (_ <=? _) eqn:Hm; bools; [apply arInv_notify; exact HI3|].
  eapply arInv_restart.
  - apply Hset; [auto | exact HI3].
  - simpl. rewrite !list_lookup_alter_eq, Hb. reflexivity.
  - exact Hr.
  - apply (keeps_fits t _ b); auto. exact (times_le _ _ _ _ HI).
Qed.

Lemma arInv_tracks t ch report st :
  ArInv cfg t ch st -> ArInv cfg t ch (fold_left (track cfg t) report st).
Proof.
  revert st. induction report as [|e l IH]; intros st Hs; simpl; [exact Hs|].
  apply IH, arInv_track, Hs.
Qed.

Lemma arInv_observe t ch st report : ArInv cfg t ch st -> ArInv cfg t ch (observe cfg t report st).
Proof.
  intros HI. unfold observe, detectFleetOutage.
  set (st1 := mkAutoRestarter _ _ _ _ _).
  assert (HI1 : ArInv cfg t ch st1).
  { apply (arInv_frame cfg t ch st); [reflexivity | reflexivity | | exact HI]. simpl.
    intros id r H. apply map_lookup_filter_Some in H as [H _]. exact H. }
  destruct (isOutage report); [exact HI1 | exact (arInv_tracks _ _ _ _ HI1)].
Qed.

(** A settled task leaves, and with it the only hold on its object. *)
Lemma holders_finish r i x st :
  ar_tasks st !! i = Some x ->
  holders r st = ((if holds r x then 1 else 0) + holders r (finishTask i st))%nat.
Proof.
  intros Hx. unfold holders. simpl. rewrite (filter_length_perm _ _ _ (delete_Permutation _ _ _ Hx)).
  simpl. destruct (holds r x); reflexivity.
Qed.

Lemma not_held r st x : holders r st = 0%nat -> In x (ar_tasks st) -> holds r x = false.
Proof.
  unfold holders. intros H Hx. destruct (holds r x) eqn:E; [|reflexivity].
  assert (Hin : In x (List.filter (holds r) (ar_tasks st))) by (apply filter_In; auto).
  destruct (List.filter (holds r) (ar_tasks st)); [destruct Hin | discriminate].
Qed.
End Steps.

Section Settling.
Context (cfg : AutoRestartConfig).

Lemma times_charge r ref now ch :
  times r (ch ++ [(ref, now)]) = times r ch ++ (if Nat.eqb ref r then [now] else []).
Proof. rewrite times_app. unfold times at 2. simpl. destruct (Nat.eqb ref r); reflexivity. Qed.

(** The object of a settled task is free again: nothing else holds it. *)
Lemma settled_free t ch st i x ref :
  ArInv cfg t ch st -> ar_tasks st !! i = Some x -> holds ref x = true ->
  exists b, ar_heap st !! ref = Some b /\ bs_restarting b = true /\ holders ref (finishTask i st) = 0%nat.
Proof.
  intros [H1 H2 H3 H4 H5] Hx Hh.
  pose proof (proj1 (Forall_lookup _ _) H5 i x Hx) as Hok.
  assert (Hlt : (ref < length (ar_heap st))%nat).
  { destruct x; simpl in *; try discriminate; apply Nat.eqb_eq in Hh as <-; intuition. }
  apply lookup_lt_is_Some in Hlt as [b Hb]. exists b. split; [exact Hb|].
  destruct (H4 ref b Hb) as [_ Hn]. rewrite (holders_finish ref i x st Hx), Hh in Hn.
  destruct (bs_restarting b); [split; [reflexivity | lia] | discriminate].
Qed.

Lemma finish_tasks i st x : In x (ar_tasks (finishTask i st)) -> In x (ar_tasks st).
Proof.
  simpl. intros H. apply list_elem_of_In, list_elem_of_lookup in H as [k Hk].
  apply list_elem_of_In, list_elem_of_lookup. destruct (decide (k < i)%nat).
  - rewrite list_lookup_delete_lt in Hk by lia. eauto.
  - rewrite list_lookup_delete_ge in Hk by lia. eauto.
Qed.

Lemma arInv_finally t ch st i x ref :
  ArInv cfg t ch st -> ar_tasks st !! i = Some x -> holds ref x = true ->
  ArInv cfg t ch (finallyRestart ref (finishTask i st)).
Proof.
  intros HI Hx Hh. destruct (settled_free _ _ _ _ _ _ HI Hx Hh) as (b & Hb & Hr & H0).
  destruct HI as [H1 H2 H3 H4 H5]. unfold finallyRestart, setBot. split; simpl; rewrite ?length_alter; auto.
  - intros r b' Hb'. destruct (decide (r = ref)) as [->|Hne].
    + rewrite list_lookup_alter_eq, Hb in Hb'. injection Hb' as <-. split; [|exact H0].
      exact (proj1 (H4 ref b Hb)).
    + rewrite list_lookup_alter_ne in Hb' by congruence. destruct (H4 r b' Hb') as [Hk Hn].
      split; [exact Hk|]. rewrite <- Hn, (holders_finish r i x st Hx).
      enough (holds r x = false) as -> by reflexivity.
      destruct x; simpl in *; try reflexivity; apply Nat.eqb_eq in Hh; apply Nat.eqb_neq; congruence.
  - apply Forall_forall. intros y Hy. rewrite Forall_forall in H5. apply H5.
    apply list_elem_of_In, (finish_tasks i), list_elem_of_In. exact Hy.
Qed.

Lemma arInv_recorded t ch st i id ref now p c :
  ArInv cfg t ch st -> ar_tasks st !! i = Some (T_restart id ref now p) ->
  ArInv cfg t (ch ++ [(ref, now)])
    (launch (T_record ref) (call c (spendBudget ref now (finishTask i st)))).
Proof.
  intros HI Hx. assert (Hh : holds ref (T_restart id ref now p) = true) by apply Nat.eqb_refl.
  destruct (settled_free _ _ _ _ _ _ HI Hx Hh) as (b & Hb & Hr & H0).
  pose proof (proj1 (Forall_lookup _ _) (ai_tasks _ _ _ _ HI) i _ Hx) as (_ & Hnow & Hfits).
  destruct HI as [H1 H2 H3 H4 H5]. unfold spendBudget, setBot. split; simpl; rewrite ?length_alter; auto.
  - apply Forall_app. split; [exact H2|]. apply Forall_singleton. simpl.
    apply lookup_lt_Some in Hb. auto.
  - intros r. rewrite times_charge. destruct (Nat.eqb ref r) eqn:E.
    + apply Nat.eqb_eq in E as ->. apply budgeted_snoc; auto.
    + rewrite app_nil_r. auto.
  - intros r b' Hb'. rewrite times_charge. unfold holders. simpl. rewrite List.filter_app, length_app.
    change (length (List.filter (holds r) (delete i (ar_tasks st)))) with (holders r (finishTask i st)).
    destruct (decide (r = ref)) as [->|Hne].
    + rewrite list_lookup_alter_eq, Hb in Hb'. injection Hb' as <-. simpl. rewrite Nat.eqb_refl, H0, Hr.
      split; [|reflexivity]. destruct (H4 ref b Hb) as [(d & -> & Hd) _]. exists d.
      rewrite <- app_assoc. auto.
    + rewrite list_lookup_alter_ne in Hb' by congruence. simpl.
      rewrite (proj2 (Nat.eqb_neq ref r)), app_nil_r by congruence. simpl. rewrite Nat.add_0_r.
      destruct (H4 r b' Hb') as [Hk Hn]. split; [exact Hk|]. rewrite <- Hn, (holders_finish r i _ st Hx).
      simpl. rewrite (proj2 (Nat.eqb_neq ref r)) by congruence. reflexivity.
  - apply Forall_app. split; [|apply Forall_singleton; apply lookup_lt_Some in Hb; exact Hb].
    apply Forall_forall. intros y Hy. apply list_elem_of_In in Hy.
    pose proof (not_held _ _ _ H0 Hy) as Hny. apply finish_tasks in Hy.
    rewrite Forall_forall in H5. apply list_elem_of_In, H5 in Hy.
    destruct y as [id' r n q|r|]; simpl in *; [|exact Hy|exact I]. rewrite times_charge.
    rewrite (proj2 (Nat.eqb_neq ref r)), app_nil_r by (apply Nat.eqb_neq in Hny; congruence). exact Hy.
Qed.

Lemma arInv_settle t ch st i answer :
  ArInv cfg t ch st -> ArInv cfg t (ch ++ charge i answer st) (settleRestart i answer st).
Proof.
  intros HI. unfold charge, settleRestart.
  destruct (ar_tasks st !! i) as [[id ref now p|ref|]|] eqn:Hx; rewrite ?app_nil_r; try exact HI.
  destruct answer as [err|[|reason []]]; try exact (arInv_recorded _ _ _ _ _ _ _ _ _ HI Hx).
  rewrite app_nil_r. apply (arInv_finally _ _ _ _ _ _ HI Hx). apply Nat.eqb_refl.
Qed.

Lemma arInv_record t ch st i : ArInv cfg t ch st -> ArInv cfg t ch (settleRecord i st).
Proof.
  intros HI. unfold settleRecord.
  destruct (ar_tasks st !! i) as [[id ref now p|ref|]|] eqn:Hx; try exact HI.
  - apply (arInv_finally _ _ _ _ _ _ HI Hx). apply Nat.eqb_refl.
  - destruct HI as [H1 H2 H3 H4 H5]. split; auto.
    + intros r b Hb. destruct (H4 r b Hb) as [Hk Hn]. split; [exact Hk|].
      rewrite <- Hn, (holders_finish r i _ st Hx). reflexivity.
    + apply Forall_forall. intros y Hy. rewrite Forall_forall in H5. apply H5.
      apply list_elem_of_In, (finish_tasks i), list_elem_of_In. exact Hy.
Qed.

Lemma run_inv t ch st : Run cfg t ch st -> ArInv cfg t ch st.
Proof.
  induction 1.
  - apply arInv_init.
  - apply arInv_observe. eapply arInv_later; eassumption.
  - apply arInv_settle. assumption.
  - apply arInv_record. assumption.
Qed.
End Settling.

(** ** What the restarter promises *)


(** ** A bot that stays down is attended to *)
Section Attention.
Context (cfg : AutoRestartConfig).

Record WfBots (st : AutoRestarter) : Prop := mkWfBots {
  wb_valid : forall id r, ar_bots st !! id = Some r -> (r < length (ar_heap st))%nat;
  wb_inj : forall i j r, ar_bots st !! i = Some r -> ar_bots st !! j = Some r -> i = j;
  wb_count : forall r b, ar_heap st !! r = Some b -> 0 <= bs_consecutiveFailures b;
}.

Definition botOf (id : string) (st : AutoRestarter) : BotState :=
  match ar_bots st !! id with Some r => botAt r st | None => newBotState end.

Lemma botAt_setBot_eq r f st : (r < length (ar_heap st))%nat -> botAt r (setBot r f st) = f (botAt r st).
Proof.
  intros [b Hb]%lookup_lt_is_Some. unfold botAt. simpl. rewrite list_lookup_alter_eq, Hb. reflexivity.
Qed.

Lemma botAt_setBot_ne r r' f st : r <> r' -> botAt r (setBot r' f st) = botAt r st.
Proof. intros H. unfold botAt. simpl. rewrite list_lookup_alter_ne by congruence. reflexivity. Qed.

Lemma wf_setBot r f st :
  (forall b, 0 <= bs_consecutiveFailures b -> 0 <= bs_consecutiveFailures (f b)) ->
  WfBots st -> WfBots (setBot r f st).
Proof.
  intros Hf [H1 H2 H3]. split; simpl; rewrite ?length_alter; auto. intros r' b Hb.
  destruct (decide (r' = r)) as [->|Hne].
  - rewrite list_lookup_alter_eq in Hb. destruct (ar_heap st !! r) eqn:E; [|discriminate].
    injection Hb as <-. eauto.
  - rewrite list_lookup_alter_ne in Hb by congruence. eauto.
Qed.

(** Calls and tasks are not seen by [WfBots] and [botAt]. *)
Lemma wf_same st st' :
  ar_heap st' = ar_heap st -> (forall id r, ar_bots st' !! id = Some r -> ar_bots st !! id = Some r) ->
  WfBots st -> WfBots st'.
Proof. intros Eh Hb [H1 H2 H3]. split; rewrite ?Eh; eauto. Qed.

Lemma wf_stateFor id st :
  WfBots st ->
  WfBots (stateFor id st).2 /\
  ar_bots (stateFor id st).2 !! id = Some (stateFor id st).1 /\
  (forall j, botOf j (stateFor id st).2 = botOf j st).
Proof.
  intros [H1 H2 H3]. unfold stateFor. destruct (ar_bots st !! id) as [r|] eqn:E; simpl.
  { split; [split; assumption|]. auto. }
  split; [|split].
  - split; simpl; rewrite ?length_app; simpl.
    + intros j r. rewrite lookup_insert_Some. intros [[_ <-]|[_ Hr]]; [lia|]. apply H1 in Hr. lia.
    + intros i j r. rewrite !lookup_insert_Some.
      intros [[<- <-]|[_ Hi]] [[<- Ej]|[_ Hj]]; try reflexivity.
      * apply H1 in Hj. lia.
      * subst. apply H1 in Hi. lia.
      * eauto.
    + intros r b Hb. apply lookup_app_Some in Hb as [Hb|[_ Hb]]; [eauto|].
      apply list_lookup_singleton_Some in Hb as [_ <-]. simpl. lia.
  - apply lookup_insert_eq.
  - intros j. unfold botOf, botAt. simpl. destruct (decide (id = j)) as [->|Hne].
    + rewrite lookup_insert_eq, E, lookup_app_r, Nat.sub_diag by lia. reflexivity.
    + rewrite lookup_insert_ne by exact Hne. destruct (ar_bots st !! j) as [r|] eqn:Ej; [|reflexivity].
      rewrite lookup_app_l by eauto. reflexivity.
Qed.

(** What a poll that finds the bot down may leave. *)
Definition Attended (now : Z) (b : BotState) : Prop :=
  bs_restarting b = true \/ coolingDown cfg now b = true \/
  (bs_exhaustedNotified b = true /\ ac_maxRestartsPerWindow cfg <= Z.of_nat (length (bs_restartsAt b))).

(** [track] only touches the object of its bot; if that one is down and free, it
    counts the failure, and from the threshold on it attends to it. *)
Definition TrackEffect (now : Z) (e : LivenessReport) (b b' : BotState) : Prop :=
  match lr_sample e with
  | S_down =>
      if bs_restarting b then b' = b
      else bs_consecutiveFailures b' = bs_consecutiveFailures b + 1 /\
           (ac_failureThreshold cfg <= bs_consecutiveFailures b' -> Attended now b')
  | _ => True
  end.

Lemma track_effect now st e :
  WfBots st ->
  let st' := track cfg now st e in
  WfBots st' /\
  (forall j, j <> lr_instanceId e -> botOf j st' = botOf j st) /\
  TrackEffect now e (botOf (lr_instanceId e) st) (botOf (lr_instanceId e) st').
Proof.
  intros HW. unfold track. set (id := lr_instanceId e).
  destruct (wf_stateFor id st HW) as (HW1 & Hid & Hsame).
  destruct (stateFor id st) as [ref st1]. simpl in *. rewrite <- (Hsame id).
  assert (Hothers : forall j, j <> id -> forall st2, ar_bots st2 = ar_bots st1 ->
    (forall r, r <> ref -> botAt r st2 = botAt r st1) -> botOf j st2 = botOf j st).
  { intros j Hj st2 Eb Eh. rewrite <- Hsame. unfold botOf. rewrite Eb.
    destruct (ar_bots st1 !! j) as [r|] eqn:E; [|reflexivity]. apply Eh. intros ->.
    apply Hj. exact (wb_inj _ HW1 _ _ _ E Hid). }
  assert (Hlt := wb_valid _ HW1 _ _ Hid). assert (Hb : botOf id st1 = botAt ref st1).
  { unfold botOf. rewrite Hid. reflexivity. }
  unfold TrackEffect. rewrite Hb. set (b := botAt ref st1).
  assert (Hcf : 0 <= bs_consecutiveFailures b).
  { unfold b, botAt. destruct (lookup_lt_is_Some_2 _ _ Hlt) as [x Hx]. rewrite Hx. exact (wb_count _ HW1 _ _ Hx). }
  destruct (bs_restarting b) eqn:Hr.
  { split; [exact HW1|]. split; [intros; apply Hothers; auto|]. rewrite Hb. destruct (lr_sample e); auto. }
  destruct (lr_sample e) eqn:Es.
  1, 3, 4: split; [try (apply wf_setBot; [simpl; lia|]); exact HW1|];
    (split; [|exact I]); intros; apply Hothers; auto; intros; apply botAt_setBot_ne; auto.
  set (st2 := setBot ref (setFailures (bs_consecutiveFailures b + 1)) st1).
  assert (HW2 : WfBots st2) by (apply wf_setBot; [simpl; lia | exact HW1]).
  assert (Hb2 : botAt ref st2 = setFailures (bs_consecutiveFailures b + 1) b) by (apply botAt_setBot_eq; exact Hlt).
  assert (Hne2 : forall r, r <> ref -> botAt r st2 = botAt r st1) by (intros; apply botAt_setBot_ne; auto).
  assert (Hof : forall s, ar_bots s = ar_bots st1 -> botOf id s = botAt ref s).
  { intros s Es'. unfold botOf. rewrite Es', Hid. reflexivity. }
  destruct (_ <? _) eqn:Hthr; bools.
  { split; [exact HW2|]. split; [intros; apply Hothers; auto|]. rewrite Hof, Hb2 by reflexivity.
    simpl. split; [reflexivity | intros; lia]. }
  destruct (coolingDown cfg now b) eqn:Hc.
  { split; [exact HW2|]. split; [intros; apply Hothers; auto|]. rewrite Hof, Hb2 by reflexivity.
    split; [reflexivity | intros _; right; left; exact Hc]. }
  set (recent := inWindow cfg now (bs_restartsAt b)).
  set (st3 := setBot ref (setRestartsAt recent) st2).
  assert (HW3 : WfBots st3) by (apply wf_setBot; [simpl; auto | exact HW2]).
  assert (Hlt2 : (ref < length (ar_heap st2))%nat) by (simpl; rewrite length_alter; exact Hlt).
  assert (Hb3 : botAt ref st3 = setRestartsAt recent (setFailures (bs_consecutiveFailures b + 1) b)).
  { unfold st3. rewrite botAt_setBot_eq, Hb2 by exact Hlt2. reflexivity. }
  assert (Hne3 : forall r, r <> ref -> botAt r st3 = botAt r st1).
  { intros r Hr'. unfold st3. rewrite botAt_setBot_ne by exact Hr'. auto. }
  assert (Hlt3 : (ref < length (ar_heap st3))%nat) by (simpl; rewrite !length_alter; exact Hlt).
  destruct (_ <=? _) eqn:Hmax; bools.
  - unfold notifyExhausted. rewrite Hb3. simpl. destruct (bs_exhaustedNotified b) eqn:Hn.
    + split; [exact HW3|]. split; [intros; apply Hothers; auto|]. rewrite Hof, Hb3 by reflexivity.
      split; [reflexivity | intros _; right; right; split; assumption].
    + set (st4 := setBot ref (setNotified true) st3).
      split; [apply (wf_same st4); auto; apply wf_setBot; [simpl; auto | exact HW3]|].
      split.
      * intros j Hj. apply Hothers; [exact Hj | reflexivity|]. intros r Hr'.
        change (botAt r st4 = botAt r st1). unfold st4. rewrite botAt_setBot_ne by exact Hr'. auto.
      * rewrite Hof by reflexivity.
        change (botAt ref (launch _ _)) with (botAt ref st4). unfold st4.
        rewrite botAt_setBot_eq, Hb3 by exact Hlt3.
        split; [reflexivity | intros _; right; right; split; [reflexivity | exact Hmax]].
  - unfold restart. set (st4 := setBot ref (setNotified false) st3).
    set (st5 := setBot ref (setRestarting true) st4).
    split.
    { apply (wf_same st5); auto. unfold st5, st4.
      apply wf_setBot; [simpl; auto | apply wf_setBot; [simpl; auto | exact HW3]]. }
    split.
    + intros j Hj. apply Hothers; [exact Hj | reflexivity|]. intros r Hr'.
      change (botAt r st5 = botAt r st1). unfold st5, st4. rewrite !botAt_setBot_ne by exact Hr'. auto.
    + rewrite Hof by reflexivity. change (botAt ref (launch _ _)) with (botAt ref st5).
      unfold st5, st4. rewrite !botAt_setBot_eq, Hb3; [|exact Hlt3|simpl; rewrite !length_alter; exact Hlt].
      split; [reflexivity | intros _; left; reflexivity].
Qed.
End Attention.

Section Polls.
Context (cfg : AutoRestartConfig).

Lemma tracks_effect now report st id :
  WfBots st ->
  let st' := fold_left (track cfg now) report st in
  WfBots st' /\ (~ In id (List.map lr_instanceId report) -> botOf id st' = botOf id st).
Proof.
  revert st. induction report as [|e l IH]; intros st HW; simpl; [auto|].
  destruct (track_effect cfg now st e HW) as (HW1 & Ho & _).
  destruct (IH _ HW1) as [HW2 Ho2]. split; [exact HW2|].
  intros Hn. rewrite Ho2 by tauto. apply Ho. intros ->. tauto.
Qed.

Lemma observe_down now report st id :
  WfBots st -> isOutage report = false -> NoDup (List.map lr_instanceId report) ->
  In (mkReport id S_down) report ->
  WfBots (observe cfg now report st) /\
  TrackEffect cfg now (mkReport id S_down) (botOf id st) (botOf id (observe cfg now report st)).
Proof.
  intros HW Ho Hnd Hin. unfold observe, detectFleetOutage. rewrite Ho.
  set (st1 := mkAutoRestarter _ _ _ _ _).
  assert (Hin' : id ∈ List.map lr_instanceId report).
  { apply list_elem_of_In, in_map_iff. exists (mkReport id S_down). auto. }
  assert (HW1 : WfBots st1).
  { apply (wf_same st); [reflexivity | | exact HW]. simpl.
    intros j r H. apply map_lookup_filter_Some in H as [H _]. exact H. }
  assert (Hb1 : botOf id st1 = botOf id st).
  { unfold botOf, st1. simpl. destruct (ar_bots st !! id) as [r|] eqn:E.
    - rewrite (map_lookup_filter_Some_2 _ _ _ _ E Hin'). reflexivity.
    - rewrite (map_lookup_filter_None_2 _ _ _ (or_introl E)). reflexivity. }
  rewrite <- Hb1. clearbody st1. clear HW Hb1 Hin'.
  apply in_split in Hin as (l1 & l2 & ->). rewrite List.map_app in Hnd. simpl in Hnd.
  apply NoDup_app in Hnd as (_ & H12 & Hnd). apply NoDup_cons in Hnd as [H2 _].
  assert (H1 : ~ In id (List.map lr_instanceId l1)).
  { intros H. apply list_elem_of_In in H. apply (H12 id H). left. }
  rewrite fold_left_app. simpl.
  destruct (tracks_effect now l1 st1 id HW1) as [HWa Ha].
  destruct (track_effect cfg now _ (mkReport id S_down) HWa) as (HWb & _ & He).
  destruct (tracks_effect now l2 _ id HWb) as [HWc Hc].
  split; [exact HWc|]. simpl in He. rewrite Hc, <- (Ha H1); [exact He|].
  intros H. apply H2, list_elem_of_In. exact H.
Qed.

(** A poll that counts: not an outage, one entry per bot, and the bot down. *)
Definition DownPoll (id : string) (poll : Z * list LivenessReport) : Prop :=
  isOutage poll.2 = false /\ NoDup (List.map lr_instanceId poll.2) /\ In (mkReport id S_down) poll.2.

Definition observeAll (polls : list (Z * list LivenessReport)) (st : AutoRestarter) : AutoRestarter :=
  fold_left (fun s poll => observe cfg poll.1 poll.2 s) polls st.

Lemma downPolls_count id polls st :
  WfBots st -> Forall (DownPoll id) polls ->
  WfBots (observeAll polls st) /\
  (bs_restarting (botOf id (observeAll polls st)) = true \/
   Z.of_nat (length polls) <= bs_consecutiveFailures (botOf id (observeAll polls st))).
Proof.
  intros HW. induction polls as [|[now report] polls IH] using rev_ind; intros Hp.
  - split; [exact HW|]. right. simpl. unfold botOf, botAt.
    destruct (ar_bots st !! id) as [r|] eqn:E; [|simpl; lia].
    destruct (ar_heap st !! r) as [b|] eqn:Eb; [exact (wb_count _ HW _ _ Eb) | simpl; lia].
  - apply Forall_app in Hp as [Hp [(Ho & Hnd & Hin) _]%Forall_cons].
    destruct (IH Hp) as [HW1 Hb]. unfold observeAll in *. rewrite fold_left_app. simpl in *.
    destruct (observe_down now report _ id HW1 Ho Hnd Hin) as [HW2 He]. split; [exact HW2|].
    unfold TrackEffect in He. simpl in He. rewrite length_app. simpl.
    destruct (bs_restarting (botOf id (fold_left _ polls st))) eqn:Er; [rewrite He; auto|].
    destruct Hb as [Hb|Hb]; [discriminate|]. right. lia.
Qed.

Lemma run_wf t ch st : Run cfg t ch st -> WfBots st.
Proof.
  assert (Hfin : forall i s, WfBots s -> WfBots (finishTask i s)) by (intros; apply (wf_same s); auto).
  assert (Hfree : forall r s, WfBots s -> WfBots (finallyRestart r s)).
  { intros. apply wf_setBot; [simpl; lia | assumption]. }
  induction 1.
  - split; discriminate.
  - unfold observe. simpl. set (st1 := mkAutoRestarter _ _ _ _ _).
    assert (HW1 : WfBots st1).
    { apply (wf_same st); [reflexivity | | exact IHRun]. simpl.
      intros j r Hj. apply map_lookup_filter_Some in Hj as [Hj _]. exact Hj. }
    destruct (isOutage report); [exact HW1|]. apply (tracks_effect now report st1 EmptyString HW1).
  - unfold settleRestart. destruct (ar_tasks st !! i) as [[id ref now p|ref|]|]; try assumption.
    destruct answer as [err|[|reason []]]; try (apply Hfree, Hfin; assumption).
    all: apply (wf_same (spendBudget ref now (finishTask i st))); auto;
      apply wf_setBot; [simpl; auto | apply Hfin; assumption].
  - unfold settleRecord. destruct (ar_tasks st !! i) as [[id ref now p|ref|]|]; auto.
Qed.
End Polls.


(** ** The theorems at concrete histories *)
Section Demo.

Definition demoConfig : AutoRestartConfig := mkAutoRestartConfig 3 600000 3 3600000.
Definition demoReport (s : LivenessSample) : list LivenessReport := [mkReport "bot-1" s].

Definition demoDown : AutoRestarter :=
  observeAll demoConfig [(10, demoReport S_down); (20, demoReport S_booting);
    (30, demoReport S_down); (40, demoReport S_down)] initRestarter.

(** A booting sample neither counts nor resets: the third failure restarts. *)
Example demo_restarts :
  ar_calls demoDown = [Call_restartBySystem "bot-1"] /\
  ar_tasks demoDown = [T_restart "bot-1" 0 40 (mkRestartPayload 3 1)].
Proof. split; reflexivity. Qed.

Lemma demo_run : Run demoConfig 40 [] demoDown.
Proof.
  unfold demoDown, observeAll. cbn [fold_left fst snd].
  apply (run_observe _ 30); [apply (run_observe _ 20); [apply (run_observe _ 10);
    [apply (run_observe _ 0); [apply run_init|]|]|]|]; lia.
Qed.


End Demo.
