(* ===== verification/OpLock.v ===== *)
(** The per-instance lock of the orchestrator:
    [orchestrator/src/services/instance-operation-lock.ts].

    [run] chains a promise behind the one the map holds for the key, waits for
    it, runs the operation and releases.  Every call of [run] is an [Op], named
    by its position in the list of calls; a promise in the map is named by the
    call that put it there.  Registration (the synchronous part of [run]), the
    start of the operation and its end are three steps, so any interleaving of
    calls and operations, on any keys, is a sequence of steps. *)
From S2P Require Import Prelude.
From stdpp Require Import list strings gmap.
#[local] Open Scope nat_scope.

Inductive OpState := Op_waiting | Op_running | Op_released.

#[export] Instance OpState_eq_dec : EqDecision OpState.
Proof. solve_decision. Defined.

(** [op_previous] is the promise found in the map, [None] for [Promise.resolve()]. *)
Record Op := mkOp { op_key : string; op_previous : option nat; op_state : OpState }.

Record OperationLock := mkOperationLock { ol_locks : gmap string nat; ol_ops : list Op }.

Definition initLock : OperationLock := mkOperationLock ∅ [].

Definition isHeld (key : string) (l : OperationLock) : bool := bool_decide (is_Some (ol_locks l !! key)).

(** The chained promise of call [k] settles once the one before it has and the
    call has released; [fuel] bounds the length of the chain. *)
Fixpoint settledIn (fuel : nat) (ops : list Op) (k : nat) : bool :=
  match fuel with
  | 0 => false
  | S fuel =>
      match ops !! k with
      | Some op =>
          bool_decide (op_state op = Op_released) &&
          match op_previous op with Some j => settledIn fuel ops j | None => true end
      | None => false
      end
  end.

Definition settled (l : OperationLock) (k : nat) : bool := settledIn (S k) (ol_ops l) k.

(** [run] up to its [await]. *)
Definition register (key : string) (l : OperationLock) : OperationLock :=
  mkOperationLock (<[key := length (ol_ops l)]> (ol_locks l))
    (ol_ops l ++ [mkOp key (ol_locks l !! key) Op_waiting]).

Definition setState (s : OpState) (op : Op) : Op := mkOp (op_key op) (op_previous op) s.

(** [await previous], then [fn] begins. *)
Definition mayStart (k : nat) (l : OperationLock) : bool :=
  match ol_ops l !! k with
  | Some op =>
      bool_decide (op_state op = Op_waiting) &&
      match op_previous op with Some j => settled l j | None => true end
  | None => false
  end.

Definition start (k : nat) (l : OperationLock) : OperationLock :=
  mkOperationLock (ol_locks l) (alter (setState Op_running) k (ol_ops l)).

(** [fn] returned or threw: the [finally]. *)
Definition finish (k : nat) (l : OperationLock) : OperationLock :=
  match ol_ops l !! k with
  | Some op =>
      mkOperationLock
        (if bool_decide (ol_locks l !! op_key op = Some k) then delete (op_key op) (ol_locks l)
         else ol_locks l)
        (alter (setState Op_released) k (ol_ops l))
  | None => l
  end.

Inductive LockStep : OperationLock -> OperationLock -> Prop :=
| step_register key l : LockStep l (register key l)
| step_start k l : mayStart k l = true -> LockStep l (start k l)
| step_finish k op l :
    ol_ops l !! k = Some op -> op_state op = Op_running -> LockStep l (finish k l).

Definition LockReachable : OperationLock -> Prop := rtc LockStep initLock.

(** ** The chain of a key *)
Definition Released (ops : list Op) (j : nat) : Prop :=
  exists op, ops !! j = Some op /\ op_state op = Op_released.

(** Everything of the key before [k] is over. *)
Definition ClearBefore (ops : list Op) (key : string) (k : nat) : Prop :=
  forall j op, j < k -> ops !! j = Some op -> op_key op = key -> op_state op = Op_released.

(** The last call on the key before [k] is [j]. *)
Definition Latest (ops : list Op) (key : string) (k j : nat) : Prop :=
  j < k /\ (exists op, ops !! j = Some op /\ op_key op = key) /\
  forall i op, j < i < k -> ops !! i = Some op -> op_key op <> key.

Record LockInv (l : OperationLock) : Prop := mkLockInv {
  li_map : forall key,
    match ol_locks l !! key with
    | Some k => Latest (ol_ops l) key (length (ol_ops l)) k /\ ~ Released (ol_ops l) k
    | None => ClearBefore (ol_ops l) key (length (ol_ops l))
    end;
  li_chain : forall k op, ol_ops l !! k = Some op ->
    match op_previous op with
    | Some j => Latest (ol_ops l) (op_key op) k j
    | None => ClearBefore (ol_ops l) (op_key op) k
    end;
  li_running : forall k op, ol_ops l !! k = Some op -> op_state op <> Op_waiting ->
    ClearBefore (ol_ops l) (op_key op) k;
}.

(** A settled promise has nothing of its key pending at or before it. *)
Lemma settled_clear l fuel k op :
  LockInv l -> ol_ops l !! k = Some op -> settledIn fuel (ol_ops l) k = true ->
  op_state op = Op_released /\ ClearBefore (ol_ops l) (op_key op) k.
Proof.
  intros HI. revert k op. induction fuel as [|fuel IH]; simpl; intros k op Hk Hs; [discriminate|].
  rewrite Hk in Hs. bools. split; [assumption|].
  apply (li_running _ HI k op Hk). congruence.
Qed.

Lemma latest_clear ops key k j op :
  Latest ops key k j -> ops !! j = Some op -> op_state op = Op_released -> ClearBefore ops key j ->
  ClearBefore ops key k.
Proof.
  intros (Hlt & _ & Hbetween) Hj Hr Hc i op' Hi Hop Hkey.
  destruct (decide (i < j)) as [?|?]; [eauto|]. destruct (decide (i = j)) as [->|?]; [congruence|].
  destruct (Hbetween i op') ; [lia | assumption | assumption].
Qed.

Section Alter.
Context (ops : list Op) (k : nat) (s : OpState).

Lemma alter_state_inv i op' :
  alter (setState s) k ops !! i = Some op' ->
  exists op, ops !! i = Some op /\ op_key op' = op_key op /\ op_previous op' = op_previous op /\
    op_state op' = if decide (i = k) then s else op_state op.
Proof.
  destruct (decide (i = k)) as [->|Hne].
  - rewrite list_lookup_alter_eq. intros H. apply fmap_Some in H as (op & Ho & ->). eauto 10.
  - rewrite list_lookup_alter_ne by congruence. eauto 10.
Qed.

Lemma alter_state i op :
  ops !! i = Some op ->
  exists op', alter (setState s) k ops !! i = Some op' /\ op_key op' = op_key op /\
    op_state op' = if decide (i = k) then s else op_state op.
Proof.
  intros Ho. destruct (decide (i = k)) as [->|Hne].
  - rewrite list_lookup_alter_eq, Ho. simpl. eauto.
  - rewrite list_lookup_alter_ne by congruence. eauto.
Qed.

Lemma latest_alter key n j : Latest ops key n j -> Latest (alter (setState s) k ops) key n j.
Proof.
  intros (H1 & (op & Ho & Hk) & H3). split; [exact H1|]. split.
  - destruct (alter_state j op Ho) as (op' & Ho' & Hk' & _). exists op'. split; congruence.
  - intros i op' Hi Ho'. apply alter_state_inv in Ho' as (op1 & Ho1 & -> & _). eauto.
Qed.

(** Releasing keeps what is clear; so does starting what was waiting. *)
Lemma clear_alter key n :
  (s = Op_released \/ forall op, ops !! k = Some op -> op_state op <> Op_released) ->
  ClearBefore ops key n -> ClearBefore (alter (setState s) k ops) key n.
Proof.
  intros Hs Hc i op' Hi Ho' Hk. apply alter_state_inv in Ho' as (op & Ho & Ek & _ & ->).
  specialize (Hc i op Hi Ho ltac:(congruence)). destruct (decide (i = k)) as [->|]; [|exact Hc].
  destruct Hs as [->|Hs]; [reflexivity|]. destruct (Hs op Ho Hc).
Qed.
End Alter.

Lemma lookup_snoc_inv (ops : list Op) x i op :
  (ops ++ [x]) !! i = Some op -> (ops !! i = Some op /\ i < length ops) \/ (i = length ops /\ op = x).
Proof.
  intros H. apply lookup_app_Some in H as [H|[Hge H]].
  - left. split; [exact H | exact (lookup_lt_Some _ _ _ H)].
  - apply list_lookup_singleton_Some in H as [Hi <-]. right. split; [lia | reflexivity].
Qed.

Lemma latest_snoc ops x key n j : n <= length ops -> Latest ops key n j -> Latest (ops ++ [x]) key n j.
Proof.
  intros Hn (H1 & (op & Ho & Hk) & H3). split; [exact H1|]. split.
  - exists op. rewrite lookup_app_l by (eapply lookup_lt_Some; eassumption). auto.
  - intros i op' Hi Ho'. apply lookup_snoc_inv in Ho' as [[Ho' _]|[-> _]]; [eauto | lia].
Qed.

Lemma clear_snoc ops x key n : n <= length ops -> ClearBefore ops key n -> ClearBefore (ops ++ [x]) key n.
Proof.
  intros Hn Hc i op Hi Ho. apply lookup_snoc_inv in Ho as [[Ho _]|[-> _]]; [eauto | lia].
Qed.

(** ** Every step keeps the chain *)
Lemma lockInv_init : LockInv initLock.
Proof.
  split; simpl; try discriminate. intros key. rewrite lookup_empty. intros i op Hi. inversion Hi.
Qed.

Lemma lockInv_register key l : LockInv l -> LockInv (register key l).
Proof.
  intros HI. split; simpl.
  - intros key'. rewrite length_app. simpl. rewrite Nat.add_1_r. destruct (decide (key = key')) as [<-|Hne].
    + rewrite lookup_insert_eq. split.
      * split; [lia|]. split; [eexists; rewrite lookup_app_r, Nat.sub_diag by lia; split; reflexivity|].
        intros; lia.
      * intros (op & Ho & Hr). rewrite lookup_app_r, Nat.sub_diag in Ho by lia. simpl in Ho.
        injection Ho as <-. discriminate.
    + rewrite lookup_insert_ne by exact Hne. pose proof (li_map _ HI key') as Hm.
      destruct (ol_locks l !! key') as [k|].
      * destruct Hm as [Hl Hr]. destruct (latest_snoc _ (mkOp key (ol_locks l !! key) Op_waiting) _ _ _ (le_n _) Hl)
          as (H1 & H2 & H3). split.
        { split; [lia|]. split; [exact H2|]. intros i op Hi Ho.
          apply lookup_snoc_inv in Ho as [[Ho Hlt]|[-> ->]]; [|exact Hne].
          apply (H3 i op); [lia|]. rewrite lookup_app_l by exact Hlt. exact Ho. }
        { intros (op & Ho & Hop). apply Hr. exists op. split; [|exact Hop].
          rewrite lookup_app_l in Ho by (destruct Hl; lia). exact Ho. }
      * intros i op Hi Ho Hk. apply lookup_snoc_inv in Ho as [[Ho Hlt]|[-> ->]]; [eauto | contradiction].
  - intros k op Ho. apply lookup_snoc_inv in Ho as [[Ho Hlt]|[-> ->]].
    + pose proof (li_chain _ HI k op Ho) as Hc.
      destruct (op_previous op); [apply latest_snoc | apply clear_snoc]; try lia; exact Hc.
    + simpl. pose proof (li_map _ HI key) as Hm.
      destruct (ol_locks l !! key); [apply latest_snoc | apply clear_snoc]; try lia; tauto.
  - intros k op Ho Hw. apply lookup_snoc_inv in Ho as [[Ho Hlt]|[-> ->]]; [|contradiction].
    apply clear_snoc; [lia|]. exact (li_running _ HI k op Ho Hw).
Qed.

(** A state change of one call that is over or was not over before. *)
Lemma lockInv_alter k s l :
  LockInv l ->
  (s = Op_released \/ forall op, ol_ops l !! k = Some op -> op_state op <> Op_released) ->
  (forall op, ol_ops l !! k = Some op -> s <> Op_waiting -> ClearBefore (ol_ops l) (op_key op) k) ->
  (s = Op_released -> forall key, ol_locks l !! key <> Some k) ->
  LockInv (mkOperationLock (ol_locks l) (alter (setState s) k (ol_ops l))).
Proof.
  intros HI Hs Hclear Hmap. split; simpl.
  - intros key. rewrite length_alter. pose proof (li_map _ HI key) as Hm.
    destruct (ol_locks l !! key) as [j|] eqn:E; [|apply clear_alter; assumption].
    destruct Hm as [Hl Hr]. split; [apply latest_alter; exact Hl|].
    intros (op' & Ho' & Hop). apply alter_state_inv in Ho' as (op & Ho & _ & _ & Est).
    rewrite Est in Hop. destruct (decide (j = k)) as [->|].
    + exact (Hmap Hop key E).
    + apply Hr. exists op. auto.
  - intros i op' Ho'. apply alter_state_inv in Ho' as (op & Ho & -> & -> & _).
    pose proof (li_chain _ HI i op Ho) as Hc.
    destruct (op_previous op); [apply latest_alter | apply clear_alter]; assumption.
  - intros i op' Ho' Hw. apply alter_state_inv in Ho' as (op & Ho & -> & _ & Est).
    rewrite Est in Hw. apply clear_alter; [exact Hs|]. destruct (decide (i = k)) as [->|]; [eauto|].
    exact (li_running _ HI i op Ho Hw).
Qed.

(** What waits for a settled promise, or for none, comes after everything of its key. *)
Lemma mayStart_clear k l op :
  LockInv l -> ol_ops l !! k = Some op -> mayStart k l = true ->
  op_state op = Op_waiting /\ ClearBefore (ol_ops l) (op_key op) k.
Proof.
  intros HI Ho Hm. unfold mayStart in Hm. rewrite Ho in Hm. bools. split; [assumption|].
  pose proof (li_chain _ HI k op Ho) as Hc. destruct (op_previous op) as [j|]; [|exact Hc].
  destruct Hc as (Hlt & (opj & Hj & Hkj) & Hbetween).
  destruct (settled_clear _ _ _ _ HI Hj H0) as [Hr Hcj]. rewrite Hkj in Hcj.
  apply (latest_clear _ _ _ j opj); [|exact Hj|exact Hr|exact Hcj]. split; [exact Hlt|]. eauto.
Qed.

(** The last call of the key leaves, and takes the map's entry with it. *)
Lemma lockInv_release k op l1 :
  LockInv l1 -> ol_ops l1 !! k = Some op -> ol_locks l1 !! op_key op = Some k ->
  ClearBefore (ol_ops l1) (op_key op) k ->
  LockInv (mkOperationLock (delete (op_key op) (ol_locks l1)) (alter (setState Op_released) k (ol_ops l1))).
Proof.
  intros HI Ho E Hc.
  pose proof (li_map _ HI (op_key op)) as Hm. rewrite E in Hm. destruct Hm as [Hl _].
  assert (Hclear : ClearBefore (alter (setState Op_released) k (ol_ops l1)) (op_key op) (length (ol_ops l1))).
  { intros i op' Hi Ho' Hk. apply alter_state_inv in Ho' as (opi & Hoi & Eki & _ & ->).
    destruct (decide (i = k)) as [->|Hne]; [reflexivity|].
    destruct (decide (i < k)); [apply (Hc i opi); auto; congruence|].
    destruct Hl as (_ & _ & Hb). destruct (Hb i opi); [lia | exact Hoi | congruence]. }
  split; simpl; rewrite ?length_alter.
  - intros key. destruct (decide (op_key op = key)) as [<-|Hne].
    + rewrite lookup_delete_eq. exact Hclear.
    + rewrite lookup_delete_ne by exact Hne. pose proof (li_map _ HI key) as Hm.
      destruct (ol_locks l1 !! key) as [j|]; [|apply clear_alter; auto].
      destruct Hm as [Hl' Hr']. split; [apply latest_alter; exact Hl'|].
      intros (op' & Ho' & Hop). apply alter_state_inv in Ho' as (opj & Hoj & _ & _ & Est).
      apply Hr'. exists opj. split; [exact Hoj|]. rewrite Est in Hop.
      destruct (decide (j = k)) as [->|]; [|exact Hop]. exfalso. apply Hne.
      destruct Hl' as (_ & (opk & Hopk & <-) & _). congruence.
  - intros i op' Ho'. apply alter_state_inv in Ho' as (opi & Hoi & -> & -> & _).
    pose proof (li_chain _ HI i opi Hoi) as Hch.
    destruct (op_previous opi); [apply latest_alter | apply clear_alter]; auto.
  - intros i op' Ho' Hw. apply alter_state_inv in Ho' as (opi & Hoi & -> & _ & Est).
    apply clear_alter; [auto|]. destruct (decide (i = k)) as [->|];
      [assert (opi = op) as -> by congruence; exact Hc|].
    rewrite Est in Hw. exact (li_running _ HI i opi Hoi Hw).
Qed.

Lemma lockInv_step l l' : LockStep l l' -> LockInv l -> LockInv l'.
Proof.
  intros [key l1|k l1 Hm|k op l1 Ho Hr] HI.
  - apply lockInv_register. exact HI.
  - unfold start. apply lockInv_alter; [exact HI| | |discriminate].
    + right. intros op Ho. destruct (mayStart_clear k l1 op HI Ho Hm) as [-> _]. discriminate.
    + intros op Ho _. apply (mayStart_clear k l1 op HI Ho Hm).
  - unfold finish. rewrite Ho.
    assert (Hc : ClearBefore (ol_ops l1) (op_key op) k) by (apply (li_running _ HI k op Ho); congruence).
    case_bool_decide as E.
    + apply (lockInv_release k op l1 HI Ho E Hc).
    + apply lockInv_alter; [exact HI | auto | |].
      { intros op0 Ho0 _. assert (op0 = op) as -> by congruence. exact Hc. }
      intros _ key Ek. pose proof (li_map _ HI key) as Hm. rewrite Ek in Hm.
      destruct Hm as [(_ & (opk & Hopk & <-) & _) _]. apply E. congruence.
Qed.

Lemma reachable_inv l : LockReachable l -> LockInv l.
Proof.
  intros H. assert (Hi : forall l0 l1, rtc LockStep l0 l1 -> LockInv l0 -> LockInv l1).
  { induction 1; [auto|]. intros HI. apply IHrtc. exact (lockInv_step _ _ H0 HI). }
  exact (Hi _ _ H lockInv_init).
Qed.

(** ** The promise of the lock *)
Definition Unfinished (l : OperationLock) (key : string) (k : nat) : Prop :=
  exists op, ol_ops l !! k = Some op /\ op_key op = key /\ op_state op <> Op_released.

Lemma clear_settled l k op :
  LockInv l -> ol_ops l !! k = Some op -> op_state op = Op_released ->
  ClearBefore (ol_ops l) (op_key op) k -> settled l k = true.
Proof.
  intros HI. unfold settled. enough (H : forall n k op, k < n -> ol_ops l !! k = Some op ->
    op_state op = Op_released -> ClearBefore (ol_ops l) (op_key op) k ->
    settledIn n (ol_ops l) k = true) by (intros; eapply H; eauto).
  clear k op. induction n as [|n IH]; simpl; intros k op Hlt Ho Hr Hc; [lia|].
  rewrite Ho, bool_decide_eq_true_2 by exact Hr. simpl.
  pose proof (li_chain _ HI k op Ho) as Hch. destruct (op_previous op) as [j|]; [|reflexivity].
  destruct Hch as (Hjk & (opj & Hj & Hkj) & _). apply (IH j opj); [lia | exact Hj | exact (Hc j opj Hjk Hj Hkj)|].
  rewrite Hkj. intros i opi Hi. apply Hc. lia.
Qed.

Lemma first_unfinished l key k :
  Unfinished l key k -> exists j op, ol_ops l !! j = Some op /\ op_key op = key /\
    op_state op <> Op_released /\ ClearBefore (ol_ops l) key j.
Proof.
  induction k as [k IH] using (well_founded_induction lt_wf). intros (op & Ho & Hk & Hu).
  destruct (decide (Exists (fun opj => op_key opj = key /\ op_state opj <> Op_released) (take k (ol_ops l))))
    as [He|Hn].
  - apply Exists_exists in He as (opj & Hin & Hkj & Huj). apply list_elem_of_lookup in Hin as [j Hj].
    apply lookup_take_Some in Hj as [Hj Hlt]. apply (IH j Hlt). exists opj. auto.
  - exists k, op. repeat split; try assumption. intros i opi Hi Hoi Hki.
    destruct (decide (op_state opi = Op_released)) as [|Hne]; [assumption|]. exfalso. apply Hn.
    apply Exists_exists. exists opi. split; [|auto]. apply list_elem_of_lookup. exists i.
    rewrite lookup_take_lt by exact Hi. exact Hoi.
Qed.

(** C16: The per-instance lock does what the orchestrator relies on, in every
    interleaving of calls on any instances: two operations of one instance never
    run at once; they start in the order they were requested; [isHeld] says
    exactly whether an operation of the instance is running or waiting; and it
    never deadlocks: as long as one is unfinished, one of them is running or may
    start. *)
Theorem operation_lock l key :
  LockReachable l ->
  (forall j k opj opk, ol_ops l !! j = Some opj -> ol_ops l !! k = Some opk ->
     op_key opj = key -> op_key opk = key ->
     op_state opj = Op_running -> op_state opk = Op_running -> j = k) /\
  (forall j k opj opk, ol_ops l !! j = Some opj -> ol_ops l !! k = Some opk ->
     op_key opj = key -> op_key opk = key -> j < k ->
     op_state opk <> Op_waiting -> op_state opj = Op_released) /\
  (isHeld key l = true <-> exists k, Unfinished l key k) /\
  ((exists k, Unfinished l key k) ->
   exists k op, ol_ops l !! k = Some op /\ op_key op = key /\
     (op_state op = Op_running \/ mayStart k l = true)).
Proof.
  intros HI%reachable_inv.
  assert (Horder : forall j k opj opk, ol_ops l !! j = Some opj -> ol_ops l !! k = Some opk ->
     op_key opj = key -> op_key opk = key -> j < k ->
     op_state opk <> Op_waiting -> op_state opj = Op_released).
  { intros j k opj opk Hj Hk Ej Ek Hlt Hw. apply (li_running _ HI k opk Hk Hw j opj Hlt Hj). congruence. }
  split; [|split; [exact Horder|split]].
  - intros j k opj opk Hj Hk Ej Ek Rj Rk. destruct (Nat.lt_trichotomy j k) as [Hlt|[->|Hlt]]; [|reflexivity|].
    + specialize (Horder j k opj opk Hj Hk Ej Ek Hlt). rewrite Rk, Rj in Horder. discriminate Horder. discriminate.
    + specialize (Horder k j opk opj Hk Hj Ek Ej Hlt). rewrite Rk, Rj in Horder. discriminate Horder. discriminate.
  - unfold isHeld. rewrite bool_decide_eq_true. pose proof (li_map _ HI key) as Hm. split.
    + intros [k Ek]. rewrite Ek in Hm. destruct Hm as [(_ & (op & Ho & Hk) & _) Hr].
      exists k, op. split; [exact Ho|]. split; [exact Hk|]. intros E. apply Hr. exists op. auto.
    + intros (k & op & Ho & Hk & Hu). destruct (ol_locks l !! key) as [j|]; [eauto|].
      exfalso. apply Hu, (Hm k op); [exact (lookup_lt_Some _ _ _ Ho) | exact Ho | exact Hk].
  - intros [k Hk]. destruct (first_unfinished l key k Hk) as (j & op & Ho & Ek & Hu & Hc).
    exists j, op. split; [exact Ho|]. split; [exact Ek|].
    destruct (op_state op) eqn:Es; [right | left; reflexivity | contradiction].
    unfold mayStart. rewrite Ho, bool_decide_eq_true_2 by exact Es. simpl.
    pose proof (li_chain _ HI j op Ho) as Hch. destruct (op_previous op) as [i|]; [|reflexivity].
    destruct Hch as (Hij & (opi & Hi & Hki) & _). rewrite Ek in Hki.
    apply (clear_settled l i opi HI Hi); [exact (Hc i opi Hij Hi Hki)|].
    rewrite Hki. intros m opm Hm. apply Hc. lia.
Qed.

Lemma operation_lock_witness :
  let l := register "bot-1" (start 0 (register "bot-2" (register "bot-1" initLock))) in
  LockReachable l /\ mayStart 2 l = false /\ mayStart 1 l = true /\
  (isHeld "bot-1" l = true <-> exists k, Unfinished l "bot-1" k).
Proof.
  assert (H : LockReachable (register "bot-1" (start 0 (register "bot-2" (register "bot-1" initLock))))).
  { eapply rtc_l; [apply (step_register "bot-1")|]. eapply rtc_l; [apply (step_register "bot-2")|].
    eapply rtc_l; [apply (step_start 0); reflexivity|]. apply rtc_once, (step_register "bot-1"). }
  split; [exact H|]. split; [reflexivity|]. split; [reflexivity|].
  apply (operation_lock _ "bot-1" H).
Defined.
