(* ===== verification/Concurrency.v ===== *)
(** Bounded fan-out: [orchestrator/src/services/concurrency.ts].

    [mapWithConcurrency] starts a few workers that share [nextIndex]; each runs
    up to the [await] of its item, and goes on to the next index when that
    settles.  A worker is the index it awaits, or [None] once it has returned.
    The items settle in any order: a step is "the item worker [w] awaits settles". *)
From S2P Require Import Prelude.
From stdpp Require Import list.
#[local] Open Scope nat_scope.

Section MapWithConcurrency.
Context {T R Err : Type}.

(** [PromiseSettledResult]. *)
Definition Settled : Type := Err + R.

Record Pool := mkPool {
  pl_nextIndex : nat;
  pl_results : list (option Settled);
  pl_workers : list (option nat);
}.

Context (items : list T) (concurrency : nat) (fn : T -> Settled).

Definition workerCount : nat := Nat.min (Nat.max 1 concurrency) (length items).

(** The loop of [worker] from its test to its next [await]. *)
Definition takeNext (p : Pool) (w : nat) : Pool :=
  if pl_nextIndex p <? length items
  then mkPool (S (pl_nextIndex p)) (pl_results p) (<[w := Some (pl_nextIndex p)]> (pl_workers p))
  else mkPool (pl_nextIndex p) (pl_results p) (<[w := None]> (pl_workers p)).

(** [Array.from] starts the workers one after the other. *)
Definition startPool : Pool :=
  fold_left takeNext (seq 0 workerCount)
    (mkPool 0 (replicate (length items) None) (replicate workerCount None)).

Definition settle (p : Pool) (w : nat) : option Pool :=
  match pl_workers p !! w with
  | Some (Some i) =>
      match items !! i with
      | Some item =>
          Some (takeNext (mkPool (pl_nextIndex p) (<[i := Some (fn item)]> (pl_results p)) (pl_workers p)) w)
      | None => None
      end
  | _ => None
  end.

(** After [k] settled items. *)
Inductive Settles : nat -> Pool -> Prop :=
| settles_start : Settles 0 startPool
| settles_step k p w p' : Settles k p -> settle p w = Some p' -> Settles (S k) p'.

Definition inFlight (p : Pool) : list nat := omap id (pl_workers p).

(** [Promise.all] resolves when every worker has returned. *)
Definition finishedPool (p : Pool) : Prop := Forall (fun w => w = None) (pl_workers p).

(** ** The invariant *)
Record PoolInv (k : nat) (p : Pool) : Prop := mkPoolInv {
  pi_next : pl_nextIndex p <= length items;
  pi_count : k + length (inFlight p) = pl_nextIndex p;
  pi_len : length (pl_results p) = length items;
  pi_workers : length (pl_workers p) = workerCount;
  pi_flight : NoDup (inFlight p) /\ Forall (fun i => i < pl_nextIndex p) (inFlight p);
  pi_results : forall i, i < pl_nextIndex p ->
    In i (inFlight p) \/ exists item, items !! i = Some item /\ pl_results p !! i = Some (Some (fn item));
  pi_busy : pl_nextIndex p < length items -> Forall (fun w => w <> None) (pl_workers p);
}.

Lemma omap_insert_some (l : list (option nat)) w x y :
  l !! w = Some x ->
  omap id (<[w := y]> l) ≡ₚ match y with Some i => [i] | None => [] end ++ omap id (delete w l).
Proof.
  intros Hw. rewrite insert_take_drop by (apply lookup_lt_Some in Hw; exact Hw).
  rewrite delete_take_drop, !omap_app. simpl. destruct y; simpl; [|reflexivity].
  symmetry. apply Permutation_middle.
Qed.

Lemma omap_delete (l : list (option nat)) w i :
  l !! w = Some (Some i) -> omap id l ≡ₚ i :: omap id (delete w l).
Proof.
  intros Hw. rewrite <- (list_insert_id l w (Some i) Hw) at 1. apply (omap_insert_some l w _ (Some i) Hw).
Qed.

Lemma startPool_eq :
  startPool = mkPool workerCount (replicate (length items) None) (Some <$> seq 0 workerCount).
Proof.
  unfold startPool.
  enough (H : forall j, j <= workerCount ->
    fold_left takeNext (seq 0 j) (mkPool 0 (replicate (length items) None) (replicate workerCount None)) =
    mkPool j (replicate (length items) None) ((Some <$> seq 0 j) ++ replicate (workerCount - j) None)).
  { rewrite H by lia. rewrite Nat.sub_diag, app_nil_r. reflexivity. }
  induction j as [|j IH]; intros Hj; [rewrite Nat.sub_0_r; reflexivity|].
  rewrite seq_S, fold_left_app, IH by lia. simpl. unfold takeNext. simpl.
  rewrite (proj2 (Nat.ltb_lt _ _)) by (unfold workerCount in Hj; lia).
  rewrite fmap_app. simpl. f_equal.
  assert (Hl : length (Some <$> seq 0 j) = j) by (rewrite length_fmap, length_seq; reflexivity).
  rewrite insert_app_r_alt by lia. rewrite Hl, Nat.sub_diag.
  replace (workerCount - j) with (S (workerCount - S j)) by lia. simpl.
  rewrite <- app_assoc. reflexivity.
Qed.

Lemma omap_some (l : list nat) : omap id (Some <$> l) = l.
Proof. induction l as [|x l IH]; [reflexivity|]. exact (f_equal (cons x) IH). Qed.

Lemma poolInv_start : PoolInv 0 startPool.
Proof.
  assert (Hf : inFlight startPool = seq 0 workerCount) by (rewrite startPool_eq; apply omap_some).
  split; rewrite ?Hf, startPool_eq; simpl; rewrite ?length_seq, ?length_replicate, ?length_fmap, ?length_seq; auto.
  - unfold workerCount. lia.
  - split; [apply NoDup_seq|]. apply Forall_forall. intros i Hi. apply elem_of_seq in Hi. lia.
  - intros i Hi. left. apply in_seq. lia.
  - intros _. apply Forall_fmap, Forall_forall. intros i _. discriminate.
Qed.

Lemma poolInv_settle k p w p' : PoolInv k p -> settle p w = Some p' -> PoolInv (S k) p'.
Proof.
  intros [H1 H2 H3 H4 [H5 H5'] H6 H7] Hs. unfold settle in Hs.
  destruct (pl_workers p !! w) as [[i|]|] eqn:Hw; try discriminate.
  destruct (items !! i) as [item|] eqn:Hi; [|discriminate]. injection Hs as <-.
  pose proof (omap_delete _ _ _ Hw) as Hperm. fold (inFlight p) in Hperm.
  set (rest := omap id (delete w (pl_workers p))) in *.
  rewrite Hperm in H5, H5'. apply NoDup_cons in H5 as [Hir Hnd]. apply Forall_cons in H5' as [Hlt Hrest].
  assert (Hlen : length (inFlight p) = S (length rest)) by (rewrite Hperm; reflexivity).
  assert (Hres : forall j, j < pl_nextIndex p -> In j rest \/
    exists it, items !! j = Some it /\ <[i := Some (fn item)]> (pl_results p) !! j = Some (Some (fn it))).
  { intros j Hj. destruct (decide (j = i)) as [->|Hne].
    - right. exists item. split; [exact Hi|]. apply list_lookup_insert_eq. lia.
    - destruct (H6 j Hj) as [Hin|(it & Hit & Hr)].
      + left. apply (Permutation_in _ Hperm) in Hin as [->|Hin]; [contradiction | exact Hin].
      + right. exists it. rewrite list_lookup_insert_ne by congruence. auto. }
  unfold takeNext. simpl. destruct (pl_nextIndex p <? length items) eqn:E.
  - apply Nat.ltb_lt in E. set (n := pl_nextIndex p) in *.
    pose proof (omap_insert_some _ _ _ (Some n) Hw) as Hp'. fold rest in Hp'. simpl in Hp'.
    split; unfold inFlight; simpl; rewrite ?length_insert; auto.
    + rewrite Hp'. simpl. lia.
    + rewrite Hp'. split.
      * apply NoDup_cons. split; [|exact Hnd]. intros Hin. rewrite Forall_forall in Hrest.
        specialize (Hrest n Hin). lia.
      * constructor; [lia|]. eapply Forall_impl; [exact Hrest|]. simpl. lia.
    + intros j Hj. destruct (decide (j = n)) as [->|].
      * left. apply (Permutation_in _ (Permutation_sym Hp')). left. reflexivity.
      * destruct (Hres j) as [Hin|Hr]; [lia| left | right; exact Hr].
        apply (Permutation_in _ (Permutation_sym Hp')). right. exact Hin.
    + intros _. apply Forall_insert; [apply H7; exact E | discriminate].
  - apply Nat.ltb_ge in E.
    pose proof (omap_insert_some _ _ _ None Hw) as Hp'. fold rest in Hp'. simpl in Hp'.
    split; unfold inFlight; simpl; rewrite ?length_insert; auto; try lia.
    + rewrite Hp'. lia.
    + rewrite Hp'. auto.
    + intros j Hj. destruct (Hres j Hj) as [Hin|Hr]; [left | right; exact Hr].
      apply (Permutation_in _ (Permutation_sym Hp')). exact Hin.
Qed.

Lemma settles_inv k p : Settles k p -> PoolInv k p.
Proof. induction 1; [apply poolInv_start | eapply poolInv_settle; eassumption]. Qed.

Lemma finished_flight p : finishedPool p <-> inFlight p = [].
Proof.
  unfold finishedPool, inFlight. induction (pl_workers p) as [|[i|] l IH]; simpl.
  - split; auto.
  - split; [intros H; apply Forall_cons in H as [H _]; discriminate | discriminate].
  - rewrite Forall_cons, IH. tauto.
Qed.

Lemma unfinished_progress k p :
  PoolInv k p -> ~ finishedPool p -> exists w p', settle p w = Some p'.
Proof.
  intros HI Hf. rewrite finished_flight in Hf.
  destruct (inFlight p) as [|i l] eqn:E; [contradiction|].
  assert (Hin : i ∈ inFlight p) by (rewrite E; left).
  pose proof (pi_flight _ _ HI) as [_ Hlt]. rewrite Forall_forall in Hlt. specialize (Hlt i Hin).
  unfold inFlight in Hin. apply list_elem_of_omap in Hin as (x & Hx & Hid). simpl in Hid. subst x.
  apply list_elem_of_lookup in Hx as [w Hw]. exists w. unfold settle. rewrite Hw.
  destruct (lookup_lt_is_Some_2 items i) as [item ->]; [pose proof (pi_next _ _ HI); lia | eauto].
Qed.

(** [mapWithConcurrency] terminates with every item's outcome in its place,
    whatever order the items settle in: a pool that is not finished can always
    go on, it goes on for exactly as many settlements as there are items, and it
    is then finished with [fn item] at each index; at no time are more than
    [max(1, concurrency)] items awaited, and none is awaited twice. *)
Theorem map_with_concurrency k p :
  Settles k p ->
  k <= length items /\
  (finishedPool p <-> k = length items) /\
  (finishedPool p -> pl_results p = (fun item => Some (fn item)) <$> items) /\
  (~ finishedPool p -> exists w p', settle p w = Some p') /\
  length (inFlight p) <= Nat.max 1 concurrency /\ NoDup (inFlight p).
Proof.
  intros H%settles_inv. pose proof H as [H1 H2 H3 H4 [H5 H5'] H6 H7].
  assert (Hfin : finishedPool p -> pl_nextIndex p = length items).
  { intros Hf. destruct (decide (pl_nextIndex p < length items)) as [Hlt|]; [|lia]. exfalso.
    specialize (H7 Hlt). unfold finishedPool in Hf. destruct (pl_workers p) as [|x l] eqn:E.
    - simpl in H4. unfold workerCount in H4. lia.
    - apply Forall_cons in Hf as [-> _]. apply Forall_cons in H7 as [H7 _]. contradiction. }
  assert (Hiff : finishedPool p <-> k = length items).
  { split.
    - intros Hf. rewrite <- (Hfin Hf), <- H2, (proj1 (finished_flight p) Hf). simpl. lia.
    - intros ->. apply finished_flight. destruct (inFlight p); [reflexivity | simpl in H2; lia]. }
  split; [lia|]. split; [exact Hiff|]. split; [|split; [apply (unfinished_progress k); exact H|split]].
  - intros Hf. apply list_eq. intros i. rewrite list_lookup_fmap.
    destruct (decide (i < length items)) as [Hi|Hi].
    + destruct (H6 i) as [Hin|(it & -> & ->)]; [rewrite (Hfin Hf); exact Hi| |reflexivity].
      rewrite (proj1 (finished_flight p) Hf) in Hin. destruct Hin.
    + rewrite (lookup_ge_None_2 items), (lookup_ge_None_2 (pl_results p)) by lia. reflexivity.
  - enough (length (inFlight p) <= workerCount) by (unfold workerCount in *; lia).
    rewrite <- H4. unfold inFlight, omap. clear.
    induction (pl_workers p) as [|[i|] l IH]; simpl in *; lia.
  - exact H5.
Qed.
End MapWithConcurrency.

Definition demoFn (s : string) : string + nat :=
  if String.eqb s "b" then inl s else inr (String.length s).

(** Two workers, three items settling out of order, one of them rejected. *)
Lemma map_with_concurrency_witness :
  exists p : Pool (R := nat) (Err := string),
    Settles ["a"; "b"; "c"]%string 2 demoFn 3 p /\ finishedPool p /\
    pl_results p = [Some (inr 1); Some (inl "b"%string); Some (inr 1)].
Proof.
  enough (H : exists p, Settles ["a"; "b"; "c"]%string 2 demoFn 3 p).
  { destruct H as [p H]. exists p. split; [exact H|].
    destruct (map_with_concurrency _ _ _ _ _ H) as (_ & Hf & Hr & _).
    pose proof (proj2 Hf eq_refl) as Hfin. split; [exact Hfin | exact (Hr Hfin)]. }
  eexists. eapply (settles_step _ _ _ _ _ 1); [eapply (settles_step _ _ _ _ _ 0);
    [eapply (settles_step _ _ _ _ _ 1); [apply settles_start | reflexivity] | reflexivity] | reflexivity].
Defined.
