(* ===== verification/Fleet.v ===== *)
(** The data of the orchestrator: [orchestrator/src/domain/types.ts],
    [domain/channels.ts], [domain/owner.ts], [domain/provisioning.ts],
    [domain/errors.ts], and the enumerations of
    [packages/db/src/schema/instances.ts].

    Dates are milliseconds; an optional field of an interface is an [option]; the
    zod schema of the stored configuration is the record type itself. *)
From Stdlib Require Import Ascii.
From S2P Require Import Prelude JsString Json.
From stdpp Require Import list strings pretty.
#[local] Open Scope Z_scope.

(** ** Enumerations *)
Inductive InstanceStatus :=
| I_provisioning | I_running | I_degraded | I_unhealthy | I_stopped
| I_destroying | I_destroyed | I_error.

Inductive PairingStatus := P_none | P_awaiting_qr | P_awaiting_code | P_paired | P_expired | P_failed.

Inductive BackupImportStatus := BI_none | BI_pending | BI_restored.

Inductive AgentRuntimeKind := Openclaw | Hermes.

Inductive HostStatus := Host_active | Host_draining.

#[export] Instance InstanceStatus_eq_dec : EqDecision InstanceStatus.
Proof. solve_decision. Defined.
#[export] Instance PairingStatus_eq_dec : EqDecision PairingStatus.
Proof. solve_decision. Defined.
#[export] Instance BackupImportStatus_eq_dec : EqDecision BackupImportStatus.
Proof. solve_decision. Defined.
#[export] Instance AgentRuntimeKind_eq_dec : EqDecision AgentRuntimeKind.
Proof. solve_decision. Defined.
#[export] Instance HostStatus_eq_dec : EqDecision HostStatus.
Proof. solve_decision. Defined.

Definition status_str (s : InstanceStatus) : string :=
  match s with
  | I_provisioning => "provisioning" | I_running => "running" | I_degraded => "degraded"
  | I_unhealthy => "unhealthy" | I_stopped => "stopped" | I_destroying => "destroying"
  | I_destroyed => "destroyed" | I_error => "error"
  end.

Definition pairing_str (s : PairingStatus) : string :=
  match s with
  | P_none => "none" | P_awaiting_qr => "awaiting_qr" | P_awaiting_code => "awaiting_code"
  | P_paired => "paired" | P_expired => "expired" | P_failed => "failed"
  end.

Definition oneOf {A} `{EqDecision A} (l : list A) (a : A) : bool := bool_decide (a ∈ l).

Definition VALID_TRANSITIONS (from : InstanceStatus) : list InstanceStatus :=
  match from with
  | I_provisioning => [I_running; I_error]
  | I_running => [I_degraded; I_unhealthy; I_stopped; I_destroying]
  | I_degraded => [I_running; I_unhealthy; I_stopped; I_destroying]
  | I_unhealthy => [I_running; I_degraded; I_stopped; I_destroying]
  | I_stopped => [I_running; I_destroying]
  | I_destroying => [I_destroyed; I_error]
  | I_destroyed => []
  | I_error => [I_destroyed]
  end.

Definition isValidTransition (from to : InstanceStatus) : bool := oneOf (VALID_TRANSITIONS from) to.

Definition CONTAINER_UP_STATUSES : list InstanceStatus := [I_running; I_degraded; I_unhealthy].
Definition isContainerUp (status : InstanceStatus) : bool := oneOf CONTAINER_UP_STATUSES status.

(** ** Channels and configuration *)
Inductive WhatsappDmAccess := Dm_owner | Dm_open.
Inductive TelegramDmPolicy := Tg_pairing | Tg_open | Tg_allowlist.

Record TelegramChannelConfig := mkTelegram {
  tg_botToken : option string;
  tg_botUsername : option string;
  tg_botId : option Z;
  tg_dmPolicy : option TelegramDmPolicy;
  tg_allowFrom : option (list string);
}.

Record WhatsappChannelConfig := mkWhatsapp {
  wa_ownerNumber : option string;
  wa_dmAccess : option WhatsappDmAccess;
}.

Record WhatsappCloudChannel := mkWhatsappCloud {
  wc_wabaId : string;
  wc_phoneNumberId : string;
  wc_businessId : option string;
  wc_displayPhoneNumber : string;
  wc_verifiedName : string;
  wc_accessToken : string;
  wc_pin : option string;
  wc_coexistence : bool;
  wc_relayToken : string;
  wc_ownerNumber : option string;
}.

Inductive ChannelConfig :=
| Ch_telegram (c : TelegramChannelConfig)
| Ch_discord (token : string) (guildId : option string)
| Ch_slack (botToken appToken : string)
| Ch_whatsapp (c : WhatsappChannelConfig)
| Ch_whatsapp_cloud (c : WhatsappCloudChannel).

Inductive LlmProvider := Llm_anthropic | Llm_openai | Llm_openrouter | Llm_gemini | Llm_litellm.

Record ProviderConfig := mkProviderConfig {
  pr_name : LlmProvider;
  pr_id : option string;
  pr_apiKey : string;
  pr_model : string;
  pr_baseUrl : option string;
  pr_input : option (list string);
  pr_media : option (list string);
  pr_fallbacks : option (list string);
}.

Record ResourceLimits := mkResourceLimits { rl_memoryMb : Z; rl_cpuShares : Z }.

Definition DEFAULT_RESOURCE_LIMITS : ResourceLimits := mkResourceLimits 3072 512.

Record IntegrationsBinding := mkIntegrationsBinding { ib_relayToken : string }.

Record InstanceConfig := mkInstanceConfig {
  ic_displayName : string;
  ic_provider : ProviderConfig;
  ic_channels : list ChannelConfig;
  ic_resources : ResourceLimits;
  ic_integrations : option IntegrationsBinding;
}.

(** [Partial<ProviderConfig>] and [Partial<ResourceLimits>]: a field is given or not. *)
Record ProviderPatch := mkProviderPatch {
  pp_name : option LlmProvider;
  pp_id : option string;
  pp_apiKey : option string;
  pp_model : option string;
  pp_baseUrl : option string;
  pp_input : option (list string);
  pp_media : option (list string);
  pp_fallbacks : option (list string);
}.

Record ResourcePatch := mkResourcePatch { rp_memoryMb : option Z; rp_cpuShares : option Z }.

(** [cp_integrations]: [None] is absent, [Some None] is [null]. *)
Record ConfigPatch := mkConfigPatch {
  cp_displayName : option string;
  cp_provider : option ProviderPatch;
  cp_channels : option (list ChannelConfig);
  cp_resources : option ResourcePatch;
  cp_integrations : option (option IntegrationsBinding);
}.

Record BackupImportRef := mkBackupImportRef {
  br_objectName : string;
  br_contentLength : Z;
  br_contentType : string;
}.

Record CreateInstanceInput := mkCreateInput {
  ci_displayName : string;
  ci_provider : option ProviderConfig;
  ci_channels : list ChannelConfig;
  ci_resources : option ResourcePatch;
  ci_backupImport : option BackupImportRef;
}.

Record InstanceBackupImport := mkBackupImport {
  bi_status : BackupImportStatus;
  bi_objectName : option string;
  bi_contentLength : option Z;
  bi_contentType : option string;
}.

Record InstanceLiteLlm := mkLiteLlm {
  ll_keyAlias : option string;
  ll_keyHash : option string;
  ll_budgetCents : option Z;
  ll_budgetDuration : option string;
}.

(** ** Instances *)
Record FleetInstance := mkFleet {
  fi_id : string;
  fi_userId : string;
  fi_hostId : string;
  fi_runtimeKind : AgentRuntimeKind;
  fi_displayName : string;
  fi_status : InstanceStatus;
  fi_containerId : option string;
  fi_containerName : string;
  fi_gatewayPort : Z;
  fi_healthFailures : Z;
  fi_errorMessage : option string;
  fi_pairingStatus : PairingStatus;
  fi_pairingStartedAt : option Z;
  fi_whatsappAccountId : option string;
  fi_hasWhatsappCreds : bool;
  fi_lastSeenAt : option Z;
  fi_backupImport : InstanceBackupImport;
  fi_litellm : InstanceLiteLlm;
  fi_movedFromHostId : option string;
  fi_moveObjectName : option string;
  fi_movedAt : option Z;
  fi_moveImportedAt : option Z;
  fi_createdAt : Z;
  fi_updatedAt : Z;
  fi_stoppedAt : option Z;
  fi_destroyedAt : option Z;
}.

Record Instance_ := mkInstance {
  in_fleet :> FleetInstance;
  in_config : InstanceConfig;
  in_gatewayToken : string;
}.

(** [USER_ID_PATTERN]: /^[a-zA-Z0-9_-]{1,64}$/. *)
Definition isUserIdChar (c : ascii) : bool :=
  let n := Z.of_nat (nat_of_ascii c) in
  ((48 <=? n) && (n <=? 57)) || ((65 <=? n) && (n <=? 90)) || ((97 <=? n) && (n <=? 122))
  || Ascii.eqb c "_" || Ascii.eqb c "-".

Definition matchesUserId (s : string) : bool :=
  allChars isUserIdChar s && (1 <=? Z.of_nat (String.length s)) && (Z.of_nat (String.length s) <=? 64).

(** ** domain/provisioning.ts *)
Inductive ProvisioningStage :=
| Stage_reserved | Stage_container_created | Stage_backup_restored | Stage_started | Stage_running.

Definition STAGE_BY_EVENT : list (string * ProvisioningStage) :=
  [("provision.requested", Stage_reserved);
   ("provision.container_created", Stage_container_created);
   ("provision.backup_restored", Stage_backup_restored);
   ("provision.started", Stage_started);
   ("provision.running", Stage_running)]%string.

Definition provisioningStageOf (eventType : string) : option ProvisioningStage :=
  option_map snd (List.find (fun p => str_eqb p.1 eventType) STAGE_BY_EVENT).

(** ** domain/channels.ts *)
Definition applyChannelDefaults (channels : list ChannelConfig) : list ChannelConfig :=
  List.map (fun ch => match ch with
    | Ch_whatsapp c =>
        match wa_dmAccess c with
        | None => Ch_whatsapp (mkWhatsapp (wa_ownerNumber c) (Some Dm_owner))
        | Some _ => ch
        end
    | _ => ch
    end) channels.

(** The first channel of a kind. *)
Fixpoint findMap {A B} (f : A -> option B) (l : list A) : option B :=
  match l with
  | [] => None
  | a :: l' => match f a with Some b => Some b | None => findMap f l' end
  end.

Definition asWhatsapp (ch : ChannelConfig) : option WhatsappChannelConfig :=
  match ch with Ch_whatsapp c => Some c | _ => None end.
Definition asWhatsappCloud (ch : ChannelConfig) : option WhatsappCloudChannel :=
  match ch with Ch_whatsapp_cloud c => Some c | _ => None end.
Definition asTelegram (ch : ChannelConfig) : option TelegramChannelConfig :=
  match ch with Ch_telegram c => Some c | _ => None end.

Definition findWhatsappChannel (l : list ChannelConfig) : option WhatsappChannelConfig := findMap asWhatsapp l.
Definition findWhatsappCloudChannel (l : list ChannelConfig) : option WhatsappCloudChannel :=
  findMap asWhatsappCloud l.
Definition findTelegramChannel (l : list ChannelConfig) : option TelegramChannelConfig := findMap asTelegram l.

Definition replaceWhatsappChannel (l : list ChannelConfig) (c : WhatsappChannelConfig) : list ChannelConfig :=
  List.map (fun ch => match ch with Ch_whatsapp _ => Ch_whatsapp c | _ => ch end) l.
Definition replaceWhatsappCloudChannel (l : list ChannelConfig) (c : WhatsappCloudChannel) : list ChannelConfig :=
  List.map (fun ch => match ch with Ch_whatsapp_cloud _ => Ch_whatsapp_cloud c | _ => ch end) l.

(** A JavaScript truthy string. *)
Definition truthy (s : option string) : option string :=
  match s with Some EmptyString => None | _ => s end.

(** [None] when it returns the array it was given. *)
Definition withWhatsappOwnerNumber (l : list ChannelConfig) (ownerNumber : option string) : option (list ChannelConfig) :=
  match findWhatsappChannel l with
  | None => Some (applyChannelDefaults (l ++ [Ch_whatsapp (mkWhatsapp (truthy ownerNumber) None)]))
  | Some current =>
      match truthy ownerNumber with
      | None => None
      | Some n =>
          if ostr_eqb (wa_ownerNumber current) (Some n) then None
          else Some (replaceWhatsappChannel l (mkWhatsapp (Some n) (Some Dm_owner)))
      end
  end.

(** ** domain/owner.ts *)
Inductive OwnerChannel := Via_telegram | Via_whatsapp.
Record OwnerRoute := mkOwnerRoute { or_channel : OwnerChannel; or_to : string }.

Record OwnerIdentity := mkOwnerIdentity {
  oi_telegramUserId : option string;
  oi_whatsappNumber : option string;
  oi_businessOwnerNumber : option string;
}.

(** The digits of /^(?:tg:|telegram:)?(\d+)$/ on the trimmed entry. *)
Definition dropPrefix (p s : string) : string :=
  if String.prefix p s then String.substring (String.length p) (String.length s - String.length p) s else s.

Definition isDigit (c : ascii) : bool := match digitOf c with Some _ => true | None => false end.

Definition telegramId (entry : string) : option string :=
  let s := trim entry in
  let digits := if String.prefix "tg:" s then dropPrefix "tg:" s else dropPrefix "telegram:" s in
  if allChars isDigit digits && negb (str_eqb digits "") then Some digits else None.

Definition telegramOwnerId (allowFrom : list string) : option string := findMap telegramId allowFrom.

Definition ownerIdentityOf (l : list ChannelConfig) : OwnerIdentity :=
  mkOwnerIdentity
    match findTelegramChannel l with
    | Some t => telegramOwnerId (default [] (tg_allowFrom t))
    | None => None
    end
    match findWhatsappChannel l with Some w => wa_ownerNumber w | None => None end
    match findWhatsappCloudChannel l with Some w => wc_ownerNumber w | None => None end.

Definition ownerRouteOf (inst : Instance_) : option OwnerRoute :=
  let l := ic_channels (in_config inst) in
  let identity := ownerIdentityOf l in
  let token := match findTelegramChannel l with Some t => truthy (tg_botToken t) | None => None end in
  match oi_telegramUserId identity, token with
  | Some id, Some _ => Some (mkOwnerRoute Via_telegram id)
  | _, _ =>
      match truthy (oi_whatsappNumber identity) with
      | Some n =>
          if bool_decide (fi_pairingStatus inst = P_paired) then Some (mkOwnerRoute Via_whatsapp n) else None
      | None => None
      end
  end.

(** ** domain/errors.ts *)
Inductive OrchError :=
| NotFoundError (entity id : string)
| ValidationError (message : string)
| InvalidStateError (from to : string)
| RuntimeImageMismatchError
| PortExhaustedError (rangeStart rangeEnd : Z)
| QuotaExceededError (resource : string) (limit : Z)
| AuthenticationError
| HostNotAllowedError
| UnknownHostError (hostId : string)
| NoPlacementError
| FeatureUnavailableError (feature : string)
| UpstreamUnavailableError (service : string) (detail : option string)
| InvalidBackupError (message : string)
| CorruptedRowError (entity id cause : string)
| ConflictError (message : string)
| CustomerWindowClosedError
| ConversationHeldByOwnerError
| NumberModeMismatchError (stillInApp : bool)
| ChannelCredentialError (channel : string)
| AccountLimitReachedError (app : string) (limit : Z)
| AccountLabelTakenError (app : string)
| UpstreamRateLimitedError (service : string)
| ChannelPinRequiredError
| MediaTooLargeError
| OwnerUnreachableError
| UniqueViolation (message : string)
| PlainError (message : string).

(** [statusCode] and [code]; [None] for what is not a [DomainError]. *)
Definition orchStatus (e : OrchError) : option (Z * string) :=
  match e with
  | NotFoundError _ _ => Some (404, "NOT_FOUND")
  | ValidationError _ => Some (400, "VALIDATION_ERROR")
  | InvalidStateError _ _ => Some (409, "INVALID_STATE")
  | RuntimeImageMismatchError => Some (409, "RUNTIME_IMAGE_MISMATCH")
  | PortExhaustedError _ _ => Some (503, "PORT_EXHAUSTED")
  | QuotaExceededError _ _ => Some (429, "QUOTA_EXCEEDED")
  | AuthenticationError => Some (401, "UNAUTHORIZED")
  | HostNotAllowedError => Some (401, "HOST_NOT_ALLOWED")
  | UnknownHostError _ => Some (503, "HOST_UNAVAILABLE")
  | NoPlacementError => Some (503, "NO_PLACEMENT")
  | FeatureUnavailableError _ => Some (503, "FEATURE_UNAVAILABLE")
  | UpstreamUnavailableError _ _ => Some (502, "UPSTREAM_UNAVAILABLE")
  | InvalidBackupError _ => Some (400, "INVALID_BACKUP")
  | CorruptedRowError _ _ _ => Some (500, "CORRUPTED_ROW")
  | ConflictError _ => Some (409, "CONFLICT")
  | CustomerWindowClosedError => Some (409, "CUSTOMER_WINDOW_CLOSED")
  | ConversationHeldByOwnerError => Some (409, "CONVERSATION_HELD_BY_OWNER")
  | NumberModeMismatchError _ => Some (409, "NUMBER_MODE_MISMATCH")
  | ChannelCredentialError _ => Some (409, "CHANNEL_CREDENTIAL_INVALID")
  | AccountLimitReachedError _ _ => Some (409, "ACCOUNT_LIMIT_REACHED")
  | AccountLabelTakenError _ => Some (409, "ACCOUNT_LABEL_TAKEN")
  | UpstreamRateLimitedError _ => Some (429, "UPSTREAM_RATE_LIMITED")
  | ChannelPinRequiredError => Some (409, "CHANNEL_PIN_REQUIRED")
  | MediaTooLargeError => Some (413, "MEDIA_TOO_LARGE")
  | OwnerUnreachableError => Some (409, "OWNER_UNREACHABLE")
  | UniqueViolation _ | PlainError _ => None
  end%string.

(** [isUniqueViolation] of [storage/pg-errors.ts]. *)
Definition isUniqueViolation (e : OrchError) : bool :=
  match e with UniqueViolation _ => true | _ => false end.

(** [errorMessage]. *)
Definition orchMessage (e : OrchError) : string :=
  match e with
  | NotFoundError entity id => entity ++ " '" ++ id ++ "' not found"
  | ValidationError m | InvalidBackupError m | ConflictError m | PlainError m | UniqueViolation m => m
  | InvalidStateError from to => "cannot transition from '" ++ from ++ "' to '" ++ to ++ "'"
  | RuntimeImageMismatchError =>
      "container runs another runtime image; recreate it before changing its config"
  | PortExhaustedError a b => "no available ports in range " ++ pretty a ++ "-" ++ pretty b
  | QuotaExceededError resource limit => resource ++ " limit of " ++ pretty limit ++ " reached"
  | AuthenticationError => "missing or invalid authentication"
  | HostNotAllowedError => "host identity not accepted"
  | UnknownHostError h => "host " ++ h ++ " is not managed by this orchestrator"
  | NoPlacementError => "no host can take a new bot"
  | FeatureUnavailableError f => f ++ " is not configured on this host"
  | UpstreamUnavailableError service detail =>
      match truthy detail with
      | Some d => service ++ " unavailable: " ++ d
      | None => service ++ " unavailable"
      end
  | CorruptedRowError entity id cause => "corrupted " ++ entity ++ " '" ++ id ++ "': " ++ cause
  | CustomerWindowClosedError =>
      "the customer's 24-hour service window is closed; they must write first"
  | ConversationHeldByOwnerError =>
      "the owner is answering this customer; the bot's reply was not sent"
  | NumberModeMismatchError stillInApp =>
      if stillInApp
      then "this number is still in the WhatsApp Business app; connect it keeping the app"
      else "this number is not in the WhatsApp Business app; connect it as a new number"
  | ChannelCredentialError channel =>
      channel ++ " credentials were revoked or expired; reconnect the channel"
  | AccountLimitReachedError app limit =>
      app ++ " already has the maximum of " ++ pretty limit ++ " connected accounts"
  | AccountLabelTakenError app => "another " ++ app ++ " account already has that name"
  | UpstreamRateLimitedError service => service ++ " is rate limiting this bot; try again shortly"
  | ChannelPinRequiredError =>
      "this number has a two-step verification PIN; enter it to connect"
  | MediaTooLargeError => "media is larger than the platform cap"
  | OwnerUnreachableError =>
      "the owner cannot be reached on Telegram; they must open a chat with their bot first"
  end%string.
