(* ===== verification/Access.v ===== *)
(** Who a request comes from: the orchestrator's [middleware/auth.ts], the hook of
    [server.ts] that runs it, [routes/bearer.ts] and [middleware/error-handler.ts].

    [hmac] is Node's, a parameter.  The bodies and parameters of a request are taken
    after their schema has accepted them; [None] for one it refused. *)
From Stdlib Require Import Ascii.
From S2P Require Import Prelude JsString Fleet.
From stdpp Require Import list strings.
#[local] Open Scope Z_scope.

(** ** middleware/auth.ts *)
Record HashedKey := mkKey { hk_hash : string; hk_userId : string; hk_trusted : bool }.

(** [ah_apiKeys] in the order of [Object.entries]. *)
Record AuthHookOptions := mkAuthOptions { ah_apiKeys : list (string * string); ah_serviceTokens : list string }.

(** What of a request the hook reads. *)
Record Incoming := mkIncoming {
  in_url : string;
  in_authorization : option string;
  in_actAsUser : option string;
  in_serviceScope : bool;
  in_skipGlobalAuth : bool;
}.

Definition BEARER : string := "Bearer ".
Definition SERVICE_USER : string := "__service__".

(** [header.slice(7)] of a header that starts with [Bearer ]. *)
Definition bearerToken (header : option string) : option string :=
  match header with
  | Some h => if String.prefix BEARER h then Some (dropPrefix BEARER h) else None
  | None => None
  end.

Section Auth.
Context (hmac : string -> string).

Definition hashedApiKeys (o : AuthHookOptions) : list HashedKey :=
  List.map (fun kv => mkKey (hmac kv.1) kv.2 false) (ah_apiKeys o).
Definition hashedServiceTokens (o : AuthHookOptions) : list HashedKey :=
  List.map (fun k => mkKey (hmac k) SERVICE_USER true) (ah_serviceTokens o).

Definition keyOf (token : string) (l : list HashedKey) : option HashedKey :=
  List.find (fun k => str_eqb (hmac token) (hk_hash k)) l.

(** The user a service token acts for. *)
Definition actAs (header : option string) : OrchError + string :=
  match header with
  | Some u => if matchesUserId u then inr u else inl AuthenticationError
  | None => inl AuthenticationError
  end.

Definition authenticate (o : AuthHookOptions) (r : Incoming) : OrchError + string :=
  match bearerToken (in_authorization r) with
  | None => inl AuthenticationError
  | Some token =>
      match keyOf token (hashedApiKeys o) with
      | Some k => if in_serviceScope r then inl AuthenticationError else inr (hk_userId k)
      | None =>
          match keyOf token (hashedServiceTokens o) with
          | Some k => if in_serviceScope r then inr (hk_userId k) else actAs (in_actAsUser r)
          | None => inl AuthenticationError
          end
      end
  end.

(** The [onRequest] hook: [None] for a request it leaves alone. *)
Definition onRequest (o : AuthHookOptions) (r : Incoming) : OrchError + option string :=
  if str_eqb (in_url r) "/health" || in_skipGlobalAuth r then inr None
  else match authenticate o r with inl e => inl e | inr u => inr (Some u) end.
End Auth.

(** ** routes/bearer.ts *)
Definition MAX_TOKEN_LENGTH : Z := 256.

Definition extractBearer (header : option string) : option string :=
  match bearerToken header with
  | Some t =>
      let token := trim t in
      let n := Z.of_nat (String.length token) in
      if (0 <? n) && (n <=? MAX_TOKEN_LENGTH) then Some token else None
  | None => None
  end.

(** ** middleware/error-handler.ts *)

(** What a handler throws: an error of the domain or another [Error], a refusal of
    the schemas with its issues, or an error of the server with its status. *)
Inductive Thrown :=
| Th_error (e : OrchError)
| Th_zod (issues : list (list string * string))
| Th_fastify (statusCode : Z) (code : option string) (message : string).

Record ErrorReply := mkErrorReply {
  er_status : Z;
  er_code : string;
  er_message : string;
  er_details : list (string * string);
}.

Definition joinPath (path : list string) : string := String.concat "." path.

Definition errorHandler (e : Thrown) : ErrorReply :=
  match e with
  | Th_error e =>
      match orchStatus e with
      | Some (status, code) => mkErrorReply status code (orchMessage e) []
      | None => mkErrorReply 500 "INTERNAL_ERROR" "internal server error" []
      end
  | Th_zod issues =>
      mkErrorReply 400 "VALIDATION_ERROR" "request validation failed"
        (List.map (fun i => (joinPath i.1, i.2)) issues)
  | Th_fastify status code message => mkErrorReply status (default "ERROR" code) message []
  end.

(** ** What the hook promises *)
Lemma prefix_app p s : String.prefix p (p +:+ s) = true.
Proof.
  induction p as [|c p IH]; [destruct s; reflexivity|].
  change (String c p +:+ s) with (String c (p +:+ s)). simpl. destruct (Ascii.ascii_dec c c); [exact IH | congruence].
Qed.

Lemma substring_whole s : String.substring 0 (String.length s) s = s.
Proof. induction s as [|c s IH]; simpl; [reflexivity | rewrite IH; reflexivity]. Qed.

Lemma dropPrefix_app p s : dropPrefix p (p +:+ s) = s.
Proof.
  unfold dropPrefix. rewrite prefix_app.
  replace (String.length (p +:+ s) - String.length p)%nat with (String.length s).
  - induction p as [|c p IH]; [apply substring_whole | exact IH].
  - induction p as [|c p IH]; [change ("" +:+ s) with s; simpl; lia|].
    change (String c p +:+ s) with (String c (p +:+ s)). exact IH.
Qed.

Lemma bearer_prefix token : bearerToken (Some (BEARER +:+ token)) = Some token.
Proof. unfold bearerToken. rewrite prefix_app, dropPrefix_app. reflexivity. Qed.

Section Promises.
Context (hmac : string -> string) (hmac_injective : forall a b, hmac a = hmac b -> a = b).

Lemma keyOf_spec token l k : keyOf hmac token l = Some k -> In k l /\ hmac token = hk_hash k.
Proof. intros H. apply List.find_some in H as [Hin E]. apply str_eqb_eq in E. auto. Qed.

Lemma keyOf_none token l k : keyOf hmac token l = None -> In k l -> hmac token <> hk_hash k.
Proof. intros H Hin E. apply (find_none _ _ H) in Hin. rewrite E, str_eqb_refl in Hin. discriminate. Qed.

(** A request the hook admits presents a configured credential: an API key, and
    then it runs as that key's user and reaches no platform route; or a service
    token, and then it runs as the platform on a platform route, and elsewhere as
    the well-formed user it names, which an API key cannot choose.  HMAC is taken to
    have no collisions. *)
Theorem request_identity (o : AuthHookOptions) (r : Incoming) (user : string)
  (Hr : onRequest hmac o r = inr (Some user)) :
  exists token, bearerToken (in_authorization r) = Some token /\
    ((In (token, user) (ah_apiKeys o) /\ in_serviceScope r = false) \/
     (In token (ah_serviceTokens o) /\ ~ In token (List.map fst (ah_apiKeys o)) /\
      if in_serviceScope r then user = SERVICE_USER
      else in_actAsUser r = Some user /\ matchesUserId user = true)).
Proof.
  unfold onRequest in Hr. destruct (_ || _); [discriminate|].
  destruct (authenticate hmac o r) as [|u] eqn:E; [discriminate|]. injection Hr as ->.
  unfold authenticate in E. destruct (bearerToken _) as [token|]; [|discriminate]. exists token. split; [reflexivity|].
  destruct (keyOf hmac token (hashedApiKeys hmac o)) as [k|] eqn:Ek.
  - left. destruct (in_serviceScope r); [discriminate|]. injection E as <-. apply keyOf_spec in Ek as [Hin Eh].
    apply in_map_iff in Hin as ([key u] & <- & Hin). apply hmac_injective in Eh. simpl in *. subst. auto.
  - right. destruct (keyOf hmac token (hashedServiceTokens hmac o)) as [k|] eqn:Es; [|discriminate].
    apply keyOf_spec in Es as [Hin Eh]. apply in_map_iff in Hin as (key & <- & Hin). apply hmac_injective in Eh.
    simpl in Eh. subst key. split; [exact Hin|]. split.
    + intros Hk. apply in_map_iff in Hk as ([key u] & Ekey & Hk). simpl in Ekey. subst key.
      apply (keyOf_none _ _ (mkKey (hmac token) u false) Ek); [|reflexivity].
      unfold hashedApiKeys. apply in_map_iff. exists (token, u). auto.
    + destruct (in_serviceScope r); [injection E as <-; reflexivity|]. unfold actAs in E. destruct (in_actAsUser r) as [u|]; [|discriminate].
      destruct (matchesUserId u) eqn:Em; [|discriminate]. injection E as ->. auto.
Qed.

(** Every configured API key is admitted outside the platform routes. *)
Lemma api_key_admitted o r token user :
  bearerToken (in_authorization r) = Some token -> In (token, user) (ah_apiKeys o) ->
  in_serviceScope r = false -> exists user', authenticate hmac o r = inr user' /\ In (token, user') (ah_apiKeys o).
Proof.
  intros Hb Hin Hs. unfold authenticate. rewrite Hb.
  destruct (keyOf hmac token (hashedApiKeys hmac o)) as [k|] eqn:Ek.
  - rewrite Hs. exists (hk_userId k). split; [reflexivity|]. apply keyOf_spec in Ek as [Hk Eh].
    apply in_map_iff in Hk as ([key u] & <- & Hk). apply hmac_injective in Eh. simpl in *. subst. exact Hk.
  - exfalso. apply (keyOf_none _ _ (mkKey (hmac token) user false) Ek); [|reflexivity].
    apply in_map_iff. exists (token, user). auto.
Qed.
End Promises.

Lemma request_identity_witness :
  let o := mkAuthOptions [("k1", "alice")] ["svc"] in
  let r := mkIncoming "/instances" (Some "Bearer svc") (Some "bob") false false in
  onRequest (fun s => s) o r = inr (Some "bob") /\
  exists token, bearerToken (in_authorization r) = Some token /\
    ((In (token, "bob") (ah_apiKeys o) /\ in_serviceScope r = false) \/
     (In token (ah_serviceTokens o) /\ ~ In token (List.map fst (ah_apiKeys o)) /\
      if in_serviceScope r then "bob" = SERVICE_USER
      else in_actAsUser r = Some "bob" /\ matchesUserId "bob" = true)).
Proof.
  intros o r. split; [reflexivity|]. apply (request_identity (fun s => s)); [auto | reflexivity].
Defined.

(** An error that is not of the domain is answered without its text. *)
Lemma internal_error_hidden e : orchStatus e = None -> er_message (errorHandler (Th_error e)) = "internal server error".
Proof. intros H. simpl. rewrite H. reflexivity. Qed.

Lemma domain_error_status e status code :
  orchStatus e = Some (status, code) -> 400 <= status <= 503 /\ er_status (errorHandler (Th_error e)) = status.
Proof. intros H. simpl. rewrite H. split; [|reflexivity]. destruct e; inversion H; lia. Qed.
