(* ===== verification/Exports.v ===== *)
(** Downloading a bot's backup: the orchestrator's [services/backup-export-manager.ts].

    The manager is one object on one event loop: what it does between two awaits is
    one [exportStep], and the answers it waits for - that the bot's state can be read,
    the archive, the upload, the signature - are events that come in any order.
    [er_phase] is where the [createDownloadUrl] a job started has got to.  A timeout
    is an error of the thing it bounds.  [es_signed] and [es_objects], the links signed
    and the objects that may be in the bucket, are for the proofs. *)
From Stdlib Require Import Ascii.
From S2P Require Import Prelude JsString Fleet.
From stdpp Require Import list strings gmap.
#[local] Open Scope Z_scope.

Definition BACKUP_EXPORT_JOB_TTL_MS : Z := 15 * 60 * 1000.

Inductive ExportJobStatus := Job_pending | Job_ready | Job_error.
#[export] Instance ExportJobStatus_eq_dec : EqDecision ExportJobStatus.
Proof. solve_decision. Defined.

Record StoredExportJob := mkStoredJob {
  sj_id : string;
  sj_key : string;
  sj_status : ExportJobStatus;
  sj_downloadUrl : option string;
  sj_message : option string;
  sj_expiresAtMs : Z;
}.

Inductive BackupExportJob :=
| Export_pending (id : string)
| Export_ready (id downloadUrl : string)
| Export_error (id message : string).

Inductive RunPhase := Run_checking | Run_joined | Run_signing (objectName : string).

(** The [createDownloadUrl] of a job. *)
Record ExportRun := mkRun { er_job : string; er_id : string; er_userId : string; er_phase : RunPhase }.

Inductive UploadPhase := Up_preparing | Up_uploading (objectName : string).
Record Upload := mkUpload { up_id : string; up_userId : string; up_phase : UploadPhase }.

(** [es_jobs] is a [Map] in the order of its insertions. *)
Record ExportState := mkExport {
  es_inFlight : gmap string Upload;
  es_jobs : list StoredExportJob;
  es_jobsByKey : gmap string string;
  es_runs : list ExportRun;
  es_signed : list (string * string);
  es_objects : list string;
}.

Definition noExports : ExportState := mkExport ∅ [] ∅ [] [] [].

Definition exportKey (id userId : string) : string := userId +:+ ":" +:+ id.
Definition exportObjectName (userId id uuid : string) : string :=
  "exports/" +:+ encodeURIComponent userId +:+ "/" +:+ id +:+ "/" +:+ uuid +:+ ".tar.gz".

Definition toJob (job : StoredExportJob) : BackupExportJob :=
  match sj_status job, truthy (sj_downloadUrl job) with
  | Job_ready, Some url => Export_ready (sj_id job) url
  | Job_error, _ => Export_error (sj_id job) (default "export failed" (sj_message job))
  | _, _ => Export_pending (sj_id job)
  end.

Definition findJob (jobId : string) (l : list StoredExportJob) : option StoredExportJob :=
  List.find (fun j => str_eqb (sj_id j) jobId) l.

Definition expiredJob (now : Z) (job : StoredExportJob) : bool := sj_expiresAtMs job <=? now.

(** The key of a job that goes is freed when the job is the one it names. *)
Definition freeKey (m : gmap string string) (job : StoredExportJob) : gmap string string :=
  match m !! sj_key job with
  | Some jobId => if str_eqb jobId (sj_id job) then delete (sj_key job) m else m
  | None => m
  end.

Definition pruneExpired (now : Z) (s : ExportState) : ExportState :=
  mkExport (es_inFlight s) (List.filter (fun j => negb (expiredJob now j)) (es_jobs s))
    (fold_left freeKey (List.filter (expiredJob now) (es_jobs s)) (es_jobsByKey s))
    (es_runs s) (es_signed s) (es_objects s).

Definition pendingJob (key : string) (s : ExportState) : option StoredExportJob :=
  match es_jobsByKey s !! key with
  | Some jobId =>
      match findJob jobId (es_jobs s) with
      | Some j => if bool_decide (sj_status j = Job_pending) then Some j else None
      | None => None
      end
  | None => None
  end.

(** [startDownloadJob] once the bot's state was found readable. *)
Definition startDownloadJob (now : Z) (id userId freshId : string) (s : ExportState) : BackupExportJob * ExportState :=
  let s := pruneExpired now s in
  let key := exportKey id userId in
  match pendingJob key s with
  | Some j => (toJob j, s)
  | None =>
      let job := mkStoredJob freshId key Job_pending None None (now + BACKUP_EXPORT_JOB_TTL_MS) in
      (toJob job,
       mkExport (es_inFlight s) (es_jobs s ++ [job]) (<[key := freshId]> (es_jobsByKey s))
         (es_runs s ++ [mkRun freshId id userId Run_checking]) (es_signed s) (es_objects s))
  end.

Definition getDownloadJob (now : Z) (id userId jobId : string) (s : ExportState) : option BackupExportJob * ExportState :=
  let s := pruneExpired now s in
  (match findJob jobId (es_jobs s) with
   | Some j => if str_eqb (sj_key j) (exportKey id userId) then Some (toJob j) else None
   | None => None
   end, s).

(** *** The runs *)
Definition setRuns (l : list ExportRun) (s : ExportState) : ExportState :=
  mkExport (es_inFlight s) (es_jobs s) (es_jobsByKey s) l (es_signed s) (es_objects s).
Definition setInFlight (m : gmap string Upload) (s : ExportState) : ExportState :=
  mkExport m (es_jobs s) (es_jobsByKey s) (es_runs s) (es_signed s) (es_objects s).
Definition noteObject (o : string) (s : ExportState) : ExportState :=
  mkExport (es_inFlight s) (es_jobs s) (es_jobsByKey s) (es_runs s) (es_signed s) (es_objects s ++ [o]).
Definition dropObject (o : string) (s : ExportState) : ExportState :=
  mkExport (es_inFlight s) (es_jobs s) (es_jobsByKey s) (es_runs s) (es_signed s)
    (List.filter (fun x => negb (str_eqb x o)) (es_objects s)).

Definition findRun (jobId : string) (l : list ExportRun) : option ExportRun := List.find (fun r => str_eqb (er_job r) jobId) l.
Definition dropRun (jobId : string) (l : list ExportRun) : list ExportRun :=
  List.filter (fun r => negb (str_eqb (er_job r) jobId)) l.
Definition toPhase (p : RunPhase) (r : ExportRun) : ExportRun := mkRun (er_job r) (er_id r) (er_userId r) p.

(** A run ends: its job, when it is still kept, is settled. *)
Definition settledJob (now : Z) (result : string + string) (j : StoredExportJob) : StoredExportJob :=
  match result with
  | inr url => mkStoredJob (sj_id j) (sj_key j) Job_ready (Some url) (sj_message j) (now + BACKUP_EXPORT_JOB_TTL_MS)
  | inl message => mkStoredJob (sj_id j) (sj_key j) Job_error (sj_downloadUrl j) (Some message) (now + BACKUP_EXPORT_JOB_TTL_MS)
  end.

Definition finishRun (now : Z) (jobId : string) (result : string + string) (s : ExportState) : ExportState :=
  mkExport (es_inFlight s) (update_where (fun j => str_eqb (sj_id j) jobId) (settledJob now result) (es_jobs s))
    (es_jobsByKey s) (dropRun jobId (es_runs s)) (es_signed s) (es_objects s).

Definition runKey (r : ExportRun) : string := exportKey (er_id r) (er_userId r).

(** [getOrCreateBackupObject]: the run joins the upload of its key, or starts it. *)
Definition joinUpload (r : ExportRun) (s : ExportState) : ExportState :=
  let s := setRuns (update_where (fun x => str_eqb (er_job x) (er_job r)) (toPhase Run_joined) (es_runs s)) s in
  match es_inFlight s !! runKey r with
  | Some _ => s
  | None => setInFlight (<[runKey r := mkUpload (er_id r) (er_userId r) Up_preparing]> (es_inFlight s)) s
  end.

Definition waitsFor (key : string) (r : ExportRun) : bool :=
  match er_phase r with Run_joined => str_eqb (runKey r) key | _ => false end.

(** An upload is over: the key is free, and the runs that wait for it go on or fail. *)
Definition settleUpload (now : Z) (key : string) (result : string + string) (s : ExportState) : ExportState :=
  let s := setInFlight (delete key (es_inFlight s)) s in
  match result with
  | inr objectName => setRuns (update_where (waitsFor key) (toPhase (Run_signing objectName)) (es_runs s)) s
  | inl message => fold_left (fun s r => finishRun now (er_job r) (inl message) s) (List.filter (waitsFor key) (es_runs s)) s
  end.

Inductive ExportEvent :=
| Ev_start (id userId freshId : string)
| Ev_get (id userId jobId : string)
| Ev_checked (jobId : string) (failure : option string)
| Ev_prepared (key : string) (result : string + string)
| Ev_uploaded (key : string) (failure : option (string * bool))
| Ev_signed (jobId : string) (result : string + string).

(** [None] when nothing waits for the event.  [Ev_prepared] brings the archive's error
    or the fresh id of the object; [Ev_uploaded] the error with whether the object was
    deleted after it. *)
Definition exportStep (now : Z) (s : ExportState) (ev : ExportEvent) : option ExportState :=
  match ev with
  | Ev_start id userId freshId => Some (startDownloadJob now id userId freshId s).2
  | Ev_get id userId jobId => Some (getDownloadJob now id userId jobId s).2
  | Ev_checked jobId failure =>
      match findRun jobId (es_runs s) with
      | Some r =>
          match er_phase r, failure with
          | Run_checking, Some message => Some (finishRun now jobId (inl message) s)
          | Run_checking, None => Some (joinUpload r s)
          | _, _ => None
          end
      | None => None
      end
  | Ev_prepared key result =>
      match es_inFlight s !! key with
      | Some (mkUpload id userId Up_preparing) =>
          match result with
          | inl message => Some (settleUpload now key (inl message) s)
          | inr uuid =>
              let o := exportObjectName userId id uuid in
              Some (noteObject o (setInFlight (<[key := mkUpload id userId (Up_uploading o)]> (es_inFlight s)) s))
          end
      | _ => None
      end
  | Ev_uploaded key failure =>
      match es_inFlight s !! key with
      | Some (mkUpload _ _ (Up_uploading o)) =>
          match failure with
          | None => Some (settleUpload now key (inr o) s)
          | Some (message, deleted) =>
              Some (settleUpload now key (inl message) (if deleted : bool then dropObject o s else s))
          end
      | _ => None
      end
  | Ev_signed jobId result =>
      match findRun jobId (es_runs s) with
      | Some r =>
          match er_phase r with
          | Run_signing o =>
              let s := match result with
                       | inr url => mkExport (es_inFlight s) (es_jobs s) (es_jobsByKey s) (es_runs s)
                                      (es_signed s ++ [(url, o)]) (es_objects s)
                       | inl _ => s
                       end in
              Some (finishRun now jobId result s)
          | _ => None
          end
      | None => None
      end
  end.

(** A run of the manager: events at instants.  The ids it makes are fresh, and its users
    are well formed, which the hook in front of the routes makes sure of ([Access]). *)
Definition wellFormed (ev : ExportEvent) : Prop :=
  match ev with Ev_start _ userId _ => matchesUserId userId = true | _ => True end.
Definition freshIn (s : ExportState) (ev : ExportEvent) : Prop :=
  match ev with
  | Ev_start _ _ freshId => ~ In freshId (List.map sj_id (es_jobs s)) /\ ~ In freshId (List.map er_job (es_runs s))
  | _ => True
  end.

Inductive exportReaches : ExportState -> Prop :=
| er_init : exportReaches noExports
| er_step s now ev s' : exportReaches s -> freshIn s ev -> wellFormed ev -> exportStep now s ev = Some s' -> exportReaches s'.

(** ** What the downloads promise

    What the downloads of backups promise: [Exports]. *)
(** ** Keys *)
Lemma userId_no_colon s : matchesUserId s = true -> allChars (fun c => negb (Ascii.eqb c ":"%char)) s = true.
Proof.
  unfold matchesUserId. intros H. bools. clear -H. induction s as [|c s IH]; [reflexivity|].
  cbn [allChars] in *. bools. rewrite (IH ltac:(assumption)), andb_true_r. destruct (Ascii.eqb c ":"%char) eqn:E; [|reflexivity].
  apply Ascii.eqb_eq in E as ->. discriminate.
Qed.

Lemma exportKey_inj id userId id' userId' :
  matchesUserId userId = true -> matchesUserId userId' = true ->
  exportKey id userId = exportKey id' userId' -> id = id' /\ userId = userId'.
Proof.
  intros H H' E. apply userId_no_colon in H, H'. unfold exportKey in E. revert userId' H' E.
  induction userId as [|c s IH]; intros [|c' s'] H' E.
  - injection E as E. auto.
  - exfalso. injection E as <- _. cbn [allChars] in H'. bools. discriminate.
  - exfalso. injection E as -> _. cbn [allChars] in H. bools. discriminate.
  - cbn [allChars] in *. bools. injection E as <- E. destruct (IH ltac:(assumption) s' ltac:(assumption) E) as [-> ->]. auto.
Qed.

(** ** The invariant *)
Definition RunOk (s : ExportState) (r : ExportRun) : Prop :=
  matchesUserId (er_userId r) = true /\
  match er_phase r with
  | Run_checking => True
  | Run_joined => is_Some (es_inFlight s !! runKey r)
  | Run_signing o => exists uuid, o = exportObjectName (er_userId r) (er_id r) uuid
  end.

Definition UploadOk (key : string) (u : Upload) : Prop :=
  key = exportKey (up_id u) (up_userId u) /\ matchesUserId (up_userId u) = true /\
  match up_phase u with
  | Up_preparing => True
  | Up_uploading o => exists uuid, o = exportObjectName (up_userId u) (up_id u) uuid
  end.

Definition JobOk (s : ExportState) (j : StoredExportJob) : Prop :=
  (forall r, In r (es_runs s) -> er_job r = sj_id j -> runKey r = sj_key j) /\
  match sj_status j with
  | Job_pending => exists r, In r (es_runs s) /\ er_job r = sj_id j
  | Job_ready => exists url o, sj_downloadUrl j = Some url /\ In (url, o) (es_signed s) /\
      exists id userId uuid, matchesUserId userId = true /\ sj_key j = exportKey id userId /\ o = exportObjectName userId id uuid
  | Job_error => True
  end.

Record ExportInv (s : ExportState) : Prop := mkExportInv {
  ei_ids : NoDup (List.map sj_id (es_jobs s));
  ei_runIds : NoDup (List.map er_job (es_runs s));
  ei_runs : forall r, In r (es_runs s) -> RunOk s r;
  ei_uploads : forall key u, es_inFlight s !! key = Some u -> UploadOk key u;
  ei_jobs : forall j, In j (es_jobs s) -> JobOk s j;
}.

Lemma findJob_in jobId l j : findJob jobId l = Some j -> In j l /\ sj_id j = jobId.
Proof. intros H. apply List.find_some in H as [H E]. apply str_eqb_eq in E. auto. Qed.
Lemma findRun_in jobId l r : findRun jobId l = Some r -> In r l /\ er_job r = jobId.
Proof. intros H. apply List.find_some in H as [H E]. apply str_eqb_eq in E. auto. Qed.

Lemma NoDup_map_filter {A B} (f : A -> B) p (l : list A) : NoDup (List.map f l) -> NoDup (List.map f (List.filter p l)).
Proof.
  intros H. eapply sublist_NoDup; [exact H|]. clear H. induction l as [|a l IH]; simpl; [constructor|].
  destruct (p a); simpl; [apply sublist_skip | apply sublist_cons]; exact IH.
Qed.

Lemma inv_prune now s : ExportInv s -> ExportInv (pruneExpired now s).
Proof.
  intros [H1 H2 H3 H4 H5]. constructor; simpl; auto.
  - apply NoDup_map_filter. exact H1.
  - intros j Hj. apply filter_In in Hj as [Hj _]. exact (H5 j Hj).
Qed.

Lemma inv_start now id userId freshId s :
  ExportInv s -> matchesUserId userId = true ->
  ~ In freshId (List.map sj_id (es_jobs s)) -> ~ In freshId (List.map er_job (es_runs s)) ->
  ExportInv (startDownloadJob now id userId freshId s).2.
Proof.
  intros Hs Hu Hj Hr. apply (inv_prune now) in Hs. unfold startDownloadJob.
  destruct (pendingJob _ _) as [j|]; [exact Hs|].
  assert (Hj' : ~ In freshId (List.map sj_id (es_jobs (pruneExpired now s)))).
  { intros H. apply Hj. apply in_map_iff in H as (j & E & H). apply in_map_iff. exists j. split; [exact E|].
    apply filter_In in H. tauto. }
  change (es_runs s) with (es_runs (pruneExpired now s)) in Hr.
  destruct Hs as [H1 H2 H3 H4 H5]. remember (pruneExpired now s) as s0.
  constructor; cbn [snd es_jobs es_runs es_inFlight es_signed].
  - rewrite List.map_app. apply NoDup_app. split; [exact H1|]. split; [|apply NoDup_singleton].
    intros x Hx Hx'. apply list_elem_of_singleton in Hx' as ->. apply list_elem_of_In in Hx. exact (Hj' Hx).
  - rewrite List.map_app. apply NoDup_app. split; [exact H2|]. split; [|apply NoDup_singleton].
    intros x Hx Hx'. apply list_elem_of_singleton in Hx' as ->. apply list_elem_of_In in Hx. exact (Hr Hx).
  - intros r Hin. apply in_app_iff in Hin as [Hin|[<-|[]]]; [exact (H3 r Hin) | split; [exact Hu | exact I]].
  - exact H4.
  - intros j Hin. apply in_app_iff in Hin as [Hin|[<-|[]]].
    + destruct (H5 j Hin) as [Ha Hb]. split.
      * intros r Hr' E. apply in_app_iff in Hr' as [Hr'|[<-|[]]]; [exact (Ha r Hr' E)|].
        exfalso. apply Hj'. apply in_map_iff. exists j. auto.
      * destruct (sj_status j); [|exact Hb | exact I]. destruct Hb as (r & Hr' & E). exists r. split; [apply in_app_iff; auto | exact E].
    + split; [|exists (mkRun freshId id userId Run_checking); split; [apply in_app_iff; right; left; reflexivity | reflexivity]].
      intros r Hr' E. apply in_app_iff in Hr' as [Hr'|[<-|[]]]; [|reflexivity].
      exfalso. apply Hr. apply in_map_iff. exists r. auto.
Qed.

(** Runs that keep their job, bot and user. *)
Lemma jobOk_runs s s' j :
  es_signed s' = es_signed s ->
  (forall r', In r' (es_runs s') -> exists r, In r (es_runs s) /\ er_job r = er_job r' /\ runKey r = runKey r') ->
  (forall r, In r (es_runs s) -> exists r', In r' (es_runs s') /\ er_job r' = er_job r) ->
  JobOk s j -> JobOk s' j.
Proof.
  intros Es Hb Hf [Ha Hst]. split.
  - intros r' Hr' E. destruct (Hb r' Hr') as (r & Hr & Ej & <-). apply Ha; [exact Hr | congruence].
  - destruct (sj_status j); [|rewrite Es; exact Hst | exact I]. destruct Hst as (r & Hr & E).
    destruct (Hf r Hr) as (r' & Hr' & E'). exists r'. split; [exact Hr' | congruence].
Qed.

Lemma toPhase_runs p q l :
  (forall r', In r' (update_where q (toPhase p) l) -> exists r, In r l /\ er_job r = er_job r' /\ runKey r = runKey r') /\
  (forall r, In r l -> exists r', In r' (update_where q (toPhase p) l) /\ er_job r' = er_job r).
Proof.
  split.
  - intros r' H. apply in_update_where in H as (r & Hr & ->). exists r. split; [exact Hr|]. destruct (q r); split; reflexivity.
  - intros r H. exists (if q r then toPhase p r else r). split; [apply in_update_where; eauto | destruct (q r); reflexivity].
Qed.

Lemma runIds_toPhase p q l : List.map er_job (update_where q (toPhase p) l) = List.map er_job l.
Proof. apply map_update_where. reflexivity. Qed.

(** A run ends. *)
Lemma dropRun_in jobId l r : In r (dropRun jobId l) <-> In r l /\ er_job r <> jobId.
Proof.
  unfold dropRun. rewrite filter_In. split; intros [H E]; split; auto.
  - intros E'. rewrite E', str_eqb_refl in E. discriminate.
  - destruct (str_eqb _ _) eqn:E'; [|reflexivity]. apply str_eqb_eq in E'. congruence.
Qed.

Lemma inv_finish now s r result :
  ExportInv s -> In r (es_runs s) ->
  match result with
  | inr url => exists o, In (url, o) (es_signed s) /\ exists uuid, o = exportObjectName (er_userId r) (er_id r) uuid
  | inl _ => True
  end ->
  ExportInv (finishRun now (er_job r) result s).
Proof.
  intros [H1 H2 H3 H4 H5] Hin Hres. constructor; simpl.
  - rewrite map_update_where; [exact H1 | intros j _; destruct result; reflexivity].
  - apply NoDup_map_filter. exact H2.
  - intros r' Hr'. apply dropRun_in in Hr' as [Hr' _]. exact (H3 r' Hr').
  - exact H4.
  - intros j' Hj'. apply in_update_where in Hj' as (j & Hj & ->). destruct (H5 j Hj) as [Ha Hb].
    destruct (str_eqb (sj_id j) (er_job r)) eqn:E.
    + apply str_eqb_eq in E. split.
      * intros r' Hr' E'. apply dropRun_in in Hr' as [_ Hne]. exfalso. apply Hne.
        rewrite E'. destruct result; exact E.
      * destruct result as [m|url]; simpl; [exact I|]. destruct Hres as (o & Ho & uuid & ->). exists url. eexists.
        split; [reflexivity|]. split; [exact Ho|]. exists (er_id r), (er_userId r), uuid.
        split; [apply (H3 r Hin)|]. split; [|reflexivity]. symmetry. apply (Ha r Hin). symmetry. exact E.
    + split.
      * intros r' Hr' E'. apply dropRun_in in Hr' as [Hr' _]. exact (Ha r' Hr' E').
      * destruct (sj_status j); [|exact Hb | exact I]. destruct Hb as (r' & Hr' & E'). exists r'. split; [|exact E'].
        apply dropRun_in. split; [exact Hr'|]. intros E''. rewrite E' in E''. rewrite E'', str_eqb_refl in E. discriminate.
Qed.

(** A run joins the upload of its key. *)
Lemma inv_join s r : ExportInv s -> In r (es_runs s) -> er_phase r = Run_checking -> ExportInv (joinUpload r s).
Proof.
  intros [H1 H2 H3 H4 H5] Hin Hph. unfold joinUpload.
  set (q := fun x => str_eqb (er_job x) (er_job r)). set (runs' := update_where q (toPhase Run_joined) (es_runs s)).
  destruct (toPhase_runs Run_joined q (es_runs s)) as [Hb Hf]. fold runs' in Hb, Hf.
  assert (Hone : forall x, In x (es_runs s) -> q x = true -> x = r).
  { intros x Hx E. apply str_eqb_eq in E. exact (NoDup_key_inj er_job (es_runs s) x r H2 Hx Hin E). }
  assert (Hkeep : forall m, (forall key, is_Some (es_inFlight s !! key) -> is_Some (m !! key)) -> is_Some (m !! runKey r) ->
    (forall key u, m !! key = Some u -> UploadOk key u) -> ExportInv (setInFlight m (setRuns runs' s))).
  { intros m Hm Hr Hu. constructor; simpl.
    - exact H1.
    - unfold runs'. rewrite runIds_toPhase. exact H2.
    - intros r' Hr'. unfold runs' in Hr'. apply in_update_where in Hr' as (x & Hx & ->).
      destruct (q x) eqn:E.
      + rewrite (Hone x Hx E). split; [apply (H3 r Hin) | exact Hr].
      + destruct (H3 x Hx) as [Hu' Hp]. split; [exact Hu'|]. destruct (er_phase x); [exact I | apply Hm; exact Hp | exact Hp].
    - exact Hu.
    - intros j Hj. apply (jobOk_runs s); [reflexivity | exact Hb | exact Hf | exact (H5 j Hj)]. }
  cbn [setRuns es_inFlight]. destruct (es_inFlight s !! runKey r) as [u|] eqn:E.
  - replace (setRuns runs' s) with (setInFlight (es_inFlight s) (setRuns runs' s)) by reflexivity.
    apply Hkeep; [auto | rewrite E; eauto | exact H4].
  - apply (Hkeep (<[runKey r := mkUpload (er_id r) (er_userId r) Up_preparing]> (es_inFlight s))).
    + intros key [u Eu]. destruct (decide (runKey r = key)) as [<-|Hne]; [rewrite lookup_insert_eq; eauto | rewrite lookup_insert_ne by exact Hne; eauto].
    + rewrite lookup_insert_eq. eauto.
    + intros key u Hu. apply lookup_insert_Some in Hu as [[<- <-]|[_ Hu]]; [|exact (H4 key u Hu)].
      split; [reflexivity|]. split; [apply (H3 r Hin) | exact I].
Qed.

(** An upload ends. *)
Lemma inv_free s key : ExportInv s -> (forall r, In r (es_runs s) -> waitsFor key r = false) ->
  ExportInv (setInFlight (delete key (es_inFlight s)) s).
Proof.
  intros [H1 H2 H3 H4 H5] Hno. constructor; simpl; auto.
  - intros r Hr. destruct (H3 r Hr) as [Hu Hp]. split; [exact Hu|]. specialize (Hno r Hr). unfold waitsFor in Hno.
    destruct (er_phase r); [exact I | | exact Hp]. simpl. rewrite lookup_delete_ne; [exact Hp|].
    intros ->. rewrite str_eqb_refl in Hno. discriminate.
  - intros k u Hu. apply lookup_delete_Some in Hu as [_ Hu]. exact (H4 k u Hu).
Qed.

Definition failRuns (now : Z) (message : string) (l : list ExportRun) (s : ExportState) : ExportState :=
  fold_left (fun s r => finishRun now (er_job r) (inl message) s) l s.

Lemma inv_failRuns now message l : forall s, ExportInv s -> NoDup (List.map er_job l) -> (forall r, In r l -> In r (es_runs s)) ->
  ExportInv (failRuns now message l s).
Proof.
  induction l as [|r l IH]; intros s Hs Hnd Hin; [exact Hs|]. simpl in Hnd. apply NoDup_cons in Hnd as [Hr Hnd].
  simpl. apply IH; [apply inv_finish; [exact Hs | apply Hin; left; reflexivity | exact I] | exact Hnd|].
  intros x Hx. simpl. apply dropRun_in. split; [apply Hin; right; exact Hx|].
  intros E. apply Hr. rewrite <- E. apply list_elem_of_In, in_map. exact Hx.
Qed.

Lemma failRuns_runs now message l : forall s r,
  In r (es_runs (failRuns now message l s)) <-> In r (es_runs s) /\ ~ In (er_job r) (List.map er_job l).
Proof.
  induction l as [|x l IH]; intros s r; simpl; [tauto|]. unfold failRuns in *. rewrite IH. simpl. rewrite dropRun_in.
  split; intros H; [|intuition congruence]. destruct H as [[H Hne] Hno]. split; [exact H|]. intros [E|E]; [congruence | auto].
Qed.

Lemma failRuns_inFlight now message l : forall s, es_inFlight (failRuns now message l s) = es_inFlight s.
Proof.
  induction l as [|r l IH]; intros s; [reflexivity|].
  change (failRuns now message (r :: l) s) with (failRuns now message l (finishRun now (er_job r) (inl message) s)).
  rewrite IH. reflexivity.
Qed.

Lemma settle_failed now key message s :
  settleUpload now key (inl message) s =
  (let s' := failRuns now message (List.filter (waitsFor key) (es_runs s)) s in setInFlight (delete key (es_inFlight s')) s').
Proof.
  cbv zeta. rewrite failRuns_inFlight. unfold settleUpload. cbn [setInFlight es_runs].
  unfold failRuns. generalize (List.filter (waitsFor key) (es_runs s)) as l. intros l. revert s.
  induction l as [|r l IH]; intros s; [reflexivity|]. cbn [fold_left].
  change (finishRun now (er_job r) (inl message) (setInFlight (delete key (es_inFlight s)) s))
    with (setInFlight (delete key (es_inFlight (finishRun now (er_job r) (inl message) s))) (finishRun now (er_job r) (inl message) s)).
  rewrite IH. reflexivity.
Qed.

Lemma inv_settle now s key result :
  ExportInv s ->
  match result with
  | inr o => exists id userId uuid, matchesUserId userId = true /\ key = exportKey id userId /\ o = exportObjectName userId id uuid
  | inl _ => True
  end ->
  ExportInv (settleUpload now key result s).
Proof.
  intros Hs Hres. destruct result as [message|o].
  - rewrite settle_failed. cbv zeta.
    assert (Hf : ExportInv (failRuns now message (List.filter (waitsFor key) (es_runs s)) s)).
    { apply inv_failRuns; [exact Hs | apply NoDup_map_filter; apply Hs | intros r Hr; apply filter_In in Hr; tauto]. }
    apply inv_free; [exact Hf|]. intros r Hr. apply failRuns_runs in Hr as [Hr Hno].
    destruct (waitsFor key r) eqn:E; [|reflexivity]. exfalso. apply Hno. apply in_map. apply filter_In. auto.
  - unfold settleUpload. destruct Hs as [H1 H2 H3 H4 H5]. cbn [setInFlight es_runs].
    destruct (toPhase_runs (Run_signing o) (waitsFor key) (es_runs s)) as [Hb Hf].
    constructor; simpl.
    + exact H1.
    + rewrite runIds_toPhase. exact H2.
    + intros r' Hr'. apply in_update_where in Hr' as (r & Hr & ->). destruct (H3 r Hr) as [Hu Hp].
      destruct (waitsFor key r) eqn:E.
      * split; [exact Hu|]. destruct Hres as (id & userId & uuid & Hu' & -> & ->). unfold waitsFor in E.
        destruct (er_phase r); try discriminate. apply str_eqb_eq in E.
        destruct (exportKey_inj _ _ _ _ Hu Hu' E) as [Ei Eu]. exists uuid. simpl. rewrite Ei, Eu. reflexivity.
      * split; [exact Hu|]. destruct (er_phase r) eqn:Ep; [exact I | | exact Hp]. simpl. rewrite lookup_delete_ne; [exact Hp|].
        intros ->. unfold waitsFor in E. rewrite Ep, str_eqb_refl in E. discriminate.
    + intros k u Hu. apply lookup_delete_Some in Hu as [_ Hu]. exact (H4 k u Hu).
    + intros j Hj. apply (jobOk_runs s); [reflexivity | exact Hb | exact Hf | exact (H5 j Hj)].
Qed.

Lemma inv_objects s l : ExportInv s ->
  ExportInv (mkExport (es_inFlight s) (es_jobs s) (es_jobsByKey s) (es_runs s) (es_signed s) l).
Proof. intros [H1 H2 H3 H4 H5]. constructor; assumption. Qed.

Lemma inv_signed s x : ExportInv s ->
  ExportInv (mkExport (es_inFlight s) (es_jobs s) (es_jobsByKey s) (es_runs s) (es_signed s ++ [x]) (es_objects s)).
Proof.
  intros [H1 H2 H3 H4 H5]. constructor; try assumption. intros j Hj. destruct (H5 j Hj) as [Ha Hb]. split; [exact Ha|].
  destruct (sj_status j); [exact Hb | | exact I]. destruct Hb as (url & o & E & Ho & Hk). exists url, o.
  split; [exact E|]. split; [apply in_app_iff; left; exact Ho | exact Hk].
Qed.

#[local] Opaque settleUpload finishRun joinUpload.
Lemma inv_step now s ev s' :
  ExportInv s -> freshIn s ev -> wellFormed ev -> exportStep now s ev = Some s' -> ExportInv s'.
Proof.
  intros Hs Hfresh Hwf E. destruct ev as [id userId freshId|id userId jobId|jobId failure|key result|key failure|jobId result];
    cbn [exportStep freshIn wellFormed] in *.
  - injection E as <-. apply inv_start; tauto.
  - injection E as <-. apply inv_prune. exact Hs.
  - destruct (findRun jobId (es_runs s)) as [r|] eqn:Er; [|discriminate]. apply findRun_in in Er as [Hr <-].
    destruct (er_phase r) eqn:Ep; try discriminate. destruct failure as [m|]; injection E as <-.
    + apply inv_finish; [exact Hs | exact Hr | exact I].
    + apply inv_join; assumption.
  - destruct (es_inFlight s !! key) as [[id userId [|o]]|] eqn:Eu; try discriminate.
    destruct (ei_uploads s Hs key _ Eu) as (Ek & Hu & _). destruct result as [m|uuid]; injection E as <-.
    + apply inv_settle; [exact Hs | exact I].
    + apply (inv_objects (setInFlight _ s)). destruct Hs as [H1 H2 H3 H4 H5]. constructor; simpl; auto.
      * intros r Hr. destruct (H3 r Hr) as [Hru Hp]. split; [exact Hru|]. destruct (er_phase r); [exact I | | exact Hp].
        simpl. destruct (decide (key = runKey r)) as [<-|Hne]; [rewrite lookup_insert_eq; eauto | rewrite lookup_insert_ne by exact Hne; exact Hp].
      * intros k u Hk. apply lookup_insert_Some in Hk as [[<- <-]|[_ Hk]]; [|exact (H4 k u Hk)].
        split; [exact Ek|]. split; [exact Hu|]. simpl. eauto.
  - destruct (es_inFlight s !! key) as [[id userId [|o]]|] eqn:Eu; try discriminate.
    destruct (ei_uploads s Hs key _ Eu) as (Ek & Hu & uuid & Eo). simpl in *. destruct failure as [[m deleted]|]; injection E as <-.
    + apply inv_settle; [|exact I]. destruct deleted; [apply inv_objects; exact Hs | exact Hs].
    + apply inv_settle; [exact Hs|]. exists id, userId, uuid. auto.
  - destruct (findRun jobId (es_runs s)) as [r|] eqn:Er; [|discriminate]. apply findRun_in in Er as [Hr <-].
    destruct (er_phase r) as [| |o] eqn:Ep; try discriminate. injection E as <-.
    destruct (ei_runs s Hs r Hr) as [Hu Hp]. rewrite Ep in Hp. destruct result as [m|url].
    + apply inv_finish; [exact Hs | exact Hr | exact I].
    + apply inv_finish; [apply inv_signed; exact Hs | exact Hr|]. exists o. split; [apply in_app_iff; right; left; reflexivity | exact Hp].
Qed.
#[local] Transparent settleUpload finishRun joinUpload.

Lemma noExports_inv : ExportInv noExports.
Proof.
  constructor; simpl; try (intros _ []); [apply NoDup_nil_2 | apply NoDup_nil_2|].
  intros key u H. rewrite lookup_empty in H. discriminate.
Qed.

Lemma reaches_inv s : exportReaches s -> ExportInv s.
Proof. induction 1; [apply noExports_inv | eapply inv_step; eassumption]. Qed.

(** Whoever asks with whatever job id, a user is only ever given a link that was
    signed for an export of their own bot: the jobs of other users and bots are not
    found, and a job that joined another's upload joined one of the same user's and
    bot's. *)
Theorem export_links_private (s : ExportState) (now : Z) (id userId jobId job url : string) (s' : ExportState)
  (Hs : exportReaches s) (Hu : matchesUserId userId = true)
  (Hg : getDownloadJob now id userId jobId s = (Some (Export_ready job url), s')) :
  exists uuid, In (url, exportObjectName userId id uuid) (es_signed s).
Proof.
  apply reaches_inv, (inv_prune now) in Hs. unfold getDownloadJob in Hg.
  destruct (findJob jobId (es_jobs (pruneExpired now s))) as [j|] eqn:Ej; [|discriminate].
  destruct (str_eqb (sj_key j) (exportKey id userId)) eqn:Ek; [|discriminate]. apply str_eqb_eq in Ek.
  injection Hg as Hj _. unfold toJob in Hj. apply findJob_in in Ej as [Hin _].
  destruct (ei_jobs _ Hs j Hin) as [_ Hst]. destruct (sj_status j); [discriminate | | discriminate].
  destruct Hst as (url' & o & Eu & Ho & id' & userId' & uuid & Hu' & Ek' & ->). rewrite Eu in Hj.
  destruct (exportKey_inj id' userId' id userId Hu' Hu) as [-> ->]; [congruence|].
  assert (url' = url) as -> by (destruct url'; simpl in Hj; [discriminate | injection Hj as _ <-; reflexivity]).
  exists uuid. exact Ho.
Qed.

(** ** No job is stuck *)
Lemma findJob_of s j : ExportInv s -> In j (es_jobs s) -> findJob (sj_id j) (es_jobs s) = Some j.
Proof.
  intros Hs Hj. unfold findJob. destruct (List.find _ (es_jobs s)) as [j'|] eqn:E.
  - apply List.find_some in E as [Hj' E]. apply str_eqb_eq in E. f_equal. exact (NoDup_key_inj sj_id _ j' j (ei_ids s Hs) Hj' Hj E).
  - exfalso. apply (find_none _ _ E) in Hj. rewrite str_eqb_refl in Hj. discriminate.
Qed.
Lemma findRun_of s r : ExportInv s -> In r (es_runs s) -> findRun (er_job r) (es_runs s) = Some r.
Proof.
  intros Hs Hr. unfold findRun. destruct (List.find _ (es_runs s)) as [r'|] eqn:E.
  - apply List.find_some in E as [Hr' E]. apply str_eqb_eq in E. f_equal. exact (NoDup_key_inj er_job _ r' r (ei_runIds s Hs) Hr' Hr E).
  - exfalso. apply (find_none _ _ E) in Hr. rewrite str_eqb_refl in Hr. discriminate.
Qed.

(** The answers a run still waits for, all of them good. *)
Definition goodAnswers (s : ExportState) (r : ExportRun) (uuid url : string) : list ExportEvent :=
  let uploading := [Ev_uploaded (runKey r) None; Ev_signed (er_job r) (inr url)] in
  let upload := match es_inFlight s !! runKey r with
                | Some (mkUpload _ _ (Up_uploading _)) => uploading
                | _ => Ev_prepared (runKey r) (inr uuid) :: uploading
                end in
  match er_phase r with
  | Run_checking => Ev_checked (er_job r) None :: upload
  | Run_joined => upload
  | Run_signing _ => [Ev_signed (er_job r) (inr url)]
  end.

Fixpoint exportRun (now : Z) (evs : list ExportEvent) (s : ExportState) : option ExportState :=
  match evs with
  | [] => Some s
  | ev :: evs => match exportStep now s ev with Some s' => exportRun now evs s' | None => None end
  end.

(** The job [j] is kept and pending, and its run is [r]. *)
Definition Waiting (s : ExportState) (j : StoredExportJob) (r : ExportRun) : Prop :=
  ExportInv s /\ In j (es_jobs s) /\ In r (es_runs s) /\ er_job r = sj_id j.

Definition Served (now : Z) (evs : list ExportEvent) (s : ExportState) (j : StoredExportJob) (url : string) : Prop :=
  exists s' j', exportRun now evs s = Some s' /\ findJob (sj_id j) (es_jobs s') = Some j' /\
    sj_status j' = Job_ready /\ sj_downloadUrl j' = Some url.

Lemma served_signing now s j r o url : Waiting s j r -> er_phase r = Run_signing o ->
  Served now [Ev_signed (er_job r) (inr url)] s j url.
Proof.
  intros (Hs & Hj & Hr & E) Hp. unfold Served, exportRun, exportStep. rewrite (findRun_of s r Hs Hr), Hp.
  eexists _, _. split; [reflexivity|]. simpl. split; [|split; [|]]; cycle 1.
  - instantiate (1 := settledJob now (inr url) j). reflexivity.
  - reflexivity.
  - unfold findJob. rewrite find_update_where; [|intros x; reflexivity].
    pose proof (findJob_of s j Hs Hj) as Hf. unfold findJob in Hf. rewrite Hf, E, str_eqb_refl. reflexivity.
Qed.

Lemma served_step now ev evs s s' j url : exportStep now s ev = Some s' -> Served now evs s' j url -> Served now (ev :: evs) s j url.
Proof. intros E (s2 & j2 & H). exists s2, j2. simpl. rewrite E. exact H. Qed.

Lemma served_uploading now s j r u o url : Waiting s j r -> er_phase r = Run_joined ->
  es_inFlight s !! runKey r = Some u -> up_phase u = Up_uploading o ->
  Served now [Ev_uploaded (runKey r) None; Ev_signed (er_job r) (inr url)] s j url.
Proof.
  intros (Hs & Hj & Hr & E) Hp Hu Hph. destruct u as [id userId ph]. simpl in Hph. subst ph.
  assert (Est : exportStep now s (Ev_uploaded (runKey r) None) = Some (settleUpload now (runKey r) (inr o) s)).
  { simpl. rewrite Hu. reflexivity. }
  eapply served_step; [exact Est|].
  apply (served_signing now _ j (toPhase (Run_signing o) r) o url); [|reflexivity].
  split; [exact (inv_step now s (Ev_uploaded (runKey r) None) _ Hs I I Est)|]. split; [exact Hj|]. split; [|exact E].
  simpl. apply in_update_where. exists r. split; [exact Hr|]. unfold waitsFor. rewrite Hp, str_eqb_refl. reflexivity.
Qed.

Lemma served_preparing now s j r u uuid url : Waiting s j r -> er_phase r = Run_joined ->
  es_inFlight s !! runKey r = Some u -> up_phase u = Up_preparing ->
  Served now (Ev_prepared (runKey r) (inr uuid) :: [Ev_uploaded (runKey r) None; Ev_signed (er_job r) (inr url)]) s j url.
Proof.
  intros (Hs & Hj & Hr & E) Hp Hu Hph. destruct u as [id userId ph]. simpl in Hph. subst ph.
  assert (Est : exists s', exportStep now s (Ev_prepared (runKey r) (inr uuid)) = Some s' /\ es_jobs s' = es_jobs s /\
    es_runs s' = es_runs s /\ es_inFlight s' !! runKey r = Some (mkUpload id userId (Up_uploading (exportObjectName userId id uuid)))).
  { eexists. cbn [exportStep]. rewrite Hu. split; [reflexivity|]. split; [reflexivity|]. split; [reflexivity|].
    simpl. apply lookup_insert_eq. }
  destruct Est as (s' & Est & Ej & Er & Eu). eapply served_step; [exact Est|].
  eapply served_uploading; [|exact Hp | exact Eu | reflexivity]. rewrite <- Ej in Hj. rewrite <- Er in Hr.
  split; [exact (inv_step now s (Ev_prepared (runKey r) (inr uuid)) s' Hs I I Est)|]. auto.
Qed.

Lemma served_joined now s j r uuid url : Waiting s j r -> er_phase r = Run_joined ->
  Served now (goodAnswers s r uuid url) s j url.
Proof.
  intros Hw Hp. unfold goodAnswers. rewrite Hp. destruct (ei_runs s (proj1 Hw) r) as [_ Hu]; [apply Hw|]. rewrite Hp in Hu.
  destruct Hu as [u Hu]. rewrite Hu. destruct u as [id userId [|o]].
  - eapply served_preparing; eauto; reflexivity.
  - eapply served_uploading; eauto; reflexivity.
Qed.

(** No download waits for ever on a lost promise: a pending job always has a run,
    and the answers its run waits for - the check, the archive, the upload it may share
    with others, the signature, four at most - are all the job needs to be ready with
    its link. *)
Theorem export_served (s : ExportState) (now : Z) (j : StoredExportJob) (uuid url : string)
  (Hs : exportReaches s) (Hj : In j (es_jobs s)) (Hp : sj_status j = Job_pending) :
  exists r, In r (es_runs s) /\ er_job r = sj_id j /\ (length (goodAnswers s r uuid url) <= 4)%nat /\
    Served now (goodAnswers s r uuid url) s j url.
Proof.
  apply reaches_inv in Hs. destruct (ei_jobs s Hs j Hj) as [_ Hst]. rewrite Hp in Hst. destruct Hst as (r & Hr & E).
  exists r. split; [exact Hr|]. split; [exact E|]. split.
  { unfold goodAnswers. destruct (er_phase r), (es_inFlight s !! runKey r) as [[? ? [|]]|]; simpl; lia. }
  assert (Hw : Waiting s j r) by (unfold Waiting; auto). unfold goodAnswers. destruct (er_phase r) as [| |o] eqn:Ep.
  - assert (Est : exportStep now s (Ev_checked (er_job r) None) = Some (joinUpload r s)).
    { simpl. rewrite (findRun_of s r Hs Hr), Ep. reflexivity. }
    eapply served_step; [exact Est|].
    assert (Hw' : Waiting (joinUpload r s) j (toPhase Run_joined r)).
    { split; [exact (inv_step now s (Ev_checked (er_job r) None) _ Hs I I Est)|].
      assert (Ej : es_jobs (joinUpload r s) = es_jobs s) by (unfold joinUpload; destruct (es_inFlight _ !! runKey r); reflexivity).
      assert (Er : es_runs (joinUpload r s) = update_where (fun x => str_eqb (er_job x) (er_job r)) (toPhase Run_joined) (es_runs s))
        by (unfold joinUpload; destruct (es_inFlight _ !! runKey r); reflexivity).
      rewrite Ej, Er. split; [exact Hj|]. split; [|exact E]. apply in_update_where. exists r. rewrite str_eqb_refl. auto. }
    pose proof (served_joined now _ j _ uuid url Hw' eq_refl) as H. unfold goodAnswers in H. cbn [toPhase er_phase er_job] in H.
    assert (Ek : runKey (toPhase Run_joined r) = runKey r) by reflexivity. rewrite Ek in H.
    assert (Ei : match es_inFlight (joinUpload r s) !! runKey r with Some (mkUpload _ _ (Up_uploading _)) => true | _ => false end =
                 match es_inFlight s !! runKey r with Some (mkUpload _ _ (Up_uploading _)) => true | _ => false end).
    { unfold joinUpload. cbn [setRuns es_inFlight]. destruct (es_inFlight s !! runKey r) eqn:Eu; cbn [setInFlight es_inFlight];
        [cbn [setRuns es_inFlight]; rewrite Eu; reflexivity | rewrite lookup_insert_eq; reflexivity]. }
    destruct (es_inFlight s !! runKey r) as [[? ? [|]]|], (es_inFlight (joinUpload r s) !! runKey r) as [[? ? [|]]|];
      try discriminate; exact H.
  - pose proof (served_joined now s j r uuid url Hw Ep) as H. unfold goodAnswers in H. rewrite Ep in H. exact H.
  - eapply served_signing; eassumption.
Qed.

(** *** A run of the manager *)
Definition ranFrom (s : ExportState) (evs : list ExportEvent) : ExportState := default noExports (exportRun 1000 evs s).

Definition simFirst : ExportState := Eval vm_compute in ranFrom noExports [Ev_start "bot" "alice" "j1"].
Definition simSecond : ExportState := Eval vm_compute in ranFrom simFirst [Ev_checked "j1" None; Ev_start "bot" "bob" "j2"].
Definition simExports : ExportState := Eval vm_compute in
  ranFrom simSecond [Ev_checked "j2" None; Ev_prepared "alice:bot" (inr "u1"); Ev_uploaded "alice:bot" None;
    Ev_signed "j1" (inr "https://signed/1")].

Lemma reaches_run s now ev evs s' :
  exportReaches s -> freshIn s ev -> wellFormed ev ->
  Forall (fun ev => match ev with Ev_start _ _ _ => False | _ => True end) evs ->
  exportRun now (ev :: evs) s = Some s' -> exportReaches s'.
Proof.
  revert s ev. induction evs as [|ev' evs IH]; intros s ev Hs Hf Hw Hev E; simpl in E;
    destruct (exportStep now s ev) as [s1|] eqn:E1; try discriminate.
  - injection E as <-. exact (er_step s now ev s1 Hs Hf Hw E1).
  - apply Forall_cons in Hev as [Hev' Hev]. apply (IH s1 ev'); [exact (er_step s now ev s1 Hs Hf Hw E1) | | | exact Hev | exact E];
      (destruct ev'; [destruct Hev' | exact I..]).
Qed.

Lemma simExports_reached : exportReaches simExports.
Proof.
  assert (H1 : exportReaches simFirst).
  { apply (reaches_run noExports 1000 (Ev_start "bot" "alice" "j1") []);
      [apply er_init | split; intros [] | reflexivity | constructor | vm_compute; reflexivity]. }
  assert (H2 : exists s, exportStep 1000 simFirst (Ev_checked "j1" None) = Some s /\ exportReaches s /\
    exportStep 1000 s (Ev_start "bot" "bob" "j2") = Some simSecond /\ freshIn s (Ev_start "bot" "bob" "j2")).
  { eexists. split; [vm_compute; reflexivity|].
    split; [eapply (er_step simFirst 1000 (Ev_checked "j1" None)); [exact H1 | exact I | exact I | vm_compute; reflexivity]|].
    split; [vm_compute; reflexivity|]. split; intros H; vm_compute in H; intuition discriminate. }
  destruct H2 as (s & _ & Hs & E & Hf).
  assert (H3 : exportReaches simSecond) by exact (er_step s 1000 _ simSecond Hs Hf eq_refl E).
  apply (reaches_run simSecond 1000 (Ev_checked "j2" None) [Ev_prepared "alice:bot" (inr "u1"); Ev_uploaded "alice:bot" None;
    Ev_signed "j1" (inr "https://signed/1")]); [exact H3 | exact I | exact I | repeat constructor | vm_compute; reflexivity].
Qed.

Lemma export_links_private_witness :
  exists s' uuid, getDownloadJob 2000 "bot" "alice" "j1" simExports = (Some (Export_ready "j1" "https://signed/1"), s') /\
    In ("https://signed/1", exportObjectName "alice" "bot" uuid) (es_signed simExports).
Proof.
  set (s' := (getDownloadJob 2000 "bot" "alice" "j1" simExports).2).
  assert (E : getDownloadJob 2000 "bot" "alice" "j1" simExports = (Some (Export_ready "j1" "https://signed/1"), s'))
    by (vm_compute; reflexivity).
  destruct (export_links_private simExports 2000 "bot" "alice" "j1" "j1" "https://signed/1" s' simExports_reached eq_refl E)
    as [uuid H].
  exists s', uuid. split; [exact E | exact H].
Defined.

Lemma export_served_witness :
  exists j r, In j (es_jobs simExports) /\ sj_id j = "j2" /\ In r (es_runs simExports) /\
    Served 2000 (goodAnswers simExports r "u2" "https://signed/2") simExports j "https://signed/2".
Proof.
  destruct (export_served simExports 2000 (mkStoredJob "j2" "bob:bot" Job_pending None None 901000) "u2" "https://signed/2"
    simExports_reached) as (r & Hr & _ & _ & H); [right; left; reflexivity | reflexivity|].
  exists (mkStoredJob "j2" "bob:bot" Job_pending None None 901000), r.
  split; [right; left; reflexivity|]. split; [reflexivity|]. split; [exact Hr | exact H].
Defined.
