(* ===== verification/CloudInbox.v ===== *)
(** The WhatsApp Business tables and their two repositories:
    [packages/db/src/schema/whatsapp-cloud.ts], the orchestrator's
    [storage/whatsapp-cloud-repository.ts] and the webhook's
    [web/src/lib/whatsapp-cloud/repository.ts], with the constants and types of
    [domain/whatsapp-cloud.ts].

    Each SQL statement, and each [db.transaction], is a function of the tables.
    [now] is the instant of the statement: the database's [now()] and the
    [new Date()] of the method, taken to agree.  The column of the PIN holds the
    PIN; its encryption is not modelled.  [cd_statuses] is the part of the
    instances table these statements join with. *)
From Stdlib Require Import Ascii.
From S2P Require Import Prelude JsString Json Fleet.
From stdpp Require Import list strings.
#[local] Open Scope Z_scope.

(** ** domain/whatsapp-cloud.ts *)
Definition CUSTOMER_WINDOW_MS : Z := 24 * 60 * 60 * 1000.
Definition INBOX_LEASE_MS : Z := 60000.
Definition INBOX_DROP_AFTER_MS : Z := 7 * 24 * 60 * 60 * 1000.
Definition INBOX_RETAIN_ACKED_MS : Z := 8 * 24 * 60 * 60 * 1000.
Definition CONVERSATION_RETENTION_MS : Z := 30 * 24 * 60 * 60 * 1000.
Definition SENDS_RETENTION_MS : Z := 90 * 24 * 60 * 60 * 1000.
Definition OWNER_HOLD_MS : Z := 24 * 60 * 60 * 1000.
Definition INBOX_MAX_BATCH : nat := 50.
Definition INBOX_BACKLOG_WARN_MS : Z := 60 * 60 * 1000.
Definition WHATSAPP_CLOUD_OWNER_ECHO_KIND : string := "owner_echo".
Definition WHATSAPP_CLOUD_PARTNER_REMOVED_KIND : string := "partner_removed".

Inductive ConversationMode := Mode_bot | Mode_human.
Inductive SendKind := Send_reply | Send_owner.
Inductive AppDataSyncType := Sync_app_state | Sync_history.

#[export] Instance ConversationMode_eq_dec : EqDecision ConversationMode.
Proof. solve_decision. Defined.
#[export] Instance SendKind_eq_dec : EqDecision SendKind.
Proof. solve_decision. Defined.

Definition APP_DATA_SYNC_TYPES : list AppDataSyncType := [Sync_app_state; Sync_history].

(** [/^\d{n,m}$/]. *)
Definition digitsBetween (n m : Z) (s : string) : bool :=
  allChars isDigit s && (n <=? Z.of_nat (String.length s)) && (Z.of_nat (String.length s) <=? m).
Definition matchesWaId : string -> bool := digitsBetween 6 20.
Definition matchesPhoneNumberId : string -> bool := digitsBetween 1 64.

(** [InboxItem]: a customer's message, the owner's answer from the app, or the
    removal of our app.  An id is its number. *)
Inductive InboxItem :=
| It_message (id : Z) (wamid from : string) (profileName : option string) (timestamp : Z)
    (message : list (string * Json))
| It_owner_echo (id : Z) (wamid to : string) (timestamp : Z)
| It_partner_removed (id : Z) (wamid wabaId : string) (timestamp : Z).

Definition item_id (i : InboxItem) : Z :=
  match i with It_message id _ _ _ _ _ | It_owner_echo id _ _ _ | It_partner_removed id _ _ _ => id end.
Definition item_timestamp (i : InboxItem) : Z :=
  match i with It_message _ _ _ _ t _ | It_owner_echo _ _ _ t | It_partner_removed _ _ _ t => t end.

Record Conversation := mkConversation {
  cv_instanceId : string;
  cv_waId : string;
  cv_profileName : option string;
  cv_lastInboundAt : option Z;
  cv_lastOutboundAt : option Z;
  cv_mode : ConversationMode;
  cv_heldUntil : option Z;
  cv_modeChangedAt : option Z;
  cv_updatedAt : Z;
}.

Definition isHeldByOwner (c : Conversation) (now : Z) : bool :=
  bool_decide (cv_mode c = Mode_human) &&
  match cv_heldUntil c with None => true | Some t => now <? t end.

Definition isWithinCustomerWindow (lastInboundAt : option Z) (now : Z) : bool :=
  match lastInboundAt with Some t => now - t <? CUSTOMER_WINDOW_MS | None => false end.

(** ** The tables *)
Record InboxRow := mkInboxRow {
  ib_id : Z;
  ib_wamid : string;
  ib_instanceId : string;
  ib_waTimestamp : Z;
  ib_payload : option Json;
  ib_receivedAt : Z;
  ib_attempts : Z;
  ib_leasedUntil : option Z;
  ib_ackedAt : option Z;
  ib_droppedAt : option Z;
}.

Record SendRow := mkSendRow {
  sr_instanceId : string; sr_waId : string; sr_wamid : option string; sr_kind : SendKind; sr_createdAt : Z }.

Record NumberRow := mkNumberRow {
  nr_phoneNumberId : string;
  nr_instanceId : option string;
  nr_wabaId : string;
  nr_pin : option string;
  nr_contactsSyncedAt : option Z;
  nr_historySyncedAt : option Z;
  nr_updatedAt : Z;
}.

Record CloudDb := mkCloudDb {
  cd_nextId : Z;
  cd_inbox : list InboxRow;
  cd_convs : list Conversation;
  cd_sends : list SendRow;
  cd_numbers : list NumberRow;
  cd_statuses : list (string * InstanceStatus);
}.

Definition setInbox (l : list InboxRow) (d : CloudDb) : CloudDb :=
  mkCloudDb (cd_nextId d) l (cd_convs d) (cd_sends d) (cd_numbers d) (cd_statuses d).
Definition setConvs (l : list Conversation) (d : CloudDb) : CloudDb :=
  mkCloudDb (cd_nextId d) (cd_inbox d) l (cd_sends d) (cd_numbers d) (cd_statuses d).
Definition setSends (l : list SendRow) (d : CloudDb) : CloudDb :=
  mkCloudDb (cd_nextId d) (cd_inbox d) (cd_convs d) l (cd_numbers d) (cd_statuses d).
Definition setNumbers (l : list NumberRow) (d : CloudDb) : CloudDb :=
  mkCloudDb (cd_nextId d) (cd_inbox d) (cd_convs d) (cd_sends d) l (cd_statuses d).

Definition GONE_STATUSES : list InstanceStatus := [I_destroying; I_destroyed].
Definition statusOf (id : string) (d : CloudDb) : option InstanceStatus :=
  option_map snd (List.find (fun p => str_eqb p.1 id) (cd_statuses d)).

(** [goneInstances()]: the ids with a gone status. *)
Definition isGone (id : string) (d : CloudDb) : bool :=
  match statusOf id d with Some s => oneOf GONE_STATUSES s | None => false end.

(** ** The webhook's repository *)
Inductive InboundKind := In_message | In_owner_echo | In_partner_removed.

#[export] Instance InboundKind_eq_dec : EqDecision InboundKind.
Proof. solve_decision. Defined.

Record InboundRow := mkInboundRow {
  iw_kind : InboundKind;
  iw_wamid : string;
  iw_instanceId : string;
  iw_waId : option string;
  iw_profileName : option string;
  iw_waTimestamp : Z;
  iw_receivedAt : Z;
  iw_payload : list (string * Json);
}.

Definition boundTo (p : NumberRow -> bool) (d : CloudDb) : list string :=
  omap (fun n =>
    match nr_instanceId n with
    | Some id =>
        match statusOf id d with
        | Some s => if p n && negb (oneOf GONE_STATUSES s) then Some id else None
        | None => None
        end
    | None => None
    end) (cd_numbers d).

Definition findInstanceIdByPhoneNumberId (phoneNumberId : string) (d : CloudDb) : option string :=
  List.hd_error (boundTo (fun n => str_eqb (nr_phoneNumberId n) phoneNumberId) d).
Definition findInstanceIdsByWabaId (wabaId : string) (d : CloudDb) : list string :=
  boundTo (fun n => str_eqb (nr_wabaId n) wabaId) d.

Definition hasWamid (wamid : string) (r : InboxRow) : bool := str_eqb (ib_wamid r) wamid.

(** [INSERT ... ON CONFLICT (wamid) DO NOTHING RETURNING wamid]: the sequence also
    advances for a row that conflicts. *)
Definition insertOne (now : Z) (acc : CloudDb * list string) (row : InboundRow) : CloudDb * list string :=
  let '(d, fresh) := acc in
  let d' := mkCloudDb (cd_nextId d + 1) (cd_inbox d) (cd_convs d) (cd_sends d) (cd_numbers d) (cd_statuses d) in
  if List.existsb (hasWamid (iw_wamid row)) (cd_inbox d) then (d', fresh)
  else
    (setInbox (cd_inbox d ++ [mkInboxRow (cd_nextId d) (iw_wamid row) (iw_instanceId row) (iw_waTimestamp row)
                                (Some (JObj (iw_payload row))) now 0 None None None]) d',
     fresh ++ [iw_wamid row]).

Definition omax (a b : option Z) : option Z :=
  match a, b with
  | Some x, Some y => Some (Z.max x y)
  | Some x, None => Some x
  | None, y => y
  end.

Definition isConv (instanceId waId : string) (c : Conversation) : bool :=
  str_eqb (cv_instanceId c) instanceId && str_eqb (cv_waId c) waId.

(** [INSERT ... ON CONFLICT DO UPDATE] of a conversation row. *)
Definition upsertConv (fresh : Conversation) (merge : Conversation -> Conversation) (d : CloudDb) : CloudDb :=
  let p := isConv (cv_instanceId fresh) (cv_waId fresh) in
  if List.existsb p (cd_convs d) then setConvs (update_where p merge (cd_convs d)) d
  else setConvs (cd_convs d ++ [fresh]) d.

Definition sqlCoalesce {A} (a b : option A) : option A := match a with Some _ => a | None => b end.

Definition mergeInbound (row : InboundRow) (c : Conversation) : Conversation :=
  mkConversation (cv_instanceId c) (cv_waId c) (sqlCoalesce (iw_profileName row) (cv_profileName c))
    (omax (cv_lastInboundAt c) (Some (iw_receivedAt row))) (cv_lastOutboundAt c) (cv_mode c)
    (cv_heldUntil c) (cv_modeChangedAt c) (Z.max (cv_updatedAt c) (iw_receivedAt row)).

Definition noteInbound (fresh : list string) (d : CloudDb) (row : InboundRow) : CloudDb :=
  match iw_waId row with
  | Some waId =>
      if List.existsb (str_eqb (iw_wamid row)) fresh && bool_decide (iw_kind row = In_message)
      then upsertConv
             (mkConversation (iw_instanceId row) waId (iw_profileName row) (Some (iw_receivedAt row)) None
                Mode_bot None None (iw_receivedAt row))
             (mergeInbound row) d
      else d
  | None => d
  end.

Definition waIdKey (row : InboundRow) : string := default EmptyString (iw_waId row).
Definition byWaIdLeb (a b : InboundRow) : bool := String.leb (waIdKey a) (waIdKey b).

(** The transaction, the count it returns, and the bots it notifies. *)
Definition enqueue (now : Z) (rows : list InboundRow) (d : CloudDb) : (Z * list string) * CloudDb :=
  match rows with
  | [] => ((0, []), d)
  | _ =>
      let '(d1, fresh) := fold_left (insertOne now) rows (d, []) in
      let woken := remove_dups (List.map iw_instanceId
        (List.filter (fun r => List.existsb (str_eqb (iw_wamid r)) fresh) rows)) in
      ((Z.of_nat (length fresh), woken), fold_left (noteInbound fresh) (isort byWaIdLeb rows) d1)
  end.

(** ** The orchestrator's repository: numbers *)
Record NumberRecord := mkNumberRecord {
  nu_phoneNumberId : string;
  nu_instanceId : option string;
  nu_wabaId : string;
  nu_pin : option string;
  nu_appDataSynced : list AppDataSyncType;
}.

Record NumberBinding := mkNumberBinding {
  nb_phoneNumberId : string; nb_instanceId : string; nb_wabaId : string; nb_pin : option string }.

Definition syncedAt (n : NumberRow) (s : AppDataSyncType) : option Z :=
  match s with Sync_history => nr_historySyncedAt n | Sync_app_state => nr_contactsSyncedAt n end.

Definition isNumber (phoneNumberId : string) (n : NumberRow) : bool := str_eqb (nr_phoneNumberId n) phoneNumberId.

(** The bot a number is bound to, when that bot is there and not going. *)
Definition liveBinding (n : NumberRow) (d : CloudDb) : option string :=
  match nr_instanceId n with
  | Some id =>
      match statusOf id d with
      | Some s => if oneOf GONE_STATUSES s then None else Some id
      | None => None
      end
  | None => None
  end.

Definition findNumber (phoneNumberId : string) (d : CloudDb) : option NumberRecord :=
  option_map (fun n =>
    mkNumberRecord (nr_phoneNumberId n) (liveBinding n d) (nr_wabaId n) (nr_pin n)
      (List.filter (fun s => match syncedAt n s with Some _ => true | None => false end) APP_DATA_SYNC_TYPES))
    (List.find (isNumber phoneNumberId) (cd_numbers d)).

Definition boundRow (now : Z) (b : NumberBinding) (n : NumberRow) : NumberRow :=
  mkNumberRow (nr_phoneNumberId n) (Some (nb_instanceId b)) (nb_wabaId b) (nb_pin b)
    (nr_contactsSyncedAt n) (nr_historySyncedAt n) now.

Definition holdsNumber (instanceId : string) (n : NumberRow) : bool := ostr_eqb (nr_instanceId n) (Some instanceId).

(** [setWhere]: the number is free, ours, or a gone bot's. *)
Definition mayClaim (b : NumberBinding) (d : CloudDb) (n : NumberRow) : bool :=
  match nr_instanceId n with
  | None => true
  | Some id => str_eqb id (nb_instanceId b) || isGone id d
  end.

(** The unique index on [instance_id] fails the statement when another number of
    the bot would keep it. *)
Definition bindNumber (now : Z) (b : NumberBinding) (d : CloudDb) : (OrchError + unit) * CloudDb :=
  let p := isNumber (nb_phoneNumberId b) in
  let taken := List.existsb (fun n => negb (p n) && holdsNumber (nb_instanceId b) n) (cd_numbers d) in
  match List.find p (cd_numbers d) with
  | None =>
      if taken then (inl (ConflictError "this bot already has a WhatsApp Business number"), d)
      else (inr tt, setNumbers (cd_numbers d ++
             [mkNumberRow (nb_phoneNumberId b) (Some (nb_instanceId b)) (nb_wabaId b) (nb_pin b) None None now]) d)
  | Some n =>
      if negb (mayClaim b d n) then (inl (ConflictError "this WhatsApp number is already connected to a bot"), d)
      else if taken then (inl (ConflictError "this bot already has a WhatsApp Business number"), d)
      else (inr tt, setNumbers (update_where p (boundRow now b) (cd_numbers d)) d)
  end.

Definition withSynced (s : AppDataSyncType) (at_ : Z) (n : NumberRow) : NumberRow :=
  match s with
  | Sync_history => mkNumberRow (nr_phoneNumberId n) (nr_instanceId n) (nr_wabaId n) (nr_pin n)
                      (nr_contactsSyncedAt n) (Some at_) at_
  | Sync_app_state => mkNumberRow (nr_phoneNumberId n) (nr_instanceId n) (nr_wabaId n) (nr_pin n)
                      (Some at_) (nr_historySyncedAt n) at_
  end.

Definition markAppDataSynced (phoneNumberId : string) (s : AppDataSyncType) (at_ : Z) (d : CloudDb) : CloudDb :=
  setNumbers (update_where (isNumber phoneNumberId) (withSynced s at_) (cd_numbers d)) d.

Definition clearAppDataSync (now : Z) (phoneNumberId : string) (d : CloudDb) : CloudDb :=
  setNumbers (update_where (isNumber phoneNumberId)
    (fun n => mkNumberRow (nr_phoneNumberId n) (nr_instanceId n) (nr_wabaId n) (nr_pin n) None None now)
    (cd_numbers d)) d.

Definition unbound (now : Z) (n : NumberRow) : NumberRow :=
  mkNumberRow (nr_phoneNumberId n) None (nr_wabaId n) (nr_pin n) (nr_contactsSyncedAt n) (nr_historySyncedAt n) now.

Definition releaseNumber (now : Z) (instanceId : string) (d : CloudDb) : CloudDb :=
  setNumbers (update_where (holdsNumber instanceId) (unbound now) (cd_numbers d)) d.

(** ** The inbox *)
Record LeasedMessage := mkLeased { lm_instanceId : string; lm_item : InboxItem }.

Definition isPending (r : InboxRow) : bool :=
  match ib_ackedAt r, ib_droppedAt r with None, None => true | _, _ => false end.

Definition leasable (now : Z) (locked : Z -> bool) (instanceId : string) (r : InboxRow) : bool :=
  str_eqb (ib_instanceId r) instanceId && isPending r && negb (locked (ib_id r)) &&
  match ib_leasedUntil r with None => true | Some t => t <? now end.

(** [ORDER BY wa_timestamp, id]. *)
Definition rowLeb (a b : InboxRow) : bool :=
  (ib_waTimestamp a <? ib_waTimestamp b) ||
  ((ib_waTimestamp a =? ib_waTimestamp b) && (ib_id a <=? ib_id b)).

(** The rows picked for one waiting bot; [locked] are those another transaction
    holds, which [SKIP LOCKED] passes over. *)
Definition pickFor (now : Z) (locked : Z -> bool) (limit : nat) (d : CloudDb) (instanceId : string) : list Z :=
  List.map ib_id (take limit (isort rowLeb (List.filter (leasable now locked instanceId) (cd_inbox d)))).

Definition inIds (ids : list Z) (r : InboxRow) : bool := List.existsb (Z.eqb (ib_id r)) ids.

Definition leased (leasedUntil : Z) (r : InboxRow) : InboxRow :=
  mkInboxRow (ib_id r) (ib_wamid r) (ib_instanceId r) (ib_waTimestamp r) (ib_payload r) (ib_receivedAt r)
    (ib_attempts r + 1) (Some leasedUntil) (ib_ackedAt r) (ib_droppedAt r).

(** The one statement of [leasePending], returning the leased rows. *)
Definition lease_stmt (now leasedUntil : Z) (locked : Z -> bool) (instanceIds : list string) (limit : nat)
  (d : CloudDb) : list InboxRow * CloudDb :=
  let picked := List.concat (List.map (pickFor now locked limit d) instanceIds) in
  (returning (inIds picked) (leased leasedUntil) (cd_inbox d),
   setInbox (update_where (inIds picked) (leased leasedUntil) (cd_inbox d)) d).

Definition jsonField (key : string) (fields : list (string * Json)) : option Json := lookupField key fields.

Definition kindOf (fields : list (string * Json)) : option string :=
  match jsonField "kind" fields with Some (JStr k) => Some k | _ => None end.

Definition toInboxItem (r : InboxRow) : option InboxItem :=
  match ib_payload r with
  | Some (JObj fields) =>
      if ostr_eqb (kindOf fields) (Some WHATSAPP_CLOUD_OWNER_ECHO_KIND) then
        match jsonField "to" fields with
        | Some (JStr to) =>
            if matchesWaId to then Some (It_owner_echo (ib_id r) (ib_wamid r) to (ib_waTimestamp r)) else None
        | _ => None
        end
      else if ostr_eqb (kindOf fields) (Some WHATSAPP_CLOUD_PARTNER_REMOVED_KIND) then
        match jsonField "wabaId" fields with
        | Some (JStr wabaId) =>
            if matchesPhoneNumberId wabaId
            then Some (It_partner_removed (ib_id r) (ib_wamid r) wabaId (ib_waTimestamp r)) else None
        | _ => None
        end
      else
        match jsonField "from" fields, jsonField "message" fields with
        | Some (JStr from), Some (JObj message) =>
            Some (It_message (ib_id r) (ib_wamid r) from
                    match jsonField "profileName" fields with Some (JStr n) => Some n | _ => None end
                    (ib_waTimestamp r) message)
        | _, _ => None
        end
  | _ => None
  end.

Definition deliveryLeb (a b : LeasedMessage) : bool :=
  (item_timestamp (lm_item a) <? item_timestamp (lm_item b)) ||
  ((item_timestamp (lm_item a) =? item_timestamp (lm_item b)) &&
   (item_id (lm_item a) <=? item_id (lm_item b))).

(** What [leasePending] makes of the returned rows: the messages in delivery
    order, and the rows that are none of the known kinds. *)
Definition leasedMessages (rows : list InboxRow) : list LeasedMessage :=
  isort deliveryLeb
    (omap (fun r => option_map (mkLeased (ib_instanceId r)) (toInboxItem r)) rows).

Definition malformedIds (rows : list InboxRow) : list Z :=
  List.map ib_id (List.filter (fun r => match toInboxItem r with None => true | Some _ => false end) rows).

Definition dropped (now : Z) (r : InboxRow) : InboxRow :=
  mkInboxRow (ib_id r) (ib_wamid r) (ib_instanceId r) (ib_waTimestamp r) None (ib_receivedAt r)
    (ib_attempts r) None (ib_ackedAt r) (Some now).

Definition drop_stmt (now : Z) (ids : list Z) (d : CloudDb) : CloudDb :=
  setInbox (update_where (inIds ids) (dropped now) (cd_inbox d)) d.

Definition acked (now : Z) (r : InboxRow) : InboxRow :=
  mkInboxRow (ib_id r) (ib_wamid r) (ib_instanceId r) (ib_waTimestamp r) None (ib_receivedAt r)
    (ib_attempts r) None (Some now) (ib_droppedAt r).

Definition ackable (instanceId : string) (ids : list Z) (r : InboxRow) : bool :=
  str_eqb (ib_instanceId r) instanceId && inIds ids r &&
  match ib_ackedAt r with None => true | Some _ => false end.

Definition ack (now : Z) (instanceId : string) (ids : list Z) (d : CloudDb) : Z * CloudDb :=
  match ids with
  | [] => (0, d)
  | _ => (Z.of_nat (length (List.filter (ackable instanceId ids) (cd_inbox d))),
          setInbox (update_where (ackable instanceId ids) (acked now) (cd_inbox d)) d)
  end.

(** ** The sweeper *)
Record SweepInput := mkSweepInput {
  sw_dropBefore : Z;
  sw_deleteAckedBefore : Z;
  sw_deleteConversationsIdleBefore : Z;
  sw_deleteSendsBefore : Z;
  sw_backlogOlderThan : Z;
}.

Definition olderThan (t : Z) (at_ : option Z) : bool := match at_ with Some a => a <? t | None => false end.

Definition sweepDrop_stmt (now : Z) (i : SweepInput) (d : CloudDb) : list InboxRow * CloudDb :=
  let p := fun r => isPending r && (ib_receivedAt r <? sw_dropBefore i) in
  (returning p (dropped now) (cd_inbox d), setInbox (update_where p (dropped now) (cd_inbox d)) d).

Definition finishedBefore (t : Z) (r : InboxRow) : bool := olderThan t (ib_ackedAt r) || olderThan t (ib_droppedAt r).

Definition sweepDelete_stmt (i : SweepInput) (d : CloudDb) : CloudDb :=
  setInbox (List.filter (fun r => negb (finishedBefore (sw_deleteAckedBefore i) r)) (cd_inbox d)) d.

Definition sweepConvs_stmt (i : SweepInput) (d : CloudDb) : CloudDb :=
  setConvs (List.filter (fun c => negb (cv_updatedAt c <? sw_deleteConversationsIdleBefore i)) (cd_convs d)) d.

Definition sweepSends_stmt (i : SweepInput) (d : CloudDb) : CloudDb :=
  setSends (List.filter (fun s => negb (sr_createdAt s <? sw_deleteSendsBefore i)) (cd_sends d)) d.

Definition boundToGone (d : CloudDb) (n : NumberRow) : bool :=
  match nr_instanceId n with Some id => isGone id d | None => false end.

Definition sweepNumbers_stmt (now : Z) (d : CloudDb) : Z * CloudDb :=
  (Z.of_nat (length (List.filter (boundToGone d) (cd_numbers d))),
   setNumbers (update_where (boundToGone d) (unbound now) (cd_numbers d)) d).

Record Backlog := mkBacklog { bl_instanceId : string; bl_pending : Z; bl_oldestReceivedAt : Z }.

(** [GROUP BY instance_id HAVING min(received_at) < t], in order of first appearance. *)
Definition backlogOf (d : CloudDb) (instanceId : string) : option Backlog :=
  match List.filter (fun r => isPending r && str_eqb (ib_instanceId r) instanceId) (cd_inbox d) with
  | [] => None
  | r :: l => Some (mkBacklog instanceId (Z.of_nat (length (r :: l)))
                     (fold_left (fun m r => Z.min m (ib_receivedAt r)) l (ib_receivedAt r)))
  end.

Definition sweepBacklog_q (i : SweepInput) (d : CloudDb) : list Backlog :=
  List.filter (fun b => bl_oldestReceivedAt b <? sw_backlogOlderThan i)
    (omap (backlogOf d) (remove_dups (List.map ib_instanceId (List.filter isPending (cd_inbox d))))).

(** ** Conversations *)
Definition findConversation (instanceId waId : string) (d : CloudDb) : option Conversation :=
  List.find (isConv instanceId waId) (cd_convs d).

Definition touchOutbound (instanceId waId : string) (at_ : Z) (d : CloudDb) : CloudDb :=
  upsertConv (mkConversation instanceId waId None None (Some at_) Mode_bot None None at_)
    (fun c => mkConversation (cv_instanceId c) (cv_waId c) (cv_profileName c) (cv_lastInboundAt c) (Some at_)
                (cv_mode c) (cv_heldUntil c) (cv_modeChangedAt c) at_) d.

(** [holdIn]: the row is read under the lock, so the values worked out from it
    are the ones written; [true] when this changed who answers. *)
Definition holdIn (instanceId waId : string) (at_ holdMs now : Z) (d : CloudDb) : bool * CloudDb :=
  let until := at_ + holdMs in
  if until <=? now then (false, d)
  else
    let current := findConversation instanceId waId d in
    let overtaken := match current with
      | Some c => match cv_modeChangedAt c with Some m => at_ <? m | None => false end
      | None => false
      end in
    if overtaken then (false, d)
    else
      let wasHeld := match current with Some c => isHeldByOwner c now | None => false end in
      let heldUntil := match current with
        | Some c =>
            if bool_decide (cv_mode c = Mode_human) && match cv_heldUntil c with None => true | _ => false end
            then None
            else Some (Z.max until (default 0 (cv_heldUntil c)))
        | None => Some (Z.max until 0)
        end in
      let modeChangedAt := match current with
        | Some c => if wasHeld then cv_modeChangedAt c else Some at_
        | None => Some at_
        end in
      (negb wasHeld,
       upsertConv (mkConversation instanceId waId None None None Mode_human heldUntil modeChangedAt now)
         (fun c => mkConversation (cv_instanceId c) (cv_waId c) (cv_profileName c) (cv_lastInboundAt c)
                     (cv_lastOutboundAt c) Mode_human heldUntil modeChangedAt (Z.max (cv_updatedAt c) now)) d).

Record OwnerEchoHold := mkEchoHold { eh_id : Z; eh_to : string; eh_at : Z }.

Definition echoLeb (a b : OwnerEchoHold) : bool := String.leb (eh_to a) (eh_to b).

Definition holdStep (instanceId : string) (holdMs now : Z) (acc : list string * CloudDb) (e : OwnerEchoHold)
  : list string * CloudDb :=
  let '(held, d) := acc in
  let '(changed, d') := holdIn instanceId (eh_to e) (eh_at e) holdMs now d in
  (if changed then held ++ [eh_to e] else held, d').

Definition applyOwnerEchoes (now : Z) (instanceId : string) (echoes : list OwnerEchoHold) (holdMs : Z)
  (d : CloudDb) : list string * CloudDb :=
  match echoes with
  | [] => ([], d)
  | _ =>
      let '(held, d1) := fold_left (holdStep instanceId holdMs now) (isort echoLeb echoes) ([], d) in
      (held, (ack now instanceId (List.map eh_id echoes) d1).2)
  end.

Definition setModeRow (now : Z) (mode : ConversationMode) (c : Conversation) : Conversation :=
  mkConversation (cv_instanceId c) (cv_waId c) (cv_profileName c) (cv_lastInboundAt c) (cv_lastOutboundAt c)
    mode None (Some now) now.

Definition setMode (now : Z) (instanceId waId : string) (mode : ConversationMode) (d : CloudDb)
  : option Conversation * CloudDb :=
  (List.hd_error (returning (isConv instanceId waId) (setModeRow now mode) (cd_convs d)),
   setConvs (update_where (isConv instanceId waId) (setModeRow now mode) (cd_convs d)) d).

Definition recordSend (now : Z) (instanceId waId wamid : string) (kind : SendKind) (d : CloudDb) : CloudDb :=
  setSends (cd_sends d ++ [mkSendRow instanceId waId (Some wamid) kind now]) d.

Definition purgeInstance (instanceId : string) (d : CloudDb) : CloudDb :=
  mkCloudDb (cd_nextId d)
    (List.filter (fun r => negb (str_eqb (ib_instanceId r) instanceId)) (cd_inbox d))
    (List.filter (fun c => negb (str_eqb (cv_instanceId c) instanceId)) (cd_convs d))
    (List.filter (fun s => negb (str_eqb (sr_instanceId s) instanceId)) (cd_sends d))
    (cd_numbers d) (cd_statuses d).
