(* ===== verification/TokenBucket.v ===== *)
(** The send rate of a WhatsApp number:
    [orchestrator/src/services/whatsapp-cloud/token-bucket.ts].

    Tokens are counted in thousandths, which makes the refill of a millisecond,
    [rate] of them, whole; the code divides in floating point. *)
From S2P Require Import Prelude.
From stdpp Require Import list strings gmap.
#[local] Open Scope Z_scope.

Definition TOKEN_BUCKET_PRUNE_AT : nat := 1000.
(** [idleMs]'s default. *)
Definition BUCKET_IDLE_MS : Z := 60000.

Record Bucket := mkBucket { bk_tokens : Z; bk_at : Z }.
Abbreviation Buckets := (gmap string Bucket).

Definition pruneIdle (idleMs now : Z) (m : Buckets) : Buckets :=
  if (size m <? TOKEN_BUCKET_PRUNE_AT)%nat then m
  else filter (fun kb => now - bk_at kb.2 <= idleMs) m.

Definition refilled (rate now : Z) (b : option Bucket) : Z :=
  match b with
  | Some b => Z.min (1000 * rate) (bk_tokens b + (now - bk_at b) * rate)
  | None => 1000 * rate
  end.

Definition take_ (rate idleMs now : Z) (key : string) (m : Buckets) : bool * Buckets :=
  let tokens := refilled rate now (m !! key) in
  if tokens <? 1000 then (false, <[key := mkBucket tokens now]> m)
  else (true, pruneIdle idleMs now (<[key := mkBucket (tokens - 1000) now]> m)).

(** Takes one after the other, each at its time, and their answers. *)
Fixpoint takes (rate idleMs : Z) (l : list (Z * string)) (m : Buckets) : list bool * Buckets :=
  match l with
  | [] => ([], m)
  | (t, key) :: l' =>
      let '(b, m1) := take_ rate idleMs t key m in
      let '(bs, m2) := takes rate idleMs l' m1 in
      (b :: bs, m2)
  end.

Section Buckets.
Context (rate idleMs : Z).
Hypothesis rate_positive : 1 <= rate.
(** A key that is dropped would be full again. *)
Hypothesis idle_refills : 1000 <= idleMs.

Definition Sound (now : Z) (m : Buckets) : Prop :=
  forall key b, m !! key = Some b -> 0 <= bk_tokens b <= 1000 * rate /\ bk_at b <= now.

(** What a key may draw at [t]; [None] and a full bucket are the same. *)
Definition level (t : Z) (key : string) (m : Buckets) : Z := refilled rate t (m !! key).

Lemma sound_empty now : Sound now ∅.
Proof. intros key b H. rewrite lookup_empty in H. discriminate. Qed.

Lemma sound_later now now' m : Sound now m -> now <= now' -> Sound now' m.
Proof. intros H Hle key b Hb. destruct (H key b Hb). split; [assumption | lia]. Qed.

Lemma level_range now m key : Sound now m -> 0 <= level now key m <= 1000 * rate.
Proof.
  intros H. unfold level, refilled. destruct (m !! key) as [b|] eqn:E; [|lia].
  destruct (H key b E) as [H1 H2]. pose proof (Z.mul_nonneg_nonneg (now - bk_at b) rate). lia.
Qed.

(** The level grows by [rate] a millisecond up to its maximum. *)
Lemma level_grows now now' m key : Sound now m -> now <= now' ->
  level now' key m = Z.min (1000 * rate) (level now key m + (now' - now) * rate).
Proof.
  clear idle_refills.
  intros H Hle. unfold level, refilled. destruct (m !! key) as [b|] eqn:E.
  - destruct (H key b E) as [H1 H2]. pose proof (Z.mul_nonneg_nonneg (now' - now) rate). nia.
  - pose proof (Z.mul_nonneg_nonneg (now' - now) rate). lia.
Qed.

Lemma sound_insert now m key tokens :
  Sound now m -> 0 <= tokens <= 1000 * rate -> Sound now (<[key := mkBucket tokens now]> m).
Proof.
  intros H Ht key' b. destruct (decide (key = key')) as [<-|Hne].
  - rewrite lookup_insert_eq. intros [= <-]. simpl. lia.
  - rewrite lookup_insert_ne by exact Hne. apply H.
Qed.

Lemma pruneIdle_lookup now m key :
  pruneIdle idleMs now m !! key = m !! key \/
  exists b, m !! key = Some b /\ idleMs < now - bk_at b /\ pruneIdle idleMs now m !! key = None.
Proof.
  unfold pruneIdle. destruct (_ <? _)%nat; [left; reflexivity|].
  destruct (m !! key) as [b|] eqn:E.
  - destruct (decide (now - bk_at b <= idleMs)).
    + left. apply map_lookup_filter_Some. auto.
    + right. exists b. split; [reflexivity|]. split; [lia|]. apply map_lookup_filter_None. right.
      intros b' Hb'. rewrite E in Hb'. injection Hb' as <-. assumption.
  - left. apply map_lookup_filter_None. left. exact E.
Qed.

Lemma sound_pruneIdle now m : Sound now m -> Sound now (pruneIdle idleMs now m).
Proof.
  intros H key b Hb. destruct (pruneIdle_lookup now m key) as [E|(b' & _ & _ & E)]; [|congruence].
  apply (H key). congruence.
Qed.

(** Dropping idle keys cannot be noticed. *)
Lemma pruneIdle_level now m key t : Sound now m -> now <= t -> level t key (pruneIdle idleMs now m) = level t key m.
Proof.
  intros H Hle. unfold level. destruct (pruneIdle_lookup now m key) as [->|(b & E & Hb & ->)]; [reflexivity|].
  rewrite E. destruct (H key b E) as [H1 _]. simpl.
  assert (1000 * rate <= (t - bk_at b) * rate) by (apply Z.mul_le_mono_nonneg_r; lia). lia.
Qed.

Lemma level_insert t key tokens now m key' :
  level t key' (<[key := mkBucket tokens now]> m)
  = if decide (key = key') then Z.min (1000 * rate) (tokens + (t - now) * rate) else level t key' m.
Proof.
  unfold level. destruct (decide _) as [<-|Hne]; [rewrite lookup_insert_eq; reflexivity|].
  rewrite lookup_insert_ne by exact Hne. reflexivity.
Qed.

(** One take: the answer is whether a token is there, and it draws it. *)
Lemma take_spec now key m : Sound now m ->
  let '(b, m') := take_ rate idleMs now key m in
  b = (1000 <=? level now key m) /\ Sound now m' /\
  forall key', level now key' m' = level now key' m - (if decide (key = key') then if b : bool then 1000 else 0 else 0).
Proof.
  intros H. pose proof (level_range now m key H) as Hr. unfold take_. fold (level now key m).
  rewrite Z.leb_antisym. destruct (level now key m <? 1000) eqn:E; simpl.
  - split; [reflexivity|]. split; [apply sound_insert; [exact H | lia]|]. intros key'.
    rewrite level_insert. destruct (decide _) as [<-|]; lia.
  - apply Z.ltb_ge in E. split; [reflexivity|].
    assert (Hs : Sound now (<[key := mkBucket (level now key m - 1000) now]> m)) by (apply sound_insert; [exact H | lia]).
    split; [apply sound_pruneIdle; exact Hs|]. intros key'. rewrite pruneIdle_level by (exact Hs || lia).
    rewrite level_insert. destruct (decide _) as [<-|]; lia.
Qed.

(** ** Runs *)

(** The times do not go back and end by [e]. *)
Fixpoint Ordered (s : Z) (l : list (Z * string)) (e : Z) : Prop :=
  match l with [] => s <= e | (t, _) :: l' => s <= t /\ Ordered t l' e end.

(** The takes of a key that were granted. *)
Fixpoint granted (key : string) (l : list (Z * string)) (bs : list bool) : Z :=
  match l, bs with
  | (_, k) :: l', b :: bs' => (if str_eqb k key && b then 1 else 0) + granted key l' bs'
  | _, _ => 0
  end.

Lemma ordered_le s l e : Ordered s l e -> s <= e.
Proof. revert s. induction l as [|[t k] l IH]; intros s; simpl; [auto|]. intros [H1 H2]. apply IH in H2. lia. Qed.

Lemma granted_bound l s e m key : Sound s m -> Ordered s l e ->
  1000 * granted key l (takes rate idleMs l m).1 <= level s key m + (e - s) * rate.
Proof.
  revert s m. induction l as [|[t k] l IH]; intros s m H Ho; simpl in Ho.
  - simpl. pose proof (level_range s m key H). pose proof (Z.mul_nonneg_nonneg (e - s) rate). lia.
  - destruct Ho as [Hst Ho]. pose proof (ordered_le _ _ _ Ho) as Hte. pose proof (sound_later s t m H Hst) as Ht.
    pose proof (take_spec t k m Ht) as Hspec. simpl takes.
    destruct (take_ rate idleMs t k m) as [b m1]. destruct Hspec as (_ & Hs1 & Hl1).
    specialize (IH t m1 Hs1 Ho). destruct (takes rate idleMs l m1) as [bs m2]. cbn [granted fst] in *.
    rewrite (Hl1 key), (level_grows s t m key H Hst) in IH.
    assert (Hk : str_eqb k key = true <-> k = key) by apply str_eqb_eq.
    assert ((e - t) * rate + (t - s) * rate = (e - s) * rate) by lia.
    destruct (str_eqb k key), (decide (k = key)), b; cbn [andb]; try lia;
      exfalso; tauto || (destruct Hk; intuition congruence).
Qed.

(** The answers only depend on the levels. *)
Lemma takes_levels l s e m m' : Sound s m -> Sound s m' -> Ordered s l e ->
  (forall key, level s key m = level s key m') ->
  (takes rate idleMs l m).1 = (takes rate idleMs l m').1.
Proof.
  revert s m m'. induction l as [|[t k] l IH]; intros s m m' H H' Ho Hl; simpl in *; [reflexivity|].
  destruct Ho as [Hst Ho]. pose proof (sound_later s t m H Hst) as Ht. pose proof (sound_later s t m' H' Hst) as Ht'.
  assert (Hlt : forall key, level t key m = level t key m').
  { intros key. rewrite (level_grows s t m key H Hst), (level_grows s t m' key H' Hst), Hl. reflexivity. }
  pose proof (take_spec t k m Ht) as S1. pose proof (take_spec t k m' Ht') as S2.
  destruct (take_ rate idleMs t k m) as [b m1], (take_ rate idleMs t k m') as [b' m1'].
  destruct S1 as (-> & Hs1 & Hl1), S2 as (-> & Hs1' & Hl1'). rewrite (Hlt k) in Hl1 |- *.
  specialize (IH t m1 m1' Hs1 Hs1' Ho). destruct (takes rate idleMs l m1), (takes rate idleMs l m1').
  simpl in *. f_equal. apply IH. intros key. rewrite Hl1, Hl1', Hlt. reflexivity.
Qed.
End Buckets.

(** The buckets keep the send rate of every number: over any run of takes, on any
    numbers, at times that do not go back, the sends granted to one number between
    two times are at most [rate] at once and [rate] more for every second between
    them.  And a number is never starved: a take is granted whenever the last one,
    granted or not, was a token's refill ago; keys that were never seen or were
    dropped count as full, and dropping them changes no answer. *)
Theorem send_rate rate idleMs (l : list (Z * string)) s e (m : Buckets) key :
  1 <= rate -> 1000 <= idleMs -> Sound rate s m -> Ordered s l e ->
  1000 * granted key l (takes rate idleMs l m).1 <= 1000 * rate + (e - s) * rate /\
  (forall t, s <= t -> 1000 <= (t - s) * rate -> (take_ rate idleMs t key m).1 = true) /\
  (takes rate idleMs l (pruneIdle idleMs s m)).1 = (takes rate idleMs l m).1.
Proof.
  intros Hr Hi H Ho. pose proof (level_range rate Hr s m key H) as Hl. split; [|split].
  - pose proof (granted_bound rate idleMs Hr Hi l s e m key H Ho). lia.
  - intros t Hst Ht. pose proof (take_spec rate idleMs Hr Hi t key m (sound_later rate s t m H Hst)) as Hspec.
    destruct (take_ rate idleMs t key m) as [b m']. destruct Hspec as (-> & _). simpl.
    rewrite (level_grows rate Hr s t m key H Hst). apply Z.leb_le. lia.
  - apply (takes_levels rate idleMs Hr Hi l s e); try assumption; [apply sound_pruneIdle; assumption|].
    intros k. apply pruneIdle_level; lia || assumption.
Qed.

(** Twenty at once, the next a twentieth of a second later. *)
Lemma send_rate_witness :
  let l := repeat (0, "n"%string) 21 ++ [(50, "n"%string)] in
  granted "n" l (takes 20 BUCKET_IDLE_MS l ∅).1 = 21 /\ 1000 * granted "n" l (takes 20 BUCKET_IDLE_MS l ∅).1 <= 21000.
Proof.
  intros l. split; [vm_compute; reflexivity|].
  refine (proj1 (send_rate 20 BUCKET_IDLE_MS l 0 50 ∅ "n" _ _ _ _));
    [lia | unfold BUCKET_IDLE_MS; lia | apply sound_empty | vm_compute; intuition discriminate].
Defined.
