(* ===== verification/CloudTypes.v ===== *)
(** The types and the pure parts of a bot's WhatsApp Business number:
    [orchestrator/src/domain/whatsapp-cloud.ts] and those of
    [services/whatsapp-cloud/manager.ts], with the manager's own memory.  The
    programs are in [CloudManager]. *)
From Stdlib Require Import Ascii.
From S2P Require Import Prelude JsString Json Fleet CloudInbox TokenBucket.
From stdpp Require Import list strings pretty gmap.
#[local] Open Scope Z_scope.

(** ** domain/whatsapp-cloud.ts *)
Definition HEALTH_CACHE_MS : Z := 60000.
Definition SEND_RATE_PER_SECOND : Z := 80.
Definition COEXISTENCE_SEND_RATE_PER_SECOND : Z := 20.
Definition TOKEN_INVALID_IDLE_MS : Z := 15 * 60 * 1000.
Definition OWNER_MESSAGE_MAX_CHARS : nat := 3500.
Definition PROFILE_NAME_MAX_CHARS : nat := 80.
Definition ESCALATION_MIN_INTERVAL_MS : Z := 2 * 60 * 1000.
Definition ESCALATIONS_PER_BOT_PER_MINUTE : nat := 60.
Definition ESCALATION_WINDOW_MS : Z := 60000.
Definition ESCALATION_KEYS_MAX : Z := 10000.
Definition CHANNEL_LABEL : string := "WhatsApp Business".

Inductive EscalationKind := Esc_request | Esc_forward.
#[export] Instance EscalationKind_eq_dec : EqDecision EscalationKind.
Proof. solve_decision. Defined.
#[export] Instance AppDataSyncType_eq_dec : EqDecision AppDataSyncType.
Proof. solve_decision. Defined.

Record ConnectInput := mkConnect {
  cn_accessToken : string;
  cn_phoneNumberId : option string;
  cn_wabaId : string;
  cn_businessId : option string;
  cn_pin : option string;
  cn_coexistence : bool;
}.

Inductive ChannelHealth := Ch_ok | Ch_token_invalid | Ch_unknown.
#[export] Instance ChannelHealth_eq_dec : EqDecision ChannelHealth.
Proof. solve_decision. Defined.

(** [status] is whether there is a channel. *)
Record WhatsappCloudView := mkView_ {
  vw_connected : bool;
  vw_phoneNumberId : option string;
  vw_wabaId : option string;
  vw_displayPhoneNumber : option string;
  vw_verifiedName : option string;
  vw_health : option ChannelHealth;
  vw_syncPending : bool;
}.

Definition NOT_CONNECTED : WhatsappCloudView := mkView_ false None None None None None false.

Record SendTextInput := mkSendText { st_to : string; st_text : string; st_replyToId : option string; st_kind : SendKind }.
Record PhoneNumberFacts := mkFacts { pf_displayPhoneNumber : string; pf_verifiedName : string; pf_isOnBizApp : option bool }.
Record ListedPhoneNumber := mkListed { ln_id : string; ln_facts : PhoneNumberFacts }.

Record RelayContext := mkRelay { rx_instance : Instance_; rx_channel : WhatsappCloudChannel }.
Record EscalationInput := mkEscalation { es_waId : string; es_summary : string; es_kind : EscalationKind }.
Record EscalationResult := mkEscalated { er_notified : bool; er_fallbackToBot : bool }.
Record OwnerTarget := mkTarget { ot_botToken : string; ot_chatId : Z }.
Record CachedHealth := mkCached { hc_health : ChannelHealth; hc_at : Z }.

(** An alert the owner's agent took: what the watch over it and its fallback need. *)
Record OwnerAlert := mkAlert {
  oa_instance : Instance_;
  oa_containerId : string;
  oa_alertId : string;
  oa_target : OwnerTarget;
  oa_waId : string;
  oa_text : string;
}.

(** One per admitted escalation; [et_id] is the object's identity. *)
Record EscalationToken := mkToken { et_id : Z; et_at : Z }.

(** ** The manager's memory

    [km_lastEscalationAt] is a [Map] in the order of its insertions.  [km_sent] and
    [km_told], the messages Meta took and the ones the owner got, are for the
    proofs; [km_alerts] are the watches launched in the background. *)
Record SentMessage := mkSent { sm_number : string; sm_to : string; sm_at : Z; sm_wamid : string }.
Record ToldOwner := mkTold { tl_instanceId : string; tl_text : string; tl_at : Z }.

Record CloudMemory := mkCloudMemory {
  km_lastEscalationAt : list (string * Z);
  km_escalationsPerBot : gmap string (list EscalationToken);
  km_nextToken : Z;
  km_tokenInvalidReported : gset string;
  km_healthCache : gmap string CachedHealth;
  km_sendBuckets : Buckets;
  km_coexistenceSendBuckets : Buckets;
  km_sent : list SentMessage;
  km_told : list ToldOwner;
  km_alerts : list OwnerAlert;
}.

Definition emptyCloud : CloudMemory := mkCloudMemory [] ∅ 0 ∅ ∅ ∅ ∅ [] [] [].

Definition setLast (l : list (string * Z)) (m : CloudMemory) : CloudMemory :=
  mkCloudMemory l (km_escalationsPerBot m) (km_nextToken m) (km_tokenInvalidReported m) (km_healthCache m)
    (km_sendBuckets m) (km_coexistenceSendBuckets m) (km_sent m) (km_told m) (km_alerts m).
Definition setTokens (l : gmap string (list EscalationToken)) (next : Z) (m : CloudMemory) : CloudMemory :=
  mkCloudMemory (km_lastEscalationAt m) l next (km_tokenInvalidReported m) (km_healthCache m)
    (km_sendBuckets m) (km_coexistenceSendBuckets m) (km_sent m) (km_told m) (km_alerts m).
Definition setReported (s : gset string) (m : CloudMemory) : CloudMemory :=
  mkCloudMemory (km_lastEscalationAt m) (km_escalationsPerBot m) (km_nextToken m) s (km_healthCache m)
    (km_sendBuckets m) (km_coexistenceSendBuckets m) (km_sent m) (km_told m) (km_alerts m).
Definition setHealthCache (c : gmap string CachedHealth) (m : CloudMemory) : CloudMemory :=
  mkCloudMemory (km_lastEscalationAt m) (km_escalationsPerBot m) (km_nextToken m) (km_tokenInvalidReported m) c
    (km_sendBuckets m) (km_coexistenceSendBuckets m) (km_sent m) (km_told m) (km_alerts m).
Definition setBuckets (coexistence : bool) (b : Buckets) (m : CloudMemory) : CloudMemory :=
  mkCloudMemory (km_lastEscalationAt m) (km_escalationsPerBot m) (km_nextToken m) (km_tokenInvalidReported m) (km_healthCache m)
    (if coexistence then km_sendBuckets m else b) (if coexistence then b else km_coexistenceSendBuckets m)
    (km_sent m) (km_told m) (km_alerts m).
Definition noteSent (s : SentMessage) (m : CloudMemory) : CloudMemory :=
  mkCloudMemory (km_lastEscalationAt m) (km_escalationsPerBot m) (km_nextToken m) (km_tokenInvalidReported m) (km_healthCache m)
    (km_sendBuckets m) (km_coexistenceSendBuckets m) (km_sent m ++ [s]) (km_told m) (km_alerts m).
Definition noteTold (s : ToldOwner) (m : CloudMemory) : CloudMemory :=
  mkCloudMemory (km_lastEscalationAt m) (km_escalationsPerBot m) (km_nextToken m) (km_tokenInvalidReported m) (km_healthCache m)
    (km_sendBuckets m) (km_coexistenceSendBuckets m) (km_sent m) (km_told m ++ [s]) (km_alerts m).

Definition launchAlert (a : OwnerAlert) (m : CloudMemory) : CloudMemory :=
  mkCloudMemory (km_lastEscalationAt m) (km_escalationsPerBot m) (km_nextToken m) (km_tokenInvalidReported m) (km_healthCache m)
    (km_sendBuckets m) (km_coexistenceSendBuckets m) (km_sent m) (km_told m) (km_alerts m ++ [a]).

(** ** Pure parts *)
Definition META_ERROR_REENGAGEMENT : Z := 131047.
Definition META_ERROR_PIN_MISMATCH : Z := 133005.
Definition isCredentialCode (c : Z) : bool := (c =? 190) || (c =? 10) || (c =? 102) || ((200 <=? c) && (c <? 300)).
Definition META_THROTTLE_CODES : list Z := [130429; 131056; 80007; 131048; 4; 17; 32; 613].

Definition isCredentialFailure (status : Z) (code : option Z) : bool :=
  match code with Some c => isCredentialCode c | None => status =? 401 end.

(** The domain error a [MetaGraphError] becomes. *)
Definition metaFailure (status : Z) (code : option Z) : OrchError :=
  if isCredentialFailure status code then ChannelCredentialError CHANNEL_LABEL
  else if oz_eqb code (Some META_ERROR_PIN_MISMATCH) then ChannelPinRequiredError
  else if oz_eqb code (Some META_ERROR_REENGAGEMENT) then CustomerWindowClosedError
  else if match code with Some c => List.existsb (Z.eqb c) META_THROTTLE_CODES | None => false end || (status =? 429)
  then UpstreamRateLimitedError "WhatsApp"
  else if status =? 413 then MediaTooLargeError
  else if (400 <=? status) && (status <? 500)
  then ValidationError ("WhatsApp rejected the request (code " +:+ pretty (default status code) +:+ ")")
  else UpstreamUnavailableError "WhatsApp" None.

Definition MAX_SAFE_INTEGER : Z := 9007199254740991.

(** [Number] of a Telegram id; a larger one is not a safe integer after rounding either. *)
Definition ownerTarget (inst : Instance_) : option OwnerTarget :=
  let channels := ic_channels (in_config inst) in
  match findTelegramChannel channels, truthy (oi_telegramUserId (ownerIdentityOf channels)) with
  | Some t, Some id =>
      match truthy (tg_botToken t), decimal id with
      | Some token, Some chatId => if chatId <=? MAX_SAFE_INTEGER then Some (mkTarget token chatId) else None
      | _, _ => None
      end
  | _, _ => None
  end.

Definition syncPendingOf (channel : WhatsappCloudChannel) (synced : list AppDataSyncType) : bool :=
  wc_coexistence channel && negb (forallb (fun s => oneOf synced s) APP_DATA_SYNC_TYPES).

Definition isLive (inst : Instance_) : bool := negb (oneOf [I_destroying; I_destroyed] (fi_status inst)).
Definition acceptsChannels (inst : Instance_) : bool := isLive inst && negb (bool_decide (fi_status inst = I_provisioning)).

Definition viewOf (channel : WhatsappCloudChannel) (health : ChannelHealth) (syncPending : bool) : WhatsappCloudView :=
  mkView_ true (Some (wc_phoneNumberId channel)) (Some (wc_wabaId channel)) (Some (wc_displayPhoneNumber channel))
    (Some (wc_verifiedName channel)) (Some health) syncPending.

(** On ASCII text: every control character is a space, runs of spaces are one, and
    the ends are trimmed. *)
Definition isControl (c : ascii) : bool := let n := nat_of_ascii c in (n <? 32)%nat || (n =? 127)%nat.
Fixpoint collapse (s : string) : string :=
  match s with
  | EmptyString => EmptyString
  | String c s' =>
      let rest := collapse s' in
      if Ascii.eqb c " "%char && match rest with String d _ => Ascii.eqb d " "%char | EmptyString => false end
      then rest else String c rest
  end.
Definition oneLine (value : string) (max : nat) : string :=
  String.substring 0 max (trim (collapse (mapString (fun c => if isControl c then " "%char else c) value))).

(** The number the coexistence popup means. *)
Definition pickNumber (numbers : list ListedPhoneNumber) : option ListedPhoneNumber :=
  match List.filter (fun n => match pf_isOnBizApp (ln_facts n) with Some b => b | None => false end) numbers, numbers with
  | [n], _ => Some n
  | _, [n] => Some n
  | _, _ => None
  end.

(** ** Escalation slots *)
Definition escalationKey (instanceId waId : string) : string := instanceId +:+ ":" +:+ waId.

Fixpoint lookupKey (key : string) (l : list (string * Z)) : option Z :=
  match l with [] => None | (k, v) :: l' => if str_eqb k key then Some v else lookupKey key l' end.
Definition removeKey (key : string) (l : list (string * Z)) : list (string * Z) :=
  List.filter (fun p => negb (str_eqb p.1 key)) l.

Definition stampCustomer (key : string) (at_ : Z) (l : list (string * Z)) : list (string * Z) :=
  let l := removeKey key l in
  (if ESCALATION_KEYS_MAX <=? Z.of_nat (length l) then List.tl l else l) ++ [(key, at_)].

Fixpoint dropExpired (nowMs : Z) (tokens : list EscalationToken) : list EscalationToken :=
  match tokens with
  | t :: l => if ESCALATION_WINDOW_MS <=? nowMs - et_at t then dropExpired nowMs l else tokens
  | [] => []
  end.

(** What [release] needs: the token and the customer's stamp before it. *)
Record Slot := mkSlot { sl_token : EscalationToken; sl_last : option Z }.

Definition reserveEscalation (nowMs : Z) (instanceId waId : string) (kind : EscalationKind) (m : CloudMemory)
  : option Slot * CloudMemory :=
  let tokens := dropExpired nowMs (default [] (km_escalationsPerBot m !! instanceId)) in
  let pruned := setTokens (<[instanceId := tokens]> (km_escalationsPerBot m)) (km_nextToken m) m in
  if (ESCALATIONS_PER_BOT_PER_MINUTE <=? length tokens)%nat then (None, pruned)
  else
    let key := escalationKey instanceId waId in
    let last := lookupKey key (km_lastEscalationAt m) in
    let recent := match last with Some t => nowMs - t <? ESCALATION_MIN_INTERVAL_MS | None => false end in
    if bool_decide (kind = Esc_request) && recent then (None, pruned)
    else
      let token := mkToken (km_nextToken m) nowMs in
      let taken := setTokens (<[instanceId := tokens ++ [token]]> (km_escalationsPerBot m)) (km_nextToken m + 1) m in
      (Some (mkSlot token last),
       if bool_decide (kind = Esc_request) then setLast (stampCustomer key nowMs (km_lastEscalationAt taken)) taken
       else taken).

Definition releaseSlot (instanceId waId : string) (kind : EscalationKind) (slot : Slot) (m : CloudMemory) : CloudMemory :=
  let key := escalationKey instanceId waId in
  let freed := match km_escalationsPerBot m !! instanceId with
    | Some l => setTokens (<[instanceId := List.filter (fun t => negb (et_id t =? et_id (sl_token slot))) l]>
                             (km_escalationsPerBot m)) (km_nextToken m) m
    | None => m
    end in
  if bool_decide (kind = Esc_request) then
    setLast (match sl_last slot with
             | None => removeKey key (km_lastEscalationAt freed)
             | Some t => stampCustomer key t (km_lastEscalationAt freed)
             end) freed
  else freed.

Definition forgetHealth (instanceId : string) (m : CloudMemory) : CloudMemory :=
  let m := setHealthCache (delete instanceId (km_healthCache m)) m in
  let m := setReported (km_tokenInvalidReported m ∖ {[instanceId]}) m in
  let m := setTokens (delete instanceId (km_escalationsPerBot m)) (km_nextToken m) m in
  setLast (List.filter (fun p => negb (String.prefix (instanceId +:+ ":") p.1)) (km_lastEscalationAt m)) m.
