(* ===== verification/InboxDispatcher.v ===== *)
(** Handing the queued WhatsApp messages to the bots' plugins:
    [orchestrator/src/services/whatsapp-cloud/inbox-dispatcher.ts].

    A plugin long-polls; the dispatcher leases rows from the inbox for the bots
    that are waiting and resolves their polls.  A poll is a number, and
    [dp_resolved] lists the polls that were answered, with what and when; the
    fields [dv_leasedAt] and [dv_items] of an answer are the batch it came from.
    [tick] is cut at its [await]s: [tickStart] is the part before the query,
    [tickReturn] and [tickFail] the parts after it. *)
From S2P Require Import Prelude Json Fleet CloudInbox.
From stdpp Require Import list strings gmap.
#[local] Open Scope Z_scope.

Record Queued := mkQueued { qu_items : list InboxItem; qu_leasedAt : Z }.

Record Delivery := mkDelivery {
  dv_poll : nat;
  dv_items : list InboxItem;
  dv_leasedAt : Z;
  dv_at : Z;
}.

(** The query of a tick: for whom, and the stamp taken before it. *)
Record Query := mkQuery { qy_asking : list string; qy_leasedAt : Z }.

Record Dispatcher := mkDispatcher {
  dp_waiters : gmap string nat;
  dp_queued : gmap string Queued;
  dp_wokenWhileBusy : gset string;
  dp_polling : option Query;
  dp_started : bool;
  dp_stopped : bool;
  dp_nextPoll : nat;
  dp_resolved : list Delivery;
}.

Definition initDispatcher : Dispatcher := mkDispatcher ∅ ∅ ∅ None false false 0 [].

Definition setWaiters (w : gmap string nat) (d : Dispatcher) : Dispatcher :=
  mkDispatcher w (dp_queued d) (dp_wokenWhileBusy d) (dp_polling d) (dp_started d) (dp_stopped d)
    (dp_nextPoll d) (dp_resolved d).
Definition setQueued (q : gmap string Queued) (d : Dispatcher) : Dispatcher :=
  mkDispatcher (dp_waiters d) q (dp_wokenWhileBusy d) (dp_polling d) (dp_started d) (dp_stopped d)
    (dp_nextPoll d) (dp_resolved d).
Definition setWoken (s : gset string) (d : Dispatcher) : Dispatcher :=
  mkDispatcher (dp_waiters d) (dp_queued d) s (dp_polling d) (dp_started d) (dp_stopped d)
    (dp_nextPoll d) (dp_resolved d).
Definition setPolling (p : option Query) (d : Dispatcher) : Dispatcher :=
  mkDispatcher (dp_waiters d) (dp_queued d) (dp_wokenWhileBusy d) p (dp_started d) (dp_stopped d)
    (dp_nextPoll d) (dp_resolved d).
Definition setTimers (started stopped : bool) (d : Dispatcher) : Dispatcher :=
  mkDispatcher (dp_waiters d) (dp_queued d) (dp_wokenWhileBusy d) (dp_polling d) started stopped
    (dp_nextPoll d) (dp_resolved d).
Definition resolve (x : Delivery) (d : Dispatcher) : Dispatcher :=
  mkDispatcher (dp_waiters d) (dp_queued d) (dp_wokenWhileBusy d) (dp_polling d) (dp_started d) (dp_stopped d)
    (dp_nextPoll d) (dp_resolved d ++ [x]).

(** A promise that resolves to nothing. *)
Definition emptyDelivery (poll : nat) (now : Z) : Delivery := mkDelivery poll [] now now.

Definition newPoll (d : Dispatcher) : nat * Dispatcher :=
  (dp_nextPoll d,
   mkDispatcher (dp_waiters d) (dp_queued d) (dp_wokenWhileBusy d) (dp_polling d) (dp_started d) (dp_stopped d)
     (S (dp_nextPoll d)) (dp_resolved d)).

Definition cancelWaiter (now : Z) (instanceId : string) (d : Dispatcher) : Dispatcher :=
  match dp_waiters d !! instanceId with
  | Some previous => resolve (emptyDelivery previous now) (setWaiters (delete instanceId (dp_waiters d)) d)
  | None => d
  end.

Definition withinLease (now leasedAt : Z) : bool := now - leasedAt <? INBOX_LEASE_MS.

(** [wait], and the poll it opens. *)
Definition wait (now : Z) (instanceId : string) (d : Dispatcher) : nat * Dispatcher :=
  let '(poll, d) := newPoll d in
  if dp_stopped d then (poll, resolve (emptyDelivery poll now) d)
  else
    let register d :=
      let d := cancelWaiter now instanceId d in
      (poll, setWaiters (<[instanceId := poll]> (dp_waiters d)) d) in
    match dp_queued d !! instanceId with
    | Some ready =>
        let d := setQueued (delete instanceId (dp_queued d)) d in
        if withinLease now (qu_leasedAt ready)
        then (poll, resolve (mkDelivery poll (qu_items ready) (qu_leasedAt ready) now) d)
        else register d
    | None => register d
    end.

(** The timer of a waiter fires. *)
Definition timeout (now : Z) (instanceId : string) (d : Dispatcher) : Dispatcher :=
  cancelWaiter now instanceId d.

Definition isSomeB {A} (o : option A) : bool := match o with Some _ => true | None => false end.

Definition tickStart (now : Z) (instanceIds : list string) (d : Dispatcher) : Dispatcher :=
  if isSomeB (dp_polling d) then d
  else
    match List.filter (fun id => isSomeB (dp_waiters d !! id)) instanceIds with
    | [] => d
    | asking => setPolling (Some (mkQuery asking now)) d
    end.

(** [tick()] of the interval: every waiting bot. *)
Definition tickAll (now : Z) (d : Dispatcher) : Dispatcher :=
  tickStart now (List.map fst (map_to_list (dp_waiters d))) d.

Definition wake (now : Z) (instanceId : string) (d : Dispatcher) : Dispatcher :=
  match dp_waiters d !! instanceId with
  | None => d
  | Some _ =>
      if isSomeB (dp_polling d) then setWoken ({[instanceId]} ∪ dp_wokenWhileBusy d) d
      else tickStart now [instanceId] d
  end.

Definition groupByInstance (leased : list LeasedMessage) : list (string * list InboxItem) :=
  List.map (fun id => (id, List.map lm_item (List.filter (fun m => str_eqb (lm_instanceId m) id) leased)))
    (remove_dups (List.map lm_instanceId leased)).

Definition handOut (now leasedAt : Z) (d : Dispatcher) (group : string * list InboxItem) : Dispatcher :=
  let '(instanceId, items) := group in
  match dp_waiters d !! instanceId with
  | Some waiter =>
      resolve (mkDelivery waiter items leasedAt now) (setWaiters (delete instanceId (dp_waiters d)) d)
  | None =>
      let queued := match dp_queued d !! instanceId with
        | Some pending => mkQueued (qu_items pending ++ items) (Z.min (qu_leasedAt pending) leasedAt)
        | None => mkQueued items leasedAt
        end in
      setQueued (<[instanceId := queued]> (dp_queued d)) d
  end.

(** The end of [tick]: what was woken meanwhile is asked at once. *)
Definition tickEnd (now : Z) (d : Dispatcher) : Dispatcher :=
  let woken := elements (dp_wokenWhileBusy d) in
  let d := setWoken ∅ (setPolling None d) in
  if dp_started d then match woken with [] => d | _ => tickStart now woken d end else d.

Definition tickReturn (now leasedAt : Z) (leased : list LeasedMessage) (d : Dispatcher) : Dispatcher :=
  tickEnd now (fold_left (handOut now leasedAt) (groupByInstance leased) d).

Definition tickFail (now : Z) (d : Dispatcher) : Dispatcher := tickEnd now d.

Definition forgetStaleQueued (now : Z) (d : Dispatcher) : Dispatcher :=
  setQueued (filter (fun kv => now - qu_leasedAt kv.2 < INBOX_LEASE_MS) (dp_queued d)) d.

Definition sweepInput (now : Z) : SweepInput :=
  mkSweepInput (now - INBOX_DROP_AFTER_MS) (now - INBOX_RETAIN_ACKED_MS) (now - CONVERSATION_RETENTION_MS)
    (now - SENDS_RETENTION_MS) (now - INBOX_BACKLOG_WARN_MS).

Definition startTimers (d : Dispatcher) : Dispatcher := setTimers true false d.

(** Every waiter is answered with nothing. *)
Definition stop (now : Z) (d : Dispatcher) : Dispatcher :=
  let d := setWoken ∅ (setTimers false true d) in
  fold_left (fun d id => cancelWaiter now id d) (List.map fst (map_to_list (dp_waiters d))) d.

(** ** With the database and the clock

    [sy_leased] holds the rows the query of the current tick has leased, once it
    has run.  The other users of the tables (the webhook, acknowledgements, the
    sweeper, another orchestrator) take steps of their own. *)
Record System := mkSystem {
  sy_clock : Z;
  sy_db : CloudDb;
  sy_disp : Dispatcher;
  sy_leased : option (list InboxRow);
}.

Inductive OtherStep (now : Z) : CloudDb -> CloudDb -> Prop :=
| other_enqueue rows d : OtherStep now d (enqueue now rows d).2
| other_ack id ids d : OtherStep now d (ack now id ids d).2
| other_echoes id echoes d : OtherStep now d (applyOwnerEchoes now id echoes OWNER_HOLD_MS d).2
| other_drop ids d : OtherStep now d (drop_stmt now ids d)
| other_sweepDrop i d : OtherStep now d (sweepDrop_stmt now i d).2
| other_sweepDelete i d : OtherStep now d (sweepDelete_stmt i d)
| other_purge id d : OtherStep now d (purgeInstance id d)
| other_lease leasedUntil locked ids limit d :
    OtherStep now d (lease_stmt now leasedUntil locked ids limit d).2.

(** The steps come in any order, with any time between them. *)
Inductive SysStep : System -> System -> Prop :=
| sys_clock t t' db d l : t <= t' -> SysStep (mkSystem t db d l) (mkSystem t' db d l)
| sys_other t db db' d l : OtherStep t db db' -> SysStep (mkSystem t db d l) (mkSystem t db' d l)
| sys_wait t db d l id : SysStep (mkSystem t db d l) (mkSystem t db (wait t id d).2 l)
| sys_timeout t db d l id : SysStep (mkSystem t db d l) (mkSystem t db (timeout t id d) l)
| sys_wake t db d l id : SysStep (mkSystem t db d l) (mkSystem t db (wake t id d) l)
| sys_tick t db d l : SysStep (mkSystem t db d l) (mkSystem t db (tickAll t d) l)
| sys_query t db d q locked :
    dp_polling d = Some q ->
    let r := lease_stmt t (qy_leasedAt q + INBOX_LEASE_MS) locked (qy_asking q) INBOX_MAX_BATCH db in
    SysStep (mkSystem t db d None) (mkSystem t r.2 d (Some r.1))
| sys_malformed t db d rows :
    SysStep (mkSystem t db d (Some rows)) (mkSystem t (drop_stmt t (malformedIds rows) db) d (Some rows))
| sys_return t db d q rows :
    dp_polling d = Some q ->
    SysStep (mkSystem t db d (Some rows))
      (mkSystem t db (tickReturn t (qy_leasedAt q) (leasedMessages rows) d) None)
| sys_fail t db d q l :
    dp_polling d = Some q -> SysStep (mkSystem t db d l) (mkSystem t db (tickFail t d) None)
| sys_sweep t db d l : SysStep (mkSystem t db d l) (mkSystem t db (forgetStaleQueued t d) l)
| sys_start t db d l : SysStep (mkSystem t db d l) (mkSystem t db (startTimers d) l)
| sys_stop t db d l : SysStep (mkSystem t db d l) (mkSystem t db (stop t d) l).

Definition SysReachable (s : System) : Prop :=
  exists t db, cd_inbox db = [] /\ rtc SysStep (mkSystem t db initDispatcher None) s.
