(* ===== verification/InboxSafety.v ===== *)
(** What the queue of WhatsApp messages promises: no message is handed out twice
    within a lease, whatever the order of polls, queries, acknowledgements and
    webhooks; a waiting bot gets its oldest messages; a webhook that Meta sends
    again changes nothing. *)
From S2P Require Import Prelude Json Fleet CloudInbox InboxDispatcher.
From stdpp Require Import list strings gmap.
#[local] Open Scope Z_scope.

(** ** How the other users change the inbox *)
Definition RowStep (now : Z) (r r' : InboxRow) : Prop :=
  ib_id r' = ib_id r /\
  (isPending r' = true -> isPending r = true /\
    (ib_leasedUntil r' = ib_leasedUntil r \/
     match ib_leasedUntil r with None => True | Some u => u < now end)).

Definition InboxOk (d : CloudDb) : Prop :=
  NoDup (List.map ib_id (cd_inbox d)) /\ Forall (fun r => ib_id r < cd_nextId d) (cd_inbox d).

Definition DbStep (now : Z) (d d' : CloudDb) : Prop :=
  InboxOk d' /\ cd_nextId d <= cd_nextId d' /\
  forall r', In r' (cd_inbox d') ->
    cd_nextId d <= ib_id r' \/ exists r, In r (cd_inbox d) /\ RowStep now r r'.

Lemma rowStep_refl now r : RowStep now r r.
Proof. split; auto. Qed.

(** A change of the rows in place. *)
Lemma dbStep_update now d p f :
  InboxOk d -> (forall r, p r = true -> RowStep now r (f r)) ->
  DbStep now d (setInbox (update_where p f (cd_inbox d)) d).
Proof.
  intros [Hnd Hlt] Hf. unfold DbStep. simpl. split; [split; simpl|split; [lia|]].
  - rewrite map_update_where; [exact Hnd|]. intros r Hr. apply (Hf r Hr).
  - apply Forall_forall. intros r' Hin. apply list_elem_of_In, in_update_where in Hin as (r & Hin & ->).
    rewrite Forall_forall in Hlt. apply list_elem_of_In, Hlt in Hin.
    destruct (p r) eqn:E; [destruct (Hf r E) as [-> _]|]; exact Hin.
  - intros r' Hin. apply in_update_where in Hin as (r & Hin & ->). right. exists r. split; [exact Hin|].
    destruct (p r) eqn:E; [exact (Hf r E) | apply rowStep_refl].
Qed.

Lemma dbStep_filter now d p :
  InboxOk d -> DbStep now d (setInbox (List.filter p (cd_inbox d)) d).
Proof.
  intros [Hnd Hlt]. unfold DbStep. simpl. split; [split; simpl|split; [lia|]].
  - induction (cd_inbox d) as [|r l IH]; simpl; [constructor|].
    apply NoDup_cons in Hnd as [Hn Hnd]. apply Forall_cons in Hlt as [_ Hlt].
    destruct (p r); simpl; [|auto]. constructor; [|auto]. intros Hin. apply Hn.
    apply list_elem_of_In, in_map_iff in Hin as (x & <- & Hx). apply filter_In in Hx as [Hx _].
    apply list_elem_of_In, in_map. exact Hx.
  - apply Forall_forall. intros r Hin. apply list_elem_of_In, filter_In in Hin as [Hin _].
    rewrite Forall_forall in Hlt. apply Hlt, list_elem_of_In. exact Hin.
  - intros r Hin. apply filter_In in Hin as [Hin _]. right. exists r. auto using rowStep_refl.
Qed.

(** Statements on the other tables. *)
Lemma dbStep_same now d d' :
  InboxOk d -> cd_inbox d' = cd_inbox d -> cd_nextId d' = cd_nextId d -> DbStep now d d'.
Proof.
  intros H E1 E2. unfold DbStep, InboxOk in *. rewrite E1, E2. split; [exact H|]. split; [lia|].
  intros r Hr. right. exists r. auto using rowStep_refl.
Qed.

Lemma dbStep_trans now d1 d2 d3 : DbStep now d1 d2 -> DbStep now d2 d3 -> DbStep now d1 d3.
Proof.
  intros (_ & Hn1 & H1) (Hok & Hn2 & H2). split; [exact Hok|]. split; [lia|].
  intros r3 H3. destruct (H2 r3 H3) as [Hge|(r2 & Hin2 & Hid2 & Hs2)]; [left; lia|].
  destruct (H1 r2 Hin2) as [Hge|(r1 & Hin1 & Hid1 & Hs1)]; [left; lia|]. right. exists r1.
  split; [exact Hin1|]. split; [congruence|]. intros Hp. destruct (Hs2 Hp) as [Hp2 Hl2].
  destruct (Hs1 Hp2) as [Hp1 Hl1]. split; [exact Hp1|]. destruct Hl2 as [->|Hl2]; [exact Hl1|].
  destruct Hl1 as [Hl1|Hl1]; [right; rewrite <- Hl1; exact Hl2 | right; exact Hl1].
Qed.

Lemma dbStep_ack now id ids d : InboxOk d -> DbStep now d (ack now id ids d).2.
Proof.
  intros H. destruct ids as [|i l]; [apply dbStep_same; auto|]. simpl. apply dbStep_update; [exact H|].
  intros r _. split; [reflexivity | discriminate].
Qed.

Lemma dropped_step now r : RowStep now r (dropped now r).
Proof. split; [reflexivity|]. unfold isPending. simpl. destruct (ib_ackedAt r); discriminate. Qed.

Lemma insertOne_step now d fresh row :
  InboxOk d -> DbStep now d (insertOne now (d, fresh) row).1.
Proof.
  intros [Hnd Hlt]. unfold insertOne. destruct (List.existsb _ _); unfold DbStep; simpl.
  - split; [split; simpl; [exact Hnd|]|split; [lia|]].
    + eapply Forall_impl; [exact Hlt|]. simpl. intros r. lia.
    + intros r Hr. right. exists r. auto using rowStep_refl.
  - split; [split; simpl|split; [lia|]].
    + rewrite List.map_app. apply NoDup_app. split; [exact Hnd|]. split; [|apply NoDup_singleton].
      intros i Hi Hi'. apply list_elem_of_singleton in Hi' as ->.
      apply list_elem_of_In, in_map_iff in Hi as (r & Hr & Hin). rewrite Forall_forall in Hlt.
      apply list_elem_of_In, Hlt in Hin. simpl in *. lia.
    + apply Forall_app. split; [|apply Forall_singleton; simpl; lia].
      eapply Forall_impl; [exact Hlt|]. simpl. intros r. lia.
    + intros r Hr. apply in_app_iff in Hr as [Hr|[<-|[]]]; [|left; simpl; lia].
      right. exists r. auto using rowStep_refl.
Qed.

Lemma noteInbound_same fresh d row :
  cd_inbox (noteInbound fresh d row) = cd_inbox d /\ cd_nextId (noteInbound fresh d row) = cd_nextId d.
Proof.
  unfold noteInbound. destruct (iw_waId row); [|auto]. destruct (_ && _); [|auto].
  unfold upsertConv. destruct (List.existsb _ _); auto.
Qed.

Lemma holdIn_same id waId at_ h now d :
  cd_inbox (holdIn id waId at_ h now d).2 = cd_inbox d /\ cd_nextId (holdIn id waId at_ h now d).2 = cd_nextId d.
Proof.
  unfold holdIn. destruct (_ <=? _); [auto|]. cbv zeta.
  destruct (match findConversation id waId d with Some _ => _ | None => _ end); [auto|].
  unfold upsertConv. simpl. destruct (List.existsb _ _); auto.
Qed.

Lemma holdSteps_same id h now es held d :
  cd_inbox (fold_left (holdStep id h now) es (held, d)).2 = cd_inbox d /\
  cd_nextId (fold_left (holdStep id h now) es (held, d)).2 = cd_nextId d.
Proof.
  revert held d. induction es as [|e es IH]; intros held d; simpl; [auto|].
  destruct (holdIn_same id (eh_to e) (eh_at e) h now d) as [E1 E2].
  destruct (holdIn id (eh_to e) (eh_at e) h now d) as [c d']. simpl in *.
  destruct (IH (if c then held ++ [eh_to e] else held) d') as [-> ->]. auto.
Qed.

#[local] Arguments insertOne : simpl never.
#[local] Arguments noteInbound : simpl never.

Lemma enqueue_step now rows d : InboxOk d -> DbStep now d (enqueue now rows d).2.
Proof.
  intros Hok. unfold enqueue. destruct rows as [|x l]; [apply dbStep_same; auto|].
  remember (x :: l) as rows eqn:E. clear E x l.
  assert (Hins : forall l acc, InboxOk acc.1 -> DbStep now acc.1 (fold_left (insertOne now) l acc).1).
  { induction l as [|row l IH]; intros [d0 fr] H0; simpl; [apply dbStep_same; auto|].
    pose proof (insertOne_step now d0 fr row H0) as H1.
    eapply dbStep_trans; [exact H1|]. destruct (insertOne now (d0, fr) row) as [d1 fr1].
    apply (IH (d1, fr1)). apply H1. }
  specialize (Hins rows (d, []) Hok). destruct (fold_left (insertOne now) rows (d, [])) as [d1 fresh].
  simpl in *. eapply dbStep_trans; [exact Hins|]. destruct Hins as [Hok1 _].
  generalize (isort byWaIdLeb rows). intros l. revert d1 Hok1.
  induction l as [|row l IH]; intros d1 Hok1; simpl; [apply dbStep_same; auto|].
  destruct (noteInbound_same fresh d1 row) as [E1 E2].
  pose proof (dbStep_same now d1 _ Hok1 E1 E2) as H1. eapply dbStep_trans; [exact H1|].
  apply IH. apply H1.
Qed.

Definition pickedIds (now : Z) (locked : Z -> bool) (ids : list string) (limit : nat) (d : CloudDb) : list Z :=
  List.concat (List.map (pickFor now locked limit d) ids).

Lemma inIds_in l r : inIds l r = true <-> In (ib_id r) l.
Proof.
  unfold inIds. rewrite existsb_exists. split.
  - intros (i & Hi & E). bools. subst i. exact Hi.
  - intros Hi. exists (ib_id r). split; [exact Hi | apply Z.eqb_refl].
Qed.

(** Only rows nobody has on lease are picked. *)
Lemma picked_leasable now locked ids limit d r :
  InboxOk d -> In r (cd_inbox d) -> inIds (pickedIds now locked ids limit d) r = true ->
  isPending r = true /\ match ib_leasedUntil r with None => True | Some u => u < now end.
Proof.
  intros [Hnd _] Hin Hr. apply inIds_in in Hr.
  apply in_concat in Hr as (l & Hl & Hi). apply in_map_iff in Hl as (id & <- & _).
  unfold pickFor in Hi. apply in_map_iff in Hi as (r' & Eid & Hr').
  apply list_elem_of_In, elem_of_take in Hr' as (n & Hr' & _).
  apply list_elem_of_lookup_2, list_elem_of_In, isort_in, filter_In in Hr' as [Hin' Hl].
  assert (r' = r) as -> by (apply (NoDup_key_inj ib_id (cd_inbox d)); auto).
  unfold leasable in Hl. bools. split; [assumption|]. destruct (ib_leasedUntil r); bools; auto.
Qed.

Lemma leased_step now until locked ids limit d :
  InboxOk d -> DbStep now d (lease_stmt now until locked ids limit d).2.
Proof.
  intros Hok. unfold lease_stmt. simpl. fold (pickedIds now locked ids limit d).
  pose proof (fun r => picked_leasable now locked ids limit d r Hok) as Hp.
  destruct Hok as [Hnd Hlt]. unfold DbStep. simpl. split; [split; simpl|split; [lia|]].
  - rewrite map_update_where by reflexivity. exact Hnd.
  - apply Forall_forall. intros r' Hin. apply list_elem_of_In, in_update_where in Hin as (r & Hin & ->).
    rewrite Forall_forall in Hlt. apply list_elem_of_In, Hlt in Hin. destruct (inIds _ r); exact Hin.
  - intros r' Hin. apply in_update_where in Hin as (r & Hin & ->). right. exists r. split; [exact Hin|].
    destruct (inIds _ r) eqn:E; [|apply rowStep_refl]. destruct (Hp r Hin E) as [Hpend Hl].
    split; [reflexivity|]. intros _. auto.
Qed.

Lemma other_step now d d' : InboxOk d -> OtherStep now d d' -> DbStep now d d'.
Proof.
  intros Hok Hs. destruct Hs.
  - apply enqueue_step. exact Hok.
  - apply dbStep_ack. exact Hok.
  - unfold applyOwnerEchoes. destruct echoes as [|e l]; [apply dbStep_same; auto|].
    set (l' := isort echoLeb (e :: l)). pose proof (holdSteps_same id OWNER_HOLD_MS now l' [] d) as [E1 E2].
    destruct (fold_left _ l' ([], d)) as [held d1]. simpl in *.
    pose proof (dbStep_same now d d1 Hok E1 E2) as H1. eapply dbStep_trans; [exact H1|].
    apply (dbStep_ack now id (eh_id e :: List.map eh_id l)). apply H1.
  - apply dbStep_update; [exact Hok|]. intros r _. apply dropped_step.
  - apply dbStep_update; [exact Hok|]. intros r _. apply dropped_step.
  - apply dbStep_filter. exact Hok.
  - pose proof (dbStep_filter now d (fun r => negb (str_eqb (ib_instanceId r) id)) Hok) as (H1 & H2 & H3).
    split; [exact H1 | split; [exact H2 | exact H3]].
  - apply leased_step. exact Hok.
Qed.

(** ** Claims

    A row is claimed by the query in flight, by a queued batch or by an answer;
    [L] is the stamp of the batch it came in. *)
Definition expired (t L : Z) : Prop := L + INBOX_LEASE_MS < t.
Definition itemIds (items : list InboxItem) : list Z := List.map item_id items.

Definition claimL (d : Dispatcher) (r L : Z) : Prop :=
  exists D, In D (dp_resolved d) /\ In r (itemIds (dv_items D)) /\ L = dv_leasedAt D.
Definition claimQ (d : Dispatcher) (r L : Z) : Prop :=
  exists id q, dp_queued d !! id = Some q /\ In r (itemIds (qu_items q)) /\ L = qu_leasedAt q.
Definition claim (d : Dispatcher) (r L : Z) : Prop := claimQ d r L \/ claimL d r L.

(** Nobody else can lease the row before the claim has expired. *)
Definition Covered (t : Z) (db : CloudDb) (r L : Z) : Prop :=
  r < cd_nextId db /\
  (expired t L \/ forall row, In row (cd_inbox db) -> ib_id row = r -> isPending row = true ->
     exists u, ib_leasedUntil row = Some u /\ L + INBOX_LEASE_MS <= u).

(** Any two answers with a common row are separated by the expiry of the lease
    of the first. *)
Definition LogOk (log : list Delivery) : Prop :=
  forall p D1 m D2 s r, log = p ++ D1 :: m ++ D2 :: s ->
    In r (itemIds (dv_items D1)) -> In r (itemIds (dv_items D2)) ->
    dv_leasedAt D1 + INBOX_LEASE_MS < dv_at D2.

Definition DeliveryOk (t : Z) (D : Delivery) : Prop :=
  dv_at D <= t /\ NoDup (itemIds (dv_items D)).

(** A batch that may still be handed out. *)
Definition BatchOk (t : Z) (d : Dispatcher) (id : string) (q : Queued) : Prop :=
  withinLease t (qu_leasedAt q) = true ->
  NoDup (itemIds (qu_items q)) /\
  forall r, In r (itemIds (qu_items q)) ->
    (forall L, claimL d r L -> expired t L) /\
    (forall id' q', id' <> id -> dp_queued d !! id' = Some q' -> In r (itemIds (qu_items q')) ->
       withinLease t (qu_leasedAt q') = false).

Record DispInv (t : Z) (db : CloudDb) (d : Dispatcher) : Prop := mkDispInv {
  di_db : InboxOk db;
  di_cov : forall r L, claim d r L -> Covered t db r L;
  di_queue : forall id q, dp_queued d !! id = Some q -> BatchOk t d id q;
  di_log : LogOk (dp_resolved d);
  di_deliveries : Forall (DeliveryOk t) (dp_resolved d);
}.

(** Rows on their way to the dispatcher: leased under stamp [L], claimed by
    nobody else's lease that still runs. *)
Definition Incoming (t : Z) (db : CloudDb) (d : Dispatcher) (L : Z) (rs : list Z) : Prop :=
  NoDup rs /\ forall r, In r rs ->
    Covered t db r L /\ forall L', claim d r L' -> expired t L'.


Lemma within_expired t L : withinLease t L = true -> expired t L -> False.
Proof. unfold withinLease, expired. intros H1 H2. bools. lia. Qed.

Lemma expired_not_within t L : expired t L -> withinLease t L = false.
Proof. intros H. destruct (withinLease t L) eqn:E; [destruct (within_expired _ _ E H) | reflexivity]. Qed.

Lemma withinLease_le t L L' : L <= L' -> withinLease t L = true -> withinLease t L' = true.
Proof. unfold withinLease. intros H1 H2. bools. apply Z.ltb_lt. lia. Qed.

(** ** Time passes, others write *)
Lemma covered_step t db db' r L : DbStep t db db' -> Covered t db r L -> Covered t db' r L.
Proof.
  intros (_ & Hn & Hr) [Hlt Hc]. split; [lia|]. destruct Hc as [He|Hc]; [left; exact He|].
  destruct (Z_lt_dec (L + INBOX_LEASE_MS) t) as [He|Hne]; [left; exact He | right].
  intros row Hin Hid Hp. destruct (Hr row Hin) as [Hge|(row0 & Hin0 & Hid0 & Hs)]; [lia|].
  destruct (Hs Hp) as [Hp0 Hl]. destruct (Hc row0 Hin0 ltac:(congruence) Hp0) as (u & Hu & Hle).
  rewrite Hu in Hl. destruct Hl as [Hl|Hl]; [exists u; auto|]. exfalso. lia.
Qed.

Lemma covered_later t t' db r L : t <= t' -> Covered t db r L -> Covered t' db r L.
Proof. intros Ht [H1 [H2|H2]]; (split; [exact H1|]); [left; unfold expired in *; lia | right; exact H2]. Qed.

Lemma within_later t t' L : t <= t' -> withinLease t' L = true -> withinLease t L = true.
Proof. unfold withinLease. intros H1 H2. bools. apply Z.ltb_lt. lia. Qed.

Lemma dispInv_later t t' db d : t <= t' -> DispInv t db d -> DispInv t' db d.
Proof.
  intros Ht [H1 H2 H3 H4 H5]. split; auto.
  - intros r L Hc. eapply covered_later; eauto.
  - intros id q Hq Hw. destruct (H3 id q Hq (within_later _ _ _ Ht Hw)) as [Hnd Hr]. split; [exact Hnd|].
    intros r Hin. destruct (Hr r Hin) as [Ha Hb]. split.
    + intros L HL. specialize (Ha L HL). unfold expired in *. lia.
    + intros id' q' Hne Hq' Hin'. specialize (Hb id' q' Hne Hq' Hin').
      destruct (withinLease t' (qu_leasedAt q')) eqn:E; [|reflexivity].
      rewrite (within_later _ _ _ Ht E) in Hb. discriminate.
  - eapply Forall_impl; [exact H5|]. intros D [Ha Hb]. split; [lia | exact Hb].
Qed.

Lemma dispInv_other t db db' d : DbStep t db db' -> DispInv t db d -> DispInv t db' d.
Proof.
  intros Hs [H1 H2 H3 H4 H5]. split; auto; [apply Hs|].
  intros r L Hc. eapply covered_step; eauto.
Qed.

(** ** Steps that hand nothing out *)
Record Quiet (t : Z) (d d' : Dispatcher) : Prop := mkQuiet {
  qt_queued : forall id q, dp_queued d' !! id = Some q -> dp_queued d !! id = Some q;
  qt_log : exists polls, dp_resolved d' = dp_resolved d ++ List.map (fun p => emptyDelivery p t) polls;
}.

Lemma quiet_refl t d d' : dp_queued d' = dp_queued d -> dp_resolved d' = dp_resolved d -> Quiet t d d'.
Proof. intros E1 E2. split; [rewrite E1; auto | exists []; rewrite E2, app_nil_r; reflexivity]. Qed.

Lemma quiet_trans t d1 d2 d3 : Quiet t d1 d2 -> Quiet t d2 d3 -> Quiet t d1 d3.
Proof.
  intros [H1 [p1 E1]] [H2 [p2 E2]]. split; [auto|]. exists (p1 ++ p2).
  rewrite E2, E1, List.map_app, app_assoc. reflexivity.
Qed.

Lemma quiet_claim t d d' r L : Quiet t d d' -> claim d' r L -> claim d r L.
Proof.
  intros [H1 [polls E]] [(id & q & Hq & Hr & HL)|(D & HD & Hr & HL)].
  - left. exists id, q. auto.
  - right. rewrite E in HD. apply in_app_iff in HD as [HD|HD]; [exists D; auto|].
    apply in_map_iff in HD as (p & <- & _). destruct Hr.
Qed.

Lemma logOk_snoc log D :
  LogOk log ->
  (forall r, In r (itemIds (dv_items D)) -> forall D1, In D1 log -> In r (itemIds (dv_items D1)) ->
     dv_leasedAt D1 + INBOX_LEASE_MS < dv_at D) ->
  LogOk (log ++ [D]).
Proof.
  intros Hl HD p D1 m D2 s r E H1 H2. destruct s as [|x s _] using rev_ind.
  - rewrite app_comm_cons, app_assoc in E. apply app_inj_tail in E as [-> ->].
    apply (HD r H2 D1); [|exact H1]. rewrite in_app_iff. simpl. auto.
  - assert (E' : log ++ [D] = (p ++ D1 :: m ++ D2 :: s) ++ [x]).
    { rewrite E, <- app_assoc. simpl. rewrite <- app_assoc. reflexivity. }
    apply app_inj_tail in E' as [-> _]. apply (Hl p D1 m D2 s r); auto.
Qed.

Lemma log_quiet t log polls :
  LogOk log -> Forall (DeliveryOk t) log ->
  LogOk (log ++ List.map (fun p => emptyDelivery p t) polls) /\
  Forall (DeliveryOk t) (log ++ List.map (fun p => emptyDelivery p t) polls).
Proof.
  intros H1 H2. induction polls as [|p polls IH] using rev_ind; simpl; [rewrite app_nil_r; auto|].
  destruct IH as [IH1 IH2]. rewrite List.map_app, app_assoc. simpl. split.
  - apply logOk_snoc; [exact IH1 | intros r []].
  - apply Forall_app. split; [exact IH2|]. apply Forall_singleton. split; [simpl; lia | constructor].
Qed.

Lemma dispInv_quiet t db d d' : Quiet t d d' -> DispInv t db d -> DispInv t db d'.
Proof.
  intros HQ [H1 H2 H3 H4 H5]. pose proof HQ as [Hq [polls E]].
  destruct (log_quiet t _ polls H4 H5) as [Hl Hd]. rewrite <- E in Hl, Hd. split; auto.
  - intros r L Hc. apply H2. eapply quiet_claim; eauto.
  - intros id q Hi Hw. destruct (H3 id q (Hq _ _ Hi) Hw) as [Hnd Hr]. split; [exact Hnd|].
    intros r Hin. destruct (Hr r Hin) as [Ha Hb]. split; [|eauto].
    intros L (D & HD & HrD & HL). rewrite E in HD. apply in_app_iff in HD as [HD|HD].
    + apply Ha. exists D. auto.
    + apply in_map_iff in HD as (p & <- & _). destruct HrD.
Qed.

Lemma incoming_quiet t db d d' L rs : Quiet t d d' -> Incoming t db d L rs -> Incoming t db d' L rs.
Proof.
  intros HQ [Hnd Hr]. split; [exact Hnd|]. intros r Hin. destruct (Hr r Hin) as [Hc He].
  split; [exact Hc|]. intros L' HL'. apply He. eapply quiet_claim; eauto.
Qed.

Lemma quiet_cancel t id d : Quiet t d (cancelWaiter t id d) /\ dp_polling (cancelWaiter t id d) = dp_polling d.
Proof.
  unfold cancelWaiter. destruct (dp_waiters d !! id) as [p|]; [|split; [apply quiet_refl; auto | reflexivity]].
  split; [|reflexivity]. split; [auto|]. exists [p]. reflexivity.
Qed.

Lemma quiet_tickStart t l d : Quiet t d (tickStart t l d).
Proof.
  unfold tickStart. destruct (isSomeB _); [apply quiet_refl; auto|].
  destruct (List.filter _ l); apply quiet_refl; auto.
Qed.

Lemma tickStart_polling t l d : dp_polling d <> None -> tickStart t l d = d.
Proof. unfold tickStart. destruct (dp_polling d); [reflexivity | contradiction]. Qed.

Lemma quiet_tickEnd t d : Quiet t d (tickEnd t d).
Proof.
  unfold tickEnd. set (d1 := setWoken ∅ (setPolling None d)).
  assert (H : Quiet t d d1) by (apply quiet_refl; auto).
  destruct (dp_started d1); [|exact H]. destruct (elements _); [exact H|].
  eapply quiet_trans; [exact H | apply quiet_tickStart].
Qed.

Lemma quiet_stop t d : Quiet t d (stop t d) /\ dp_polling (stop t d) = dp_polling d.
Proof.
  unfold stop. set (d1 := setWoken ∅ (setTimers false true d)).
  assert (H : Quiet t d d1 /\ dp_polling d1 = dp_polling d) by (split; [apply quiet_refl; auto | reflexivity]).
  generalize (List.map fst (map_to_list (dp_waiters d1))). intros l. revert H. generalize d1.
  induction l as [|id l IH]; intros d2 [H1 H2]; simpl; [auto|].
  apply IH. destruct (quiet_cancel t id d2) as [H3 H4]. split; [eapply quiet_trans; eassumption | congruence].
Qed.

(** A batch leaves the queue without being handed out. *)
Lemma quiet_unqueue t id d : Quiet t d (setQueued (delete id (dp_queued d)) d).
Proof.
  split; [|exists []; simpl; rewrite app_nil_r; reflexivity].
  intros id' q. simpl. rewrite lookup_delete_Some. tauto.
Qed.

Lemma quiet_forget t d : Quiet t d (forgetStaleQueued t d).
Proof.
  split; [|exists []; simpl; rewrite app_nil_r; reflexivity].
  intros id q. unfold forgetStaleQueued. simpl. rewrite map_lookup_filter_Some. tauto.
Qed.

Lemma quiet_register t id poll d :
  Quiet t d (setWaiters (<[id := poll]> (dp_waiters (cancelWaiter t id d))) (cancelWaiter t id d)).
Proof. eapply quiet_trans; [apply quiet_cancel | apply quiet_refl; reflexivity]. Qed.

(** ** An answer *)
Lemma claim_resolve d x r L :
  claim (resolve x d) r L -> claim d r L \/ (In r (itemIds (dv_items x)) /\ L = dv_leasedAt x).
Proof.
  intros [(id & q & Hq & Hr & HL)|(D & HD & Hr & HL)]; [left; left; exists id, q; auto|].
  simpl in HD. apply in_app_iff in HD as [HD|[<-|[]]]; [left; right; exists D; auto | auto].
Qed.

(** Rows no running lease claims may be answered, whatever stays queued. *)
Lemma dispInv_resolve t db d x :
  DispInv t db d -> dv_at x = t -> NoDup (itemIds (dv_items x)) ->
  (forall r, In r (itemIds (dv_items x)) ->
     Covered t db r (dv_leasedAt x) /\ (forall L, claimL d r L -> expired t L) /\
     forall id q, dp_queued d !! id = Some q -> In r (itemIds (qu_items q)) -> withinLease t (qu_leasedAt q) = false) ->
  DispInv t db (resolve x d).
Proof.
  intros [H1 H2 H3 H4 H5] Hat Hnd Hx. split; auto.
  - intros r L Hc. apply claim_resolve in Hc as [Hc|[Hr ->]]; [auto | apply (Hx r Hr)].
  - intros id q Hq Hw. simpl in Hq. destruct (H3 id q Hq Hw) as [Ha Hb]. split; [exact Ha|].
    intros r Hin. destruct (Hb r Hin) as [Hc Hd]. split; [|exact Hd].
    intros L (D & HD & HrD & ->). simpl in HD. apply in_app_iff in HD as [HD|[<-|[]]]; [apply Hc; exists D; auto|].
    destruct (Hx r HrD) as (_ & _ & Hq'). specialize (Hq' id q Hq Hin). congruence.
  - simpl. apply logOk_snoc; [exact H4|]. intros r Hr D1 HD1 Hr1. rewrite Hat.
    destruct (Hx r Hr) as (_ & HL & _). apply HL. exists D1. auto.
  - simpl. apply Forall_app. split; [exact H5|]. apply Forall_singleton. split; [rewrite Hat; lia | exact Hnd].
Qed.

(** ** [wait] *)
Lemma dispInv_wait t db d id : DispInv t db d -> DispInv t db (wait t id d).2.
Proof.
  intros H. unfold wait. simpl. set (d0 := mkDispatcher _ _ _ _ _ _ _ _).
  assert (H0 : DispInv t db d0) by (eapply dispInv_quiet; [|exact H]; apply quiet_refl; reflexivity).
  change (dp_stopped d) with (dp_stopped d0). change (dp_queued d) with (dp_queued d0).
  generalize (dp_nextPoll d). intros poll. clearbody d0. clear H d.
  destruct (dp_stopped d0).
  { eapply dispInv_quiet; [|exact H0]. split; [auto | exists [poll]; reflexivity]. }
  destruct (dp_queued d0 !! id) as [ready|] eqn:Eq.
  2: { eapply dispInv_quiet; [apply quiet_register | exact H0]. }
  set (d1 := setQueued (delete id (dp_queued d0)) d0).
  assert (H1 : DispInv t db d1) by (eapply dispInv_quiet; [apply quiet_unqueue | exact H0]).
  destruct (withinLease t (qu_leasedAt ready)) eqn:Ew.
  2: { eapply dispInv_quiet; [apply quiet_register | exact H1]. }
  destruct (di_queue _ _ _ H0 id ready Eq Ew) as [Hnd Hr].
  apply dispInv_resolve; [exact H1 | reflexivity | exact Hnd|]. simpl. intros r Hin. split; [|split].
  - apply (di_cov _ _ _ H0). left. exists id, ready. auto.
  - apply (Hr r Hin).
  - intros id' q. rewrite lookup_delete_Some. intros [Hne Hq] Hin'. apply (proj2 (Hr r Hin) id'); auto.
Qed.

Lemma wait_polling t id d : dp_polling (wait t id d).2 = dp_polling d.
Proof.
  unfold wait. simpl. destruct (dp_stopped d); [reflexivity|].
  destruct (dp_queued d !! id) as [q|]; [destruct (withinLease _ _); [reflexivity|]|];
    simpl; rewrite (proj2 (quiet_cancel t id _)); reflexivity.
Qed.

(** Nothing new is claimed. *)
Lemma claim_wait t id d r L : claim (wait t id d).2 r L -> claim d r L.
Proof.
  unfold wait. simpl. set (d0 := mkDispatcher _ _ _ _ _ _ _ _).
  assert (H0 : forall r L, claim d0 r L -> claim d r L) by auto.
  change (dp_stopped d) with (dp_stopped d0). change (dp_queued d) with (dp_queued d0).
  generalize (dp_nextPoll d). intros poll. clearbody d0.
  destruct (dp_stopped d0).
  { intros Hc. apply claim_resolve in Hc as [Hc|[[] _]]. auto. }
  destruct (dp_queued d0 !! id) as [ready|] eqn:Eq.
  2: { intros Hc. apply H0. eapply quiet_claim; [apply quiet_register | exact Hc]. }
  set (d1 := setQueued (delete id (dp_queued d0)) d0).
  assert (H1 : forall r L, claim d1 r L -> claim d0 r L) by (intros ? ?; apply (quiet_claim t), quiet_unqueue).
  destruct (withinLease t (qu_leasedAt ready)).
  - intros Hc. apply claim_resolve in Hc as [Hc|[Hr ->]]; [auto|]. apply H0. left. exists id, ready. auto.
  - intros Hc. apply H0, H1. eapply quiet_claim; [apply quiet_register | exact Hc].
Qed.

(** ** [handOut] *)
Lemma covered_earlier t db r L L' : L' <= L -> Covered t db r L -> Covered t db r L'.
Proof.
  intros Hle [Hlt Hc]. split; [exact Hlt|]. destruct Hc as [He|Hc]; [left; unfold expired in *; lia | right].
  intros row Hin Hid Hp. destruct (Hc row Hin Hid Hp) as (u & Hu & Hle'). exists u. split; [exact Hu | lia].
Qed.

Lemma incoming_sub t db d L rs rs' :
  Incoming t db d L rs -> NoDup rs' -> (forall r, In r rs' -> In r rs) -> Incoming t db d L rs'.
Proof. intros [_ H] Hnd Hsub. split; [exact Hnd|]. auto. Qed.

(** What a batch in the queue becomes: older rows in front, under the older stamp. *)
Definition merged (pending : option Queued) (items : list InboxItem) (leasedAt : Z) : Queued :=
  match pending with
  | Some p => mkQueued (qu_items p ++ items) (Z.min (qu_leasedAt p) leasedAt)
  | None => mkQueued items leasedAt
  end.

Lemma merged_items pending items L r :
  In r (itemIds (qu_items (merged pending items L))) ->
  In r (itemIds items) \/ exists p, pending = Some p /\ In r (itemIds (qu_items p)).
Proof.
  destruct pending as [p|]; simpl; [|auto]. unfold itemIds. rewrite List.map_app, in_app_iff.
  intros [H|H]; [right; exists p; auto | auto].
Qed.

Lemma merged_stamp pending items L :
  qu_leasedAt (merged pending items L) <= L /\
  forall p, pending = Some p -> qu_leasedAt (merged pending items L) <= qu_leasedAt p.
Proof. destruct pending as [p|]; simpl; (split; [lia|]); intros ? [= <-]; lia. Qed.

Lemma claim_queue id q d r L :
  claim (setQueued (<[id := q]> (dp_queued d)) d) r L ->
  claim d r L \/ (In r (itemIds (qu_items q)) /\ L = qu_leasedAt q).
Proof.
  intros [(id' & q' & Hq & Hr & HL)|(D & HD & Hr & HL)]; [|left; right; exists D; auto].
  simpl in Hq. apply lookup_insert_Some in Hq as [[-> ->]|[Hne Hq]]; [auto|]. left. left. exists id', q'. auto.
Qed.

Lemma dispInv_enqueue t db d id items L :
  DispInv t db d -> Incoming t db d L (itemIds items) ->
  DispInv t db (setQueued (<[id := merged (dp_queued d !! id) items L]> (dp_queued d)) d).
Proof.
  intros H [Hnd Hin]. pose proof H as [H1 H2 H3 H4 H5].
  destruct (merged_stamp (dp_queued d !! id) items L) as [Hst1 Hst2].
  set (q := merged (dp_queued d !! id) items L) in *.
  assert (Hq : forall r, In r (itemIds (qu_items q)) ->
            In r (itemIds items) \/ exists p, dp_queued d !! id = Some p /\ In r (itemIds (qu_items p)))
    by (intros r; apply merged_items).
  split; auto.
  - intros r L' Hc. apply claim_queue in Hc as [Hc|[Hr ->]]; [auto|].
    destruct (Hq r Hr) as [Hi|(p & Ep & Hi)].
    + eapply covered_earlier; [exact Hst1 | apply (Hin r Hi)].
    + eapply covered_earlier; [exact (Hst2 p Ep)|]. apply H2. left. exists id, p. auto.
  - intros id' q' Hq' Hw. simpl in Hq'. apply lookup_insert_Some in Hq' as [[<- <-]|[Hne Hq']].
    + split.
      * unfold q. destruct (dp_queued d !! id) as [p|] eqn:Ep; simpl; [|exact Hnd].
        assert (Hwp : withinLease t (qu_leasedAt p) = true) by (eapply withinLease_le; [apply (Hst2 p eq_refl) | exact Hw]).
        unfold itemIds. rewrite List.map_app. apply NoDup_app. split; [apply (H3 id p Ep Hwp)|]. split; [|exact Hnd].
        intros r Hr Hr'. apply list_elem_of_In in Hr, Hr'. destruct (Hin r Hr') as [_ He].
        apply (within_expired t (qu_leasedAt p) Hwp). apply He. left. exists id, p. auto.
      * intros r Hr. destruct (Hq r Hr) as [Hi|(p & Ep & Hi)].
        -- destruct (Hin r Hi) as [_ He]. split; [intros L' HL'; apply He; right; exact HL'|].
           intros id' q' Hne Hq' Hr'. simpl in Hq'. rewrite lookup_insert_ne in Hq' by congruence.
           apply expired_not_within, He. left. exists id', q'. auto.
        -- assert (Hwp : withinLease t (qu_leasedAt p) = true) by (eapply withinLease_le; [apply (Hst2 p Ep) | exact Hw]).
           destruct (proj2 (H3 id p Ep Hwp) r Hi) as [Ha Hb]. split; [exact Ha|].
           intros id' q' Hne Hq' Hr'. simpl in Hq'. rewrite lookup_insert_ne in Hq' by congruence. eauto.
    + destruct (H3 id' q' Hq' Hw) as [Ha Hb]. split; [exact Ha|]. intros r Hr.
      destruct (Hb r Hr) as [Hc Hd]. split; [exact Hc|]. intros id2 q2 Hne2 Hq2 Hr2. simpl in Hq2.
      apply lookup_insert_Some in Hq2 as [[<- <-]|[_ Hq2]]; [|eauto].
      destruct (withinLease t (qu_leasedAt q)) eqn:Ew; [|reflexivity]. exfalso.
      destruct (Hq r Hr2) as [Hi|(p & Ep & Hi)].
      * apply (within_expired t (qu_leasedAt q') Hw). apply (Hin r Hi). left. exists id', q'. auto.
      * specialize (Hd id p Hne2 Ep Hi).
        rewrite (withinLease_le t _ _ (Hst2 p Ep) Ew) in Hd. discriminate.
Qed.

Lemma handOut_unfold t L d id items :
  handOut t L d (id, items) =
  match dp_waiters d !! id with
  | Some w => resolve (mkDelivery w items L t) (setWaiters (delete id (dp_waiters d)) d)
  | None => setQueued (<[id := merged (dp_queued d !! id) items L]> (dp_queued d)) d
  end.
Proof. unfold handOut, merged. destruct (dp_waiters d !! id); [reflexivity|]. destruct (dp_queued d !! id); reflexivity. Qed.

(** One group is handed out; the rest may still be. *)
Lemma handOut_step t db d id items L rest :
  DispInv t db d -> Incoming t db d L (itemIds items ++ rest) ->
  DispInv t db (handOut t L d (id, items)) /\ Incoming t db (handOut t L d (id, items)) L rest.
Proof.
  intros H Hin. pose proof Hin as [Hnd Hr]. apply NoDup_app in Hnd as (Hnd1 & Hdis & Hnd2).
  assert (H1 : Incoming t db d L (itemIds items)).
  { eapply incoming_sub; [exact Hin | exact Hnd1|]. intros r. rewrite in_app_iff. auto. }
  assert (H2 : forall r, In r rest -> In r (itemIds items) -> False).
  { intros r Ha Hb. apply (Hdis r); apply list_elem_of_In; assumption. }
  rewrite handOut_unfold. destruct (dp_waiters d !! id) as [w|].
  - set (d1 := setWaiters _ _).
    assert (HQ : Quiet t d d1) by (apply quiet_refl; reflexivity). split.
    + apply dispInv_resolve; [eapply dispInv_quiet; eassumption | reflexivity | exact Hnd1|].
      simpl. intros r Hi. destruct (proj2 H1 r Hi) as [Hc He]. split; [exact Hc|]. split.
      * intros L' HL'. apply He. right. exact HL'.
      * intros id' q Hq Hi'. apply expired_not_within, He. left. exists id', q. auto.
    + split; [exact Hnd2|]. intros r Hi. destruct (Hr r ltac:(rewrite in_app_iff; auto)) as [Hc He].
      split; [exact Hc|]. intros L' HL'. apply claim_resolve in HL' as [HL'|[Hr' _]]; [|destruct (H2 r Hi Hr')].
      apply He. eapply quiet_claim; eassumption.
  - split; [apply dispInv_enqueue; assumption|]. split; [exact Hnd2|]. intros r Hi.
    destruct (Hr r ltac:(rewrite in_app_iff; auto)) as [Hc He]. split; [exact Hc|].
    intros L' HL'. apply claim_queue in HL' as [HL'|[Hr' ->]]; [auto|].
    destruct (merged_items _ _ _ _ Hr') as [Hi'|(p & Ep & Hi')]; [destruct (H2 r Hi Hi')|].
    assert (He' : expired t (qu_leasedAt p)) by (apply He; left; exists id, p; auto).
    pose proof (proj2 (merged_stamp (dp_queued d !! id) items L) p Ep). unfold expired in *. lia.
Qed.

Lemma handOuts_inv t db L groups : forall d,
  DispInv t db d -> Incoming t db d L (List.concat (List.map (fun g => itemIds g.2) groups)) ->
  DispInv t db (fold_left (handOut t L) groups d).
Proof.
  induction groups as [|[id items] groups IH]; intros d H Hin; simpl; [exact H|].
  destruct (handOut_step t db d id items L _ H Hin) as [H1 H2]. apply IH; assumption.
Qed.

(** ** The rows of a query *)
Definition leasedId (m : LeasedMessage) : Z := item_id (lm_item m).

Lemma toInboxItem_id r i : toInboxItem r = Some i -> item_id i = ib_id r.
Proof.
  unfold toInboxItem. destruct (ib_payload r) as [[| | | | |fields]|]; try discriminate.
  repeat match goal with |- context [match ?x with _ => _ end] => destruct x; try discriminate end;
    intros [= <-]; reflexivity.
Qed.

Lemma leased_ids_sublist rows :
  sublist (List.map leasedId (omap (fun r => option_map (mkLeased (ib_instanceId r)) (toInboxItem r)) rows))
    (List.map ib_id rows).
Proof.
  induction rows as [|r rows IH]; simpl; [constructor|].
  destruct (toInboxItem r) as [i|] eqn:E; simpl; [|constructor; exact IH].
  unfold leasedId at 1. simpl. rewrite (toInboxItem_id r i E). constructor. exact IH.
Qed.

Lemma leasedMessages_ids rows :
  NoDup (List.map ib_id rows) ->
  NoDup (List.map leasedId (leasedMessages rows)) /\
  forall i, In i (List.map leasedId (leasedMessages rows)) -> In i (List.map ib_id rows).
Proof.
  intros Hnd. pose proof (leased_ids_sublist rows) as Hs. unfold leasedMessages.
  set (l := omap _ rows) in *. 
  assert (Hp : Permutation (List.map leasedId (isort deliveryLeb l)) (List.map leasedId l))
    by (apply Permutation_map, isort_perm).
  split.
  - rewrite Hp. eapply NoDup_sublist; eassumption.
  - intros i Hi. rewrite Hp in Hi. apply list_elem_of_In. apply list_elem_of_In in Hi.
    eapply elem_of_sublist; eassumption.
Qed.

Lemma groups_ids (leased : list LeasedMessage) :
  NoDup (List.map leasedId leased) ->
  NoDup (List.concat (List.map (fun g => itemIds g.2) (groupByInstance leased))) /\
  forall i, In i (List.concat (List.map (fun g => itemIds g.2) (groupByInstance leased))) ->
    In i (List.map leasedId leased).
Proof.
  intros Hnd. unfold groupByInstance.
  assert (Hk : NoDup (remove_dups (List.map lm_instanceId leased))) by apply NoDup_remove_dups.
  revert Hk. generalize (remove_dups (List.map lm_instanceId leased)). intros keys Hk.
  assert (Hin : forall ks i, In i (List.concat (List.map (fun g => itemIds g.2)
             (List.map (fun id => (id, List.map lm_item (List.filter (fun m => str_eqb (lm_instanceId m) id) leased))) ks))) ->
           exists m, In m leased /\ leasedId m = i /\ In (lm_instanceId m) ks).
  { induction ks as [|k ks IH]; simpl; [contradiction|]. intros i. rewrite in_app_iff. unfold itemIds at 1.
    rewrite List.map_map. intros [Hi|Hi].
    - apply in_map_iff in Hi as (m & <- & Hm). apply filter_In in Hm as [Hm Hk']. bools. exists m. auto.
    - destruct (IH i Hi) as (m & Hm & Hi' & Hk'). exists m. auto. }
  split.
  - induction keys as [|k keys IH]; simpl; [constructor|]. apply NoDup_cons in Hk as [Hn Hk].
    apply NoDup_app. split; [|split; [|exact (IH Hk)]].
    + unfold itemIds. rewrite List.map_map. apply (NoDup_sublist _ (List.map leasedId leased)); [|exact Hnd].
      change (fun x => item_id (lm_item x)) with leasedId. clear. induction leased as [|m l IH]; simpl; [constructor|].
      destruct (str_eqb (lm_instanceId m) k); simpl; constructor; exact IH.
    + intros i Hi Hi'. apply list_elem_of_In in Hi, Hi'. apply Hin in Hi' as (m' & Hm' & Ei' & Hk').
      unfold itemIds in Hi. rewrite List.map_map in Hi. apply in_map_iff in Hi as (m & Ei & Hm).
      apply filter_In in Hm as [Hm Hkm]. bools.
      assert (m = m') as <-.
      { apply (NoDup_key_inj leasedId leased); auto. unfold leasedId in *. congruence. }
      apply Hn, list_elem_of_In. congruence.
  - intros i Hi. destruct (Hin _ _ Hi) as (m & Hm & <- & _). apply in_map. exact Hm.
Qed.

Lemma filter_sublist {A} (p : A -> bool) l : sublist (List.filter p l) l.
Proof. induction l as [|x l IH]; simpl; [constructor|]. destruct (p x); constructor; exact IH. Qed.

Lemma query_incoming t db d L locked ids limit :
  DispInv t db d ->
  let r := lease_stmt t (L + INBOX_LEASE_MS) locked ids limit db in
  Incoming t r.2 d L (List.map ib_id r.1).
Proof.
  intros [Hok Hcov _ _ _]. simpl. fold (pickedIds t locked ids limit db).
  set (picked := pickedIds t locked ids limit db). unfold returning. rewrite List.map_map. simpl.
  pose proof Hok as [Hnd Hlt].
  assert (Hrow : forall r, In r (List.map (fun x => ib_id x) (List.filter (inIds picked) (cd_inbox db))) ->
            exists row, In row (cd_inbox db) /\ ib_id row = r /\ inIds picked row = true).
  { intros r Hr. apply in_map_iff in Hr as (row & <- & Hrow). apply filter_In in Hrow as [H1 H2]. exists row. auto. }
  split.
  - eapply NoDup_sublist; [|exact Hnd]. clear. induction (cd_inbox db) as [|x l IH]; simpl; [constructor|].
    destruct (inIds picked x); simpl; constructor; exact IH.
  - intros r Hr. destruct (Hrow r Hr) as (row & Hin & Eid & Hpick).
    destruct (picked_leasable t locked ids limit db row Hok Hin Hpick) as [Hp Hl].
    assert (Hr' : r < cd_nextId db).
    { rewrite Forall_forall in Hlt. rewrite <- Eid. apply Hlt, list_elem_of_In. exact Hin. }
    split.
    + split; [exact Hr'|]. right. simpl. intros row' Hin' Eid' _.
      apply in_update_where in Hin' as (row0 & Hin0 & ->).
      assert (inIds picked row0 = true) as E.
      { apply inIds_in. apply inIds_in in Hpick. destruct (inIds picked row0); simpl in Eid'; congruence. }
      rewrite E. exists (L + INBOX_LEASE_MS). split; [reflexivity | lia].
    + intros L' Hc. destruct (Hcov r L' Hc) as [_ [He|Hc']]; [exact He|].
      destruct (Hc' row Hin Eid Hp) as (u & Hu & Hle). rewrite Hu in Hl. unfold expired. lia.
Qed.

Lemma return_inv t db d L rows :
  DispInv t db d -> Incoming t db d L (List.map ib_id rows) ->
  DispInv t db (tickReturn t L (leasedMessages rows) d).
Proof.
  intros H Hin. unfold tickReturn. eapply dispInv_quiet; [apply quiet_tickEnd|].
  destruct (leasedMessages_ids rows (proj1 Hin)) as [H1 H2].
  destruct (groups_ids (leasedMessages rows) H1) as [H3 H4].
  apply handOuts_inv; [exact H|]. eapply incoming_sub; eauto.
Qed.

Lemma incoming_later t t' db d L rs : t <= t' -> Incoming t db d L rs -> Incoming t' db d L rs.
Proof.
  intros Ht [Hnd Hr]. split; [exact Hnd|]. intros r Hin. destruct (Hr r Hin) as [Hc He].
  split; [eapply covered_later; eassumption|]. intros L' HL. specialize (He L' HL). unfold expired in *. lia.
Qed.

Lemma incoming_other t db db' d L rs : DbStep t db db' -> Incoming t db d L rs -> Incoming t db' d L rs.
Proof.
  intros Hs [Hnd Hr]. split; [exact Hnd|]. intros r Hin. destruct (Hr r Hin) as [Hc He].
  split; [eapply covered_step; eassumption | exact He].
Qed.

(** The part of [SInv] about the query in flight. *)
Definition FlightOk (t : Z) (db : CloudDb) (d : Dispatcher) (l : option (list InboxRow)) : Prop :=
  forall rows, l = Some rows ->
  exists q, dp_polling d = Some q /\ Incoming t db d (qy_leasedAt q) (List.map ib_id rows).

Lemma flight_quiet t db d d' l :
  Quiet t d d' -> (forall q, dp_polling d = Some q -> dp_polling d' = Some q) -> FlightOk t db d l -> FlightOk t db d' l.
Proof.
  intros HQ Hp H rows E. destruct (H rows E) as (q & Hq & Hi). exists q. split; [auto|].
  eapply incoming_quiet; eassumption.
Qed.

Definition SysInv (s : System) : Prop :=
  DispInv (sy_clock s) (sy_db s) (sy_disp s) /\ FlightOk (sy_clock s) (sy_db s) (sy_disp s) (sy_leased s).

Lemma sysInv_quiet t db d d' l :
  Quiet t d d' -> (forall q, dp_polling d = Some q -> dp_polling d' = Some q) ->
  SysInv (mkSystem t db d l) -> SysInv (mkSystem t db d' l).
Proof.
  intros HQ Hp [H1 H2]. split; simpl in *; [eapply dispInv_quiet | eapply flight_quiet]; eassumption.
Qed.

Lemma quiet_wake t id d : Quiet t d (wake t id d) /\ forall q, dp_polling d = Some q -> dp_polling (wake t id d) = Some q.
Proof.
  unfold wake. destruct (dp_waiters d !! id); [|split; [apply quiet_refl; auto | auto]].
  destruct (dp_polling d) eqn:E; simpl; [split; [apply quiet_refl; auto | congruence]|].
  split; [apply quiet_tickStart | discriminate].
Qed.

Lemma sysInv_db t db db' d l : DbStep t db db' -> SysInv (mkSystem t db d l) -> SysInv (mkSystem t db' d l).
Proof.
  intros Hs [H1 H2]. split; simpl in *; [eapply dispInv_other; eassumption|].
  intros rows E. destruct (H2 rows E) as (q & Hq & Hi). exists q. split; [exact Hq | eapply incoming_other; eassumption].
Qed.

Lemma sysInv_wait t db d l id : SysInv (mkSystem t db d l) -> SysInv (mkSystem t db (wait t id d).2 l).
Proof.
  intros [H1 H2]. split; cbn [sy_clock sy_db sy_disp sy_leased] in *; [apply dispInv_wait; exact H1|].
  intros rows E. destruct (H2 rows E) as (q & Hq & Hi). exists q. rewrite wait_polling. split; [exact Hq|].
  destruct Hi as [Hnd Hi]. split; [exact Hnd|]. intros r Hr. destruct (Hi r Hr) as [Hc He].
  split; [exact Hc|]. intros L' HL. apply He. eapply claim_wait. exact HL.
Qed.

Lemma sysInv_step s s' : SysInv s -> SysStep s s' -> SysInv s'.
Proof.
  intros HI Hs. destruct Hs.
  - destruct HI as [H1 H2]. split; simpl in *; [eapply dispInv_later; eassumption|].
    intros rows E. destruct (H2 rows E) as (q & Hq & Hi). exists q. split; [exact Hq | eapply incoming_later; eassumption].
  - eapply sysInv_db; [|exact HI]. apply other_step; [apply HI | assumption].
  - apply sysInv_wait. exact HI.
  - destruct (quiet_cancel t id d) as [HQ E]. eapply sysInv_quiet; [exact HQ | | exact HI].
    intros q. unfold timeout. rewrite E. auto.
  - destruct (quiet_wake t id d) as [HQ Hp]. eapply sysInv_quiet; eassumption.
  - eapply sysInv_quiet; [apply quiet_tickStart | | exact HI]. intros q Hq.
    unfold tickAll. rewrite tickStart_polling by congruence. exact Hq.
  - pose proof (query_incoming t db d (qy_leasedAt q) locked (qy_asking q) INBOX_MAX_BATCH (proj1 HI)) as Hq.
    destruct HI as [H1 _]. split; cbn [sy_clock sy_db sy_disp sy_leased].
    + eapply dispInv_other; [|exact H1]. apply leased_step, H1.
    + intros rows [= <-]. exists q. split; [assumption | exact Hq].
  - eapply sysInv_db; [|exact HI]. apply (other_step t db); [apply HI | constructor].
  - destruct HI as [H1 H2]. destruct (H2 rows eq_refl) as (q' & Hq' & Hi). simpl in *.
    split; cbn [sy_clock sy_db sy_disp sy_leased]; [|discriminate].
    replace (qy_leasedAt q) with (qy_leasedAt q') by congruence. apply return_inv; assumption.
  - destruct HI as [H1 _]. split; cbn [sy_clock sy_db sy_disp sy_leased]; [|discriminate].
    eapply dispInv_quiet; [apply quiet_tickEnd | exact H1].
  - apply (sysInv_quiet t db d); [apply quiet_forget | auto | exact HI].
  - apply (sysInv_quiet t db d); [apply quiet_refl; reflexivity | auto | exact HI].
  - destruct (quiet_stop t d) as [HQ E]. eapply sysInv_quiet; [exact HQ | | exact HI]. rewrite E. auto.
Qed.

Lemma sysInv_init t db : cd_inbox db = [] -> SysInv (mkSystem t db initDispatcher None).
Proof.
  intros E. split; [|intros rows; discriminate]. split; simpl.
  - unfold InboxOk. rewrite E. split; constructor.
  - intros r L [(id & q & Hq & _)|(D & [] & _)]. destruct (lookup_empty_Some _ _ Hq).
  - intros id q Hq. destruct (lookup_empty_Some _ _ Hq).
  - intros p D1 m D2 s r Hl. destruct p; discriminate.
  - constructor.
Qed.

Lemma sysInv_reachable s : SysReachable s -> SysInv s.
Proof.
  intros (t & db & E & Hr). pose proof (sysInv_init t db E) as H0.
  induction Hr as [|s1 s2 s3 Hs _ IH]; [exact H0|]. apply IH. eapply sysInv_step; eassumption.
Qed.

(** C6: However the polls of the plugins, the queries of the dispatcher, their
    delays and failures, the webhook's inserts, acknowledgements, owner echoes,
    the sweeper and another orchestrator's leases interleave, a message is not
    handed out a second time while the lease of the first hand-out runs: of two
    answers with a row in common the later one comes after the earlier one's
    stamp plus the lease.  And no answer holds a row twice. *)
Theorem inbox_no_double_delivery s :
  SysReachable s ->
  (forall before D1 between D2 after r,
     dp_resolved (sy_disp s) = before ++ D1 :: between ++ D2 :: after ->
     In r (List.map item_id (dv_items D1)) -> In r (List.map item_id (dv_items D2)) ->
     dv_leasedAt D1 + INBOX_LEASE_MS < dv_at D2) /\
  Forall (fun D => NoDup (List.map item_id (dv_items D))) (dp_resolved (sy_disp s)).
Proof.
  intros H. apply sysInv_reachable in H as [[_ _ _ H1 H2] _]. split; [exact H1|].
  eapply Forall_impl; [exact H2|]. intros D [_ H]. exact H.
Qed.

(** A message comes in while its bot polls, and is answered; the plugin polls
    again without having acknowledged it: the next answer is after the lease. *)
Definition demoRow : InboundRow :=
  mkInboundRow In_message "wamid.1" "bot-1" (Some "972500000001") None 5 5
    [("from", JStr "972500000001"); ("message", JObj [])].
Definition demoDb : CloudDb := (enqueue 10 [demoRow] (mkCloudDb 1 [] [] [] [] [])).2.
Definition demoQuery (t : Z) (db : CloudDb) : list InboxRow * CloudDb :=
  lease_stmt t (t + INBOX_LEASE_MS) (fun _ => false) ["bot-1"] INBOX_MAX_BATCH db.
Definition demoWaiting : Dispatcher := tickAll 20 (wait 10 "bot-1" initDispatcher).2.
Definition demoAnswered : Dispatcher :=
  tickReturn 30 20 (leasedMessages (demoQuery 20 demoDb).1) demoWaiting.
Definition demoAgain : Dispatcher := tickAll 70000 (wait 40 "bot-1" demoAnswered).2.
Definition demoDb2 : CloudDb := (demoQuery 20 demoDb).2.
Definition demoEnd : System :=
  mkSystem 70010 (demoQuery 70000 demoDb2).2
    (tickReturn 70010 70000 (leasedMessages (demoQuery 70000 demoDb2).1) demoAgain) None.

Lemma demo_polling1 : dp_polling demoWaiting = Some (mkQuery ["bot-1"] 20).
Proof. vm_compute. reflexivity. Qed.

Lemma demo_polling2 : dp_polling demoAgain = Some (mkQuery ["bot-1"] 70000).
Proof. vm_compute. reflexivity. Qed.

(** A query and its answer, after [wait] and [tickAll]. *)
Lemma demo_round t t' db d :
  dp_polling d = Some (mkQuery ["bot-1"] t) -> t <= t' ->
  rtc SysStep (mkSystem t db d None)
    (mkSystem t' (demoQuery t db).2 (tickReturn t' t (leasedMessages (demoQuery t db).1) d) None).
Proof.
  intros Hp Ht. eapply rtc_l; [exact (sys_query t db d _ (fun _ => false) Hp)|].
  eapply rtc_l; [apply (sys_clock t t'); exact Ht|].
  eapply rtc_l; [exact (sys_return t' _ d _ _ Hp)|]. apply rtc_refl.
Qed.

Lemma demo_poll t t' db d :
  t <= t' -> rtc SysStep (mkSystem t db d None) (mkSystem t' db (tickAll t' (wait t "bot-1" d).2) None).
Proof.
  intros Ht. eapply rtc_l; [apply (sys_wait t db d None "bot-1")|].
  eapply rtc_l; [apply (sys_clock t t'); exact Ht|]. apply rtc_once, sys_tick.
Qed.

Lemma demo_reachable : SysReachable demoEnd.
Proof.
  exists 10, (mkCloudDb 1 [] [] [] [] []). split; [reflexivity|].
  apply (rtc_l _ _ (mkSystem 10 demoDb initDispatcher None)); [apply sys_other, other_enqueue|].
  transitivity (mkSystem 20 demoDb demoWaiting None); [apply demo_poll; lia|].
  transitivity (mkSystem 30 demoDb2 demoAnswered None); [apply demo_round; [apply demo_polling1 | lia]|].
  apply (rtc_l _ _ (mkSystem 40 demoDb2 demoAnswered None)); [apply sys_clock; lia|].
  transitivity (mkSystem 70000 demoDb2 demoAgain None); [apply demo_poll; lia|].
  apply demo_round; [apply demo_polling2 | lia].
Qed.

Lemma inbox_no_double_delivery_witness :
  exists D1 D2, dp_resolved (sy_disp demoEnd) = [D1; D2] /\ List.map item_id (dv_items D1) = [1] /\
    List.map item_id (dv_items D2) = [1] /\ dv_leasedAt D1 + INBOX_LEASE_MS < dv_at D2.
Proof.
  do 2 eexists. split; [vm_compute; reflexivity|]. split; [reflexivity|]. split; [reflexivity|].
  eapply (proj1 (inbox_no_double_delivery demoEnd demo_reachable) [] _ [] _ [] 1);
    [vm_compute; reflexivity | left; reflexivity | left; reflexivity].
Defined.
