(* ===== verification/InboxDelivery.v ===== *)
(** What a waiting bot gets: a tick that finds the bot among those asking
    resolves its poll with the oldest messages nobody has on lease, in the
    delivery order. *)
From Stdlib Require Import Sorted.
From S2P Require Import Prelude Json Fleet CloudInbox InboxDispatcher InboxSafety.
From stdpp Require Import list strings gmap sorting.
#[local] Open Scope Z_scope.

Section Sorted_.
Context {A B : Type} (R : A -> A -> Prop).

Lemma sorted_filter (p : A -> bool) l : StronglySorted R l -> StronglySorted R (List.filter p l).
Proof.
  induction 1 as [|x l Hl IH Hx]; simpl; [constructor|]. destruct (p x); [|exact IH].
  constructor; [exact IH|]. apply Forall_forall. rewrite Forall_forall in Hx. intros y Hy. apply Hx.
  apply list_elem_of_In. apply list_elem_of_In, filter_In in Hy. apply Hy.
Qed.

Lemma sorted_take n l : StronglySorted R l -> StronglySorted R (take n l).
Proof.
  intros H. revert n. induction H as [|x l Hl IH Hx]; intros [|n]; simpl; try constructor; [apply IH|].
  apply Forall_forall. rewrite Forall_forall in Hx. intros y Hy. apply Hx. apply elem_of_take in Hy as (i & Hy & _).
  eapply list_elem_of_lookup_2. exact Hy.
Qed.

Lemma sorted_omap (S : B -> B -> Prop) (f : A -> option B) l :
  (forall x y x' y', f x = Some x' -> f y = Some y' -> R x y -> S x' y') ->
  StronglySorted R l -> StronglySorted S (omap f l).
Proof.
  intros Hf. induction 1 as [|x l Hl IH Hx]; simpl; [constructor|].
  destruct (f x) as [x'|] eqn:E; [|exact IH]. constructor; [exact IH|].
  apply Forall_forall. rewrite Forall_forall in Hx. intros y' Hy. apply list_elem_of_omap in Hy as (y & Hy & E').
  eapply Hf; [exact E | exact E' | apply Hx; exact Hy].
Qed.
End Sorted_.

(** ** The batch of a bot *)
Definition oldest (now : Z) (instanceId : string) (db : CloudDb) : list InboxRow :=
  take INBOX_MAX_BATCH (isort rowLeb (List.filter (leasable now (fun _ => false) instanceId) (cd_inbox db))).

Definition batch (now : Z) (instanceId : string) (db : CloudDb) : list InboxItem :=
  omap toInboxItem (oldest now instanceId db).

Lemma rowLeb_total a b : rowLeb a b = true \/ rowLeb b a = true.
Proof.
  unfold rowLeb. destruct (Z.lt_trichotomy (ib_waTimestamp a) (ib_waTimestamp b)) as [H|[H|H]].
  - left. apply orb_true_iff. left. apply Z.ltb_lt. exact H.
  - rewrite H, Z.ltb_irrefl, Z.eqb_refl. simpl. rewrite !Z.leb_le. lia.
  - right. apply orb_true_iff. left. apply Z.ltb_lt. exact H.
Qed.

(** The lexicographic order on (time, id). *)
Definition lexLe (t1 i1 t2 i2 : Z) : Prop := t1 < t2 \/ (t1 = t2 /\ i1 <= i2).

Lemma rowLeb_lex a b : rowLeb a b = true <-> lexLe (ib_waTimestamp a) (ib_id a) (ib_waTimestamp b) (ib_id b).
Proof. unfold rowLeb, lexLe. rewrite orb_true_iff, andb_true_iff, Z.ltb_lt, Z.eqb_eq, Z.leb_le. reflexivity. Qed.

Lemma deliveryLeb_lex a b : deliveryLeb a b = true <->
  lexLe (item_timestamp (lm_item a)) (item_id (lm_item a)) (item_timestamp (lm_item b)) (item_id (lm_item b)).
Proof. unfold deliveryLeb, lexLe. rewrite orb_true_iff, andb_true_iff, Z.ltb_lt, Z.eqb_eq, Z.leb_le. reflexivity. Qed.

Definition itemLe (a b : InboxItem) : Prop := lexLe (item_timestamp a) (item_id a) (item_timestamp b) (item_id b).

Lemma rows_sorted l : StronglySorted (fun a b => rowLeb a b = true) (isort rowLeb l).
Proof.
  apply isort_sorted; [apply rowLeb_total|]. intros x y z. rewrite !rowLeb_lex. unfold lexLe. lia.
Qed.

Lemma deliveries_sorted l : StronglySorted (fun a b => deliveryLeb a b = true) (isort deliveryLeb l).
Proof.
  apply isort_sorted.
  - intros a b. rewrite !deliveryLeb_lex. unfold lexLe. lia.
  - intros x y z. rewrite !deliveryLeb_lex. unfold lexLe. lia.
Qed.

Lemma toInboxItem_timestamp r i : toInboxItem r = Some i -> item_timestamp i = ib_waTimestamp r.
Proof.
  unfold toInboxItem. destruct (ib_payload r) as [[| | | | |fields]|]; try discriminate.
  repeat match goal with |- context [match ?x with _ => _ end] => destruct x; try discriminate end;
    intros [= <-]; reflexivity.
Qed.

Lemma batch_sorted now id db : StronglySorted itemLe (batch now id db).
Proof.
  unfold batch, oldest. eapply sorted_omap; [|apply sorted_take, rows_sorted].
  intros x y x' y' Hx Hy. rewrite rowLeb_lex. unfold itemLe.
  rewrite (toInboxItem_timestamp x x'), (toInboxItem_timestamp y y'), (toInboxItem_id x x'), (toInboxItem_id y y') by assumption.
  auto.
Qed.

(** ** The bot's part of the returned rows *)
Section Group.
Context (now leasedUntil : Z) (asking : list string) (db : CloudDb) (id : string).
Hypothesis db_ok : InboxOk db.
Hypothesis asked : In id asking.

Let returned := (lease_stmt now leasedUntil (fun _ => false) asking INBOX_MAX_BATCH db).1.
Let picked := pickedIds now (fun _ => false) asking INBOX_MAX_BATCH db.
Let group := List.map lm_item (List.filter (fun m => str_eqb (lm_instanceId m) id) (leasedMessages returned)).

Lemma oldest_leasable r i : In r (oldest now i db) -> In r (cd_inbox db) /\ leasable now (fun _ => false) i r = true.
Proof.
  unfold oldest. intros H. apply list_elem_of_In, elem_of_take in H as (n & H & _).
  apply list_elem_of_lookup_2, list_elem_of_In, isort_in, filter_In in H. exact H.
Qed.

Lemma oldest_picked r :
  In r (oldest now id db) <-> In r (cd_inbox db) /\ (inIds picked r && str_eqb (ib_instanceId r) id) = true.
Proof.
  split.
  - intros H. destruct (oldest_leasable r id H) as [Hin Hl]. split; [exact Hin|].
    unfold leasable in Hl. bools. apply andb_true_iff. split; [|apply str_eqb_eq; assumption].
    apply inIds_in. unfold picked, pickedIds. apply in_concat. exists (pickFor now (fun _ => false) INBOX_MAX_BATCH db id).
    split; [apply in_map; exact asked|]. unfold pickFor. apply in_map. exact H.
  - intros [Hin H]. bools. apply inIds_in in H. unfold picked, pickedIds in H.
    apply in_concat in H as (l & Hl & Hi). apply in_map_iff in Hl as (i & <- & _).
    unfold pickFor in Hi. apply in_map_iff in Hi as (r' & Er & Hr').
    fold (oldest now i db) in Hr'. destruct (oldest_leasable r' i Hr') as [Hin' Hl].
    assert (r' = r) as -> by (apply (NoDup_key_inj ib_id (cd_inbox db)); auto; apply db_ok).
    unfold leasable in Hl. bools. congruence.
Qed.

Lemma group_raw u (p : InboxRow -> bool) l :
  List.map lm_item (List.filter (fun m => str_eqb (lm_instanceId m) id)
    (omap (fun r => option_map (mkLeased (ib_instanceId r)) (toInboxItem r)) (Prelude.returning p (leased u) l))) =
  omap toInboxItem (List.filter (fun r => p r && str_eqb (ib_instanceId r) id) l).
Proof.
  unfold Prelude.returning. induction l as [|r l IH]; simpl; [reflexivity|].
  destruct (p r); simpl; [|exact IH].
  change (toInboxItem (leased u r)) with (toInboxItem r).
  destruct (str_eqb (ib_instanceId r) id) eqn:E; destruct (toInboxItem r) eqn:Ei; simpl; rewrite ?E, ?Ei; simpl;
    first [exact IH | f_equal; exact IH].
Qed.

Lemma group_perm : group ≡ₚ batch now id db.
Proof.
  assert (H1 : oldest now id db ≡ₚ List.filter (fun r => inIds picked r && str_eqb (ib_instanceId r) id) (cd_inbox db)).
  { destruct db_ok as [Hnd _]. apply NoDup_fmap_1 in Hnd. apply NoDup_Permutation.
    - unfold oldest. eapply NoDup_sublist; [apply sublist_take|]. rewrite isort_perm.
      eapply NoDup_sublist; [apply filter_sublist | exact Hnd].
    - eapply NoDup_sublist; [apply filter_sublist | exact Hnd].
    - intros r. rewrite !list_elem_of_In, filter_In. apply oldest_picked. }
  unfold batch. rewrite H1, <- (group_raw leasedUntil). unfold group, leasedMessages.
  apply Permutation_map, filter_perm, isort_perm.
Qed.

Lemma group_sorted : StronglySorted itemLe group.
Proof.
  unfold group. pose proof (sorted_filter _ (fun m => str_eqb (lm_instanceId m) id) _
    (deliveries_sorted (omap (fun r => option_map (mkLeased (ib_instanceId r)) (toInboxItem r)) returned))) as H.
  fold (leasedMessages returned) in H. induction H as [|m l Hl IH Hm]; simpl; [constructor|].
  constructor; [exact IH|]. apply Forall_forall. rewrite Forall_forall in Hm. intros i Hi.
  apply list_elem_of_In, in_map_iff in Hi as (m' & <- & Hm'). apply deliveryLeb_lex, Hm, list_elem_of_In, Hm'.
Qed.

Lemma batch_ids_nodup : NoDup (List.map item_id (batch now id db)).
Proof.
  assert (Hs : sublist (List.map item_id (batch now id db)) (List.map ib_id (oldest now id db))).
  { unfold batch. induction (oldest now id db) as [|r l IH]; simpl; [constructor|].
    destruct (toInboxItem r) as [i|] eqn:E; simpl; [|constructor; exact IH].
    rewrite (toInboxItem_id r i E). constructor. exact IH. }
  eapply NoDup_sublist; [exact Hs|]. destruct db_ok as [Hnd _]. unfold oldest.
  eapply NoDup_sublist; [apply fmap_sublist, sublist_take|]. rewrite (Permutation_map ib_id (isort_perm rowLeb _)).
  eapply NoDup_sublist; [apply fmap_sublist, filter_sublist | exact Hnd].
Qed.

(** The bot's share of what the query returns is its batch, in order. *)
Lemma group_batch : group = batch now id db.
Proof.
  apply (StronglySorted_unique_strong itemLe); [|apply group_sorted | apply batch_sorted | apply group_perm].
  intros x y Hx Hy Hxy Hyx. apply (NoDup_key_inj item_id (batch now id db)).
  - apply batch_ids_nodup.
  - apply list_elem_of_In. rewrite <- group_perm. exact Hx.
  - apply list_elem_of_In. exact Hy.
  - unfold itemLe, lexLe in *. lia.
Qed.
End Group.

(** ** Handing out *)
Lemma handOut_log t L d g :
  exists extra, dp_resolved (handOut t L d g) = dp_resolved d ++ extra.
Proof.
  destruct g as [i items]. rewrite handOut_unfold. destruct (dp_waiters d !! i); eexists; [reflexivity|].
  simpl. symmetry. apply app_nil_r.
Qed.

Lemma handOuts_log t L groups : forall d,
  exists extra, dp_resolved (fold_left (handOut t L) groups d) = dp_resolved d ++ extra.
Proof.
  induction groups as [|g groups IH]; intros d; simpl; [exists []; symmetry; apply app_nil_r|].
  destruct (IH (handOut t L d g)) as [e1 ->]. destruct (handOut_log t L d g) as [e2 ->].
  exists (e2 ++ e1). rewrite app_assoc. reflexivity.
Qed.

Lemma handOut_waiter t L d i items id :
  i <> id -> dp_waiters (handOut t L d (i, items)) !! id = dp_waiters d !! id.
Proof.
  intros H. rewrite handOut_unfold. destruct (dp_waiters d !! i); simpl; [|reflexivity].
  apply lookup_delete_ne. exact H.
Qed.

Lemma handOuts_waiter t L id poll items groups : forall d,
  dp_waiters d !! id = Some poll -> NoDup (List.map fst groups) -> In (id, items) groups ->
  In (mkDelivery poll items L t) (dp_resolved (fold_left (handOut t L) groups d)).
Proof.
  induction groups as [|[i its] groups IH]; intros d Hw Hnd Hin; [destruct Hin|]. cbn [fold_left List.map fst] in *.
  apply NoDup_cons in Hnd as [Hn Hnd]. destruct Hin as [[= -> ->]|Hin].
  - destruct (handOuts_log t L groups (handOut t L d (id, items))) as [extra E].
    rewrite E. clear E.
    rewrite handOut_unfold, Hw. simpl. rewrite !in_app_iff. simpl. auto.
  - apply IH; [|exact Hnd | exact Hin]. rewrite handOut_waiter; [exact Hw|]. intros ->. apply Hn.
    apply list_elem_of_In. exact (in_map fst _ _ Hin).
Qed.

Lemma tickEnd_log t d : dp_resolved (tickEnd t d) = dp_resolved d.
Proof.
  unfold tickEnd. destruct (dp_started _); [|reflexivity]. destruct (elements _) as [|w l]; [reflexivity|].
  unfold tickStart. destruct (isSomeB _); [reflexivity|]. destruct (List.filter _ _); reflexivity.
Qed.

Lemma tickStart_asks t l d id poll :
  dp_polling d = None -> dp_waiters d !! id = Some poll -> In id l ->
  exists asking, In id asking /\ tickStart t l d = setPolling (Some (mkQuery asking t)) d.
Proof.
  intros Hp Hw Hin. unfold tickStart. rewrite Hp. simpl.
  assert (Ha : In id (List.filter (fun i => isSomeB (dp_waiters d !! i)) l)).
  { apply filter_In. rewrite Hw. auto. }
  destruct (List.filter _ l) as [|a asking]; [destruct Ha|]. exists (a :: asking). auto.
Qed.

Lemma groups_nodup leased : NoDup (List.map fst (groupByInstance leased)).
Proof.
  unfold groupByInstance. rewrite List.map_map. simpl. rewrite List.map_id. apply NoDup_remove_dups.
Qed.

Lemma in_groups leased id :
  let items := List.map lm_item (List.filter (fun m => str_eqb (lm_instanceId m) id) leased) in
  items <> [] -> In (id, items) (groupByInstance leased).
Proof.
  simpl. intros H. unfold groupByInstance. apply in_map_iff. exists id. split; [reflexivity|].
  apply list_elem_of_In, elem_of_remove_dups, list_elem_of_In, in_map_iff.
  destruct (List.filter _ leased) as [|m l] eqn:E; [destruct H; reflexivity|]. exists m.
  assert (Hm : In m (List.filter (fun m => str_eqb (lm_instanceId m) id) leased)) by (rewrite E; left; reflexivity).
  apply filter_In in Hm as [Hm Hi]. bools. auto.
Qed.


