(* ===== verification/InboxDedupe.v ===== *)
(** Webhooks that Meta sends again: a message whose row is still in the table is
    not queued a second time, and the rows are kept past Meta's last retry. *)
From S2P Require Import Prelude Json Fleet CloudInbox InboxDispatcher InboxSafety.
From stdpp Require Import list strings.
#[local] Open Scope Z_scope.

(** What goes on between two deliveries of a webhook: everything but the removal
    of the bot, with the sweeper's bounds as the dispatcher works them out. *)
Inductive LaterStep (now : Z) : CloudDb -> CloudDb -> Prop :=
| later_enqueue rows d : LaterStep now d (enqueue now rows d).2
| later_ack id ids d : LaterStep now d (ack now id ids d).2
| later_echoes id echoes d : LaterStep now d (applyOwnerEchoes now id echoes OWNER_HOLD_MS d).2
| later_drop ids d : LaterStep now d (drop_stmt now ids d)
| later_sweepDrop d : LaterStep now d (sweepDrop_stmt now (sweepInput now) d).2
| later_sweepDelete d : LaterStep now d (sweepDelete_stmt (sweepInput now) d)
| later_sweepConvs d : LaterStep now d (sweepConvs_stmt (sweepInput now) d)
| later_sweepSends d : LaterStep now d (sweepSends_stmt (sweepInput now) d)
| later_lease leasedUntil locked ids limit d :
    LaterStep now d (lease_stmt now leasedUntil locked ids limit d).2.

(** Such steps from [t] to [t']. *)
Inductive LaterRun : Z -> CloudDb -> Z -> CloudDb -> Prop :=
| laterRun_refl t d : LaterRun t d t d
| laterRun_wait t d t1 d1 t2 : LaterRun t d t1 d1 -> t1 <= t2 -> LaterRun t d t2 d1
| laterRun_step t d t1 d1 d2 : LaterRun t d t1 d1 -> LaterStep t1 d1 d2 -> LaterRun t d t1 d2.

(** The marker of a message that came in at [t0] or later. *)
Definition sinceOrNever (t0 : Z) (at_ : option Z) : Prop := match at_ with None => True | Some a => t0 <= a end.
Definition marks (t0 : Z) (wamid : string) (r : InboxRow) : Prop :=
  ib_wamid r = wamid /\ sinceOrNever t0 (ib_ackedAt r) /\ sinceOrNever t0 (ib_droppedAt r).
Definition Kept (t0 : Z) (wamid : string) (d : CloudDb) : Prop :=
  exists r, In r (cd_inbox d) /\ marks t0 wamid r.

Lemma kept_update t0 w p f d :
  (forall r, marks t0 w r -> marks t0 w (f r)) ->
  Kept t0 w d -> Kept t0 w (setInbox (update_where p f (cd_inbox d)) d).
Proof.
  intros Hf (r & Hin & Hm). exists (if p r then f r else r). split.
  - simpl. apply in_update_where. exists r. auto.
  - destruct (p r); auto.
Qed.

Lemma kept_same t0 w d d' : cd_inbox d' = cd_inbox d -> Kept t0 w d -> Kept t0 w d'.
Proof. unfold Kept. intros ->. auto. Qed.

Lemma kept_ack t0 w now id l d : t0 <= now -> Kept t0 w d -> Kept t0 w (ack now id l d).2.
Proof.
  intros Ht H. destruct l as [|i l]; [exact H|]. apply kept_update; [|exact H].
  intros r (H1 & _ & H3). split; [exact H1|]. split; [exact Ht | exact H3].
Qed.

Lemma marks_dropped t0 w now r : t0 <= now -> marks t0 w r -> marks t0 w (dropped now r).
Proof. intros Ht (H1 & H2 & _). split; [exact H1|]. split; [exact H2 | exact Ht]. Qed.

Lemma insertOne_inbox now acc row :
  exists l, cd_inbox (insertOne now acc row).1 = cd_inbox acc.1 ++ l.
Proof.
  destruct acc as [d fresh]. unfold insertOne. destruct (List.existsb _ _); simpl;
    eexists; [symmetry; apply app_nil_r | reflexivity].
Qed.

Lemma insertAll_inbox now rows : forall acc,
  exists l, cd_inbox (fold_left (insertOne now) rows acc).1 = cd_inbox acc.1 ++ l.
Proof.
  induction rows as [|row rows IH]; intros acc; simpl; [exists []; symmetry; apply app_nil_r|].
  destruct (IH (insertOne now acc row)) as [l1 ->]. destruct (insertOne_inbox now acc row) as [l2 ->].
  exists (l2 ++ l1). rewrite app_assoc. reflexivity.
Qed.

Lemma noteAll_inbox fresh rows : forall d, cd_inbox (fold_left (noteInbound fresh) rows d) = cd_inbox d.
Proof.
  induction rows as [|row rows IH]; intros d; simpl; [reflexivity|].
  rewrite IH. apply noteInbound_same.
Qed.

Lemma enqueue_inbox now rows d :
  exists l, cd_inbox (enqueue now rows d).2 = cd_inbox d ++ l.
Proof.
  unfold enqueue. destruct rows as [|x rows]; [exists []; symmetry; apply app_nil_r|].
  pose proof (insertAll_inbox now (x :: rows) (d, [])) as H.
  destruct (fold_left (insertOne now) (x :: rows) (d, [])) as [d1 fresh]. cbn [snd fst] in *.
  rewrite noteAll_inbox. exact H.
Qed.

Lemma kept_later t0 w now d d' :
  t0 <= now -> now <= t0 + INBOX_RETAIN_ACKED_MS -> LaterStep now d d' -> Kept t0 w d -> Kept t0 w d'.
Proof.
  intros Ht Hn Hs. destruct Hs; intros H.
  - destruct H as (r & Hin & Hm). destruct (enqueue_inbox now rows d) as [l E]. exists r.
    split; [rewrite E; apply in_app_iff; auto | exact Hm].
  - apply kept_ack; assumption.
  - unfold applyOwnerEchoes. destruct echoes as [|e es]; [exact H|]. set (l := isort echoLeb (e :: es)).
    pose proof (holdSteps_same id OWNER_HOLD_MS now l [] d) as [E _].
    destruct (fold_left _ l ([], d)) as [held d1]. cbn [snd] in *.
    apply kept_ack; [exact Ht|]. eapply kept_same; eassumption.
  - apply kept_update; [|exact H]. intros r. apply marks_dropped. exact Ht.
  - apply kept_update; [|exact H]. intros r. apply marks_dropped. exact Ht.
  - destruct H as (r & Hin & Hm). exists r. split; [|exact Hm]. simpl. apply filter_In. split; [exact Hin|].
    destruct Hm as (_ & H1 & H2). unfold finishedBefore, olderThan. simpl.
    destruct (ib_ackedAt r), (ib_droppedAt r); simpl in *; rewrite ?orb_false_r;
      try reflexivity; rewrite ?negb_orb, ?andb_true_iff, ?negb_true_iff, ?Z.ltb_ge; lia.
  - eapply kept_same; [|exact H]. reflexivity.
  - eapply kept_same; [|exact H]. reflexivity.
  - apply kept_update; [|exact H]. intros r Hr. exact Hr.
Qed.

Lemma laterRun_le t d t' d' : LaterRun t d t' d' -> t <= t'.
Proof. induction 1; lia. Qed.

Lemma kept_run t0 w d t' d' :
  LaterRun t0 d t' d' -> t' <= t0 + INBOX_RETAIN_ACKED_MS -> Kept t0 w d -> Kept t0 w d'.
Proof.
  intros H. induction H as [t d|t d t1 d1 t2 Hr IH Hle|t d t1 d1 d2 Hr IH Hs]; intros Hb HK;
    [exact HK | apply IH; auto; lia|].
  eapply kept_later; [eapply laterRun_le; exact Hr | exact Hb | exact Hs | apply IH; auto].
Qed.

(** The rows a first delivery leaves. *)
Lemma insertAll_kept now rows : forall acc row,
  In row rows -> Forall (fun r => ~ In r (List.map ib_wamid (cd_inbox acc.1)) \/ Kept now r acc.1) (List.map iw_wamid rows) ->
  Kept now (iw_wamid row) (fold_left (insertOne now) rows acc).1.
Proof.
  assert (Hmono : forall w acc rows, Kept now w acc.1 -> Kept now w (fold_left (insertOne now) rows acc).1).
  { intros w acc l (r & Hin & Hm). destruct (insertAll_inbox now l acc) as [l' E]. exists r.
    split; [rewrite E; apply in_app_iff; auto | exact Hm]. }
  assert (Hone : forall acc row, ~ In (iw_wamid row) (List.map ib_wamid (cd_inbox acc.1)) ->
             cd_inbox (insertOne now acc row).1 = cd_inbox acc.1 ++
               [mkInboxRow (cd_nextId acc.1) (iw_wamid row) (iw_instanceId row) (iw_waTimestamp row)
                  (Some (JObj (iw_payload row))) now 0 None None None]).
  { intros [d fresh] row Hn. unfold insertOne. destruct (List.existsb _ _) eqn:E; [|reflexivity].
    exfalso. apply Hn. apply existsb_exists in E as (r & Hr & Er). unfold hasWamid in Er. bools.
    rewrite <- Er. apply in_map. exact Hr. }
  assert (Hkone : forall acc row, ~ In (iw_wamid row) (List.map ib_wamid (cd_inbox acc.1)) ->
             Kept now (iw_wamid row) (insertOne now acc row).1).
  { intros acc row Hn. eexists. split; [rewrite (Hone acc row Hn); apply in_app_iff; right; left; reflexivity|].
    split; [reflexivity | split; exact I]. }
  induction rows as [|x rows IH]; intros acc row Hin HF; [destruct Hin|]. cbn [fold_left List.map] in *.
  apply Forall_cons in HF as [Hx HF]. destruct Hin as [<-|Hin].
  - apply Hmono. destruct Hx as [Hn|HK]; [apply Hkone; exact Hn|]. exact (Hmono _ acc [x] HK).
  - apply IH; [exact Hin|]. apply Forall_forall. rewrite Forall_forall in HF. intros w Hw. destruct (HF w Hw) as [Hn|HK].
    + destruct (decide (w = iw_wamid x)) as [->|Hne]; [right; apply Hkone; exact Hn | left].
      destruct acc as [d fresh]. unfold insertOne. destruct (List.existsb _ _); [exact Hn|]. simpl.
      rewrite List.map_app, in_app_iff. intros [Hi|[Hi|[]]]; [auto | simpl in Hi; congruence].
    + right. exact (Hmono _ acc [x] HK).
Qed.

Definition bumped (n : nat) (d : CloudDb) : CloudDb :=
  mkCloudDb (cd_nextId d + Z.of_nat n) (cd_inbox d) (cd_convs d) (cd_sends d) (cd_numbers d) (cd_statuses d).

Lemma insertAll_noop now rows : forall d,
  (forall row, In row rows -> In (iw_wamid row) (List.map ib_wamid (cd_inbox d))) ->
  fold_left (insertOne now) rows (d, []) = (bumped (length rows) d, []).
Proof.
  induction rows as [|x rows IH]; intros d H; cbn [fold_left].
  - unfold bumped. destruct d. simpl. rewrite Z.add_0_r. reflexivity.
  - assert (E : insertOne now (d, []) x = (bumped 1 d, [])).
    { unfold insertOne. destruct (List.existsb _ _) eqn:E; [reflexivity|]. exfalso.
      specialize (H x (or_introl eq_refl)). apply in_map_iff in H as (r & Hr & Hin).
      rewrite <- not_true_iff_false, existsb_exists in E. apply E. exists r. split; [exact Hin|].
      unfold hasWamid. rewrite Hr. apply str_eqb_refl. }
    rewrite E, IH; [|intros row Hin; apply (H row); right; exact Hin].
    unfold bumped. simpl. do 2 f_equal. lia.
Qed.

Lemma noteAll_noop rows : forall d, fold_left (noteInbound []) rows d = d.
Proof.
  induction rows as [|x rows IH]; intros d; cbn [fold_left]; [reflexivity|].
  replace (noteInbound [] d x) with d; [apply IH|]. unfold noteInbound. destruct (iw_waId x); reflexivity.
Qed.

(** Rows whose messages were all queued by an earlier delivery. *)
Lemma redelivered t0 rows d t1 d1 rows' :
  Forall (fun row => ~ In (iw_wamid row) (List.map ib_wamid (cd_inbox d))) rows ->
  LaterRun t0 (enqueue t0 rows d).2 t1 d1 -> t1 <= t0 + INBOX_RETAIN_ACKED_MS ->
  incl (List.map iw_wamid rows') (List.map iw_wamid rows) ->
  enqueue t1 rows' d1 = ((0, []), bumped (length rows') d1).
Proof.
  intros Hnew Hrun Hb Hincl.
  assert (HK : forall row, In row rows -> Kept t0 (iw_wamid row) d1).
  { intros row Hin. eapply kept_run; [exact Hrun | exact Hb|].
    assert (HK1 : Kept t0 (iw_wamid row) (fold_left (insertOne t0) rows (d, [])).1).
    { apply insertAll_kept; [exact Hin|]. apply Forall_forall. rewrite Forall_forall in Hnew. intros w Hw.
      apply list_elem_of_In, in_map_iff in Hw as (r & <- & Hr). left. apply Hnew, list_elem_of_In. exact Hr. }
    unfold enqueue. destruct rows as [|x l]; [destruct Hin|].
    destruct (fold_left (insertOne t0) (x :: l) (d, [])) as [d' fresh]. cbn [snd fst] in *.
    eapply kept_same; [apply noteAll_inbox | exact HK1]. }
  unfold enqueue. destruct rows' as [|x l].
  { unfold bumped. simpl. destruct d1. simpl. rewrite Z.add_0_r. reflexivity. }
  rewrite insertAll_noop.
  2: { intros row Hin. apply (in_map iw_wamid), Hincl, in_map_iff in Hin as (row0 & <- & Hin).
       destruct (HK row0 Hin) as (r & Hr & <- & _). apply in_map. exact Hr. }
  rewrite noteAll_noop. do 2 f_equal. clear.
  induction (x :: l) as [|y m IH]; [reflexivity | exact IH].
Qed.

(** Meta may send a webhook again: from the first delivery of its messages and
    for eight days (a day past Meta's last retry), whatever is enqueued, leased,
    acknowledged, dropped, held or swept meanwhile, delivering them again queues
    nothing, notifies nobody and leaves every table as it is; only the sequence of
    row ids advances. *)
Theorem redelivery_is_noop t0 rows d t1 d1 :
  Forall (fun row => ~ In (iw_wamid row) (List.map ib_wamid (cd_inbox d))) rows ->
  LaterRun t0 (enqueue t0 rows d).2 t1 d1 -> t1 <= t0 + INBOX_RETAIN_ACKED_MS ->
  enqueue t1 rows d1 = ((0, []), bumped (length rows) d1).
Proof. intros. eapply redelivered; [eassumption.. | apply incl_refl]. Qed.

(** The message was answered and acknowledged, and a sweep has run. *)
Lemma redelivery_is_noop_witness :
  let d0 := mkCloudDb 1 [] [] [] [] [] in
  let d1 := sweepDelete_stmt (sweepInput 40) (ack 30 "bot-1" [1] (enqueue 10 [demoRow] d0).2).2 in
  enqueue 50 [demoRow] d1 = ((0, []), bumped 1 d1).
Proof.
  intros d0 d1. apply (redelivery_is_noop 10 [demoRow] d0).
  - constructor; [intros [] | constructor].
  - apply (laterRun_wait _ _ 40); [|lia].
    eapply laterRun_step; [|apply later_sweepDelete]. apply (laterRun_wait _ _ 30); [|lia].
    eapply laterRun_step; [|apply later_ack]. apply (laterRun_wait _ _ 10); [apply laterRun_refl | lia].
  - unfold INBOX_RETAIN_ACKED_MS. lia.
Defined.
