(* ===== verification/Hosts.v ===== *)
(** Hosts: where a bot is dialled, whether its host answers, and where a new bot
    goes.  [orchestrator/src/services/host-runtimes.ts],
    [services/host-reachability.ts] and [services/placement.ts].

    Megabytes are rationals: the overcommit ratio and the usable fraction divide
    exactly, where JavaScript rounds to a double.  The Docker client and the
    runtime adapters a host carries are not part of its record here. *)
From Stdlib Require Import QArith Qround Lqa.
From S2P Require Import Prelude Fleet.
From stdpp Require Import list strings pretty.
#[local] Open Scope Z_scope.

(** ** host-runtimes.ts *)
Inductive RestartPolicy := RP_no | RP_unless_stopped.

#[export] Instance RestartPolicy_eq_dec : EqDecision RestartPolicy.
Proof. solve_decision. Defined.

Record HostRuntime := mkHost {
  ho_hostId : string;
  ho_address : option string;
  ho_restartPolicy : RestartPolicy;
  ho_dockerNetwork : bool;
  ho_capacityMb : option Z;
  ho_status : HostStatus;
}.

Definition hostIs (hostId : string) (h : HostRuntime) : bool := str_eqb (ho_hostId h) hostId.

(** [new Map(hosts.map(...))]; a duplicate id makes the map smaller. *)
Definition staticHosts (hosts : list HostRuntime) : OrchError + list HostRuntime :=
  if bool_decide (NoDup (List.map ho_hostId hosts)) then inr hosts else inl (PlainError "duplicate host id").

Definition hostFor (hosts : list HostRuntime) (hostId : string) : OrchError + HostRuntime :=
  match List.find (hostIs hostId) hosts with Some h => inr h | None => inl (UnknownHostError hostId) end.

Definition upsertHost (hosts : list HostRuntime) (h : HostRuntime) : list HostRuntime :=
  if List.existsb (hostIs (ho_hostId h)) hosts then update_where (hostIs (ho_hostId h)) (fun _ => h) hosts
  else hosts ++ [h].

Definition withCapacity (capacityMb : Z) (h : HostRuntime) : HostRuntime :=
  mkHost (ho_hostId h) (ho_address h) (ho_restartPolicy h) (ho_dockerNetwork h) (Some capacityMb) (ho_status h).

Definition setCapacity (hosts : list HostRuntime) (hostId : string) (capacityMb : Z)
  : OrchError + list HostRuntime :=
  match hostFor hosts hostId with
  | inl e => inl e
  | inr h => inr (upsertHost hosts (withCapacity capacityMb h))
  end.

Definition dialUrl (h : HostRuntime) (containerName : string) (gatewayPort internalPort : Z) : string :=
  match ho_address h with
  | Some a => "http://" +:+ a +:+ ":" +:+ pretty gatewayPort
  | None =>
      if ho_dockerNetwork h then "http://" +:+ containerName +:+ ":" +:+ pretty internalPort
      else "http://127.0.0.1:" +:+ pretty gatewayPort
  end.

(** The map in insertion order. *)
Definition groupByHost {T} (hostOf : T -> string) (items : list T) : list (string * list T) :=
  List.map (fun h => (h, List.filter (fun i => str_eqb (hostOf i) h) items))
    (remove_dups (List.map hostOf items)).

(** ** host-reachability.ts *)
Definition OPEN_AFTER_MISSES : Z := 2.

Record HostReachability := mkReach { hr_reachable : bool; hr_misses : Z }.
Definition newReachability : HostReachability := mkReach true 0.

(** The end of [probe]: what the ping came to. *)
Definition probe (answered : bool) (s : HostReachability) : HostReachability :=
  let misses := if answered then 0 else hr_misses s + 1 in
  mkReach (answered || (hr_reachable s && (misses <? OPEN_AFTER_MISSES))) misses.

(** A check that finds a ping in flight shares it ([inFlight]); its callers. *)
Record Gate := mkGate { ga_reach : HostReachability; ga_inFlight : option (list nat); ga_answers : list (nat * bool) }.

Definition check (caller : nat) (g : Gate) : Gate :=
  match ga_inFlight g with
  | Some callers => mkGate (ga_reach g) (Some (callers ++ [caller])) (ga_answers g)
  | None => mkGate (ga_reach g) (Some [caller]) (ga_answers g)
  end.

Definition pinged (answered : bool) (g : Gate) : Gate :=
  match ga_inFlight g with
  | Some callers =>
      let s := probe answered (ga_reach g) in
      mkGate s None (ga_answers g ++ List.map (fun c => (c, hr_reachable s)) callers)
  | None => g
  end.

(** ** placement.ts *)
Definition USABLE_FRACTION : Q := 9 # 10.
Definition RESERVATION_TTL_MS : Z := 30 * 60000.

Record PlacementConfig := mkPlacementConfig { pc_overcommit : Q; pc_reserveMb : Z }.
Record Reservation := mkReservation { rs_hostId : string; rs_mb : Q; rs_atMs : Z }.
Record Verdict := mkVerdict { ve_hostId : string; ve_headroomMb : option Z; ve_skipped : option string }.
Record HostRoom := mkHostRoom { hm_hostId : string; hm_room : Z; hm_headroomMb : option Z; hm_skipped : option string }.
Record FleetCapacity := mkFleetCapacity { fc_room : Z; fc_hosts : list HostRoom }.
Record HostUsage := mkUsage { us_usedMb : string -> Q; us_measured : string -> bool }.

(** The map of reservations, in insertion order. *)
Definition Reservations := list (string * Reservation).

Definition hasKey (id : string) (kv : string * Reservation) : bool := str_eqb kv.1 id.

Definition setReservation (id : string) (r : Reservation) (l : Reservations) : Reservations :=
  if List.existsb (hasKey id) l then update_where (hasKey id) (fun _ => (id, r)) l else l ++ [(id, r)].

Definition release (id : string) (l : Reservations) : Reservations :=
  List.filter (fun kv => negb (hasKey id kv)) l.

Definition sumQ {A} (f : A -> Q) (l : list A) : Q := List.fold_right (fun x s => f x + s)%Q 0%Q l.

Section Placement.
Context (cfg : PlacementConfig) (usage : HostUsage) (now : Z).

Definition counted (memoryMb : Z) : Q := (inject_Z memoryMb / pc_overcommit cfg)%Q.

Definition staleReservation (kv : string * Reservation) : bool :=
  (rs_atMs kv.2 <? now - RESERVATION_TTL_MS) || us_measured usage kv.1.

Definition onHost (hostId : string) (kv : string * Reservation) : bool := str_eqb (rs_hostId kv.2) hostId.

(** The loop deletes what is stale and adds up what is left on the host. *)
Definition pendingMb (hostId : string) (l : Reservations) : Q * Reservations :=
  let kept := List.filter (fun kv => negb (staleReservation kv)) l in
  (sumQ (fun kv => rs_mb kv.2) (List.filter (onHost hostId) kept), kept).

Definition eligible (h : HostRuntime) : bool :=
  bool_decide (ho_status h = Host_active) && match ho_capacityMb h with Some _ => true | None => false end.

Definition skip (h : HostRuntime) (reason : string) : Verdict := mkVerdict (ho_hostId h) None (Some reason).

Definition budgetMb (capacityMb : Z) : Q := (USABLE_FRACTION * inject_Z (capacityMb - pc_reserveMb cfg))%Q.

Definition verdict (memoryMb : Z) (h : HostRuntime) (reachable : bool) (l : Reservations)
  : Verdict * Reservations :=
  match ho_capacityMb h with
  | None => (skip h "capacity unknown", l)
  | Some capacityMb =>
      if negb reachable then (skip h "unreachable", l)
      else
        let '(pending, l') := pendingMb (ho_hostId h) l in
        let usedMb := (us_usedMb usage (ho_hostId h) + pending)%Q in
        (mkVerdict (ho_hostId h)
           (Some (Qfloor (budgetMb capacityMb - usedMb - counted memoryMb))) None, l')
  end.

Definition hostStatusStr (s : HostStatus) : string := match s with Host_active => "active" | Host_draining => "draining" end.

(** What [hosts.map] does to a host of the list, with the answer of its gate. *)
Definition judge (memoryMb : Z) (p : HostRuntime * bool) (l : Reservations) : Verdict * Reservations :=
  if bool_decide (ho_status p.1 = Host_active) then verdict memoryMb p.1 p.2 l
  else (skip p.1 (hostStatusStr (ho_status p.1)), l).

Fixpoint judgeAll (memoryMb : Z) (ps : list (HostRuntime * bool)) (l : Reservations)
  : list Verdict * Reservations :=
  match ps with
  | [] => ([], l)
  | p :: ps' =>
      let '(v, l1) := judge memoryMb p l in
      let '(vs, l2) := judgeAll memoryMb ps' l1 in
      (v :: vs, l2)
  end.

(** The gates are asked of the eligible hosts only. *)
Definition askReachable (gate : string -> bool) (hosts : list HostRuntime) : list (HostRuntime * bool) :=
  List.map (fun h => (h, eligible h && gate (ho_hostId h))) hosts.

Definition fits (v : Verdict) : bool := match ve_headroomMb v with Some m => 0 <=? m | None => false end.
Definition headroomOr0 (v : Verdict) : Z := default 0 (ve_headroomMb v).
Definition moreHeadroom (a b : Verdict) : bool := headroomOr0 b <=? headroomOr0 a.

(** [choose] from where the gates have answered: nothing awaits any more. *)
Definition choose (memoryMb : Z) (instanceId : string) (ps : list (HostRuntime * bool)) (l : Reservations)
  : (OrchError + string) * Reservations :=
  let '(verdicts, l') := judgeAll memoryMb ps l in
  match isort moreHeadroom (List.filter fits verdicts) with
  | [] => (inl NoPlacementError, l')
  | best :: _ =>
      (inr (ve_hostId best),
       setReservation instanceId (mkReservation (ve_hostId best) (counted memoryMb) now) l')
  end.

Definition roomOf (memoryMb : Z) (free : Verdict) : HostRoom :=
  mkHostRoom (ve_hostId free)
    match ve_headroomMb free with
    | None => 0
    | Some m => Z.max 0 (Qfloor (inject_Z m / counted memoryMb))
    end
    (ve_headroomMb free) (ve_skipped free).

Definition capacity (memoryMb : Z) (ps : list (HostRuntime * bool)) (l : Reservations)
  : FleetCapacity * Reservations :=
  let '(verdicts, l') := judgeAll 0 ps l in
  let rooms := List.map (roomOf memoryMb) verdicts in
  (mkFleetCapacity (sumZ hm_room rooms) rooms, l').

(** [assertFits]: a draining host still takes a bot an operator moves there. *)
Definition assertFits (memoryMb : Z) (h : HostRuntime) (gate : bool) (l : Reservations)
  : (OrchError + unit) * Reservations :=
  let reachable := match ho_capacityMb h with Some _ => gate | None => false end in
  let '(v, l') := verdict memoryMb h reachable l in
  match ve_headroomMb v with
  | Some m => if m <? 0 then (inl NoPlacementError, l') else (inr tt, l')
  | None => (inl NoPlacementError, l')
  end.
End Placement.
