(* ===== verification/HostsProps.v ===== *)
(** What the breaker and the placement of bots guarantee. *)
From Stdlib Require Import QArith Qround Lqa Sorted.
From S2P Require Import Prelude Fleet Hosts.
From stdpp Require Import list strings.
#[local] Open Scope Z_scope.

(** ** Sums and floors *)
Lemma Qfloor_nonneg (x : Q) : 0 <= Qfloor x <-> (0 <= x)%Q.
Proof.
  split; intros H.
  - pose proof (Qfloor_le x) as H1. assert (H2 : (inject_Z 0 <= inject_Z (Qfloor x))%Q) by (rewrite <- Zle_Qle; exact H).
    change (inject_Z 0) with 0%Q in H2. lra.
  - change 0 with (Qfloor 0%Q). apply Qfloor_resp_le. exact H.
Qed.

Lemma sumQ_app {A} (f : A -> Q) l1 l2 : (sumQ f (l1 ++ l2) == sumQ f l1 + sumQ f l2)%Q.
Proof. induction l1 as [|x l IH]; simpl; [lra|]. rewrite IH. lra. Qed.

(** ** Reservations *)
Section Pending.
Context (cfg : PlacementConfig) (usage : HostUsage) (now : Z).

Definition pendingOn (h : string) (l : Reservations) : Q := (pendingMb usage now h l).1.
Definition pruned (l : Reservations) : Reservations :=
  List.filter (fun kv => negb (staleReservation usage now kv)) l.

Lemma pruned_idem l : pruned (pruned l) = pruned l.
Proof.
  unfold pruned. induction l as [|kv l IH]; simpl; [reflexivity|].
  destruct (negb (staleReservation usage now kv)) eqn:E; simpl; [rewrite E, IH|]; auto.
Qed.

Lemma pendingOn_pruned h l : pendingOn h (pruned l) = pendingOn h l.
Proof. unfold pendingOn, pendingMb. simpl. fold (pruned (pruned l)) (pruned l). rewrite pruned_idem. reflexivity. Qed.

(** The map has one entry a bot, and nothing negative in it. *)
Definition ReservationsOk (l : Reservations) : Prop :=
  NoDup (List.map fst l) /\ Forall (fun kv => 0 <= rs_mb kv.2)%Q l.

Lemma pruned_ok l : ReservationsOk l -> ReservationsOk (pruned l).
Proof.
  intros [H1 H2]. split.
  - eapply NoDup_sublist; [|exact H1]. unfold pruned. clear. induction l as [|kv l IH]; simpl; [constructor|].
    destruct (negb _); simpl; constructor; exact IH.
  - rewrite Forall_forall in H2. apply Forall_forall. intros kv Hin. apply H2. apply list_elem_of_In.
    apply list_elem_of_In, filter_In in Hin. apply Hin.
Qed.

Lemma hasKey_in id l : List.existsb (hasKey id) l = true <-> In id (List.map fst l).
Proof.
  rewrite existsb_exists, in_map_iff. split; intros (kv & H1 & H2).
  - unfold hasKey in H2. bools. exists kv. auto.
  - exists kv. split; [exact H2 | apply str_eqb_eq; exact H1].
Qed.

Definition contribution (h : string) (kv : string * Reservation) : Q :=
  if negb (staleReservation usage now kv) && onHost h kv then rs_mb kv.2 else 0%Q.

Lemma pendingOn_cons h kv l : (pendingOn h (kv :: l) == contribution h kv + pendingOn h l)%Q.
Proof.
  unfold pendingOn, pendingMb, contribution. simpl.
  destruct (negb (staleReservation usage now kv)); simpl; [destruct (onHost h kv); simpl|]; lra.
Qed.

Lemma pendingOn_nil h : (pendingOn h [] == 0)%Q.
Proof. reflexivity. Qed.

Lemma pendingOn_app h l1 l2 : (pendingOn h (l1 ++ l2) == pendingOn h l1 + pendingOn h l2)%Q.
Proof.
  induction l1 as [|kv l IH]; [unfold pendingOn, pendingMb; simpl; lra|].
  change ((kv :: l) ++ l2) with (kv :: (l ++ l2)). rewrite !pendingOn_cons, IH. lra.
Qed.

Lemma contribution_nonneg h kv : (0 <= rs_mb kv.2)%Q -> (0 <= contribution h kv)%Q.
Proof. intros H. unfold contribution. destruct (_ && _); [exact H | lra]. Qed.

(** A new reservation adds at most itself, and to its own host only; it takes the
    place of one the bot had. *)
Lemma pendingOn_set h id r l :
  ReservationsOk l -> (0 <= rs_mb r)%Q ->
  (pendingOn h (setReservation id r l) <= pendingOn h l + contribution h (id, r))%Q.
Proof.
  intros [Hnd Hpos] Hr. unfold setReservation. destruct (List.existsb (hasKey id) l) eqn:E.
  2: { rewrite pendingOn_app, pendingOn_cons, pendingOn_nil. lra. }
  apply hasKey_in in E. induction l as [|kv l IH]; [destruct E|].
  simpl in Hnd. apply NoDup_cons in Hnd as [Hn Hnd]. apply Forall_cons in Hpos as [Hk Hpos].
  unfold update_where. simpl. fold (update_where (hasKey id) (fun _ => (id, r)) l).
  rewrite !pendingOn_cons. unfold hasKey at 1. destruct (str_eqb kv.1 id) eqn:Ek.
  - bools. subst id. pose proof (contribution_nonneg h kv Hk).
    assert (Hu : update_where (hasKey kv.1) (fun _ => (kv.1, r)) l = l).
    { apply update_where_none, filter_none, Forall_forall. intros x Hx. apply list_elem_of_In in Hx. unfold hasKey. destruct (str_eqb x.1 kv.1) eqn:Ex; [|reflexivity].
      bools. exfalso. apply Hn. rewrite <- Ex. apply list_elem_of_In, in_map. exact Hx. }
    rewrite Hu. lra.
  - destruct E as [E|E]; [subst id; rewrite str_eqb_refl in Ek; discriminate|].
    specialize (IH Hnd Hpos E). lra.
Qed.

(** A bot without a reservation adds exactly itself. *)
Lemma pendingOn_fresh h id r l :
  ~ In id (List.map fst l) ->
  (pendingOn h (setReservation id r l) == pendingOn h l + contribution h (id, r))%Q.
Proof.
  intros Hn. unfold setReservation. destruct (List.existsb (hasKey id) l) eqn:E.
  { apply hasKey_in in E. contradiction. }
  rewrite pendingOn_app, pendingOn_cons, pendingOn_nil. lra.
Qed.

(** ** Verdicts, without the threading of the map *)
Definition freeMb (h : HostRuntime) (cap : Z) (l : Reservations) : Q :=
  (budgetMb cfg cap - (us_usedMb usage (ho_hostId h) + pendingOn (ho_hostId h) l))%Q.

Definition judged (memoryMb : Z) (l : Reservations) (p : HostRuntime * bool) : Verdict :=
  match ho_status p.1, ho_capacityMb p.1, p.2 with
  | Host_active, Some cap, true =>
      mkVerdict (ho_hostId p.1) (Some (Qfloor (freeMb p.1 cap l - counted cfg memoryMb))) None
  | Host_active, None, _ => skip p.1 "capacity unknown"
  | Host_active, Some _, false => skip p.1 "unreachable"
  | Host_draining, _, _ => skip p.1 "draining"
  end.

Lemma judge_spec m p l :
  (judge cfg usage now m p l).1 = judged m l p /\
  ((judge cfg usage now m p l).2 = l \/ (judge cfg usage now m p l).2 = pruned l).
Proof.
  unfold judge, judged, verdict, freeMb, pendingOn.
  destruct (ho_status p.1), (ho_capacityMb p.1), p.2; simpl; auto.
Qed.

Lemma judged_pruned m p l : judged m (pruned l) p = judged m l p.
Proof. unfold judged, freeMb. rewrite pendingOn_pruned. reflexivity. Qed.

Lemma judgeAll_spec m ps : forall l,
  (judgeAll cfg usage now m ps l).1 = List.map (judged m l) ps /\
  ((judgeAll cfg usage now m ps l).2 = l \/ (judgeAll cfg usage now m ps l).2 = pruned l).
Proof.
  induction ps as [|p ps IH]; intros l; simpl; [auto|].
  pose proof (judge_spec m p l) as [E1 E2]. destruct (judge cfg usage now m p l) as [v l1]. simpl in *.
  destruct (IH l1) as [F1 F2]. destruct (judgeAll cfg usage now m ps l1) as [vs l2]. simpl in *.
  split.
  - f_equal; [exact E1|]. rewrite F1. destruct E2 as [->| ->]; [reflexivity|].
    apply map_ext. intros. apply judged_pruned.
  - destruct E2 as [->| ->]; [exact F2|]. destruct F2 as [->| ->]; [auto|]. rewrite pruned_idem. auto.
Qed.

(** ** [choose] *)
Definition HasRoom (m : Z) (l : Reservations) (p : HostRuntime * bool) : Prop :=
  ho_status p.1 = Host_active /\ p.2 = true /\
  exists cap, ho_capacityMb p.1 = Some cap /\ (counted cfg m <= freeMb p.1 cap l)%Q.

Lemma fits_judged m l p : fits (judged m l p) = true <-> HasRoom m l p.
Proof.
  unfold fits, judged, HasRoom, skip.
  destruct (ho_status p.1), (ho_capacityMb p.1) as [cap|], p.2; cbn [ve_headroomMb].
  1: { rewrite Z.leb_le, Qfloor_nonneg. split.
       - intros H. repeat split. exists cap. split; [reflexivity | lra].
       - intros (_ & _ & c & [= <-] & H). lra. }
  all: split; [discriminate | intros (H1 & H2 & c & H3 & _); congruence].
Qed.

Lemma moreHeadroom_sorted l : StronglySorted (fun a b => moreHeadroom a b = true) (isort moreHeadroom l).
Proof.
  apply isort_sorted; unfold moreHeadroom.
  - intros x y. rewrite !Z.leb_le. lia.
  - intros x y z. rewrite !Z.leb_le. lia.
Qed.

Lemma choose_spec m id ps l :
  match (choose cfg usage now m id ps l).1 with
  | inl e => e = NoPlacementError /\ forall p, In p ps -> ~ HasRoom m l p
  | inr hostId =>
      exists p, In p ps /\ ho_hostId p.1 = hostId /\ HasRoom m l p /\
        (forall p', In p' ps -> HasRoom m l p' -> headroomOr0 (judged m l p') <= headroomOr0 (judged m l p)) /\
        exists l0, (l0 = l \/ l0 = pruned l) /\
          (choose cfg usage now m id ps l).2 = setReservation id (mkReservation hostId (counted cfg m) now) l0
  end.
Proof.
  unfold choose. destruct (judgeAll_spec m ps l) as [E1 E2].
  destruct (judgeAll cfg usage now m ps l) as [vs l']. simpl in E1, E2. subst vs.
  pose proof (moreHeadroom_sorted (List.filter fits (List.map (judged m l) ps))) as Hs.
  destruct (isort moreHeadroom _) as [|best rest] eqn:E; simpl.
  - split; [reflexivity|]. intros p Hin Hr. apply fits_judged in Hr.
    assert (H : In (judged m l p) (isort moreHeadroom (List.filter fits (List.map (judged m l) ps)))).
    { apply isort_in, filter_In. split; [apply in_map; exact Hin | exact Hr]. }
    rewrite E in H. destruct H.
  - assert (Hall : forall v, In v (best :: rest) <-> In v (List.map (judged m l) ps) /\ fits v = true).
    { intros v. rewrite <- E, isort_in, filter_In. reflexivity. }
    destruct (proj1 (Hall best) (or_introl eq_refl)) as [Hb Hf]. apply in_map_iff in Hb as (p & Ep & Hin).
    exists p. subst best. split; [exact Hin|]. split.
    { unfold judged. destruct (ho_status p.1), (ho_capacityMb p.1), p.2; reflexivity. }
    split; [apply fits_judged; exact Hf|]. split.
    + intros p' Hin' Hr'. apply fits_judged in Hr'.
      assert (H : In (judged m l p') (judged m l p :: rest)) by (apply Hall; split; [apply in_map; exact Hin' | exact Hr']).
      destruct H as [H|H]; [rewrite H; lia|]. inversion Hs as [|? ? _ Hf']; subst.
      rewrite Forall_forall in Hf'. specialize (Hf' _ (proj2 (list_elem_of_In _ _) H)).
      unfold moreHeadroom in Hf'. bools. exact Hf'.
    + exists l'. split; [exact E2 | reflexivity].
Qed.
End Pending.

(** ** A bot placed is counted at once *)
Section Guarantees.
Context (cfg : PlacementConfig) (usage : HostUsage) (now : Z).

Lemma reservations_set id r l :
  ReservationsOk l -> (0 <= rs_mb r)%Q -> ReservationsOk (setReservation id r l).
Proof.
  intros [Hnd Hpos] Hr. unfold setReservation. destruct (List.existsb (hasKey id) l) eqn:E.
  - split.
    + unfold update_where. rewrite List.map_map.
      rewrite (map_ext _ fst); [exact Hnd|]. intros kv. unfold hasKey.
      destruct (str_eqb kv.1 id) eqn:Ek; [bools; subst id|]; reflexivity.
    + rewrite Forall_forall in Hpos. apply Forall_forall. intros kv Hin. apply list_elem_of_In, in_update_where in Hin.
      destruct Hin as (x & Hx & ->). destruct (hasKey id x); [exact Hr | apply Hpos, list_elem_of_In; exact Hx].
  - split.
    + rewrite List.map_app. apply NoDup_app. split; [exact Hnd|]. split; [|apply NoDup_singleton].
      intros x Hx Hx'. apply list_elem_of_singleton in Hx' as ->.
      apply list_elem_of_In, hasKey_in in Hx. simpl in Hx. congruence.
    + apply Forall_app. split; [exact Hpos | apply Forall_singleton; exact Hr].
Qed.

(** C17: [choose] places a bot or says there is no room, and never overfills a host.
    It fails with [NoPlacementError] exactly when no active host with a known
    capacity whose gate answered has room for the bot; otherwise it picks one
    with room and with the most headroom of all of them, and reserves the bot's
    memory there in the same breath, so that with what is measured and what is
    reserved the host stays within nine tenths of its memory less the reserve,
    and no other host is charged more than before. *)
Theorem placement_choice m id ps l :
  ReservationsOk l -> (0 <= counted cfg m)%Q ->
  match choose cfg usage now m id ps l with
  | (inl e, l') =>
      e = NoPlacementError /\ forall p, In p ps -> ~ HasRoom cfg usage now m l p
  | (inr hostId, l') =>
      ReservationsOk l' /\
      (exists p cap, In p ps /\ ho_hostId p.1 = hostId /\ HasRoom cfg usage now m l p /\
        ho_capacityMb p.1 = Some cap /\
        (us_usedMb usage hostId + pendingOn usage now hostId l' <=
           USABLE_FRACTION * inject_Z (cap - pc_reserveMb cfg))%Q /\
        forall p', In p' ps -> HasRoom cfg usage now m l p' ->
          headroomOr0 (judged cfg usage now m l p') <= headroomOr0 (judged cfg usage now m l p)) /\
      forall h, h <> hostId -> (pendingOn usage now h l' <= pendingOn usage now h l)%Q
  end.
Proof.
  intros Hok Hc. pose proof (choose_spec cfg usage now m id ps l) as H.
  destruct (choose cfg usage now m id ps l) as [[e|hostId] l']; cbn [fst snd] in H; [exact H|].
  destruct H as (p & Hin & Eh & Hroom & Hmax & l0 & Hl0 & ->).
  assert (Hok0 : ReservationsOk l0) by (destruct Hl0 as [->| ->]; [exact Hok | apply pruned_ok; exact Hok]).
  assert (Hp0 : forall h, pendingOn usage now h l0 = pendingOn usage now h l)
    by (intros h; destruct Hl0 as [->| ->]; [reflexivity | apply pendingOn_pruned]).
  split; [apply reservations_set; assumption|]. split.
  - destruct Hroom as (Ha & Hg & cap & Ecap & Hfree). exists p, cap. split; [exact Hin|]. split; [exact Eh|].
    split; [split; [exact Ha | split; [exact Hg | exists cap; auto]]|]. split; [exact Ecap|]. split; [|exact Hmax].
    pose proof (pendingOn_set usage now hostId id (mkReservation hostId (counted cfg m) now) l0 Hok0 Hc) as H.
    rewrite Hp0 in H. unfold contribution in H. unfold freeMb, budgetMb in Hfree. rewrite Eh in Hfree.
    cbn [rs_mb snd] in H. destruct (negb _ && _) in H; lra.
  - intros h Hne. pose proof (pendingOn_set usage now h id (mkReservation hostId (counted cfg m) now) l0 Hok0 Hc) as H.
    rewrite Hp0 in H. unfold contribution, onHost in H. cbn [rs_hostId snd] in H.
    destruct (str_eqb hostId h) eqn:E; [bools; congruence|]. rewrite andb_false_r in H. lra.
Qed.

(** ** [capacity] *)
Definition trueRoom (m : Z) (l : Reservations) (p : HostRuntime * bool) : Z :=
  match ho_status p.1, ho_capacityMb p.1, p.2 with
  | Host_active, Some cap, true => Z.max 0 (Qfloor (freeMb cfg usage now p.1 cap l / counted cfg m))
  | _, _, _ => 0
  end.

Lemma room_le_true m l p :
  (0 < counted cfg m)%Q ->
  hm_room (roomOf cfg m (judged cfg usage now 0 l p)) <= trueRoom m l p.
Proof.
  intros Hc. unfold judged, roomOf, trueRoom, skip.
  destruct (ho_status p.1), (ho_capacityMb p.1) as [cap|], p.2; cbn [hm_room ve_headroomMb]; try lia.
  apply Z.max_le_compat_l, Qfloor_resp_le. unfold Qdiv. apply Qmult_le_compat_r.
  - pose proof (Qfloor_le (freeMb cfg usage now p.1 cap l - counted cfg 0)) as H.
    assert (E : (counted cfg 0 == 0)%Q) by (unfold counted, Qdiv; change (inject_Z 0) with 0%Q; lra). lra.
  - apply Qlt_le_weak, Qinv_lt_0_compat. exact Hc.
Qed.

Lemma trueRoom_pos m l p : (0 < counted cfg m)%Q -> 1 <= trueRoom m l p <-> HasRoom cfg usage now m l p.
Proof.
  intros Hc. unfold trueRoom, HasRoom.
  destruct (ho_status p.1), (ho_capacityMb p.1) as [cap|], p.2.
  2-8: split; [lia | intros (H1 & H2 & c & H3 & _); congruence].
  set (x := freeMb cfg usage now p.1 cap l). rewrite Z.max_le_iff. split.
  - intros [H|H]; [lia|]. repeat split. exists cap. split; [reflexivity|].
    pose proof (Qfloor_le (x / counted cfg m)) as H1.
    assert (H2 : (1 <= x / counted cfg m)%Q).
    { eapply Qle_trans; [|exact H1]. change 1%Q with (inject_Z 1). rewrite <- Zle_Qle. exact H. }
    apply (Qmult_le_compat_r _ _ (counted cfg m)) in H2; [|lra].
    assert (E : (x / counted cfg m * counted cfg m == x)%Q) by (field; intros E0; lra).
    rewrite E, Qmult_1_l in H2. exact H2.
  - intros (_ & _ & c & [= <-] & H). right. change 1 with (Qfloor 1%Q). apply Qfloor_resp_le.
    apply Qle_shift_div_l; [exact Hc|]. fold x in H. lra.
Qed.

Lemma sumZ_pos {A} (f : A -> Z) l : (forall x, 0 <= f x) -> 1 <= sumZ f l -> exists x, In x l /\ 1 <= f x.
Proof.
  intros Hf. induction l as [|x l IH]; simpl; [lia|]. intros H. destruct (Z_le_dec 1 (f x)) as [H1|H1].
  - exists x. auto.
  - pose proof (Hf x). destruct IH as (y & Hy & H2); [lia|]. exists y. auto.
Qed.

Lemma sumZ_one_less {A B} (key : A -> B) (f g : A -> Z) l x0 :
  NoDup (List.map key l) -> In x0 l ->
  (forall x, In x l -> key x <> key x0 -> g x = f x) -> f x0 - 1 <= g x0 ->
  sumZ f l - 1 <= sumZ g l.
Proof.
  induction l as [|x l IH]; intros Hnd Hin Hs H0; [destruct Hin|]. simpl in *.
  apply NoDup_cons in Hnd as [Hn Hnd].
  assert (Hne : forall y, In y l -> key y <> key x).
  { intros y Hy E. apply Hn. rewrite <- E. apply list_elem_of_In, in_map. exact Hy. }
  destruct Hin as [->|Hin].
  - assert (E : sumZ g l = sumZ f l).
    { clear -Hs Hne. induction l as [|y l IH]; simpl; [reflexivity|].
      rewrite (Hs y (or_intror (or_introl eq_refl)) (Hne y (or_introl eq_refl))), IH; [reflexivity| |].
      - intros z [<-|Hz] Hk; apply Hs; simpl; auto.
      - intros z Hz. apply Hne. simpl. auto. }
    rewrite E. lia.
  - rewrite (Hs x); [|auto|intros E; apply (Hne x0 Hin); auto]. specialize (IH Hnd Hin). 
    assert (sumZ f l - 1 <= sumZ g l) by (apply IH; auto). lia.
Qed.

(** Bots of one size, one after the other. *)
Fixpoint placeAll (m : Z) (ids : list string) (ps : list (HostRuntime * bool)) (l : Reservations)
  : list (OrchError + string) :=
  match ids with
  | [] => []
  | id :: ids' =>
      let '(r, l') := choose cfg usage now m id ps l in
      r :: placeAll m ids' ps l'
  end.

Definition NewBots (ids : list string) (l : Reservations) : Prop :=
  NoDup ids /\ forall id, In id ids -> ~ In id (List.map fst l) /\ us_measured usage id = false.

Lemma trueRoom_after m id hostId l0 p :
  (0 < counted cfg m)%Q -> ~ In id (List.map fst l0) -> us_measured usage id = false ->
  let l' := setReservation id (mkReservation hostId (counted cfg m) now) l0 in
  (ho_hostId p.1 <> hostId -> trueRoom m l' p = trueRoom m l0 p) /\
  (ho_hostId p.1 = hostId -> trueRoom m l0 p - 1 <= trueRoom m l' p).
Proof.
  intros Hc Hn Hm l'. unfold trueRoom.
  destruct (ho_status p.1), (ho_capacityMb p.1) as [cap|], p.2.
  2-8: split; intros; lia.
  pose proof (pendingOn_fresh usage now (ho_hostId p.1) id (mkReservation hostId (counted cfg m) now) l0 Hn) as Hp.
  fold l' in Hp. unfold contribution, staleReservation, onHost in Hp. cbn [fst snd rs_hostId rs_mb rs_atMs] in Hp.
  rewrite Hm in Hp. assert (E : (now <? now - RESERVATION_TTL_MS) = false) by (apply Z.ltb_ge; unfold RESERVATION_TTL_MS; lia).
  rewrite E in Hp. simpl in Hp. split; intros Hh.
  - destruct (str_eqb hostId (ho_hostId p.1)) eqn:Es; [bools; congruence|]. f_equal. apply Qfloor_comp.
    assert (Ef : (freeMb cfg usage now p.1 cap l' == freeMb cfg usage now p.1 cap l0)%Q)
      by (unfold freeMb; rewrite Hp; lra).
    rewrite Ef. reflexivity.
  - rewrite <- Hh, str_eqb_refl in Hp.
    assert (Ef : (freeMb cfg usage now p.1 cap l' / counted cfg m ==
                  freeMb cfg usage now p.1 cap l0 / counted cfg m - 1)%Q).
    { unfold freeMb. rewrite Hp. field. intros E0. lra. }
    rewrite (Qfloor_comp _ _ Ef). set (x := (freeMb cfg usage now p.1 cap l0 / counted cfg m)%Q).
    assert (H : Qfloor x - 1 <= Qfloor (x - 1)).
    { pose proof (Qlt_floor (x - 1)) as H1. pose proof (Qfloor_le x) as H2.
      assert (H3 : (inject_Z (Qfloor x) < inject_Z (Qfloor (x - 1) + 1 + 1))%Q).
      { rewrite inject_Z_plus. change (inject_Z 1) with 1%Q. lra. }
      rewrite <- Zlt_Qlt in H3. lia. }
    lia.
Qed.

Lemma placeAll_rooms m ps : 
  (0 < counted cfg m)%Q -> NoDup (List.map (fun p => ho_hostId p.1) ps) ->
  forall ids l, NewBots ids l -> Z.of_nat (length ids) <= sumZ (trueRoom m l) ps ->
  Forall (fun r => exists h, r = inr h) (placeAll m ids ps l).
Proof.
  intros Hc Hnd. induction ids as [|id ids IH]; intros l [Hni Hnew] Hsum; [constructor|].
  cbn [placeAll]. cbn [length] in Hsum. apply NoDup_cons in Hni as [Hid Hni].
  assert (Hpos : forall x, 0 <= trueRoom m l x).
  { intros x. unfold trueRoom. destruct (ho_status x.1), (ho_capacityMb x.1), x.2; lia. }
  destruct (sumZ_pos (trueRoom m l) ps Hpos ltac:(lia)) as (p1 & Hin1 & H1). apply trueRoom_pos in H1; [|exact Hc].
  pose proof (choose_spec cfg usage now m id ps l) as H.
  destruct (choose cfg usage now m id ps l) as [[e|hostId] l']; cbn [fst snd] in H.
  { destruct H as [_ H]. destruct (H p1 Hin1 H1). }
  destruct H as (p & Hin & Eh & _ & _ & l0 & Hl0 & ->). constructor; [eauto|].
  assert (Hl0r : forall x, trueRoom m l0 x = trueRoom m l x).
  { intros x. destruct Hl0 as [->| ->]; [reflexivity|]. unfold trueRoom, freeMb. rewrite pendingOn_pruned. reflexivity. }
  assert (Hsub : forall i, In i (List.map fst l0) -> In i (List.map fst l)).
  { intros i. destruct Hl0 as [->| ->]; [auto|]. rewrite !in_map_iff. intros (kv & E & Hk).
    unfold pruned in Hk. apply filter_In in Hk as [Hk _]. eauto. }
  destruct (Hnew id (or_introl eq_refl)) as [Hn Hm].
  assert (Hn0 : ~ In id (List.map fst l0)) by auto.
  pose proof (fun x => trueRoom_after m id hostId l0 x Hc Hn0 Hm) as Hafter.
  apply IH.
  - split; [exact Hni|]. intros i Hi. destruct (Hnew i (or_intror Hi)) as [Ha Hb]. split; [|exact Hb].
    intros Hin'. apply hasKey_in, existsb_exists in Hin' as (kv & Hkv & Ek). unfold hasKey in Ek. bools. subst i.
    unfold setReservation in Hkv. destruct (List.existsb (hasKey id) l0) eqn:E.
    + apply hasKey_in in E. auto.
    + apply in_app_iff in Hkv as [Hkv|[<-|[]]].
      * apply Ha, Hsub, in_map. exact Hkv.
      * simpl in Hi. apply Hid, list_elem_of_In. exact Hi.
  - set (l2 := setReservation _ _ l0) in *.
    assert (H2 : sumZ (trueRoom m l) ps - 1 <= sumZ (trueRoom m l2) ps).
    { apply (sumZ_one_less (fun p => ho_hostId p.1) _ _ ps p Hnd Hin).
      - intros x _ Hne. rewrite <- Hl0r. apply (Hafter x). congruence.
      - rewrite <- Hl0r. apply (Hafter p). exact Eh. }
    lia.
Qed.

(** The room [capacity] reports is there: when it says the fleet has room for
    so many bots of a size, then that many bots, created one after the other
    while the hosts stay as they are, are all placed, wherever the greedy choice
    puts each of them. *)
Theorem capacity_is_honest m ids ps l :
  (0 < counted cfg m)%Q -> NoDup (List.map (fun p => ho_hostId p.1) ps) -> NewBots ids l ->
  Z.of_nat (length ids) <= fc_room (capacity cfg usage now m ps l).1 ->
  Forall (fun r => exists h, r = inr h) (placeAll m ids ps l).
Proof.
  intros Hc Hnd Hnew Hroom. apply placeAll_rooms; auto. etransitivity; [exact Hroom|].
  unfold capacity. destruct (judgeAll_spec cfg usage now 0 ps l) as [E _].
  destruct (judgeAll cfg usage now 0 ps l) as [vs l']. cbn [fst snd] in *. subst vs. cbn [fc_room].
  clear Hroom Hnd. induction ps as [|p ps IH]; cbn [List.map sumZ List.fold_right]; [lia|].
  pose proof (room_le_true m l p Hc). fold (sumZ hm_room (List.map (roomOf cfg m) (List.map (judged cfg usage now 0 l) ps))).
  fold (sumZ (trueRoom m l) ps). lia.
Qed.
End Guarantees.

(** ** The breaker *)
Fixpoint trailingMisses (latestFirst : list bool) : Z :=
  match latestFirst with false :: l => trailingMisses l + 1 | _ => 0 end.

Lemma trailingMisses_nonneg l : 0 <= trailingMisses l.
Proof. induction l as [|[] l IH]; simpl; lia. Qed.

Lemma probes_state os :
  fold_left (fun s o => probe o s) os newReachability =
  mkReach (trailingMisses (rev os) <? OPEN_AFTER_MISSES) (trailingMisses (rev os)).
Proof.
  induction os as [|o os IH] using rev_ind; [reflexivity|].
  rewrite fold_left_app, rev_app_distr, IH. cbn [fold_left rev app]. unfold probe. cbn [hr_reachable hr_misses].
  destruct o; [reflexivity|]. cbn [trailingMisses orb]. f_equal. unfold OPEN_AFTER_MISSES.
  destruct (trailingMisses (rev os) <? 2) eqn:E; simpl; [reflexivity|]. symmetry.
  apply Z.ltb_ge. apply Z.ltb_ge in E. lia.
Qed.

(** One slow answer is not an outage, two in a row are, and one answer ends it:
    after any pings, all callers that shared one included, a host counts as
    unreachable exactly when its last two pings both went unanswered; all who
    waited for a ping get that one answer, and none is left waiting. *)
Theorem host_breaker os g callers answered :
  ga_reach g = fold_left (fun s o => probe o s) os newReachability -> ga_inFlight g = Some callers ->
  let reachable := match rev (os ++ [answered]) with false :: false :: _ => false | _ => true end in
  pinged answered g =
    mkGate (fold_left (fun s o => probe o s) (os ++ [answered]) newReachability) None
      (ga_answers g ++ List.map (fun c => (c, reachable)) callers) /\
  hr_reachable (ga_reach (pinged answered g)) = reachable.
Proof.
  intros Hr Hf reachable.
  assert (E : hr_reachable (fold_left (fun s o => probe o s) (os ++ [answered]) newReachability) = reachable).
  { rewrite probes_state. cbn [hr_reachable]. unfold reachable, OPEN_AFTER_MISSES. rewrite rev_app_distr. cbn [rev app].
    destruct answered; [reflexivity|]. destruct (rev os) as [|[] l]; [reflexivity..|]. cbn [trailingMisses].
    pose proof (trailingMisses_nonneg l). apply Z.ltb_ge. lia. }
  assert (Ep : pinged answered g =
    mkGate (fold_left (fun s o => probe o s) (os ++ [answered]) newReachability) None
      (ga_answers g ++ List.map (fun c => (c, reachable)) callers)).
  { unfold pinged. rewrite Hf, Hr. rewrite fold_left_app in E |- *. cbn [fold_left] in *. rewrite E. reflexivity. }
  split; [exact Ep|]. rewrite Ep. exact E.
Qed.

Lemma host_breaker_witness :
  pinged false (check 2 (check 1 (mkGate (mkReach true 1) None []))) = mkGate (mkReach false 2) None [(1%nat, false); (2%nat, false)].
Proof.
  exact (proj1 (host_breaker [true; false] (check 2 (check 1 (mkGate (mkReach true 1) None []))) [1; 2]%nat false
    eq_refl eq_refl)).
Defined.

(** ** A fleet of two hosts, one of them half full *)
Definition demoHosts : list (HostRuntime * bool) :=
  [(mkHost "a" None RP_unless_stopped true (Some 16384) Host_active, true);
   (mkHost "b" (Some "10.0.0.2") RP_no false (Some 32768) Host_active, true)].
Definition demoConfig : PlacementConfig := mkPlacementConfig (3 # 2) 2048.
Definition demoUsage : HostUsage := mkUsage (fun h => if str_eqb h "b" then 20000%Q else 0%Q) (fun _ => false).

Lemma placement_choice_witness :
  (choose demoConfig demoUsage 0 3072 "bot" demoHosts []).1 = inr "a"%string /\
  (us_usedMb demoUsage "a" + pendingOn demoUsage 0 "a" (choose demoConfig demoUsage 0 3072 "bot" demoHosts []).2 <=
     USABLE_FRACTION * inject_Z (16384 - 2048))%Q.
Proof.
  assert (E : choose demoConfig demoUsage 0 3072 "bot" demoHosts [] =
              (inr "a"%string, [("bot"%string, mkReservation "a" (counted demoConfig 3072) 0)])) by reflexivity.
  rewrite E. split; [reflexivity|].
  assert (Hok : ReservationsOk []) by (split; constructor).
  pose proof (placement_choice demoConfig demoUsage 0 3072 "bot" demoHosts [] Hok ltac:(unfold counted; vm_compute; discriminate)) as H.
  rewrite E in H. destruct H as (_ & (p & cap & Hin & Hh & _ & Hcap & Hb & _) & _).
  destruct Hin as [<-|[<-|[]]]; simpl in Hh, Hcap; [|discriminate]. injection Hcap as <-. exact Hb.
Defined.

Lemma capacity_is_honest_witness :
  fc_room (capacity demoConfig demoUsage 0 3072 demoHosts []).1 = 9 /\
  placeAll demoConfig demoUsage 0 3072 ["1"; "2"; "3"; "4"; "5"; "6"; "7"; "8"; "9"] demoHosts [] =
    List.map inr ["a"; "a"; "a"; "b"; "a"; "b"; "a"; "b"; "a"]%string /\
  Forall (fun r => exists h, r = inr h)
    (placeAll demoConfig demoUsage 0 3072 ["1"; "2"; "3"; "4"; "5"; "6"; "7"; "8"; "9"] demoHosts []).
Proof.
  split; [reflexivity|]. split; [reflexivity|]. apply capacity_is_honest.
  - vm_compute. reflexivity.
  - refine (bool_decide_unpack _ _). vm_compute. exact I.
  - split; [refine (bool_decide_unpack _ _); vm_compute; exact I|]. intros id _. split; [intros [] | reflexivity].
  - vm_compute. discriminate.
Defined.
