(* ===== verification/FleetStore.v ===== *)
(** The instances tables and their repositories:
    [packages/db/src/schema/instances.ts] and the orchestrator's
    [storage/instance-repository.ts] and [storage/event-repository.ts].

    A row is the fleet row joined with its settings; settings that are missing, do
    not match the schema or cannot be decrypted are the cause of a
    [CorruptedRowError].  Each statement is a function of the rows; [set] is a list
    of column assignments, as in the code. *)
From S2P Require Import Prelude Fleet.
From stdpp Require Import list strings.
#[local] Open Scope Z_scope.

Record Row := mkRow { ro_fleet :> FleetInstance; ro_settings : string + InstanceConfig * string }.

(** ** [.set({...})] *)
Inductive Assign :=
| A_hostId (v : string)
| A_displayName (v : string)
| A_status (v : InstanceStatus)
| A_containerId (v : option string)
| A_gatewayPort (v : Z)
| A_healthFailures (v : Z)
| A_errorMessage (v : option string)
| A_pairingStatus (v : PairingStatus)
| A_pairingStartedAt (v : option Z)
| A_whatsappAccountId (v : option string)
| A_hasWhatsappCreds (v : bool)
| A_lastSeenAt (v : option Z)
| A_backupImport (v : InstanceBackupImport)
| A_litellm (v : InstanceLiteLlm)
| A_movedFromHostId (v : option string)
| A_moveObjectName (v : option string)
| A_movedAt (v : option Z)
| A_moveImportedAt (v : option Z)
| A_updatedAt (v : Z)
| A_stoppedAt (v : option Z)
| A_destroyedAt (v : option Z).

Definition assign (a : Assign) (i : FleetInstance) : FleetInstance :=
  match a with
  | A_hostId v =>
      mkFleet
        (fi_id i) (fi_userId i) v (fi_runtimeKind i) (fi_displayName i) (fi_status i) (fi_containerId i)
        (fi_containerName i) (fi_gatewayPort i) (fi_healthFailures i) (fi_errorMessage i) (fi_pairingStatus i)
        (fi_pairingStartedAt i) (fi_whatsappAccountId i) (fi_hasWhatsappCreds i) (fi_lastSeenAt i)
        (fi_backupImport i) (fi_litellm i) (fi_movedFromHostId i) (fi_moveObjectName i) (fi_movedAt i)
        (fi_moveImportedAt i) (fi_createdAt i) (fi_updatedAt i) (fi_stoppedAt i) (fi_destroyedAt i)
  | A_displayName v =>
      mkFleet
        (fi_id i) (fi_userId i) (fi_hostId i) (fi_runtimeKind i) v (fi_status i) (fi_containerId i)
        (fi_containerName i) (fi_gatewayPort i) (fi_healthFailures i) (fi_errorMessage i) (fi_pairingStatus i)
        (fi_pairingStartedAt i) (fi_whatsappAccountId i) (fi_hasWhatsappCreds i) (fi_lastSeenAt i)
        (fi_backupImport i) (fi_litellm i) (fi_movedFromHostId i) (fi_moveObjectName i) (fi_movedAt i)
        (fi_moveImportedAt i) (fi_createdAt i) (fi_updatedAt i) (fi_stoppedAt i) (fi_destroyedAt i)
  | A_status v =>
      mkFleet
        (fi_id i) (fi_userId i) (fi_hostId i) (fi_runtimeKind i) (fi_displayName i) v (fi_containerId i)
        (fi_containerName i) (fi_gatewayPort i) (fi_healthFailures i) (fi_errorMessage i) (fi_pairingStatus i)
        (fi_pairingStartedAt i) (fi_whatsappAccountId i) (fi_hasWhatsappCreds i) (fi_lastSeenAt i)
        (fi_backupImport i) (fi_litellm i) (fi_movedFromHostId i) (fi_moveObjectName i) (fi_movedAt i)
        (fi_moveImportedAt i) (fi_createdAt i) (fi_updatedAt i) (fi_stoppedAt i) (fi_destroyedAt i)
  | A_containerId v =>
      mkFleet
        (fi_id i) (fi_userId i) (fi_hostId i) (fi_runtimeKind i) (fi_displayName i) (fi_status i) v
        (fi_containerName i) (fi_gatewayPort i) (fi_healthFailures i) (fi_errorMessage i) (fi_pairingStatus i)
        (fi_pairingStartedAt i) (fi_whatsappAccountId i) (fi_hasWhatsappCreds i) (fi_lastSeenAt i)
        (fi_backupImport i) (fi_litellm i) (fi_movedFromHostId i) (fi_moveObjectName i) (fi_movedAt i)
        (fi_moveImportedAt i) (fi_createdAt i) (fi_updatedAt i) (fi_stoppedAt i) (fi_destroyedAt i)
  | A_gatewayPort v =>
      mkFleet
        (fi_id i) (fi_userId i) (fi_hostId i) (fi_runtimeKind i) (fi_displayName i) (fi_status i)
        (fi_containerId i) (fi_containerName i) v (fi_healthFailures i) (fi_errorMessage i)
        (fi_pairingStatus i) (fi_pairingStartedAt i) (fi_whatsappAccountId i) (fi_hasWhatsappCreds i)
        (fi_lastSeenAt i) (fi_backupImport i) (fi_litellm i) (fi_movedFromHostId i) (fi_moveObjectName i)
        (fi_movedAt i) (fi_moveImportedAt i) (fi_createdAt i) (fi_updatedAt i) (fi_stoppedAt i)
        (fi_destroyedAt i)
  | A_healthFailures v =>
      mkFleet
        (fi_id i) (fi_userId i) (fi_hostId i) (fi_runtimeKind i) (fi_displayName i) (fi_status i)
        (fi_containerId i) (fi_containerName i) (fi_gatewayPort i) v (fi_errorMessage i) (fi_pairingStatus i)
        (fi_pairingStartedAt i) (fi_whatsappAccountId i) (fi_hasWhatsappCreds i) (fi_lastSeenAt i)
        (fi_backupImport i) (fi_litellm i) (fi_movedFromHostId i) (fi_moveObjectName i) (fi_movedAt i)
        (fi_moveImportedAt i) (fi_createdAt i) (fi_updatedAt i) (fi_stoppedAt i) (fi_destroyedAt i)
  | A_errorMessage v =>
      mkFleet
        (fi_id i) (fi_userId i) (fi_hostId i) (fi_runtimeKind i) (fi_displayName i) (fi_status i)
        (fi_containerId i) (fi_containerName i) (fi_gatewayPort i) (fi_healthFailures i) v (fi_pairingStatus i)
        (fi_pairingStartedAt i) (fi_whatsappAccountId i) (fi_hasWhatsappCreds i) (fi_lastSeenAt i)
        (fi_backupImport i) (fi_litellm i) (fi_movedFromHostId i) (fi_moveObjectName i) (fi_movedAt i)
        (fi_moveImportedAt i) (fi_createdAt i) (fi_updatedAt i) (fi_stoppedAt i) (fi_destroyedAt i)
  | A_pairingStatus v =>
      mkFleet
        (fi_id i) (fi_userId i) (fi_hostId i) (fi_runtimeKind i) (fi_displayName i) (fi_status i)
        (fi_containerId i) (fi_containerName i) (fi_gatewayPort i) (fi_healthFailures i) (fi_errorMessage i) v
        (fi_pairingStartedAt i) (fi_whatsappAccountId i) (fi_hasWhatsappCreds i) (fi_lastSeenAt i)
        (fi_backupImport i) (fi_litellm i) (fi_movedFromHostId i) (fi_moveObjectName i) (fi_movedAt i)
        (fi_moveImportedAt i) (fi_createdAt i) (fi_updatedAt i) (fi_stoppedAt i) (fi_destroyedAt i)
  | A_pairingStartedAt v =>
      mkFleet
        (fi_id i) (fi_userId i) (fi_hostId i) (fi_runtimeKind i) (fi_displayName i) (fi_status i)
        (fi_containerId i) (fi_containerName i) (fi_gatewayPort i) (fi_healthFailures i) (fi_errorMessage i)
        (fi_pairingStatus i) v (fi_whatsappAccountId i) (fi_hasWhatsappCreds i) (fi_lastSeenAt i)
        (fi_backupImport i) (fi_litellm i) (fi_movedFromHostId i) (fi_moveObjectName i) (fi_movedAt i)
        (fi_moveImportedAt i) (fi_createdAt i) (fi_updatedAt i) (fi_stoppedAt i) (fi_destroyedAt i)
  | A_whatsappAccountId v =>
      mkFleet
        (fi_id i) (fi_userId i) (fi_hostId i) (fi_runtimeKind i) (fi_displayName i) (fi_status i)
        (fi_containerId i) (fi_containerName i) (fi_gatewayPort i) (fi_healthFailures i) (fi_errorMessage i)
        (fi_pairingStatus i) (fi_pairingStartedAt i) v (fi_hasWhatsappCreds i) (fi_lastSeenAt i)
        (fi_backupImport i) (fi_litellm i) (fi_movedFromHostId i) (fi_moveObjectName i) (fi_movedAt i)
        (fi_moveImportedAt i) (fi_createdAt i) (fi_updatedAt i) (fi_stoppedAt i) (fi_destroyedAt i)
  | A_hasWhatsappCreds v =>
      mkFleet
        (fi_id i) (fi_userId i) (fi_hostId i) (fi_runtimeKind i) (fi_displayName i) (fi_status i)
        (fi_containerId i) (fi_containerName i) (fi_gatewayPort i) (fi_healthFailures i) (fi_errorMessage i)
        (fi_pairingStatus i) (fi_pairingStartedAt i) (fi_whatsappAccountId i) v (fi_lastSeenAt i)
        (fi_backupImport i) (fi_litellm i) (fi_movedFromHostId i) (fi_moveObjectName i) (fi_movedAt i)
        (fi_moveImportedAt i) (fi_createdAt i) (fi_updatedAt i) (fi_stoppedAt i) (fi_destroyedAt i)
  | A_lastSeenAt v =>
      mkFleet
        (fi_id i) (fi_userId i) (fi_hostId i) (fi_runtimeKind i) (fi_displayName i) (fi_status i)
        (fi_containerId i) (fi_containerName i) (fi_gatewayPort i) (fi_healthFailures i) (fi_errorMessage i)
        (fi_pairingStatus i) (fi_pairingStartedAt i) (fi_whatsappAccountId i) (fi_hasWhatsappCreds i) v
        (fi_backupImport i) (fi_litellm i) (fi_movedFromHostId i) (fi_moveObjectName i) (fi_movedAt i)
        (fi_moveImportedAt i) (fi_createdAt i) (fi_updatedAt i) (fi_stoppedAt i) (fi_destroyedAt i)
  | A_backupImport v =>
      mkFleet
        (fi_id i) (fi_userId i) (fi_hostId i) (fi_runtimeKind i) (fi_displayName i) (fi_status i)
        (fi_containerId i) (fi_containerName i) (fi_gatewayPort i) (fi_healthFailures i) (fi_errorMessage i)
        (fi_pairingStatus i) (fi_pairingStartedAt i) (fi_whatsappAccountId i) (fi_hasWhatsappCreds i)
        (fi_lastSeenAt i) v (fi_litellm i) (fi_movedFromHostId i) (fi_moveObjectName i) (fi_movedAt i)
        (fi_moveImportedAt i) (fi_createdAt i) (fi_updatedAt i) (fi_stoppedAt i) (fi_destroyedAt i)
  | A_litellm v =>
      mkFleet
        (fi_id i) (fi_userId i) (fi_hostId i) (fi_runtimeKind i) (fi_displayName i) (fi_status i)
        (fi_containerId i) (fi_containerName i) (fi_gatewayPort i) (fi_healthFailures i) (fi_errorMessage i)
        (fi_pairingStatus i) (fi_pairingStartedAt i) (fi_whatsappAccountId i) (fi_hasWhatsappCreds i)
        (fi_lastSeenAt i) (fi_backupImport i) v (fi_movedFromHostId i) (fi_moveObjectName i) (fi_movedAt i)
        (fi_moveImportedAt i) (fi_createdAt i) (fi_updatedAt i) (fi_stoppedAt i) (fi_destroyedAt i)
  | A_movedFromHostId v =>
      mkFleet
        (fi_id i) (fi_userId i) (fi_hostId i) (fi_runtimeKind i) (fi_displayName i) (fi_status i)
        (fi_containerId i) (fi_containerName i) (fi_gatewayPort i) (fi_healthFailures i) (fi_errorMessage i)
        (fi_pairingStatus i) (fi_pairingStartedAt i) (fi_whatsappAccountId i) (fi_hasWhatsappCreds i)
        (fi_lastSeenAt i) (fi_backupImport i) (fi_litellm i) v (fi_moveObjectName i) (fi_movedAt i)
        (fi_moveImportedAt i) (fi_createdAt i) (fi_updatedAt i) (fi_stoppedAt i) (fi_destroyedAt i)
  | A_moveObjectName v =>
      mkFleet
        (fi_id i) (fi_userId i) (fi_hostId i) (fi_runtimeKind i) (fi_displayName i) (fi_status i)
        (fi_containerId i) (fi_containerName i) (fi_gatewayPort i) (fi_healthFailures i) (fi_errorMessage i)
        (fi_pairingStatus i) (fi_pairingStartedAt i) (fi_whatsappAccountId i) (fi_hasWhatsappCreds i)
        (fi_lastSeenAt i) (fi_backupImport i) (fi_litellm i) (fi_movedFromHostId i) v (fi_movedAt i)
        (fi_moveImportedAt i) (fi_createdAt i) (fi_updatedAt i) (fi_stoppedAt i) (fi_destroyedAt i)
  | A_movedAt v =>
      mkFleet
        (fi_id i) (fi_userId i) (fi_hostId i) (fi_runtimeKind i) (fi_displayName i) (fi_status i)
        (fi_containerId i) (fi_containerName i) (fi_gatewayPort i) (fi_healthFailures i) (fi_errorMessage i)
        (fi_pairingStatus i) (fi_pairingStartedAt i) (fi_whatsappAccountId i) (fi_hasWhatsappCreds i)
        (fi_lastSeenAt i) (fi_backupImport i) (fi_litellm i) (fi_movedFromHostId i) (fi_moveObjectName i) v
        (fi_moveImportedAt i) (fi_createdAt i) (fi_updatedAt i) (fi_stoppedAt i) (fi_destroyedAt i)
  | A_moveImportedAt v =>
      mkFleet
        (fi_id i) (fi_userId i) (fi_hostId i) (fi_runtimeKind i) (fi_displayName i) (fi_status i)
        (fi_containerId i) (fi_containerName i) (fi_gatewayPort i) (fi_healthFailures i) (fi_errorMessage i)
        (fi_pairingStatus i) (fi_pairingStartedAt i) (fi_whatsappAccountId i) (fi_hasWhatsappCreds i)
        (fi_lastSeenAt i) (fi_backupImport i) (fi_litellm i) (fi_movedFromHostId i) (fi_moveObjectName i)
        (fi_movedAt i) v (fi_createdAt i) (fi_updatedAt i) (fi_stoppedAt i) (fi_destroyedAt i)
  | A_updatedAt v =>
      mkFleet
        (fi_id i) (fi_userId i) (fi_hostId i) (fi_runtimeKind i) (fi_displayName i) (fi_status i)
        (fi_containerId i) (fi_containerName i) (fi_gatewayPort i) (fi_healthFailures i) (fi_errorMessage i)
        (fi_pairingStatus i) (fi_pairingStartedAt i) (fi_whatsappAccountId i) (fi_hasWhatsappCreds i)
        (fi_lastSeenAt i) (fi_backupImport i) (fi_litellm i) (fi_movedFromHostId i) (fi_moveObjectName i)
        (fi_movedAt i) (fi_moveImportedAt i) (fi_createdAt i) v (fi_stoppedAt i) (fi_destroyedAt i)
  | A_stoppedAt v =>
      mkFleet
        (fi_id i) (fi_userId i) (fi_hostId i) (fi_runtimeKind i) (fi_displayName i) (fi_status i)
        (fi_containerId i) (fi_containerName i) (fi_gatewayPort i) (fi_healthFailures i) (fi_errorMessage i)
        (fi_pairingStatus i) (fi_pairingStartedAt i) (fi_whatsappAccountId i) (fi_hasWhatsappCreds i)
        (fi_lastSeenAt i) (fi_backupImport i) (fi_litellm i) (fi_movedFromHostId i) (fi_moveObjectName i)
        (fi_movedAt i) (fi_moveImportedAt i) (fi_createdAt i) (fi_updatedAt i) v (fi_destroyedAt i)
  | A_destroyedAt v =>
      mkFleet
        (fi_id i) (fi_userId i) (fi_hostId i) (fi_runtimeKind i) (fi_displayName i) (fi_status i)
        (fi_containerId i) (fi_containerName i) (fi_gatewayPort i) (fi_healthFailures i) (fi_errorMessage i)
        (fi_pairingStatus i) (fi_pairingStartedAt i) (fi_whatsappAccountId i) (fi_hasWhatsappCreds i)
        (fi_lastSeenAt i) (fi_backupImport i) (fi_litellm i) (fi_movedFromHostId i) (fi_moveObjectName i)
        (fi_movedAt i) (fi_moveImportedAt i) (fi_createdAt i) (fi_updatedAt i) (fi_stoppedAt i) v
  end.

Definition applySet (l : list Assign) (i : FleetInstance) : FleetInstance := fold_left (fun i a => assign a i) l i.
Definition setRow (l : list Assign) (r : Row) : Row := mkRow (applySet l (ro_fleet r)) (ro_settings r).
(** ** Constraints *)
Definition inIndex (i : FleetInstance) : bool := negb (oneOf [I_destroyed; I_error] (fi_status i)).

(** [idx_instances_gateway_port_active]. *)
Definition portKeys (rows : list Row) : list (string * Z) :=
  List.map (fun r : Row => (fi_hostId r, fi_gatewayPort r)) (List.filter (fun r : Row => inIndex r) rows).
Definition portIndexOk (rows : list Row) : bool := bool_decide (NoDup (portKeys rows)).

Definition portViolation : OrchError := UniqueViolation "idx_instances_gateway_port_active".

(** An [UPDATE]; whether it touched a row. *)
Definition updateRows (p : FleetInstance -> bool) (set : list Assign) (rows : list Row)
  : (OrchError + bool) * list Row :=
  let rows' := update_where (fun r : Row => p r) (setRow set) rows in
  if portIndexOk rows' then (inr (List.existsb (fun r : Row => p r) rows), rows') else (inl portViolation, rows).

Definition isRow (id : string) (i : FleetInstance) : bool := str_eqb (fi_id i) id.

(** [toDomain]. *)
Definition toDomain (r : Row) : OrchError + Instance_ :=
  match ro_settings r with
  | inl cause => inl (CorruptedRowError "instance" (fi_id r) cause)
  | inr (config, token) => inr (mkInstance (ro_fleet r) config token)
  end.

(** [toDomainSafe]. *)
Definition toDomainSafe (rows : list Row) : list Instance_ :=
  omap (fun r => match toDomain r with inr i => Some i | inl _ => None end) rows.

Definition isActive (i : FleetInstance) : bool := negb (bool_decide (fi_status i = I_destroyed)).

Definition HEALTH_STATUSES : list InstanceStatus := [I_running; I_degraded; I_unhealthy].

Record PairingUpdate := mkPairingUpdate {
  pu_pairingStatus : option PairingStatus;
  pu_whatsappAccountId : option (option string);
  pu_whatsappPaired : option bool;
  pu_lastSeenAt : option (option Z);
  pu_pairingStartedAt : option (option Z);
}.

Record MoveToInput := mkMoveTo {
  mt_fromHostId : string; mt_toHostId : string; mt_gatewayPort : Z; mt_objectName : string; mt_keepStopped : bool }.

Record InsertFields := mkInsert {
  if_id : string;
  if_userId : string;
  if_hostId : string;
  if_runtimeKind : AgentRuntimeKind;
  if_containerName : string;
  if_gatewayPort : Z;
  if_gatewayToken : string;
  if_config : InstanceConfig;
  if_backupImport : option BackupImportRef;
  if_litellm : option InstanceLiteLlm;
}.

(** ** Statements *)
Section Repository.
Context (managedHostIds : list string).

Definition managedHost (hostId : string) : bool := List.existsb (str_eqb hostId) managedHostIds.
Definition owned (i : FleetInstance) : bool := managedHost (fi_hostId i).
Definition ownedRow (id : string) (i : FleetInstance) : bool := isRow id i && owned i.

(** The row of a new instance: [status] is ["provisioning"]. *)
Definition newRow (now : Z) (f : InsertFields) : Row :=
  mkRow
    (mkFleet (if_id f) (if_userId f) (if_hostId f) (if_runtimeKind f) (ic_displayName (if_config f))
       I_provisioning None (if_containerName f) (if_gatewayPort f) 0 None P_none None None false None
       (match if_backupImport f with
        | Some b => mkBackupImport BI_pending (Some (br_objectName b)) (Some (br_contentLength b))
                      (Some (br_contentType b))
        | None => mkBackupImport BI_none None None None
        end)
       (default (mkLiteLlm None None None None) (if_litellm f))
       None None None None now now None None)
    (inr (if_config f, if_gatewayToken f)).

Definition unmanaged (hostId : string) : OrchError :=
  PlainError ("host " ++ hostId ++ " is not managed by this orchestrator")%string.

(** [insertWithDb]: the primary key and the port index. *)
Definition insertRow (now : Z) (f : InsertFields) (rows : list Row) : (OrchError + Instance_) * list Row :=
  if negb (managedHost (if_hostId f)) then (inl (unmanaged (if_hostId f)), rows)
  else if List.existsb (fun r : Row => isRow (if_id f) r) rows then (inl (UniqueViolation "instances_pkey"), rows)
  else
    let rows' := rows ++ [newRow now f] in
    if portIndexOk rows' then (toDomain (newRow now f), rows') else (inl portViolation, rows).

(** The count and the insert are under one advisory lock per user. *)
Definition insertIfUserActiveBelowLimit (now : Z) (f : InsertFields) (maxActive : Z) (rows : list Row)
  : (OrchError + option Instance_) * list Row :=
  let count := Z.of_nat (length (List.filter
    (fun r : Row => owned r && str_eqb (fi_userId r) (if_userId f) && isActive r) rows)) in
  if maxActive <=? count then (inr None, rows)
  else match insertRow now f rows with
       | (inl e, rows') => (inl e, rows')
       | (inr i, rows') => (inr (Some i), rows')
       end.

Definition findById (id : string) (rows : list Row) : OrchError + option Instance_ :=
  match List.find (fun r : Row => ownedRow id r) rows with
  | None => inr None
  | Some r => match toDomain r with inl e => inl e | inr i => inr (Some i) end
  end.

(** [ORDER BY created_at, id]. *)
Definition createdLeb (a b : Row) : bool :=
  (fi_createdAt a <? fi_createdAt b) || ((fi_createdAt a =? fi_createdAt b) && String.leb (fi_id a) (fi_id b)).

Definition afterCursor (cursor : option (Z * string)) (i : FleetInstance) : bool :=
  match cursor with
  | None => true
  | Some (t, id) =>
      (t <? fi_createdAt i) || ((fi_createdAt i =? t) && String.ltb id (fi_id i))
  end.

Definition findByUserId (userId : string) (cursor : option (Z * string)) (limit : nat) (rows : list Row)
  : list Instance_ :=
  toDomainSafe (take limit (isort createdLeb (List.filter
    (fun r : Row => owned r && str_eqb (fi_userId r) userId && isActive r && afterCursor cursor r) rows))).

Definition findAllActive (rows : list Row) : list Instance_ :=
  toDomainSafe (isort createdLeb (List.filter (fun r : Row => owned r && isActive r) rows)).

Definition findByStatuses (statuses : list InstanceStatus) (rows : list Row) : list FleetInstance :=
  List.map ro_fleet (List.filter (fun r : Row => owned r && oneOf statuses (fi_status r)) rows).

Definition getActiveGatewayPorts (hostId : string) (rows : list Row) : list Z :=
  List.map (fun r : Row => fi_gatewayPort r)
    (List.filter (fun r : Row => owned r && str_eqb (fi_hostId r) hostId && isActive r) rows).

Definition expects (expected : option InstanceStatus) (i : FleetInstance) : bool :=
  match expected with Some s => bool_decide (fi_status i = s) | None => true end.

Definition given {A} (f : A -> Assign) (o : option A) : list Assign :=
  match o with Some a => [f a] | None => [] end.

Definition statusSet (now : Z) (status : InstanceStatus) (errorMessage : option string) : list Assign :=
  [A_status status; A_updatedAt now]
  ++ (if bool_decide (status = I_stopped) then [A_stoppedAt (Some now)] else [])
  ++ (if bool_decide (status = I_destroyed) then [A_destroyedAt (Some now)] else [])
  ++ given (fun m => A_errorMessage (Some m)) errorMessage.

Definition updateStatus (now : Z) (id : string) (status : InstanceStatus) (expectedStatus : option InstanceStatus)
  (errorMessage : option string) : list Row -> (OrchError + bool) * list Row :=
  updateRows (fun i => ownedRow id i && expects expectedStatus i) (statusSet now status errorMessage).

Definition updateHealth (now : Z) (id : string) (failures : Z) (status : InstanceStatus) (markSeen : bool)
  (rows : list Row) : (OrchError + bool) * list Row :=
  updateRows (fun i => ownedRow id i && oneOf HEALTH_STATUSES (fi_status i))
    ([A_healthFailures failures; A_status status; A_updatedAt now]
     ++ (if markSeen then [A_lastSeenAt (Some now)] else [])) rows.

Definition updateContainerId (now : Z) (id containerId : string) : list Row -> (OrchError + bool) * list Row :=
  updateRows (ownedRow id) [A_containerId (Some containerId); A_updatedAt now].

Definition withConfig (config : InstanceConfig) (r : Row) : Row :=
  mkRow (ro_fleet r)
    match ro_settings r with inr (_, token) => inr (config, token) | inl cause => inl cause end.

(** One transaction; settings that cannot be read stay so. *)
Definition updateConfig_tx (now : Z) (id : string) (config : InstanceConfig) (rows : list Row)
  : (OrchError + bool) * list Row :=
  let settings := update_where (fun r : Row => ownedRow id r) (withConfig config) rows in
  match updateRows (fun i => ownedRow id i && negb (str_eqb (fi_displayName i) (ic_displayName config)))
          [A_displayName (ic_displayName config); A_updatedAt now] settings with
  | (inl e, _) => (inl e, rows)
  | (inr b, rows') => (inr b, rows')
  end.

Definition updateLiteLlmKey (now : Z) (id : string) (key : InstanceLiteLlm)
  : list Row -> (OrchError + bool) * list Row :=
  updateRows (ownedRow id) [A_litellm key; A_updatedAt now].

Definition updatePairing (now : Z) (id : string) (patch : PairingUpdate) (expected : option (list PairingStatus))
  : list Row -> (OrchError + bool) * list Row :=
  updateRows
    (fun i => ownedRow id i && match expected with Some l => oneOf l (fi_pairingStatus i) | None => true end)
    ([A_updatedAt now] ++ given A_pairingStatus (pu_pairingStatus patch)
     ++ given A_whatsappAccountId (pu_whatsappAccountId patch)
     ++ given A_hasWhatsappCreds (pu_whatsappPaired patch)
     ++ given A_lastSeenAt (pu_lastSeenAt patch)
     ++ given A_pairingStartedAt (pu_pairingStartedAt patch)).

Definition updateBackupImport (now : Z) (id : string) (b : InstanceBackupImport)
  : list Row -> (OrchError + bool) * list Row :=
  updateRows (ownedRow id) [A_backupImport b; A_updatedAt now].

Definition moveTo (now : Z) (id : string) (input : MoveToInput) (rows : list Row) : (OrchError + bool) * list Row :=
  if negb (managedHost (mt_toHostId input)) then (inl (unmanaged (mt_toHostId input)), rows)
  else
    updateRows
      (fun i => ownedRow id i && str_eqb (fi_hostId i) (mt_fromHostId input) && bool_decide (fi_status i = I_stopped))
      ([A_hostId (mt_toHostId input); A_gatewayPort (mt_gatewayPort input); A_status I_provisioning;
        A_containerId None; A_healthFailures 0; A_errorMessage None;
        A_movedFromHostId (Some (mt_fromHostId input)); A_moveObjectName (Some (mt_objectName input));
        A_movedAt (Some now); A_moveImportedAt None]
       ++ (if mt_keepStopped input then [] else [A_stoppedAt None]) ++ [A_updatedAt now]) rows.

Definition moveBack (now : Z) (id toHostId : string) (gatewayPort : Z) (rows : list Row)
  : (OrchError + bool) * list Row :=
  if negb (managedHost toHostId) then (inl (unmanaged toHostId), rows)
  else
    updateRows
      (fun i => ownedRow id i && bool_decide (fi_status i = I_error) && ostr_eqb (fi_movedFromHostId i) (Some toHostId)
                && match fi_moveObjectName i with Some _ => true | None => false end)
      [A_hostId toHostId; A_gatewayPort gatewayPort; A_containerId None; A_movedFromHostId None;
       A_moveObjectName None; A_movedAt None; A_moveImportedAt None; A_updatedAt now] rows.

Definition findMovedSourcesDue (now olderThanMs : Z) (rows : list Row) : list FleetInstance :=
  List.map ro_fleet (List.filter (fun r : Row =>
    owned r && match fi_movedFromHostId r with Some _ => true | None => false end
    && match fi_movedAt r with Some t => t <? now - olderThanMs | None => false end) rows).

Definition clearMove (now : Z) (id : string) : list Row -> (OrchError + bool) * list Row :=
  updateRows (ownedRow id)
    [A_movedFromHostId None; A_moveObjectName None; A_movedAt None; A_moveImportedAt None; A_updatedAt now].

Definition markMoveImported (now : Z) (id : string) : list Row -> (OrchError + bool) * list Row :=
  updateRows (ownedRow id) [A_moveImportedAt (Some now); A_updatedAt now].

Definition completeMove (now : Z) (id : string) (status : InstanceStatus)
  : list Row -> (OrchError + bool) * list Row :=
  updateRows (fun i => ownedRow id i && bool_decide (fi_status i = I_provisioning))
    [A_status status; A_moveObjectName None; A_moveImportedAt None; A_updatedAt now].

Definition findStaleProvisioning (now olderThanMs : Z) (rows : list Row) : list FleetInstance :=
  List.map ro_fleet (List.filter (fun r : Row =>
    owned r && bool_decide (fi_status r = I_provisioning) && (fi_createdAt r <? now - olderThanMs)) rows).

Definition findStalePairings (now olderThanMs : Z) (hostIds : list string) (rows : list Row) : list FleetInstance :=
  match hostIds with
  | [] => []
  | _ => List.map ro_fleet (List.filter (fun r : Row =>
      owned r && List.existsb (str_eqb (fi_hostId r)) hostIds
      && oneOf [P_awaiting_qr; P_awaiting_code] (fi_pairingStatus r)
      && match fi_pairingStartedAt r with None => true | Some t => t <? now - olderThanMs end) rows)
  end.
End Repository.

(** ** event-repository.ts

    An event's payload is not kept. *)
Record EventRow := mkEventRow {
  ev_id : Z; ev_instanceId : string; ev_eventType : string; ev_actor : option string; ev_createdAt : Z }.

Definition appendEvent (now : Z) (instanceId eventType : string) (actor : option string) (l : list EventRow)
  : list EventRow :=
  l ++ [mkEventRow (Z.of_nat (length l) + 1) instanceId eventType (Some (default "system" actor)) now].

Definition eventLeb (a b : EventRow) : bool :=
  (ev_createdAt a <? ev_createdAt b) || ((ev_createdAt a =? ev_createdAt b) && (ev_id a <=? ev_id b)).

Definition provisioningHistory (instanceId : string) (l : list EventRow) : list (ProvisioningStage * Z) :=
  omap (fun e => option_map (fun s => (s, ev_createdAt e)) (provisioningStageOf (ev_eventType e)))
    (isort eventLeb (List.filter (fun e => str_eqb (ev_instanceId e) instanceId
       && List.existsb (fun p => str_eqb p.1 (ev_eventType e)) STAGE_BY_EVENT) l)).

Definition firstAt (instanceId : string) (eventTypes : list string) (l : list EventRow) : option Z :=
  option_map ev_createdAt (List.hd_error
    (isort eventLeb (List.filter (fun e => str_eqb (ev_instanceId e) instanceId
       && List.existsb (str_eqb (ev_eventType e)) eventTypes) l))).

Definition recent (instanceId : string) (limit : nat) (l : list EventRow) : list EventRow :=
  take limit (isort (fun a b => eventLeb b a) (List.filter (fun e => str_eqb (ev_instanceId e) instanceId) l)).

Definition findCreatedSinceWithoutEvent (managed : list string) (since : Z) (statuses : list InstanceStatus)
  (eventType : string) (events : list EventRow) (rows : list Row) : list Instance_ :=
  toDomainSafe (isort createdLeb (List.filter (fun r : Row =>
    owned managed r && oneOf statuses (fi_status r) && (since <=? fi_createdAt r)
    && negb (List.existsb (fun e => str_eqb (ev_instanceId e) (fi_id r) && str_eqb (ev_eventType e) eventType) events))
    rows)).
