(* ===== verification/IntegrationTypes.v ===== *)
(** The types and the pure parts of a bot's connected apps: [domain/integrations.ts],
    [services/integrations/catalog-search.ts], and the parts of
    [services/integrations/manager.ts] and [routes/mcp-relay.ts] that only compute, with
    the manager's memory of the catalog.  Text is ASCII: its Unicode normal form is
    itself and it has no invisible marks.  The programs are in [Integrations].  Then the types of a
    Telegram link, whose programs are in [Linker]. *)
From Stdlib Require Import Ascii.
From S2P Require Import Prelude JsString Json Fleet.
From stdpp Require Import list strings gmap.
#[local] Open Scope Z_scope.

(** ** domain/integrations.ts *)
Inductive ConnectionStatus := Cs_active | Cs_pending | Cs_expired | Cs_failed | Cs_inactive.
#[export] Instance ConnectionStatus_eq_dec : EqDecision ConnectionStatus.
Proof. solve_decision. Defined.

Record CatalogApp := mkApp {
  ca_slug : string;
  ca_name : string;
  ca_logo : option string;
  ca_description : option string;
  ca_categories : list string;
  ca_noAuth : bool;
}.

Record CatalogQuery := mkCatalogQuery { cq_q : option string; cq_slugs : option (list string); cq_limit : nat; cq_offset : nat }.
Record CatalogPage := mkCatalogPage { cp_apps : list CatalogApp; cp_total : Z }.

Definition INTEGRATION_MAX_ACCOUNTS_PER_APP : nat := 3.

Record IntegrationConnection := mkConnection {
  cx_ref : string;
  cx_app : string;
  cx_status : ConnectionStatus;
  cx_label : option string;
  cx_createdAt : option string;
}.
#[export] Instance IntegrationConnection_eq_dec : EqDecision IntegrationConnection.
Proof. solve_decision. Defined.

Record IntegrationConnectRequest := mkConnectRequest { iq_app : string; iq_returnUrl : string; iq_label : option string }.

Definition normalizeLabel (label : string) : string := trim label.
Definition labelKey (label : option string) : string := toLowerCase (normalizeLabel (default EmptyString label)).

Record IntegrationSession := mkSession {
  is_instanceId : string;
  is_provider : string;
  is_providerSessionId : string;
  is_upstreamMcpUrl : string;
  is_updatedAt : Z;
}.

(** ** catalog-search.ts *)

(** [new Map(apps.map(app => [app.slug, app]))]: the last app of a slug. *)
Definition appOf (apps : list CatalogApp) (slug : string) : option CatalogApp :=
  List.find (fun a => str_eqb (ca_slug a) slug) (rev apps).

Definition uniqueStep (acc : list string) (s : string) : list string :=
  if List.existsb (str_eqb s) acc then acc else acc ++ [s].
(** [[...new Set(l)]]. *)
Definition unique (l : list string) : list string := fold_left uniqueStep l [].

Definition bySlugs (apps : list CatalogApp) (slugs : list string) : list CatalogApp := omap (appOf apps) (unique slugs).

Fixpoint includes (needle s : string) : bool :=
  String.prefix needle s || match s with EmptyString => false | String _ s' => includes needle s' end.

Definition byName (apps : list CatalogApp) (q : option string) : list CatalogApp :=
  let needle := match q with Some q => toLowerCase (trim q) | None => EmptyString end in
  List.filter (fun a => negb (ca_noAuth a) &&
    (str_eqb needle EmptyString || includes needle (toLowerCase (ca_name a)) || includes needle (ca_slug a))) apps.

Definition searchCatalog (apps : list CatalogApp) (query : CatalogQuery) : CatalogPage :=
  let matches := match cq_slugs query with Some slugs => bySlugs apps slugs | None => byName apps (cq_q query) end in
  mkCatalogPage (firstn (cq_limit query) (skipn (cq_offset query) matches)) (Z.of_nat (length matches)).

(** ** manager.ts *)
Definition CATALOG_REFRESH_AFTER_MS : Z := 24 * 60 * 60 * 1000.
Definition CATALOG_RETRY_AFTER_MS : Z := 5 * 60 * 1000.
Definition STALE_STATUSES : list ConnectionStatus := [Cs_expired; Cs_failed].

Record CatalogCache := mkCatalogCache { cc_apps : list CatalogApp; cc_fetchedAt : Z }.
Record CatalogMemory := mkCatalogMemory {
  cm_cache : option CatalogCache;
  cm_attemptedAt : option Z;
  cm_inFlight : bool;
}.
Definition emptyCatalog : CatalogMemory := mkCatalogMemory None None false.

(** A list in hand that is young enough. *)
Definition freshCatalog (now : Z) (m : CatalogMemory) : option (list CatalogApp) :=
  match cm_cache m with
  | Some c => if now - cc_fetchedAt c <? CATALOG_REFRESH_AFTER_MS then Some (cc_apps c) else None
  | None => None
  end.

Definition mayAttempt (now : Z) (m : CatalogMemory) : bool :=
  match cm_attemptedAt m with Some t => CATALOG_RETRY_AFTER_MS <=? now - t | None => true end.

(** An attempt settles, with a list worth keeping or without. *)
Definition settleCatalog (now : Z) (apps : option (list CatalogApp)) (m : CatalogMemory) : CatalogMemory :=
  mkCatalogMemory match apps with Some l => Some (mkCatalogCache l now) | None => cm_cache m end (Some now) false.

Definition takeOff (m : CatalogMemory) : CatalogMemory := mkCatalogMemory (cm_cache m) (cm_attemptedAt m) true.

(** What [fullCatalog] and [fetchCatalog] decide before they wait: a list, a flight of
    one's own, somebody else's, or the failure.  A stale list is served, and refilled by
    a flight nobody waits for. *)
Inductive CatalogAnswer := Cat_serve (l : list CatalogApp) | Cat_fly | Cat_join | Cat_refuse.

Definition fly (m : CatalogMemory) : CatalogMemory := if cm_inFlight m then m else takeOff m.

Definition askCatalog (now : Z) (m : CatalogMemory) : CatalogAnswer * CatalogMemory :=
  match freshCatalog now m, cm_cache m with
  | Some l, _ => (Cat_serve l, m)
  | None, Some c => (Cat_serve (cc_apps c), if mayAttempt now m then fly m else m)
  | None, None =>
      if mayAttempt now m then (if cm_inFlight m then Cat_join else Cat_fly, fly m)
      else (Cat_refuse, m)
  end.

Record ClearedAccounts := mkCleared { cl_kept : list IntegrationConnection; cl_stuck : list IntegrationConnection }.

Definition isSupersededBy (account : IntegrationConnection) (label : option string) : bool :=
  if bool_decide (cx_status account = Cs_active) then false
  else if str_eqb (labelKey (cx_label account)) (labelKey label) then true
  else match cx_label account with None => oneOf STALE_STATUSES (cx_status account) | Some _ => false end.

Definition named (label : option string) (accounts : list IntegrationConnection) : bool :=
  match label with
  | Some _ => List.existsb (fun c => str_eqb (labelKey (cx_label c)) (labelKey label)) accounts
  | None => false
  end.

Definition assertRoomForAccount (app : string) (c : ClearedAccounts) (label : option string) : OrchError + unit :=
  if (INTEGRATION_MAX_ACCOUNTS_PER_APP <=? length (cl_kept c))%nat
  then inl (AccountLimitReachedError app (Z.of_nat INTEGRATION_MAX_ACCOUNTS_PER_APP))
  else if named label (cl_kept c) then inl (AccountLabelTakenError app)
  else if (INTEGRATION_MAX_ACCOUNTS_PER_APP <=? length (cl_kept c) + length (cl_stuck c))%nat || named label (cl_stuck c)
  then inl (UpstreamUnavailableError "integrations" None)
  else inr tt.

Definition createdKey (c : IntegrationConnection) : string := default EmptyString (cx_createdAt c).
Definition newestFirst (l : list IntegrationConnection) : list IntegrationConnection :=
  isort (fun a b => String.leb (createdKey b) (createdKey a)) l.

(** Another account of the app that a person would read as having that name. *)
Definition labelTaken (ref app label : string) (l : list IntegrationConnection) : bool :=
  List.existsb (fun c => negb (str_eqb (cx_ref c) ref) && str_eqb (cx_app c) app
    && str_eqb (labelKey (cx_label c)) (labelKey (Some label))) l.

(** ** mcp-relay.ts *)
Definition FORWARDED_REQUEST_HEADERS : list string :=
  ["accept"; "content-type"; "mcp-session-id"; "mcp-protocol-version"; "last-event-id"].
Definition FORWARDED_RESPONSE_HEADERS : list string := ["content-type"; "mcp-session-id"; "mcp-protocol-version"].

Definition Headers : Type := list (string * string).
Definition headerOf (name : string) (h : Headers) : option string :=
  option_map snd (List.find (fun p => str_eqb p.1 name) h).
Definition setHeader (h : Headers) (p : string * string) : Headers :=
  List.filter (fun q => negb (str_eqb q.1 p.1)) h ++ [p].

(** The headers of the call upstream: those forwarded, then the provider's over them. *)
Definition relayHeaders (request target : Headers) : Headers :=
  fold_left setHeader target
    (omap (fun name => option_map (fun v => (name, v)) (headerOf name request)) FORWARDED_REQUEST_HEADERS).

Definition replyHeaders (upstream : Headers) : Headers :=
  omap (fun name => option_map (fun v => (name, v)) (truthy (headerOf name upstream))) FORWARDED_RESPONSE_HEADERS.

(** ** Telegram links

    The links of Telegram bots to come, as [ManagedBotLinker] keeps them
    ([orchestrator/src/services/telegram/managed-bot-linker.ts]).

    A link is an object: [pk_ref] is its identity.  [lm_byUsername] is a [Map] in the
    order of its insertions.  The programs are in [Linker]. *)
Definition LINK_TTL_MS : Z := 60 * 60 * 1000.
Definition PROVISIONING_RETRY_INTERVAL_MS : Z := 10000.
Definition PROVISIONING_MAX_ATTEMPTS : nat := 90.
Definition TRANSIENT_MAX_ATTEMPTS : nat := 4.
Definition TRANSIENT_BACKOFF_BASE_MS : Z := 1000.
Definition WELCOME_MAX_ATTEMPTS : nat := 8.
Definition USERNAME_PREFIX_FALLBACK : string := "agentforall".
Definition TELEGRAM_LINKED_EVENT : string := "telegram.linked".
Definition USERNAME_PREFIX_MAX : nat := 12.
Definition USERNAME_PREFIX_MIN : nat := 3.

(** What a call to Telegram throws: an error with Telegram's code, if it has one, or
    anything else. *)
Inductive TelegramError := Te_api (errorCode : option Z) | Te_other.

(** ** The suggested name *)
Definition isLowerAlnum (c : ascii) : bool :=
  isDigit c || (let n := Z.of_nat (nat_of_ascii c) in (97 <=? n) && (n <=? 122)).
Fixpoint keepIf (p : ascii -> bool) (s : string) : string :=
  match s with
  | EmptyString => EmptyString
  | String c s' => if p c then String c (keepIf p s') else keepIf p s'
  end.
Fixpoint dropDigits (s : string) : string :=
  match s with String c s' => if isDigit c then dropDigits s' else s | EmptyString => EmptyString end.

(** [.replace(/bot$/, "")]. *)
Definition dropBot (s : string) : string :=
  let n := (String.length s - 3)%nat in
  if (3 <=? String.length s)%nat && str_eqb (String.substring n 3 s) "bot" then String.substring 0 n s else s.

Definition suggestedUsernamePrefix (displayName : string) : string :=
  let slug := String.substring 0 USERNAME_PREFIX_MAX (dropDigits (keepIf isLowerAlnum (toLowerCase displayName))) in
  let withoutBot := dropBot slug in
  let chosen := if (USERNAME_PREFIX_MIN <=? String.length withoutBot)%nat then withoutBot else slug in
  if (USERNAME_PREFIX_MIN <=? String.length chosen)%nat then chosen else USERNAME_PREFIX_FALLBACK.

(** ** The links *)
Record PendingLink := mkPending {
  pk_ref : Z;
  pk_instanceId : string;
  pk_userId : string;
  pk_suggestedUsername : string;
  pk_deepLink : string;
  pk_expiresAt : Z;
}.

Record LinkerMemory := mkLinkerMemory {
  lm_byUsername : list (string * PendingLink);
  lm_byInstance : gmap string PendingLink;
  lm_managerUsername : option string;
  lm_nextRef : Z;
}.
Definition emptyLinker : LinkerMemory := mkLinkerMemory [] ∅ None 0.

Definition sameLink (a b : PendingLink) : bool := pk_ref a =? pk_ref b.

Definition linkByUsername (username : string) (m : LinkerMemory) : option PendingLink :=
  option_map snd (List.find (fun p => str_eqb p.1 username) (lm_byUsername m)).

Definition setManagerUsername (u : string) (m : LinkerMemory) : LinkerMemory :=
  mkLinkerMemory (lm_byUsername m) (lm_byInstance m) (Some u) (lm_nextRef m).

(** [Map.set] keeps the place of a key it has. *)
Definition setUsername (username : string) (k : PendingLink) (l : list (string * PendingLink)) : list (string * PendingLink) :=
  if List.existsb (fun p => str_eqb p.1 username) l
  then List.map (fun p => if str_eqb p.1 username then (username, k) else p) l
  else l ++ [(username, k)].

Definition addLink (k : PendingLink) (m : LinkerMemory) : LinkerMemory :=
  mkLinkerMemory (setUsername (pk_suggestedUsername k) k (lm_byUsername m))
    (<[pk_instanceId k := k]> (lm_byInstance m)) (lm_managerUsername m) (lm_nextRef m + 1).

Definition dropInstance (k : PendingLink) (l : gmap string PendingLink) : gmap string PendingLink :=
  match l !! pk_instanceId k with
  | Some k' => if sameLink k' k then delete (pk_instanceId k) l else l
  | None => l
  end.

Definition removePending (k : PendingLink) (m : LinkerMemory) : LinkerMemory :=
  mkLinkerMemory
    match linkByUsername (pk_suggestedUsername k) m with
    | Some k' => if sameLink k' k
                 then List.filter (fun p => negb (str_eqb p.1 (pk_suggestedUsername k))) (lm_byUsername m)
                 else lm_byUsername m
    | None => lm_byUsername m
    end
    (dropInstance k (lm_byInstance m)) (lm_managerUsername m) (lm_nextRef m).

Definition expiredLink (now : Z) (k : PendingLink) : bool := pk_expiresAt k <=? now.

Definition sweepExpired (now : Z) (m : LinkerMemory) : LinkerMemory :=
  mkLinkerMemory (List.filter (fun p => negb (expiredLink now p.2)) (lm_byUsername m))
    (fold_left (fun l p => dropInstance p.2 l) (List.filter (fun p => expiredLink now p.2) (lm_byUsername m)) (lm_byInstance m))
    (lm_managerUsername m) (lm_nextRef m).

Definition cancelLink_ (instanceId : string) (m : LinkerMemory) : LinkerMemory :=
  match lm_byInstance m !! instanceId with Some k => removePending k m | None => m end.
