(* ===== verification/FleetWorld.v ===== *)
(** What the lifecycle of a bot is written against: the rows and events in the
    database, the WhatsApp tables, the integration sessions, the ports and memory held for bots being created, and the
    interfaces of the components the manager calls.

    The Docker hosts, the agent runtimes, the buckets and the other collaborators
    are behind type classes over an abstract state [X]: [ContainerRuntime] is the
    interface of [orchestrator/src/services/container-runtime.ts] (with a host id
    for [hosts.for(hostId).runtime]), [AgentAdapter] that of
    [services/agent-runtime/types.ts], [Collaborators] gathers the constructor's
    other arguments.  Every call may fail, in a way its state decides; so may
    every statement ([db_next]): before it runs, or after it has committed.

    [services/port-allocator.ts] is modelled here. *)
From S2P Require Import Prelude Fleet Exports CloudInbox CloudTypes Hosts FleetStore IntegrationTypes.
From stdpp Require Import list strings gmap.
#[local] Open Scope Z_scope.

(** ** container-runtime.ts *)
Inductive ContainerHealth := CH_starting | CH_healthy | CH_unhealthy | CH_none.

#[export] Instance ContainerHealth_eq_dec : EqDecision ContainerHealth.
Proof. solve_decision. Defined.

Record ContainerState := mkContainerState {
  ct_running : bool;
  ct_restarting : bool;
  ct_health : ContainerHealth;
  ct_startedAt : option Z;
}.

Definition BOOT_GRACE_MS : Z := 180000.

Definition isContainerBooting (state : ContainerState) (now : Z) : bool :=
  let young := match ct_startedAt state with Some t => now - t <? BOOT_GRACE_MS | None => false end in
  ct_restarting state || bool_decide (ct_health state = CH_starting) || young.

(** A call to a component outside: its answer or its error, and its next state. *)
Abbreviation Ext X A := (X -> (OrchError + A) * X).

Class ContainerRuntime (X : Type) := {
  gate_check : string -> X -> bool * X;
  rt_ensureImagePresent : string -> string -> Ext X unit;
  rt_ensureVolumeExists : string -> string -> Ext X unit;
  rt_hasVolume : string -> string -> Ext X bool;
  rt_removeVolume : string -> string -> Ext X unit;
  (** [buildContainerOptions] of the adapter, with the host's restart policy and bind address. *)
  rt_create : string -> Instance_ -> RestartPolicy -> string -> Ext X string;
  rt_start : string -> string -> Ext X unit;
  rt_stop : string -> string -> Ext X unit;
  rt_restart : string -> string -> Ext X unit;
  rt_remove : string -> string -> Ext X unit;
  rt_findContainerByName : string -> string -> Ext X (option string);
  rt_containerState : string -> string -> Ext X (option ContainerState);
  rt_isRunning : string -> string -> Ext X bool;
  rt_waitForHealthy : string -> string -> Ext X bool;
}.

(** ** agent-runtime/types.ts *)
Inductive ConfigApplyOutcome := Out_applied | Out_restart_required.
Inductive WhatsappLinkState := Wl_connected | Wl_disconnected | Wl_unknown | Wl_probe_failed | Wl_protocol_error.

#[export] Instance ConfigApplyOutcome_eq_dec : EqDecision ConfigApplyOutcome.
Proof. solve_decision. Defined.
#[export] Instance WhatsappLinkState_eq_dec : EqDecision WhatsappLinkState.
Proof. solve_decision. Defined.

Record GatewayLiveness := mkGatewayLiveness { gl_healthy : bool; gl_degraded : option bool }.
Record RuntimeCheck := mkRuntimeCheck { rc_name : string; rc_ok : bool; rc_detail : option string }.

(** An archive in transit, or in a bucket. *)
Record Archive := mkArchive { ar_contentLength : Z; ar_contentType : option string; ar_body : string }.

Class AgentAdapter (X : Type) := {
  ad_image : AgentRuntimeKind -> string;
  ad_internalPort : AgentRuntimeKind -> Z;
  ad_maxBackupBytes : AgentRuntimeKind -> Z;
  ad_containerName : AgentRuntimeKind -> string -> string;
  ad_stateVolumeName : AgentRuntimeKind -> string -> string;
  ad_writeConfig : string -> string -> Instance_ -> Ext X unit;
  ad_applyConfig : string -> string -> Instance_ -> Ext X ConfigApplyOutcome;
  ad_seedWorkspace : string -> string -> Instance_ -> Ext X unit;
  ad_prepareState : string -> Instance_ -> Ext X unit;
  ad_isOnCurrentImage : string -> string -> Ext X bool;
  ad_verify : string -> string -> Instance_ -> Ext X (list RuntimeCheck);
  ad_exportVolume : string -> string -> Ext X Archive;
  ad_importVolume : string -> string -> Archive -> Ext X unit;
  ad_restoreState : string -> string -> Archive -> Ext X unit;
  ad_probeGateway : string -> FleetInstance -> string -> Ext X GatewayLiveness;
  ad_probeWhatsapp : string -> FleetInstance -> string -> Ext X WhatsappLinkState;
}.

(** ** The other collaborators *)
Record LiteLlmProvision := mkProvision { lp_provider : ProviderConfig; lp_litellm : InstanceLiteLlm }.

Inductive StatementOutcome := St_done | St_refused | St_acknowledgement_lost.

Class Collaborators (X : Type) := {
  db_next : X -> StatementOutcome * X;
  randomUUID : X -> string * X;
  randomToken : X -> string * X;
  llm_provisionProvider : string -> string -> string -> Ext X LiteLlmProvision;
  llm_updateBudget : Instance_ -> Z -> Ext X unit;
  llm_revoke : Instance_ -> Ext X unit;
  llm_revokeKey : string -> Ext X unit;
  (** [None] when the bucket is not configured. *)
  moves_configured : bool;
  moves_upload : string -> Archive -> Ext X Z;
  moves_open : string -> Z -> Ext X Archive;
  moves_delete : string -> Ext X unit;
  moves_deletePrefix : string -> Ext X unit;
  backups_configured : bool;
  backups_open : string -> Z -> Ext X Archive;
  backups_delete : string -> Ext X unit;
  pairing_logoutWhatsapp : string -> string -> Ext X bool;
  pairing_teardownSidecar : string -> Ext X unit;
  pairing_cancel : string -> Ext X unit;
  telegram_replaceToken : Z -> Ext X unit;
  integrations_revokeAll : Instance_ -> Ext X unit;
}.

(** ** The configuration the manager reads *)
Record AppConfig := mkAppConfig {
  ac_maxProvisionRetries : nat;
  ac_maxInstancesPerUser : Z;
  ac_agentRuntimeKind : AgentRuntimeKind;
  ac_integrationsProvider : bool;
  ac_litellmDefaultBudgetDuration : string;
  ac_moveSourceRetentionMs : Z;
  ac_portRangeStart : Z;
  ac_portRangeEnd : Z;
  ac_hosts : list HostRuntime;
  ac_managedHostIds : list string;
  ac_placement : PlacementConfig;
  ac_usage : HostUsage;
}.

(** ** The store *)

(** The removal of a state volume that was asked for, with the row at that time and
    whether the bot had ever been declared running or stopped ([fd_promoted]).
    Both logs are for the proofs. *)
Record Removal := mkRemoval { rv_hostId : string; rv_instanceId : string; rv_row : option FleetInstance; rv_promoted : bool }.

(** What the orchestrator keeps in memory beside the ports and reservations: the
    pairing sessions ([pairing-session-registry.ts]), the health monitor's channel
    states, the restarts of the reconciler, and the memory of the WhatsApp Business
    manager, of the backup downloads, of the Telegram linker and of the catalog of apps. *)
Record PairSession := mkPairSession {
  ps_instanceId : string;
  ps_hostId : string;
  ps_sidecarContainerId : string;
  ps_sidecarContainerName : string;
  ps_sidecarBaseUrl : string;
  ps_authToken : string;
  ps_createdAt : Z;
}.

Record ChannelStateEntry := mkChannelState {
  ce_state : WhatsappLinkState;
  ce_establishedAt : Z;
  ce_nextAttemptAt : Z;
  ce_consecutiveFailures : Z;
}.

Record Memory := mkMemory {
  mm_sessions : gmap string PairSession;
  mm_channelStates : gmap string ChannelStateEntry;
  mm_degraded : gset string;
  mm_polling : bool;
  mm_readopts : gmap string (list Z);
  mm_cloud : CloudMemory;
  mm_exports : ExportState;
  mm_linker : LinkerMemory;
  mm_catalog : CatalogMemory;
}.

Definition emptyMemory : Memory := mkMemory ∅ ∅ ∅ false ∅ emptyCloud noExports emptyLinker emptyCatalog.

Definition setSessions (s : gmap string PairSession) (m : Memory) : Memory :=
  mkMemory s (mm_channelStates m) (mm_degraded m) (mm_polling m) (mm_readopts m) (mm_cloud m)
    (mm_exports m) (mm_linker m) (mm_catalog m).
Definition setChannelStates (s : gmap string ChannelStateEntry) (m : Memory) : Memory :=
  mkMemory (mm_sessions m) s (mm_degraded m) (mm_polling m) (mm_readopts m) (mm_cloud m)
    (mm_exports m) (mm_linker m) (mm_catalog m).
Definition setDegraded (s : gset string) (m : Memory) : Memory :=
  mkMemory (mm_sessions m) (mm_channelStates m) s (mm_polling m) (mm_readopts m) (mm_cloud m)
    (mm_exports m) (mm_linker m) (mm_catalog m).
Definition setMonitorBusy (b : bool) (m : Memory) : Memory :=
  mkMemory (mm_sessions m) (mm_channelStates m) (mm_degraded m) b (mm_readopts m) (mm_cloud m)
    (mm_exports m) (mm_linker m) (mm_catalog m).
Definition setReadopts (s : gmap string (list Z)) (m : Memory) : Memory :=
  mkMemory (mm_sessions m) (mm_channelStates m) (mm_degraded m) (mm_polling m) s (mm_cloud m)
    (mm_exports m) (mm_linker m) (mm_catalog m).
Definition setCloudMemory (c : CloudMemory) (m : Memory) : Memory :=
  mkMemory (mm_sessions m) (mm_channelStates m) (mm_degraded m) (mm_polling m) (mm_readopts m) c
    (mm_exports m) (mm_linker m) (mm_catalog m).

Definition setExports (e : ExportState) (m : Memory) : Memory :=
  mkMemory (mm_sessions m) (mm_channelStates m) (mm_degraded m) (mm_polling m) (mm_readopts m) (mm_cloud m)
    e (mm_linker m) (mm_catalog m).
Definition setLinker (l : LinkerMemory) (m : Memory) : Memory :=
  mkMemory (mm_sessions m) (mm_channelStates m) (mm_degraded m) (mm_polling m) (mm_readopts m) (mm_cloud m)
    (mm_exports m) l (mm_catalog m).
Definition setCatalog (c : CatalogMemory) (m : Memory) : Memory :=
  mkMemory (mm_sessions m) (mm_channelStates m) (mm_degraded m) (mm_polling m) (mm_readopts m) (mm_cloud m)
    (mm_exports m) (mm_linker m) c.

Record FleetDb (X : Type) := mkFleetDb {
  fd_rows : list Row;
  fd_events : list EventRow;
  fd_pending : list (string * Z);
  fd_reservations : Reservations;
  fd_promoted : list string;
  fd_removed : list Removal;
  fd_cloud : CloudDb;
  fd_integrations : list IntegrationSession;
  fd_mem : Memory;
  fd_x : X;
}.
Arguments mkFleetDb {X} _ _ _ _ _ _ _ _ _ _.
Arguments fd_rows {X} _.
Arguments fd_events {X} _.
Arguments fd_pending {X} _.
Arguments fd_reservations {X} _.
Arguments fd_promoted {X} _.
Arguments fd_removed {X} _.
Arguments fd_cloud {X} _.
Arguments fd_integrations {X} _.
Arguments fd_mem {X} _.
Arguments fd_x {X} _.

Section Store.
Context {X : Type}.
Implicit Types d : FleetDb X.

Definition setRows (l : list Row) d : FleetDb X :=
  mkFleetDb l (fd_events d) (fd_pending d) (fd_reservations d) (fd_promoted d) (fd_removed d) (fd_cloud d) (fd_integrations d) (fd_mem d) (fd_x d).
Definition setEvents (l : list EventRow) d : FleetDb X :=
  mkFleetDb (fd_rows d) l (fd_pending d) (fd_reservations d) (fd_promoted d) (fd_removed d) (fd_cloud d) (fd_integrations d) (fd_mem d) (fd_x d).
Definition setPending (l : list (string * Z)) d : FleetDb X :=
  mkFleetDb (fd_rows d) (fd_events d) l (fd_reservations d) (fd_promoted d) (fd_removed d) (fd_cloud d) (fd_integrations d) (fd_mem d) (fd_x d).
Definition setReservations (l : Reservations) d : FleetDb X :=
  mkFleetDb (fd_rows d) (fd_events d) (fd_pending d) l (fd_promoted d) (fd_removed d) (fd_cloud d) (fd_integrations d) (fd_mem d) (fd_x d).
Definition setX (x : X) d : FleetDb X :=
  mkFleetDb (fd_rows d) (fd_events d) (fd_pending d) (fd_reservations d) (fd_promoted d) (fd_removed d) (fd_cloud d) (fd_integrations d) (fd_mem d) x.
Definition setMem (m : Memory) d : FleetDb X :=
  mkFleetDb (fd_rows d) (fd_events d) (fd_pending d) (fd_reservations d) (fd_promoted d) (fd_removed d) (fd_cloud d) (fd_integrations d) m (fd_x d).
Definition setCloud (c : CloudDb) d : FleetDb X :=
  mkFleetDb (fd_rows d) (fd_events d) (fd_pending d) (fd_reservations d) (fd_promoted d) (fd_removed d) c (fd_integrations d) (fd_mem d) (fd_x d).
Definition setIntegrations (l : list IntegrationSession) d : FleetDb X :=
  mkFleetDb (fd_rows d) (fd_events d) (fd_pending d) (fd_reservations d) (fd_promoted d) (fd_removed d) (fd_cloud d) l (fd_mem d) (fd_x d).
Definition notePromoted (id : string) d : FleetDb X :=
  mkFleetDb (fd_rows d) (fd_events d) (fd_pending d) (fd_reservations d) (id :: fd_promoted d) (fd_removed d) (fd_cloud d) (fd_integrations d) (fd_mem d) (fd_x d).
Definition noteRemoval (r : Removal) d : FleetDb X :=
  mkFleetDb (fd_rows d) (fd_events d) (fd_pending d) (fd_reservations d) (fd_promoted d) (fd_removed d ++ [r]) (fd_cloud d) (fd_integrations d) (fd_mem d) (fd_x d).

Definition rowOf (id : string) d : option FleetInstance :=
  option_map ro_fleet (List.find (fun r : Row => isRow id r) (fd_rows d)).
End Store.

(** ** Programs *)
Abbreviation Fleet X := (M (FleetDb X) unit OrchError).

Section Programs.
Context {X : Type} `{!Collaborators X}.

(** A call outside. *)
Definition ext {A} (op : Ext X A) : Fleet X A :=
  atomic (fun d => let '(r, x) := op (fd_x d) in (r, setX x d)).
Definition ext' {A} (op : X -> A * X) : Fleet X A := ext (fun x => let '(a, x') := op x in (inr a, x')).

(** What runs on the orchestrator's own memory between two awaits. *)
Definition readMem {A} (f : Memory -> A) : Fleet X A := query (fun d => f (fd_mem d)).
Definition onMem {A} (f : Memory -> A * Memory) : Fleet X A :=
  exec (fun d => let '(a, m) := f (fd_mem d) in (a, setMem m d)).
Definition writeMem (f : Memory -> Memory) : Fleet X unit := onMem (fun m => (tt, f m)).

Definition dbError : OrchError := PlainError "database".

(** A statement: whether it is run and whether its answer arrives is up to [db_next]. *)
Definition statement {A} (f : FleetDb X -> (OrchError + A) * FleetDb X) : Fleet X A :=
  atomic (fun d =>
    let '(o, x) := db_next (fd_x d) in
    match o with
    | St_refused => (inl dbError, setX x d)
    | St_done => f (setX x d)
    | St_acknowledgement_lost => (inl dbError, (f (setX x d)).2)
    end).

Definition onRows {A} (f : list Row -> (OrchError + A) * list Row) : Fleet X A :=
  statement (fun d => let '(r, l) := f (fd_rows d) in (r, setRows l d)).

Definition readRows {A} (f : list Row -> A) : Fleet X A := onRows (fun l => (inr (f l), l)).

Definition append (id eventType : string) (actor : option string) : Fleet X unit :=
  let! t := now in
  statement (fun d => (inr tt, setEvents (appendEvent t id eventType actor (fd_events d)) d)).

(** [.catch(() => log)]. *)
Definition attempt (m : Fleet X unit) : Fleet X unit := catch m (fun _ => ret tt).

Definition finally {A} (m : Fleet X A) (f : Fleet X unit) : Fleet X A :=
  fun w => match m w with
           | (inl e, w') => bind f (fun _ => throw e) w'
           | (inr a, w') => bind f (fun _ => ret a) w'
           end.

(** ** port-allocator.ts *)
Context (cfg : AppConfig).

Definition pendingFor (hostId : string) (d : FleetDb X) : list Z :=
  List.map snd (List.filter (fun p => str_eqb p.1 hostId) (fd_pending d)).

Definition memZ (z : Z) (l : list Z) : bool := List.existsb (Z.eqb z) l.

Fixpoint seqZ_ (start : Z) (n : nat) : list Z := match n with O => [] | S n' => start :: seqZ_ (start + 1) n' end.

Definition portRange : list Z :=
  seqZ_ (ac_portRangeStart cfg) (Z.to_nat (ac_portRangeEnd cfg - ac_portRangeStart cfg + 1)).

Definition pickPort (hostId : string) (heldBeforeRead usedPorts : list Z) (d : FleetDb X)
  : (OrchError + Z) * FleetDb X :=
  match List.find (fun p => negb (memZ p usedPorts) && negb (memZ p (pendingFor hostId d))
                            && negb (memZ p heldBeforeRead)) portRange with
  | Some p => (inr p, setPending ((hostId, p) :: fd_pending d) d)
  | None => (inl (PortExhaustedError (ac_portRangeStart cfg) (ac_portRangeEnd cfg)), d)
  end.

Definition allocatePort (hostId : string) : Fleet X Z :=
  let! heldBeforeRead := query (pendingFor hostId) in
  let! usedPorts := readRows (getActiveGatewayPorts (ac_managedHostIds cfg) hostId) in
  atomic (pickPort hostId heldBeforeRead usedPorts).

Definition isPending_ (hostId : string) (port : Z) (p : string * Z) : bool := str_eqb p.1 hostId && (p.2 =? port).

Definition releasePort (hostId : string) (port : Z) : Fleet X unit :=
  exec (fun d => (tt, setPending (List.filter (fun p => negb (isPending_ hostId port p)) (fd_pending d)) d)).
End Programs.
