(* ===== verification/InstanceManager.v ===== *)
(** The life of a bot: [orchestrator/src/services/instance-manager.ts].

    Each operation is the body that runs under the bot's lock; the lock itself is
    in [OpLock.v].  Log lines are left out.  Between any two accesses of the
    database or calls outside, other operations may run (see [World]). *)
From Stdlib Require Import Ascii.
From S2P Require Import Prelude Dates Fleet Hosts FleetStore FleetWorld AutoRestart.
From stdpp Require Import list strings pretty.
#[local] Open Scope Z_scope.

Definition STARTUP_SETTLE_MS : Z := 120000.
Definition RESTARTABLE_STATUSES : list InstanceStatus := [I_running; I_degraded; I_unhealthy].
Definition MOVABLE_STATUSES : list InstanceStatus := [I_running; I_degraded; I_unhealthy; I_stopped].
Definition RECREATABLE_STATUSES : list InstanceStatus := [I_running; I_degraded; I_unhealthy; I_error].
Definition MOVE_MAX_BYTES : Z := 20 * 1024 * 1024 * 1024.
Definition SNAPSHOT_PREFIX : string := "snapshots/".

Definition skipped (reason : string) : SystemRestartOutcome := NotRestarted reason true.
Definition blocked (reason : string) : SystemRestartOutcome := NotRestarted reason false.

(** [toISOString], years 0 to 9999. *)
Definition pad (width : nat) (n : Z) : string :=
  let s := pretty n in
  Nat.iter (width - String.length s) (String "0"%char) s.

Definition toISOString (t : Z) : string :=
  let ms := Ecma.time_within_day t in
  pad 4 (Ecma.getUTCFullYear t) +:+ "-" +:+ pad 2 (Ecma.getUTCMonth t + 1) +:+ "-" +:+ pad 2 (Ecma.getUTCDate t) +:+ "T"
  +:+ pad 2 (ms / 3600000) +:+ ":" +:+ pad 2 (ms / 60000 mod 60) +:+ ":" +:+ pad 2 (ms / 1000 mod 60)
  +:+ "." +:+ pad 3 (ms mod 1000) +:+ "Z".

Definition isSome {A} (o : option A) : bool := match o with Some _ => true | None => false end.
Definition isNone {A} (o : option A) : bool := negb (isSome o).

(** [{ ...inst, containerId }], [{ ...inst, config }]. *)
Definition withContainerId (c : option string) (i : Instance_) : Instance_ :=
  mkInstance (assign (A_containerId c) (in_fleet i)) (in_config i) (in_gatewayToken i).
Definition withConfigOf (c : InstanceConfig) (i : Instance_) : Instance_ :=
  mkInstance (in_fleet i) c (in_gatewayToken i).

Section Manager.
Context {X : Type} `{!ContainerRuntime X, !AgentAdapter X, !Collaborators X} (cfg : AppConfig).
Implicit Types inst : Instance_.

Let managed := ac_managedHostIds cfg.

(** ** Reading and writing the row *)
Definition findInstance (id : string) : Fleet X (option Instance_) := onRows (fun l => (findById managed id l, l)).

Definition notFound (id : string) : OrchError := NotFoundError "instance" id.

Definition requireInstance (id : string) : Fleet X Instance_ :=
  let! o := findInstance id in
  match o with
  | Some inst => if bool_decide (fi_status inst = I_destroyed) then throw (notFound id) else ret inst
  | None => throw (notFound id)
  end.

Definition requireOwnedInstance (id userId : string) : Fleet X Instance_ :=
  let! inst := requireInstance id in
  if str_eqb (fi_userId inst) userId then ret inst else throw (notFound id).

Definition invalid (from : InstanceStatus) (to : string) : OrchError := InvalidStateError (status_str from) to.

Definition assertTransition (from to : InstanceStatus) : Fleet X unit :=
  if isValidTransition from to then ret tt else throw (invalid from (status_str to)).

(** A write that declares a bot running or stopped, noted for the proofs. *)
Definition promotion (id : string) (f : Z -> list Row -> (OrchError + bool) * list Row) : Fleet X bool :=
  let! t := now in
  statement (fun d =>
    let '(r, l) := f t (fd_rows d) in
    (r, match r with inr true => notePromoted id (setRows l d) | _ => setRows l d end)).

Definition setStatus (id : string) (status : InstanceStatus) (expected : option InstanceStatus)
  (errorMessage : option string) : Fleet X bool :=
  let f t := updateStatus managed t id status expected errorMessage in
  if oneOf [I_running; I_stopped] status then promotion id f
  else let! t := now in onRows (f t).

Definition setContainerId (id containerId : string) : Fleet X unit :=
  let! t := now in let! _ := onRows (updateContainerId managed t id containerId) in ret tt.

Definition writeConfigRow (id : string) (config : InstanceConfig) : Fleet X unit :=
  let! t := now in let! _ := onRows (updateConfig_tx managed t id config) in ret tt.

Definition setPairing (id : string) (patch : PairingUpdate) : Fleet X unit :=
  let! t := now in let! _ := onRows (updatePairing managed t id patch None) in ret tt.

Definition CLEARED_PAIRING : PairingUpdate := mkPairingUpdate (Some P_none) (Some None) (Some false) None None.

Definition host (hostId : string) : Fleet X HostRuntime := lift (hostFor (ac_hosts cfg) hostId).

Definition managedHostOf (hostId : string) : Fleet X HostRuntime :=
  catch (host hostId) (fun e => match e with UnknownHostError _ => throw (ValidationError (orchMessage e)) | _ => throw e end).

(** ** Containers and volumes *)

(** [runtime.removeVolume(adapter.stateVolumeName(inst.id))]. *)
Definition removeStateVolume (hostId : string) (i : FleetInstance) : Fleet X unit :=
  atomic (fun d =>
    let '(r, x) := rt_removeVolume hostId (ad_stateVolumeName (fi_runtimeKind i) (fi_id i)) (fd_x d) in
    (r, setX x (noteRemoval (mkRemoval hostId (fi_id i) (rowOf (fi_id i) d)
                   (List.existsb (str_eqb (fi_id i)) (fd_promoted d))) d))).

(** Container first. *)
Definition removeBotFromHost (hostId : string) (i : FleetInstance) : Fleet X unit :=
  let! containerId := ext (rt_findContainerByName hostId (fi_containerName i)) in
  (match containerId with Some c => ext (rt_remove hostId c) | None => ret tt end);;;
  removeStateVolume hostId i.

Definition cleanupPartial inst : Fleet X unit :=
  attempt (let! _ := host (fi_hostId inst) in removeBotFromHost (fi_hostId inst) inst).

Definition existingContainerId inst : Fleet X (option string) :=
  let! _ := host (fi_hostId inst) in
  let! byId := match truthy (fi_containerId inst) with
    | Some c => let! s := ext (rt_containerState (fi_hostId inst) c) in
                ret (match s with Some _ => Some c | None => None end)
    | None => ret None
    end in
  match byId with
  | Some c => ret (Some c)
  | None => ext (rt_findContainerByName (fi_hostId inst) (fi_containerName inst))
  end.

Definition resolveContainerId inst : Fleet X (option string) :=
  let! _ := host (fi_hostId inst) in
  let! byId := match truthy (fi_containerId inst) with
    | Some c => let! s := ext (rt_containerState (fi_hostId inst) c) in
                ret (match s with Some _ => Some c | None => None end)
    | None => ret None
    end in
  match byId with
  | Some c => ret (Some c)
  | None =>
      let! byName := ext (rt_findContainerByName (fi_hostId inst) (fi_containerName inst)) in
      (match byName with Some c => setContainerId (fi_id inst) c | None => ret tt end);;;
      ret byName
  end.

Definition seedWorkspace inst (containerId : string) : Fleet X unit :=
  attempt (let! _ := host (fi_hostId inst) in ext (ad_seedWorkspace (fi_hostId inst) containerId inst)).

Definition refreshRuntimeConfig inst : Fleet X unit :=
  match truthy (fi_containerId inst) with
  | None => ret tt
  | Some c => let! _ := host (fi_hostId inst) in ext (ad_writeConfig (fi_hostId inst) c inst)
  end.

Definition findOrCreateContainer inst : Fleet X string :=
  let! h := host (fi_hostId inst) in
  let! existing := existingContainerId inst in
  let! current := match existing with
    | Some c => ext (ad_isOnCurrentImage (fi_hostId inst) c)
    | None => ret false
    end in
  match existing, current with
  | Some c, true => ret c
  | _, _ =>
      ext (rt_ensureImagePresent (fi_hostId inst) (ad_image (fi_runtimeKind inst)));;;
      (match existing with
       | Some c => ext (rt_remove (fi_hostId inst) c);;; ext (ad_prepareState (fi_hostId inst) inst)
       | None => ret tt
       end);;;
      ext (rt_ensureVolumeExists (fi_hostId inst) (ad_stateVolumeName (fi_runtimeKind inst) (fi_id inst)));;;
      ext (rt_create (fi_hostId inst) inst (ho_restartPolicy h) (default "127.0.0.1" (ho_address h)))
  end.

Definition ensureContainerExists inst : Fleet X string :=
  let! _ := host (fi_hostId inst) in
  let! containerId := findOrCreateContainer inst in
  ext (ad_writeConfig (fi_hostId inst) containerId (withContainerId (Some containerId) inst));;;
  seedWorkspace inst containerId;;;
  ret containerId.

Definition ensureContainerStarted inst (containerId : string) : Fleet X unit :=
  let! running := ext (rt_isRunning (fi_hostId inst) containerId) in
  if running then ret tt else ext (rt_start (fi_hostId inst) containerId).

Definition restartContainer inst (containerId : string) : Fleet X unit :=
  let! _ := host (fi_hostId inst) in
  let! _ := ext (rt_waitForHealthy (fi_hostId inst) containerId) in
  ext (rt_restart (fi_hostId inst) containerId).

(** ** Provisioning *)
Definition INVALID {A} (m : Fleet X A) : Fleet X A := catch m (fun e => throw (InvalidBackupError (orchMessage e))).

Definition restoreAgentBackup inst (containerId : string) : Fleet X unit :=
  let! _ := host (fi_hostId inst) in
  let backup := fi_backupImport inst in
  match truthy (bi_objectName backup) with
  | None => throw (InvalidBackupError "backup object is missing")
  | Some objectName =>
      if negb backups_configured then throw (UpstreamUnavailableError "backup storage" None)
      else
        let! source := INVALID (ext (backups_open objectName (ad_maxBackupBytes (fi_runtimeKind inst)))) in
        if match bi_contentLength backup with Some n => negb (ar_contentLength source =? n) | None => false end
        then throw (InvalidBackupError "backup archive size changed")
        else if match truthy (bi_contentType backup), truthy (ar_contentType source) with
                | Some a, Some b => negb (str_eqb b a) | _, _ => false end
        then throw (InvalidBackupError "backup content type changed")
        else
          INVALID (ext (ad_restoreState (fi_hostId inst) containerId source));;;
          ext (ad_prepareState (fi_hostId inst) inst);;;
          refreshRuntimeConfig (withContainerId (Some containerId) inst);;;
          seedWorkspace inst containerId;;;
          (let! t := now in
           let! _ := onRows (updateBackupImport managed t (fi_id inst) (mkBackupImport BI_restored None None None)) in
           ret tt);;;
          attempt (ext (backups_delete objectName))
  end.

Definition restoreMovedVolume inst (containerId objectName : string) : Fleet X unit :=
  if negb moves_configured then throw (FeatureUnavailableError "moves")
  else
    let! _ := host (fi_hostId inst) in
    let! source := ext (moves_open objectName MOVE_MAX_BYTES) in
    ext (ad_importVolume (fi_hostId inst) containerId source);;;
    ext (ad_prepareState (fi_hostId inst) inst);;;
    refreshRuntimeConfig (withContainerId (Some containerId) inst);;;
    seedWorkspace inst containerId.

(** The [try] block of [resumeProvisioningLocked]. *)
Definition leaveStopped inst : bool := isSome (fi_moveObjectName inst) && isSome (fi_stoppedAt inst).

Definition importIfMoved inst (containerId : string) : Fleet X unit :=
  match truthy (fi_moveObjectName inst), fi_moveImportedAt inst with
  | Some objectName, None =>
      let! _ := host (fi_hostId inst) in
      let! state := ext (rt_containerState (fi_hostId inst) containerId) in
      match state with
      | None => throw (UpstreamUnavailableError "docker" (Some "target container vanished before the import"))
      | Some s =>
          if isSome (ct_startedAt s)
          then throw (ConflictError "target container started before the archive was imported")
          else
            restoreMovedVolume inst containerId objectName;;;
            let! t := now in
            let! _ := onRows (markMoveImported managed t (fi_id inst)) in ret tt
      end
  | _, _ => ret tt
  end.

Definition promote inst : Fleet X bool :=
  promotion (fi_id inst) (fun t =>
    match truthy (fi_moveObjectName inst) with
    | Some _ => completeMove managed t (fi_id inst) (if leaveStopped inst then I_stopped else I_running)
    | None => updateStatus managed t (fi_id inst) I_running (Some I_provisioning) None
    end).

Definition provisionSteps inst : Fleet X Instance_ :=
  let id := fi_id inst in
  let! containerId := ensureContainerExists inst in
  (when negb (ostr_eqb (fi_containerId inst) (Some containerId)) do
     (setContainerId id containerId;;; append id "provision.container_created" None));;;
  importIfMoved inst containerId;;;
  (when bool_decide (bi_status (fi_backupImport inst) = BI_pending) do
     (restoreAgentBackup inst containerId;;; append id "provision.backup_restored" None));;;
  (when negb (leaveStopped inst) do
     (ensureContainerStarted inst containerId;;;
      append id "provision.started" None;;;
      let! _ := ext (rt_waitForHealthy (fi_hostId inst) containerId) in ret tt));;;
  let! promoted := promote inst in
  (when promoted && negb (leaveStopped inst) do append id "provision.running" None);;;
  (when promoted && moves_configured do
     match truthy (fi_moveObjectName inst) with
     | Some o => attempt (ext (moves_delete o))
     | None => ret tt
     end);;;
  requireInstance id.

Definition resumeProvisioningLocked (id : string) : Fleet X Instance_ :=
  let! inst := requireInstance id in
  if bool_decide (fi_status inst = I_running) then ret inst
  else if negb (bool_decide (fi_status inst = I_provisioning)) then throw (invalid (fi_status inst) "running")
  else
    catch (provisionSteps inst) (fun err =>
      let! _ := setStatus id I_error None (Some (orchMessage err)) in
      cleanupPartial inst;;;
      append id "provision.failed" None;;;
      throw err).

(** ** Creating *)
Fixpoint askGates (hosts : list HostRuntime) : Fleet X (list (HostRuntime * bool)) :=
  match hosts with
  | [] => ret []
  | h :: hosts' =>
      let! answer := if eligible h then ext' (gate_check (ho_hostId h)) else ret false in
      let! rest := askGates hosts' in
      ret ((h, answer) :: rest)
  end.

Definition placementChoose (memoryMb : Z) (id : string) : Fleet X string :=
  let! t := now in
  let! ps := askGates (ac_hosts cfg) in
  atomic (fun d =>
    let '(r, l) := choose (ac_placement cfg) (ac_usage cfg) t memoryMb id ps (fd_reservations d) in
    (r, setReservations l d)).

Definition placementRelease (id : string) : Fleet X unit :=
  exec (fun d => (tt, setReservations (release id (fd_reservations d)) d)).

Definition placementAssertFits (hostId : string) (memoryMb : Z) : Fleet X unit :=
  let! t := now in
  let! h := host hostId in
  let! g := match ho_capacityMb h with Some _ => ext' (gate_check hostId) | None => ret false end in
  atomic (fun d =>
    let '(r, l) := assertFits (ac_placement cfg) (ac_usage cfg) t memoryMb h g (fd_reservations d) in
    (r, setReservations l d)).

Definition newIntegrationsBinding : Fleet X (option IntegrationsBinding) :=
  if ac_integrationsProvider cfg then
    let! token := ext' randomToken in ret (Some (mkIntegrationsBinding token))
  else ret None.

(** The [catch] of an attempt: [inl] asks for the next one. *)
Definition failedAttempt (id : string) (provision : option LiteLlmProvision) (err : OrchError) : Fleet X OrchError :=
  placementRelease id;;;
  (match provision with
   | Some p => attempt (ext (llm_revokeKey (pr_apiKey (lp_provider p))))
   | None => ret tt
   end);;;
  if isUniqueViolation err then ret err else throw err.

Definition orNext {A} (m : Fleet X A) (onError : OrchError -> Fleet X OrchError) : Fleet X (OrchError + A) :=
  catch (let! a := m in ret (inr a)) (fun e => let! e' := onError e in ret (inl e')).

Definition insertFields (id userId hostId containerName : string) (gatewayPort : Z) (gatewayToken : string)
  (memoryMb : Z) (provider : ProviderConfig) (integrations : option IntegrationsBinding)
  (provision : option LiteLlmProvision) (input : CreateInstanceInput) : InsertFields :=
  mkInsert id userId hostId (ac_agentRuntimeKind cfg) containerName gatewayPort gatewayToken
    (mkInstanceConfig (ci_displayName input) provider (ci_channels input)
       (mkResourceLimits memoryMb
          (default (rl_cpuShares DEFAULT_RESOURCE_LIMITS)
             (match ci_resources input with Some r => rp_cpuShares r | None => None end)))
       integrations)
    (ci_backupImport input) (option_map lp_litellm provision).

(** From the allocated port on. *)
Definition reserveWithPort (id userId hostId containerName gatewayToken : string) (gatewayPort memoryMb : Z)
  (input : CreateInstanceInput) : Fleet X (OrchError + Instance_) :=
  let! provision := orNext
    (match ci_provider input with
     | Some _ => ret None
     | None => let! p := ext (llm_provisionProvider id userId (ci_displayName input)) in ret (Some p)
     end) (failedAttempt id None) in
  match provision with
  | inl e => ret (inl e)
  | inr p =>
      orNext
        (match ci_provider input, p with
         | None, None => throw (PlainError "provider provisioning returned no provider")
         | given, _ =>
             let provider := match given, p with
               | Some pr, _ => pr
               | None, Some l => lp_provider l
               | None, None => mkProviderConfig Llm_litellm None "" "" None None None None
               end in
             let! integrations := newIntegrationsBinding in
             let! t := now in
             let! inserted := onRows (insertIfUserActiveBelowLimit managed t
               (insertFields id userId hostId containerName gatewayPort gatewayToken memoryMb provider
                  integrations p input) (ac_maxInstancesPerUser cfg)) in
             match inserted with
             | None => throw (QuotaExceededError "instances" (ac_maxInstancesPerUser cfg))
             | Some inst => ret inst
             end
         end) (failedAttempt id p)
  end.

(** One turn of the loop of [reserveIdentity]. *)
Definition reserveAttempt (userId : string) (input : CreateInstanceInput) : Fleet X (OrchError + Instance_) :=
  let! id := ext' randomUUID in
  let memoryMb := default (rl_memoryMb DEFAULT_RESOURCE_LIMITS)
    (match ci_resources input with Some r => rp_memoryMb r | None => None end) in
  let! hostId := placementChoose memoryMb id in
  let! prepared := orNext
    (let! _ := host hostId in
     let! token := ext' randomToken in
     let! port := allocatePort cfg hostId in
     ret (token, port)) (failedAttempt id None) in
  match prepared with
  | inl e => ret (inl e)
  | inr (token, port) =>
      finally
        (reserveWithPort id userId hostId (ad_containerName (ac_agentRuntimeKind cfg) id) token port memoryMb input)
        (releasePort hostId port)
  end.

Fixpoint reserveIdentity (attempts : nat) (lastError : OrchError) (userId : string) (input : CreateInstanceInput)
  : Fleet X Instance_ :=
  match attempts with
  | O => throw lastError
  | S attempts' =>
      let! r := reserveAttempt userId input in
      match r with
      | inr inst => ret inst
      | inl e => reserveIdentity attempts' e userId input
      end
  end.

(** [create]; without a backup the provisioning that follows is in the background,
    a run of [resumeProvisioning] of its own. *)
Definition create (userId : string) (rawInput : CreateInstanceInput) : Fleet X Instance_ :=
  if negb (matchesUserId userId) then throw (PlainError "invalid user ID format")
  else
    let input := mkCreateInput (ci_displayName rawInput) (ci_provider rawInput)
      (applyChannelDefaults (ci_channels rawInput)) (ci_resources rawInput) (ci_backupImport rawInput) in
    let! reserved := reserveIdentity (ac_maxProvisionRetries cfg)
      (PlainError "failed to reserve instance identity") userId input in
    append (fi_id reserved) "provision.requested" (Some userId);;;
    match ci_backupImport input with
    | Some _ => let! _ := resumeProvisioningLocked (fi_id reserved) in requireInstance (fi_id reserved)
    | None => ret reserved
    end.

(** ** Rebuilding a container *)
Definition snapshotBeforeMigration inst (containerId : string) : Fleet X unit :=
  if negb moves_configured then ret tt
  else
    let! _ := host (fi_hostId inst) in
    let! current := ext (ad_isOnCurrentImage (fi_hostId inst) containerId) in
    if current then ret tt
    else
      let! t := now in
      let objectName := (SNAPSHOT_PREFIX ++ fi_id inst ++ "/" ++ toISOString t ++ ".tar")%string in
      let! body := ext (ad_exportVolume (fi_hostId inst) containerId) in
      let! contentLength := ext (moves_upload objectName body) in
      if (contentLength <=? 0) || (MOVE_MAX_BYTES <? contentLength)
      then throw (PlainError ("volume snapshot is " ++ pretty contentLength ++ " bytes")%string)
      else append (fi_id inst) "instance.snapshot" None.

Definition ensureIntegrationsBinding inst : Fleet X Instance_ :=
  match ic_integrations (in_config inst) with
  | Some _ => ret inst
  | None =>
      let! binding := newIntegrationsBinding in
      match binding with
      | None => ret inst
      | Some b =>
          let c := in_config inst in
          let config := mkInstanceConfig (ic_displayName c) (ic_provider c) (ic_channels c) (ic_resources c) (Some b) in
          writeConfigRow (fi_id inst) config;;;
          ret (withConfigOf config inst)
      end
  end.

Definition recreateContainer (current : Instance_) : Fleet X string :=
  let! inst := ensureIntegrationsBinding current in
  let! _ := host (fi_hostId inst) in
  ext (rt_ensureImagePresent (fi_hostId inst) (ad_image (fi_runtimeKind inst)));;;
  let! existing := existingContainerId inst in
  (match existing with
   | Some c =>
       let! running := ext (rt_isRunning (fi_hostId inst) c) in
       (when running do ext (rt_stop (fi_hostId inst) c));;;
       snapshotBeforeMigration inst c
   | None => ret tt
   end);;;
  ext (ad_prepareState (fi_hostId inst) inst);;;
  (match existing with Some c => ext (rt_remove (fi_hostId inst) c) | None => ret tt end);;;
  let! containerId := ensureContainerExists (withContainerId None inst) in
  setContainerId (fi_id inst) containerId;;;
  ret containerId.

(** The container to boot, and whether it was rebuilt. *)
Definition containerForBoot inst : Fleet X (string * bool) :=
  let! existing := existingContainerId inst in
  let! current := match existing with
    | Some c => ext (ad_isOnCurrentImage (fi_hostId inst) c)
    | None => ret false
    end in
  match existing, current with
  | Some c, true =>
      (when negb (ostr_eqb (Some c) (fi_containerId inst)) do setContainerId (fi_id inst) c);;;
      refreshRuntimeConfig (withContainerId (Some c) inst);;;
      seedWorkspace inst c;;;
      ret (c, false)
  | _, _ =>
      let! containerId := recreateContainer inst in
      append (fi_id inst) "instance.recreated" None;;;
      ret (containerId, true)
  end.

Definition recreateLocked inst (actor : option string) : Fleet X unit :=
  let id := fi_id inst in
  if negb (oneOf RECREATABLE_STATUSES (fi_status inst)) then throw (invalid (fi_status inst) "running")
  else if isSome (fi_moveObjectName inst)
  then throw (ConflictError ("the move to host " ++ fi_hostId inst ++ " never finished; move the bot back to host "
                ++ default "null" (fi_movedFromHostId inst) ++ " first")%string)
  else
    let! _ := host (fi_hostId inst) in
    catch
      (let! containerId := recreateContainer inst in
       ext (rt_start (fi_hostId inst) containerId);;;
       let! _ := setStatus id I_running None None in
       append id "instance.recreated" actor;;;
       let! _ := ext (rt_waitForHealthy (fi_hostId inst) containerId) in ret tt)
      (fun err =>
         let! bootable := catch (ext (rt_findContainerByName (fi_hostId inst) (fi_containerName inst)))
                            (fun _ => ret None) in
         let! _ := setStatus id (match truthy bootable with Some _ => I_stopped | None => I_error end) None
                     (Some (orchMessage err)) in
         throw err).

Definition recreate (id userId : string) : Fleet X unit :=
  let! inst := requireOwnedInstance id userId in recreateLocked inst (Some userId).
Definition recreateBySystem (id : string) : Fleet X unit :=
  let! inst := requireInstance id in recreateLocked inst None.

(** ** Start, stop, restart *)
Definition startLocked (id userId : string) : Fleet X unit :=
  let! inst := requireOwnedInstance id userId in
  assertTransition (fi_status inst) I_running;;;
  match truthy (fi_containerId inst) with
  | None => throw (invalid (fi_status inst) "running")
  | Some _ =>
      let! updated := setStatus id I_running (Some (fi_status inst)) None in
      if negb updated then throw (invalid (fi_status inst) "running")
      else
        catch
          (let! c := containerForBoot inst in
           let! _ := host (fi_hostId inst) in
           ext (rt_start (fi_hostId inst) c.1))
          (fun err => let! _ := setStatus id (fi_status inst) (Some I_running) None in throw err);;;
        let! _ := setStatus id I_running None None in ret tt
  end.

Definition stopLocked (id userId : string) : Fleet X unit :=
  let! inst := requireOwnedInstance id userId in
  assertTransition (fi_status inst) I_stopped;;;
  match truthy (fi_containerId inst) with
  | None => throw (invalid (fi_status inst) "stopped")
  | Some c =>
      let! updated := setStatus id I_stopped (Some (fi_status inst)) None in
      if negb updated then throw (invalid (fi_status inst) "stopped")
      else
        catch
          (let! _ := host (fi_hostId inst) in ext (rt_stop (fi_hostId inst) c))
          (fun err => let! _ := setStatus id (fi_status inst) (Some I_stopped) None in throw err)
  end.

Definition restartLocked inst (failureStatus : InstanceStatus) : Fleet X unit :=
  let id := fi_id inst in
  if negb (oneOf RESTARTABLE_STATUSES (fi_status inst)) then throw (invalid (fi_status inst) "running")
  else match truthy (fi_containerId inst) with
  | None => throw (invalid (fi_status inst) "running")
  | Some _ =>
      catch
        (let! c := containerForBoot inst in
         if c.2
         then let! _ := host (fi_hostId inst) in ext (rt_start (fi_hostId inst) c.1)
         else restartContainer inst c.1)
        (fun err => let! _ := setStatus id failureStatus None (Some (orchMessage err)) in throw err);;;
      let! _ := setStatus id I_running None None in ret tt
  end.

Definition restart (id userId : string) : Fleet X unit :=
  let! inst := requireOwnedInstance id userId in restartLocked inst I_error.

Definition gatewayAnswers inst : Fleet X bool :=
  let! h := host (fi_hostId inst) in
  let url := dialUrl h (fi_containerName inst) (fi_gatewayPort inst) (ad_internalPort (fi_runtimeKind inst)) in
  catch (let! l := ext (ad_probeGateway (fi_hostId inst) inst url) in ret (gl_healthy l)) (fun _ => ret false).

Definition restartBySystem (id : string) : Fleet X SystemRestartOutcome :=
  let! inst := requireInstance id in
  if negb (oneOf RESTARTABLE_STATUSES (fi_status inst))
  then ret (skipped ("bot is " ++ status_str (fi_status inst))%string)
  else match truthy (fi_containerId inst) with
  | None => ret (blocked "bot has no container on record")
  | Some c =>
      let! _ := host (fi_hostId inst) in
      let! state := ext (rt_containerState (fi_hostId inst) c) in
      match state with
      | None => ret (skipped "container is not running")
      | Some s =>
          if negb (ct_running s) then ret (skipped "container is not running")
          else
            let! t := now in
            if isContainerBooting s t then ret (skipped "container is booting")
            else
              let! current := ext (ad_isOnCurrentImage (fi_hostId inst) c) in
              if negb current
              then ret (blocked "container is on another image; recreate is a supervised step")
              else
                let! answers := gatewayAnswers inst in
                if answers then ret (skipped "gateway answered")
                else restartLocked inst (fi_status inst);;; ret Restarted
      end
  end.

(** ** Destroying *)
Definition stripTelegram (l : list ChannelConfig) : list ChannelConfig :=
  List.filter (fun c => isNone (asTelegram c)) l.

Definition withChannels (l : list ChannelConfig) (c : InstanceConfig) : InstanceConfig :=
  mkInstanceConfig (ic_displayName c) (ic_provider c) l (ic_resources c) (ic_integrations c).

(** [!telegram.botId]: an id of 0 is none. *)
Definition revokeTelegramToken (t : TelegramChannelConfig) : Fleet X unit :=
  match tg_botId t with
  | Some b => if b =? 0 then ret tt else attempt (ext (telegram_replaceToken b))
  | None => ret tt
  end.

Definition revokeTelegramBot inst : Fleet X unit :=
  match findTelegramChannel (ic_channels (in_config inst)) with
  | None => ret tt
  | Some t =>
      revokeTelegramToken t;;;
      attempt (writeConfigRow (fi_id inst) (withChannels (stripTelegram (ic_channels (in_config inst))) (in_config inst)))
  end.

Definition destroyLocked (id userId : string) : Fleet X unit :=
  let! inst := requireOwnedInstance id userId in
  (when negb (oneOf [I_destroying; I_error] (fi_status inst)) do
     (assertTransition (fi_status inst) I_destroying;;;
      let! updated := setStatus id I_destroying (Some (fi_status inst)) None in
      if updated then ret tt else throw (invalid (fi_status inst) "destroying")));;;
  (match fi_hasWhatsappCreds inst, truthy (fi_containerId inst) with
   | true, Some c => let! _ := ext (pairing_logoutWhatsapp id c) in ret tt
   | _, _ => ret tt
   end);;;
  setPairing id CLEARED_PAIRING;;;
  ext (pairing_teardownSidecar id);;;
  attempt (ext (llm_revoke inst));;;
  revokeTelegramBot inst;;;
  attempt (ext (integrations_revokeAll inst));;;
  catch
    (let! _ := host (fi_hostId inst) in
     (match truthy (fi_containerId inst) with Some c => ext (rt_remove (fi_hostId inst) c) | None => ret tt end);;;
     removeStateVolume (fi_hostId inst) inst;;;
     (when moves_configured do attempt (ext (moves_deletePrefix (SNAPSHOT_PREFIX ++ id ++ "/")%string)));;;
     let! _ := setStatus id I_destroyed None None in ret tt)
    (fun err => let! _ := setStatus id I_error None (Some (orchMessage err)) in throw err).

(** ** Moving to another host *)
Definition resumeSource inst (containerId : string) : Fleet X unit :=
  if negb (isContainerUp (fi_status inst)) then ret tt
  else
    let! _ := host (fi_hostId inst) in
    ext (rt_start (fi_hostId inst) containerId);;;
    let! _ := setStatus (fi_id inst) I_running (Some I_stopped) None in ret tt.

Definition prepareTarget inst (targetHostId : string) : Fleet X unit :=
  let! _ := managedHostOf targetHostId in
  let! reachable := ext' (gate_check targetHostId) in
  if negb reachable
  then throw (UpstreamUnavailableError "docker" (Some ("host " ++ targetHostId ++ " is unreachable")%string))
  else
    placementAssertFits targetHostId (rl_memoryMb (ic_resources (in_config inst)));;;
    ext (rt_ensureImagePresent targetHostId (ad_image (fi_runtimeKind inst)));;;
    let! present := ext (rt_hasVolume targetHostId (ad_stateVolumeName (fi_runtimeKind inst) (fi_id inst))) in
    if negb present then ret tt
    else if negb (ostr_eqb (fi_movedFromHostId inst) (Some targetHostId)) || isSome (fi_moveObjectName inst)
    then throw (ConflictError ("host " ++ targetHostId ++ " already holds a state volume for this bot")%string)
    else removeBotFromHost targetHostId inst.

(** The retry loop of [flipToHost]. *)
Fixpoint flipToHost (attempts : nat) (lastError : OrchError) inst (targetHostId objectName : string) : Fleet X Z :=
  match attempts with
  | O => throw lastError
  | S attempts' =>
      let! gatewayPort := allocatePort cfg targetHostId in
      let! r := finally
        (catch
           (let! t := now in
            let! flipped := onRows (moveTo managed t (fi_id inst)
              (mkMoveTo (fi_hostId inst) targetHostId gatewayPort objectName
                 (bool_decide (fi_status inst = I_stopped)))) in
            if flipped then ret (inr gatewayPort) else throw (InvalidStateError "stopped" "provisioning"))
           (fun err => if isUniqueViolation err then ret (inl err) else throw err))
        (releasePort targetHostId gatewayPort) in
      match r with
      | inr p => ret p
      | inl e => flipToHost attempts' e inst targetHostId objectName
      end
  end.

Definition moveBackLocked inst (toHostId : string) : Fleet X unit :=
  let! _ := managedHostOf toHostId in
  let! _ := host (fi_hostId inst) in
  let! reachable := ext' (gate_check (fi_hostId inst)) in
  if negb reachable
  then throw (UpstreamUnavailableError "docker" (Some ("host " ++ fi_hostId inst ++ " is unreachable")%string))
  else
    let! left_ := ext (rt_findContainerByName (fi_hostId inst) (fi_containerName inst)) in
    let! state := match truthy left_ with
      | Some c => ext (rt_containerState (fi_hostId inst) c)
      | None => ret None
      end in
    if match state with Some s => isSome (ct_startedAt s) && isSome (fi_moveImportedAt inst) | None => false end
    then throw (ConflictError ("the target container ran on host " ++ fi_hostId inst ++ "; recreate the bot there instead")%string)
    else
      removeBotFromHost (fi_hostId inst) inst;;;
      let! gatewayPort := allocatePort cfg toHostId in
      let! restored := finally (let! t := now in onRows (moveBack managed t (fi_id inst) toHostId gatewayPort))
        (releasePort toHostId gatewayPort) in
      if negb restored then throw (invalid (fi_status inst) "move")
      else append (fi_id inst) "move.rolled_back" None.

(** Stop the source, copy its volume out and flip the row: the port on the target,
    or [None] for a dry run. *)
Definition exportAndFlip inst (containerId targetHostId objectName : string) (dryRun : bool) : Fleet X (option Z) :=
  let! _ := host (fi_hostId inst) in
  let! running := ext (rt_isRunning (fi_hostId inst) containerId) in
  (when running do ext (rt_stop (fi_hostId inst) containerId));;;
  let! body := ext (ad_exportVolume (fi_hostId inst) containerId) in
  let! contentLength := ext (moves_upload objectName body) in
  if (contentLength <=? 0) || (MOVE_MAX_BYTES <? contentLength)
  then throw (PlainError ("exported volume archive is " ++ pretty contentLength ++ " bytes")%string)
  else
    append (fi_id inst) "move.exported" None;;;
    if dryRun then ret None
    else
      let! p := flipToHost (ac_maxProvisionRetries cfg) (PlainError "failed to place the bot on the target host")
                  inst targetHostId objectName in
      ret (Some p).

(** The [catch] of that block. *)
Definition exportFailed inst (containerId objectName : string) (dryRun : bool) (err : OrchError) : Fleet X (option Z) :=
  let id := fi_id inst in
  let! row := if dryRun then ret (Some inst) else catch (findInstance id) (fun _ => ret None) in
  match row with
  | Some i =>
      if str_eqb (fi_hostId i) (fi_hostId inst) then
        append id "move.failed" None;;;
        attempt (ext (moves_delete objectName));;;
        attempt (resumeSource inst containerId);;;
        throw err
      else append id "move.flipped" None;;; throw err
  | None => throw err
  end.

(** Why a move is refused before anything is touched; [inr true] asks for the way back. *)
Definition moveGuard inst (targetHostId : string) (dryRun : bool) : OrchError + bool :=
  if str_eqb targetHostId (fi_hostId inst) && negb dryRun then inl (ValidationError "bot is already on that host")
  else if oneOf [P_awaiting_qr; P_awaiting_code] (fi_pairingStatus inst)
  then inl (InvalidStateError (pairing_str (fi_pairingStatus inst)) "move")
  else if bool_decide (fi_status inst = I_error) && ostr_eqb (fi_movedFromHostId inst) (Some targetHostId) then
    if dryRun then inl (ValidationError "a rollback has no dry run")
    else if isNone (fi_moveObjectName inst)
    then inl (ConflictError ("the move to host " ++ fi_hostId inst ++ " completed; recreate the bot there first")%string)
    else inr true
  else if negb (oneOf MOVABLE_STATUSES (fi_status inst)) then inl (invalid (fi_status inst) "move")
  else if isSome (fi_movedFromHostId inst) && negb (ostr_eqb (fi_movedFromHostId inst) (Some targetHostId))
          && negb (dryRun && str_eqb targetHostId (fi_hostId inst))
  then inl (ConflictError ("the previous move's volume is still retained on host "
              ++ default "" (fi_movedFromHostId inst))%string)
  else inr false.

(** After the flip. *)
Definition finishMove inst (containerId : string) : Fleet X unit :=
  let id := fi_id inst in
  append id "move.flipped" None;;;
  attempt (ext (rt_remove (fi_hostId inst) containerId));;;
  catch (let! _ := resumeProvisioningLocked id in ret tt)
    (fun err => append id "move.failed" None;;; throw err);;;
  append id "move.completed" None.

Definition moveLocked (id targetHostId : string) (dryRun : bool) : Fleet X unit :=
  if negb moves_configured then throw (FeatureUnavailableError "moves")
  else
    let! inst := requireInstance id in
    let! back := lift (moveGuard inst targetHostId dryRun) in
    if back then moveBackLocked inst targetHostId
    else
      (when negb (str_eqb targetHostId (fi_hostId inst)) do prepareTarget inst targetHostId);;;
      let! _ := host (fi_hostId inst) in
      let! container := resolveContainerId inst in
      match truthy container with
      | None => throw (invalid (fi_status inst) "move")
      | Some containerId =>
          (when negb (bool_decide (fi_status inst = I_stopped)) do
             (let! stopped := setStatus id I_stopped (Some (fi_status inst)) None in
              if stopped then ret tt else throw (invalid (fi_status inst) "stopped")));;;
          append id "move.started" None;;;
          let! t := now in
          let objectName := ("moves/" ++ id ++ "/" ++ toISOString t ++ ".tar")%string in
          let! gatewayPort := catch (exportAndFlip inst containerId targetHostId objectName dryRun)
            (exportFailed inst containerId objectName dryRun) in
          match gatewayPort with
          | None =>
              attempt (ext (moves_delete objectName));;;
              resumeSource inst containerId;;;
              append id "move.dry_run" None
          | Some _ => finishMove inst containerId
          end
      end.

(** The retained source, once its time is over. *)
Definition purgeMovedSourceLocked (id : string) (cutoff : Z) : Fleet X unit :=
  let! o := findInstance id in
  match o with
  | None => ret tt
  | Some inst =>
      match truthy (fi_movedFromHostId inst), fi_movedAt inst with
      | Some from, Some movedAt =>
          if cutoff <=? movedAt then ret tt
          else if str_eqb from (fi_hostId inst) then ret tt
          else if negb (bool_decide (fi_status inst = I_destroyed))
                  && (bool_decide (fi_status inst = I_provisioning) || isSome (fi_moveObjectName inst)) then ret tt
          else
            let! _ := host from in
            let! reachable := ext' (gate_check from) in
            if negb reachable then ret tt
            else
              removeBotFromHost from inst;;;
              (match truthy (fi_moveObjectName inst) with
               | Some o => when moves_configured do attempt (ext (moves_delete o))
               | None => ret tt
               end);;;
              let! t := now in
              let! _ := onRows (clearMove managed t id) in ret tt
      | _, _ => ret tt
      end
  end.

(** [isOperating] is the lock's answer. *)
Definition purgeMovedSources (isOperating : string -> X -> bool) : Fleet X unit :=
  let! t := now in
  let cutoff := t - ac_moveSourceRetentionMs cfg in
  let! due := readRows (findMovedSourcesDue managed t (ac_moveSourceRetentionMs cfg)) in
  forM due (fun i =>
    let! busy := query (fun d => isOperating (fi_id i) (fd_x d)) in
    if busy : bool then ret tt else attempt (purgeMovedSourceLocked (fi_id i) cutoff)).

(** ** Configuration *)
Definition mergedProvider (p : ProviderPatch) (c : ProviderConfig) : ProviderConfig :=
  let over {A} (o : option A) (a : A) := default a o in
  mkProviderConfig (over (pp_name p) (pr_name c))
    (match pp_id p with Some i => Some i | None => pr_id c end)
    (over (pp_apiKey p) (pr_apiKey c)) (over (pp_model p) (pr_model c))
    (match pp_baseUrl p with Some u => Some u | None => pr_baseUrl c end)
    (match pp_input p with Some l => Some l | None => pr_input c end)
    (match pp_media p with Some l => Some l | None => pr_media c end)
    (match pp_fallbacks p with Some l => Some l | None => pr_fallbacks c end).

Definition integrationsAfterPatch (current : InstanceConfig) (patch : ConfigPatch) : option IntegrationsBinding :=
  match cp_integrations patch with None => ic_integrations current | Some o => o end.

Definition mergedConfig (c : InstanceConfig) (patch : ConfigPatch) : InstanceConfig :=
  mkInstanceConfig
    (default (ic_displayName c) (cp_displayName patch))
    (match cp_provider patch with Some p => mergedProvider p (ic_provider c) | None => ic_provider c end)
    (default (ic_channels c) (cp_channels patch))
    (match cp_resources patch with
     | Some r => mkResourceLimits (default (rl_memoryMb (ic_resources c)) (rp_memoryMb r))
                   (default (rl_cpuShares (ic_resources c)) (rp_cpuShares r))
     | None => ic_resources c
     end)
    (integrationsAfterPatch c patch).

Definition isCloudChannel (c : ChannelConfig) : bool := isSome (asWhatsappCloud c).

Definition keepOrchestratorChannels (current : list ChannelConfig) (patch : ConfigPatch) : ConfigPatch :=
  match cp_channels patch with
  | None => patch
  | Some l =>
      mkConfigPatch (cp_displayName patch) (cp_provider patch)
        (Some (List.filter (fun c => negb (isCloudChannel c)) l ++ List.filter isCloudChannel current))
        (cp_resources patch) (cp_integrations patch)
  end.

Definition pairingInFlight (i : FleetInstance) : bool := oneOf [P_awaiting_qr; P_awaiting_code] (fi_pairingStatus i).

Definition refusesConfig inst (merged : InstanceConfig) : option OrchError :=
  let whatsapp l := isSome (findWhatsappChannel l) in
  if (fi_hasWhatsappCreds inst || pairingInFlight inst) && whatsapp (ic_channels (in_config inst))
     && negb (whatsapp (ic_channels merged))
  then Some (ValidationError "disconnect WhatsApp first")
  else if isSome (truthy (fi_containerId inst))
          && (negb (rl_memoryMb (ic_resources merged) =? rl_memoryMb (ic_resources (in_config inst)))
              || negb (rl_cpuShares (ic_resources merged) =? rl_cpuShares (ic_resources (in_config inst))))
  then Some (ValidationError "changing resources needs a recreate, not a config update")
  else None.

Definition outcome_str (o : ConfigApplyOutcome) : string :=
  match o with Out_applied => "applied" | Out_restart_required => "restart_required" end.

Definition applyConfigLocked (id userId : string) (patch : ConfigPatch)
  : Fleet X (Instance_ * option ConfigApplyOutcome) :=
  let! inst := requireOwnedInstance id userId in
  if oneOf [I_provisioning; I_destroying] (fi_status inst) then throw (invalid (fi_status inst) "config update")
  else
    let merged := mergedConfig (in_config inst) patch in
    match refusesConfig inst merged with
    | Some e => throw e
    | None =>
        let! _ := host (fi_hostId inst) in
        let! outcome := match truthy (fi_containerId inst) with
          | Some c =>
              let! o := ext (ad_applyConfig (fi_hostId inst) c (withConfigOf merged inst)) in
              append id ("config." ++ outcome_str o)%string None;;;
              ret (Some o)
          | None => ret None
          end in
        writeConfigRow id merged;;;
        (match outcome, truthy (fi_containerId inst) with
         | Some Out_restart_required, Some c =>
             let! running := ext (rt_isRunning (fi_hostId inst) c) in
             when running do restartContainer inst c
         | _, _ => ret tt
         end);;;
        let! i := requireOwnedInstance id userId in
        ret (i, outcome)
    end.

Definition updateConfig (id userId : string) (patch : ConfigPatch) : Fleet X Instance_ :=
  let! inst := requireOwnedInstance id userId in
  let! r := applyConfigLocked id userId (keepOrchestratorChannels (ic_channels (in_config inst)) patch) in
  ret r.1.

Definition channelsPatch (l : list ChannelConfig) : ConfigPatch := mkConfigPatch None None (Some l) None None.

(** [mutate] throws, or answers [None] when it returns the array it was given; the
    [T] is what it leaves in its caller's variables. *)
Definition updateChannelsNoting {T} (id userId : string)
  (mutate : list ChannelConfig -> OrchError + (option (list ChannelConfig) * T))
  : Fleet X (Instance_ * bool * option ConfigApplyOutcome * T) :=
  let! inst := requireOwnedInstance id userId in
  let! mutated := lift (mutate (ic_channels (in_config inst))) in
  match mutated.1 with
  | None => ret (inst, false, None, mutated.2)
  | Some next =>
      let! r := applyConfigLocked id userId (channelsPatch next) in
      ret (r.1, true, r.2, mutated.2)
  end.

Definition updateChannels (id userId : string) (mutate : list ChannelConfig -> OrchError + option (list ChannelConfig))
  : Fleet X (Instance_ * bool * option ConfigApplyOutcome) :=
  let! r := updateChannelsNoting id userId
    (fun l => match mutate l with inl e => inl e | inr o => inr (o, tt) end) in
  ret r.1.

Definition ensureWhatsappChannel (id userId : string) (ownerNumber : option string) : Fleet X Instance_ :=
  let! r := updateChannels id userId (fun l => inr (withWhatsappOwnerNumber l ownerNumber)) in
  ret r.1.1.

Definition updateLiteLlmBudget (id userId : string) (budgetCents : Z) : Fleet X Instance_ :=
  let! inst := requireOwnedInstance id userId in
  ext (llm_updateBudget inst budgetCents);;;
  let l := fi_litellm inst in
  (let! t := now in
   let! _ := onRows (updateLiteLlmKey managed t id
     (mkLiteLlm (Some (default ("agentforall-" ++ String.substring 0 8 id)%string (ll_keyAlias l))) (ll_keyHash l)
        (Some budgetCents)
        (Some (default (ac_litellmDefaultBudgetDuration cfg) (ll_budgetDuration l))))) in ret tt);;;
  append id "litellm.budget_updated" (Some userId);;;
  requireOwnedInstance id userId.

Definition disconnectWhatsapp (id userId : string) : Fleet X Instance_ :=
  let! inst := requireOwnedInstance id userId in
  if isNone (findWhatsappChannel (ic_channels (in_config inst))) then throw (NotFoundError "whatsapp channel" id)
  else if oneOf [I_provisioning; I_destroying] (fi_status inst)
  then throw (invalid (fi_status inst) "whatsapp disconnect")
  else
    let containerUp := isSome (fi_containerId inst) && isContainerUp (fi_status inst) in
    if fi_hasWhatsappCreds inst && negb containerUp then throw (invalid (fi_status inst) "whatsapp disconnect")
    else
      (when pairingInFlight inst do ext (pairing_cancel id));;;
      (match fi_hasWhatsappCreds inst, truthy (fi_containerId inst) with
       | true, Some c =>
           let! cleared := ext (pairing_logoutWhatsapp id c) in
           if cleared then ret tt else throw (UpstreamUnavailableError "whatsapp logout" None)
       | _, _ => ret tt
       end);;;
      setPairing id CLEARED_PAIRING;;;
      append id "whatsapp.disconnected" (Some userId);;;
      (match truthy (fi_containerId inst), containerUp with
       | Some c, true => restartContainer inst c
       | _, _ => ret tt
       end);;;
      requireOwnedInstance id userId.

Definition disconnectTelegram (id userId : string) : Fleet X Instance_ :=
  let! inst := requireOwnedInstance id userId in
  match findTelegramChannel (ic_channels (in_config inst)) with
  | None => throw (NotFoundError "telegram channel" id)
  | Some t =>
      if oneOf [I_provisioning; I_destroying] (fi_status inst)
      then throw (invalid (fi_status inst) "telegram disconnect")
      else
        revokeTelegramToken t;;;
        let! updated := applyConfigLocked id userId (channelsPatch (stripTelegram (ic_channels (in_config inst)))) in
        append id "telegram.disconnected" (Some userId);;;
        ret updated.1
  end.

Definition resolveExportContainerId inst : Fleet X string :=
  let! c := resolveContainerId inst in
  match truthy c with Some c => ret c | None => throw (invalid (fi_status inst) "export_backup") end.

Definition assertAgentBackupReadable (id userId : string) : Fleet X unit :=
  let! inst := requireOwnedInstance id userId in
  let! _ := resolveExportContainerId inst in ret tt.

(** ** Reading *)
Record InstanceVerification := mkVerification {
  vf_status : InstanceStatus;
  vf_image : string;
  vf_onCurrentImage : bool;
  vf_running : bool;
  vf_checks : list RuntimeCheck;
}.

Definition verify (isOperating : string -> bool) (id : string) : Fleet X InstanceVerification :=
  if isOperating id then throw (ConflictError "the bot is under an operation")
  else
    let! inst := requireInstance id in
    let! _ := host (fi_hostId inst) in
    let! containerId := existingContainerId inst in
    let! running := match containerId with
      | Some c => ext (rt_isRunning (fi_hostId inst) c)
      | None => ret false
      end in
    let! current := match containerId with
      | Some c => ext (ad_isOnCurrentImage (fi_hostId inst) c)
      | None => ret false
      end in
    let! checks := match truthy containerId, running with
      | Some c, true => ext (ad_verify (fi_hostId inst) c inst)
      | _, _ => ret []
      end in
    ret (mkVerification (fi_status inst) (ad_image (fi_runtimeKind inst)) current running checks).

Definition describe (id userId : string)
  : Fleet X (Instance_ * option ProvisioningStage * list (ProvisioningStage * Z)) :=
  let! inst := requireOwnedInstance id userId in
  let! history := statement (fun d => (inr (provisioningHistory id (fd_events d)), d)) in
  ret (inst, option_map fst (last history), history).
End Manager.
