(* ===== verification/FleetLogic.v ===== *)
(** A program logic for what happens to one bot while its lock is held.

    The lock keeps other operations away from the bot's row, but the health
    monitor, the pairing and the reconciler still write to it, and operations on
    other bots run: [Rely] is what they may do.  [T P m Q] says that from a bot
    whose view satisfies [P] the program [m] keeps the invariant of the rows,
    asks only for justified removals of volumes, and ends in [Q], at every
    interleaving.  The database is taken to answer its statements. *)
From S2P Require Import Prelude Fleet Hosts FleetStore FleetWorld.
From stdpp Require Import list strings.
#[local] Open Scope Z_scope.

(** ** What a bot's row says about its state volume *)
Record View := mkView {
  v_host : string;
  v_from : option string;
  v_obj : option string;
  v_prov : bool;
  v_dead : bool;
  v_promoted : bool;
  v_ok : bool;
}.

Definition isSomeS {A} (o : option A) : bool := match o with Some _ => true | None => false end.

(** The host that holds the bot's state: while a move is under way the old one;
    none for a bot that is destroyed, and for a new one that never ran. *)
Definition homeOf (i : FleetInstance) (promoted : bool) : option string :=
  if bool_decide (fi_status i = I_destroyed) then None
  else if isSomeS (fi_moveObjectName i) then fi_movedFromHostId i
  else if promoted then Some (fi_hostId i)
  else None.

(** A removal that does not take the state of a bot. *)
Definition Justified (r : Removal) : Prop :=
  match rv_row r with
  | Some i => homeOf i (rv_promoted r) <> Some (rv_hostId r)
  | None => True
  end.

Section Logic.
Context {X : Type} `{!Collaborators X} (managed : list string) (id : string).
Hypothesis db_answers : forall x, (db_next x).1 = St_done.
Implicit Types d : FleetDb X.

Definition isPromoted (i : string) d : bool := List.existsb (str_eqb i) (fd_promoted d).

Definition viewOf (promoted : bool) (r : Row) : View :=
  mkView (fi_hostId r) (fi_movedFromHostId r) (fi_moveObjectName r)
    (bool_decide (fi_status r = I_provisioning)) (bool_decide (fi_status r = I_destroyed)) promoted
    (owned managed r && match ro_settings r with inr _ => true | inl _ => false end).

Definition findRow d : option Row := List.find (fun r : Row => isRow id r) (fd_rows d).

Definition view d : option View := option_map (viewOf (isPromoted id d)) (findRow d).

(** ** The invariant *)
Definition RowInv (promoted : list string) (r : Row) : Prop :=
  (fi_moveObjectName r <> None -> exists from, fi_movedFromHostId r = Some from /\ from <> fi_hostId r) /\
  (fi_status r = I_provisioning -> fi_moveObjectName r = None -> ~ In (fi_id r) promoted).

Definition Inv d : Prop :=
  NoDup (List.map (fun r : Row => fi_id r) (fd_rows d)) /\
  Forall (RowInv (fd_promoted d)) (fd_rows d) /\
  forall i, In i (fd_promoted d) -> In i (List.map (fun r : Row => fi_id r) (fd_rows d)).

Definition LogStep d d' : Prop := exists l, fd_removed d' = fd_removed d ++ l /\ Forall Justified l.

Lemma logStep_refl d d' : fd_removed d' = fd_removed d -> LogStep d d'.
Proof. intros E. exists []. rewrite E, app_nil_r. auto. Qed.

Lemma logStep_trans d1 d2 d3 : LogStep d1 d2 -> LogStep d2 d3 -> LogStep d1 d3.
Proof.
  intros (l1 & E1 & H1) (l2 & E2 & H2). exists (l1 ++ l2). rewrite E2, E1, app_assoc.
  split; [reflexivity | apply Forall_app; auto].
Qed.

(** What others do to the store between two accesses. *)
Definition Rely (f : FleetDb X -> FleetDb X) : Prop :=
  forall d, Inv d -> Inv (f d) /\ view (f d) = view d /\ LogStep d (f d).

Definition T (P : option View -> Prop) {A} (m : Fleet X A) (Q : OrchError + A -> option View -> Prop) : Prop :=
  forall w r w', Forall Rely (w_env w) -> Inv (w_db w) -> P (view (w_db w)) -> m w = (r, w') ->
    Inv (w_db w') /\ LogStep (w_db w) (w_db w') /\ Forall Rely (w_env w') /\ Q r (view (w_db w')).

Definition Quiet {A} (m : Fleet X A) : Prop := forall P, T P m (fun _ v => P v).
Definition Safe {A} (m : Fleet X A) : Prop := T (fun _ => True) m (fun _ _ => True).

(** ** Rules *)
Lemma t_weaken (P P' : option View -> Prop) {A} (m : Fleet X A) (Q Q' : OrchError + A -> option View -> Prop) :
  T P m Q -> (forall v, P' v -> P v) -> (forall r v, Q r v -> Q' r v) -> T P' m Q'.
Proof.
  intros H H1 H2 w r w' He Hi Hp Hm. destruct (H w r w' He Hi (H1 _ Hp) Hm) as (Ha & Hb & Hc & Hd). auto.
Qed.

Lemma t_bind P {A B} (m : Fleet X A) (k : A -> Fleet X B) Q R :
  T P m Q -> (forall a, T (Q (inr a)) (k a) R) -> (forall e v, Q (inl e) v -> R (inl e) v) -> T P (bind m k) R.
Proof.
  intros Hm Hk He w r w' Henv Hi Hp Hw. apply bind_inv in Hw as [(e & Hw & ->)|(a & w1 & Hw & Hw1)].
  - destruct (Hm _ _ _ Henv Hi Hp Hw) as (Ha & Hb & Hc & Hd). auto.
  - destruct (Hm _ _ _ Henv Hi Hp Hw) as (Ha & Hb & Hc & Hd).
    destruct (Hk a _ _ _ Hc Ha Hd Hw1) as (Ha' & Hb' & Hc' & Hd').
    split; [exact Ha'|]. split; [eapply logStep_trans; eassumption | auto].
Qed.

Lemma t_catch P {A} (m : Fleet X A) (h : OrchError -> Fleet X A) Q R :
  T P m Q -> (forall e, T (Q (inl e)) (h e) R) -> (forall a v, Q (inr a) v -> R (inr a) v) -> T P (catch m h) R.
Proof.
  intros Hm Hh Hr w r w' Henv Hi Hp Hw. apply catch_inv in Hw as [(a & Hw & ->)|(e & w1 & Hw & Hw1)].
  - destruct (Hm _ _ _ Henv Hi Hp Hw) as (Ha & Hb & Hc & Hd). auto.
  - destruct (Hm _ _ _ Henv Hi Hp Hw) as (Ha & Hb & Hc & Hd).
    destruct (Hh e _ _ _ Hc Ha Hd Hw1) as (Ha' & Hb' & Hc' & Hd').
    split; [exact Ha'|]. split; [eapply logStep_trans; eassumption | auto].
Qed.

Lemma t_pure (P : option View -> Prop) {A} (m : Fleet X A) (Q : OrchError + A -> option View -> Prop) :
  (forall w, P (view (w_db w)) -> w_db (m w).2 = w_db w /\ w_env (m w).2 = w_env w /\ Q (m w).1 (view (w_db w))) ->
  T P m Q.
Proof.
  intros Hm w r w' He Hi Hp Hw. specialize (Hm w Hp). rewrite Hw in Hm. simpl in Hm. destruct Hm as (E1 & E2 & HQ).
  rewrite E1, E2. split; [exact Hi|]. split; [apply logStep_refl; reflexivity | auto].
Qed.

Lemma t_ret (P : option View -> Prop) {A} (a : A) (Q : OrchError + A -> option View -> Prop) :
  (forall v, P v -> Q (inr a) v) -> T P (ret a) Q.
Proof. intros H. apply t_pure. intros w Hp. simpl. auto. Qed.
Lemma t_throw (P : option View -> Prop) {A} (e : OrchError) (Q : OrchError + A -> option View -> Prop) :
  (forall v, P v -> Q (inl e) v) -> T P (throw e) Q.
Proof. intros H. apply t_pure. intros w Hp. simpl. auto. Qed.

Lemma quiet_ret {A} (a : A) : Quiet (ret a).
Proof. intros P. apply t_pure. intros w H. auto. Qed.
Lemma quiet_throw {A} (e : OrchError) : Quiet (throw e : Fleet X A).
Proof. intros P. apply t_pure. intros w H. auto. Qed.
Lemma quiet_now : Quiet (now : Fleet X Z).
Proof. intros P. apply t_pure. intros w H. auto. Qed.
Lemma quiet_lift {A} (x : OrchError + A) : Quiet (lift x : Fleet X A).
Proof. intros P. apply t_pure. intros w H. auto. Qed.

Lemma quiet_bind {A B} (m : Fleet X A) (k : A -> Fleet X B) : Quiet m -> (forall a, Quiet (k a)) -> Quiet (bind m k).
Proof. intros Hm Hk P. eapply t_bind; [apply Hm | intros a; apply Hk | auto]. Qed.
Lemma quiet_catch {A} (m : Fleet X A) h : Quiet m -> (forall e, Quiet (h e)) -> Quiet (catch m h).
Proof. intros Hm Hh P. eapply t_catch; [apply Hm | intros e; apply Hh | auto]. Qed.
Lemma quiet_attempt (m : Fleet X unit) : Quiet m -> Quiet (attempt m).
Proof. intros Hm. apply quiet_catch; [exact Hm | intros; apply quiet_ret]. Qed.

(** A quiet program first. *)
Lemma t_quiet P {A B} (m : Fleet X A) (k : A -> Fleet X B) (R : OrchError + B -> option View -> Prop) :
  Quiet m -> (forall a, T P (k a) R) -> (forall e v, P v -> R (inl e) v) -> T P (bind m k) R.
Proof. intros Hm Hk He. eapply t_bind; [apply (Hm P) | exact Hk | exact He]. Qed.

Lemma t_lift P {A B} (x : OrchError + A) (k : A -> Fleet X B) (R : OrchError + B -> option View -> Prop) :
  (forall a, x = inr a -> T P (k a) R) -> (forall e v, P v -> R (inl e) v) -> T P (bind (lift x) k) R.
Proof.
  intros Hk He. destruct x as [e|a].
  - apply t_pure. intros w Hp. simpl. auto.
  - exact (Hk a eq_refl).
Qed.

Lemma quiet_safe {A} (m : Fleet X A) : Quiet m -> Safe m.
Proof. intros H. eapply t_weaken; [apply (H (fun _ => True)) | auto | auto]. Qed.

Lemma safe_bind {A B} (m : Fleet X A) (k : A -> Fleet X B) : Safe m -> (forall a, Safe (k a)) -> Safe (bind m k).
Proof. intros Hm Hk. eapply t_bind; [exact Hm | intros a; apply Hk | auto]. Qed.
Lemma safe_catch {A} (m : Fleet X A) h : Safe m -> (forall e, Safe (h e)) -> Safe (catch m h).
Proof. intros Hm Hh. eapply t_catch; [exact Hm | intros e; apply Hh | auto]. Qed.
Lemma safe_attempt (m : Fleet X unit) : Safe m -> Safe (attempt m).
Proof. intros Hm. apply safe_catch; [exact Hm | intros; apply quiet_safe, quiet_ret]. Qed.

Lemma t_finally P {A} (m : Fleet X A) (f : Fleet X unit) Q :
  T P m Q -> Quiet f -> (forall r v, Q r v -> forall e, Q (inl e) v) -> T P (finally m f) Q.
Proof.
  intros Hm Hf HQ w r w' Henv Hi Hp Hw. unfold finally in Hw. destruct (m w) as [[e|a] w1] eqn:E.
  - destruct (Hm _ _ _ Henv Hi Hp E) as (Ha & Hb & Hc & Hd).
    destruct (quiet_bind f (fun _ => throw e) Hf (fun _ => quiet_throw e) (Q (inl e)) _ _ _ Hc Ha Hd Hw)
      as (Ha' & Hb' & Hc' & Hd').
    split; [exact Ha'|]. split; [eapply logStep_trans; eassumption|]. split; [exact Hc'|].
    apply bind_inv in Hw as [(e' & _ & ->)|(u & w2 & _ & Hw)]; [eapply HQ; exact Hd'|].
    injection Hw as <- <-. exact Hd'.
  - destruct (Hm _ _ _ Henv Hi Hp E) as (Ha & Hb & Hc & Hd).
    destruct (quiet_bind f (fun _ => ret a) Hf (fun _ => quiet_ret a) (Q (inr a)) _ _ _ Hc Ha Hd Hw)
      as (Ha' & Hb' & Hc' & Hd').
    split; [exact Ha'|]. split; [eapply logStep_trans; eassumption|]. split; [exact Hc'|].
    apply bind_inv in Hw as [(e' & _ & ->)|(u & w2 & _ & Hw)]; [eapply HQ; exact Hd'|].
    injection Hw as <- <-. exact Hd'.
Qed.

Lemma quiet_finally {A} (m : Fleet X A) f : Quiet m -> Quiet f -> Quiet (finally m f).
Proof. intros Hm Hf P. apply t_finally; [apply Hm | exact Hf | auto]. Qed.
Lemma safe_finally {A} (m : Fleet X A) f : Safe m -> Quiet f -> Safe (finally m f).
Proof. intros Hm Hf. apply t_finally; [exact Hm | exact Hf | auto]. Qed.

(** ** Accesses *)
Lemma t_atomic (P : option View -> Prop) {A} (op : FleetDb X -> (OrchError + A) * FleetDb X) Q :
  (forall d, Inv d -> P (view d) -> Inv (op d).2 /\ LogStep d (op d).2 /\ Q (op d).1 (view (op d).2)) ->
  T P (atomic op) Q.
Proof.
  intros Hop w r w' Henv Hi Hp Hw. unfold atomic in Hw. destruct (w_env w) as [|f fs] eqn:E.
  - specialize (Hop _ Hi Hp). destruct (op (w_db w)) as [r0 d']. injection Hw as <- <-. simpl in *.
    destruct Hop as (Ha & Hb & Hc). auto.
  - apply Forall_cons in Henv as [Hf Hfs]. destruct (Hf _ Hi) as (Hi1 & Hv & Hl).
    rewrite <- Hv in Hp. specialize (Hop _ Hi1 Hp). destruct (op (f (w_db w))) as [r0 d']. injection Hw as <- <-.
    simpl in *. destruct Hop as (Ha & Hb & Hc). split; [exact Ha|]. split; [eapply logStep_trans; eassumption | auto].
Qed.

Lemma inv_setX x d : Inv d -> Inv (setX x d).
Proof. auto. Qed.

(** An access that leaves the rows and the logs alone. *)
Definition keepsRows d d' : Prop :=
  fd_rows d' = fd_rows d /\ fd_promoted d' = fd_promoted d /\ fd_removed d' = fd_removed d.

Lemma quiet_atomic {A} (op : FleetDb X -> (OrchError + A) * FleetDb X) :
  (forall d, keepsRows d (op d).2) -> Quiet (atomic op).
Proof.
  intros Hop P. apply t_atomic. intros d Hi Hp. destruct (Hop d) as (E1 & E2 & E3).
  unfold Inv, view, findRow, isPromoted in *. rewrite E1, E2. split; [exact Hi|]. split; [apply logStep_refl; exact E3 | exact Hp].
Qed.

Lemma quiet_query {A} (q : FleetDb X -> A) : Quiet (query q).
Proof. apply quiet_atomic. intros d. repeat split. Qed.

Lemma quiet_ext {A} (op : Ext X A) : Quiet (ext op).
Proof. apply quiet_atomic. intros d. destruct (op (fd_x d)). repeat split. Qed.

Lemma quiet_ext' {A} (op : X -> A * X) : Quiet (ext' op).
Proof. apply quiet_ext. Qed.

Lemma t_statement (P : option View -> Prop) {A} (f : FleetDb X -> (OrchError + A) * FleetDb X) Q :
  (forall d, Inv d -> P (view d) -> Inv (f d).2 /\ LogStep d (f d).2 /\ Q (f d).1 (view (f d).2)) ->
  T P (statement f) Q.
Proof.
  intros Hf. apply t_atomic. intros d Hi Hp. pose proof (db_answers (fd_x d)) as E.
  destruct (db_next (fd_x d)) as [o x]. simpl in E. subst o. exact (Hf (setX x d) Hi Hp).
Qed.

Lemma quiet_statement {A} (f : FleetDb X -> (OrchError + A) * FleetDb X) :
  (forall d, keepsRows d (f d).2) -> Quiet (statement f).
Proof.
  intros Hf P. apply t_statement. intros d Hi Hp. destruct (Hf d) as (E1 & E2 & E3).
  unfold Inv, view, findRow, isPromoted in *. rewrite E1, E2. split; [exact Hi|]. split; [apply logStep_refl; exact E3 | exact Hp].
Qed.

Lemma quiet_append i ev actor : Quiet (append i ev actor).
Proof. apply quiet_bind; [apply quiet_now | intros t]. apply quiet_statement. intros d. repeat split. Qed.

Lemma quiet_readRows {A} (f : list Row -> A) : Quiet (readRows f).
Proof. apply quiet_statement. intros d. repeat split. Qed.

(** ** Updates of rows *)
Definition light (a : Assign) : bool :=
  match a with
  | A_status _ | A_hostId _ | A_movedFromHostId _ | A_moveObjectName _ => false
  | _ => true
  end.

Lemma applySet_id l (i : FleetInstance) : fi_id (applySet l i) = fi_id i.
Proof. revert i. induction l as [|a l IH]; intros i; simpl; [reflexivity|]. rewrite IH. destruct a; reflexivity. Qed.

Lemma applySet_light l (i : FleetInstance) :
  forallb light l = true ->
  fi_hostId (applySet l i) = fi_hostId i /\ fi_status (applySet l i) = fi_status i /\
  fi_movedFromHostId (applySet l i) = fi_movedFromHostId i /\
  fi_moveObjectName (applySet l i) = fi_moveObjectName i.
Proof.
  revert i. induction l as [|a l IH]; intros i H; simpl; [auto|]. simpl in H. apply andb_prop in H as [Ha Hl].
  destruct (IH (assign a i) Hl) as (-> & -> & -> & ->). destruct a; try discriminate; auto.
Qed.

(** The rows after an update that passed the port index. *)
Lemma updateRows_inv p set rows r rows' :
  updateRows p set rows = (r, rows') ->
  (exists e, r = inl e /\ rows' = rows) \/
  (r = inr (List.existsb (fun x : Row => p x) rows) /\
   rows' = update_where (fun x : Row => p x) (setRow set) rows).
Proof.
  unfold updateRows. destruct (portIndexOk _); intros [= <- <-]; [right; auto | left; eauto].
Qed.

Lemma updated_ids (p : Row -> bool) set rows :
  List.map (fun r : Row => fi_id r) (update_where p (setRow set) rows) = List.map (fun r : Row => fi_id r) rows.
Proof. apply map_update_where. intros r _. simpl. apply applySet_id. Qed.

Lemma updated_find (p : Row -> bool) set rows :
  List.find (fun r : Row => isRow id r) (update_where p (setRow set) rows) =
  match List.find (fun r : Row => isRow id r) rows with
  | Some r => Some (if p r then setRow set r else r)
  | None => None
  end.
Proof. apply find_update_where. intros r. unfold isRow. simpl. rewrite applySet_id. reflexivity. Qed.

Lemma inv_update d d' (p : Row -> bool) set :
  Inv d -> fd_rows d' = update_where p (setRow set) (fd_rows d) ->
  (forall i, In i (fd_promoted d') -> In i (fd_promoted d) \/ exists r, In r (fd_rows d) /\ fi_id r = i) ->
  (forall r, In r (fd_rows d) -> RowInv (fd_promoted d) r ->
     RowInv (fd_promoted d') (if p r then setRow set r else r)) -> Inv d'.
Proof.
  intros (H1 & H2 & H3) Hrows Hprom Hrow. unfold Inv. rewrite Hrows, updated_ids. split; [exact H1|]. split.
  - apply Forall_forall. intros r' Hr'. apply list_elem_of_In, in_update_where in Hr' as (r & Hr & ->).
    apply Hrow; [exact Hr|]. rewrite Forall_forall in H2. apply H2, list_elem_of_In. exact Hr.
  - intros i Hi. destruct (Hprom i Hi) as [Hi'|(r & Hr & <-)]; [auto|].
    apply in_map_iff. exists r. auto.
Qed.

(** Rows that say the same about where the bot is. *)
Definition alike (r r' : Row) : Prop :=
  fi_id r' = fi_id r /\ fi_hostId r' = fi_hostId r /\ fi_status r' = fi_status r /\
  fi_movedFromHostId r' = fi_movedFromHostId r /\ fi_moveObjectName r' = fi_moveObjectName r /\
  (match ro_settings r' with inr _ => true | inl _ => false end) = (match ro_settings r with inr _ => true | inl _ => false end).

Lemma alike_refl r : alike r r.
Proof. repeat split. Qed.

Lemma alike_all_refl rows : Forall2 alike rows rows.
Proof. apply Forall2_same_length_lookup_2; [reflexivity|]. intros i x y Hx Hy. rewrite Hx in Hy. injection Hy as <-. apply alike_refl. Qed.

Lemma alike_trans l1 l2 l3 : Forall2 alike l1 l2 -> Forall2 alike l2 l3 -> Forall2 alike l1 l3.
Proof.
  intros H. revert l3. induction H as [|x y l1 l2 H _ IH]; intros l3 H3; inversion H3 as [|? z ? l3' Hyz Hl]; subst; constructor.
  - destruct H as (A1 & A2 & A3 & A4 & A5 & A6), Hyz as (B1 & B2 & B3 & B4 & B5 & B6). repeat split; congruence.
  - apply IH. exact Hl.
Qed.

Lemma alike_update (p : Row -> bool) f rows : (forall r, alike r (f r)) -> Forall2 alike rows (update_where p f rows).
Proof. intros H. induction rows as [|r rows IH]; simpl; constructor; [destruct (p r); [apply H | apply alike_refl] | exact IH]. Qed.

Lemma alike_light p set rows :
  forallb light set = true -> Forall2 alike rows (updateRows p set rows).2.
Proof.
  intros Hl. destruct (updateRows p set rows) as [r rows'] eqn:E.
  apply updateRows_inv in E as [(e & -> & ->)|[-> ->]]; simpl; [apply alike_all_refl|].
  apply alike_update. intros x. destruct (applySet_light set x Hl) as (E1 & E2 & E3 & E4).
  unfold alike. simpl. rewrite E1, E2, E3, E4, applySet_id. repeat split.
Qed.

Lemma alike_inv d rows' : Forall2 alike (fd_rows d) rows' -> Inv d -> Inv (setRows rows' d).
Proof.
  intros H (H1 & H2 & H3).
  assert (E : List.map (fun r : Row => fi_id r) rows' = List.map (fun r : Row => fi_id r) (fd_rows d)).
  { clear -H. induction H as [|x y l l' Hxy _ IH]; simpl; [reflexivity|]. rewrite IH. f_equal. apply Hxy. }
  split; [simpl; rewrite E; exact H1|]. split; [|simpl; rewrite E; exact H3]. simpl.
  clear -H H2. induction H as [|x y l l' Hxy _ IH]; [constructor|]. apply Forall_cons in H2 as [Hx Hl].
  constructor; [|auto]. destruct Hxy as (A1 & A2 & A3 & A4 & A5 & _). unfold RowInv in *.
  rewrite A1, A2, A3, A4, A5. exact Hx.
Qed.

Lemma alike_view d rows' : Forall2 alike (fd_rows d) rows' -> view (setRows rows' d) = view d.
Proof.
  unfold view, findRow, isPromoted. simpl. intros H. induction H as [|x y l l' Hxy _ IH]; simpl; [reflexivity|].
  destruct Hxy as (A1 & A2 & A3 & A4 & A5 & A6). unfold isRow at 1 3. rewrite A1.
  destruct (str_eqb (fi_id x) id); [|exact IH]. simpl. unfold viewOf, owned. rewrite A2, A3, A4, A5, A6. reflexivity.
Qed.

Lemma quiet_alike {A} (f : list Row -> (OrchError + A) * list Row) :
  (forall rows, Forall2 alike rows (f rows).2) -> Quiet (onRows f).
Proof.
  intros Hf P. apply t_statement. intros d Hi Hp. specialize (Hf (fd_rows d)).
  destruct (f (fd_rows d)) as [r rows']. simpl in *.
  split; [apply alike_inv; assumption|]. split; [apply logStep_refl; reflexivity|]. rewrite alike_view; assumption.
Qed.

(** An update of a row's placement-neutral columns. *)
Lemma quiet_light p set : forallb light set = true -> Quiet (onRows (updateRows p set)).
Proof. intros H. apply quiet_alike. intros rows. apply alike_light. exact H. Qed.
End Logic.
