(* ===== verification/FleetGuar.v ===== *)
(** Guarantees of the orchestrator's programs: every access they make to the store
    is a step of [R], shown as a guarantee for every preorder [G] around [R], so
    that whatever else runs may be in [G] as well.  Then the request that runs alone,
    with a database that answers, and concrete implementations of the outside. *)
From S2P Require Import Prelude Fleet CloudInbox Hosts FleetStore FleetWorld InstanceManager FleetLogic.
From stdpp Require Import list strings gmap.
#[local] Open Scope Z_scope.

(** A step relation that does not look at the outside. *)
Class FleetStep {X} (R : FleetDb X -> FleetDb X -> Prop) : Prop := {
  fs_ext : forall x d, R d (setX x d);
  fs_after : forall x d d', R (setX x d) d' -> R d d';
}.

(** Every access of [m] is in [R], and its result satisfies [Q]. *)
Definition Gives {X A} (R : FleetDb X -> FleetDb X -> Prop) (m : Fleet X A) (Q : A -> Prop) : Prop :=
  forall G, StepRel G -> (forall d d', R d d' -> G d d') -> Spec (fun _ => True) G m Q.
Definition Keeps {X A} (R : FleetDb X -> FleetDb X -> Prop) (m : Fleet X A) : Prop := Gives R m (fun _ => True).

Create HintDb keeps discriminated.

Section Rules.
Context {X : Type} `{!Collaborators X} (R : FleetDb X -> FleetDb X -> Prop) `{!FleetStep R}.

Lemma gives_weaken {A} (m : Fleet X A) (Q Q' : A -> Prop) : Gives R m Q -> (forall a, Q a -> Q' a) -> Gives R m Q'.
Proof. intros H HQ G HG Hi. eapply spec_weaken; [apply H; assumption | exact HQ]. Qed.

Lemma gives_keeps {A} (m : Fleet X A) Q : Gives R m Q -> Keeps R m.
Proof. intros H. apply (gives_weaken _ _ _ H). auto. Qed.

Lemma gives_ret {A} (a : A) (Q : A -> Prop) : Q a -> Gives R (ret a) Q.
Proof. intros H G HG Hi. apply spec_ret; assumption. Qed.
Lemma keeps_ret {A} (a : A) : Keeps R (ret a).
Proof. apply gives_ret. exact I. Qed.
Lemma gives_throw {A} e (Q : A -> Prop) : Gives R (throw e) Q.
Proof. intros G HG Hi. apply spec_throw. assumption. Qed.
Lemma keeps_throw {A} e : Keeps R (throw e : Fleet X A).
Proof. apply gives_throw. Qed.
Lemma keeps_now : Keeps R (now : Fleet X Z).
Proof. intros G HG Hi. apply guar_now. assumption. Qed.
Lemma keeps_lift {A} (r : OrchError + A) : Keeps R (lift r : Fleet X A).
Proof. intros G HG Hi. apply guar_lift. assumption. Qed.

Lemma gives_bind {A B} (m : Fleet X A) (k : A -> Fleet X B) Q Q' :
  Gives R m Q -> (forall a, Q a -> Gives R (k a) Q') -> Gives R (bind m k) Q'.
Proof. intros Hm Hk G HG Hi. eapply spec_bind; [assumption | apply Hm; assumption | intros a Ha; apply Hk; assumption]. Qed.

(** A first part whose result does not matter. *)
Lemma keeps_bind {A B} (m : Fleet X A) (k : A -> Fleet X B) Q' :
  Keeps R m -> (forall a, Gives R (k a) Q') -> Gives R (bind m k) Q'.
Proof. intros Hm Hk. eapply gives_bind; [exact Hm | intros a _; apply Hk]. Qed.

Lemma gives_catch {A} (m : Fleet X A) h Q : Gives R m Q -> (forall e, Gives R (h e) Q) -> Gives R (catch m h) Q.
Proof. intros Hm Hh G HG Hi. apply guar_catch; [assumption | apply Hm; assumption | intros e; apply Hh; assumption]. Qed.
Lemma keeps_attempt (m : Fleet X unit) : Keeps R m -> Keeps R (attempt m).
Proof. intros Hm. apply gives_catch; [exact Hm | intros; apply keeps_ret]. Qed.

Lemma keeps_forM {A} (l : list A) (f : A -> Fleet X unit) : (forall a, In a l -> Keeps R (f a)) -> Keeps R (forM l f).
Proof. intros Hf G HG Hi. apply guar_forM; [assumption|]. intros a Ha. apply Hf; assumption. Qed.

Lemma gives_foldM {A B} (f : B -> A -> Fleet X B) (Q : B -> Prop) l :
  (forall b a, In a l -> Q b -> Gives R (f b a) Q) -> forall b, Q b -> Gives R (foldM f b l) Q.
Proof. intros Hf b Hb G HG Hi. apply spec_foldM; [assumption | | exact Hb]. intros b' a Ha Hb'. apply Hf; assumption. Qed.

Lemma gives_traverse {A B} (f : A -> Fleet X B) (Q : A -> B -> Prop) l :
  (forall a, In a l -> Gives R (f a) (Q a)) -> Gives R (traverse f l) (Forall2 Q l).
Proof.
  induction l as [|a l IH]; intros Hf; simpl; [apply gives_ret; constructor|].
  eapply gives_bind; [apply Hf; left; reflexivity|]. intros b Hb.
  eapply gives_bind; [apply IH; intros; apply Hf; right; assumption|]. intros bs Hbs.
  apply gives_ret. constructor; assumption.
Qed.

Lemma keeps_atomic {A} (op : FleetDb X -> (OrchError + A) * FleetDb X) (Q : A -> Prop) :
  (forall d, R d (op d).2 /\ forall a, (op d).1 = inr a -> Q a) -> Gives R (atomic op) Q.
Proof.
  intros Hop G HG Hi. apply spec_atomic; [assumption|]. intros d _. destruct (Hop d) as [Hr HQ].
  split; [exact I|]. split; [apply Hi; exact Hr|]. destruct (op d).1; [exact I | apply HQ; reflexivity].
Qed.

Lemma keeps_ext {A} (op : Ext X A) : Keeps R (ext op).
Proof. apply keeps_atomic. intros d. split; [|auto]. destruct (op (fd_x d)). apply fs_ext. Qed.
Lemma keeps_ext' {A} (op : X -> A * X) : Keeps R (ext' op).
Proof. apply keeps_ext. Qed.

Lemma fs_idle d : R d d.
Proof. apply (fs_after (fd_x d)). destruct d. apply (fs_ext _ (mkFleetDb _ _ _ _ _ _ _ _ _ _)). Qed.

Lemma keeps_query {A} (q : FleetDb X -> A) : Keeps R (query q).
Proof. apply keeps_atomic. intros d. split; [apply fs_idle | auto]. Qed.
Lemma keeps_readMem {A} (f : Memory -> A) : Keeps R (readMem f).
Proof. apply keeps_query. Qed.

Lemma keeps_writeMem (f : Memory -> Memory) : (forall d, R d (setMem (f (fd_mem d)) d)) -> Keeps R (writeMem f).
Proof. intros H. apply keeps_atomic. intros d. split; [apply H | auto]. Qed.

Lemma gives_statement {A} (f : FleetDb X -> (OrchError + A) * FleetDb X) (Q : A -> Prop) :
  (forall d, R d (f d).2 /\ forall a, (f d).1 = inr a -> Q a) -> Gives R (statement f) Q.
Proof.
  intros Hf. apply keeps_atomic. intros d. destruct (db_next (fd_x d)) as [o x].
  destruct (Hf (setX x d)) as [Hr HQ]. destruct o; simpl.
  - split; [apply (fs_after x); exact Hr | exact HQ].
  - split; [apply fs_ext | discriminate].
  - split; [apply (fs_after x); exact Hr | discriminate].
Qed.

Lemma keeps_onRows {A} (f : list Row -> (OrchError + A) * list Row) :
  (forall d, R d (setRows (f (fd_rows d)).2 d)) -> Keeps R (onRows f).
Proof. intros Hf. apply gives_statement. intros d. split; [|auto]. specialize (Hf d). destruct (f (fd_rows d)). exact Hf. Qed.

Lemma gives_onRows_read {A} (f : list Row -> OrchError + A) :
  Gives R (onRows (fun l => (f l, l))) (fun a => exists rows, f rows = inr a).
Proof.
  apply gives_statement. intros d. split.
  - apply (fs_after (fd_x d)). destruct d. apply (fs_ext _ (mkFleetDb _ _ _ _ _ _ _ _ _ _)).
  - simpl. eauto.
Qed.

Lemma gives_readRows {A} (f : list Row -> A) : Gives R (readRows f) (fun a => exists rows, a = f rows).
Proof.
  eapply gives_weaken; [apply (gives_onRows_read (fun l => inr (f l)))|].
  intros a (rows & [= <-]). eauto.
Qed.
Lemma keeps_readRows {A} (f : list Row -> A) : Keeps R (readRows f).
Proof. apply (gives_keeps _ _ (gives_readRows f)). Qed.

Lemma keeps_host cfg hostId : Keeps R (host cfg hostId : Fleet X HostRuntime).
Proof. apply keeps_lift. Qed.

Lemma keeps_findInstance cfg id : Keeps R (findInstance cfg id : Fleet X (option Instance_)).
Proof. apply (gives_keeps _ _ (gives_onRows_read (fun l => findById (ac_managedHostIds cfg) id l))). Qed.
End Rules.

#[export] Hint Resolve keeps_ret keeps_throw keeps_now keeps_lift keeps_ext keeps_ext' keeps_query keeps_readMem
  keeps_readRows keeps_host keeps_findInstance : keeps.

(** One rule of the program's structure; leaves come from the database. *)
Ltac keeps_step :=
  match goal with
  | |- Gives _ (bind _ _) _ => apply keeps_bind; [| intros ?]
  | |- Gives _ (catch _ _) _ => apply gives_catch; [| intros ?]
  | |- Gives _ (attempt _) _ => apply gives_catch; [| intros ?]
  | |- Gives _ (match ?x with _ => _ end) _ => destruct x eqn:?
  | |- Gives _ (let _ := _ in _) _ => cbv zeta
  | |- Keeps _ _ => unfold Keeps
  end.
Ltac keeps_leaf :=
  try match goal with |- Gives ?R ?m (fun _ => True) => change (Keeps R m) end;
  solve [eauto with keeps typeclass_instances nocore | apply gives_throw].
Ltac keeps := repeat first [ keeps_leaf | keeps_step ].

(** ** A request that runs alone

    A request that runs alone, with a database that answers: what its writes make of
    one bot's row. *)
Section Alone.
Context {X : Type} `{!ContainerRuntime X, !AgentAdapter X, !Collaborators X} (cfg : AppConfig).
Context (db_answers : forall x : X, (db_next x).1 = St_done) (id : string).
Abbreviation W := (World (FleetDb X) unit).

Lemma run_statement {A} (f : FleetDb X -> (OrchError + A) * FleetDb X) (w : W) :
  w_env w = [] -> exists x,
  statement f w = ((f (setX x (w_db w))).1, mkWorld (f (setX x (w_db w))).2 [] (w_now w) (w_calls w)).
Proof.
  intros E. unfold statement, atomic. rewrite E.
  pose proof (db_answers (fd_x (w_db w))) as H. destruct (db_next (fd_x (w_db w))) as [o x]. simpl in H. subst o.
  exists x. destruct (f (setX x (w_db w))) as [r d]. reflexivity.
Qed.

Lemma run_onRows {A} (f : list Row -> (OrchError + A) * list Row) (w : W) :
  w_env w = [] -> exists x,
  onRows f w = ((f (fd_rows (w_db w))).1,
    mkWorld (setRows (f (fd_rows (w_db w))).2 (setX x (w_db w))) [] (w_now w) (w_calls w)).
Proof.
  intros E. destruct (run_statement (fun d => let '(r, l) := f (fd_rows d) in (r, setRows l d)) w E) as (x & H).
  exists x. unfold onRows. rewrite H. simpl. destruct (f (fd_rows (w_db w))) as [r l]. reflexivity.
Qed.

(** The bot's row, in a world where nothing else happens. *)
Record AtRest (w : W) (i : FleetInstance) : Prop := mkAtRest {
  se_env : w_env w = [];
  se_row : rowOf id (w_db w) = Some i;
  se_ports : portIndexOk (fd_rows (w_db w)) = true;
  se_ids : NoDup (List.map (fun r : Row => fi_id r) (fd_rows (w_db w)));
}.

Lemma settled_id w i : AtRest w i -> fi_id i = id.
Proof.
  intros [_ Hr _ _]. unfold rowOf in Hr. destruct (List.find _ _) as [r|] eqn:E; [|discriminate].
  injection Hr as <-. destruct (find_some _ _ E) as [_ H]. apply str_eqb_eq in H. exact H.
Qed.

(** The bot has one row. *)
Lemma settled_only w i (r : Row) : AtRest w i -> In r (fd_rows (w_db w)) -> isRow id r = true -> ro_fleet r = i.
Proof.
  intros [_ Hr _ Hids] Hin Hrow. unfold rowOf in Hr. clear -Hr Hids Hin Hrow.
  induction (fd_rows (w_db w)) as [|r0 l IH]; [destruct Hin|]. simpl in *. apply NoDup_cons in Hids as [Hnot Hids].
  destruct (isRow id r0) eqn:E.
  - injection Hr as <-. destruct Hin as [->|Hin]; [reflexivity|]. exfalso. apply Hnot.
    unfold isRow in *. apply str_eqb_eq in E, Hrow. rewrite E, <- Hrow. apply list_elem_of_In.
    apply (in_map (fun r : Row => fi_id r)). exact Hin.
  - destruct Hin as [->|Hin]; [congruence | apply IH; assumption].
Qed.

(** A write that gives a row no new place in the port index. *)
Definition holdsPort (set : list Assign) (i : FleetInstance) : Prop :=
  fi_hostId (applySet set i) = fi_hostId i /\ fi_gatewayPort (applySet set i) = fi_gatewayPort i /\
  (inIndex (applySet set i) = true -> inIndex i = true).

Lemma ports_held (p : FleetInstance -> bool) set rows :
  (forall r : Row, In r rows -> p r = true -> holdsPort set r) -> portIndexOk rows = true ->
  portIndexOk (update_where (fun r : Row => p r) (setRow set) rows) = true.
Proof.
  unfold portIndexOk. intros Hp Hok. apply bool_decide_eq_true in Hok. apply bool_decide_eq_true.
  enough (H : sublist (portKeys (update_where (fun r : Row => p r) (setRow set) rows)) (portKeys rows)).
  { eapply sublist_NoDup; eassumption. }
  clear Hok. unfold portKeys. induction rows as [|r l IH]; simpl; [constructor|].
  assert (IH' := IH (fun r' H' => Hp r' (or_intror H'))). destruct (p r) eqn:E.
  - destruct (Hp _ (or_introl eq_refl) E) as (H1 & H2 & H3). simpl. destruct (inIndex (applySet set r)) eqn:Ei; simpl.
    + rewrite (H3 eq_refl), H1, H2. simpl. constructor. exact IH'.
    + destruct (inIndex r); simpl; [constructor|]; exact IH'.
  - destruct (inIndex r); simpl; [constructor|]; exact IH'.
Qed.

(** A write to the bot's row. *)
Lemma settled_rows (p : FleetInstance -> bool) set w i :
  AtRest w i -> (forall j, p j = true -> isRow id j = true) -> p i = true -> holdsPort set i ->
  updateRows p set (fd_rows (w_db w)) = (inr true, update_where (fun r : Row => p r) (setRow set) (fd_rows (w_db w))) /\
  forall x, AtRest (mkWorld (setRows (update_where (fun r : Row => p r) (setRow set) (fd_rows (w_db w))) (setX x (w_db w)))
                    [] (w_now w) (w_calls w)) (applySet set i).
Proof.
  intros Hs Hid Hpi Hh. pose proof Hs as [He Hr Hports Hids].
  assert (Hports' : portIndexOk (update_where (fun r : Row => p r) (setRow set) (fd_rows (w_db w))) = true).
  { apply ports_held; [|exact Hports]. intros r Hin Hpr. rewrite (settled_only w i r Hs Hin (Hid _ Hpr)). exact Hh. }
  unfold rowOf in Hr. destruct (List.find _ (fd_rows (w_db w))) as [r|] eqn:Er; [|discriminate]. injection Hr as Hri.
  split.
  - unfold updateRows. rewrite Hports'. f_equal. f_equal. apply existsb_exists. exists r.
    split; [apply (find_some _ _ Er) | rewrite Hri; exact Hpi].
  - intros x. constructor; [reflexivity | | exact Hports' | simpl; rewrite updated_ids; exact Hids].
    unfold rowOf. simpl. rewrite updated_find, Er. simpl. rewrite Hri, Hpi. simpl. rewrite Hri. reflexivity.
Qed.

Lemma settled_update (p : FleetInstance -> bool) set w i :
  AtRest w i -> (forall j, p j = true -> isRow id j = true) -> p i = true -> holdsPort set i ->
  exists w', onRows (updateRows p set) w = (inr true, w') /\ AtRest w' (applySet set i) /\
    w_now w' = w_now w /\ fd_mem (w_db w') = fd_mem (w_db w) /\ fd_events (w_db w') = fd_events (w_db w).
Proof.
  intros Hs Hid Hpi Hh. destruct (run_onRows (updateRows p set) w (se_env _ _ Hs)) as (x & Hrun).
  destruct (settled_rows p set w i Hs Hid Hpi Hh) as [E Hs']. rewrite E in Hrun.
  eexists. split; [exact Hrun|]. split; [apply Hs' | auto].
Qed.

Lemma applySet_status now s msg i :
  fi_hostId (applySet (statusSet now s msg) i) = fi_hostId i /\
  fi_gatewayPort (applySet (statusSet now s msg) i) = fi_gatewayPort i /\
  fi_status (applySet (statusSet now s msg) i) = s.
Proof. unfold statusSet. destruct s, msg; repeat split; reflexivity. Qed.

(** An unconditional status, of a row that has its place in the index or gives it up. *)
Lemma settled_status w i s msg :
  AtRest w i -> owned (ac_managedHostIds cfg) i = true ->
  (negb (oneOf [I_destroyed; I_error] s) = true -> inIndex i = true) ->
  exists w', setStatus cfg id s None msg w = (inr true, w') /\
    AtRest w' (applySet (statusSet (w_now w) s msg) i) /\
    w_now w' = w_now w /\ fd_mem (w_db w') = fd_mem (w_db w) /\ fd_events (w_db w') = fd_events (w_db w).
Proof.
  intros Hs Ho Hin. pose (p := fun j => ownedRow (ac_managedHostIds cfg) id j && expects None j).
  assert (Hp : p i = true).
  { unfold p, ownedRow, isRow. rewrite (settled_id _ _ Hs), str_eqb_refl, Ho. reflexivity. }
  assert (Hid : forall j, p j = true -> isRow id j = true).
  { intros j Hj. unfold p, ownedRow in Hj. bools. assumption. }
  assert (Hh : holdsPort (statusSet (w_now w) s msg) i).
  { destruct (applySet_status (w_now w) s msg i) as (H1 & H2 & H3). split; [exact H1|]. split; [exact H2|].
    unfold inIndex at 1. rewrite H3. exact Hin. }
  unfold setStatus. destruct (oneOf [I_running; I_stopped] s).
  - unfold promotion. rewrite (bind_ok now _ w (w_now w) w) by reflexivity.
    match goal with |- context [statement ?f w] => destruct (run_statement f w (se_env _ _ Hs)) as (x & Hrun) end.
    destruct (settled_rows p _ w i Hs Hid Hp Hh) as [E Hs']. cbv zeta in Hrun.
    unfold updateStatus in Hrun. cbn [fd_rows setX] in Hrun. fold p in Hrun. rewrite E in Hrun.
    eexists. split; [exact Hrun|]. split; [|auto]. destruct (Hs' x) as [H1 H2 H3 H4]. constructor; assumption.
  - rewrite (bind_ok now _ w (w_now w) w) by reflexivity. apply (settled_update p _ w i Hs Hid Hp Hh).
Qed.
End Alone.

(** ** A concrete fleet

    Concrete implementations of the orchestrator's interfaces, for examples. *)
(** ** Two hosts to try it on

    The state of the outside: whether a container on host b boots, what becomes of
    the coming statements (then all are done), and the calls that matter. *)
Record Sim := mkSim { sm_boots : bool; sm_db : list StatementOutcome; sm_log : list string }.

Definition simLog (s : string) (x : Sim) : Sim := mkSim (sm_boots x) (sm_db x) (sm_log x ++ [s]).
Definition ok {A} (a : A) (x : Sim) : (OrchError + A) * Sim := (inr a, x).
Definition logged {A} (s : string) (a : A) (x : Sim) : (OrchError + A) * Sim := (inr a, simLog s x).

#[export] Instance simRuntime : ContainerRuntime Sim := {
  gate_check h x := (true, x);
  rt_ensureImagePresent h i := ok tt;
  rt_ensureVolumeExists h v := ok tt;
  rt_hasVolume h v := ok (str_eqb h "a");
  rt_removeVolume h v := logged ("removeVolume " +:+ h) tt;
  rt_create h i p b := ok ("new on " +:+ h);
  rt_start h c x := if str_eqb h "b" && negb (sm_boots x) then (inl (PlainError "cannot boot"), x)
                    else logged ("start on " +:+ h) tt x;
  rt_stop h c := ok tt;
  rt_restart h c := ok tt;
  rt_remove h c := ok tt;
  rt_findContainerByName h n := ok None;
  rt_containerState h c := ok (Some (mkContainerState (str_eqb h "a") false CH_healthy
                              (if str_eqb h "a" then Some 0 else None)));
  rt_isRunning h c := ok (str_eqb h "a");
  rt_waitForHealthy h c := ok true;
}.

#[export] Instance simAdapter : AgentAdapter Sim := {
  ad_image k := "image";
  ad_internalPort k := 18789;
  ad_maxBackupBytes k := 1000000;
  ad_containerName k i := "bot-" +:+ i;
  ad_stateVolumeName k i := "state-" +:+ i;
  ad_writeConfig h c i := ok tt;
  ad_applyConfig h c i := ok Out_applied;
  ad_seedWorkspace h c i := ok tt;
  ad_prepareState h i := ok tt;
  ad_isOnCurrentImage h c := ok true;
  ad_verify h c i := ok [];
  ad_exportVolume h c := ok (mkArchive 100 None "tar");
  ad_importVolume h c a := logged ("import on " +:+ h) tt;
  ad_restoreState h c a := ok tt;
  ad_probeGateway h i u := ok (mkGatewayLiveness true None);
  ad_probeWhatsapp h i u := ok Wl_connected;
}.

Definition simNext (x : Sim) : StatementOutcome * Sim :=
  match sm_db x with
  | [] => (St_done, x)
  | o :: l => (o, mkSim (sm_boots x) l (sm_log x))
  end.

Definition simCollaborators (next : Sim -> StatementOutcome * Sim) : Collaborators Sim := {|
  db_next := next;
  randomUUID x := ("new-bot", x);
  randomToken x := ("token", x);
  llm_provisionProvider i u n x := (inl (PlainError "no gateway"), x);
  llm_updateBudget i b := ok tt;
  llm_revoke i := ok tt;
  llm_revokeKey k := ok tt;
  moves_configured := true;
  moves_upload n a := ok (ar_contentLength a);
  moves_open n m := ok (mkArchive 100 None "tar");
  moves_delete n := ok tt;
  moves_deletePrefix p := ok tt;
  backups_configured := false;
  backups_open n m := ok (mkArchive 100 None "tar");
  backups_delete n := ok tt;
  pairing_logoutWhatsapp i c := ok true;
  pairing_teardownSidecar i := ok tt;
  pairing_cancel i := ok tt;
  telegram_replaceToken b := ok tt;
  integrations_revokeAll i := ok tt;
|}.

Definition simHost (hostId : string) : HostRuntime := mkHost hostId None RP_unless_stopped true (Some 65536) Host_active.
Definition simConfig : AppConfig :=
  mkAppConfig 3 5 Openclaw false "30d" 86400000 20000 20010 [simHost "a"; simHost "b"] ["a"; "b"]
    (mkPlacementConfig (QArith_base.Qmake 1 1) 0) (mkUsage (fun _ => QArith_base.Qmake 0 1) (fun _ => true)).

Definition simBotConfig : InstanceConfig :=
  mkInstanceConfig "Bot" (mkProviderConfig Llm_litellm None "key" "model" None None None None) []
    DEFAULT_RESOURCE_LIMITS None.

Definition emptyTables : CloudDb := mkCloudDb 1 [] [] [] [] [].

(** A bot on a host. *)
Definition simRow (hostId : string) (status : InstanceStatus) (container from object : option string) : Row :=
  mkRow (mkFleet "bot" "user" hostId Openclaw "Bot" status container "bot-bot" 20000 0 None P_none None None false None
           (mkBackupImport BI_none None None None) (mkLiteLlm None None None None)
           from object (match from with Some _ => Some 0 | None => None end) None 0 0 None None)
    (inr (simBotConfig, "token")).

Definition simWorld (row : Row) (promoted : list string) (boots : bool) (statements : list StatementOutcome)
  : World (FleetDb Sim) unit :=
  mkWorld (mkFleetDb [row] [] [] [] promoted [] emptyTables [] emptyMemory (mkSim boots statements [])) [] 100 [].
