(* ===== verification/MoveSafety.v ===== *)
(** No operation of the manager but a destroy asks for the removal of the state
    volume a bot lives on. *)
From S2P Require Import Prelude AutoRestart Fleet Hosts FleetStore FleetWorld InstanceManager FleetLogic FleetGuar.
From stdpp Require Import list strings.
#[local] Open Scope Z_scope.

Create HintDb quiet discriminated.
Create HintDb safe discriminated.

Section Quiets.
Context {X : Type} `{!ContainerRuntime X, !AgentAdapter X, !Collaborators X} (cfg : AppConfig) (id : string).
Hypothesis db_answers : forall x, (db_next x).1 = St_done.

Local Abbreviation Quiet := (FleetLogic.Quiet (X := X) (ac_managedHostIds cfg) id).

Local Hint Resolve quiet_ret quiet_throw quiet_now quiet_lift quiet_query quiet_ext quiet_ext' quiet_append
  quiet_readRows : quiet.

Ltac quiet :=
  repeat first
    [ solve [eauto 2 with quiet nocore]
    | match goal with
      | |- FleetLogic.Quiet _ _ (bind _ _) => apply quiet_bind; [|intros ?]
      | |- FleetLogic.Quiet _ _ (catch _ _) => apply quiet_catch; [|intros ?]
      | |- FleetLogic.Quiet _ _ (attempt _) => apply quiet_attempt
      | |- FleetLogic.Quiet _ _ (finally _ _) => apply quiet_finally
      | |- FleetLogic.Quiet _ _ (match ?x with _ => _ end) => destruct x
      | |- FleetLogic.Quiet _ _ (let _ := _ in _) => cbv zeta
      end ].

Lemma quiet_host h : Quiet (host cfg h).
Proof. unfold host. quiet. Qed.
Local Hint Resolve quiet_host : quiet.

Lemma quiet_managedHostOf h : Quiet (managedHostOf cfg h).
Proof. unfold managedHostOf. quiet. Qed.
Local Hint Resolve quiet_managedHostOf : quiet.

Lemma quiet_findInstance i : Quiet (findInstance cfg i).
Proof. apply quiet_statement; [exact db_answers|]. intros d. repeat split. Qed.
Local Hint Resolve quiet_findInstance : quiet.

Lemma quiet_requireInstance i : Quiet (requireInstance cfg i).
Proof. unfold requireInstance. quiet. Qed.
Local Hint Resolve quiet_requireInstance : quiet.

Lemma quiet_requireOwnedInstance i u : Quiet (requireOwnedInstance cfg i u).
Proof. unfold requireOwnedInstance. quiet. Qed.
Local Hint Resolve quiet_requireOwnedInstance : quiet.

Lemma quiet_setContainerId i c : Quiet (setContainerId cfg i c).
Proof. unfold setContainerId. quiet. apply quiet_light; auto. Qed.
Local Hint Resolve quiet_setContainerId : quiet.

Lemma quiet_setPairing i p : Quiet (setPairing cfg i p).
Proof.
  unfold setPairing, updatePairing. quiet. apply quiet_light; auto.
  destruct p as [[] [] [] [] []]; reflexivity.
Qed.
Local Hint Resolve quiet_setPairing : quiet.

Lemma quiet_writeConfigRow i c : Quiet (writeConfigRow cfg i c).
Proof.
  unfold writeConfigRow. quiet. apply quiet_alike; [exact db_answers|]. intros rows. unfold updateConfig_tx. cbv zeta.
  set (rows1 := update_where _ (withConfig c) rows).
  assert (H1 : Forall2 alike rows rows1).
  { apply alike_update. intros r. unfold alike, withConfig. simpl. destruct (ro_settings r) as [?|[? ?]]; repeat split. }
  pose proof (alike_light (fun j => ownedRow (ac_managedHostIds cfg) i j && negb (str_eqb (fi_displayName j) (ic_displayName c)))
    [A_displayName (ic_displayName c); A_updatedAt a] rows1 eq_refl) as H2.
  destruct (updateRows _ _ rows1) as [[e|b] rows']; simpl in *; [apply alike_all_refl | eapply alike_trans; eassumption].
Qed.
Local Hint Resolve quiet_writeConfigRow : quiet.

Lemma quiet_existingContainerId i : Quiet (existingContainerId cfg i).
Proof. unfold existingContainerId. quiet. Qed.
Local Hint Resolve quiet_existingContainerId : quiet.

Lemma quiet_resolveContainerId i : Quiet (resolveContainerId cfg i).
Proof. unfold resolveContainerId. quiet. Qed.
Local Hint Resolve quiet_resolveContainerId : quiet.

Lemma quiet_seedWorkspace i c : Quiet (seedWorkspace cfg i c).
Proof. unfold seedWorkspace. quiet. Qed.
Local Hint Resolve quiet_seedWorkspace : quiet.

Lemma quiet_refreshRuntimeConfig i : Quiet (refreshRuntimeConfig cfg i).
Proof. unfold refreshRuntimeConfig. quiet. Qed.
Local Hint Resolve quiet_refreshRuntimeConfig : quiet.

Lemma quiet_ensureContainerExists i : Quiet (ensureContainerExists cfg i).
Proof. unfold ensureContainerExists, findOrCreateContainer. quiet. Qed.
Local Hint Resolve quiet_ensureContainerExists : quiet.

Lemma quiet_ensureContainerStarted i c : Quiet (ensureContainerStarted i c).
Proof. unfold ensureContainerStarted. quiet. Qed.
Local Hint Resolve quiet_ensureContainerStarted : quiet.

Lemma quiet_restartContainer i c : Quiet (restartContainer cfg i c).
Proof. unfold restartContainer. quiet. Qed.
Local Hint Resolve quiet_restartContainer : quiet.

Lemma quiet_restoreAgentBackup i c : Quiet (restoreAgentBackup cfg i c).
Proof. unfold restoreAgentBackup, INVALID. quiet. apply quiet_light; auto. Qed.
Local Hint Resolve quiet_restoreAgentBackup : quiet.

Lemma quiet_importIfMoved i c : Quiet (importIfMoved cfg i c).
Proof. unfold importIfMoved, restoreMovedVolume. quiet. apply quiet_light; auto. Qed.
Local Hint Resolve quiet_importIfMoved : quiet.

Lemma quiet_allocatePort h : Quiet (allocatePort cfg h).
Proof.
  unfold allocatePort. quiet. apply quiet_atomic. intros d. unfold pickPort.
  destruct (List.find _ _); repeat split.
Qed.
Local Hint Resolve quiet_allocatePort : quiet.

Lemma quiet_releasePort h p : Quiet (releasePort h p).
Proof. apply quiet_atomic. intros d. repeat split. Qed.
Local Hint Resolve quiet_releasePort : quiet.

Lemma quiet_placementAssertFits h m : Quiet (placementAssertFits cfg h m).
Proof.
  unfold placementAssertFits. quiet. apply quiet_atomic. intros d. destruct (assertFits _ _ _ _ _ _ _). repeat split.
Qed.
Local Hint Resolve quiet_placementAssertFits : quiet.

Lemma quiet_newIntegrationsBinding : Quiet (newIntegrationsBinding cfg).
Proof. unfold newIntegrationsBinding. quiet. Qed.
Local Hint Resolve quiet_newIntegrationsBinding : quiet.

Lemma quiet_recreateContainer i : Quiet (recreateContainer cfg i).
Proof. unfold recreateContainer, ensureIntegrationsBinding, snapshotBeforeMigration. quiet. Qed.
Local Hint Resolve quiet_recreateContainer : quiet.

Lemma quiet_containerForBoot i : Quiet (containerForBoot cfg i).
Proof. unfold containerForBoot. quiet. Qed.
Local Hint Resolve quiet_containerForBoot : quiet.

Lemma quiet_gatewayAnswers i : Quiet (gatewayAnswers cfg i).
Proof. unfold gatewayAnswers. quiet. Qed.
Local Hint Resolve quiet_gatewayAnswers : quiet.

Lemma quiet_applyConfigLocked i u p : Quiet (applyConfigLocked cfg i u p).
Proof. unfold applyConfigLocked. quiet. Qed.
Local Hint Resolve quiet_applyConfigLocked : quiet.

(** ** Reading the bot's row *)
Local Abbreviation T := (FleetLogic.T (X := X) (ac_managedHostIds cfg) id).
Local Abbreviation Safe := (FleetLogic.Safe (X := X) (ac_managedHostIds cfg) id).
Local Abbreviation view := (FleetLogic.view (X := X) (ac_managedHostIds cfg) id).

Definition Reads (inst : FleetInstance) (v : option View) : Prop :=
  exists vv, v = Some vv /\ v_host vv = fi_hostId inst /\ v_from vv = fi_movedFromHostId inst /\
    v_obj vv = fi_moveObjectName inst /\ v_prov vv = bool_decide (fi_status inst = I_provisioning) /\
    v_dead vv = bool_decide (fi_status inst = I_destroyed) /\ v_ok vv = true /\ fi_id inst = id.

(** The owned row of the bot is its row. *)
Lemma find_owned (d : FleetDb X) r :
  FleetLogic.Inv d -> List.find (fun r : Row => ownedRow (ac_managedHostIds cfg) id r) (fd_rows d) = Some r ->
  findRow id d = Some r /\ owned (ac_managedHostIds cfg) r = true /\ fi_id r = id.
Proof.
  intros (Hnd & _ & _) H. unfold findRow. apply List.find_some in H as [Hin Hr]. unfold ownedRow in Hr.
  apply andb_prop in Hr as [Hid Ho]. split; [|split; [exact Ho | apply str_eqb_eq; exact Hid]].
  destruct (List.find (fun r : Row => isRow id r) (fd_rows d)) as [r'|] eqn:E.
  - apply List.find_some in E as [Hin' Hr']. f_equal.
    apply (NoDup_key_inj (fun r : Row => fi_id r) (fd_rows d)); auto. unfold isRow in *. bools. congruence.
  - pose proof (find_none _ _ E r Hin) as Hn. simpl in Hn. congruence.
Qed.

Lemma view_found (d : FleetDb X) r :
  findRow id d = Some r -> view d = Some (viewOf (ac_managedHostIds cfg) (isPromoted id d) r).
Proof. unfold FleetLogic.view. intros ->. reflexivity. Qed.

Lemma t_findInstance (P : option View -> Prop) :
  T P (findInstance cfg id)
    (fun r v => P v /\ match r with inr (Some inst) => Reads inst v | _ => True end).
Proof.
  unfold findInstance. apply t_statement; [exact db_answers|]. intros d Hi Hp. simpl.
  split; [destruct d; exact Hi|]. split; [apply logStep_refl; reflexivity|].
  replace (view (setRows (fd_rows d) d)) with (view d) by (destruct d; reflexivity). split; [exact Hp|].
  unfold findById. destruct (List.find _ (fd_rows d)) as [r|] eqn:E; [|exact I].
  destruct (find_owned d r Hi E) as (Ef & Ho & Eid). unfold toDomain.
  destruct (ro_settings r) as [c|[c t]] eqn:Es; [exact I|].
  rewrite (view_found d r Ef). eexists. split; [reflexivity|]. simpl. rewrite Ho, Es. auto 10.
Qed.

Lemma t_requireInstance (P : option View -> Prop) :
  T P (requireInstance cfg id)
    (fun r v => P v /\ match r with inr inst => Reads inst v /\ fi_status inst <> I_destroyed | inl _ => True end).
Proof.
  unfold requireInstance. eapply t_bind; [apply t_findInstance | | intros e v [H _]; auto].
  intros [inst|]; [case_bool_decide|]; first [apply t_throw | apply t_ret]; intros v [Hp Hr]; auto.
Qed.

Lemma t_requireOwnedInstance u (P : option View -> Prop) :
  T P (requireOwnedInstance cfg id u)
    (fun r v => P v /\ match r with inr inst => Reads inst v /\ fi_status inst <> I_destroyed | inl _ => True end).
Proof.
  unfold requireOwnedInstance. eapply t_bind; [apply t_requireInstance | | intros e v [H _]; auto].
  intros inst. destruct (str_eqb _ _); first [apply t_throw | apply t_ret]; intros v [Hp Hr]; auto.
Qed.

(** A live row that can be read is read. *)
Lemma t_requireInstance_live (P : option View -> Prop) :
  (forall v, P v -> exists vv, v = Some vv /\ v_ok vv = true /\ v_dead vv = false) ->
  T P (requireInstance cfg id) (fun r v => P v /\ match r with inl _ => False | inr _ => True end).
Proof.
  intros HP. unfold requireInstance. eapply t_bind.
  - unfold findInstance. apply (t_statement _ _ db_answers _ _
      (fun (r : OrchError + option Instance_) v => P v /\ match r with inr (Some inst) => Reads inst v | _ => False end)).
    intros d Hi Hp. simpl. split; [destruct d; exact Hi|]. split; [apply logStep_refl; reflexivity|].
    replace (view (setRows (fd_rows d) d)) with (view d) by (destruct d; reflexivity). split; [exact Hp|].
    destruct (HP _ Hp) as (vv & Ev & Hok & Hdead). unfold FleetLogic.view in Ev.
    destruct (findRow id d) as [r|] eqn:Ef; [|discriminate]. simpl in Ev. injection Ev as <-.
    simpl in Hok, Hdead. apply andb_prop in Hok as [Ho Hs].
    pose proof Ef as Ef'. unfold findRow in Ef'. apply List.find_some in Ef' as [Hin Hid].
    unfold findById. destruct (List.find _ (fd_rows d)) as [r'|] eqn:E.
    + destruct (find_owned d r' Hi E) as (Ef2 & Ho' & Eid). rewrite Ef in Ef2. injection Ef2 as <-.
      unfold toDomain. destruct (ro_settings r) as [c|[c t]] eqn:Es; [discriminate|].
      rewrite (view_found d r Ef). eexists. split; [reflexivity|]. simpl. rewrite Ho', Es. auto 10.
    + pose proof (find_none _ _ E r Hin) as Hn. unfold ownedRow in Hn. simpl in Hn. rewrite Hid, Ho in Hn. discriminate.
  - intros [inst|]; [|apply t_throw; intros v [_ []]]. case_bool_decide as Hd.
    + apply t_throw. intros v [Hp (vv & -> & _ & _ & _ & _ & Hvd & _)]. destruct (HP _ Hp) as (vv' & [= <-] & _ & Hvd').
      rewrite Hvd' in Hvd. symmetry in Hvd. apply bool_decide_eq_false_1 in Hvd. contradiction.
    + apply t_ret. intros v [Hp _]. auto.
  - intros e v [Hp []].
Qed.

(** ** Writing its status *)
Lemma statusSet_effect t s m (i : FleetInstance) :
  let j := applySet (statusSet t s m) i in
  fi_id j = fi_id i /\ fi_hostId j = fi_hostId i /\ fi_movedFromHostId j = fi_movedFromHostId i /\
  fi_moveObjectName j = fi_moveObjectName i /\ fi_status j = s.
Proof. destruct s, m; repeat split. Qed.

(** The row says the same about where the bot's state is, but for its status; its
    promotion may be noted. *)
Definition samePlace (v v' : option View) : Prop :=
  match v, v' with
  | Some a, Some b =>
      v_host b = v_host a /\ v_from b = v_from a /\ v_obj b = v_obj a /\ v_ok b = v_ok a
  | None, None => True
  | _, _ => False
  end.

Definition promotedOf (v : option View) : bool := match v with Some a => v_promoted a | None => false end.

(** After a status write of some sort: [s] is the status, when it was written. *)
Lemma status_write (d d' : FleetDb X) (q : Row -> bool) set s (b : bool) :
  FleetLogic.Inv d -> s <> I_provisioning ->
  (forall i : FleetInstance, let j := applySet set i in
     fi_hostId j = fi_hostId i /\ fi_movedFromHostId j = fi_movedFromHostId i /\ fi_status j = s /\
     (fi_moveObjectName j = fi_moveObjectName i \/ fi_moveObjectName j = None)) ->
  (forall r, q r = true -> fi_id r = id) ->
  fd_rows d' = update_where q (setRow set) (fd_rows d) ->
  fd_promoted d' = (if b then id :: fd_promoted d else fd_promoted d) ->
  (b = true -> List.existsb q (fd_rows d) = true) ->
  FleetLogic.Inv d'.
Proof.
  intros Hi Hs Heff Hq Hrows Hprom Hb. pose proof Hi as (Hnd & _ & _).
  eapply inv_update; [exact Hi | exact Hrows | |].
  - intros i Hin. rewrite Hprom in Hin. destruct b; [|auto]. destruct Hin as [<-|Hin]; [|auto].
    specialize (Hb eq_refl). apply existsb_exists in Hb as (r & Hr & Hqr). right. exists r. auto.
  - intros r Hr [Hr1 Hr2]. destruct (q r) eqn:E.
    + destruct (Heff r) as (E1 & E2 & E3 & E4). unfold RowInv. simpl. rewrite E1, E2, E3. split.
      * intros Hobj. apply Hr1. destruct E4 as [E4|E4]; congruence.
      * intros ->. contradiction.
    + split; [exact Hr1|]. intros Hp Hobj Hin. rewrite Hprom in Hin. destruct b; [|exact (Hr2 Hp Hobj Hin)].
      destruct Hin as [Hin|Hin]; [|exact (Hr2 Hp Hobj Hin)].
      specialize (Hb eq_refl). apply existsb_exists in Hb as (x & Hx & Hqx).
      assert (x = r) as -> by (apply (NoDup_key_inj (fun r : Row => fi_id r) (fd_rows d)); auto; rewrite (Hq x Hqx); auto).
      congruence.
Qed.

Lemma owned_id (e : option InstanceStatus) (r : Row) :
  ownedRow (ac_managedHostIds cfg) id r && expects e r = true -> fi_id r = id.
Proof. unfold ownedRow, isRow. intros H. bools. assumption. Qed.

Lemma view_status (d d' : FleetDb X) (q : Row -> bool) t s m :
  fd_rows d' = update_where q (setRow (statusSet t s m)) (fd_rows d) ->
  samePlace (view d) (view d').
Proof.
  intros Hrows. unfold FleetLogic.view, findRow. rewrite Hrows, (updated_find id q).
  destruct (List.find _ (fd_rows d)) as [r|]; [|exact I].
  destruct (statusSet_effect t s m r) as (E0 & E1 & E2 & E3 & E4). unfold samePlace, option_map, viewOf, owned.
  destruct (q r); cbn [v_host v_from v_obj v_ok setRow ro_fleet ro_settings]; rewrite ?E1, ?E2, ?E3; auto.
Qed.

Lemma t_setStatus (P : option View -> Prop) s e m :
  s <> I_provisioning ->
  T P (setStatus cfg id s e m)
    (fun _ v' => exists v, P v /\ samePlace v v' /\
       (oneOf [I_running; I_stopped] s = false -> promotedOf v' = promotedOf v)).
Proof.
  intros Hs. unfold setStatus.
  set (f := fun t => updateStatus (ac_managedHostIds cfg) t id s e m).
  assert (Hmain : forall (noted : bool) t, T P
    (statement (fun d => let '(r, l) := f t (fd_rows d) in
       (r, if noted then match r with inr true => notePromoted id (setRows l d) | _ => setRows l d end else setRows l d)))
    (fun _ v' => exists v, P v /\ samePlace v v' /\ (noted = false -> promotedOf v' = promotedOf v))).
  { intros noted t. apply t_statement; [exact db_answers|]. intros d Hi Hp. unfold f, updateStatus.
    destruct (updateRows _ _ (fd_rows d)) as [r rows'] eqn:E. cbn [fst snd].
    assert (Hsame : forall v, samePlace v v) by (intros [[]|]; simpl; auto).
    apply updateRows_inv in E as [(err & -> & ->)|[-> ->]].
    - replace (if noted then _ else _) with d by (destruct noted, d; reflexivity).
      split; [exact Hi|]. split; [apply logStep_refl; reflexivity|]. exists (view d). auto.
    - set (q := fun x : Row => ownedRow (ac_managedHostIds cfg) id x && expects e x).
      set (d' := if noted then _ else _).
      assert (Hrows : fd_rows d' = update_where q (setRow (statusSet t s m)) (fd_rows d)).
      { unfold d'. destruct noted; [destruct (List.existsb _ _)|]; reflexivity. }
      assert (Hprom : fd_promoted d' = if noted && List.existsb q (fd_rows d) then id :: fd_promoted d else fd_promoted d).
      { unfold d'. destruct noted; [|reflexivity]. simpl. fold q. destruct (List.existsb q _); reflexivity. }
      split; [|split].
      + eapply (status_write d d' q (statusSet t s m) s (noted && List.existsb q (fd_rows d))); auto.
        * intros i. destruct (statusSet_effect t s m i) as (_ & E1 & E2 & E3 & E4). auto.
        * intros r. apply owned_id.
        * intros Hb. apply andb_prop in Hb. apply Hb.
      + apply logStep_refl. unfold d'. destruct noted; [destruct (List.existsb _ _)|]; reflexivity.
      + exists (view d). split; [exact Hp|]. split; [eapply view_status; exact Hrows|].
        clearbody d'. intros ->. simpl in Hprom. unfold FleetLogic.view, findRow, isPromoted. rewrite Hrows, Hprom, (updated_find id q).
        destruct (List.find (fun r : Row => isRow id r) (fd_rows d)); reflexivity. }
  destruct (oneOf [I_running; I_stopped] s) eqn:Eo.
  - unfold promotion. apply t_quiet; [apply quiet_now | intros t | intros err v Hv].
    + eapply t_weaken; [apply (Hmain true t) | auto|]. intros r v (v0 & H1 & H2 & _). exists v0. split; [exact H1|].
      split; [exact H2 | discriminate].
    + exists v. split; [exact Hv|]. split; [destruct v as [[]|]; simpl; auto | auto].
  - apply t_quiet; [apply quiet_now | intros t | intros err v Hv].
    + eapply t_weaken; [apply (Hmain false t) | auto|]. intros r v (v0 & H1 & H2 & H3). exists v0. auto.
    + exists v. split; [exact Hv|]. split; [destruct v as [[]|]; simpl; auto | auto].
Qed.

Lemma safe_setStatus s e m : s <> I_provisioning -> Safe (setStatus cfg id s e m).
Proof. intros Hs. eapply t_weaken; [apply (t_setStatus (fun _ => True) s e m Hs) | auto | auto]. Qed.

(** ** Removing a volume *)
Definition Away (h : string) (v : option View) : Prop :=
  match v with
  | Some a =>
      v_dead a = true \/ (v_obj a <> None /\ v_from a <> Some h) \/
      (v_obj a = None /\ (v_host a <> h \/ v_promoted a = false))
  | None => True
  end.

Lemma t_removeStateVolume (P : option View -> Prop) h (i : FleetInstance) :
  fi_id i = id -> (forall v, P v -> Away h v) -> T P (removeStateVolume h i) (fun _ v => P v).
Proof.
  intros Hid HP. apply t_atomic. intros d Hi Hp. destruct (rt_removeVolume _ _ (fd_x d)) as [r x]. cbn [fst snd].
  split; [exact Hi|]. split; [|exact Hp].
  eexists. split; [reflexivity|]. constructor; [|constructor]. unfold Justified. cbn [rv_row rv_promoted rv_hostId].
  rewrite Hid. specialize (HP _ Hp). unfold FleetLogic.view, rowOf in *. fold (findRow id d).
  destruct (findRow id d) as [row|]; [|exact I]. cbn [option_map] in *. unfold Away, viewOf in HP.
  cbn [v_dead v_obj v_from v_host v_promoted] in HP. fold (isPromoted id d). unfold homeOf.
  destruct (bool_decide (fi_status row = I_destroyed)); [discriminate|].
  destruct HP as [HP|[[HP1 HP2]|[HP1 HP2]]]; [discriminate| |].
  - destruct (fi_moveObjectName row); [simpl; exact HP2 | contradiction].
  - rewrite HP1. simpl. destruct (isPromoted id d); [|discriminate]. intros [= E]. destruct HP2; [contradiction | discriminate].
Qed.

Lemma t_removeBotFromHost (P : option View -> Prop) h (i : FleetInstance) :
  fi_id i = id -> (forall v, P v -> Away h v) -> T P (removeBotFromHost h i) (fun _ v => P v).
Proof.
  intros Hid HP. unfold removeBotFromHost. apply t_quiet; [apply quiet_ext | intros c | auto].
  apply t_quiet; [destruct c; quiet | intros _ | auto]. apply t_removeStateVolume; assumption.
Qed.

(** ** [resumeProvisioningLocked] *)

(** A bot being provisioned whose state, if it has any, is elsewhere. *)
Definition Provisioning (inst : FleetInstance) (v : option View) : Prop :=
  exists vv, v = Some vv /\ v_host vv = fi_hostId inst /\ v_obj vv = fi_moveObjectName inst /\
    v_dead vv = false /\ v_ok vv = true /\ v_prov vv = true /\
    match v_obj vv with
    | Some _ => v_from vv <> Some (v_host vv)
    | None => v_promoted vv = false
    end.

(** What the invariant says of a provisioning row. *)
Lemma t_provisioning {A} (P : option View -> Prop) (inst : FleetInstance) (m : Fleet X A) Q :
  (forall v, P v -> Reads inst v /\ fi_status inst = I_provisioning) ->
  T (fun v => P v /\ Provisioning inst v) m Q -> T P m Q.
Proof.
  intros HP Hm w r w' Henv Hi Hp Hw. apply (Hm w r w' Henv Hi); [|exact Hw]. split; [exact Hp|].
  destruct (HP _ Hp) as [(vv & Ev & E1 & E2 & E3 & E4 & E5 & E6 & E7) Es].
  exists vv. rewrite Es in *. split; [exact Ev|]. split; [exact E1|]. split; [exact E3|]. split; [exact E5|].
  split; [exact E6|]. split; [exact E4|].
  unfold FleetLogic.view in Ev. destruct (findRow id (w_db w)) as [row|] eqn:Ef; [|discriminate].
  simpl in Ev. injection Ev as <-. simpl in *. destruct Hi as (_ & Hrows & _).
  unfold findRow in Ef. apply List.find_some in Ef as [Hin Hrow]. unfold isRow in Hrow. bools.
  rewrite Forall_forall in Hrows. destruct (Hrows row (proj2 (list_elem_of_In _ _) Hin)) as [R1 R2].
  destruct (fi_moveObjectName row) eqn:Eo.
  - destruct R1 as (from & -> & Hne); [congruence|]. congruence.
  - assert (Est : fi_status row = I_provisioning) by (apply (bool_decide_eq_true_1 (fi_status row = I_provisioning)); rewrite E4; reflexivity).
    specialize (R2 Est eq_refl).
    unfold isPromoted. destruct (List.existsb _ _) eqn:Ex; [|reflexivity]. exfalso. apply R2.
    apply existsb_exists in Ex as (j & Hj & Ej). bools. congruence.
Qed.

Definition isLive (v : option View) : Prop := exists vv, v = Some vv /\ v_ok vv = true /\ v_dead vv = false.

Lemma completeMove_effect t s (i : FleetInstance) :
  let j := applySet [A_status s; A_moveObjectName None; A_moveImportedAt None; A_updatedAt t] i in
  fi_hostId j = fi_hostId i /\ fi_movedFromHostId j = fi_movedFromHostId i /\ fi_status j = s /\
  fi_moveObjectName j = None.
Proof. repeat split. Qed.

(** A promotion: nothing has changed, or the row is live. *)
Lemma t_promotion (P : option View -> Prop) (q : FleetInstance -> bool) set s :
  oneOf [I_running; I_stopped] s = true ->
  (forall t (i : FleetInstance), let j := applySet (set t) i in
     fi_hostId j = fi_hostId i /\ fi_movedFromHostId j = fi_movedFromHostId i /\ fi_status j = s /\
     (fi_moveObjectName j = fi_moveObjectName i \/ fi_moveObjectName j = None)) ->
  (forall i, q i = true -> fi_id i = id) ->
  (forall v, P v -> isLive v) ->
  T P (promotion id (fun t => updateRows q (set t)))
    (fun r v => match r with inl _ => P v | inr _ => isLive v end).
Proof.
  intros Hs Heff Hq HP. unfold promotion. apply t_quiet; [apply quiet_now | intros t | auto].
  apply t_statement; [exact db_answers|]. intros d Hi Hp.
  destruct (updateRows q (set t) (fd_rows d)) as [r rows'] eqn:E. cbn [fst snd].
  apply updateRows_inv in E as [(err & -> & ->)|[-> ->]].
  { replace (setRows (fd_rows d) d) with d by (destruct d; reflexivity).
    split; [exact Hi|]. split; [apply logStep_refl; reflexivity | exact Hp]. }
  set (qr := fun x : Row => q x).
  match goal with |- FleetLogic.Inv ?x /\ _ => set (d' := x) end.
  assert (Hrows : fd_rows d' = update_where qr (setRow (set t)) (fd_rows d)).
  { unfold d'. destruct (List.existsb qr (fd_rows d)); reflexivity. }
  assert (Hne : s <> I_provisioning) by (intros ->; discriminate).
  split; [|split].
  - apply (status_write d d' qr (set t) s (List.existsb qr (fd_rows d)) Hi Hne (Heff t)); [intros r; apply Hq | exact Hrows | | auto].
    unfold d'. destruct (List.existsb qr (fd_rows d)); reflexivity.
  - apply logStep_refl. unfold d'. destruct (List.existsb qr (fd_rows d)); reflexivity.
  - destruct (HP _ Hp) as (vv & Ev & Hok & Hdead). clearbody d'. unfold isLive. unfold FleetLogic.view, findRow in *.
    rewrite Hrows, (updated_find id qr). destruct (List.find (fun r : Row => isRow id r) (fd_rows d)) as [row|]; [|discriminate].
    cbn [option_map] in *. injection Ev as <-. unfold viewOf, owned in *. cbn [v_ok v_dead] in Hok, Hdead.
    destruct (Heff t row) as (E1 & E2 & E3 & E4). eexists. split; [reflexivity|]. cbn [v_ok v_dead].
    destruct (qr row); cbn [setRow ro_fleet ro_settings]; [|auto]. rewrite E1, E3. split; [exact Hok|].
    destruct s; try discriminate; reflexivity.
Qed.

Lemma t_promote (P : option View -> Prop) (inst : Instance_) :
  fi_id inst = id -> (forall v, P v -> isLive v) ->
  T P (promote cfg inst) (fun r v => match r with inl _ => P v | inr _ => isLive v end).
Proof.
  intros Hid HP. unfold promote. rewrite Hid. destruct (truthy (fi_moveObjectName inst)) as [o|].
  - apply (t_promotion P _ (fun t => [A_status (if leaveStopped inst then I_stopped else I_running);
      A_moveObjectName None; A_moveImportedAt None; A_updatedAt t]) (if leaveStopped inst then I_stopped else I_running)).
    + destruct (leaveStopped inst); reflexivity.
    + intros t i. destruct (completeMove_effect t (if leaveStopped inst then I_stopped else I_running) i) as (E1 & E2 & E3 & E4). auto.
    + unfold ownedRow, isRow. intros i H. bools. assumption.
    + exact HP.
  - apply (t_promotion P _ (fun t => statusSet t I_running None) I_running).
    + reflexivity.
    + intros t i. destruct (statusSet_effect t I_running None i) as (_ & E1 & E2 & E3 & E4). auto.
    + unfold ownedRow, isRow. intros i H. bools. assumption.
    + exact HP.
Qed.

Lemma provisioning_live inst v : Provisioning inst v -> isLive v.
Proof. intros (vv & -> & _ & _ & Hd & Ho & _). exists vv. auto. Qed.

(** Steps that cannot throw. *)
Definition Sure {A} (m : Fleet X A) : Prop :=
  forall P : option View -> Prop, T P m (fun r v => P v /\ match r with inl _ => False | inr _ => True end).

Lemma sure_ret {A} (a : A) : Sure (ret a).
Proof. intros P. apply t_ret. auto. Qed.

Lemma sure_append i ev actor : Sure (append i ev actor).
Proof.
  intros P. unfold append.
  apply (t_bind _ _ P _ _ (fun r v => P v /\ match r with inl _ => False | inr _ => True end)).
  - apply t_pure. intros w Hp. repeat split. exact Hp.
  - intros t. apply t_statement; [exact db_answers|]. intros d Hi [Hp _]. split; [exact Hi|].
    split; [apply logStep_refl; reflexivity | split; [exact Hp | exact I]].
  - intros e v [_ []].
Qed.

Lemma sure_attempt m : Quiet m -> Sure (attempt m).
Proof.
  intros Hm P. eapply t_catch; [apply (Hm P) | intros e; apply t_ret; auto | auto].
Qed.

Lemma t_sure P {A B} (m : Fleet X A) (k : A -> Fleet X B) R :
  Sure m -> (forall a, T P (k a) R) -> T P (bind m k) R.
Proof.
  intros Hm Hk. eapply t_bind; [apply (Hm P) | | intros e v [_ []]].
  intros a. eapply t_weaken; [apply Hk | intros v [Hp _]; exact Hp | auto].
Qed.

(** When provisioning fails, the bot is still where it was. *)
Lemma t_provisionSteps (inst : Instance_) :
  fi_id inst = id ->
  T (Provisioning inst) (provisionSteps cfg inst)
    (fun r v => match r with inl _ => Provisioning inst v | inr _ => True end).
Proof.
  intros Hid. unfold provisionSteps. cbv zeta. rewrite Hid.
  apply t_quiet; [quiet | intros c | auto]. apply t_quiet; [quiet | intros _ | auto].
  apply t_quiet; [quiet | intros _ | auto]. apply t_quiet; [quiet | intros _ | auto].
  apply t_quiet; [quiet | intros _ | auto].
  eapply t_bind; [apply (t_promote _ inst Hid (provisioning_live inst)) | | auto].
  intros promoted.
  apply t_sure; [destruct (_ && _); [apply sure_append | apply sure_ret] | intros _].
  apply t_sure.
  { destruct (promoted && moves_configured); [|apply sure_ret].
    destruct (truthy (fi_moveObjectName inst)); [apply sure_attempt, quiet_ext | apply sure_ret]. }
  intros _. eapply t_weaken; [apply (t_requireInstance_live isLive); auto | auto |].
  intros [e|a] v [_ H]; [contradiction | exact I].
Qed.

Lemma t_cleanupPartial (P : option View -> Prop) (inst : Instance_) :
  fi_id inst = id -> (forall v, P v -> Away (fi_hostId inst) v) -> T P (cleanupPartial cfg inst) (fun _ v => P v).
Proof.
  intros Hid HP. unfold cleanupPartial, attempt. eapply t_catch.
  - apply t_quiet; [quiet | intros _; apply (t_removeBotFromHost P); assumption | auto].
  - intros e. apply t_ret. auto.
  - auto.
Qed.

(** A failed provisioning only clears the host the bot was being set up on, and
    its state is not there. *)
Lemma safe_resumeProvisioning : Safe (resumeProvisioningLocked cfg id).
Proof.
  unfold resumeProvisioningLocked.
  eapply t_bind; [apply (t_requireInstance (fun _ => True)) | | auto]. intros inst.
  case_bool_decide as Hr; [apply t_ret; auto|]. case_bool_decide as Hp; [|apply t_throw; auto]. simpl.
  apply (t_provisioning _ inst); [intros v (_ & HR & _); auto|].
  destruct (decide (fi_id inst = id)) as [Hid|Hid].
  2: { intros w r w' _ _ [(_ & (vv & _ & _ & _ & _ & _ & _ & _ & E) & _) _]. contradiction. }
  eapply t_weaken with (P := Provisioning inst) (Q := fun _ _ => True); [|intros v [_ H]; exact H | auto].
  eapply t_catch; [apply (t_provisionSteps inst Hid) | | auto]. intros err. cbv beta iota.
  eapply t_bind; [apply (t_setStatus (Provisioning inst) I_error None); discriminate | | auto]. intros b.
  eapply t_weaken with (P := Away (fi_hostId inst)) (Q := fun _ _ => True); [| |auto].
  - eapply t_bind with (Q := fun _ _ => True); [|intros u; apply quiet_safe; quiet | auto].
    eapply t_weaken; [apply (t_cleanupPartial (Away (fi_hostId inst)) inst Hid); auto | auto | auto].
  - intros v' (v & (vv & -> & E1 & E2 & E3 & E4 & E5 & E6) & Hs & Hpr).
    destruct v' as [b'|]; [|contradiction]. destruct Hs as (S1 & S2 & S3 & S4).
    specialize (Hpr eq_refl). simpl in Hpr. unfold Away. right.
    destruct (v_obj vv) eqn:Eo.
    + left. split; [congruence|]. rewrite S2, <- E1. exact E6.
    + right. split; [congruence|]. right. congruence.
Qed.

(** ** The operations *)
Ltac safe :=
  repeat first
    [ solve [apply quiet_safe; quiet]
    | solve [eauto 2 with safe nocore]
    | match goal with
      | |- FleetLogic.Safe _ _ (bind _ _) => apply safe_bind; [|intros ?]
      | |- FleetLogic.Safe _ _ (catch _ _) => apply safe_catch; [|intros ?]
      | |- FleetLogic.Safe _ _ (attempt _) => apply safe_attempt
      | |- FleetLogic.Safe _ _ (match ?x with _ => _ end) => destruct x
      | |- FleetLogic.Safe _ _ (let _ := _ in _) => cbv zeta
      end ].

Lemma safe_running e m : Safe (setStatus cfg id I_running e m).
Proof. apply safe_setStatus. discriminate. Qed.
Lemma safe_stopped e m : Safe (setStatus cfg id I_stopped e m).
Proof. apply safe_setStatus. discriminate. Qed.
Lemma safe_error e m : Safe (setStatus cfg id I_error e m).
Proof. apply safe_setStatus. discriminate. Qed.
Local Hint Resolve safe_running safe_stopped safe_error safe_resumeProvisioning : safe.

(** An operation starts from the bot's row. *)
Lemma safe_withInstance {A} (k : Instance_ -> Fleet X A) :
  (forall inst : Instance_, fi_id inst = id -> T (Reads inst) (k inst) (fun _ _ => True)) -> Safe (bind (requireInstance cfg id) k).
Proof.
  intros Hk. eapply t_bind; [apply (t_requireInstance (fun _ => True)) | | auto]. intros inst.
  destruct (decide (fi_id inst = id)) as [Hid|Hid].
  - eapply t_weaken; [apply (Hk inst Hid) | intros v (_ & H & _); exact H | auto].
  - intros w r w' _ _ (_ & (vv & _ & _ & _ & _ & _ & _ & _ & E) & _) _. contradiction.
Qed.

Lemma safe_withOwned {A} u (k : Instance_ -> Fleet X A) :
  (forall inst : Instance_, fi_id inst = id -> T (Reads inst) (k inst) (fun _ _ => True)) ->
  Safe (bind (requireOwnedInstance cfg id u) k).
Proof.
  intros Hk. eapply t_bind; [apply (t_requireOwnedInstance u (fun _ => True)) | | auto]. intros inst.
  destruct (decide (fi_id inst = id)) as [Hid|Hid].
  - eapply t_weaken; [apply (Hk inst Hid) | intros v (_ & H & _); exact H | auto].
  - intros w r w' _ _ (_ & (vv & _ & _ & _ & _ & _ & _ & _ & E) & _) _. contradiction.
Qed.

Lemma safe_thrown {A B} e (k : A -> Fleet X B) : Safe (bind (throw e) k).
Proof. apply quiet_safe. apply (quiet_throw (ac_managedHostIds cfg) id (A := B) e). Qed.

Lemma safe_t {A} (P : option View -> Prop) (m : Fleet X A) : Safe m -> T P m (fun _ _ => True).
Proof. intros H. apply (t_weaken _ _ (fun _ => True) P m (fun _ _ => True)); auto. Qed.

Definition notProvisioning (v : option View) : Prop := forall vv, v = Some vv -> v_prov vv = false.

Lemma safe_start u : T notProvisioning (startLocked cfg id u) (fun _ _ => True).
Proof.
  unfold startLocked. eapply t_bind; [apply (t_requireOwnedInstance u notProvisioning) | | auto]. intros inst.
  destruct (decide (fi_status inst = I_provisioning)) as [Hs|Hs].
  - intros w r w' _ _ (Hp & (vv & Ev & _ & _ & _ & E & _) & _) _. rewrite (Hp _ Ev), Hs in E. discriminate.
  - apply safe_t. unfold assertTransition. safe. apply safe_setStatus. exact Hs.
Qed.

Lemma safe_stop u : Safe (stopLocked cfg id u).
Proof.
  unfold stopLocked. apply safe_withOwned. intros inst Hid. apply safe_t. unfold assertTransition.
  destruct (isValidTransition (fi_status inst) I_stopped) eqn:E; [|apply safe_thrown].
  assert (Hs : fi_status inst <> I_provisioning) by (intros Hs; rewrite Hs in E; discriminate).
  safe. apply safe_setStatus. exact Hs.
Qed.

Lemma safe_restartLocked (inst : Instance_) s : fi_id inst = id -> s <> I_provisioning -> Safe (restartLocked cfg inst s).
Proof.
  intros Hid Hs. unfold restartLocked. cbv zeta. rewrite Hid. safe. apply safe_setStatus. exact Hs.
Qed.

Lemma safe_restart u : Safe (restart cfg id u).
Proof. unfold restart. apply safe_withOwned. intros inst Hid. apply safe_t, safe_restartLocked; [exact Hid | discriminate]. Qed.

Lemma safe_restartBySystem : Safe (restartBySystem cfg id).
Proof.
  unfold restartBySystem. apply safe_withInstance. intros inst Hid. apply safe_t.
  destruct (oneOf RESTARTABLE_STATUSES (fi_status inst)) eqn:E; cbn [negb]; [|safe].
  assert (Hs : fi_status inst <> I_provisioning) by (intros Hs; rewrite Hs in E; discriminate).
  safe. apply safe_restartLocked; assumption.
Qed.

Lemma safe_recreateLocked (inst : Instance_) a : fi_id inst = id -> Safe (recreateLocked cfg inst a).
Proof.
  intros Hid. unfold recreateLocked. cbv zeta. rewrite Hid. safe.
  apply safe_setStatus. case_match; discriminate.
Qed.

Lemma safe_recreate u : Safe (recreate cfg id u).
Proof. unfold recreate. apply safe_withOwned. intros inst Hid. apply safe_t, safe_recreateLocked. exact Hid. Qed.

Lemma safe_recreateBySystem : Safe (recreateBySystem cfg id).
Proof. unfold recreateBySystem. apply safe_withInstance. intros inst Hid. apply safe_t, safe_recreateLocked. exact Hid. Qed.

Lemma safe_resumeSource (inst : Instance_) c : fi_id inst = id -> Safe (resumeSource cfg inst c).
Proof. intros Hid. unfold resumeSource. rewrite Hid. safe. Qed.

(** *** The flip and its way back *)
Lemma safe_updateRows q set :
  (forall d : FleetDb X, FleetLogic.Inv d -> forall r, In r (fd_rows d) -> q (ro_fleet r) = true ->
     RowInv (fd_promoted d) r -> RowInv (fd_promoted d) (setRow set r)) ->
  Safe (onRows (updateRows q set) : Fleet X bool).
Proof.
  intros Hq. apply t_statement; [exact db_answers|]. intros d Hi _.
  destruct (updateRows q set (fd_rows d)) as [r rows'] eqn:E. cbn [fst snd].
  apply updateRows_inv in E as [(err & -> & ->)|[-> ->]].
  - split; [destruct d; exact Hi|]. split; [apply logStep_refl; reflexivity | exact I].
  - split; [|split; [apply logStep_refl; reflexivity | exact I]].
    eapply inv_update; [exact Hi | reflexivity | auto|]. intros r Hr HR. simpl.
    destruct (q r) eqn:E; [apply (Hq d Hi r Hr E HR) | exact HR].
Qed.

Lemma safe_moveTo t input : mt_fromHostId input <> mt_toHostId input ->
  Safe (onRows (moveTo (ac_managedHostIds cfg) t id input)).
Proof.
  intros Hne. unfold moveTo. destruct (negb _).
  - apply t_statement; [exact db_answers|]. intros d Hi _. split; [destruct d; exact Hi|].
    split; [apply logStep_refl; reflexivity | exact I].
  - apply safe_updateRows. intros d _ r _ _ _. unfold RowInv. simpl. destruct (mt_keepStopped input); simpl;
      (split; [intros _; exists (mt_fromHostId input); auto | discriminate]).
Qed.

Lemma safe_moveBack t to p : Safe (onRows (moveBack (ac_managedHostIds cfg) t id to p)).
Proof.
  unfold moveBack. destruct (negb _).
  - apply t_statement; [exact db_answers|]. intros d Hi _. split; [destruct d; exact Hi|].
    split; [apply logStep_refl; reflexivity | exact I].
  - apply safe_updateRows. intros d _ r _ Hq _. unfold RowInv. simpl. split; [contradiction|].
    apply andb_prop in Hq as [Hq _]. apply andb_prop in Hq as [Hq _]. apply andb_prop in Hq as [_ Hq].
    apply bool_decide_eq_true_1 in Hq. congruence.
Qed.

Lemma safe_flip (inst : Instance_) target o n : fi_id inst = id -> fi_hostId inst <> target ->
  forall e, Safe (flipToHost cfg n e inst target o).
Proof.
  intros Hid Hne. induction n as [|n IH]; intros e; cbn [flipToHost]; [safe|].
  apply safe_bind; [safe|intros port]. apply safe_bind.
  - apply safe_finally; [|quiet]. rewrite Hid. apply safe_catch; [|intros err; safe].
    apply safe_bind; [safe|intros t]. apply safe_bind; [apply safe_moveTo; exact Hne | intros b; safe].
  - intros [e'|p]; [apply IH | safe].
Qed.

Lemma moveGuard_spec (inst : Instance_) target dry b :
  moveGuard inst target dry = inr b ->
  (dry = false -> fi_hostId inst <> target) /\
  (b = true -> dry = false /\ fi_status inst = I_error /\ fi_movedFromHostId inst = Some target /\
     fi_moveObjectName inst <> None) /\
  (b = false -> fi_status inst <> I_provisioning /\ fi_status inst <> I_destroyed).
Proof.
  unfold moveGuard. destruct (str_eqb target (fi_hostId inst) && negb dry) eqn:E1; [discriminate|].
  destruct (oneOf _ _); [discriminate|]. intros H. split.
  { intros ->. rewrite andb_true_r in E1. intros <-. rewrite str_eqb_refl in E1. discriminate. }
  destruct (bool_decide (fi_status inst = I_error) && _) eqn:E2.
  - destruct dry; [discriminate|]. destruct (fi_moveObjectName inst); [|discriminate]. injection H as <-.
    apply andb_prop in E2 as [Ha Hb]. apply bool_decide_eq_true_1 in Ha. bools.
    split; [intros _; repeat split; auto; discriminate | discriminate].
  - destruct (oneOf MOVABLE_STATUSES (fi_status inst)) eqn:E3; [|discriminate]. simpl in H.
    destruct (_ && _) in H; [discriminate|]. injection H as <-. split; [discriminate|]. intros _.
    split; intros Hs; rewrite Hs in E3; discriminate.
Qed.

Lemma safe_moveBackLocked (inst : Instance_) target :
  fi_id inst = id -> fi_hostId inst <> target -> fi_movedFromHostId inst = Some target -> fi_moveObjectName inst <> None ->
  T (Reads inst) (moveBackLocked cfg inst target) (fun _ _ => True).
Proof.
  intros Hid Hne Hfrom Hobj. unfold moveBackLocked.
  apply t_quiet; [quiet | intros _ | auto]. apply t_quiet; [quiet | intros _ | auto].
  apply t_quiet; [quiet | intros reachable | auto]. destruct (negb reachable); [apply t_throw; auto|].
  apply t_quiet; [quiet | intros left_ | auto]. apply t_quiet; [quiet | intros state | auto].
  destruct (match state with Some s => _ | None => _ end); [apply t_throw; auto|].
  eapply t_bind; [apply (t_removeBotFromHost (Reads inst)); [exact Hid|] | | auto].
  - intros v (vv & -> & E1 & E2 & E3 & _). right. left. split; [congruence|]. rewrite E2, Hfrom. congruence.
  - intros u. apply safe_t. rewrite Hid. apply safe_bind; [safe|intros port]. apply safe_bind.
    + apply safe_finally; [|quiet]. apply safe_bind; [safe | intros t; apply safe_moveBack].
    + intros b. safe.
Qed.

Lemma t_prepareTarget (inst : Instance_) target :
  fi_id inst = id -> fi_hostId inst <> target ->
  T (Reads inst) (prepareTarget cfg inst target) (fun _ v => Reads inst v).
Proof.
  intros Hid Hne. unfold prepareTarget.
  apply t_quiet; [quiet | intros _ | auto]. apply t_quiet; [quiet | intros reachable | auto].
  destruct (negb reachable); [apply t_throw; auto|].
  apply t_quiet; [quiet | intros _ | auto]. apply t_quiet; [quiet | intros _ | auto].
  apply t_quiet; [quiet | intros present | auto]. destruct (negb present); [apply t_ret; auto|].
  destruct (fi_moveObjectName inst) eqn:Eo; [rewrite orb_true_r; apply t_throw; auto|]. rewrite orb_false_r.
  destruct (negb _); [apply t_throw; auto|].
  apply (t_removeBotFromHost (Reads inst)); [exact Hid|].
  intros v (vv & -> & E1 & E2 & E3 & _). right. right. split; [congruence|]. left. congruence.
Qed.

Lemma safe_exportAndFlip (inst : Instance_) c target o dry :
  fi_id inst = id -> (dry = false -> fi_hostId inst <> target) -> Safe (exportAndFlip cfg inst c target o dry).
Proof.
  intros Hid Hne. unfold exportAndFlip. destruct dry.
  - safe.
  - pose proof (fun n e => safe_flip inst target o n Hid (Hne eq_refl) e) as Hf. safe.
Qed.

Lemma safe_exportFailed (inst : Instance_) c o dry err :
  fi_id inst = id -> Safe (exportFailed cfg inst c o dry err).
Proof.
  intros Hid. unfold exportFailed. cbv zeta. rewrite Hid. pose proof (safe_resumeSource inst c Hid) as Hr.
  safe.
Qed.

Lemma safe_finishMove (inst : Instance_) c : fi_id inst = id -> Safe (finishMove cfg inst c).
Proof. intros Hid. unfold finishMove. cbv zeta. rewrite Hid. safe. Qed.

Lemma safe_moveLocked target dry : Safe (moveLocked cfg id target dry).
Proof.
  unfold moveLocked. destruct (negb moves_configured); [safe|]. apply safe_withInstance. intros inst Hid.
  apply t_lift; [intros back Eg | auto]. apply moveGuard_spec in Eg as (Hne & Hback & Hfwd). destruct back.
  { destruct (Hback eq_refl) as (Hd & _ & Hfrom & Hobj). apply safe_moveBackLocked; auto. }
  assert (Hprep : T (Reads inst)
    (if negb (str_eqb target (fi_hostId inst)) then prepareTarget cfg inst target else ret tt) (fun _ v => Reads inst v)).
  { destruct (str_eqb target (fi_hostId inst)) eqn:E; simpl; [apply t_ret; auto|]. apply t_prepareTarget; [exact Hid|].
    intros <-. rewrite str_eqb_refl in E. discriminate. }
  eapply t_bind; [exact Hprep | intros u | auto]. apply safe_t.
  apply safe_bind; [safe|intros _]. apply safe_bind; [safe|intros c]. destruct (truthy c) as [c'|]; [|safe].
  apply safe_bind; [safe|intros _]. apply safe_bind; [safe|intros _]. apply safe_bind; [safe|intros t]. cbv zeta.
  apply safe_bind.
  - apply safe_catch; [apply safe_exportAndFlip; auto | intros err; apply safe_exportFailed; exact Hid].
  - intros [port|]; [apply safe_finishMove; exact Hid|].
    apply safe_bind; [safe|intros _]. apply safe_bind; [apply safe_resumeSource; exact Hid | intros _; safe].
Qed.

(** ** The purge of a retained source *)
Lemma t_clearMove t :
  T notProvisioning (onRows (clearMove (ac_managedHostIds cfg) t id) : Fleet X bool) (fun _ _ => True).
Proof.
  apply t_statement; [exact db_answers|]. intros d Hi Hp. unfold clearMove.
  destruct (updateRows _ _ (fd_rows d)) as [r rows'] eqn:E. cbn [fst snd].
  apply updateRows_inv in E as [(err & -> & ->)|[-> ->]].
  - split; [destruct d; exact Hi|]. split; [apply logStep_refl; reflexivity | exact I].
  - split; [|split; [apply logStep_refl; reflexivity | exact I]].
    eapply inv_update; [exact Hi | reflexivity | auto|]. intros r Hr HR. simpl.
    destruct (ownedRow _ id r) eqn:E; [|exact HR]. split; [intros Hobj; destruct (Hobj eq_refl)|].
    intros Hs _. exfalso.
    assert (Ef : findRow id d = Some r).
    { unfold findRow. unfold ownedRow in E. apply andb_prop in E as [Eid _].
      destruct (List.find (fun r : Row => isRow id r) (fd_rows d)) as [r'|] eqn:Ef.
      - apply List.find_some in Ef as [Hin Hr']. f_equal.
        apply (NoDup_key_inj (fun r : Row => fi_id r) (fd_rows d)); auto; [apply Hi|]. unfold isRow in *. bools. congruence.
      - pose proof (find_none _ _ Ef r Hr) as Hn. simpl in Hn. congruence. }
    specialize (Hp _ (view_found d r Ef)). simpl in Hp. apply bool_decide_eq_false_1 in Hp. contradiction.
Qed.

Lemma safe_purge cutoff : Safe (purgeMovedSourceLocked cfg id cutoff).
Proof.
  unfold purgeMovedSourceLocked. eapply t_bind; [apply (t_findInstance (fun _ => True)) | | auto].
  intros [inst|]; [|apply t_ret; auto].
  destruct (truthy (fi_movedFromHostId inst)) as [from|] eqn:Efrom; [|apply t_ret; auto].
  destruct (fi_movedAt inst); [|apply t_ret; auto]. destruct (_ <=? _); [apply t_ret; auto|].
  destruct (str_eqb from (fi_hostId inst)) eqn:Eh; [apply t_ret; auto|].
  destruct (negb (bool_decide (fi_status inst = I_destroyed)) && _) eqn:Eg; [apply t_ret; auto|].
  assert (Hfrom : fi_movedFromHostId inst = Some from).
  { destruct (fi_movedFromHostId inst) as [[|]|]; simpl in Efrom; congruence. }
  assert (Hne : from <> fi_hostId inst) by (intros ->; rewrite str_eqb_refl in Eh; discriminate).
  eapply t_weaken with (P := Reads inst) (Q := fun _ _ => True); [|intros v [_ H]; exact H | auto].
  apply t_quiet; [quiet | intros _ | auto]. apply t_quiet; [quiet | intros reachable | auto].
  destruct (negb reachable); [apply t_ret; auto|].
  destruct (decide (fi_id inst = id)) as [Hid|Hid].
  2: { intros w r w' _ _ (vv & _ & _ & _ & _ & _ & _ & _ & E) _. contradiction. }
  eapply t_bind; [apply (t_removeBotFromHost (Reads inst)); [exact Hid|] | | auto].
  - intros v (vv & -> & E1 & E2 & E3 & E4 & E5 & _). simpl. rewrite E1, E3, E5.
    destruct (bool_decide (fi_status inst = I_destroyed)); [auto|]. simpl in Eg. apply orb_false_elim in Eg as [_ Eo].
    destruct (fi_moveObjectName inst); [discriminate|]. right. right. split; [reflexivity|]. left. congruence.
  - intros u. eapply t_weaken with (P := notProvisioning) (Q := fun _ _ => True); [| |auto].
    + apply t_quiet; [destruct (truthy (fi_moveObjectName inst)); [destruct moves_configured|]; quiet | intros _ | auto].
      apply t_quiet; [quiet | intros t | auto].
      eapply t_bind; [apply t_clearMove | intros b; apply t_ret; auto | auto].
    + intros v (vv & -> & _ & _ & _ & E4 & _) vv' [= <-]. rewrite E4.
      destruct (fi_status inst); try reflexivity. simpl in Eg. discriminate.
Qed.

(** ** Creating, configuring *)
Lemma safe_insert t f limit :
  Safe (onRows (insertIfUserActiveBelowLimit (ac_managedHostIds cfg) t f limit)).
Proof.
  apply t_statement; [exact db_answers|]. intros d Hi _. unfold insertIfUserActiveBelowLimit.
  assert (Hsame : FleetLogic.Inv (setRows (fd_rows d) d)) by (destruct d; exact Hi).
  assert (Hlog : forall l, FleetLogic.LogStep d (setRows l d)) by (intros l; apply logStep_refl; reflexivity).
  destruct (limit <=? _); [split; [exact Hsame | split; [apply Hlog | exact I]]|].
  assert (Hins : FleetLogic.Inv (setRows (insertRow (ac_managedHostIds cfg) t f (fd_rows d)).2 d)).
  { unfold insertRow. destruct (negb _); [exact Hsame|]. destruct (List.existsb _ (fd_rows d)) eqn:Ex; [exact Hsame|].
    destruct (portIndexOk _); [|exact Hsame]. destruct Hi as (H1 & H2 & H3).
    assert (Hn : ~ In (if_id f) (List.map (fun r : Row => fi_id r) (fd_rows d))).
    { intros Hin. apply in_map_iff in Hin as (r & Er & Hr). rewrite <- not_true_iff_false, existsb_exists in Ex.
      apply Ex. exists r. split; [exact Hr|]. unfold isRow. rewrite Er. apply str_eqb_refl. }
    cbn [snd]. split; [|split]; cbn [fd_rows fd_promoted setRows].
    - rewrite List.map_app. apply NoDup_app. split; [exact H1|]. split; [|apply NoDup_singleton].
      intros i Ha Hb. apply list_elem_of_singleton in Hb as ->. apply Hn, list_elem_of_In. exact Ha.
    - apply Forall_app. split; [exact H2|]. apply Forall_singleton. split; [contradiction|].
      intros _ _ Hin. apply Hn, H3. exact Hin.
    - intros i Hin. rewrite List.map_app. apply in_app_iff. auto. }
  destruct (insertRow _ _ _ (fd_rows d)) as [[e|i] rows']; cbn [fst snd] in *;
    (split; [exact Hins | split; [apply Hlog | exact I]]).
Qed.

Lemma quiet_placementChoose m i : Quiet (placementChoose cfg m i).
Proof.
  unfold placementChoose. apply quiet_bind; [quiet|intros t]. apply quiet_bind.
  - generalize (ac_hosts cfg). intros hosts. induction hosts as [|h hosts IH]; cbn [askGates]; quiet.
  - intros ps. apply quiet_atomic. intros d. destruct (choose _ _ _ _ _ _ _). repeat split.
Qed.

Lemma quiet_failedAttempt i p e : Quiet (failedAttempt i p e).
Proof.
  unfold failedAttempt, placementRelease. apply quiet_bind; [apply quiet_atomic; intros d; repeat split | intros _]. quiet.
Qed.

Lemma safe_reserveIdentity u input n : forall e, Safe (reserveIdentity cfg n e u input).
Proof.
  pose proof quiet_failedAttempt as Hf.
  induction n as [|n IH]; intros e; cbn [reserveIdentity]; [safe|].
  apply safe_bind; [|intros [e'|inst]; [apply IH | safe]]. unfold reserveAttempt.
  apply safe_bind; [safe|intros i]. cbv zeta. apply safe_bind; [apply quiet_safe, quiet_placementChoose|intros h].
  apply safe_bind; [unfold orNext; safe|]. intros [e'|[token port]]; [safe|]. apply safe_finally; [|quiet].
  unfold reserveWithPort. apply safe_bind; [unfold orNext; safe|]. intros [e'|p]; [safe|].
  unfold orNext. apply safe_catch; [|intros err; safe]. apply safe_bind; [|intros a; safe].
  pose proof safe_insert as Hi. destruct (ci_provider input), p; safe.
Qed.

Lemma safe_create u input : ci_backupImport input = None -> Safe (create cfg u input).
Proof.
  intros Hb. unfold create. destruct (negb _); [safe|]. cbv zeta. cbn [ci_backupImport]. rewrite Hb.
  apply safe_bind; [apply safe_reserveIdentity | intros i; safe].
Qed.

Lemma quiet_updateLiteLlmBudget u b : Quiet (updateLiteLlmBudget cfg id u b).
Proof. unfold updateLiteLlmBudget, updateLiteLlmKey. quiet. apply quiet_light; auto. Qed.
Lemma quiet_disconnectWhatsapp u : Quiet (disconnectWhatsapp cfg id u).
Proof. unfold disconnectWhatsapp. quiet. Qed.
Lemma quiet_disconnectTelegram u : Quiet (disconnectTelegram cfg id u).
Proof. unfold disconnectTelegram, revokeTelegramToken. quiet. Qed.

(** ** All of them *)
Inductive BotOp :=
| Bo_create (userId : string) (input : CreateInstanceInput)
| Bo_resumeProvisioning
| Bo_start (userId : string)
| Bo_stop (userId : string)
| Bo_restart (userId : string)
| Bo_restartBySystem
| Bo_recreate (userId : string)
| Bo_recreateBySystem
| Bo_move (targetHostId : string) (dryRun : bool)
| Bo_purge (cutoff : Z)
| Bo_updateConfig (userId : string) (patch : ConfigPatch)
| Bo_updateChannels (userId : string) (mutate : list ChannelConfig -> OrchError + option (list ChannelConfig))
| Bo_updateLiteLlmBudget (userId : string) (budgetCents : Z)
| Bo_disconnectWhatsapp (userId : string)
| Bo_disconnectTelegram (userId : string)
| Bo_assertAgentBackupReadable (userId : string).

Definition void {A} (m : Fleet X A) : Fleet X unit := let! _ := m in ret tt.

Definition runOp (op : BotOp) : Fleet X unit :=
  match op with
  | Bo_create u input => void (create cfg u input)
  | Bo_resumeProvisioning => void (resumeProvisioningLocked cfg id)
  | Bo_start u => startLocked cfg id u
  | Bo_stop u => stopLocked cfg id u
  | Bo_restart u => restart cfg id u
  | Bo_restartBySystem => void (restartBySystem cfg id)
  | Bo_recreate u => recreate cfg id u
  | Bo_recreateBySystem => recreateBySystem cfg id
  | Bo_move h dry => moveLocked cfg id h dry
  | Bo_purge c => purgeMovedSourceLocked cfg id c
  | Bo_updateConfig u p => void (updateConfig cfg id u p)
  | Bo_updateChannels u f => void (updateChannels cfg id u f)
  | Bo_updateLiteLlmBudget u b => void (updateLiteLlmBudget cfg id u b)
  | Bo_disconnectWhatsapp u => void (disconnectWhatsapp cfg id u)
  | Bo_disconnectTelegram u => void (disconnectTelegram cfg id u)
  | Bo_assertAgentBackupReadable u => assertAgentBackupReadable cfg id u
  end.

(** A create that restores a backup is a create, then a [resumeProvisioning] of
    the new bot.  A bot being provisioned can be started by hand; that one is
    left out. *)
Definition opCovered (op : BotOp) (v : option View) : Prop :=
  match op with
  | Bo_create _ input => ci_backupImport input = None
  | Bo_start _ => notProvisioning v
  | _ => True
  end.

Lemma t_runOp op : T (opCovered op) (runOp op) (fun _ _ => True).
Proof.
  assert (Hvoid : forall A (m : Fleet X A), Safe m -> Safe (void m)) by (intros A m H; unfold void; safe; exact H).
  destruct op as [u input| | | | | | | | | | | | | | | ]; cbn [runOp];
    [intros w r w' Henv Hi Hc Hw; exact (Hvoid _ _ (safe_create u input Hc) w r w' Henv Hi I Hw)
    |apply safe_t, Hvoid | apply safe_start | apply safe_t.. ].
  - apply safe_resumeProvisioning.
  - apply safe_stop.
  - apply safe_restart.
  - apply Hvoid, safe_restartBySystem.
  - apply safe_recreate.
  - apply safe_recreateBySystem.
  - apply safe_moveLocked.
  - apply safe_purge.
  - apply Hvoid. unfold updateConfig. safe.
  - apply Hvoid. unfold updateChannels, updateChannelsNoting. safe.
  - apply Hvoid, quiet_safe, quiet_updateLiteLlmBudget.
  - apply Hvoid, quiet_safe, quiet_disconnectWhatsapp.
  - apply Hvoid, quiet_safe, quiet_disconnectTelegram.
  - unfold assertAgentBackupReadable, resolveExportContainerId. safe.
Qed.

End Quiets.


(** ** Runs *)

(** A move whose target does not boot: what was copied there is removed, and only that. *)
Definition failedMove : (OrchError + unit) * World (FleetDb Sim) unit :=
  let _ := simCollaborators (fun x => (St_done, x)) in
  runOp simConfig "bot" (Bo_move "b" false)
    (simWorld (simRow "a" I_running (Some "c1") None None) ["bot"] false []).


(** ** What the theorem leaves out

    The statement that records ["provision.running"] fails, after the bot was
    declared running: its container and its volume are removed. *)
Definition lostAfterPromotion : (OrchError + unit) * World (FleetDb Sim) unit :=
  let _ := simCollaborators simNext in
  runOp simConfig "bot" Bo_resumeProvisioning
    (simWorld (simRow "a" I_provisioning (Some "c1") None None) [] true [St_done; St_done; St_done; St_refused]).

Lemma append_failure_removes_running_bot :
  exists x row, fd_removed (w_db lostAfterPromotion.2) = [x] /\ rv_row x = Some row /\
    rv_promoted x = true /\ homeOf row (rv_promoted x) = Some (rv_hostId x).
Proof. do 2 eexists. vm_compute. repeat split. Qed.

(** A move that was interrupted before the archive was imported, and a user who
    starts the bot: it boots on the new host without its state. *)
Definition startedMidMove : (OrchError + unit) * World (FleetDb Sim) unit :=
  let _ := simCollaborators simNext in
  startLocked simConfig "bot" "user"
    (simWorld (simRow "b" I_provisioning (Some "new on b") (Some "a") (Some "moves/bot/1.tar")) ["bot"] true []).

Lemma start_boots_unfinished_move :
  startedMidMove.1 = inr tt /\
  sm_log (fd_x (w_db startedMidMove.2)) = ["start on b"%string] /\
  option_map (fun i => (fi_status i, fi_moveObjectName i)) (rowOf "bot" (w_db startedMidMove.2)) =
    Some (I_running, Some "moves/bot/1.tar"%string).
Proof. vm_compute. repeat split. Qed.
