(* ===== verification/HealthMonitor.v ===== *)
(** Watching the bots: [orchestrator/src/services/health-monitor.ts].

    [pollAll] is one poll.  The code asks hosts, and the bots of a host, several at
    a time; here they are asked one after the other, in the order of the rows: a
    check only touches the entries of its own bot, and what others do in between is
    interference ([World]).  The report for the [LivenessObserver] is returned.
    The clock stands still during a poll.  Timeouts of the probes belong to the
    adapter. *)
From Stdlib Require Import Permutation.
From S2P Require Import Prelude AutoRestart Fleet Hosts FleetStore FleetWorld InstanceManager FleetLogic FleetGuar.
From stdpp Require Import list strings gmap.
#[local] Open Scope Z_scope.

Record HealthMonitorConfig := mkHealthMonitorConfig {
  hm_channelPollIntervalMs : Z;
  hm_channelStateMaxAgeMs : Z;
  hm_channelProbeMaxBackoffMs : Z;
  hm_degradedThreshold : Z;
  hm_unhealthyThreshold : Z;
}.

Record HealthResult := mkHealthResult {
  he_healthy : bool;
  he_liveness : LivenessSample;
  he_whatsappDisconnected : bool;
}.

(** [LocatedContainer | "lookup_failed" | null]. *)
Inductive Located := Loc_at (containerId : string) (state : ContainerState) | Loc_failed | Loc_none.

Record CheckedInstance := mkChecked { ch_inst : FleetInstance; ch_health : option HealthResult }.

Definition UNKNOWN_HEALTH : HealthResult := mkHealthResult false S_unknown false.
Definition LAST_SEEN_REFRESH_MS : Z := 60000.

Definition livenessOfFailure (located : Located) (now : Z) : LivenessSample :=
  match located with
  | Loc_failed | Loc_none => S_unknown
  | Loc_at _ state =>
      if negb (ct_running state) then S_unknown
      else if isContainerBooting state now then S_booting else S_down
  end.

Definition effectiveState (entry : ChannelStateEntry) (now maxAgeMs : Z) : WhatsappLinkState :=
  if ce_establishedAt entry =? 0 then Wl_unknown
  else if maxAgeMs <? now - ce_establishedAt entry then Wl_unknown
  else ce_state entry.

Definition needsHealthyWrite (now : Z) (inst : FleetInstance) : bool :=
  negb (bool_decide (fi_status inst = I_running)) || (0 <? fi_healthFailures inst)
  || match fi_lastSeenAt inst with None => true | Some t => LAST_SEEN_REFRESH_MS <=? now - t end.

Definition needsWhatsappProbe (inst : FleetInstance) : bool :=
  isSome (truthy (fi_containerId inst)) && fi_hasWhatsappCreds inst.

(** [{ ...instance, containerId }] of a fleet row. *)
Definition withContainer (c : string) (i : FleetInstance) : FleetInstance := assign (A_containerId (Some c)) i.

Section Monitor.
Context {X : Type} `{!ContainerRuntime X, !AgentAdapter X, !Collaborators X} (cfg : AppConfig) (hc : HealthMonitorConfig).
Implicit Types inst : FleetInstance.

Let managed := ac_managedHostIds cfg.

Definition backoffMs (consecutiveFailures : Z) : Z :=
  Z.min (hm_channelPollIntervalMs hc * 2 ^ (consecutiveFailures - 1)) (hm_channelProbeMaxBackoffMs hc).

(** ** Where the container is *)
Definition locateContainer inst : Fleet X Located :=
  let! _ := host cfg (fi_hostId inst) in
  let! current := match truthy (fi_containerId inst) with
    | Some c =>
        let! s := ext (rt_containerState (fi_hostId inst) c) in
        ret (match s with Some st => if ct_running st then Some (c, st) else None | None => None end)
    | None => ret None
    end in
  match current with
  | Some (c, st) => ret (Loc_at c st)
  | None =>
      let! byName := ext (rt_findContainerByName (fi_hostId inst) (fi_containerName inst)) in
      match truthy byName with
      | None => ret Loc_none
      | Some c =>
          let! s := ext (rt_containerState (fi_hostId inst) c) in
          match s with
          | None => ret Loc_none
          | Some st =>
              (when negb (ostr_eqb (Some c) (fi_containerId inst)) do setContainerId cfg (fi_id inst) c);;;
              ret (Loc_at c st)
          end
      end
  end.

Definition tryLocate inst : Fleet X Located := catch (locateContainer inst) (fun _ => ret Loc_failed).

(** ** The channel *)

(** The entry after a probe, and the state it stands for. *)
Definition probeResult (now : Z) (entry : option ChannelStateEntry) (probed : WhatsappLinkState)
  : ChannelStateEntry * WhatsappLinkState :=
  match probed with
  | Wl_probe_failed | Wl_protocol_error =>
      let failures := match entry with Some e => ce_consecutiveFailures e | None => 0 end + 1 in
      let next := mkChannelState
        (match entry with Some e => ce_state e | None => Wl_unknown end)
        (match entry with Some e => ce_establishedAt e | None => 0 end)
        (now + backoffMs failures) failures in
      (next, effectiveState next now (hm_channelStateMaxAgeMs hc))
  | _ => (mkChannelState probed now (now + hm_channelPollIntervalMs hc) 0, probed)
  end.

(** The entry that makes a probe unnecessary. *)
Definition reusable (now : Z) (entry : option ChannelStateEntry) : option ChannelStateEntry :=
  match entry with Some e => if now <? ce_nextAttemptAt e then Some e else None | None => None end.

Definition resolveWhatsappState inst (baseUrl : string) : Fleet X WhatsappLinkState :=
  let! t := now in
  let! entry := readMem (fun m => mm_channelStates m !! fi_id inst) in
  match reusable t entry with
  | Some e => ret (effectiveState e t (hm_channelStateMaxAgeMs hc))
  | None =>
      let! probed := catch (ext (ad_probeWhatsapp (fi_hostId inst) inst baseUrl)) (fun _ => ret Wl_probe_failed) in
      let '(next, state) := probeResult t entry probed in
      writeMem (fun m => setChannelStates (<[fi_id inst := next]> (mm_channelStates m)) m);;;
      ret state
  end.

Definition trackReadiness (id : string) (degraded : option bool) : Fleet X unit :=
  match degraded with
  | None => ret tt
  | Some b => writeMem (fun m => setDegraded (if b then {[id]} ∪ mm_degraded m else mm_degraded m ∖ {[id]}) m)
  end.

(** ** One bot *)
Definition checkOne inst : Fleet X HealthResult :=
  let! h := host cfg (fi_hostId inst) in
  let! t := now in
  let! located := (if negb (isSome (truthy (fi_containerId inst))) || needsHealthyWrite t inst
                   then let! l := tryLocate inst in ret (Some l)
                   else ret None) in
  let resolved := match located with Some (Loc_at c _) => withContainer c inst | _ => inst end in
  let baseUrl := dialUrl h (fi_containerName resolved) (fi_gatewayPort resolved) (ad_internalPort (fi_runtimeKind inst)) in
  let! liveness := catch (ext (ad_probeGateway (fi_hostId inst) resolved baseUrl))
                     (fun _ => ret (mkGatewayLiveness false None)) in
  if negb (gl_healthy liveness) then
    let! where_ := match located with Some l => ret l | None => tryLocate inst end in
    ret (mkHealthResult false (livenessOfFailure where_ t) false)
  else
    trackReadiness (fi_id inst) (gl_degraded liveness);;;
    if negb (needsWhatsappProbe resolved) then ret (mkHealthResult true S_live false)
    else
      let! state := resolveWhatsappState resolved baseUrl in
      ret (if bool_decide (state = Wl_disconnected) then mkHealthResult false S_live true
           else mkHealthResult true S_live false).

(** A host that does not answer is not asked about its bots. *)
Definition checkHost (group : string * list FleetInstance) : Fleet X (list CheckedInstance) :=
  let! _ := host cfg group.1 in
  let! reachable := ext' (gate_check group.1) in
  if negb reachable then ret (List.map (fun i => mkChecked i None) group.2)
  else traverse (fun i => let! r := catch (checkOne i) (fun _ => ret UNKNOWN_HEALTH) in ret (mkChecked i (Some r))) group.2.

(** ** What a check changes *)
Definition setHealth (id : string) (failures : Z) (status : InstanceStatus) (markSeen : bool) : Fleet X unit :=
  let! t := now in let! _ := onRows (updateHealth managed t id failures status markSeen) in ret tt.

Definition failedStatus (failures : Z) (status : InstanceStatus) : InstanceStatus :=
  if hm_unhealthyThreshold hc <=? failures then I_unhealthy
  else if hm_degradedThreshold hc <=? failures then I_degraded
  else status.

Definition processResult inst (result : HealthResult) : Fleet X unit :=
  let! t := now in
  if he_healthy result then
    (when needsHealthyWrite t inst do setHealth (fi_id inst) 0 I_running true);;;
    (when bool_decide (fi_pairingStatus inst = P_expired) && needsWhatsappProbe inst do
       setPairing cfg (fi_id inst) (mkPairingUpdate (Some P_paired) None None None None))
  else if bool_decide (he_liveness result = S_unknown) then ret tt
  else
    let failures := fi_healthFailures inst + 1 in
    let newStatus := failedStatus failures (fi_status inst) in
    setHealth (fi_id inst) failures newStatus false;;;
    (when bool_decide (newStatus = I_unhealthy) && he_whatsappDisconnected result
          && bool_decide (fi_pairingStatus inst = P_paired) do
       setPairing cfg (fi_id inst) (mkPairingUpdate (Some P_expired) (Some None) None None None)).

Definition pruneChannelStates (active : list FleetInstance) (m : Memory) : Memory :=
  let live := List.map fi_id active in
  setChannelStates (filter (fun kv => kv.1 ∈ live) (mm_channelStates m))
    (setDegraded (filter (fun id => id ∈ live) (mm_degraded m)) m).

(** ** A poll *)
Definition reportOf (checked : CheckedInstance) : LivenessReport :=
  mkReport (fi_id (ch_inst checked))
    (match ch_health checked with Some h => he_liveness h | None => S_unknown end).

Definition processAll (checked : list CheckedInstance) : Fleet X unit :=
  forM checked (fun c => match ch_health c with
                         | None => ret tt
                         | Some h => attempt (processResult (ch_inst c) h)
                         end).

(** The report the observer is given, if any. *)
Definition runPoll : Fleet X (option (list LivenessReport)) :=
  catch
    (let! active := readRows (findByStatuses managed HEALTH_STATUSES) in
     writeMem (pruneChannelStates active);;;
     let! checked := traverse checkHost (groupByHost fi_hostId active) in
     let all := List.concat checked in
     processAll all;;;
     ret (Some (List.map reportOf all)))
    (fun _ => ret None).

(** A poll that finds another one running is skipped. *)
Definition pollAll : Fleet X (option (list LivenessReport)) :=
  let! busy := onMem (fun m => (mm_polling m, setMonitorBusy true m)) in
  if busy : bool then ret None
  else
    let! report := runPoll in
    writeMem (setMonitorBusy false);;;
    ret report.
End Monitor.

(** ** What the health monitor promises

    What the health monitor does and does not do:
    [orchestrator/src/services/health-monitor.ts]. *)
(** ** The accesses of a poll *)

(** What a poll leaves alone in a row. *)
Definition settledPart (i : FleetInstance) :=
  (fi_id i, fi_userId i, fi_hostId i, fi_runtimeKind i, fi_displayName i, fi_containerName i, fi_gatewayPort i,
   fi_errorMessage i, fi_pairingStartedAt i, fi_hasWhatsappCreds i, fi_backupImport i, fi_litellm i,
   fi_movedFromHostId i, fi_moveObjectName i, fi_movedAt i, fi_moveImportedAt i,
   fi_createdAt i, fi_stoppedAt i, fi_destroyedAt i).

Record Watched (r r' : Row) : Prop := mkWatched {
  wa_settings : ro_settings r' = ro_settings r;
  wa_settled : settledPart r' = settledPart r;
  wa_status : fi_status r' = fi_status r \/
              (oneOf HEALTH_STATUSES (fi_status r) = true /\ oneOf HEALTH_STATUSES (fi_status r') = true);
  wa_pairing : fi_pairingStatus r' = fi_pairingStatus r \/ oneOf [P_paired; P_expired] (fi_pairingStatus r') = true;
}.

Record HealthStep {X} (d d' : FleetDb X) : Prop := mkHealthStep {
  hs_rows : Forall2 Watched (fd_rows d) (fd_rows d');
  hs_events : fd_events d' = fd_events d;
  hs_pending : fd_pending d' = fd_pending d;
  hs_reservations : fd_reservations d' = fd_reservations d;
  hs_promoted : fd_promoted d' = fd_promoted d;
  hs_removed : fd_removed d' = fd_removed d;
  hs_sessions : mm_sessions (fd_mem d') = mm_sessions (fd_mem d);
  hs_readopts : mm_readopts (fd_mem d') = mm_readopts (fd_mem d);
  hs_cloud : fd_cloud d' = fd_cloud d;
  hs_manager : mm_cloud (fd_mem d') = mm_cloud (fd_mem d);
}.

Lemma watched_refl r : Watched r r.
Proof. constructor; auto. Qed.

Lemma watched_all_refl rows : Forall2 Watched rows rows.
Proof. induction rows; constructor; [apply watched_refl | assumption]. Qed.

Lemma healthStep_rows {X} (d : FleetDb X) rows : Forall2 Watched (fd_rows d) rows -> HealthStep d (setRows rows d).
Proof. intros H. constructor; auto. Qed.

Lemma healthStep_idle {X} (d d' : FleetDb X) :
  fd_rows d' = fd_rows d -> fd_events d' = fd_events d -> fd_pending d' = fd_pending d ->
  fd_reservations d' = fd_reservations d -> fd_promoted d' = fd_promoted d -> fd_removed d' = fd_removed d ->
  mm_sessions (fd_mem d') = mm_sessions (fd_mem d) -> mm_readopts (fd_mem d') = mm_readopts (fd_mem d) ->
  fd_cloud d' = fd_cloud d -> mm_cloud (fd_mem d') = mm_cloud (fd_mem d) -> HealthStep d d'.
Proof. intros E. constructor; auto. rewrite E. apply watched_all_refl. Qed.

Lemma watched_update (p : FleetInstance -> bool) set rows :
  (forall r : Row, p r = true -> Watched r (setRow set r)) -> Forall2 Watched rows (updateRows p set rows).2.
Proof.
  intros H. destruct (updateRows p set rows) as [res rows'] eqn:E.
  apply updateRows_inv in E as [(e & -> & ->)|[-> ->]]; simpl; [apply watched_all_refl|].
  induction rows as [|r rows IH]; simpl; constructor; [|exact IH].
  destruct (p r) eqn:Ep; [apply H; exact Ep | apply watched_refl].
Qed.

#[export] Instance healthStep_step {X} : FleetStep (@HealthStep X).
Proof.
  constructor.
  - intros x d. apply healthStep_idle; reflexivity.
  - intros x d d' []. constructor; assumption.
Qed.

Section Accesses.
Context {X : Type} `{!ContainerRuntime X, !AgentAdapter X, !Collaborators X} (cfg : AppConfig) (hc : HealthMonitorConfig).
Implicit Types inst : FleetInstance.
Abbreviation Keeps m := (FleetGuar.Keeps (X := X) HealthStep m).
Abbreviation Gives m Q := (FleetGuar.Gives (X := X) HealthStep m Q).

Lemma keeps_write p set :
  (forall r : Row, p (ro_fleet r) = true -> Watched r (setRow set r)) -> Keeps (onRows (updateRows p set)).
Proof. intros H. apply keeps_onRows; [apply _|]. intros d. apply healthStep_rows, watched_update. exact H. Qed.

Lemma keeps_mem (f : Memory -> Memory) :
  (forall m, mm_sessions (f m) = mm_sessions m /\ mm_readopts (f m) = mm_readopts m /\ mm_cloud (f m) = mm_cloud m) -> Keeps (writeMem f).
Proof. intros Hf. apply keeps_writeMem. intros d. apply healthStep_idle; try reflexivity; apply Hf. Qed.

Lemma keeps_setContainerId id c : Keeps (setContainerId cfg id c).
Proof.
  apply keeps_bind; [apply keeps_now | intros t]. apply keeps_bind; [|intros; apply keeps_ret].
  apply keeps_write. intros r _. constructor; auto.
Qed.

Lemma keeps_setHealth id failures status seen :
  oneOf HEALTH_STATUSES status = true -> Keeps (setHealth cfg id failures status seen).
Proof.
  intros Hs. apply keeps_bind; [apply keeps_now | intros t]. apply keeps_bind; [|intros; apply keeps_ret].
  apply keeps_write. intros r Hr. bools.
  destruct seen; constructor; try reflexivity; [right; auto | left; reflexivity | right; auto | left; reflexivity].
Qed.

Lemma keeps_setPairing id status account :
  oneOf [P_paired; P_expired] status = true ->
  Keeps (setPairing cfg id (mkPairingUpdate (Some status) account None None None)).
Proof.
  intros Hs. apply keeps_bind; [apply keeps_now | intros t]. apply keeps_bind; [|intros; apply keeps_ret].
  apply keeps_write. intros r _. destruct account; constructor; try reflexivity; auto.
Qed.

Local Hint Extern 1 (FleetGuar.Keeps _ (writeMem _)) => apply keeps_mem; auto : keeps.
Local Hint Resolve keeps_setContainerId : keeps.

Lemma keeps_tryLocate inst : Keeps (tryLocate cfg inst).
Proof. unfold tryLocate, locateContainer. keeps. Qed.
Local Hint Resolve keeps_tryLocate : keeps.

Lemma keeps_resolve inst url : Keeps (resolveWhatsappState hc inst url).
Proof. unfold resolveWhatsappState. keeps. Qed.
Local Hint Resolve keeps_resolve : keeps.

Lemma keeps_checkOne inst : Keeps (checkOne cfg hc inst).
Proof. unfold checkOne, trackReadiness. keeps. Qed.

Lemma gives_checkHost group : Gives (checkHost cfg hc group) (fun l => List.map ch_inst l = group.2).
Proof.
  apply keeps_bind; [apply keeps_host | intros _]. apply keeps_bind; [apply keeps_ext', _ | intros b]. destruct (negb b).
  - apply gives_ret. rewrite map_map. apply map_id.
  - eapply gives_weaken; [apply (gives_traverse _ _ (fun i c => ch_inst c = i))|].
    + intros i _. apply keeps_bind; [|intros r; apply gives_ret; reflexivity].
      apply gives_catch; [apply keeps_checkOne | intros; apply keeps_ret].
    + intros l H. induction H as [|i c l1 l2 <- _ IH]; simpl; [reflexivity | f_equal; exact IH].
Qed.

Lemma failedStatus_health failures status :
  oneOf HEALTH_STATUSES status = true -> oneOf HEALTH_STATUSES (failedStatus hc failures status) = true.
Proof. intros H. unfold failedStatus. destruct (_ <=? _); [reflexivity|]. destruct (_ <=? _); [reflexivity | exact H]. Qed.

Lemma keeps_processResult inst result :
  oneOf HEALTH_STATUSES (fi_status inst) = true -> Keeps (processResult cfg hc inst result).
Proof.
  intros Hs. apply keeps_bind; [apply keeps_now | intros t].
  destruct (he_healthy result); [|destruct (bool_decide (_ = S_unknown)); [apply keeps_ret|]].
  - apply keeps_bind; [|intros _].
    + destruct (needsHealthyWrite t inst); [apply keeps_setHealth; reflexivity | apply keeps_ret].
    + destruct (_ && _); [apply keeps_setPairing; reflexivity | apply keeps_ret].
  - apply keeps_bind; [apply keeps_setHealth, failedStatus_health; exact Hs | intros _].
    destruct (_ && _); [apply keeps_setPairing; reflexivity | apply keeps_ret].
Qed.

(** The report names the bots that were read, each once, host by host. *)
Lemma groupByHost_perm {T} (hostOf : T -> string) (l : list T) :
  Permutation (List.concat (List.map snd (groupByHost hostOf l))) l.
Proof.
  unfold groupByHost. rewrite map_map. simpl.
  assert (H : forall hs, NoDup hs -> (forall i, In i l -> In (hostOf i) hs) ->
    Permutation (List.concat (List.map (fun h => List.filter (fun i => str_eqb (hostOf i) h) l) hs)) l).
  { intros hs Hnd Hin. induction l as [|i l IH].
    - clear. induction hs; simpl; auto.
    - assert (E : Permutation
        (List.concat (List.map (fun h => List.filter (fun i => str_eqb (hostOf i) h) (i :: l)) hs))
        (i :: List.concat (List.map (fun h => List.filter (fun i => str_eqb (hostOf i) h) l) hs))).
      { specialize (Hin i (or_introl eq_refl)). clear IH. induction hs as [|h hs IHh]; [destruct Hin|].
        apply NoDup_cons in Hnd as [Hh Hnd]. cbn [List.map List.concat List.filter].
        destruct (str_eqb (hostOf i) h) eqn:E.
        - apply str_eqb_eq in E. cbn [List.app]. apply perm_skip, Permutation_app_head.
          clear IHh. revert Hh. rewrite <- E. clear. intros Hh. induction hs as [|h' hs IH]; [reflexivity|].
          apply not_elem_of_cons in Hh as [Hne Hh]. simpl. destruct (str_eqb (hostOf i) h') eqn:E'.
          + apply str_eqb_eq in E'. congruence.
          + apply Permutation_app_head, IH. exact Hh.
        - destruct Hin as [Ehi|Hin]; [rewrite Ehi, str_eqb_refl in E; discriminate|].
          transitivity (List.filter (fun j => str_eqb (hostOf j) h) l ++ i ::
             List.concat (List.map (fun h => List.filter (fun i => str_eqb (hostOf i) h) l) hs)).
          + apply Permutation_app_head. apply IHh; assumption.
          + symmetry. apply Permutation_middle. }
      rewrite E. apply perm_skip, IH. intros j Hj. apply Hin. right. exact Hj. }
  apply H.
  - apply NoDup_remove_dups.
  - intros i Hi. apply list_elem_of_In, elem_of_remove_dups, list_elem_of_In, in_map_iff. eauto.
Qed.

Lemma filter_oneOf statuses (rows : list Row) i :
  In i (findByStatuses (ac_managedHostIds cfg) statuses rows) -> oneOf statuses (fi_status i) = true.
Proof.
  unfold findByStatuses. intros H. apply in_map_iff in H as (r & <- & H). apply filter_In in H as [_ H]. bools. assumption.
Qed.

Definition Reports (o : option (list LivenessReport)) : Prop :=
  forall report, o = Some report -> exists rows, Permutation (List.map lr_instanceId report)
    (List.map fi_id (findByStatuses (ac_managedHostIds cfg) HEALTH_STATUSES rows)).

Lemma gives_runPoll : Gives (runPoll cfg hc) Reports.
Proof.
  apply gives_catch; [|intros; apply gives_ret; discriminate].
  eapply gives_bind; [apply gives_readRows, _|]. intros active (rows & ->).
  apply keeps_bind; [apply keeps_mem; auto | intros _].
  set (active := findByStatuses _ _ rows).
  eapply gives_bind; [apply (gives_traverse _ _ (fun g l => List.map ch_inst l = g.2)); intros; apply gives_checkHost|].
  intros checked Hc.
  assert (Hp : Permutation (List.map ch_inst (List.concat checked)) active).
  { rewrite <- (groupByHost_perm fi_hostId active), concat_map. clear -Hc.
    induction Hc as [|g l gs ls E _ IH]; simpl; [reflexivity|]. rewrite E. apply Permutation_app_head, IH. }
  apply keeps_bind; [|intros _].
  - apply keeps_forM. intros c Hin. destruct (ch_health c); [|apply keeps_ret].
    apply keeps_attempt, keeps_processResult. apply (filter_oneOf _ rows), (Permutation_in _ Hp), in_map_iff. eauto.
  - apply gives_ret. intros report [= <-]. exists rows. rewrite map_map. unfold reportOf. simpl.
    rewrite <- (map_map ch_inst fi_id). apply Permutation_map. exact Hp.
Qed.

Lemma gives_pollAll : Gives (pollAll cfg hc) Reports.
Proof.
  apply keeps_bind; [|intros b].
  - apply keeps_atomic. intros d. split; [apply healthStep_idle; reflexivity | auto].
  - destruct b; [apply gives_ret; discriminate|].
    eapply gives_bind; [apply gives_runPoll|]. intros report Hr.
    apply keeps_bind; [apply keeps_mem; auto | intros _; apply gives_ret; exact Hr].
Qed.
End Accesses.

#[export] Instance healthStep_rel {X} : StepRel (@HealthStep X).
Proof.
  constructor.
  - intros d. apply healthStep_idle; reflexivity.
  - intros d1 d2 d3 [H1 ? ? ? ? ? ? ?] [H2 ? ? ? ? ? ? ?]. constructor; try congruence.
    clear -H1 H2. revert H2. generalize (fd_rows d3). induction H1 as [|x y l l' Hxy _ IH]; intros l3 H3;
      inversion H3 as [|? z ? l3' Hyz Hl]; subst; constructor; [|apply IH; exact Hl].
    destruct Hxy as [A1 A2 A3 A4], Hyz as [B1 B2 B3 B4]. constructor; try congruence.
    + destruct A3 as [E|[E E']], B3 as [F|[F F']]; rewrite ?F, ?E in *; auto.
    + destruct A4 as [E|E], B4 as [F|F]; rewrite ?F, ?E in *; auto.
Qed.

(** ** The bot's home is not its business *)
Lemma watched_light r r' :
  Watched r r' ->
  fi_id r' = fi_id r /\ fi_hostId r' = fi_hostId r /\ fi_movedFromHostId r' = fi_movedFromHostId r /\
  fi_moveObjectName r' = fi_moveObjectName r /\ fi_gatewayPort r' = fi_gatewayPort r /\
  (forall s, oneOf HEALTH_STATUSES s = false -> (fi_status r' = s <-> fi_status r = s)).
Proof.
  intros [_ H2 H3 _]. unfold settledPart in H2. injection H2. intros. repeat split; try assumption.
  - destruct H3 as [->|[E E']]; [auto | intros; congruence].
  - destruct H3 as [->|[E E']]; [auto | intros; congruence].
Qed.

Lemma healthStep_inv {X} (d d' : FleetDb X) : HealthStep d d' -> Inv d -> Inv d'.
Proof.
  intros [Hr _ _ _ Hp _ _ _ _ _] (H1 & H2 & H3).
  assert (E : List.map (fun r : Row => fi_id r) (fd_rows d') = List.map (fun r : Row => fi_id r) (fd_rows d)).
  { clear -Hr. induction Hr as [|x y l l' Hxy _ IH]; simpl; [reflexivity|]. rewrite IH.
    f_equal. apply (watched_light _ _ Hxy). }
  unfold Inv. rewrite E, Hp. split; [exact H1|]. split; [|exact H3].
  clear -Hr H2. induction Hr as [|x y l l' Hxy _ IH]; [constructor|]. apply Forall_cons in H2 as [Hx Hl].
  constructor; [|auto]. destruct (watched_light _ _ Hxy) as (A1 & A2 & A3 & A4 & _ & A5). unfold RowInv in *.
  rewrite A1, A2, A3, A4, (A5 I_provisioning eq_refl). exact Hx.
Qed.

Lemma healthStep_view {X} managed id (d d' : FleetDb X) : HealthStep d d' -> view managed id d' = view managed id d.
Proof.
  intros [Hr _ _ _ Hp _ _ _ _ _]. unfold view, findRow, isPromoted. rewrite Hp.
  induction Hr as [|x y l l' Hxy _ IH]; simpl; [reflexivity|].
  destruct (watched_light _ _ Hxy) as (A1 & A2 & A3 & A4 & _ & A5). destruct Hxy as [A6 _ _ _].
  unfold isRow at 1 3. rewrite A1. destruct (str_eqb (fi_id x) id); [|exact IH]. simpl. unfold viewOf, owned.
  rewrite A2, A3, A4, A6. do 2 f_equal; apply bool_decide_ext, A5; reflexivity.
Qed.

(** The health monitor only watches.  Whatever else runs, every access of a poll to the
    store is a [HealthStep]: it moves a status only between running, degraded and
    unhealthy, declares a pairing paired or expired, and touches none of a row's
    placement, move, configuration, ports and time stamps of its life, nor the
    events, reservations and volumes.  A poll that reports to the observer names
    exactly the bots it read as up, each once - so a host that does not answer
    does not make the auto-restarter forget a bot.  And such steps are what the
    operations that move bots and keep their state allow of others meanwhile. *)
Theorem poll_only_watches {X} `{!ContainerRuntime X, !AgentAdapter X, !Collaborators X} cfg hc :
  Gives HealthStep (pollAll cfg hc) (Reports cfg) /\
  (forall managed id (d d' : FleetDb X), HealthStep d d' -> Inv d ->
     Inv d' /\ view managed id d' = view managed id d /\ LogStep d d').
Proof.
  split.
  - apply gives_pollAll.
  - intros managed id d d' H Hi. split; [apply (healthStep_inv d); assumption|].
    split; [apply healthStep_view; assumption | apply logStep_refl, hs_removed; assumption].
Qed.

(** ** Thresholds *)
Section Thresholds.
Context {X : Type} `{!ContainerRuntime X, !AgentAdapter X, !Collaborators X} (cfg : AppConfig) (hc : HealthMonitorConfig).
Context (db_answers : forall x : X, (db_next x).1 = St_done) (id : string).
Abbreviation managed := (ac_managedHostIds cfg).
Abbreviation W := (World (FleetDb X) unit).

(** The verdict on the bot's current row, as the next poll reads it. *)
Definition judgeRow (result : HealthResult) : Fleet X unit :=
  let! active := readRows (findByStatuses managed HEALTH_STATUSES) in
  match List.find (isRow id) active with
  | Some inst => processResult cfg hc inst result
  | None => ret tt
  end.

(** The bot's row, in a world where nothing else happens. *)
Definition Alone (w : W) (i : FleetInstance) : Prop :=
  AtRest id w i /\ oneOf HEALTH_STATUSES (fi_status i) = true /\ owned managed i = true.

Lemma alone_id w i : Alone w i -> fi_id i = id.
Proof. intros [Hs _]. apply (settled_id id w i Hs). Qed.

(** A watched change keeps the row's place in the port index. *)
Lemma watched_port (r : Row) set : Watched r (setRow set r) -> holdsPort set r.
Proof.
  intros Hw. destruct (watched_light _ _ Hw) as (_ & A2 & _ & _ & A5 & _). simpl in A2, A5.
  split; [exact A2|]. split; [exact A5|]. unfold inIndex.
  destruct (wa_status _ _ Hw) as [E|[E E']]; simpl in *; [rewrite E; auto|].
  intros _. destruct (fi_status r); discriminate E || reflexivity.
Qed.

(** An update of the bot's row that is a watched change. *)
Lemma alone_update (p : FleetInstance -> bool) set (w : W) i :
  Alone w i -> (forall j, p j = true -> isRow id j = true) -> p i = true ->
  (forall r : Row, p r = true -> Watched r (setRow set r)) -> oneOf HEALTH_STATUSES (fi_status (applySet set i)) = true ->
  exists w', onRows (updateRows p set) w = (inr true, w') /\ Alone w' (applySet set i) /\ w_now w' = w_now w.
Proof.
  intros (Hs & Hst & Ho) Hid Hpi Hw Hs'.
  pose proof (Hw (mkRow i (inl EmptyString)) Hpi) as Hwi.
  destruct (settled_update db_answers id p set w i Hs Hid Hpi (watched_port _ _ Hwi)) as (w' & E & Hs1 & Hn & _).
  exists w'. split; [exact E|]. split; [|exact Hn]. split; [exact Hs1|]. split; [exact Hs'|].
  destruct (watched_light _ _ Hwi) as (_ & A2 & _). unfold owned in *. simpl in A2. rewrite A2. exact Ho.
Qed.

Lemma alone_owned w i : Alone w i -> ownedRow managed id i = true.
Proof. intros Ha. unfold ownedRow, isRow. rewrite (alone_id _ _ Ha), str_eqb_refl. apply Ha. Qed.

Lemma owned_row j : ownedRow managed id j = true -> isRow id j = true.
Proof. unfold ownedRow. intros H. bools. assumption. Qed.

Lemma alone_write (p : FleetInstance -> bool) (set : Z -> list Assign) w i :
  Alone w i -> (forall j, p j = true -> isRow id j = true) -> p i = true ->
  (forall r : Row, p r = true -> Watched r (setRow (set (w_now w)) r)) ->
  oneOf HEALTH_STATUSES (fi_status (applySet (set (w_now w)) i)) = true ->
  exists w', (let! t := now in let! _ := onRows (updateRows p (set t)) in ret tt) w = (inr tt, w') /\
    Alone w' (applySet (set (w_now w)) i).
Proof.
  intros Ha H1 H2 H3 H4. destruct (alone_update p _ w i Ha H1 H2 H3 H4) as (w' & E & Ha' & _).
  exists w'. split; [|exact Ha']. unfold bind, now. rewrite E. reflexivity.
Qed.

Lemma alone_setHealth w i failures status seen :
  Alone w i -> oneOf HEALTH_STATUSES status = true ->
  exists w' i', setHealth cfg id failures status seen w = (inr tt, w') /\ Alone w' i' /\
    fi_healthFailures i' = failures /\ fi_status i' = status.
Proof.
  intros Ha Hs.
  destruct (alone_write (fun j => ownedRow managed id j && oneOf HEALTH_STATUSES (fi_status j))
    (fun t => [A_healthFailures failures; A_status status; A_updatedAt t]
              ++ (if seen then [A_lastSeenAt (Some t)] else [])) w i Ha) as (w' & E & Ha').
  - intros j Hj. bools. apply owned_row. assumption.
  - rewrite (alone_owned _ _ Ha). apply Ha.
  - intros r Hr. bools. destruct seen; constructor; try reflexivity; [right; auto | left; reflexivity | right; auto | left; reflexivity].
  - destruct seen; exact Hs.
  - exists w'. eexists. split; [exact E|]. split; [exact Ha' | destruct seen; auto].
Qed.

Lemma alone_setPairing w i status account :
  Alone w i -> oneOf [P_paired; P_expired] status = true ->
  exists w' i', setPairing cfg id (mkPairingUpdate (Some status) account None None None) w = (inr tt, w') /\
    Alone w' i' /\ fi_healthFailures i' = fi_healthFailures i /\ fi_status i' = fi_status i.
Proof.
  intros Ha Hs.
  destruct (alone_write (fun j => ownedRow managed id j && true)
    (fun t => [A_updatedAt t] ++ given A_pairingStatus (Some status) ++ given A_whatsappAccountId account
              ++ given A_hasWhatsappCreds None ++ given A_lastSeenAt None ++ given A_pairingStartedAt None) w i Ha)
    as (w' & E & Ha').
  - intros j Hj. bools. apply owned_row. assumption.
  - rewrite (alone_owned _ _ Ha). reflexivity.
  - intros r _. destruct account; constructor; try reflexivity; auto.
  - destruct account; apply Ha.
  - exists w'. eexists. split; [exact E|]. split; [exact Ha' | destruct account; auto].
Qed.

Lemma bind_run {A B} (m : Fleet X A) (k : A -> Fleet X B) w a w' : m w = (inr a, w') -> bind m k w = k a w'.
Proof. apply bind_ok. Qed.

(** One verdict. *)
Lemma judge_failing w i result :
  Alone w i -> he_healthy result = false -> he_liveness result <> S_unknown ->
  exists w' i', processResult cfg hc i result w = (inr tt, w') /\ Alone w' i' /\
    fi_healthFailures i' = fi_healthFailures i + 1 /\
    fi_status i' = failedStatus hc (fi_healthFailures i + 1) (fi_status i).
Proof.
  intros Ha Hh Hl. unfold processResult. rewrite (bind_run now _ w (w_now w) w) by reflexivity.
  rewrite Hh, bool_decide_eq_false_2 by exact Hl. cbv zeta. rewrite (alone_id _ _ Ha).
  set (s := failedStatus hc (fi_healthFailures i + 1) (fi_status i)).
  destruct (alone_setHealth w i (fi_healthFailures i + 1) s false Ha) as (w1 & i1 & E1 & Ha1 & Hf1 & Hs1).
  { apply failedStatus_health, Ha. }
  rewrite (bind_run _ _ _ _ _ E1). destruct (_ && _).
  - destruct (alone_setPairing w1 i1 P_expired (Some None) Ha1 eq_refl) as (w2 & i2 & E2 & Ha2 & Hf2 & Hs2).
    exists w2, i2. split; [exact E2|]. split; [exact Ha2|]. rewrite Hf2, Hs2. auto.
  - exists w1, i1. auto.
Qed.

Lemma judge_healthy w i result :
  Alone w i -> he_healthy result = true -> 0 <= fi_healthFailures i ->
  exists w' i', processResult cfg hc i result w = (inr tt, w') /\ Alone w' i' /\
    fi_healthFailures i' = 0 /\ fi_status i' = I_running.
Proof.
  intros Ha Hh Hn. unfold processResult. rewrite (bind_run now _ w (w_now w) w) by reflexivity.
  rewrite Hh, (alone_id _ _ Ha).
  assert (exists w1 i1, (when needsHealthyWrite (w_now w) i do setHealth cfg id 0 I_running true) w = (inr tt, w1) /\
            Alone w1 i1 /\ fi_healthFailures i1 = 0 /\ fi_status i1 = I_running) as (w1 & i1 & E1 & Ha1 & Hf1 & Hs1).
  { destruct (needsHealthyWrite (w_now w) i) eqn:En.
    - destruct (alone_setHealth w i 0 I_running true Ha eq_refl) as (w1 & i1 & ?). exists w1, i1. assumption.
    - unfold needsHealthyWrite in En. apply orb_false_elim in En as [En _]. apply orb_false_elim in En as [Es Ef].
      apply negb_false_iff, bool_decide_eq_true_1 in Es. exists w, i. repeat split; try apply Ha; [lia | exact Es]. }
  rewrite (bind_run _ _ _ _ _ E1). destruct (_ && _).
  - destruct (alone_setPairing w1 i1 P_paired None Ha1 eq_refl) as (w2 & i2 & E2 & Ha2 & Hf2 & Hs2).
    exists w2, i2. split; [exact E2|]. split; [exact Ha2|]. rewrite Hf2, Hs2. auto.
  - exists w1, i1. auto.
Qed.

Lemma judgeRow_run w i result :
  Alone w i -> exists w1, Alone w1 i /\ judgeRow result w = processResult cfg hc i result w1.
Proof.
  intros Ha. pose proof Ha as ([He Hr Hp Hids] & Hs & Ho).
  destruct (run_onRows db_answers (fun l => (inr (findByStatuses managed HEALTH_STATUSES l), l)) w He) as (x & E).
  exists (mkWorld (setRows (fd_rows (w_db w)) (setX x (w_db w))) [] (w_now w) (w_calls w)).
  split; [|unfold judgeRow; rewrite (bind_run _ _ _ _ _ E)].
  - split; [constructor; assumption || reflexivity | auto].
  - assert (Hf : List.find (isRow id) (findByStatuses managed HEALTH_STATUSES (fd_rows (w_db w))) = Some i).
    { clear -Hr Hs Ho. unfold rowOf in Hr. unfold findByStatuses. induction (fd_rows (w_db w)) as [|r l IH]; [discriminate|].
      simpl in Hr. destruct (isRow id r) eqn:E.
      - injection Hr as Hr. subst i. simpl. rewrite Ho, Hs. simpl. rewrite E. reflexivity.
      - simpl. destruct (_ && _); simpl; [rewrite E|]; apply IH; exact Hr. }
    rewrite Hf. reflexivity.
Qed.

Lemma failedStatus_again n s : failedStatus hc (n + 1) (failedStatus hc n s) = failedStatus hc (n + 1) s.
Proof.
  unfold failedStatus. destruct (hm_unhealthyThreshold hc <=? n + 1) eqn:A; [reflexivity|].
  destruct (hm_degradedThreshold hc <=? n + 1) eqn:B; [reflexivity|]. apply Z.leb_gt in A, B.
  rewrite (proj2 (Z.leb_gt (hm_unhealthyThreshold hc) n)), (proj2 (Z.leb_gt (hm_degradedThreshold hc) n)) by lia. reflexivity.
Qed.

Lemma failing_polls results w i :
  Alone w i -> Forall (fun r => he_healthy r = false /\ he_liveness r <> S_unknown) results ->
  exists w' i', forM results judgeRow w = (inr tt, w') /\ Alone w' i' /\
    fi_healthFailures i' = fi_healthFailures i + Z.of_nat (length results) /\
    (fi_status i = failedStatus hc (fi_healthFailures i) I_running ->
     fi_status i' = failedStatus hc (fi_healthFailures i') I_running).
Proof.
  revert w i. induction results as [|r l IH]; intros w i Ha Hall.
  - exists w, i. simpl. repeat split; try apply Ha; [lia | auto].
  - apply Forall_cons in Hall as [[Hr1 Hr2] Hl].
    destruct (judgeRow_run w i r Ha) as (w0 & Ha0 & E0).
    destruct (judge_failing w0 i r Ha0 Hr1 Hr2) as (w1 & i1 & E1 & Ha1 & Hf1 & Hs1). clear Hr1 Hr2.
    destruct (IH w1 i1 Ha1 Hl) as (w' & i' & E' & Ha' & Hf' & Hs').
    exists w', i'. split; [cbn [forM]; rewrite (bind_run (judgeRow r) (fun _ => forM l judgeRow) w tt w1 (eq_trans E0 E1)); exact E'|]. split; [exact Ha'|].
    split; [rewrite Hf', Hf1; cbn [length]; lia|]. intros Hi. apply Hs'. rewrite Hs1, Hf1, Hi. apply failedStatus_again.
Qed.
End Thresholds.

(** A bot that keeps failing is marked by the length of its run of failures, and one
    good answer clears it: a bot that is running with no failures is, after any
    [n] failing polls in a row, still running below [degradedThreshold], degraded
    from there and unhealthy from [unhealthyThreshold], and a healthy poll after
    them puts it back to running with no failures. *)
Theorem health_thresholds {X} `{!ContainerRuntime X, !AgentAdapter X, !Collaborators X} cfg hc id w i failing healthy :
  (forall x : X, (db_next x).1 = St_done) ->
  Alone cfg id w i -> fi_healthFailures i = 0 -> fi_status i = I_running ->
  0 < hm_degradedThreshold hc -> 0 < hm_unhealthyThreshold hc ->
  Forall (fun r => he_healthy r = false /\ he_liveness r <> S_unknown) failing -> he_healthy healthy = true ->
  exists w1 i1 w2 i2,
    forM failing (judgeRow cfg hc id) w = (inr tt, w1) /\ rowOf id (w_db w1) = Some i1 /\
    fi_healthFailures i1 = Z.of_nat (length failing) /\
    fi_status i1 = failedStatus hc (Z.of_nat (length failing)) I_running /\
    judgeRow cfg hc id healthy w1 = (inr tt, w2) /\ rowOf id (w_db w2) = Some i2 /\
    fi_healthFailures i2 = 0 /\ fi_status i2 = I_running.
Proof.
  intros Hdb Ha H0 Hs Hd Hu Hf Hh.
  destruct (failing_polls cfg hc Hdb id failing w i Ha Hf) as (w1 & i1 & E1 & Ha1 & Hf1 & Hs1).
  destruct (judgeRow_run cfg hc Hdb id w1 i1 healthy Ha1) as (w0 & Ha0 & E0).
  destruct (judge_healthy cfg hc Hdb id w0 i1 healthy Ha0 Hh) as (w2 & i2 & E2 & Ha2 & Hf2 & Hs2); [lia|].
  exists w1, i1, w2, i2. rewrite H0 in *. simpl in Hf1. rewrite Hf1 in Hs1.
  repeat split; try assumption; try apply Ha1; try apply Ha2; [|rewrite E0; exact E2].
  apply Hs1. rewrite Hs. unfold failedStatus.
  rewrite (proj2 (Z.leb_gt (hm_unhealthyThreshold hc) 0)), (proj2 (Z.leb_gt (hm_degradedThreshold hc) 0)) by assumption. reflexivity.
Qed.

(** ** The channel *)
Section Channel.
Context (hc : HealthMonitorConfig).
Implicit Types log : list (Z * WhatsappLinkState).

Definition unanswered (a : WhatsappLinkState) : bool :=
  match a with Wl_probe_failed | Wl_protocol_error => true | _ => false end.

(** What one poll makes of a bot's channel, as [resolveWhatsappState] does: the
    entry, the state it reports, and the probes made so far, newest first. *)
Definition channelPoll (t : Z) (answer : WhatsappLinkState) (entry : option ChannelStateEntry) log
  : option ChannelStateEntry * WhatsappLinkState * list (Z * WhatsappLinkState) :=
  match reusable t entry with
  | Some e => (entry, effectiveState e t (hm_channelStateMaxAgeMs hc), log)
  | None => let '(next, state) := probeResult hc t entry answer in (Some next, state, (t, answer) :: log)
  end.

(** Polls at the given times, whatever the probes answer. *)
Inductive ChannelRun : Z -> option ChannelStateEntry -> list (Z * WhatsappLinkState) -> Prop :=
| channel_start t : 0 < t -> ChannelRun t None []
| channel_poll t t' answer entry log entry' state log' :
    ChannelRun t entry log -> t <= t' ->
    channelPoll t' answer entry log = (entry', state, log') -> ChannelRun t' entry' log'.

(** The probes without an answer since the last answer; that answer. *)
Fixpoint failing log : Z :=
  match log with (_, a) :: l => if unanswered a then failing l + 1 else 0 | [] => 0 end.
Definition lastAnswer log : option (Z * WhatsappLinkState) := List.find (fun p => negb (unanswered p.2)) log.

(** How long a probe keeps the next one away. *)
Definition waits (failures : Z) : Z := if failures =? 0 then hm_channelPollIntervalMs hc else backoffMs hc failures.

Fixpoint Spaced log : Prop :=
  match log with
  | (t2, _) :: older =>
      match older with (t1, _) :: _ => t1 + waits (failing older) <= t2 | [] => True end /\ Spaced older
  | [] => True
  end.

(** The entry is what the log says. *)
Definition Reflects (t : Z) (entry : option ChannelStateEntry) log : Prop :=
  0 < t /\ Spaced log /\ Forall (fun p => 0 < p.1 <= t) log /\
  match entry, log with
  | None, [] => True
  | Some e, (th, _) :: _ =>
      ce_consecutiveFailures e = failing log /\ ce_nextAttemptAt e = th + waits (failing log) /\
      match lastAnswer log with
      | None => ce_establishedAt e = 0 /\ ce_state e = Wl_unknown
      | Some (t0, a) => ce_establishedAt e = t0 /\ ce_state e = a
      end
  | _, _ => False
  end.

Lemma failing_nonneg log : 0 <= failing log.
Proof. induction log as [|[t a] l IH]; simpl; [lia|]. destruct (unanswered a); lia. Qed.

Lemma spaced_probe t entry log t' :
  Reflects t entry log -> t <= t' -> reusable t' entry = None -> forall a, Spaced ((t', a) :: log).
Proof.
  intros (Ht & Hs & Hl & He) Hle Hf a. simpl. split; [|exact Hs]. unfold reusable in Hf.
  destruct log as [|[th b] l]; [exact I|]. destruct entry as [e|]; [|destruct He].
  destruct He as (_ & Hn & _). destruct (t' <? ce_nextAttemptAt e) eqn:E; [discriminate|]. lia.
Qed.

Lemma within t t' log : Forall (fun p : Z * WhatsappLinkState => 0 < p.1 <= t) log -> t <= t' ->
  Forall (fun p => 0 < p.1 <= t') log.
Proof. intros H Hle. eapply Forall_impl; [exact H|]. simpl. intros. lia. Qed.

Lemma poll_reflects t entry log t' answer entry' state log' :
  Reflects t entry log -> t <= t' -> channelPoll t' answer entry log = (entry', state, log') -> Reflects t' entry' log'.
Proof.
  intros HR Hle Hp. pose proof (spaced_probe _ _ _ _ HR Hle) as Hsp. destruct HR as (Ht & Hs & Hl & He).
  unfold channelPoll in Hp. destruct (reusable t' entry) eqn:Ef.
  - injection Hp as <- _ <-. split; [lia|]. split; [exact Hs|]. split; [apply (within t); assumption | exact He].
  - destruct (probeResult hc t' entry answer) as [next st] eqn:Epr. injection Hp as <- _ <-.
    split; [lia|]. split; [apply Hsp; reflexivity|]. split; [constructor; [simpl; lia | apply (within t); assumption]|].
    unfold probeResult in Epr. destruct answer; injection Epr as <- _; simpl;
      try (split; [reflexivity|]; split; [reflexivity | split; reflexivity]).
    all: pose proof (failing_nonneg log); unfold waits; rewrite (proj2 (Z.eqb_neq (failing log + 1) 0)) by lia.
    all: destruct entry as [e|], log as [|[th b] l]; try (destruct He; fail);
      [destruct He as (-> & _ & He) | ]; simpl; repeat (split; [reflexivity|]); try exact He; split; reflexivity.
Qed.

Lemma run_reflects t entry log : ChannelRun t entry log -> Reflects t entry log.
Proof.
  induction 1 as [t Ht|t t' answer entry log entry' state log' _ IH Hle Hp].
  - repeat split; auto.
  - exact (poll_reflects _ _ _ _ _ _ _ _ IH Hle Hp).
Qed.

(** The health monitor takes a bot's channel for dead only on evidence.  In every run of
    polls, at any times and whatever the probes answer: a poll that reports
    "disconnected" has for its last answered probe one that said so, no older than
    [channelStateMaxAgeMs]; and two probes of a bot are apart by the poll interval,
    or, after [k] probes in a row without an answer, by the [k]-th back-off, which
    doubles up to its maximum. *)
Theorem channel_evidence t entry log t' answer entry' state log' :
  0 <= hm_channelStateMaxAgeMs hc -> ChannelRun t entry log -> t <= t' ->
  channelPoll t' answer entry log = (entry', state, log') ->
  Spaced log' /\
  (state = Wl_disconnected ->
   exists t0, lastAnswer log' = Some (t0, Wl_disconnected) /\ t' - t0 <= hm_channelStateMaxAgeMs hc).
Proof.
  intros Hm Hrun Hle Hp. pose proof (run_reflects _ _ _ Hrun) as HR.
  pose proof (poll_reflects _ _ _ _ _ _ _ _ HR Hle Hp) as HR'. split; [apply HR'|].
  assert (Heff : forall e, Reflects t' (Some e) log' -> effectiveState e t' (hm_channelStateMaxAgeMs hc) = Wl_disconnected ->
    exists t0, lastAnswer log' = Some (t0, Wl_disconnected) /\ t' - t0 <= hm_channelStateMaxAgeMs hc).
  { intros e (_ & _ & _ & He) Hd. unfold effectiveState in Hd.
    destruct (ce_establishedAt e =? 0) eqn:E0; [discriminate|]. destruct (_ <? _) eqn:E1; [discriminate|].
    destruct log' as [|[th b] l]; [destruct He|]. destruct He as (_ & _ & He).
    destruct (lastAnswer _) as [[t0 a]|]; [|lia]. destruct He as [E2 E3]. exists t0. split; [congruence | lia]. }
  intros ->. unfold channelPoll in Hp. destruct (reusable t' entry) as [e|] eqn:Ef.
  - injection Hp as <- Hs <-. unfold reusable in Ef. destruct entry as [e'|]; [|discriminate].
    destruct (_ <? _); [|discriminate]. injection Ef as ->. apply (Heff e); assumption.
  - destruct (probeResult hc t' entry answer) as [next st] eqn:Epr. injection Hp as <- -> <-.
    unfold probeResult in Epr. destruct answer; try discriminate.
    + exists t'. split; [reflexivity | lia].
    + apply (Heff next HR'). congruence.
    + apply (Heff next HR'). congruence.
Qed.
End Channel.

(** [channelPoll] is what [resolveWhatsappState] does. *)
Lemma resolve_channelPoll {X} `{!AgentAdapter X} hc (inst : FleetInstance) url (w : World (FleetDb X) unit) :
  w_env w = [] ->
  let answer := match (ad_probeWhatsapp (fi_hostId inst) inst url (fd_x (w_db w))).1 with
                | inr a => a | inl _ => Wl_probe_failed end in
  let '(entry', state, _) := channelPoll hc (w_now w) answer (mm_channelStates (fd_mem (w_db w)) !! fi_id inst) [] in
  exists w', resolveWhatsappState hc inst url w = (inr state, w') /\
    mm_channelStates (fd_mem (w_db w')) !! fi_id inst = entry'.
Proof.
  intros He answer. destruct w as [d env t calls]. simpl in He. subst env. cbn [w_db w_now] in *.
  unfold channelPoll, resolveWhatsappState, readMem, query, bind, now, atomic, catch, ext. cbn [w_env w_db w_now w_calls].
  destruct (mm_channelStates (fd_mem d) !! fi_id inst) as [e|] eqn:Ee.
  1: destruct (reusable t (Some e)) as [e'|] eqn:Ef; [eexists; split; [reflexivity | exact Ee]|].
  2: destruct (reusable t None) as [e'|] eqn:Ef; [discriminate|].
  all: unfold atomic; cbn [w_env w_db w_now w_calls]; subst answer;
    destruct (ad_probeWhatsapp (fi_hostId inst) inst url (fd_x d)) as [[err|a] x]; cbn -[probeResult];
    match goal with |- context [probeResult ?c ?tm ?en ?an] => destruct (probeResult c tm en an) as [next st] end;
    eexists; (split; [reflexivity|]); simpl; apply lookup_insert_eq.
Qed.

(** ** Runs *)
Definition demoHealth : HealthMonitorConfig := mkHealthMonitorConfig 60000 600000 3600000 2 4.
Definition demoWatch : World (FleetDb Sim) unit := simWorld (simRow "a" I_degraded (Some "c1") None None) ["bot"] true [].
Definition demoPoll : (OrchError + option (list LivenessReport)) * World (FleetDb Sim) unit :=
  let _ := simCollaborators (fun x => (St_done, x)) in pollAll simConfig demoHealth demoWatch.

(** A bot that answers again is running again. *)
Lemma poll_only_watches_witness :
  let c := simCollaborators (fun x => (St_done, x)) in
  option_map fi_status (rowOf "bot" (w_db demoPoll.2)) = Some I_running /\
  HealthStep (w_db demoWatch) (w_db demoPoll.2) /\
  match demoPoll.1 with inr o => Reports simConfig o | inl _ => True end.
Proof.
  intros c. split; [vm_compute; reflexivity|].
  destruct (poll_only_watches (X := Sim) simConfig demoHealth) as [H _].
  destruct (H HealthStep healthStep_rel (fun d d' Hd => Hd) demoWatch demoPoll.1 demoPoll.2 I (Forall_nil_2 _)) as (_ & H1 & _ & H2).
  - unfold demoPoll. destruct (pollAll _ _ _). reflexivity.
  - split; assumption.
Defined.

Definition down : HealthResult := mkHealthResult false S_down false.
Definition live : HealthResult := mkHealthResult true S_live false.

Lemma health_thresholds_witness :
  let c := simCollaborators (fun x => (St_done, x)) in
  exists w1 i1 w2 i2,
    forM [down; down; down] (judgeRow simConfig demoHealth "bot")
      (simWorld (simRow "a" I_running (Some "c1"%string) None None) ["bot"%string] true []) = (inr tt, w1) /\
    rowOf "bot" (w_db w1) = Some i1 /\ fi_healthFailures i1 = 3 /\ fi_status i1 = I_degraded /\
    judgeRow simConfig demoHealth "bot" live w1 = (inr tt, w2) /\ rowOf "bot" (w_db w2) = Some i2 /\
    fi_healthFailures i2 = 0 /\ fi_status i2 = I_running.
Proof.
  intros c.
  apply (health_thresholds simConfig demoHealth "bot" _
           (ro_fleet (simRow "a" I_running (Some "c1"%string) None None)) [down; down; down] live);
    try reflexivity.
  - split; [|split; reflexivity]. constructor; try reflexivity. apply (bool_decide_unpack _). vm_compute. exact I.
  - repeat constructor; discriminate.
Defined.

Lemma channel_evidence_witness :
  let e1 := mkChannelState Wl_disconnected 100 60100 0 in
  let e2 := mkChannelState Wl_disconnected 100 120100 1 in
  Spaced demoHealth [(60100, Wl_probe_failed); (100, Wl_disconnected)] /\
  exists t0, lastAnswer [(60100, Wl_probe_failed); (100, Wl_disconnected)] = Some (t0, Wl_disconnected) /\
    70000 - t0 <= 600000.
Proof.
  intros e1 e2.
  destruct (channel_evidence demoHealth 60100 (Some e2) [(60100, Wl_probe_failed); (100, Wl_disconnected)]
    70000 Wl_connected (Some e2) Wl_disconnected [(60100, Wl_probe_failed); (100, Wl_disconnected)]) as [H1 H2].
  - vm_compute. discriminate.
  - refine (channel_poll demoHealth 100 60100 Wl_probe_failed (Some e1) [(100, Wl_disconnected)] _ Wl_disconnected _ _ _ _);
      [|vm_compute; discriminate | vm_compute; reflexivity].
    refine (channel_poll demoHealth 1 100 Wl_disconnected None [] _ Wl_disconnected _ _ _ _);
      [apply channel_start; reflexivity | vm_compute; discriminate | vm_compute; reflexivity].
  - vm_compute. discriminate.
  - vm_compute. reflexivity.
  - split; [exact H1 | apply H2; reflexivity].
Defined.

(** ** An expired pairing comes back without evidence

    The channel was found disconnected and the pairing marked expired; since then no
    probe answers, and the old answer is past its age.  The next poll, with nothing
    known of the channel, declares the pairing paired. *)
#[local] Instance silentChannel : AgentAdapter Sim := {|
  ad_image := @ad_image _ simAdapter;
  ad_internalPort := @ad_internalPort _ simAdapter;
  ad_maxBackupBytes := @ad_maxBackupBytes _ simAdapter;
  ad_containerName := @ad_containerName _ simAdapter;
  ad_stateVolumeName := @ad_stateVolumeName _ simAdapter;
  ad_writeConfig := @ad_writeConfig _ simAdapter;
  ad_applyConfig := @ad_applyConfig _ simAdapter;
  ad_seedWorkspace := @ad_seedWorkspace _ simAdapter;
  ad_prepareState := @ad_prepareState _ simAdapter;
  ad_isOnCurrentImage := @ad_isOnCurrentImage _ simAdapter;
  ad_verify := @ad_verify _ simAdapter;
  ad_exportVolume := @ad_exportVolume _ simAdapter;
  ad_importVolume := @ad_importVolume _ simAdapter;
  ad_restoreState := @ad_restoreState _ simAdapter;
  ad_probeGateway := @ad_probeGateway _ simAdapter;
  ad_probeWhatsapp h i u x := (inl (PlainError "timeout"), x);
|}.

Definition expiredRow : Row :=
  setRow [A_pairingStatus P_expired; A_hasWhatsappCreds true] (simRow "a" I_unhealthy (Some "c1") None None).
Definition silentWorld : World (FleetDb Sim) unit :=
  let w := simWorld expiredRow ["bot"] true [] in
  mkWorld (setMem (setChannelStates {["bot" := mkChannelState Wl_disconnected 100 60100 0]} emptyMemory) (w_db w))
    [] 700000 [].

Lemma expired_pairing_revived :
  let _ := simCollaborators (fun x => (St_done, x)) in
  option_map fi_pairingStatus (rowOf "bot" (w_db (pollAll simConfig demoHealth silentWorld).2)) = Some P_paired.
Proof. vm_compute. reflexivity. Qed.
