(* ===== verification/PairingManager.v ===== *)
(** Linking a bot to the owner's WhatsApp:
    [orchestrator/src/services/pairing-manager.ts], the session registry
    [pairing-session-registry.ts] (kept in [Memory]) and [tenant-ca.ts].

    A sidecar container shows the code to scan and posts the credentials back.
    [startPairingLocked] is the body that runs under the registry's lock of the
    bot, [activateWhatsapp] the task [completePairing] leaves in the background.
    Log lines and the proxying of the sidecar's pages are left out.  The clock of a
    request stands still, so [waitForLink] counts what its polls take. *)
From Stdlib Require Import Ascii.
From S2P Require Import Prelude JsString Fleet Hosts FleetStore FleetWorld InstanceManager FleetLogic FleetGuar.
From stdpp Require Import list strings pretty gmap.
#[local] Open Scope Z_scope.

Definition SIDECAR_TMPFS_SIZE_MB : Z := 16.
Definition LINK_WAIT_MS : Z := 45000.
Definition LINK_POLL_MS : Z := 2000.
Definition HELLO_ATTEMPTS : nat := 3.
Definition READY_EVENT : string := "pair.ready".
Definition PAIR_AUTHENTICATED_EVENT : string := "pair.authenticated".

Definition helloMessage (displayName : string) : string :=
  "היי, זה " +:+ displayName +:+ " 👋 החיבור הצליח. אפשר לכתוב לי כאן כל דבר.".

(** ** runtime-users.ts, tenant-ca.ts *)
Definition TENANT_CA_CONTAINER_PATH : string := "/etc/agent-forall/ca.crt".

(** Name, path in the container, read-only. *)
Record VolumeMount := mkMount { vm_name : string; vm_containerPath : string; vm_readOnly : bool }.

Record SidecarOptions := mkSidecar {
  so_name : string;
  so_image : string;
  so_envVars : list string;
  so_memoryBytes : Z;
  so_cpuShares : Z;
  so_labels : list (string * string);
  so_volumeMounts : list VolumeMount;
  so_tmpfsMounts : list (string * string);
  (** port, bind address, host port *)
  so_publish : option (Z * string * Z);
}.

Definition withTenantCa (o : SidecarOptions) (hostCertPath : option string) : SidecarOptions :=
  match truthy hostCertPath with
  | None => o
  | Some cert =>
      mkSidecar (so_name o) (so_image o) (so_envVars o ++ ["NODE_EXTRA_CA_CERTS=" +:+ TENANT_CA_CONTAINER_PATH])
        (so_memoryBytes o) (so_cpuShares o) (so_labels o)
        (so_volumeMounts o ++ [mkMount cert TENANT_CA_CONTAINER_PATH true]) (so_tmpfsMounts o) (so_publish o)
  end.

(** [tmpfsOptions(PAIRING_USER, mb)]. *)
Definition tmpfsOptions (sizeMb : Z) : string :=
  "rw,noexec,nosuid,size=" +:+ pretty sizeMb +:+ "m,uid=1001,gid=1001,mode=700".

(** [PairingConfig]. *)
Record PairingConfig := mkPairingConfig {
  pc_image : string;
  pc_port : Z;
  pc_hostPortOffset : Z;
  pc_idleTimeoutMs : Z;
  pc_logLevel : string;
  pc_orchestratorInternalUrl : string;
  pc_tenantCaCertPath : option string;
}.

Inductive ChannelStartOutcome := Start_started | Start_unavailable (reason : string).

Inductive PairingStart := Pairing_started (expiresInMs : Z) | Pairing_already_active (expiresInMs : Z).

(** What the pairing calls outside, beyond what the manager does. *)
Class PairingRuntime (X : Type) := {
  rt_createSidecar : string -> SidecarOptions -> Ext X string;
  rt_removeIfExists : string -> string -> Ext X unit;
  ad_injectWhatsappSession : string -> string -> string -> Ext X unit;
  ad_startWhatsappChannel : string -> string -> Ext X ChannelStartOutcome;
  ad_sendWhatsappMessage : string -> string -> string -> string -> Ext X bool;
  (** unlinked, cleared *)
  ad_logoutWhatsapp : string -> string -> Ext X (bool * bool);
  (** How long a probe and the sleep after it took. *)
  linkPollTook : X -> Z * X;
}.

(** ** pairing-session-registry.ts *)
Definition isHexChar (c : ascii) : bool :=
  let n := nat_of_ascii c in
  ((48 <=? n)%nat && (n <=? 57)%nat) || ((65 <=? n)%nat && (n <=? 70)%nat) || ((97 <=? n)%nat && (n <=? 102)%nat).

(** /^[0-9a-f]{64}$/i *)
Definition isToken (token : string) : bool :=
  (String.length token =? 64)%nat && forallb isHexChar (list_ascii_of_string token).

Definition validateToken (instanceId token : string) (m : Memory) : bool :=
  isToken token &&
  match mm_sessions m !! instanceId with
  | Some s => str_eqb token (ps_authToken s)
  | None => false
  end.

Section Pairing.
Context {X : Type} `{!ContainerRuntime X, !AgentAdapter X, !Collaborators X, !PairingRuntime X}.
Context (cfg : AppConfig) (pc : PairingConfig).
Implicit Types inst : Instance_.

Let managed := ac_managedHostIds cfg.

Definition shortId (instanceId : string) : string := String.substring 0 12 instanceId.
Definition sidecarNameOf (instanceId : string) : string := "pairing-" +:+ shortId instanceId.

(** [repo.updatePairing] with [expectedPairingStatus]. *)
Definition casPairing (id : string) (patch : PairingUpdate) (expected : list PairingStatus) : Fleet X bool :=
  let! t := now in onRows (updatePairing managed t id patch (Some expected)).

Definition pairingTo (s : PairingStatus) : PairingUpdate := mkPairingUpdate (Some s) None None None None.

Definition AWAITING : list PairingStatus := [P_awaiting_qr; P_awaiting_code].

Definition sessionOf (instanceId : string) : Fleet X (option PairSession) := readMem (fun m => mm_sessions m !! instanceId).
Definition putSession (s : PairSession) : Fleet X unit :=
  writeMem (fun m => setSessions (<[ps_instanceId s := s]> (mm_sessions m)) m).
Definition dropSession (instanceId : string) : Fleet X unit :=
  writeMem (fun m => setSessions (delete instanceId (mm_sessions m)) m).

(** The pairing manager's own [requireInstance]: a destroyed bot is one. *)
Definition requireRow (instanceId : string) : Fleet X Instance_ :=
  let! o := findInstance cfg instanceId in
  match o with Some inst => ret inst | None => throw (notFound instanceId) end.

(** ** Tearing a sidecar down *)
Definition teardownSidecar (instanceId : string) : Fleet X unit :=
  let! session := sessionOf instanceId in
  let! hostId := match session with
    | Some s => ret (ps_hostId s)
    | None => let! inst := requireRow instanceId in ret (fi_hostId inst)
    end in
  let! _ := host cfg hostId in
  let! containerId := match truthy (option_map ps_sidecarContainerId session) with
    | Some c => ret (Some c)
    | None => ext (rt_findContainerByName hostId (sidecarNameOf instanceId))
    end in
  match truthy containerId with
  | None => dropSession instanceId
  | Some c => attempt (ext (rt_remove hostId c);;; dropSession instanceId)
  end.

(** ** Starting *)
Definition reclaimMissingSession inst : Fleet X bool :=
  if negb (oneOf AWAITING (fi_pairingStatus inst)) then ret false
  else
    let! session := sessionOf (fi_id inst) in
    match session with
    | Some _ => ret false
    | None =>
        let! _ := host cfg (fi_hostId inst) in
        let! sidecarId := ext (rt_findContainerByName (fi_hostId inst) (sidecarNameOf (fi_id inst))) in
        let! running := match truthy sidecarId with
          | Some c => ext (rt_isRunning (fi_hostId inst) c)
          | None => ret false
          end in
        if running : bool then ret false
        else casPairing (fi_id inst) (pairingTo P_failed) AWAITING
    end.

Definition buildSidecarEnv (instanceId authToken : string) : list string :=
  ["PAIRING_PORT=" +:+ pretty (pc_port pc);
   "PAIRING_HOST=0.0.0.0";
   "PAIRING_AUTH_TOKEN=" +:+ authToken;
   "ORCHESTRATOR_BASE_URL=" +:+ pc_orchestratorInternalUrl pc;
   "ORCHESTRATOR_SERVICE_TOKEN=" +:+ authToken;
   "INSTANCE_ID=" +:+ instanceId;
   "SESSION_DIR=/data/session";
   "IDLE_TIMEOUT_MS=" +:+ pretty (pc_idleTimeoutMs pc);
   "LOG_LEVEL=" +:+ pc_logLevel pc].

(** Docker DNS only resolves from inside the local network. *)
Definition published (h : HostRuntime) inst : option (Z * string * Z) :=
  match ho_address h with
  | Some a => Some (pc_port pc, a, fi_gatewayPort inst + pc_hostPortOffset pc)
  | None => if ho_dockerNetwork h then None
            else Some (pc_port pc, "127.0.0.1", fi_gatewayPort inst + pc_hostPortOffset pc)
  end.

Definition sidecarOptions (h : HostRuntime) inst (authToken : string) : SidecarOptions :=
  withTenantCa
    (mkSidecar (sidecarNameOf (fi_id inst)) (pc_image pc) (buildSidecarEnv (fi_id inst) authToken)
       (256 * 1024 * 1024) 256
       [("agent-forall.instance-id", fi_id inst); ("agent-forall.role", "pairing")] []
       [("/data/session", tmpfsOptions SIDECAR_TMPFS_SIZE_MB)] (published h inst))
    (pc_tenantCaCertPath pc).

Definition sidecarBaseUrl (h : HostRuntime) inst : string :=
  match published h inst with
  | Some (_, bindIp, hostPort) => "http://" +:+ bindIp +:+ ":" +:+ pretty hostPort
  | None => "http://" +:+ sidecarNameOf (fi_id inst) +:+ ":" +:+ pretty (pc_port pc)
  end.

(** The claim is made: the sidecar is created, and known once it runs. *)
Definition launchSidecar (h : HostRuntime) inst (authToken : string) : Fleet X PairingStart :=
  let id := fi_id inst in
  let hostId := fi_hostId inst in
  let! current := findInstance cfg id in
  match current with
  | Some c =>
      if negb (isSome (findWhatsappChannel (ic_channels (in_config c)))) then throw (NotFoundError "whatsapp channel" id)
      else
        ext (rt_ensureImagePresent hostId (pc_image pc));;;
        ext (rt_removeIfExists hostId (sidecarNameOf id));;;
        let! sidecarId := ext (rt_createSidecar hostId (sidecarOptions h inst authToken)) in
        catch (ext (rt_start hostId sidecarId))
          (fun err => attempt (ext (rt_remove hostId sidecarId));;; throw err);;;
        let! t := now in
        putSession (mkPairSession id hostId sidecarId (sidecarNameOf id) (sidecarBaseUrl h inst) authToken t);;;
        ret (Pairing_started (pc_idleTimeoutMs pc))
  | None => throw (NotFoundError "whatsapp channel" id)
  end.

Definition claimAndLaunch (h : HostRuntime) inst : Fleet X PairingStart :=
  let id := fi_id inst in
  let! t := now in
  let! claimed := casPairing id (mkPairingUpdate (Some P_awaiting_qr) None None None (Some (Some t)))
                    [P_none; P_expired; P_failed] in
  if negb claimed then ret (Pairing_already_active (pc_idleTimeoutMs pc))
  else
    append id "pair.requested" (Some (fi_userId inst));;;
    let! authToken := ext' randomToken in
    catch (launchSidecar h inst authToken)
      (fun err =>
         attempt (let! _ := casPairing id (pairingTo P_failed) [P_awaiting_qr] in ret tt);;;
         throw err).

Definition startPairingLocked inst : Fleet X PairingStart :=
  match truthy (fi_containerId inst) with
  | None => throw (invalid (fi_status inst) "pair")
  | Some _ =>
      if bool_decide (fi_pairingStatus inst = P_paired) then throw (InvalidStateError "paired" "pair")
      else
        (* once reclaimed the row is "failed" and the second call goes on from here *)
        let! _ := reclaimMissingSession inst in
        let! h := host cfg (fi_hostId inst) in
        let! existing := sessionOf (fi_id inst) in
        match existing with
        | Some s =>
            let! running := ext (rt_isRunning (fi_hostId inst) (ps_sidecarContainerId s)) in
            if running : bool then ret (Pairing_already_active (pc_idleTimeoutMs pc))
            else teardownSidecar (fi_id inst);;; claimAndLaunch h inst
        | None => claimAndLaunch h inst
        end
  end.

(** ** Completing *)
Definition persistPairedState (instanceId : string) (accountId : option string) : Fleet X bool :=
  casPairing instanceId (mkPairingUpdate (Some P_paired) (Some accountId) (Some true) None None) AWAITING.

(** Whether the activation is started in the background. *)
Definition completePairing inst (accountId : option string) : Fleet X bool :=
  match truthy (fi_containerId inst) with
  | None => throw (invalid (fi_status inst) "pair_complete")
  | Some _ =>
      let! applied := persistPairedState (fi_id inst) accountId in
      if negb applied then teardownSidecar (fi_id inst);;; ret false
      else
        append (fi_id inst) PAIR_AUTHENTICATED_EVENT None;;;
        teardownSidecar (fi_id inst);;;
        ret true
  end.

Definition completePairingCallback (instanceId : string) (token : option string) (accountId : option string) : Fleet X bool :=
  let! valid := match truthy token with
    | Some t => readMem (validateToken instanceId t)
    | None => ret false
    end in
  if negb valid then throw AuthenticationError
  else
    let! inst := requireRow instanceId in
    completePairing inst accountId.

(** [waitForLink]; [fuel] bounds the polls, see [waitForLink_fuel]. *)
Fixpoint waitForLink (fuel : nat) (elapsed : Z) inst (baseUrl : string) : Fleet X bool :=
  match fuel with
  | O => ret false
  | S fuel' =>
      if LINK_WAIT_MS <=? elapsed then ret false
      else
        let! state := catch (ext (ad_probeWhatsapp (fi_hostId inst) inst baseUrl)) (fun _ => ret Wl_probe_failed) in
        if bool_decide (state = Wl_connected) then ret true
        else
          let! took := ext' linkPollTook in
          waitForLink fuel' (elapsed + took) inst baseUrl
  end.

Definition LINK_FUEL : nat := 23.

Definition awaitLink inst : Fleet X bool :=
  let! h := host cfg (fi_hostId inst) in
  waitForLink LINK_FUEL 0 inst
    (dialUrl h (fi_containerName inst) (fi_gatewayPort inst) (ad_internalPort (fi_runtimeKind inst))).

Fixpoint helloLoop (attempts : nat) inst (containerId ownerNumber : string) : Fleet X bool :=
  match attempts with
  | O => append (fi_id inst) "pair.hello_failed" None;;; ret false
  | S attempts' =>
      let! sent := catch (ext (ad_sendWhatsappMessage (fi_hostId inst) containerId ownerNumber
                                 (helloMessage (fi_displayName inst)))) (fun _ => ret false) in
      if sent : bool then ret true else helloLoop attempts' inst containerId ownerNumber
  end.

Definition sendHello inst (containerId : string) : Fleet X bool :=
  match truthy (match findWhatsappChannel (ic_channels (in_config inst)) with Some c => wa_ownerNumber c | None => None end) with
  | None => ret false
  | Some owner => let! _ := host cfg (fi_hostId inst) in helloLoop HELLO_ATTEMPTS inst containerId owner
  end.

(** The creds go in, then the channel starts; a restart is the fallback.  Answers
    whether the session was injected and, if all went well, whether it linked. *)
Definition linkChannel inst (containerId : string) : Fleet X bool :=
  let id := fi_id inst in
  let! started := ext (ad_startWhatsappChannel (fi_hostId inst) containerId) in
  let! linked := match started with Start_started => awaitLink inst | Start_unavailable _ => ret false end in
  if linked : bool then ret true
  else
    append id "pair.restart_fallback" None;;;
    ext (ad_writeConfig (fi_hostId inst) containerId inst);;;
    ext (rt_restart (fi_hostId inst) containerId);;;
    awaitLink inst.

Definition activationFailed (id : string) (injected : bool) : Fleet X unit :=
  (when negb injected do setPairing cfg id CLEARED_PAIRING);;;
  append id "pair.inject_failed" None.

Definition activateWhatsapp inst (containerId creds : string) : Fleet X unit :=
  let id := fi_id inst in
  let! _ := host cfg (fi_hostId inst) in
  let! injected := catch (ext (ad_injectWhatsappSession (fi_hostId inst) containerId creds);;; ret true)
                     (fun _ => activationFailed id false;;; ret false) in
  if negb injected then ret tt
  else
    let! linked := catch (let! l := linkChannel inst containerId in ret (Some l))
                     (fun _ => activationFailed id true;;; ret None) in
    match linked with
    | None => ret tt
    | Some linked =>
        (if linked : bool then let! _ := sendHello inst containerId in ret tt else ret tt);;;
        append id READY_EVENT None
    end.

Definition isReady (instanceId : string) : Fleet X bool :=
  let! events := statement (fun d => (inr (recent instanceId 30 (fd_events d)), d)) in
  ret (match List.find (fun e => str_eqb (ev_eventType e) READY_EVENT || str_eqb (ev_eventType e) PAIR_AUTHENTICATED_EVENT) events with
       | Some e => str_eqb (ev_eventType e) READY_EVENT
       | None => false
       end).

(** ** Ending *)
Definition logoutWhatsapp (instanceId containerId : string) : Fleet X bool :=
  catch
    (let! inst := requireRow instanceId in
     let! _ := host cfg (fi_hostId inst) in
     let! outcome := ext (ad_logoutWhatsapp (fi_hostId inst) containerId) in
     append instanceId (if outcome.2 : bool then "pair.logged_out" else "pair.logout_failed") None;;;
     ret outcome.2)
    (fun _ => append instanceId "pair.logout_failed" None;;; ret false).

Definition cancelPairing (instanceId : string) : Fleet X unit :=
  let! updated := casPairing instanceId (pairingTo P_failed) AWAITING in
  if negb updated then ret tt
  else
    append instanceId "pair.cancelled" None;;;
    teardownSidecar instanceId.

Definition expireOne inst_id : Fleet X unit :=
  attempt
    (let! updated := casPairing inst_id (pairingTo P_expired) AWAITING in
     if negb updated then ret tt
     else
       append inst_id "pair.timeout" None;;;
       teardownSidecar inst_id).

Definition expireStale (olderThanMs : Z) (hostIds : list string) : Fleet X unit :=
  let! t := now in
  let! stale := readRows (findStalePairings managed t olderThanMs hostIds) in
  forM stale (fun i : FleetInstance => expireOne (fi_id i)).
End Pairing.

(** ** What a pairing promises

    What pairing promises: [orchestrator/src/services/pairing-manager.ts]. *)
(** ** The accesses

    [complete] says whether recording credentials is among them. *)
Inductive PairMove (complete : bool) (r : Row) : Row -> Prop :=
| pm_same : PairMove complete r r
| pm_claim t t' :
    oneOf [P_none; P_expired; P_failed] (fi_pairingStatus r) = true ->
    PairMove complete r (setRow [A_updatedAt t; A_pairingStatus P_awaiting_qr; A_pairingStartedAt (Some t')] r)
| pm_end t s :
    oneOf AWAITING (fi_pairingStatus r) = true -> oneOf [P_failed; P_expired] s = true ->
    PairMove complete r (setRow [A_updatedAt t; A_pairingStatus s] r)
| pm_pair t account :
    complete = true -> oneOf AWAITING (fi_pairingStatus r) = true ->
    PairMove complete r
      (setRow [A_updatedAt t; A_pairingStatus P_paired; A_whatsappAccountId account; A_hasWhatsappCreds true] r).

Record PairStep (complete : bool) {X} (d d' : FleetDb X) : Prop := mkPairStep {
  pst_rows : Forall2 (PairMove complete) (fd_rows d) (fd_rows d');
  pst_events : exists l, fd_events d' = fd_events d ++ l;
  pst_pending : fd_pending d' = fd_pending d;
  pst_reservations : fd_reservations d' = fd_reservations d;
  pst_promoted : fd_promoted d' = fd_promoted d;
  pst_removed : fd_removed d' = fd_removed d;
  pst_readopts : mm_readopts (fd_mem d') = mm_readopts (fd_mem d);
  pst_channels : mm_channelStates (fd_mem d') = mm_channelStates (fd_mem d);
  pst_cloud : fd_cloud d' = fd_cloud d;
  pst_manager : mm_cloud (fd_mem d') = mm_cloud (fd_mem d);
}.

Lemma moves_refl complete rows : Forall2 (PairMove complete) rows rows.
Proof. induction rows; constructor; [apply pm_same | assumption]. Qed.

Lemma pairStep_idle complete {X} (d d' : FleetDb X) l :
  fd_rows d' = fd_rows d -> fd_events d' = fd_events d ++ l -> fd_pending d' = fd_pending d ->
  fd_reservations d' = fd_reservations d -> fd_promoted d' = fd_promoted d -> fd_removed d' = fd_removed d ->
  mm_readopts (fd_mem d') = mm_readopts (fd_mem d) -> mm_channelStates (fd_mem d') = mm_channelStates (fd_mem d) ->
  fd_cloud d' = fd_cloud d -> mm_cloud (fd_mem d') = mm_cloud (fd_mem d) ->
  PairStep complete d d'.
Proof. intros E E'. constructor; auto; [rewrite E; apply moves_refl | eauto]. Qed.

#[export] Instance pairStep_step complete {X} : FleetStep (@PairStep complete X).
Proof.
  constructor.
  - intros x d. apply (pairStep_idle _ _ _ []); try reflexivity. simpl. rewrite app_nil_r. reflexivity.
  - intros x d d' []. constructor; assumption.
Qed.

Lemma moves_update complete (p : FleetInstance -> bool) set rows :
  (forall r : Row, p (ro_fleet r) = true -> PairMove complete r (setRow set r)) ->
  Forall2 (PairMove complete) rows (updateRows p set rows).2.
Proof.
  intros H. destruct (updateRows p set rows) as [res rows'] eqn:E.
  apply updateRows_inv in E as [(e & -> & ->)|[-> ->]]; simpl; [apply moves_refl|].
  induction rows as [|r rows IH]; simpl; constructor; [|exact IH].
  destruct (p r) eqn:Ep; [apply H; exact Ep | apply pm_same].
Qed.

Section Accesses.
Context {X : Type} `{!ContainerRuntime X, !AgentAdapter X, !Collaborators X, !PairingRuntime X}.
Context (cfg : AppConfig) (pc : PairingConfig) (complete : bool).
Implicit Types inst : Instance_.
Abbreviation Keeps m := (FleetGuar.Keeps (X := X) (PairStep complete) m).
Abbreviation Gives m Q := (FleetGuar.Gives (X := X) (PairStep complete) m Q).

Lemma keeps_append id ev actor : Keeps (append id ev actor).
Proof.
  apply keeps_bind; [apply keeps_now | intros t]. apply gives_statement; [apply _|]. intros d. split; [|auto].
  eapply pairStep_idle; reflexivity.
Qed.

Lemma keeps_cas id patch expected :
  (forall t (r : Row), oneOf expected (fi_pairingStatus r) = true ->
     PairMove complete r (setRow ([A_updatedAt t] ++ given A_pairingStatus (pu_pairingStatus patch)
        ++ given A_whatsappAccountId (pu_whatsappAccountId patch) ++ given A_hasWhatsappCreds (pu_whatsappPaired patch)
        ++ given A_lastSeenAt (pu_lastSeenAt patch) ++ given A_pairingStartedAt (pu_pairingStartedAt patch)) r)) ->
  Keeps (casPairing cfg id patch expected).
Proof.
  intros H. apply keeps_bind; [apply keeps_now | intros t]. apply keeps_onRows; [apply _|]. intros d.
  constructor; try reflexivity; [|exists []; rewrite app_nil_r; reflexivity].
  apply moves_update. intros r Hr. bools. apply H. assumption.
Qed.

Lemma keeps_end id s expected :
  oneOf [P_failed; P_expired] s = true -> (forall p, oneOf expected p = true -> oneOf AWAITING p = true) ->
  Keeps (casPairing cfg id (pairingTo s) expected).
Proof. intros Hs He. apply keeps_cas. intros t r Hr. apply (pm_end complete r t s); auto. Qed.

Lemma keeps_claim id t : Keeps (casPairing cfg id (mkPairingUpdate (Some P_awaiting_qr) None None None (Some (Some t)))
  [P_none; P_expired; P_failed]).
Proof. apply keeps_cas. intros t' r Hr. apply (pm_claim complete r t' t Hr). Qed.

Lemma keeps_sessions (f : gmap string PairSession -> gmap string PairSession) :
  Keeps (writeMem (fun m => setSessions (f (mm_sessions m)) m)).
Proof.
  apply keeps_writeMem. intros d. eapply (pairStep_idle _ _ _ []); try reflexivity. simpl. rewrite app_nil_r. reflexivity.
Qed.
Lemma keeps_dropSession id : Keeps (dropSession id).
Proof. apply keeps_sessions. Qed.
Lemma keeps_putSession s : Keeps (putSession s).
Proof. apply (keeps_sessions (fun l => <[ps_instanceId s := s]> l)). Qed.

Local Hint Resolve keeps_append keeps_claim keeps_dropSession keeps_putSession : keeps.
Local Hint Extern 1 (FleetGuar.Keeps _ (casPairing _ _ (pairingTo _) _)) =>
  apply keeps_end; [reflexivity | intros []; auto] : keeps.

Lemma keeps_requireRow id : Keeps (requireRow cfg id).
Proof. unfold requireRow. keeps. Qed.
Local Hint Resolve keeps_requireRow : keeps.

Lemma keeps_teardownSidecar id : Keeps (teardownSidecar cfg id).
Proof. unfold teardownSidecar, sessionOf. keeps. Qed.
Local Hint Resolve keeps_teardownSidecar : keeps.

Lemma keeps_reclaim inst : Keeps (reclaimMissingSession cfg inst).
Proof. unfold reclaimMissingSession, sessionOf. keeps. Qed.
Local Hint Resolve keeps_reclaim : keeps.

Lemma keeps_launchSidecar h inst token : Keeps (launchSidecar cfg pc h inst token).
Proof. unfold launchSidecar. keeps. Qed.
Local Hint Resolve keeps_launchSidecar : keeps.

Lemma keeps_claimAndLaunch h inst : Keeps (claimAndLaunch cfg pc h inst).
Proof. unfold claimAndLaunch. keeps. Qed.
Local Hint Resolve keeps_claimAndLaunch : keeps.

Lemma keeps_startPairing inst : Keeps (startPairingLocked cfg pc inst).
Proof. unfold startPairingLocked, sessionOf. keeps. Qed.

Lemma keeps_cancelPairing id : Keeps (cancelPairing cfg id).
Proof. unfold cancelPairing. keeps. Qed.

Lemma keeps_expireStale age hosts : Keeps (expireStale cfg age hosts).
Proof.
  unfold expireStale. apply keeps_bind; [apply keeps_now | intros t].
  apply keeps_bind; [apply keeps_readRows, _ | intros stale]. apply keeps_forM. intros i _. unfold expireOne. keeps.
Qed.

Lemma keeps_completePairing inst account : complete = true -> Keeps (completePairing cfg inst account).
Proof.
  intros Hc. unfold completePairing. destruct (truthy _); [|apply keeps_throw].
  apply keeps_bind; [|intros applied; destruct (negb applied); keeps].
  apply keeps_cas. intros t r Hr. apply (pm_pair complete r t account Hc Hr).
Qed.
End Accesses.

(** ** Tokens *)
Section Callback.
Context {X : Type} `{!ContainerRuntime X, !AgentAdapter X, !Collaborators X, !PairingRuntime X} (cfg : AppConfig).

Lemma keeps_callback id token account : Keeps (X := X) (PairStep true) (completePairingCallback cfg id token account).
Proof.
  unfold completePairingCallback. apply keeps_bind; [destruct (truthy token); [apply keeps_readMem, _ | apply keeps_ret] | intros v].
  destruct (negb v); [apply gives_throw|].
  apply keeps_bind; [apply keeps_requireRow | intros inst]. apply keeps_completePairing. reflexivity.
Qed.

(** Without the session's token the callback only reads. *)
Lemma callback_rejected id token account (w : World (FleetDb X) unit) :
  w_env w = [] ->
  (forall s t, mm_sessions (fd_mem (w_db w)) !! id = Some s -> token = Some t -> t <> ps_authToken s) ->
  completePairingCallback cfg id token account w = (inl AuthenticationError, w).
Proof.
  intros He Ht. destruct w as [d env t calls]. simpl in He. subst env. cbn [w_db] in *.
  unfold completePairingCallback, bind. destruct token as [[|c tok]|]; try reflexivity.
  cbn [truthy]. unfold readMem, query, atomic. cbn [w_env w_db w_now w_calls].
  assert (E : validateToken id (String c tok) (fd_mem d) = false).
  { unfold validateToken. destruct (mm_sessions (fd_mem d) !! id) as [s|] eqn:Es; [|apply andb_false_r].
    apply andb_false_iff. right. destruct (str_eqb _ _) eqn:E; [|reflexivity]. apply str_eqb_eq in E.
    exfalso. exact (Ht s _ eq_refl eq_refl E). }
  rewrite E. reflexivity.
Qed.
End Callback.

(** C30: Pairing a bot is a sequence of compare-and-set moves, and credentials are recorded
    only by the sidecar.  Whatever else runs, starting, cancelling and expiring
    pairings change a row only by claiming it for a new pairing (from none, expired
    or failed) or by ending one that is in progress; they never record
    credentials, nor touch configuration, status or place.  The callback does, but
    only from a pairing in progress, and without the token of the bot's session it
    is refused and changes nothing. *)
Theorem pairing_moves {X} `{!ContainerRuntime X, !AgentAdapter X, !Collaborators X, !PairingRuntime X} cfg pc :
  (forall inst, Keeps (PairStep false) (startPairingLocked (X := X) cfg pc inst)) /\
  (forall id, Keeps (PairStep false) (cancelPairing (X := X) cfg id)) /\
  (forall age hosts, Keeps (PairStep false) (expireStale (X := X) cfg age hosts)) /\
  (forall id token account, Keeps (PairStep true) (completePairingCallback (X := X) cfg id token account)) /\
  (forall id token account (w : World (FleetDb X) unit), w_env w = [] ->
     (forall s t, mm_sessions (fd_mem (w_db w)) !! id = Some s -> token = Some t -> t <> ps_authToken s) ->
     completePairingCallback cfg id token account w = (inl AuthenticationError, w)).
Proof.
  split; [intros; apply keeps_startPairing|]. split; [intros; apply keeps_cancelPairing|].
  split; [intros; apply keeps_expireStale|]. split; [intros; apply keeps_callback|].
  intros. apply callback_rejected; assumption.
Qed.

(** ** Waiting for the link *)

(** Every poll takes at least the sleep, so that [LINK_FUEL] polls are enough: with more
    fuel the wait ends the same way. *)
Lemma waitForLink_late {X} `{!AgentAdapter X, !PairingRuntime X} fuel elapsed inst url (w : World (FleetDb X) unit) :
  LINK_WAIT_MS <= elapsed -> waitForLink fuel elapsed inst url w = (inr false, w).
Proof. intros H. destruct fuel; simpl; [reflexivity|]. rewrite (proj2 (Z.leb_le _ _) H). reflexivity. Qed.

(** The wait for a fresh link ends.  When every probe with the sleep after it takes at
    least [LINK_POLL_MS], 23 of them pass the deadline, so the loop as the code has
    it - with no bound on its turns - ends within them, with the same answer. *)
Theorem waitForLink_fuel {X} `{!AgentAdapter X, !PairingRuntime X} more inst url (w : World (FleetDb X) unit) :
  (forall x : X, LINK_POLL_MS <= (linkPollTook x).1) ->
  waitForLink (LINK_FUEL + more) 0 inst url w = waitForLink LINK_FUEL 0 inst url w.
Proof.
  intros Hsleep.
  enough (H : forall n elapsed w, LINK_WAIT_MS <= elapsed + Z.of_nat n * LINK_POLL_MS ->
    waitForLink (n + more) elapsed inst url w = waitForLink n elapsed inst url w).
  { apply H. vm_compute. discriminate. }
  induction n as [|n IH]; intros elapsed w0 Hn.
  - simpl Nat.add. rewrite !waitForLink_late by lia. reflexivity.
  - simpl. destruct (_ <=? _); [reflexivity|].
    unfold bind. destruct (catch _ _ w0) as [[e|s] w1]; [reflexivity|]. destruct (bool_decide _); [reflexivity|].
    unfold ext', ext, atomic. destruct (w_env w1) as [|f fs]; simpl.
    + pose proof (Hsleep (fd_x (w_db w1))). destruct (linkPollTook _) as [took x]. apply IH. simpl in *. lia.
    + pose proof (Hsleep (fd_x (f (w_db w1)))). destruct (linkPollTook _) as [took x]. apply IH. simpl in *. lia.
Qed.

(** ** Runs *)
#[export] Instance simPairing : PairingRuntime Sim := {|
  rt_createSidecar h o := logged ("sidecar on " +:+ h) "sidecar";
  rt_removeIfExists h n := ok tt;
  ad_injectWhatsappSession h c s := ok tt;
  ad_startWhatsappChannel h c := ok Start_started;
  ad_sendWhatsappMessage h c n m := ok true;
  ad_logoutWhatsapp h c := ok (true, true);
  linkPollTook x := (2000, x);
|}.

Definition simPairingConfig : PairingConfig :=
  mkPairingConfig "pairing" 8080 1000 120000 "info" "http://orchestrator" None.

Definition whatsappBot : InstanceConfig :=
  mkInstanceConfig "Bot" (ic_provider simBotConfig) [Ch_whatsapp (mkWhatsapp (Some "972501234567") None)]
    DEFAULT_RESOURCE_LIMITS None.
Definition whatsappRow : Row := mkRow (ro_fleet (simRow "a" I_running (Some "c1") None None)) (inr (whatsappBot, "token")).
Definition pairWorld (env : list (FleetDb Sim -> FleetDb Sim)) : World (FleetDb Sim) unit :=
  mkWorld (w_db (simWorld whatsappRow ["bot"] true [])) env 100 [].

(** A whole run of another request, between two accesses of this one. *)
Definition meanwhile {A} (m : Fleet Sim A) (d : FleetDb Sim) : FleetDb Sim := w_db (m (mkWorld d [] 100 [])).2.
Definition quiet (d : FleetDb Sim) : FleetDb Sim := d.

Section Runs.
#[local] Instance runCollaborators : Collaborators Sim := simCollaborators (fun x => (St_done, x)).

Definition startRequest : Fleet Sim PairingStart :=
  let! o := findInstance simConfig "bot" in
  match o with Some i => startPairingLocked simConfig simPairingConfig i | None => throw (notFound "bot") end.

Lemma pairing_moves_witness :
  completePairingCallback simConfig "bot" (Some "guess") None (pairWorld []) = (inl AuthenticationError, pairWorld []).
Proof.
  apply (pairing_moves simConfig simPairingConfig); [reflexivity|].
  intros s t H. vm_compute in H. discriminate.
Defined.

Lemma waitForLink_fuel_witness :
  let w := pairWorld [] in
  waitForLink (LINK_FUEL + 1) 0 (mkInstance (ro_fleet whatsappRow) whatsappBot "token") "http://bot" w
  = waitForLink LINK_FUEL 0 (mkInstance (ro_fleet whatsappRow) whatsappBot "token") "http://bot" w.
Proof. intros w. apply waitForLink_fuel. intros x. vm_compute. discriminate. Defined.

(** The channel leaves while a pairing starts.  [applyConfigLocked] looks for a pairing
    in flight only when it starts, and the sidecar is launched if the row still has
    the channel; between the two the other request goes through, and the bot ends
    paired, with credentials and without the channel. *)
Definition paired (m : World (FleetDb Sim) unit) : option (PairingStatus * bool * bool) :=
  match List.find (fun r : Row => isRow "bot" r) (fd_rows (w_db m)) with
  | Some r => Some (fi_pairingStatus r, fi_hasWhatsappCreds r,
                match ro_settings r with
                | inr (c, _) => isSome (findWhatsappChannel (ic_channels c))
                | inl _ => false
                end)
  | None => None
  end.

Definition completes : FleetDb Sim -> FleetDb Sim :=
  meanwhile (let! i := requireRow simConfig "bot" in completePairing simConfig i (Some "account")).

Lemma channel_lost_while_pairing :
  paired (applyConfigLocked simConfig "bot" "user" (channelsPatch [])
            (pairWorld [quiet; meanwhile startRequest; quiet; quiet; completes])).2
  = Some (P_paired, true, false).
Proof. vm_compute. reflexivity. Qed.

(** A pairing is cancelled while its sidecar is launched: [cancelPairing] finds no
    session and the launch registers one afterwards.  The row says [failed] with the
    sidecar running; a retry is told that a pairing is active, and the code the owner
    scans is thrown away. *)
Definition cancelledLaunch : World (FleetDb Sim) unit :=
  (startRequest (pairWorld (repeat quiet 7 ++ [meanwhile (cancelPairing simConfig "bot")]))).2.

Lemma cancelled_launch_survives :
  option_map fi_pairingStatus (rowOf "bot" (w_db cancelledLaunch)) = Some P_failed /\
  option_map ps_sidecarContainerId (mm_sessions (fd_mem (w_db cancelledLaunch)) !! "bot") = Some "sidecar" /\
  (startRequest (mkWorld (w_db cancelledLaunch) [] 200 [])).1 = inr (Pairing_already_active 120000) /\
  option_map fi_hasWhatsappCreds (rowOf "bot" (completes (w_db cancelledLaunch))) = Some false.
Proof. vm_compute. repeat split; reflexivity. Qed.
End Runs.
