(* ===== verification/Reconciler.v ===== *)
(** Healing what got stuck: [orchestrator/src/services/reconciler.ts].

    [run] is one pass; the code never runs two at once.  [isOperating] is what the
    lock of [OpLock.v] answers at that moment.  Log lines are left out. *)
From S2P Require Import Prelude Fleet Hosts FleetStore FleetWorld InstanceManager FleetLogic FleetGuar.
From S2P Require Import PairingManager.
From stdpp Require Import list strings gmap.
#[local] Open Scope Z_scope.

Definition STALE_PROVISIONING_MS : Z := 5 * 60 * 1000.
Definition RECONCILER_FRESHNESS_GRACE_MS : Z := 30000.

Record ReconcilerDeps := mkReconcilerDeps {
  rd_pairingStaleThresholdMs : Z;
  rd_maxPerWindow : Z;
  rd_windowMs : Z;
}.

Record FoundContainer := mkFound { fc_containerId : string; fc_running : bool; fc_restarting : bool }.

(** The restarts of the window that is open at [now]. *)
Definition readoptsInWindow (windowMs now : Z) (at_ : option (list Z)) : list Z :=
  List.filter (fun t => now - t <? windowMs) (default [] at_).

Section Reconciler.
Context {X : Type} `{!ContainerRuntime X, !AgentAdapter X, !Collaborators X, !PairingRuntime X}.
Context (cfg : AppConfig) (rd : ReconcilerDeps) (isOperating : string -> X -> bool).
Implicit Types inst : FleetInstance.

Let managed := ac_managedHostIds cfg.

(** The rows on hosts that answer. *)
Definition onReachableHosts (rows : list FleetInstance) : Fleet X (list FleetInstance) :=
  foldM (fun reachable (group : string * list FleetInstance) =>
    let! _ := host cfg group.1 in
    let! answers := ext' (gate_check group.1) in
    ret (if answers : bool then reachable ++ group.2 else reachable)) [] (groupByHost fi_hostId rows).

Definition operating (id : string) : Fleet X bool := query (fun d => isOperating id (fd_x d)).

Definition resumeStaleProvisioning : Fleet X unit :=
  let! t := now in
  let! rows := readRows (findStaleProvisioning managed t STALE_PROVISIONING_MS) in
  let! stale := onReachableHosts rows in
  forM stale (fun inst =>
    let! busy := operating (fi_id inst) in
    if busy : bool then ret tt
    else attempt (let! _ := resumeProvisioningLocked cfg (fi_id inst) in ret tt)).

Definition completeDestroy inst : Fleet X unit :=
  setPairing cfg (fi_id inst) CLEARED_PAIRING;;;
  let! _ := host cfg (fi_hostId inst) in
  (match truthy (fi_containerId inst) with Some c => ext (rt_remove (fi_hostId inst) c) | None => ret tt end);;;
  removeStateVolume (fi_hostId inst) inst;;;
  let! _ := setStatus cfg (fi_id inst) I_destroyed None None in ret tt.

Definition resolveOrphanedDestroys : Fleet X unit :=
  let! rows := readRows (findByStatuses managed [I_destroying]) in
  let! destroying := onReachableHosts rows in
  forM destroying (fun inst => attempt (completeDestroy inst)).

(** The container under the row's id, else under the bot's name. *)
Definition resolveContainer inst : Fleet X (option FoundContainer) :=
  let! _ := host cfg (fi_hostId inst) in
  let! byId := match truthy (fi_containerId inst) with
    | Some c =>
        let! s := ext (rt_containerState (fi_hostId inst) c) in
        ret (match s with Some st => Some (mkFound c (ct_running st) (ct_restarting st)) | None => None end)
    | None => ret None
    end in
  match byId with
  | Some f => ret (Some f)
  | None =>
      let! byName := ext (rt_findContainerByName (fi_hostId inst) (fi_containerName inst)) in
      match truthy byName with
      | None => ret None
      | Some c =>
          let! s := ext (rt_containerState (fi_hostId inst) c) in
          match s with
          | None => ret None
          | Some st =>
              setContainerId cfg (fi_id inst) c;;;
              ret (Some (mkFound c (ct_running st) (ct_restarting st)))
          end
      end
  end.

Definition putReadopts (id : string) (o : option (list Z)) : Fleet X unit :=
  writeMem (fun m => setReadopts (match o with Some l => <[id := l]> (mm_readopts m) | None => delete id (mm_readopts m) end) m).

(** A stopped container of a host that never restarts bots itself. *)
Definition readopt inst (containerId : string) : Fleet X unit :=
  let! t := now in
  let! before := readMem (fun m => mm_readopts m !! fi_id inst) in
  let at_ := readoptsInWindow (rd_windowMs rd) t before in
  if rd_maxPerWindow rd <=? Z.of_nat (length at_) then
    putReadopts (fi_id inst) None;;;
    (let! _ := setStatus cfg (fi_id inst) I_stopped None None in ret tt);;;
    attempt (append (fi_id inst) "instance.auto_restart_exhausted" None)
  else
    ext (rt_start (fi_hostId inst) containerId);;;
    putReadopts (fi_id inst) (Some (at_ ++ [t])).

Definition syncOne inst : Fleet X unit :=
  let! container := resolveContainer inst in
  match container with
  | None =>
      let! _ := setStatus cfg (fi_id inst) I_error None (Some "container not found during reconciliation"%string) in ret tt
  | Some c =>
      if fc_running c || fc_restarting c then ret tt
      else
        let! h := host cfg (fi_hostId inst) in
        if bool_decide (ho_restartPolicy h = RP_no) then readopt inst (fc_containerId c)
        else let! _ := setStatus cfg (fi_id inst) I_stopped None None in ret tt
  end.

Definition syncRunningInstances : Fleet X unit :=
  let! rows := readRows (findByStatuses managed HEALTH_STATUSES) in
  let! running := onReachableHosts rows in
  let! t := now in
  forM running (fun inst =>
    if t - RECONCILER_FRESHNESS_GRACE_MS <? fi_updatedAt inst then ret tt
    else
      let! busy := operating (fi_id inst) in
      if busy : bool then ret tt else attempt (syncOne inst)).

Definition expireStalePairings : Fleet X unit :=
  let! reachable := foldM (fun l (h : HostRuntime) =>
    let! answers := ext' (gate_check (ho_hostId h)) in
    ret (if answers : bool then l ++ [ho_hostId h] else l)) [] (ac_hosts cfg) in
  match reachable with
  | [] => ret tt
  | _ => expireStale cfg (rd_pairingStaleThresholdMs rd) reachable
  end.

Definition run : Fleet X unit :=
  resumeStaleProvisioning;;;
  resolveOrphanedDestroys;;;
  syncRunningInstances;;;
  expireStalePairings;;;
  purgeMovedSources cfg isOperating.
End Reconciler.

(** ** What the reconciler promises

    What the reconciler promises: [orchestrator/src/services/reconciler.ts]. *)
(** ** A bot under an operation

    A step that leaves one bot's row, its restarts and the ports alone. *)
Record Spares (id : string) {X} (d d' : FleetDb X) : Prop := mkSpares {
  sp_row : List.find (fun r : Row => isRow id r) (fd_rows d') = List.find (fun r : Row => isRow id r) (fd_rows d);
  sp_readopts : mm_readopts (fd_mem d') !! id = mm_readopts (fd_mem d) !! id;
  sp_events : exists l, fd_events d' = fd_events d ++ l /\ Forall (fun e => ev_instanceId e <> id) l;
  sp_removed : fd_removed d' = fd_removed d;
  sp_pending : fd_pending d' = fd_pending d;
}.

#[export] Instance spares_step id {X} : FleetStep (@Spares id X).
Proof.
  constructor.
  - intros x d. constructor; try reflexivity. exists []. rewrite app_nil_r. split; [reflexivity | constructor].
  - intros x d d' []. constructor; assumption.
Qed.

Lemma spares_rel id {X} : StepRel (@Spares id X).
Proof.
  split.
  - intros d. apply (fs_idle (Spares id)).
  - intros d1 d2 d3 [A1 A2 (l1 & A3 & A4) A5 A6] [B1 B2 (l2 & B3 & B4) B5 B6].
    constructor; try congruence. exists (l1 ++ l2). rewrite B3, A3, app_assoc. split; [reflexivity | apply Forall_app; auto].
Qed.

Section Operating.
Context {X : Type} `{!ContainerRuntime X, !AgentAdapter X, !Collaborators X, !PairingRuntime X}.
Context (cfg : AppConfig) (rd : ReconcilerDeps) (isOperating : string -> X -> bool) (id : string).
Abbreviation Keeps m := (FleetGuar.Keeps (X := X) (Spares id) m).
Abbreviation managed := (ac_managedHostIds cfg).

Lemma spares_update other (p : FleetInstance -> bool) set (d d' : FleetDb X) :
  other <> id -> (forall i, p i = true -> isRow other i = true) ->
  fd_rows d' = (updateRows p set (fd_rows d)).2 -> fd_mem d' = fd_mem d -> fd_events d' = fd_events d ->
  fd_removed d' = fd_removed d -> fd_pending d' = fd_pending d -> Spares id d d'.
Proof.
  intros Hne Hp Hrows Hm He Hrem Hpend. constructor; try assumption.
  - rewrite Hrows. destruct (updateRows p set (fd_rows d)) as [r rows'] eqn:E.
    apply updateRows_inv in E as [(e & _ & ->)|[_ ->]]; [reflexivity|]. simpl. rewrite updated_find.
    destruct (List.find _ _) as [r0|] eqn:Ef; [|reflexivity]. apply find_some in Ef as [_ Hr0].
    destruct (p r0) eqn:Ep; [|reflexivity]. apply Hp in Ep. unfold isRow in *. apply str_eqb_eq in Ep, Hr0. congruence.
  - rewrite Hm. reflexivity.
  - exists []. rewrite app_nil_r. split; [exact He | constructor].
Qed.

Lemma keeps_other_status other status expected msg : other <> id -> Keeps (setStatus cfg other status expected msg).
Proof.
  intros Hne. unfold setStatus. destruct (oneOf _ status); apply keeps_bind; try apply keeps_now; intros t.
  - apply gives_statement; [apply _|]. intros d. split; [|auto].
    destruct (updateStatus managed t other status expected msg (fd_rows d)) as [r l] eqn:E.
    assert (H : Spares id d (setRows l d) /\ Spares id d (notePromoted other (setRows l d))).
    { split; (eapply (spares_update other); [exact Hne | | unfold updateStatus in E; simpl; rewrite E; reflexivity | ..];
        [intros i Hi; unfold ownedRow in Hi; bools; assumption | reflexivity ..]). }
    destruct r as [|[|]]; apply H.
  - apply keeps_onRows; [apply _|]. intros d. eapply (spares_update other); [exact Hne | | reflexivity ..].
    intros i Hi. unfold ownedRow in Hi. bools. assumption.
Qed.

Lemma keeps_other_container other c : other <> id -> Keeps (setContainerId cfg other c).
Proof.
  intros Hne. apply keeps_bind; [apply keeps_now | intros t]. apply keeps_bind; [|intros; apply keeps_ret].
  apply keeps_onRows; [apply _|]. intros d. eapply (spares_update other); [exact Hne | | reflexivity ..].
  intros i Hi. unfold ownedRow in Hi. bools. assumption.
Qed.

Lemma keeps_other_append other ev actor : other <> id -> Keeps (append other ev actor).
Proof.
  intros Hne. apply keeps_bind; [apply keeps_now | intros t]. apply gives_statement; [apply _|]. intros d. split; [|auto].
  constructor; try reflexivity. eexists. split; [reflexivity|]. repeat constructor. exact Hne.
Qed.

Lemma keeps_other_readopts other o : other <> id -> Keeps (putReadopts other o).
Proof.
  intros Hne. apply keeps_writeMem. intros d. constructor; try reflexivity.
  - simpl. destruct o; [apply lookup_insert_ne | apply lookup_delete_ne]; congruence.
  - exists []. rewrite app_nil_r. split; [reflexivity | constructor].
Qed.

Local Hint Resolve keeps_other_status keeps_other_container keeps_other_append keeps_other_readopts : keeps.

Lemma keeps_other_sync (inst : FleetInstance) : fi_id inst <> id -> Keeps (syncOne cfg rd inst).
Proof. intros Hne. unfold syncOne, resolveContainer, readopt. keeps. Qed.

Lemma keeps_reachable rows : Keeps (onReachableHosts (X := X) cfg rows).
Proof.
  unfold onReachableHosts. apply gives_foldM; [|exact I]. intros b g _ _. keeps.
Qed.

Lemma gives_operating i : (forall x, isOperating i x = true) ->
  FleetGuar.Gives (Spares id) (operating isOperating i) (fun b => b = true).
Proof. intros H. apply keeps_atomic. intros d. split; [apply fs_idle, _ | intros a [= <-]; apply H]. Qed.

Lemma keeps_sync : (forall x, isOperating id x = true) -> Keeps (syncRunningInstances cfg rd isOperating).
Proof.
  intros Hop. unfold syncRunningInstances. apply keeps_bind; [apply keeps_readRows, _ | intros rows].
  apply keeps_bind; [apply keeps_reachable | intros running]. apply keeps_bind; [apply keeps_now | intros t].
  apply keeps_forM. intros inst _. destruct (_ <? _); [apply keeps_ret|].
  destruct (decide (fi_id inst = id)) as [E|Hne].
  - rewrite E. eapply gives_bind; [apply gives_operating; exact Hop|]. intros b ->. apply keeps_ret.
  - apply keeps_bind; [unfold operating; apply keeps_query, _ | intros busy]. destruct busy; [apply keeps_ret|].
    apply keeps_attempt, keeps_other_sync. exact Hne.
Qed.
End Operating.

(** ** The budget of restarts *)
Section Budget.
Context {X : Type} `{!ContainerRuntime X, !AgentAdapter X, !Collaborators X, !PairingRuntime X}.
Context (cfg : AppConfig) (rd : ReconcilerDeps) (id : string).
Implicit Types (d : FleetDb X) (starts : list Z).

Definition entryOf d : option (list Z) := mm_readopts (fd_mem d) !! id.
Definition setEntry (o : option (list Z)) d : FleetDb X :=
  setMem (setReadopts (match o with Some l => <[id := l]> (mm_readopts (fd_mem d)) | None => delete id (mm_readopts (fd_mem d)) end)
            (fd_mem d)) d.

(** The bot's restarts since its budget was last used up, newest first, while
    anything else happens to the store and the hosts in between. *)
Inductive Readopting : Z -> FleetDb X -> list Z -> Prop :=
| ra_fresh t d : entryOf d = None -> Readopting t d []
| ra_other t t' d d' starts : Readopting t d starts -> t <= t' -> entryOf d' = entryOf d -> Readopting t' d' starts
| ra_readopt t t' d starts inst c r w' :
    Readopting t d starts -> t <= t' -> fi_id inst = id ->
    readopt cfg rd inst c (mkWorld d [] t' []) = (r, w') ->
    Readopting t' (w_db w')
      match r, entryOf (w_db w') with
      | inr _, Some _ => t' :: starts
      | inl _, Some _ => starts
      | _, None => []
      end.

Definition windowOf (t : Z) starts : list Z := List.filter (fun u => t - u <? rd_windowMs rd) starts.
(** Those made in the window that ends at [s]. *)
Definition madeBy (s : Z) starts : list Z := List.filter (fun u => (s - u <? rd_windowMs rd) && (u <=? s)) starts.

Lemma windowOf_later t t' starts : t <= t' -> windowOf t' (windowOf t starts) = windowOf t' starts.
Proof.
  intros Ht. unfold windowOf. induction starts as [|u l IH]; simpl; [reflexivity|].
  destruct (t - u <? _) eqn:E; simpl; [rewrite IH; reflexivity|].
  apply Z.ltb_ge in E. rewrite (proj2 (Z.ltb_ge _ _)) by lia. exact IH.
Qed.

Lemma madeBy_windowOf s starts : (length (madeBy s starts) <= length (windowOf s starts))%nat.
Proof. unfold madeBy, windowOf. induction starts as [|u l IH]; simpl; [lia|]. destruct (_ <? _), (_ <=? _); simpl; lia. Qed.

Lemma windowOf_shrinks t t' starts : t <= t' -> (length (windowOf t' starts) <= length (windowOf t starts))%nat.
Proof. intros Ht. rewrite <- (windowOf_later t t' starts Ht). apply List.filter_length_le. Qed.

Lemma windowOf_app t l l' : windowOf t (l ++ l') = windowOf t l ++ windowOf t l'.
Proof. apply List.filter_app. Qed.

(** What the entry says of the restarts, at any later time. *)
Definition Mirrors (t : Z) (entry : option (list Z)) starts : Prop :=
  Forall (fun u => u <= t) starts /\
  (forall t', t <= t' -> windowOf t' (default [] entry) = rev (windowOf t' starts)) /\
  (forall s, Z.of_nat (length (madeBy s starts)) <= rd_maxPerWindow rd).

Lemma mirrors_none t : 0 <= rd_maxPerWindow rd -> Mirrors t None [].
Proof. intros H. split; [constructor|]. split; [reflexivity|]. intros s. exact H. Qed.

Lemma mirrors_later t t' entry starts : Mirrors t entry starts -> t <= t' -> Mirrors t' entry starts.
Proof.
  intros (H1 & H2 & H3) Ht. split; [eapply Forall_impl; [exact H1 | simpl; lia]|].
  split; [intros; apply H2; lia | exact H3].
Qed.

Lemma mirrors_start t entry starts :
  Mirrors t entry starts -> Z.of_nat (length (windowOf t (default [] entry))) < rd_maxPerWindow rd ->
  Mirrors t (Some (windowOf t (default [] entry) ++ [t])) (t :: starts).
Proof.
  intros (H1 & H2 & H3) Hroom. split; [constructor; [lia | exact H1]|]. split.
  - intros t' Ht. simpl default. rewrite windowOf_app, windowOf_later by exact Ht. rewrite H2 by exact Ht.
    unfold windowOf. simpl. destruct (t' - t <? _); simpl; [reflexivity | apply app_nil_r].
  - intros s. unfold madeBy. simpl. destruct ((s - t <? _) && (t <=? s)) eqn:E; [|apply H3].
    apply andb_prop in E as [_ E]. apply Z.leb_le in E. cbn [length]. fold (madeBy s starts).
    pose proof (madeBy_windowOf s starts). pose proof (windowOf_shrinks t s starts E).
    rewrite H2, length_rev in Hroom by lia. lia.
Qed.

(** One call of [readopt]. *)
Lemma readopt_run inst c d t : fi_id inst = id ->
  readopt cfg rd inst c (mkWorld d [] t []) =
  if rd_maxPerWindow rd <=? Z.of_nat (length (windowOf t (default [] (entryOf d)))) then
    ((let! _ := setStatus cfg id I_stopped None None in ret tt);;;
     attempt (append id "instance.auto_restart_exhausted" None)) (mkWorld (setEntry None d) [] t [])
  else
    let '(r, x) := rt_start (fi_hostId inst) c (fd_x d) in
    match r with
    | inl e => (inl e, mkWorld (setX x d) [] t [])
    | inr _ => (inr tt, mkWorld (setEntry (Some (windowOf t (default [] (entryOf d)) ++ [t])) (setX x d)) [] t [])
    end.
Proof.
  intros Hid. unfold readopt. rewrite (bind_ok now _ _ t (mkWorld d [] t [])) by reflexivity.
  rewrite Hid. rewrite (bind_ok (readMem _) _ _ (entryOf d) (mkWorld d [] t [])) by reflexivity. cbv zeta.
  change (readoptsInWindow (rd_windowMs rd) t (entryOf d)) with (windowOf t (default [] (entryOf d))).
  destruct (_ <=? _).
  - rewrite (bind_ok (putReadopts id None) _ _ tt (mkWorld (setEntry None d) [] t [])) by reflexivity. reflexivity.
  - destruct (rt_start (fi_hostId inst) c (fd_x d)) as [[e|[]] x] eqn:E.
    + rewrite (bind_err (ext (rt_start (fi_hostId inst) c)) _ _ e (mkWorld (setX x d) [] t [])); [reflexivity|].
      unfold ext, atomic. simpl. rewrite E. reflexivity.
    + rewrite (bind_ok (ext (rt_start (fi_hostId inst) c)) _ _ tt (mkWorld (setX x d) [] t [])); [reflexivity|].
      unfold ext, atomic. simpl. rewrite E. reflexivity.
Qed.

(** Giving up only touches the row and the events. *)
Definition SameMem (d d' : FleetDb X) : Prop := fd_mem d' = fd_mem d.

#[local] Instance sameMem_step : FleetStep SameMem.
Proof. split; [reflexivity | intros x d d' H; exact H]. Qed.

Lemma sameMem_rel : StepRel SameMem.
Proof. split; [reflexivity | intros d1 d2 d3 A B; exact (eq_trans B A)]. Qed.

Lemma keeps_sameMem_setStatus status expected msg : FleetGuar.Keeps SameMem (setStatus cfg id status expected msg).
Proof.
  unfold setStatus. destruct (oneOf _ status); apply keeps_bind; try apply keeps_now; intros t.
  - apply gives_statement; [apply _|]. intros d. split; [|auto].
    destruct (updateStatus _ t id status expected msg (fd_rows d)) as [[e|[|]] l]; reflexivity.
  - apply keeps_onRows; [apply _ | reflexivity].
Qed.

Lemma keeps_given_up : FleetGuar.Keeps SameMem
  ((let! _ := setStatus cfg id I_stopped None None in ret tt);;;
   attempt (append id "instance.auto_restart_exhausted" None)).
Proof.
  apply keeps_bind; [apply keeps_bind; [apply keeps_sameMem_setStatus | intros; apply keeps_ret] | intros _].
  apply keeps_attempt. apply keeps_bind; [apply keeps_now | intros t].
  apply gives_statement; [apply _|]. intros d. split; [reflexivity | auto].
Qed.

Lemma given_up d t r w' : entryOf d = None ->
  ((let! _ := setStatus cfg id I_stopped None None in ret tt);;;
     attempt (append id "instance.auto_restart_exhausted" None)) (mkWorld d [] t []) = (r, w') ->
  entryOf (w_db w') = None.
Proof.
  intros Hd H.
  destruct (keeps_given_up SameMem sameMem_rel (fun _ _ E => E) (mkWorld d [] t []) _ _ I (Forall_nil_2 _) H) as (_ & E & _).
  unfold entryOf. unfold SameMem in E. rewrite E. exact Hd.
Qed.

Lemma readopting_mirrors t d starts : 0 <= rd_maxPerWindow rd -> Readopting t d starts -> Mirrors t (entryOf d) starts.
Proof.
  intros Hmax. induction 1 as [t d E | t t' d d' starts _ IH Ht E | t t' d starts inst c r w' _ IH Ht Hid Hrun].
  - rewrite E. apply mirrors_none. exact Hmax.
  - rewrite E. eapply mirrors_later; eassumption.
  - pose proof (mirrors_later _ _ _ _ IH Ht) as IH'. rewrite readopt_run in Hrun by exact Hid.
    destruct (_ <=? _) eqn:Efull.
    + assert (E : entryOf (w_db w') = None).
      { eapply given_up; [|exact Hrun]. apply lookup_delete_eq. }
      rewrite E. destruct r; apply mirrors_none; exact Hmax.
    + apply Z.leb_gt in Efull. destruct (rt_start _ _ _) as [[e|[]] x]; injection Hrun as <- <-.
      * cbn [w_db]. change (entryOf (setX x d)) with (entryOf d).
        destruct (entryOf d); [exact IH' | apply mirrors_none; exact Hmax].
      * cbn [w_db].
        assert (E : entryOf (setEntry (Some (windowOf t' (default [] (entryOf d)) ++ [t'])) (setX x d))
                    = Some (windowOf t' (default [] (entryOf d)) ++ [t'])) by apply lookup_insert_eq.
        rewrite E. apply mirrors_start; assumption.
Qed.
End Budget.

(** A container that keeps stopping is restarted at most [maxPerWindow] times in any
    [windowMs]: over any run of the reconciler on a bot, with anything else in
    between and a clock that does not go back, every window holds at most that many
    of the restarts made since the budget was last used up.  And the budget is
    exact: [readopt] gives up precisely when [maxPerWindow] of them are in the window
    that ends now; otherwise it starts the container, and counts it if it started. *)
Theorem readopt_budget {X} `{!ContainerRuntime X, !AgentAdapter X, !Collaborators X, !PairingRuntime X}
  cfg rd id t (d : FleetDb X) starts inst c t' :
  0 <= rd_maxPerWindow rd -> Readopting cfg rd id t d starts -> t <= t' -> fi_id inst = id ->
  (forall s, Z.of_nat (length (madeBy rd s starts)) <= rd_maxPerWindow rd) /\
  let '(r, w') := readopt cfg rd inst c (mkWorld d [] t' []) in
  if rd_maxPerWindow rd <=? Z.of_nat (length (windowOf rd t' starts)) then
    entryOf id (w_db w') = None /\
    (r, w') = ((let! _ := setStatus cfg id I_stopped None None in ret tt);;;
               attempt (append id "instance.auto_restart_exhausted" None)) (mkWorld (setEntry id None d) [] t' [])
  else
    w_db w' = match (rt_start (fi_hostId inst) c (fd_x d)).1 with
              | inl _ => setX (rt_start (fi_hostId inst) c (fd_x d)).2 d
              | inr _ => setEntry id (Some (rev (windowOf rd t' starts) ++ [t'])) (setX (rt_start (fi_hostId inst) c (fd_x d)).2 d)
              end.
Proof.
  intros Hmax Hrun Ht Hid. destruct (readopting_mirrors cfg rd id t d starts Hmax Hrun) as (_ & H2 & H3).
  split; [exact H3|]. specialize (H2 t' Ht). rewrite <- H2.
  assert (Hlen : length (windowOf rd t' starts) = length (windowOf rd t' (default [] (entryOf id d)))).
  { rewrite H2, length_rev. reflexivity. }
  rewrite Hlen. destruct (readopt cfg rd inst c (mkWorld d [] t' [])) as [r w'] eqn:E.
  rewrite (readopt_run cfg rd id inst c d t' Hid) in E. destruct (_ <=? _).
  - split; [|symmetry; exact E]. eapply (given_up cfg id); [|exact E]. apply lookup_delete_eq.
  - destruct (rt_start _ _ _) as [[e|[]] x]; injection E as <- <-; reflexivity.
Qed.

(** The reconciler keeps off a bot that is under an operation: whatever else runs, if
    the bot's lock is held throughout, [syncRunningInstances] leaves its row, its
    events and its restarts alone, and never asks for the removal of a volume - of
    this bot or of another. *)
Theorem operating_left_alone {X} `{!ContainerRuntime X, !AgentAdapter X, !Collaborators X, !PairingRuntime X}
  cfg rd (isOperating : string -> X -> bool) id :
  (forall x, isOperating id x = true) ->
  Keeps (X := X) (Spares id) (syncRunningInstances cfg rd isOperating).
Proof. intros H. apply keeps_sync. exact H. Qed.

(** ** What a pass makes of one bot *)
Section Outcome.
Context {X : Type} `{!ContainerRuntime X, !AgentAdapter X, !Collaborators X, !PairingRuntime X}.
Context (cfg : AppConfig) (rd : ReconcilerDeps) (db_answers : forall x : X, (db_next x).1 = St_done) (id : string).
Abbreviation W := (World (FleetDb X) unit).
Abbreviation managed := (ac_managedHostIds cfg).

(** What the bot's host answers, as long as nothing else happens. *)
Record HostAnswers (i : FleetInstance) (h : HostRuntime) (state : string -> option ContainerState) (named : option string)
  : Prop := mkHostAnswers {
  ha_host : hostFor (ac_hosts cfg) (fi_hostId i) = inr h;
  ha_state : forall c x, (rt_containerState (fi_hostId i) c x).1 = inr (state c);
  ha_named : forall x, (rt_findContainerByName (fi_hostId i) (fi_containerName i) x).1 = inr named;
  ha_starts : forall c x, (rt_start (fi_hostId i) c x).1 = inr tt;
}.

(** The container under the row's id, else the one under the bot's name, which the
    row takes on. *)
Definition seen (state : string -> option ContainerState) (c : string) (i : FleetInstance)
  : option (FoundContainer * FleetInstance) :=
  option_map (fun st => (mkFound c (ct_running st) (ct_restarting st), i)) (state c).
Definition underName (now : Z) (state : string -> option ContainerState) (named : option string) (i : FleetInstance)
  : option (FoundContainer * FleetInstance) :=
  match truthy named with
  | Some c => seen state c (applySet [A_containerId (Some c); A_updatedAt now] i)
  | None => None
  end.
Definition containerOf (now : Z) (state : string -> option ContainerState) (named : option string) (i : FleetInstance)
  : option (FoundContainer * FleetInstance) :=
  match match truthy (fi_containerId i) with Some c => seen state c i | None => None end with
  | Some r => Some r
  | None => underName now state named i
  end.

Definition reconciled (now : Z) (policy : RestartPolicy) (state : string -> option ContainerState) (named : option string)
  (restarts : option (list Z)) (i : FleetInstance) : FleetInstance :=
  match containerOf now state named i with
  | None => applySet (statusSet now I_error (Some "container not found during reconciliation"%string)) i
  | Some (c, i') =>
      if fc_running c || fc_restarting c then i'
      else if bool_decide (policy = RP_no)
              && negb (rd_maxPerWindow rd <=? Z.of_nat (length (readoptsInWindow (rd_windowMs rd) now restarts)))
      then i'
      else applySet (statusSet now I_stopped None) i'
  end.

(** The same bot, after calls that leave the store alone. *)
Definition SameStore (w w' : W) : Prop :=
  w_env w' = [] /\ w_now w' = w_now w /\ exists x, w_db w' = setX x (w_db w).

Lemma run_ext {A} (op : Ext X A) (w : W) a : w_env w = [] -> (forall x, (op x).1 = inr a) ->
  exists w', ext op w = (inr a, w') /\ SameStore w w'.
Proof.
  intros He Hop. unfold ext, atomic. rewrite He. specialize (Hop (fd_x (w_db w))).
  destruct (op (fd_x (w_db w))) as [r x]. simpl in Hop. subst r. eexists. split; [reflexivity|].
  split; [reflexivity|]. split; [reflexivity | eexists; reflexivity].
Qed.

Lemma settled_same (w w' : W) i : SameStore w w' -> AtRest id w i -> AtRest id w' i.
Proof. intros (He & _ & x & E) [H1 H2 H3 H4]. constructor; [exact He | rewrite E; assumption ..]. Qed.

Lemma sameStore_mem (w w' : W) : SameStore w w' -> w_now w' = w_now w /\ fd_mem (w_db w') = fd_mem (w_db w).
Proof. intros (_ & En & x & ->). auto. Qed.

(** Calls one after the other. *)
Lemma settled_setContainer (w : W) i c :
  AtRest id w i -> owned managed i = true ->
  exists w', setContainerId cfg id c w = (inr tt, w') /\
    AtRest id w' (applySet [A_containerId (Some c); A_updatedAt (w_now w)] i) /\
    w_now w' = w_now w /\ fd_mem (w_db w') = fd_mem (w_db w).
Proof.
  intros Hs Ho.
  destruct (settled_update db_answers id (ownedRow managed id) [A_containerId (Some c); A_updatedAt (w_now w)] w i Hs)
    as (w' & E & Hs' & Hn & Hm & _).
  - intros j Hj. unfold ownedRow in Hj. bools. assumption.
  - unfold ownedRow, isRow. rewrite (settled_id _ _ _ Hs), str_eqb_refl. exact Ho.
  - split; [reflexivity|]. split; [reflexivity | auto].
  - exists w'. split; [|auto]. unfold setContainerId, updateContainerId.
    rewrite (bind_ok now _ w (w_now w) w) by reflexivity. rewrite (bind_ok _ _ w true w' E). reflexivity.
Qed.

(** A look at one container. *)
Lemma look_run (w : W) i (k : option ContainerState -> option FoundContainer) hostId c st :
  AtRest id w i -> (forall x, (rt_containerState hostId c x).1 = inr st) ->
  exists w', (let! s := ext (rt_containerState hostId c) in ret (k s)) w = (inr (k st), w') /\ SameStore w w'.
Proof.
  intros Hs Hst. destruct (run_ext _ w st (se_env _ _ _ Hs) Hst) as (w' & E & Hw).
  exists w'. rewrite (bind_ok _ _ w st w' E). auto.
Qed.

Definition rowAfter (o : option (FoundContainer * FleetInstance)) (i : FleetInstance) : FleetInstance :=
  match o with Some (_, i') => i' | None => i end.

Lemma byName_run (w : W) i h state named :
  AtRest id w i -> owned managed i = true -> HostAnswers i h state named ->
  exists w',
    (let! byName := ext (rt_findContainerByName (fi_hostId i) (fi_containerName i)) in
     match truthy byName with
     | None => ret None
     | Some c =>
         let! s := ext (rt_containerState (fi_hostId i) c) in
         match s with
         | None => ret None
         | Some st => setContainerId cfg (fi_id i) c;;; ret (Some (mkFound c (ct_running st) (ct_restarting st)))
         end
     end) w = (inr (option_map fst (underName (w_now w) state named i)), w') /\
    AtRest id w' (rowAfter (underName (w_now w) state named i) i) /\
    w_now w' = w_now w /\ fd_mem (w_db w') = fd_mem (w_db w).
Proof.
  intros Hs Ho [_ Hst Hn _].
  destruct (run_ext _ w named (se_env _ _ _ Hs) Hn) as (w2 & E2 & Hw2). rewrite (bind_ok _ _ w _ w2 E2).
  pose proof (settled_same _ _ _ Hw2 Hs) as Hs2. destruct (sameStore_mem _ _ Hw2) as [En2 Em2].
  unfold underName. destruct (truthy named) as [c|]; [|exists w2; auto].
  destruct (run_ext _ w2 (state c) (se_env _ _ _ Hs2) (Hst c)) as (w3 & E3 & Hw3). rewrite (bind_ok _ _ w2 _ w3 E3).
  pose proof (settled_same _ _ _ Hw3 Hs2) as Hs3. destruct (sameStore_mem _ _ Hw3) as [En3 Em3].
  unfold seen. destruct (state c) as [st|]; cbn [option_map fst rowAfter]; [|exists w3; split; [reflexivity|]; split; [exact Hs3 | split; congruence]].
  destruct (settled_setContainer w3 i c Hs3 Ho) as (w4 & E4 & Hs4 & En4 & Em4).
  rewrite <- (settled_id _ _ _ Hs) in E4. rewrite (bind_ok _ _ w3 tt w4 E4). rewrite En3, En2 in Hs4.
  exists w4. split; [reflexivity|]. split; [exact Hs4 | split; congruence].
Qed.

Lemma resolve_run (w : W) i h state named :
  AtRest id w i -> owned managed i = true -> HostAnswers i h state named ->
  exists w', resolveContainer cfg i w = (inr (option_map fst (containerOf (w_now w) state named i)), w') /\
    AtRest id w' (rowAfter (containerOf (w_now w) state named i) i) /\
    w_now w' = w_now w /\ fd_mem (w_db w') = fd_mem (w_db w).
Proof.
  intros Hs Ho Ha. pose proof Ha as [Hh Hst _ _]. unfold resolveContainer, host. rewrite Hh.
  rewrite (bind_ok (lift _) _ w h w) by reflexivity. unfold containerOf.
  destruct (truthy (fi_containerId i)) as [c|].
  - destruct (look_run w i (option_map (fun st => mkFound c (ct_running st) (ct_restarting st))) _ c _ Hs (Hst c))
      as (w1 & E1 & Hw1).
    pose proof (settled_same _ _ _ Hw1 Hs) as Hs1. destruct (sameStore_mem _ _ Hw1) as [En1 Em1].
    rewrite (bind_ok _ _ w _ w1 E1). unfold seen. destruct (state c) as [st|]; cbn [option_map fst].
    + exists w1. auto.
    + destruct (byName_run w1 i h state named Hs1 Ho Ha) as (w' & E & Hs' & En & Em). rewrite En1 in *.
      exists w'. split; [exact E|]. split; [exact Hs' | split; congruence].
  - rewrite (bind_ok (ret None) _ w None w) by reflexivity. exact (byName_run w i h state named Hs Ho Ha).
Qed.

Lemma settled_mem (w : W) i (f : Memory -> Memory) : AtRest id w i ->
  exists w', writeMem f w = (inr tt, w') /\ AtRest id w' i /\ w_now w' = w_now w.
Proof.
  intros [H1 H2 H3 H4]. unfold writeMem, onMem, exec, atomic. rewrite H1. eexists. split; [reflexivity|].
  split; [constructor; simpl; auto | reflexivity].
Qed.

Lemma settled_append (w : W) i ev actor : AtRest id w i ->
  exists w', attempt (append id ev actor) w = (inr tt, w') /\ AtRest id w' i.
Proof.
  intros [H1 H2 H3 H4]. unfold attempt, catch, append. rewrite (bind_ok now _ w (w_now w) w) by reflexivity.
  match goal with |- context [statement ?f w] => destruct (run_statement db_answers f w H1) as (x & ->) end.
  eexists. split; [reflexivity|]. constructor; simpl; auto.
Qed.

Lemma stopped_run (w : W) i s msg :
  AtRest id w i -> owned managed i = true -> inIndex i = true ->
  exists w', (let! _ := setStatus cfg id s None msg in ret tt) w = (inr tt, w') /\
    AtRest id w' (applySet (statusSet (w_now w) s msg) i).
Proof.
  intros Hs Ho Hi.
  destruct (settled_status cfg db_answers id w i s msg Hs Ho (fun _ => Hi)) as (w' & E & Hs' & _).
  exists w'. rewrite (bind_ok _ _ w true w' E). auto.
Qed.

Lemma readopt_settled (w : W) i inst c :
  AtRest id w i -> owned managed i = true -> inIndex i = true -> fi_id inst = id ->
  (forall x, (rt_start (fi_hostId inst) c x).1 = inr tt) ->
  exists w', readopt cfg rd inst c w = (inr tt, w') /\
    AtRest id w' (if negb (rd_maxPerWindow rd <=?
                       Z.of_nat (length (readoptsInWindow (rd_windowMs rd) (w_now w) (entryOf id (w_db w)))))
                   then i else applySet (statusSet (w_now w) I_stopped None) i).
Proof.
  intros Hs Ho Hi Hid Hst. unfold readopt. rewrite (bind_ok now _ w (w_now w) w) by reflexivity. rewrite Hid.
  rewrite (bind_ok (readMem _) _ w (entryOf id (w_db w)) w); cycle 1.
  { unfold readMem, query, atomic. rewrite (se_env _ _ _ Hs). destruct w as [d env t calls].
    pose proof (se_env _ _ _ Hs) as He. simpl in He. subst env. reflexivity. }
  cbv zeta. destruct (_ <=? _); cbn [negb].
  - destruct (settled_mem w i (fun m => setReadopts (delete id (mm_readopts m)) m) Hs) as (w1 & E1 & Hs1 & En1).
    rewrite (bind_ok (putReadopts id None) _ w tt w1 E1).
    destruct (stopped_run w1 i I_stopped None Hs1 Ho Hi) as (w2 & E2 & Hs2). rewrite (bind_ok _ _ w1 tt w2 E2).
    rewrite En1 in Hs2. apply settled_append. exact Hs2.
  - destruct (run_ext (rt_start (fi_hostId inst) c) w tt (se_env _ _ _ Hs) Hst) as (w1 & E1 & Hw1).
    rewrite (bind_ok _ _ w tt w1 E1).
    match goal with |- context [putReadopts id (Some ?l)] =>
      destruct (settled_mem w1 i (fun m => setReadopts (<[id := l]> (mm_readopts m)) m) (settled_same _ _ _ Hw1 Hs))
        as (w2 & E2 & Hs2 & _) end.
    exists w2. auto.
Qed.

Lemma syncOne_run (w : W) i h state named :
  AtRest id w i -> owned managed i = true -> oneOf HEALTH_STATUSES (fi_status i) = true ->
  HostAnswers i h state named ->
  exists w', syncOne cfg rd i w = (inr tt, w') /\
    AtRest id w' (reconciled (w_now w) (ho_restartPolicy h) state named (entryOf id (w_db w)) i).
Proof.
  intros Hs Ho Hst Ha. destruct (resolve_run w i h state named Hs Ho Ha) as (w1 & E1 & Hs1 & En1 & Em1).
  unfold syncOne. rewrite (bind_ok _ _ w _ w1 E1). unfold reconciled.
  assert (Hin : forall j, fi_status j = fi_status i -> inIndex j = true).
  { intros j E. unfold inIndex. rewrite E. destruct (fi_status i); discriminate Hst || reflexivity. }
  assert (Hid : fi_id i = id) by apply (settled_id _ _ _ Hs).
  destruct (containerOf _ _ _ i) as [[c i']|] eqn:Ec; cbn [option_map fst rowAfter] in *.
  2: { rewrite Hid, <- En1. apply stopped_run; auto. }
  assert (Hi' : fi_status i' = fi_status i /\ fi_hostId i' = fi_hostId i).
  { unfold containerOf, underName, seen in Ec.
    destruct (truthy (fi_containerId i)) as [x|]; [destruct (state x); [injection Ec as _ <-; auto|]|];
      (destruct (truthy named) as [y|]; [destruct (state y); [injection Ec as _ <-; auto|]|]; discriminate Ec). }
  destruct Hi' as [Hi1 Hi2]. assert (Ho' : owned managed i' = true) by (unfold owned; rewrite Hi2; exact Ho).
  destruct (_ || _); [exists w1; auto|]. unfold host. rewrite (ha_host _ _ _ _ Ha).
  rewrite (bind_ok (lift _) _ w1 h w1) by reflexivity. destruct (bool_decide _); cbn [andb].
  - replace (entryOf id (w_db w)) with (entryOf id (w_db w1)) by (unfold entryOf; rewrite Em1; reflexivity).
    rewrite <- En1. apply (readopt_settled w1 i' i _ Hs1 Ho' (Hin _ Hi1) Hid (ha_starts _ _ _ _ Ha _)).
  - rewrite Hid, <- En1. apply stopped_run; auto.
Qed.
End Outcome.

(** What a pass makes of a bot that should be up, with a host and a database that
    answer and nobody else at work: with no container under its id or its name its
    row is an error; a container found only under the name is taken on; a bot whose
    container runs or is restarting keeps its row; a stopped one is marked stopped,
    unless its host never restarts bots itself and the budget has room, when it is
    started and keeps its row. *)
Theorem sync_outcomes {X} `{!ContainerRuntime X, !AgentAdapter X, !Collaborators X, !PairingRuntime X} cfg rd id
  (w : World (FleetDb X) unit) i h state named :
  (forall x : X, (db_next x).1 = St_done) ->
  AtRest id w i -> owned (ac_managedHostIds cfg) i = true -> oneOf HEALTH_STATUSES (fi_status i) = true ->
  HostAnswers (X := X) cfg i h state named ->
  exists w', syncOne cfg rd i w = (inr tt, w') /\
    rowOf id (w_db w') = Some (reconciled rd (w_now w) (ho_restartPolicy h) state named (entryOf id (w_db w)) i).
Proof.
  intros Hdb Hs Ho Hst Ha. destruct (syncOne_run cfg rd Hdb id w i h state named Hs Ho Hst Ha) as (w' & E & Hs').
  exists w'. split; [exact E | apply (se_row _ _ _ Hs')].
Qed.

(** ** Runs *)

(** Docker as in [simRuntime], with containers in a given state. *)
Definition runtimeWith (state : Sim -> option ContainerState) : ContainerRuntime Sim := {|
  gate_check := @gate_check _ simRuntime;
  rt_ensureImagePresent := @rt_ensureImagePresent _ simRuntime;
  rt_ensureVolumeExists := @rt_ensureVolumeExists _ simRuntime;
  rt_hasVolume := @rt_hasVolume _ simRuntime;
  rt_removeVolume := @rt_removeVolume _ simRuntime;
  rt_create := @rt_create _ simRuntime;
  rt_start := @rt_start _ simRuntime;
  rt_stop := @rt_stop _ simRuntime;
  rt_restart := @rt_restart _ simRuntime;
  rt_remove h c := logged "removed" tt;
  rt_findContainerByName := @rt_findContainerByName _ simRuntime;
  rt_containerState h c x := (inr (state x), x);
  rt_isRunning := @rt_isRunning _ simRuntime;
  rt_waitForHealthy := @rt_waitForHealthy _ simRuntime;
|}.

Definition stoppedState : option ContainerState := Some (mkContainerState false false CH_none None).
Definition twoPerWindow : ReconcilerDeps := mkReconcilerDeps 600000 2 1000.
Definition runningRow : Row := simRow "a" I_running (Some "c1") None None.
Definition runningDb : FleetDb Sim := w_db (simWorld runningRow ["bot"] true []).

Section Runs.
#[local] Instance passCollaborators : Collaborators Sim := simCollaborators (fun x => (St_done, x)).

(** Two restarts fit in a second; the third attempt gives up. *)
Definition restartAt (t : Z) (d : FleetDb Sim) : FleetDb Sim :=
  w_db (readopt simConfig twoPerWindow (ro_fleet runningRow) "c1" (mkWorld d [] t [])).2.

Lemma readopt_budget_witness :
  entryOf "bot" (restartAt 300 (restartAt 200 (restartAt 100 runningDb))) = None /\
  Z.of_nat (length (madeBy twoPerWindow 200 [200; 100])) <= 2.
Proof.
  assert (H1 : Readopting simConfig twoPerWindow "bot" 100 (restartAt 100 runningDb) [100]).
  { refine (ra_readopt simConfig twoPerWindow "bot" 100 100 runningDb [] (ro_fleet runningRow) "c1" (inr tt) _ _ _ eq_refl _);
      [apply ra_fresh | | ]; vm_compute; reflexivity || discriminate. }
  assert (H2 : Readopting simConfig twoPerWindow "bot" 200 (restartAt 200 (restartAt 100 runningDb)) [200; 100]).
  { refine (ra_readopt simConfig twoPerWindow "bot" 100 200 _ _ (ro_fleet runningRow) "c1" (inr tt) _ H1 _ eq_refl _);
      vm_compute; reflexivity || discriminate. }
  destruct (readopt_budget simConfig twoPerWindow "bot" 200 _ [200; 100] (ro_fleet runningRow) "c1" 300
              ltac:(vm_compute; discriminate) H2 ltac:(lia) eq_refl) as [Hb _].
  split; [vm_compute; reflexivity | exact (Hb 200)].
Defined.

Lemma operating_left_alone_witness :
  Keeps (X := Sim) (Spares "bot") (syncRunningInstances simConfig twoPerWindow (fun id _ => str_eqb id "bot")).
Proof. apply operating_left_alone. intros x. reflexivity. Defined.

Lemma sync_outcomes_witness :
  let _ := runtimeWith (fun _ => stoppedState) in
  exists w', syncOne simConfig twoPerWindow (ro_fleet runningRow) (mkWorld runningDb [] 100 []) = (inr tt, w') /\
    rowOf "bot" (w_db w') = Some (applySet (statusSet 100 I_stopped None) runningRow).
Proof.
  intros r.
  apply (@sync_outcomes Sim r _ _ _ simConfig twoPerWindow "bot" (mkWorld runningDb [] 100 []) (ro_fleet runningRow)
           (simHost "a") (fun _ => stoppedState) None); try reflexivity.
  - constructor; try reflexivity. apply (bool_decide_unpack _). vm_compute. exact I.
  - constructor; reflexivity.
Defined.

(** A bot is destroyed during a pass: the pass has read its row and found its lock
    free, and once the destroy is over finds no container, so the destroyed bot
    comes back as an error. *)
Definition untilRemoved (x : Sim) : option ContainerState :=
  if List.existsb (str_eqb "removed") (sm_log x) then None else stoppedState.

Definition quietly (n : nat) (m : Fleet Sim unit) : list (FleetDb Sim -> FleetDb Sim) := repeat quiet n ++ [meanwhile m].

Lemma destroyed_bot_revived :
  let _ := runtimeWith untilRemoved in
  let w0 := mkWorld runningDb (quietly 3 (destroyLocked simConfig "bot" "user")) 100000 [] in
  option_map fi_status (rowOf "bot" (meanwhile (destroyLocked simConfig "bot" "user") runningDb)) = Some I_destroyed /\
  option_map fi_status (rowOf "bot" (w_db (syncRunningInstances simConfig twoPerWindow (fun _ _ => false) w0).2)) = Some I_error.
Proof. vm_compute. split; reflexivity. Qed.
End Runs.
