(* ===== verification/Backups.v ===== *)
(** Restoring a bot from an uploaded backup: the orchestrator's
    [services/backup-transfer-token.ts] and [services/backup-import-manager.ts].

    [Encoding] gathers what the tokens take from Node: HMAC-SHA256 (a key, a text, a
    digest), base64url and JSON.  [BackupStorage] is the bucket the uploads go to. *)
From Stdlib Require Import Ascii QArith.
From S2P Require Import Prelude JsString Json Fleet Hosts FleetStore FleetWorld InstanceManager FleetGuar.
From stdpp Require Import list strings gmap.
#[local] Open Scope Z_scope.

(** ** backup-transfer-token.ts *)
Record Encoding := mkEncoding {
  hmac256 : string -> string -> string;
  toBase64url : string -> string;
  fromBase64url : string -> string;
  stringify : Json -> string;
  parseJson : string -> option Json;
}.

Definition zLengthBetween (lo hi : Z) : Schema string :=
  refine (fun s => (lo <=? Z.of_nat (String.length s)) && (Z.of_nat (String.length s) <=? hi)) zString.
Definition zPositive : Schema Z := refine (fun n => 0 <? n) zInt.

Record BackupImportGrant := mkGrant {
  gr_userId : string;
  gr_displayName : string;
  gr_objectName : string;
  gr_contentLength : Z;
  gr_contentType : string;
}.

(** A signed payload: a grant and its expiry in seconds. *)
Record ImportPayload := mkPayload { pl_grant : BackupImportGrant; pl_exp : Z }.

Definition ImportPayloadSchema : Schema ImportPayload := fun j =>
  match field "v" zInt j, field "action" (zLiteral "restore-upload") j,
        field "userId" (refine matchesUserId zString) j, field "exp" zPositive j with
  | Some v, Some _, Some userId, Some exp =>
      if negb (v =? 1) then None
      else
        match field "displayName" (zLengthBetween 1 255) j, field "objectName" (zLengthBetween 1 1024) j,
              field "contentLength" zPositive j, field "contentType" (zLengthBetween 1 128) j with
        | Some name, Some object, Some size, Some type => Some (mkPayload (mkGrant userId name object size type) exp)
        | _, _, _, _ => None
        end
  | _, _, _, _ => None
  end.

Definition JInt (n : Z) : Json := JNum (inject_Z n).

Definition payloadJson (g : BackupImportGrant) (exp : Z) : Json :=
  JObj [("v", JInt 1); ("action", JStr "restore-upload"); ("userId", JStr (gr_userId g));
        ("displayName", JStr (gr_displayName g)); ("objectName", JStr (gr_objectName g));
        ("contentLength", JInt (gr_contentLength g)); ("contentType", JStr (gr_contentType g)); ("exp", JInt exp)].

(** What the tokens rely on: decoding undoes encoding, the alphabet of base64url has
    no dot, and JSON reads back what it wrote of strings and safe integers. *)
Definition maxSafeInteger : Z := 9007199254740991.
Record EncodingLaws (e : Encoding) : Prop := mkEncodingLaws {
  base64_roundtrip : forall s, fromBase64url e (toBase64url e s) = s;
  base64_alphabet : forall s, allChars (fun c => negb (Ascii.eqb c "."%char)) (toBase64url e s) = true;
  base64_nonempty : forall s, s <> EmptyString -> toBase64url e s <> EmptyString;
  json_roundtrip : forall g exp, 0 < gr_contentLength g <= maxSafeInteger -> 0 < exp <= maxSafeInteger ->
    parseJson e (stringify e (payloadJson g exp)) = Some (payloadJson g exp);
  json_nonempty : forall j, stringify e j <> EmptyString;
  hmac_nonempty : forall k s, hmac256 e k s <> EmptyString;
}.

Section Tokens.
Context (enc : Encoding) (serviceTokens : list string).

Definition primarySecret : OrchError + string :=
  match truthy (List.hd_error serviceTokens) with
  | Some secret => inr secret
  | None => inl (PlainError "SERVICE_TOKENS is required for backup tokens")
  end.

Definition payloadPart (g : BackupImportGrant) (exp : Z) : string := toBase64url enc (stringify enc (payloadJson g exp)).

Definition signPayload (part : string) : OrchError + string :=
  match primarySecret with
  | inl e => inl e
  | inr secret => inr (part +:+ "." +:+ toBase64url enc (hmac256 enc secret part))
  end.

Definition createRestoreUploadToken (g : BackupImportGrant) (expiresAt : Z) : OrchError + string :=
  signPayload (payloadPart g (expiresAt / 1000)).

Definition hasValidSignature (part signature : string) : bool :=
  let provided := fromBase64url enc signature in
  List.existsb (fun secret => str_eqb provided (hmac256 enc secret part)) serviceTokens.

(** The two parts of a token that carries a valid signature. *)
Definition signedPart (token : string) : option string :=
  match splitOn "."%char token with
  | [part; signature] =>
      match truthy (Some part), truthy (Some signature) with
      | Some p, Some s => if hasValidSignature p s then Some p else None
      | _, _ => None
      end
  | _ => None
  end.

Definition decodePayload (part : string) : option ImportPayload :=
  match parseJson enc (fromBase64url enc part) with
  | Some j => ImportPayloadSchema j
  | None => None
  end.

Definition verifyImport (now : Z) (token : string) : option BackupImportGrant :=
  match signedPart token with
  | Some part =>
      match decodePayload part with
      | Some p => if now / 1000 <=? pl_exp p then Some (pl_grant p) else None
      | None => None
      end
  | None => None
  end.
End Tokens.

(** ** backup-import-manager.ts *)
Definition MAX_BACKUP_UPLOAD_BYTES : Z := 512 * 1024 * 1024.
Definition DEFAULT_BACKUP_CONTENT_TYPE : string := "application/gzip".
Definition ALLOWED_BACKUP_CONTENT_TYPES : list string :=
  ["application/gzip"; "application/x-gzip"; "application/octet-stream"].

Record BackupUploadSession := mkUploadSession { us_uploadUrl : string; us_restoreToken : string; us_expiresAt : string }.

Record UploadRequest := mkUploadRequest {
  ur_userId : string; ur_displayName : string; ur_contentLength : Z; ur_contentType : option string }.

Class BackupStorage (X : Type) := {
  storage_createResumableUpload : string -> string -> Z -> Ext X string;
  storage_deleteObject : string -> Ext X unit;
}.

Definition assertContentLength (contentLength : Z) : OrchError + unit :=
  if contentLength <=? 0 then inl (InvalidBackupError "backup size is required")
  else if MAX_BACKUP_UPLOAD_BYTES <? contentLength then inl (InvalidBackupError "backup archive is too large")
  else inr tt.

Definition normalizeContentType (contentType : option string) : OrchError + string :=
  let normalized := default DEFAULT_BACKUP_CONTENT_TYPE (truthy (option_map trim contentType)) in
  if List.existsb (str_eqb normalized) ALLOWED_BACKUP_CONTENT_TYPES then inr normalized
  else inl (InvalidBackupError "backup content type is not supported").

Definition importObjectName (userId uuid : string) : string := "imports/" +:+ userId +:+ "/" +:+ uuid +:+ ".tar.gz".

Section Imports.
Context {X : Type} `{!ContainerRuntime X, !AgentAdapter X, !Collaborators X, !BackupStorage X}.
Context (cfg : AppConfig) (enc : Encoding) (serviceTokens : list string) (ttlSeconds : Z).

Definition createUploadUrl (objectName contentType : string) (contentLength : Z) : Fleet X string :=
  catch (ext (storage_createResumableUpload objectName contentType contentLength))
    (fun _ => throw (UpstreamUnavailableError "backup storage" None)).

Definition createUploadSession (input : UploadRequest) : Fleet X BackupUploadSession :=
  lift (assertContentLength (ur_contentLength input));;;
  let! contentType := lift (normalizeContentType (ur_contentType input)) in
  let! uuid := ext' randomUUID in
  let objectName := importObjectName (ur_userId input) uuid in
  let! t := now in
  let expiresAt := t + ttlSeconds * 1000 in
  let! uploadUrl := createUploadUrl objectName contentType (ur_contentLength input) in
  let! token := lift (createRestoreUploadToken enc serviceTokens
    (mkGrant (ur_userId input) (ur_displayName input) objectName (ur_contentLength input) contentType) expiresAt) in
  ret (mkUploadSession uploadUrl token (toISOString expiresAt)).

Definition restoreInput (grant : BackupImportGrant) : CreateInstanceInput :=
  mkCreateInput (gr_displayName grant) None [Ch_whatsapp (mkWhatsapp None None)] None
    (Some (mkBackupImportRef (gr_objectName grant) (gr_contentLength grant) (gr_contentType grant))).

Definition restoreUploadedBackup (userId restoreToken : string) : Fleet X Instance_ :=
  let! t := now in
  match verifyImport enc serviceTokens t restoreToken with
  | None => throw AuthenticationError
  | Some grant =>
      if negb (str_eqb (gr_userId grant) userId) then throw AuthenticationError
      else
        catch (create cfg (gr_userId grant) (restoreInput grant))
          (fun err =>
             (match err with
              | InvalidBackupError _ => attempt (ext (storage_deleteObject (gr_objectName grant)))
              | _ => ret tt
              end);;;
             throw err)
  end.
End Imports.

(** ** What restoring from a backup promises

    What restoring from a backup promises: [Backups]. *)
Definition lengthIn (lo hi : Z) (s : string) : Prop := lo <= Z.of_nat (String.length s) <= hi.

(** What the schema of the tokens accepts. *)
Record GrantOk (g : BackupImportGrant) : Prop := mkGrantOk {
  go_user : matchesUserId (gr_userId g) = true;
  go_name : lengthIn 1 255 (gr_displayName g);
  go_object : lengthIn 1 1024 (gr_objectName g);
  go_size : 0 < gr_contentLength g <= maxSafeInteger;
  go_type : lengthIn 1 128 (gr_contentType g);
}.

Lemma zInt_JInt n : zInt (JInt n) = Some n.
Proof.
  unfold zInt, JInt. assert (E : Qred (inject_Z n) = inject_Z n).
  { unfold inject_Z, Qred. pose proof (Z.ggcd_gcd n 1) as Hg. pose proof (Z.ggcd_correct_divisors n 1) as Hc.
    destruct (Z.ggcd n 1) as [g [aa bb]]. simpl in Hg. rewrite Z.gcd_1_r in Hg. subst g.
    destruct Hc as [E1 E2]. rewrite !Z.mul_1_l in *. subst. reflexivity. }
  rewrite E. reflexivity.
Qed.

Lemma zLengthBetween_ok lo hi s : lengthIn lo hi s -> zLengthBetween lo hi (JStr s) = Some s.
Proof.
  intros [H1 H2]. unfold zLengthBetween, refine. simpl. apply Z.leb_le in H1, H2. rewrite H1, H2. reflexivity.
Qed.
Lemma zPositive_ok n : 0 < n -> zPositive (JInt n) = Some n.
Proof. intros H. unfold zPositive, refine. rewrite zInt_JInt. apply Z.ltb_lt in H. rewrite H. reflexivity. Qed.

Lemma field_at {A} key (s : Schema A) fields v : lookupField key fields = Some v -> field key s (JObj fields) = s v.
Proof. unfold field. intros ->. reflexivity. Qed.

Lemma schema_accepts g exp : GrantOk g -> 0 < exp -> ImportPayloadSchema (payloadJson g exp) = Some (mkPayload g exp).
Proof.
  intros [Hu Hn Ho Hs Ht] He. unfold ImportPayloadSchema, payloadJson.
  repeat (erewrite field_at by reflexivity).
  cbn [snd]. rewrite zInt_JInt, (zPositive_ok exp He), (zPositive_ok _ (proj1 Hs)), !zLengthBetween_ok by assumption.
  unfold refine at 1. cbn [zString]. rewrite Hu. destruct g. reflexivity.
Qed.

(** ** Tokens *)
Section Tokens.
Context (enc : Encoding) (laws : EncodingLaws enc) (secret : string) (others : list string) (secret_ok : secret <> EmptyString).
Abbreviation tokens := (secret :: others).

Lemma truthy_some s : s <> EmptyString -> truthy (Some s) = Some s.
Proof. destruct s; [congruence | reflexivity]. Qed.

Lemma part_nonempty g exp : payloadPart enc g exp <> EmptyString.
Proof. apply base64_nonempty; [exact laws | apply json_nonempty; exact laws]. Qed.

Lemma signed_part part : allChars (fun c => negb (Ascii.eqb c "."%char)) part = true -> part <> EmptyString ->
  signedPart enc tokens (part +:+ "." +:+ toBase64url enc (hmac256 enc secret part)) = Some part.
Proof.
  intros Hd Hne. unfold signedPart.
  change ("." +:+ toBase64url enc (hmac256 enc secret part)) with (String "."%char (toBase64url enc (hmac256 enc secret part))).
  rewrite splitOn_app by exact Hd. rewrite splitOn_none by apply (base64_alphabet enc laws).
  rewrite !truthy_some; [|apply base64_nonempty; [exact laws | apply hmac_nonempty; exact laws] | exact Hne].
  unfold hasValidSignature. cbn [List.existsb]. rewrite (base64_roundtrip enc laws), str_eqb_refl. reflexivity.
Qed.

(** C37: a restore token gives back what it was made of: the service that signs a grant
    with its first secret reads the same user, object, size and type from the token
    until the second it expires, whatever further secrets are configured. *)
Theorem restore_token_roundtrip (g : BackupImportGrant) (expiresAt t : Z)
  (Hg : GrantOk g) (Hexp : 1000 <= expiresAt <= maxSafeInteger) (Ht : t / 1000 <= expiresAt / 1000) :
  exists token, createRestoreUploadToken enc tokens g expiresAt = inr token /\
    verifyImport enc tokens t token = Some g.
Proof.
  unfold createRestoreUploadToken, signPayload, primarySecret. cbn [List.hd_error]. rewrite truthy_some by exact secret_ok.
  eexists. split; [reflexivity|]. unfold verifyImport. rewrite signed_part; [|apply (base64_alphabet enc laws) | apply part_nonempty].
  assert (He : 0 < expiresAt / 1000 <= maxSafeInteger) by (split; [apply Z.div_str_pos | apply Z.div_le_upper_bound]; lia).
  unfold decodePayload, payloadPart. rewrite (base64_roundtrip enc laws), (json_roundtrip enc laws _ _ (go_size g Hg) He).
  rewrite (schema_accepts g _ Hg (proj1 He)). apply Z.leb_le in Ht. cbn [pl_exp pl_grant]. rewrite Ht. reflexivity.
Qed.
End Tokens.

(** A token the service accepts is signed with one of its secrets, names a well-formed
    user and is not past its second. *)
Lemma verified_token enc tokens t token g : verifyImport enc tokens t token = Some g ->
  exists part signature secret exp, splitOn "."%char token = [part; signature] /\ In secret tokens /\
    fromBase64url enc signature = hmac256 enc secret part /\
    decodePayload enc part = Some (mkPayload g exp) /\ t / 1000 <= exp.
Proof.
  unfold verifyImport, signedPart. destruct (splitOn _ token) as [|part [|signature [|]]] eqn:Es; try discriminate.
  destruct (truthy (Some part)) as [p|] eqn:Ep; [|discriminate].
  destruct (truthy (Some signature)) as [s|] eqn:Esig; [|discriminate].
  assert (p = part) as -> by (destruct part; [discriminate | injection Ep as <-; reflexivity]).
  assert (s = signature) as -> by (destruct signature; [discriminate | injection Esig as <-; reflexivity]).
  destruct (hasValidSignature enc tokens part signature) eqn:Ev; [|discriminate].
  destruct (decodePayload enc part) as [[g' exp]|] eqn:Ed; [|discriminate]. cbn [pl_exp pl_grant].
  destruct (t / 1000 <=? exp) eqn:Et; [|discriminate]. intros [= ->]. apply existsb_exists in Ev as (secret & Hin & E).
  bools. exists part, signature, secret, exp. auto.
Qed.

(** ** An encoding *)
Fixpoint bits (p : positive) : string :=
  match p with xI q => String "1"%char (bits q) | xO q => String "0"%char (bits q) | xH => "e" end.
Fixpoint unbits (s : string) : positive :=
  match s with
  | String "1"%char t => xI (unbits t)
  | String "0"%char t => xO (unbits t)
  | _ => xH
  end.

Lemma unbits_bits p : unbits (bits p) = p.
Proof. induction p as [p IH|p IH|]; simpl; [rewrite IH..|]; reflexivity. Qed.
Lemma bits_plain p : allChars (fun c => negb (Ascii.eqb c "."%char)) (bits p) = true.
Proof. induction p as [p IH|p IH|]; simpl; [exact IH..|]; reflexivity. Qed.
Lemma bits_nonempty p : bits p <> EmptyString.
Proof. destruct p; discriminate. Qed.

Definition flat (p : ImportPayload) : (string * string * string * string) * (Z * Z) :=
  let g := pl_grant p in
  ((gr_userId g, gr_displayName g, gr_objectName g, gr_contentType g), (gr_contentLength g, pl_exp p)).
Definition unflat (t : (string * string * string * string) * (Z * Z)) : Json :=
  let '((u, n, o, c), (size, exp)) := t in payloadJson (mkGrant u n o size c) exp.

(** The payload, without the checks of the schema. *)
Definition rawString (key : string) (j : Json) : string := default EmptyString (field key zString j).
Definition rawInt (key : string) (j : Json) : Z := default 0 (field key zInt j).
Definition rawPayload (j : Json) : ImportPayload :=
  mkPayload (mkGrant (rawString "userId" j) (rawString "displayName" j) (rawString "objectName" j)
               (rawInt "contentLength" j) (rawString "contentType" j)) (rawInt "exp" j).

Lemma rawPayload_json g exp : rawPayload (payloadJson g exp) = mkPayload g exp.
Proof.
  unfold rawPayload, rawString, rawInt, payloadJson. repeat (erewrite field_at by reflexivity). cbn [snd].
  rewrite !zInt_JInt. destruct g. reflexivity.
Qed.

Definition simEncoding : Encoding :=
  mkEncoding (fun k s => "mac:" +:+ k +:+ ":" +:+ s) (fun s => bits (encode s))
    (fun s => default EmptyString (decode (unbits s))) (fun j => bits (encode (flat (rawPayload j))))
    (fun s => option_map unflat (decode (unbits s))).

Lemma simEncoding_laws : EncodingLaws simEncoding.
Proof.
  constructor; cbn [simEncoding hmac256 toBase64url fromBase64url stringify parseJson].
  - intros s. rewrite unbits_bits, decode_encode. reflexivity.
  - intros s. apply bits_plain.
  - intros s _. apply bits_nonempty.
  - intros g exp _ _. rewrite unbits_bits, rawPayload_json, decode_encode. destruct g. reflexivity.
  - intros j. apply bits_nonempty.
  - discriminate.
Qed.

Definition simGrant : BackupImportGrant := mkGrant "user" "Bot" "imports/user/u1.tar.gz" 4096 "application/gzip".

Lemma simGrant_ok : GrantOk simGrant.
Proof. constructor; [reflexivity | unfold lengthIn, maxSafeInteger; simpl; lia..]. Qed.

Lemma restore_token_roundtrip_witness :
  GrantOk simGrant /\ exists token, createRestoreUploadToken simEncoding ["secret"; "older"] simGrant 1700000000000 = inr token /\
    verifyImport simEncoding ["secret"; "older"] 1699999000000 token = Some simGrant.
Proof.
  split; [exact simGrant_ok|].
  apply (restore_token_roundtrip simEncoding simEncoding_laws "secret" ["older"]); [discriminate | exact simGrant_ok | unfold maxSafeInteger; lia|].
  vm_compute. discriminate.
Defined.

(** ** The manager *)
Section Imports.
Context {X : Type} `{!ContainerRuntime X, !AgentAdapter X, !Collaborators X, !BackupStorage X}.
Context (cfg : AppConfig) (enc : Encoding) (serviceTokens : list string) (ttlSeconds : Z).

(** A token that does not verify, or was issued to another user, changes nothing. *)
Lemma restore_refused userId token (w : World (FleetDb X) unit) :
  (forall g, verifyImport enc serviceTokens (w_now w) token = Some g -> gr_userId g <> userId) ->
  restoreUploadedBackup cfg enc serviceTokens userId token w = (inl AuthenticationError, w).
Proof.
  intros H. unfold restoreUploadedBackup. rewrite (bind_ok now _ _ (w_now w) w eq_refl).
  destruct (verifyImport _ _ _ _) as [g|] eqn:E; [|reflexivity].
  destruct (str_eqb (gr_userId g) userId) eqn:Eu; [|reflexivity]. apply str_eqb_eq in Eu. exfalso. exact (H g eq_refl Eu).
Qed.

(** A session's token is for the user's own prefix, an allowed type and a bounded size. *)
Lemma session_token input (w w' : World (FleetDb X) unit) session :
  createUploadSession enc serviceTokens ttlSeconds input w = (inr session, w') ->
  exists uuid type expiresAt,
    createRestoreUploadToken enc serviceTokens
      (mkGrant (ur_userId input) (ur_displayName input) (importObjectName (ur_userId input) uuid) (ur_contentLength input) type)
      expiresAt = inr (us_restoreToken session) /\
    In type ALLOWED_BACKUP_CONTENT_TYPES /\ 0 < ur_contentLength input <= MAX_BACKUP_UPLOAD_BYTES.
Proof.
  unfold createUploadSession. intros H.
  apply bind_inv in H as [(e & _ & [=])|(u & w1 & Hl & H)]. unfold lift in Hl. injection Hl as Hl <-.
  assert (Hsize : 0 < ur_contentLength input <= MAX_BACKUP_UPLOAD_BYTES).
  { unfold assertContentLength in Hl. destruct (_ <=? 0) eqn:E1; [discriminate|].
    destruct (MAX_BACKUP_UPLOAD_BYTES <? _) eqn:E2; [discriminate|]. bools. lia. }
  apply bind_inv in H as [(e & _ & [=])|(type & w2 & Ht & H)]. unfold lift in Ht. injection Ht as Ht <-.
  apply bind_inv in H as [(e & _ & [=])|(uuid & w3 & _ & H)].
  apply bind_inv in H as [(e & _ & [=])|(t & w4 & _ & H)].
  apply bind_inv in H as [(e & _ & [=])|(url & w5 & _ & H)].
  apply bind_inv in H as [(e & _ & [=])|(token & w6 & Hk & H)]. unfold lift in Hk. injection Hk as Hk <-.
  injection H as <- <-. exists uuid, type, (t + ttlSeconds * 1000). split; [exact Hk|]. split; [|exact Hsize].
  unfold normalizeContentType in Ht. destruct (List.existsb _ _) eqn:E in Ht; [|discriminate].
  injection Ht as <-. apply existsb_exists in E as (x & Hx & E). apply str_eqb_eq in E. rewrite E. exact Hx.
Qed.
End Imports.
