(* ===== verification/OwnerAccess.v ===== *)
(** Who the bot answers to: the owner's numbers and who may write to the bot, with
    [domain/phone.ts] and the rest of [domain/owner.ts]:
    [orchestrator/src/services/owner-identity-manager.ts] and
    [whatsapp-access-manager.ts].

    [OwnerRuntime] is the part of the agent adapter they call.  The two questions
    [get] asks together never fail and are asked one after the other here. *)
From Stdlib Require Import Ascii.
From S2P Require Import Prelude JsString Fleet Hosts FleetStore FleetWorld InstanceManager.
From stdpp Require Import list strings gmap.
#[local] Open Scope Z_scope.

(** ** domain/phone.ts *)
Definition startsWithFold (p s : string) : bool := String.prefix p (toLowerCase (String.substring 0 (String.length p) s)).
Definition dropWhatsapp (s : string) : string :=
  if startsWithFold "whatsapp:" s then String.substring 9 (String.length s - 9) s else s.

(** [.replace(/@.*$/, "")]: cut at the first [@] that no line end follows. *)
Definition isLineEnd (c : ascii) : bool := Ascii.eqb c "010"%char || Ascii.eqb c "013"%char.
Fixpoint cutAt (s : string) : string :=
  match s with
  | EmptyString => EmptyString
  | String c s' =>
      if Ascii.eqb c "@"%char && allChars (fun d => negb (isLineEnd d)) s' then EmptyString else String c (cutAt s')
  end.

Definition isPunctuation (c : ascii) : bool :=
  isWhite c || Ascii.eqb c "("%char || Ascii.eqb c ")"%char || Ascii.eqb c "."%char || Ascii.eqb c "-"%char.
Fixpoint removeIf (p : ascii -> bool) (s : string) : string :=
  match s with
  | EmptyString => EmptyString
  | String c s' => if p c then removeIf p s' else String c (removeIf p s')
  end.

(** /^[1-9]\d{6,14}$/. *)
Definition isE164Digits (s : string) : bool :=
  match s with
  | String c s' =>
      isDigit c && negb (Ascii.eqb c "0"%char) && allChars isDigit s'
      && (6 <=? Z.of_nat (String.length s')) && (Z.of_nat (String.length s') <=? 14)
  | EmptyString => false
  end.

Definition normalizeE164 (raw : string) : option string :=
  let stripped := removeIf isPunctuation (cutAt (dropWhatsapp (trim raw))) in
  let digits := match stripped with String c s => if Ascii.eqb c "+"%char then s else stripped | EmptyString => stripped end in
  if isE164Digits digits then Some (String "+"%char digits) else None.

Definition isSameE164 (a b : string) : bool :=
  match normalizeE164 a with Some n => ostr_eqb (Some n) (normalizeE164 b) | None => false end.

(** ** domain/owner.ts *)
Definition ownerPeerIds (identity : OwnerIdentity) : list string :=
  match truthy (oi_telegramUserId identity) with Some id => ["telegram:" +:+ id] | None => [] end ++
  match truthy (oi_whatsappNumber identity) with Some n => ["whatsapp:" +:+ n] | None => [] end.

Definition ownerSessionPeerIds (identity : OwnerIdentity) : list string :=
  ownerPeerIds identity ++
  match truthy (oi_businessOwnerNumber identity) with Some n => ["whatsapp_cloud:" +:+ n] | None => [] end.

Definition sameOwnerIds (a b : list string) : bool :=
  let setA := remove_dups a in
  let setB := remove_dups b in
  (length setA =? length setB)%nat && forallb (fun id => List.existsb (str_eqb id) setB) setA.

(** ** What the managers call *)
#[export] Instance WhatsappDmAccess_eq_dec : EqDecision WhatsappDmAccess.
Proof. solve_decision. Defined.

Record WhatsappPairingRequest := mkPairingRequest {
  wp_number : string; wp_code : string; wp_name : option string; wp_requestedAt : string }.

Class OwnerRuntime (X : Type) := {
  (** Whether the channel is running again. *)
  ad_restartWhatsappCloudChannel : string -> string -> Ext X bool;
  ad_readOwnerIds : string -> string -> Ext X (option (list string));
  ad_listWhatsappPairingRequests : string -> string -> Ext X (list WhatsappPairingRequest);
}.

(** ** owner-identity-manager.ts *)
Inductive OwnerSyncState := Sync_applied | Sync_pending | Sync_unavailable.
#[export] Instance OwnerSyncState_eq_dec : EqDecision OwnerSyncState.
Proof. solve_decision. Defined.

Record OwnerIdentityView := mkOwnerView {
  ov_telegram : option (string * option string);
  ov_whatsappNumber : option string;
  ov_businessNumber : option string;
  ov_sync : OwnerSyncState;
  ov_candidates : list WhatsappPairingRequest;
  ov_candidatesUnavailable : bool;
}.

(** A field is given or not, and a given one may be [null]. *)
Record OwnerIdentityUpdate := mkOwnerUpdate {
  ou_whatsappNumber : option (option string); ou_businessNumber : option (option string) }.

Definition Candidates : Type := list WhatsappPairingRequest * bool.
Definition NO_CANDIDATES : Candidates := ([], false).

Definition normalizedOwnerNumber (number : option string) (field : string) : OrchError + option string :=
  match number with
  | None => inr None
  | Some n =>
      match truthy (normalizeE164 n) with
      | Some m => inr (Some m)
      | None => inl (ValidationError (field +:+ " must be E.164"))
      end
  end.

(** [None] when it returns the array it was given. *)
Definition withWhatsappOwner (channels : list ChannelConfig) (number : option string) (instanceId : string)
  : OrchError + option (list ChannelConfig) :=
  match findWhatsappChannel channels with
  | None => inl (NotFoundError "whatsapp channel" instanceId)
  | Some whatsapp =>
      match normalizedOwnerNumber number "whatsappNumber" with
      | inl e => inl e
      | inr ownerNumber =>
          if ostr_eqb ownerNumber (wa_ownerNumber whatsapp) then inr None
          else inr (Some (replaceWhatsappChannel channels (mkWhatsapp ownerNumber (wa_dmAccess whatsapp))))
      end
  end.

Definition withCloudOwner (c : WhatsappCloudChannel) (ownerNumber : option string) : WhatsappCloudChannel :=
  mkWhatsappCloud (wc_wabaId c) (wc_phoneNumberId c) (wc_businessId c) (wc_displayPhoneNumber c) (wc_verifiedName c)
    (wc_accessToken c) (wc_pin c) (wc_coexistence c) (wc_relayToken c) ownerNumber.

Definition withBusinessOwner (channels : list ChannelConfig) (number : option string) (instanceId : string)
  : OrchError + option (list ChannelConfig) :=
  match findWhatsappCloudChannel channels with
  | None => inl (NotFoundError "whatsapp_cloud channel" instanceId)
  | Some business =>
      match normalizedOwnerNumber number "businessNumber" with
      | inl e => inl e
      | inr ownerNumber =>
          if match ownerNumber with
             | Some n => ostr_eqb (Some n) (normalizeE164 (wc_displayPhoneNumber business))
             | None => false
             end
          then inl (ValidationError "businessNumber is the business number itself; use the phone you write from")
          else if ostr_eqb ownerNumber (wc_ownerNumber business) then inr None
          else inr (Some (replaceWhatsappCloudChannel channels (withCloudOwner business ownerNumber)))
      end
  end.

(** The closure of [update]: the new channels, and whether the business number changed. *)
Definition ownerChange (patch : OwnerIdentityUpdate) (instanceId : string) (channels : list ChannelConfig)
  : OrchError + (option (list ChannelConfig) * bool) :=
  match match ou_whatsappNumber patch with
        | Some n => withWhatsappOwner channels n instanceId
        | None => inr None
        end with
  | inl e => inl e
  | inr first =>
      match ou_businessNumber patch with
      | None => inr (first, false)
      | Some n =>
          match withBusinessOwner (default channels first) n instanceId with
          | inl e => inl e
          | inr None => inr (first, false)
          | inr (Some l) => inr (Some l, true)
          end
      end
  end.

Definition ownerView (inst : Instance_) (identity : OwnerIdentity) (sync : OwnerSyncState) (candidates : Candidates)
  : OwnerIdentityView :=
  mkOwnerView
    (option_map (fun id => (id, match findTelegramChannel (ic_channels (in_config inst)) with
                                | Some t => tg_botUsername t | None => None end))
       (truthy (oi_telegramUserId identity)))
    (oi_whatsappNumber identity) (oi_businessOwnerNumber identity) sync candidates.1 candidates.2.

(** ** whatsapp-access-manager.ts *)
Record WhatsappAccessView := mkAccessView {
  av_botNumber : option string;
  av_ownerNumber : option string;
  av_access : WhatsappDmAccess;
  av_configured : bool;
  av_claiming : bool;
}.

Definition requireWhatsappChannel (inst : Instance_) : OrchError + WhatsappChannelConfig :=
  match findWhatsappChannel (ic_channels (in_config inst)) with
  | Some c => inr c
  | None => inl (NotFoundError "whatsapp channel" (fi_id inst))
  end.

Definition accessView (inst : Instance_) (channel : WhatsappChannelConfig) : WhatsappAccessView :=
  let access := default Dm_open (wa_dmAccess channel) in
  mkAccessView
    match truthy (fi_whatsappAccountId inst) with Some a => normalizeE164 a | None => None end
    (wa_ownerNumber channel) access (isSome (wa_dmAccess channel))
    (bool_decide (access = Dm_owner) && isNone (truthy (wa_ownerNumber channel))).

Definition accessChange (access : WhatsappDmAccess) (instanceId : string) (channels : list ChannelConfig)
  : OrchError + option (list ChannelConfig) :=
  match findWhatsappChannel channels with
  | None => inl (NotFoundError "whatsapp channel" instanceId)
  | Some current =>
      if bool_decide (wa_dmAccess current = Some access) then inr None
      else inr (Some (replaceWhatsappChannel channels (mkWhatsapp (wa_ownerNumber current) (Some access))))
  end.

(** ** The programs *)
Section Managers.
Context {X : Type} `{!ContainerRuntime X, !AgentAdapter X, !Collaborators X, !OwnerRuntime X}.
Context (cfg : AppConfig).
Implicit Types inst : Instance_.

Definition upContainer inst : option string :=
  match truthy (fi_containerId inst) with
  | Some c => if isContainerUp (fi_status inst) then Some c else None
  | None => None
  end.

Definition syncState inst (identity : OwnerIdentity) : Fleet X OwnerSyncState :=
  match upContainer inst with
  | None => ret Sync_unavailable
  | Some c =>
      catch
        (let! _ := host cfg (fi_hostId inst) in
         let! live := ext (ad_readOwnerIds (fi_hostId inst) c) in
         ret match live with
             | None => Sync_unavailable
             | Some ids => if sameOwnerIds ids (ownerPeerIds identity) then Sync_applied else Sync_pending
             end)
        (fun _ => ret Sync_unavailable)
  end.

Definition candidates inst : Fleet X Candidates :=
  let claiming := match findWhatsappChannel (ic_channels (in_config inst)) with
    | Some w => bool_decide (wa_dmAccess w = Some Dm_owner) && isNone (truthy (wa_ownerNumber w))
    | None => false
    end in
  match upContainer inst with
  | Some c =>
      if claiming then
        catch
          (let! _ := host cfg (fi_hostId inst) in
           let! l := ext (ad_listWhatsappPairingRequests (fi_hostId inst) c) in
           ret (l, false))
          (fun _ => ret ([], true))
      else ret NO_CANDIDATES
  | None => ret NO_CANDIDATES
  end.

Definition getOwner (instanceId userId : string) : Fleet X OwnerIdentityView :=
  let! inst := requireOwnedInstance cfg instanceId userId in
  let identity := ownerIdentityOf (ic_channels (in_config inst)) in
  let! sync := syncState inst identity in
  let! c := candidates inst in
  ret (ownerView inst identity sync c).

Definition restartBusinessChannel inst : Fleet X unit :=
  match truthy (fi_containerId inst) with
  | None => ret tt
  | Some c =>
      attempt
        (let! _ := host cfg (fi_hostId inst) in
         let! _ := ext (ad_restartWhatsappCloudChannel (fi_hostId inst) c) in ret tt)
  end.

Definition updateOwner (instanceId userId : string) (patch : OwnerIdentityUpdate) : Fleet X OwnerIdentityView :=
  let! r := updateChannelsNoting cfg instanceId userId (ownerChange patch instanceId) in
  let '(inst, changed, outcome, businessChanged) := r in
  (when changed do append instanceId "owner.identity_updated" (Some userId));;;
  (when businessChanged && bool_decide (outcome = Some Out_applied) do restartBusinessChannel inst);;;
  let identity := ownerIdentityOf (ic_channels (in_config inst)) in
  let! sync := syncState inst identity in
  ret (ownerView inst identity sync NO_CANDIDATES).

Definition getAccess (instanceId userId : string) : Fleet X WhatsappAccessView :=
  let! inst := requireOwnedInstance cfg instanceId userId in
  let! channel := lift (requireWhatsappChannel inst) in
  ret (accessView inst channel).

Definition updateAccess (instanceId userId : string) (access : WhatsappDmAccess) : Fleet X WhatsappAccessView :=
  let! r := updateChannels cfg instanceId userId (accessChange access instanceId) in
  let '(inst, changed, _) := r in
  let! channel := lift (requireWhatsappChannel inst) in
  (when changed do append instanceId "whatsapp.access_updated" (Some userId));;;
  ret (accessView inst channel).
End Managers.
