(* ===== verification/Integrations.v ===== *)
(** A bot's connected apps: the orchestrator's [services/integrations/manager.ts],
    [services/integrations/sessions.ts], [storage/integration-session-repository.ts] and
    [routes/mcp-relay.ts].

    [IntegrationProvider] is the interface of the vendor ([provider.ts]).  [connect],
    [rename] and the first relay call of a bot run under its lock.  A refill of the
    catalog is one flight: [askCatalog] lets it take off and [landFlight] is its landing,
    also of the one nobody waits for.  The column of the upstream address holds it in the
    clear; its encryption is not modelled. *)
From Stdlib Require Import Ascii.
From S2P Require Import Prelude JsString Json Fleet Access Hosts FleetStore IntegrationTypes FleetWorld InstanceManager.
From S2P Require Import FleetGuar.
From stdpp Require Import list strings gmap.
#[local] Open Scope Z_scope.

(** What the provider throws. *)
Inductive ProviderError := Pe_domain (e : OrchError) | Pe_gone (providerSessionId : string) | Pe_label | Pe_other.
Abbreviation Vendor X A := (X -> (ProviderError + A) * X).

Record ConnectLink := mkConnectLink { lk_url : string; lk_ref : string }.
Record RelayTarget := mkRelayTarget { rt_upstreamUrl : string; rt_headers : Headers }.
Record RelayAnswer := mkRelayAnswer { ra_status : Z; ra_headers : Headers; ra_body : option string }.
Inductive RelayMethod := Rm_get | Rm_post | Rm_delete.

Class IntegrationProvider (X : Type) := {
  iv_name : string;
  iv_listCatalog : Vendor X (list CatalogApp);
  (** provider session id, upstream url *)
  iv_createSession : string -> string -> nat -> Vendor X (string * string);
  iv_deleteSession : string -> Vendor X unit;
  iv_allowMultipleAccounts : string -> nat -> Vendor X unit;
  iv_createConnectLink : string -> string -> string -> option string -> Vendor X ConnectLink;
  iv_listConnections : string -> Vendor X (list IntegrationConnection);
  iv_renameConnection : string -> string -> Vendor X unit;
  iv_revokeConnection : string -> Vendor X unit;
  iv_upstreamHeaders : Headers;
  (** The flight somebody else started has landed. *)
  iv_flightLanded : X -> unit * X;
  relayFetch : string -> RelayMethod -> Headers -> option string -> Vendor X RelayAnswer;
}.

(** [new URL(...)]: the address of the dashboard's page, and the origin of an address. *)
Record IntegrationConfig := mkIntegrationConfig {
  ng_sessionCallback : string;
  ng_dashboardOrigin : string;
  ng_originOf : string -> option string;
}.

Definition unavailable : OrchError := UpstreamUnavailableError "integrations" None.
Definition goneMessage (id : string) : string := "integration session " +:+ id +:+ " no longer exists upstream".

Section Integrations.
Context {X : Type} `{!ContainerRuntime X, !AgentAdapter X, !Collaborators X, !IntegrationProvider X}.
Context (cfg : AppConfig) (ic : IntegrationConfig) (sha256 : string -> string).
Implicit Types inst : Instance_.

(** Programs that throw what the provider throws. *)
Abbreviation VendorM A := (M (FleetDb X) unit ProviderError A).
Definition vendor {A} (op : Vendor X A) : VendorM A :=
  atomic (fun d => let '(r, x) := op (fd_x d) in (r, setX x d)).
Definition fromStore {A} (m : Fleet X A) : VendorM A := fun w =>
  match m w with
  | (inr a, w') => (inr a, w')
  | (inl e, w') => (inl match orchStatus e with Some _ => Pe_domain e | None => Pe_other end, w')
  end.

(** [upstream]: domain errors and a lost session pass, anything else is a 502.  [Some]
    is the lost session. *)
Definition upstreamFailure (e : ProviderError) : OrchError * option string :=
  match e with
  | Pe_domain e => (e, None)
  | Pe_gone id => (PlainError (goneMessage id), Some id)
  | Pe_label | Pe_other => (unavailable, None)
  end.
Definition upstream_ {A} (m : VendorM A) : Fleet X A := fun w =>
  match m w with
  | (inr a, w') => (inr a, w')
  | (inl e, w') => (inl (upstreamFailure e).1, w')
  end.
(** What failed, for a caller that looks for a lost session. *)
Definition outcomeOf {A} (m : VendorM A) : Fleet X (ProviderError + A) := fun w => let '(r, w') := m w in (inr r, w').

(** ** The sessions *)
Definition findByInstanceId (id : string) : Fleet X (option IntegrationSession) :=
  statement (fun d => (inr (List.find (fun s => str_eqb (is_instanceId s) id) (fd_integrations d)), d)).

Definition upsertSession (s : IntegrationSession) (l : list IntegrationSession) : list IntegrationSession :=
  let p := fun x => str_eqb (is_instanceId x) (is_instanceId s) in
  if List.existsb p l then update_where p (fun _ => s) l else l ++ [s].

Definition upsert (instanceId providerSessionId upstreamMcpUrl : string) : Fleet X IntegrationSession :=
  let! t := now in
  statement (fun d =>
    let s := mkSession instanceId iv_name providerSessionId upstreamMcpUrl t in
    (inr s, setIntegrations (upsertSession s (fd_integrations d)) d)).

Definition deleteByInstanceId (id : string) : Fleet X unit :=
  statement (fun d => (inr tt, setIntegrations (List.filter (fun s => negb (str_eqb (is_instanceId s) id)) (fd_integrations d)) d)).

Definition createSession_ (instanceId callbackUrl : string) : VendorM IntegrationSession :=
  let! created := vendor (iv_createSession instanceId callbackUrl INTEGRATION_MAX_ACCOUNTS_PER_APP) in
  fromStore
    (let! session := upsert instanceId created.1 created.2 in
     append instanceId "integration.session_created" None;;;
     ret session).

Definition ensure (instanceId callbackUrl : string) : VendorM IntegrationSession :=
  let! existing := fromStore (findByInstanceId instanceId) in
  match existing with
  | Some s => ret s
  | None => createSession_ instanceId callbackUrl
  end.

Definition recreate_ (instanceId callbackUrl : string) : VendorM IntegrationSession :=
  fromStore (deleteByInstanceId instanceId);;; createSession_ instanceId callbackUrl.

(** A step of the provider whose failure is only logged. *)
Definition tryVendor (op : Vendor X unit) : Fleet X unit := let! _ := outcomeOf (vendor op) in ret tt.

Definition revokeAll (instanceId : string) : Fleet X unit :=
  let! session := findByInstanceId instanceId in
  match session with
  | None => ret tt
  | Some s =>
      let! listed := outcomeOf (vendor (iv_listConnections instanceId)) in
      forM match listed with inr l => l | inl _ => [] end (fun c => tryVendor (iv_revokeConnection (cx_ref c)));;;
      tryVendor (iv_deleteSession (is_providerSessionId s));;;
      deleteByInstanceId instanceId;;;
      append instanceId "integration.revoked_all" None
  end.

(** ** The catalog *)
Definition onCatalog {A} (f : CatalogMemory -> A * CatalogMemory) : Fleet X A :=
  onMem (fun m => let '(a, c) := f (mm_catalog m) in (a, setCatalog c m)).

Definition landFlight : Fleet X (list CatalogApp) :=
  let! answer := outcomeOf (vendor iv_listCatalog) in
  let apps := match answer with inr (a :: l) => Some (a :: l) | _ => None end in
  let! t := now in
  let! served := onCatalog (fun m =>
    let m' := settleCatalog t apps m in (option_map cc_apps (cm_cache m'), m')) in
  match served with Some l => ret l | None => throw unavailable end.

(** The list the flight of somebody else left. *)
Definition joinFlight : Fleet X (list CatalogApp) :=
  let! _ := ext' iv_flightLanded in
  let! c := onCatalog (fun m => (cm_cache m, m)) in
  match c with Some c => ret (cc_apps c) | None => throw unavailable end.

Definition fullCatalog : Fleet X (list CatalogApp) :=
  let! t := now in
  let! answer := onCatalog (askCatalog t) in
  match answer with
  | Cat_serve l => ret l
  | Cat_fly => landFlight
  | Cat_join => joinFlight
  | Cat_refuse => throw unavailable
  end.

Definition catalog (query : CatalogQuery) : Fleet X CatalogPage :=
  let! apps := fullCatalog in ret (searchCatalog apps query).

(** ** Connections *)
Definition isLiveBot inst : bool := negb (oneOf [I_destroying; I_destroyed] (fi_status inst)).

Definition listConnections (instanceId userId : string) : Fleet X (list IntegrationConnection) :=
  let! _ := requireOwnedInstance cfg instanceId userId in
  let! session := findByInstanceId instanceId in
  match session with
  | None => ret []
  | Some _ => let! l := upstream_ (vendor (iv_listConnections instanceId)) in ret (newestFirst l)
  end.

Definition assertReturnUrl (returnUrl : string) : OrchError + unit :=
  match ng_originOf ic returnUrl with
  | None => inl (ValidationError "returnUrl must be an absolute URL")
  | Some origin =>
      if ostr_eqb (Some origin) (ng_originOf ic (ng_dashboardOrigin ic)) then inr tt
      else inl (ValidationError "returnUrl must be on the dashboard origin")
  end.

(** The attempts that could not be revoked. *)
Fixpoint revokeEach (l : list IntegrationConnection) : Fleet X (list IntegrationConnection) :=
  match l with
  | [] => ret []
  | c :: l =>
      let! r := outcomeOf (vendor (iv_revokeConnection (cx_ref c))) in
      let! stuck := revokeEach l in
      ret (match r with inl _ => c :: stuck | inr _ => stuck end)
  end.

Definition clearSupersededAttempts (instanceId app : string) (label : option string) : Fleet X (option ClearedAccounts) :=
  let! listed := outcomeOf (vendor (iv_listConnections instanceId)) in
  match listed with
  | inl _ => ret None
  | inr all =>
      let accounts := List.filter (fun c => str_eqb (cx_app c) app) all in
      let! stuck := revokeEach (List.filter (fun c => isSupersededBy c label) accounts) in
      ret (Some (mkCleared (List.filter (fun c => negb (isSupersededBy c label)) accounts) stuck))
  end.

(** [labelTakenAs]. *)
Definition labelTakenAs {A} (app : string) (m : VendorM A) : VendorM A :=
  catch m (fun e => throw match e with Pe_label => Pe_domain (AccountLabelTakenError app) | _ => e end).

Definition createLink (addsAccount : bool) (request : IntegrationConnectRequest) (providerSessionId : string) : VendorM ConnectLink :=
  (when addsAccount do vendor (iv_allowMultipleAccounts providerSessionId INTEGRATION_MAX_ACCOUNTS_PER_APP));;;
  labelTakenAs (iq_app request)
    (vendor (iv_createConnectLink providerSessionId (iq_app request) (iq_returnUrl request) (iq_label request))).

(** The link, on a fresh session when the vendor lost the one we had. *)
Definition linkOn (instanceId : string) (addsAccount : bool) (request : IntegrationConnectRequest) (session : IntegrationSession)
  : Fleet X ConnectLink :=
  let! first := outcomeOf (createLink addsAccount request (is_providerSessionId session)) in
  match first with
  | inr link => ret link
  | inl (Pe_gone _) =>
      let! fresh := upstream_ (recreate_ instanceId (ng_sessionCallback ic)) in
      let! second := outcomeOf (createLink addsAccount request (is_providerSessionId fresh)) in
      match second with
      | inr link => ret link
      | inl (Pe_gone _) => throw unavailable
      | inl e => throw (upstreamFailure e).1
      end
  | inl e => throw (upstreamFailure e).1
  end.

Definition connectAppLocked (instanceId userId : string) (request : IntegrationConnectRequest) : Fleet X ConnectLink :=
  let! current := requireOwnedInstance cfg instanceId userId in
  if negb (isLiveBot current) then throw (invalid (fi_status current) "integration connect")
  else
    let! session := upstream_ (ensure instanceId (ng_sessionCallback ic)) in
    match ic_integrations (in_config current) with
    | None => throw (FeatureUnavailableError "integrations")
    | Some _ =>
        let! cleared := clearSupersededAttempts instanceId (iq_app request) (iq_label request) in
        lift (match cleared with Some c => assertRoomForAccount (iq_app request) c (iq_label request) | None => inr tt end);;;
        let addsAccount := match cleared with
          | None => true
          | Some c => (0 <? length (cl_kept c) + length (cl_stuck c))%nat
          end in
        let! link := linkOn instanceId addsAccount request session in
        append instanceId "integration.connect_requested" (Some userId);;;
        ret link
    end.

Definition connectApp (instanceId userId : string) (request : IntegrationConnectRequest) : Fleet X ConnectLink :=
  let! inst := requireOwnedInstance cfg instanceId userId in
  lift (assertReturnUrl (iq_returnUrl request));;;
  if negb (bool_decide (fi_runtimeKind inst = Openclaw)) then throw (FeatureUnavailableError "integrations")
  else connectAppLocked instanceId userId request.

Definition renameLocked (instanceId userId ref label : string) : Fleet X unit :=
  let! connections := upstream_ (vendor (iv_listConnections instanceId)) in
  match List.find (fun c => str_eqb (cx_ref c) ref) connections with
  | None => throw (NotFoundError "integration connection" ref)
  | Some target =>
      if labelTaken ref (cx_app target) label connections then throw (AccountLabelTakenError (cx_app target))
      else
        upstream_ (labelTakenAs (cx_app target) (vendor (iv_renameConnection ref label)));;;
        append instanceId "integration.renamed" (Some userId)
  end.

Definition renameApp (instanceId userId ref label : string) : Fleet X unit :=
  let! inst := requireOwnedInstance cfg instanceId userId in
  if negb (isLiveBot inst) then throw (invalid (fi_status inst) "integration rename")
  else renameLocked instanceId userId ref label.

Definition disconnectApp (instanceId userId ref : string) : Fleet X unit :=
  let! l := listConnections instanceId userId in
  match List.find (fun c => str_eqb (cx_ref c) ref) l with
  | None => throw (NotFoundError "integration connection" ref)
  | Some c =>
      upstream_ (vendor (iv_revokeConnection ref));;;
      append instanceId "integration.disconnected" (Some userId)
  end.

(** ** The relay *)
Definition relayTokensMatch (presented expected : string) : bool := str_eqb (sha256 presented) (sha256 expected).

Definition resolveMcpRelay (instanceId bearer : string) : Fleet X RelayTarget :=
  let! o := findInstance cfg instanceId in
  match o with
  | None => throw AuthenticationError
  | Some inst =>
      match isLiveBot inst, ic_integrations (in_config inst) with
      | true, Some binding =>
          if negb (relayTokensMatch bearer (ib_relayToken binding)) then throw AuthenticationError
          else
            let! session := findByInstanceId instanceId in
            let! url := match session with
              | Some s => ret (is_upstreamMcpUrl s)
              | None => let! s := upstream_ (ensure instanceId (ng_sessionCallback ic)) in ret (is_upstreamMcpUrl s)
              end in
            ret (mkRelayTarget url iv_upstreamHeaders)
      | _, _ => throw AuthenticationError
      end
  end.

Record McpRequest := mkMcpRequest { mr_authorization : option string; mr_method : RelayMethod; mr_headers : Headers; mr_body : option string }.

Definition mcpRelayRoute (instanceId : string) (r : McpRequest) : Fleet X RelayAnswer :=
  match extractBearer (mr_authorization r) with
  | None => throw AuthenticationError
  | Some bearer =>
      let! target := resolveMcpRelay instanceId bearer in
      let! answer := outcomeOf (vendor (relayFetch (rt_upstreamUrl target) (mr_method r)
        (relayHeaders (mr_headers r) (rt_headers target))
        match mr_method r with Rm_post => mr_body r | _ => None end)) in
      match answer with
      | inl _ => throw (UpstreamUnavailableError "integrations relay" None)
      | inr a =>
          if (300 <=? ra_status a) && (ra_status a <? 400) then throw (UpstreamUnavailableError "integrations relay" None)
          else ret (mkRelayAnswer (ra_status a) (replyHeaders (ra_headers a)) (ra_body a))
      end
  end.
End Integrations.

(** ** What the connected apps promise

    What the connected apps promise: [IntegrationTypes] and [Integrations]. *)
(** ** The catalog *)
Inductive CatalogEvent := Ce_ask | Ce_land (apps : list CatalogApp).

(** A flight that lands brings a list or nothing usable. *)
Definition usable (apps : list CatalogApp) : option (list CatalogApp) := match apps with [] => None | _ => Some apps end.
Definition catalogStep (now : Z) (ev : CatalogEvent) (m : CatalogMemory) : CatalogMemory :=
  match ev with
  | Ce_ask => (askCatalog now m).2
  | Ce_land apps => if cm_inFlight m then settleCatalog now (usable apps) m else m
  end.

Fixpoint catalogRun (evs : list (Z * CatalogEvent)) (m : CatalogMemory) : CatalogMemory :=
  match evs with [] => m | (t, ev) :: evs => catalogRun evs (catalogStep t ev m) end.

(** The instants at which the provider was asked. *)
Fixpoint takeOffs (evs : list (Z * CatalogEvent)) (m : CatalogMemory) : list Z :=
  match evs with
  | [] => []
  | (t, ev) :: evs =>
      let m' := catalogStep t ev m in
      (if negb (cm_inFlight m) && cm_inFlight m' then [t] else []) ++ takeOffs evs m'
  end.

Fixpoint inOrder (t : Z) (evs : list (Z * CatalogEvent)) : Prop :=
  match evs with [] => True | (now, _) :: evs => t <= now /\ inOrder now evs end.

(** Each at least the backoff after the one before. *)
Fixpoint spaced (last : option Z) (l : list Z) : Prop :=
  match l with
  | [] => True
  | t :: l => match last with Some t0 => CATALOG_RETRY_AFTER_MS <= t - t0 | None => True end /\ spaced (Some t) l
  end.

(** [last] is the take-off before: while it flies it is past, and once it has landed
    the attempt is later. *)
Definition CatalogInv (now : Z) (last : option Z) (m : CatalogMemory) : Prop :=
  match last with
  | None => cm_inFlight m = false
  | Some t0 => t0 <= now /\ (cm_inFlight m = false -> exists a, cm_attemptedAt m = Some a /\ t0 <= a)
  end /\ match cm_cache m with Some c => cc_apps c <> [] | None => True end.

Lemma catalog_step_inv now t ev last m : now <= t -> CatalogInv now last m ->
  let m' := catalogStep t ev m in
  if negb (cm_inFlight m) && cm_inFlight m'
  then CatalogInv t (Some t) m' /\ match last with Some t0 => CATALOG_RETRY_AFTER_MS <= t - t0 | None => True end
  else CatalogInv t last m'.
Proof.
  intros Ht [Hl Hc]. cbv zeta. destruct ev as [|apps]; cbn [catalogStep].
  - assert (Hkeep : CatalogInv t last m).
    { split; [|exact Hc]. destruct last as [t0|]; [|exact Hl]. destruct Hl as [H1 H2]. split; [lia | exact H2]. }
    assert (Hfly : mayAttempt t m = true ->
      if negb (cm_inFlight m) && cm_inFlight (fly m)
      then CatalogInv t (Some t) (fly m) /\ match last with Some t0 => CATALOG_RETRY_AFTER_MS <= t - t0 | None => True end
      else CatalogInv t last (fly m)).
    { intros Hm. unfold fly. destruct (cm_inFlight m) eqn:Ef; simpl; [exact Hkeep|]. split.
      - split; [split; [lia | discriminate] | exact Hc].
      - destruct last as [t0|]; [|exact I]. destruct Hl as [_ H2]. destruct (H2 eq_refl) as (a & Ea & Ha).
        unfold mayAttempt in Hm. rewrite Ea in Hm. bools. lia. }
    assert (Hsame : if negb (cm_inFlight m) && cm_inFlight m
      then CatalogInv t (Some t) m /\ match last with Some t0 => CATALOG_RETRY_AFTER_MS <= t - t0 | None => True end
      else CatalogInv t last m) by (destruct (cm_inFlight m); exact Hkeep).
    unfold askCatalog. destruct (freshCatalog t m); [exact Hsame|].
    destruct (cm_cache m); destruct (mayAttempt t m) eqn:Em; cbn [snd]; first [exact (Hfly eq_refl) | exact Hsame].
  - destruct (cm_inFlight m) eqn:Ef; cbn [negb andb].
    + split.
      * destruct last as [t0|]; [|reflexivity]. destruct Hl as [H1 _]. split; [lia|]. intros _. exists t. split; [reflexivity | lia].
      * simpl. destruct apps; simpl; [exact Hc | discriminate].
    + rewrite Ef. split; [|exact Hc]. destruct last as [t0|]; [|exact Ef]. destruct Hl as [H1 H2]. split; [lia | auto].
Qed.

Lemma catalog_run evs : forall now last m, inOrder now evs -> CatalogInv now last m ->
  spaced last (takeOffs evs m) /\ exists now' last', CatalogInv now' last' (catalogRun evs m).
Proof.
  induction evs as [|[t ev] evs IH]; intros now last m Ho Hm; [split; [exact I | eauto]|]. destruct Ho as [Ht Ho].
  pose proof (catalog_step_inv now t ev last m Ht Hm) as H. cbv zeta in H. cbn [takeOffs catalogRun]. cbv zeta.
  destruct (negb _ && _).
  - destruct H as [Hm' Hs]. destruct (IH t (Some t) _ Ho Hm') as [Hsp Hr]. split; [split; assumption | exact Hr].
  - destruct (IH t last _ Ho H) as [Hsp Hr]. split; assumption.
Qed.

(** A provider that is down is left alone: however many readers ask and whatever its
    answers, it is asked for the catalog at most once in five minutes, and what is kept
    to be served is never an empty list. *)
Theorem catalog_backoff (evs : list (Z * CatalogEvent)) (t : Z) (Ho : inOrder t evs) :
  spaced None (takeOffs evs emptyCatalog) /\
  match cm_cache (catalogRun evs emptyCatalog) with Some c => cc_apps c <> [] | None => True end.
Proof.
  destruct (catalog_run evs t None emptyCatalog Ho) as [Hs (n & l & _ & Hc)]; [split; [reflexivity | exact I]|]. auto.
Qed.

Lemma catalog_backoff_witness :
  let evs := [(0, Ce_ask); (10, Ce_land []); (20, Ce_ask); (400000, Ce_ask); (400010, Ce_land [mkApp "gmail" "Gmail" None None [] false])] in
  inOrder 0 evs /\ takeOffs evs emptyCatalog = [0; 400000] /\ spaced None (takeOffs evs emptyCatalog).
Proof.
  intros evs. split; [simpl; lia|]. split; [reflexivity|]. refine (proj1 (catalog_backoff evs 0 _)). simpl. lia.
Defined.

(** ** The relay *)
Lemma setHeader_in h p q : In q (setHeader h p) -> q = p \/ (In q h /\ q.1 <> p.1).
Proof.
  unfold setHeader. intros H. apply in_app_iff in H as [H|[<-|[]]]; [|left; reflexivity].
  apply filter_In in H as [H E]. right. split; [exact H|]. intros E'. rewrite E', str_eqb_refl in E. discriminate.
Qed.

Lemma setHeaders_in target : forall h q, In q (fold_left setHeader target h) ->
  In q target \/ (In q h /\ ~ In q.1 (List.map fst target)).
Proof.
  induction target as [|p target IH]; intros h q H; [right; split; [exact H | intros []]|]. simpl in H.
  apply IH in H as [H|[H Hn]]; [left; right; exact H|].
  apply setHeader_in in H as [->|[H Hne]]; [left; left; reflexivity|]. right. split; [exact H|].
  intros [E|Hin]; [congruence | exact (Hn Hin)].
Qed.

Lemma relayed_header request target name value : In (name, value) (relayHeaders request target) ->
  In (name, value) target \/
  (In name FORWARDED_REQUEST_HEADERS /\ headerOf name request = Some value /\ ~ In name (List.map fst target)).
Proof.
  intros H. unfold relayHeaders in H. apply setHeaders_in in H as [H|[H Hn]]; [left; exact H|]. right.
  apply list_elem_of_In, list_elem_of_omap in H as (n & Hin & E). apply list_elem_of_In in Hin.
  destruct (headerOf n request) as [v|] eqn:Eh; [|discriminate]. injection E as <- <-. auto.
Qed.

(** A bot's secret stays on our side of the relay: of the headers a container sends,
    only the five that MCP needs cross to the provider, each with the container's own
    value and none in place of the provider's; its bearer never does. *)
Theorem relay_headers_clean (request target : Headers) (name value : string) (H : In (name, value) (relayHeaders request target)) :
  In (name, value) target \/
  (In name FORWARDED_REQUEST_HEADERS /\ headerOf name request = Some value /\ ~ In name (List.map fst target)).
Proof. exact (relayed_header request target name value H). Qed.

Lemma relay_headers_clean_witness :
  let request := [("authorization", "Bearer relay"); ("accept", "text/event-stream"); ("cookie", "c")] in
  let target := [("x-api-key", "secret")] in
  relayHeaders request target = [("accept", "text/event-stream"); ("x-api-key", "secret")] /\
  (In ("accept", "text/event-stream") target \/
   (In "accept" FORWARDED_REQUEST_HEADERS /\ headerOf "accept" request = Some "text/event-stream" /\
    ~ In "accept" (List.map fst target))).
Proof.
  intros request target. split; [reflexivity|]. apply (relay_headers_clean request target "accept" "text/event-stream").
  left. reflexivity.
Defined.

Lemma relay_bearer_stays request target v :
  In ("authorization", v) (relayHeaders request target) -> In ("authorization", v) target.
Proof.
  intros H. apply relayed_header in H as [H|[H _]]; [exact H|]. exfalso. vm_compute in H. intuition discriminate.
Qed.
