(* ===== verification/Linker.v ===== *)
(** Linking a Telegram bot to a bot: [services/telegram/managed-bot-linker.ts] of the
    orchestrator, with the answers of [services/telegram/bot-api.ts].

    The pending links live in [mm_linker] ([LinkerTypes]); [ManagedBotApi] is the
    interface of the manager bot and of the bot that was made.  What the linker starts
    and does not await is noted in the result as a [Detached] and run by [runDetached];
    a sleep is one step of the interface, between whose ends other programs run. *)
From Stdlib Require Import Ascii.
From S2P Require Import Prelude JsString Domain Json Fleet Hosts FleetStore IntegrationTypes FleetWorld InstanceManager.
From stdpp Require Import list strings gmap.
#[local] Open Scope Z_scope.

(** ** bot-api.ts *)

(** What comes back of a call: nothing, or a status with a body that may not be JSON. *)
Inductive TelegramReply := Rp_lost | Rp_answer (httpStatus : Z) (body : option Json).

Definition TelegramOkSchema : Schema (option Z + Json) := fun j =>
  match field "ok" (fun v => match v with JBool b => Some b | _ => None end) j with
  | Some true => Some (inr (default JNull match j with JObj l => lookupField "result" l | _ => None end))
  | Some false =>
      match field "error_code" zInt j, undefinedField "description" zString j with
      | Some c, Some _ => Some (inl (Some c))
      | _, _ => None
      end
  | None => None
  end.

Definition telegramCall (r : TelegramReply) : TelegramError + Json :=
  match r with
  | Rp_lost => inl (Te_api None)
  | Rp_answer _ body =>
      match body with
      | None => inl (Te_api None)
      | Some j =>
          match TelegramOkSchema j with
          | None => inl (Te_api None)
          | Some (inl code) => inl (Te_api code)
          | Some (inr result) => inr result
          end
      end
  end.

Record TelegramUser := mkTelegramUser { tu_id : Z; tu_username : option string }.
Definition zBool : Schema bool := fun j => match j with JBool b => Some b | _ => None end.
Definition TelegramUserSchema : Schema TelegramUser := fun j =>
  match field "id" zInt j, field "is_bot" zBool j, field "first_name" zString j, undefinedField "username" zString j with
  | Some id, Some _, Some _, Some u => Some (mkTelegramUser id u)
  | _, _, _, _ => None
  end.

Record ManagedBotUpdated := mkManagedBot { mb_user : TelegramUser; mb_bot : TelegramUser }.
Definition ManagedBotUpdatedSchema : Schema ManagedBotUpdated := fun j =>
  match field "user" TelegramUserSchema j, field "bot" TelegramUserSchema j with
  | Some u, Some b => Some (mkManagedBot u b)
  | _, _ => None
  end.

Record TelegramUpdate := mkUpdate { up_id : Z; up_managedBot : option ManagedBotUpdated }.
Definition UpdateSchema : Schema TelegramUpdate := fun j =>
  match field "update_id" zInt j, undefinedField "managed_bot" ManagedBotUpdatedSchema j with
  | Some i, Some b => Some (mkUpdate i b)
  | _, _ => None
  end.

(** A result that does not parse is an error of the parser, which has no code. *)
Definition parsed {A} (s : Schema A) (r : TelegramReply) : TelegramError + A :=
  match telegramCall r with
  | inl e => inl e
  | inr j => match s j with Some a => inr a | None => inl Te_other end
  end.

Class ManagedBotApi (X : Type) := {
  mb_getMe : X -> TelegramReply * X;
  mb_getUpdates : Z -> X -> TelegramReply * X;
  mb_getManagedBotToken : Z -> X -> TelegramReply * X;
  mb_setManagedBotAccessSettings : Z -> bool -> X -> TelegramReply * X;
  mb_replaceManagedBotToken : Z -> X -> TelegramReply * X;
  (** with the token of the bot that speaks *)
  mb_sendMessage : string -> Z -> string -> X -> TelegramReply * X;
  mb_randomHex : X -> string * X;
  mb_sleep : Z -> X -> unit * X;
}.

Record TelegramLink := mkTelegramLink { tl_deepLink : string; tl_botUsername : string; tl_expiresAt : Z }.
Inductive LinkStatus := Ls_none | Ls_pending | Ls_connected.
Record TelegramLinkStatus := mkLinkStatus { ls_status : LinkStatus; ls_botUsername : option string; ls_deepLink : option string }.

Definition toTelegramLink (k : PendingLink) : TelegramLink :=
  mkTelegramLink (pk_deepLink k) (pk_suggestedUsername k) (pk_expiresAt k).

Definition POLL_ERROR_BACKOFF_MS : Z := 5000.
Definition POLL_CONFLICT_BACKOFF_MS : Z := 60000.
Definition WELCOME_RETRY_INTERVAL_MS : Z := 15000.
(** Waits and failures of one attachment together. *)
Definition ATTACH_FUEL : nat := 94.

Definition isTransient (e : TelegramError) : bool :=
  match e with
  | Te_api None => true
  | Te_api (Some code) => (code =? 429) || (500 <=? code)
  | Te_other => false
  end.

(** What runs on without being awaited. *)
Inductive Detached :=
| Dt_orphan (botUserId : Z)
| Dt_welcome (botToken : string) (creatorId : Z) (displayName : string)
| Dt_handle (update : ManagedBotUpdated).

Definition isTelegram (ch : ChannelConfig) : bool := match ch with Ch_telegram _ => true | _ => false end.

Definition ownedTelegram (update : ManagedBotUpdated) (botToken : string) : ChannelConfig :=
  Ch_telegram (mkTelegram (Some botToken) (tu_username (mb_bot update)) (Some (tu_id (mb_bot update))) (Some Tg_allowlist)
    (Some ["tg:" +:+ str_of_Z (tu_id (mb_user update))])).

Definition withTelegram (telegram : ChannelConfig) (channels : list ChannelConfig) : list ChannelConfig :=
  List.filter (fun ch => negb (isTelegram ch)) channels ++ [telegram].

Section Linker.
Context {X : Type} `{!ContainerRuntime X, !AgentAdapter X, !Collaborators X, !ManagedBotApi X}.
Context (cfg : AppConfig).

Definition tg {A} (s : Schema A) (op : X -> TelegramReply * X) : Fleet X (TelegramError + A) :=
  let! r := ext' op in ret (parsed s r).
Definition settleOf {A} (m : Fleet X A) : Fleet X (OrchError + A) := fun w => let '(r, w') := m w in (inr r, w').
Definition pause (ms : Z) : Fleet X unit := ext' (mb_sleep ms).
Definition onLinker {A} (f : LinkerMemory -> A * LinkerMemory) : Fleet X A :=
  onMem (fun m => let '(a, l) := f (mm_linker m) in (a, setLinker l m)).

(** ** The deep links *)
Definition requireManagerUsername : Fleet X string :=
  let! memo := onLinker (fun l => (truthy (lm_managerUsername l), l)) in
  match memo with
  | Some u => ret u
  | None =>
      let! me := tg TelegramUserSchema mb_getMe in
      match me with
      | inr u => match truthy (tu_username u) with
                 | Some name => let! _ := onLinker (fun l => (tt, setManagerUsername name l)) in ret name
                 | None => throw (UpstreamUnavailableError "Telegram" None)
                 end
      | inl _ => throw (UpstreamUnavailableError "Telegram" None)
      end
  end.

Definition newLink (instanceId userId displayName managerUsername hex : string) (now ref : Z) : PendingLink :=
  let suggested := suggestedUsernamePrefix displayName +:+ "_" +:+ hex +:+ "_bot" in
  mkPending ref instanceId userId suggested
    ("https://t.me/newbot/" +:+ managerUsername +:+ "/" +:+ suggested +:+ "?name="
       +:+ encodeURIComponent (String.substring 0 64 displayName))
    (now + LINK_TTL_MS).

Definition createLink (instanceId userId : string) : Fleet X TelegramLink :=
  let! inst := requireOwnedInstance cfg instanceId userId in
  let! t := now in
  let! existing := onLinker (fun l => let l' := sweepExpired t l in (lm_byInstance l' !! instanceId, l')) in
  match existing with
  | Some k => ret (toTelegramLink k)
  | None =>
      let! managerUsername := requireManagerUsername in
      let! hex := ext' mb_randomHex in
      let! link := onLinker (fun l =>
        let k := newLink instanceId userId (ic_displayName (in_config inst)) managerUsername hex t (lm_nextRef l) in
        (k, addLink k l)) in
      append instanceId "telegram.link_requested" (Some userId);;;
      ret (toTelegramLink link)
  end.

Definition getStatus (instanceId userId : string) : Fleet X TelegramLinkStatus :=
  let! inst := requireOwnedInstance cfg instanceId userId in
  match findTelegramChannel (ic_channels (in_config inst)) with
  | Some (mkTelegram (Some (String _ _)) botUsername _ _ _) => ret (mkLinkStatus Ls_connected botUsername None)
  | _ =>
      let! t := now in
      let! pending := onLinker (fun l => let l' := sweepExpired t l in (lm_byInstance l' !! instanceId, l')) in
      ret match pending with
          | Some k => mkLinkStatus Ls_pending (Some (pk_suggestedUsername k)) (Some (pk_deepLink k))
          | None => mkLinkStatus Ls_none None None
          end
  end.

Definition cancelLink (instanceId : string) : Fleet X unit := onLinker (fun l => (tt, cancelLink_ instanceId l)).
Definition dropPending (k : PendingLink) : Fleet X unit := onLinker (fun l => (tt, removePending k l)).

(** ** The bots that were made *)
Fixpoint withTransientRetry {A} (retries : nat) (delay : Z) (fn : Fleet X (TelegramError + A)) : Fleet X (TelegramError + A) :=
  let! r := fn in
  match r, retries with
  | inl e, S n => if isTransient e then pause delay;;; withTransientRetry n (delay * 2) fn else ret r
  | _, _ => ret r
  end.
Definition retrying {A} (s : Schema A) (op : X -> TelegramReply * X) : Fleet X (TelegramError + A) :=
  withTransientRetry (TRANSIENT_MAX_ATTEMPTS - 1) TRANSIENT_BACKOFF_BASE_MS (tg s op).

Definition disableOrphan (botUserId : Z) : Fleet X unit :=
  let! r := tg zUnknown (mb_setManagedBotAccessSettings botUserId true) in
  match r with
  | inl _ => ret tt
  | inr _ => let! _ := tg zUnknown (mb_replaceManagedBotToken botUserId) in ret tt
  end.

Definition restrictToOwner (botUserId : Z) : Fleet X unit :=
  let! _ := retrying zUnknown (mb_setManagedBotAccessSettings botUserId true) in ret tt.

Fixpoint sendWelcome (attempts : nat) (botToken : string) (creatorId : Z) (text : string) : Fleet X unit :=
  match attempts with
  | O => ret tt
  | S n =>
      let! r := tg zUnknown (mb_sendMessage botToken creatorId text) in
      match r, n with
      | inr _, _ | _, O => ret tt
      | inl _, S _ => pause WELCOME_RETRY_INTERVAL_MS;;; sendWelcome n botToken creatorId text
      end
  end.

Definition attachChannelOnce (pending : PendingLink) (update : ManagedBotUpdated) (botToken : string)
  : Fleet X (string * list Detached) :=
  let! inst := requireOwnedInstance cfg (pk_instanceId pending) (pk_userId pending) in
  if oneOf [I_destroying; I_destroyed] (fi_status inst) then throw (NotFoundError "instance" (pk_instanceId pending))
  else
    let previous := findTelegramChannel (ic_channels (in_config inst)) in
    let! _ := updateChannels cfg (pk_instanceId pending) (pk_userId pending)
      (fun channels => inr (Some (withTelegram (ownedTelegram update botToken) channels))) in
    append (pk_instanceId pending) TELEGRAM_LINKED_EVENT (Some (pk_userId pending));;;
    ret (ic_displayName (in_config inst),
         match previous with
         | Some p => match tg_botId p with
                     | Some b => if (b =? 0) || (b =? tu_id (mb_bot update)) then [] else [Dt_orphan b]
                     | None => []
                     end
         | None => []
         end).

(** [None]: out of fuel. *)
Fixpoint attachChannel (fuel waits failures : nat) (pending : PendingLink) (update : ManagedBotUpdated) (botToken : string)
  : Fleet X (option (string * list Detached)) :=
  match fuel with
  | O => ret None
  | S fuel =>
      let! r := settleOf (attachChannelOnce pending update botToken) in
      match r with
      | inr a => ret (Some a)
      | inl (NotFoundError x y) => throw (NotFoundError x y)
      | inl (InvalidStateError x y) =>
          if (PROVISIONING_MAX_ATTEMPTS <? S waits)%nat then throw (InvalidStateError x y)
          else pause PROVISIONING_RETRY_INTERVAL_MS;;; attachChannel fuel (S waits) failures pending update botToken
      | inl e =>
          if (TRANSIENT_MAX_ATTEMPTS <=? S failures)%nat then throw e
          else pause (TRANSIENT_BACKOFF_BASE_MS * 2 ^ Z.of_nat (S failures));;;
               attachChannel fuel waits (S failures) pending update botToken
      end
  end.

(** The [catch] of [handleManagedBot]: what it launches, and the error of its own that
    nobody catches. *)
Definition linkFailed (pending : PendingLink) (update : ManagedBotUpdated) : Fleet X (list Detached * option OrchError) :=
  dropPending pending;;;
  let! r := settleOf (append (pk_instanceId pending) "telegram.link_failed" None) in
  ret ([Dt_orphan (tu_id (mb_bot update))], match r with inl e => Some e | inr _ => None end).

Definition handleManagedBot (update : ManagedBotUpdated) : Fleet X (list Detached * option OrchError) :=
  let! t := now in
  let! pending := onLinker (fun l =>
    let l' := sweepExpired t l in
    (match truthy (tu_username (mb_bot update)) with Some u => linkByUsername (toLowerCase u) l' | None => None end, l')) in
  match pending with
  | None => ret ([Dt_orphan (tu_id (mb_bot update))], None)
  | Some k =>
      let! token := retrying zNonEmpty (mb_getManagedBotToken (tu_id (mb_bot update))) in
      match token with
      | inl _ => linkFailed k update
      | inr botToken =>
          restrictToOwner (tu_id (mb_bot update));;;
          let! r := settleOf (attachChannel ATTACH_FUEL 0 0 k update botToken) in
          match r with
          | inr (Some (displayName, detached)) =>
              dropPending k;;;
              ret (detached ++ [Dt_welcome botToken (tu_id (mb_user update)) displayName], None)
          | _ => linkFailed k update
          end
      end
  end.

(** ** The poller *)
Definition nextOffset (offset : Z) (updates : list TelegramUpdate) : Z :=
  fold_left (fun o u => Z.max o (up_id u + 1)) updates offset.

(** One turn of [pollLoop]: the next offset and what is launched. *)
Definition pollOnce (offset : Z) : Fleet X (Z * list Detached) :=
  let! name := settleOf requireManagerUsername in
  match name with
  | inl _ => pause POLL_ERROR_BACKOFF_MS;;; ret (offset, [])
  | inr _ =>
      let! r := tg (zArray UpdateSchema) (mb_getUpdates offset) in
      match r with
      | inl e =>
          pause (match e with Te_api (Some code) => if code =? 409 then POLL_CONFLICT_BACKOFF_MS else POLL_ERROR_BACKOFF_MS
                             | _ => POLL_ERROR_BACKOFF_MS end);;;
          ret (offset, [])
      | inr updates => ret (nextOffset offset updates, List.map Dt_handle (omap up_managedBot updates))
      end
  end.

(** What is launched by what was launched. *)
Definition runDetached (welcome : string -> string) (d : Detached) : Fleet X (list Detached) :=
  match d with
  | Dt_orphan b => disableOrphan b;;; ret []
  | Dt_welcome token creator displayName => sendWelcome WELCOME_MAX_ATTEMPTS token creator (welcome displayName);;; ret []
  | Dt_handle update => let! r := handleManagedBot update in ret r.1
  end.
End Linker.
