(* ===== verification/LinkerProps.v ===== *)
(** What linking a Telegram bot promises: [LinkerTypes] and [Linker]. *)
From Stdlib Require Import Ascii.
From S2P Require Import Prelude JsString Domain Json Fleet Hosts FleetStore IntegrationTypes FleetWorld InstanceManager.
From S2P Require Import FleetGuar Linker.
From stdpp Require Import list strings gmap.
#[local] Open Scope Z_scope.

(** ** The pending links *)

(** Both maps hold the same links, each under its own bot and its own username. *)
Record LinkerInv (m : LinkerMemory) : Prop := mkLinkerInv {
  li_instance : forall i k, lm_byInstance m !! i = Some k -> pk_instanceId k = i;
  li_both : forall i k, lm_byInstance m !! i = Some k -> In (pk_suggestedUsername k, k) (lm_byUsername m);
  li_username : forall u k, In (u, k) (lm_byUsername m) -> pk_suggestedUsername k = u;
  li_keys : List.NoDup (List.map fst (lm_byUsername m));
  li_refs : forall u k, In (u, k) (lm_byUsername m) -> pk_ref k < lm_nextRef m;
  li_same : forall u k u' k', In (u, k) (lm_byUsername m) -> In (u', k') (lm_byUsername m) -> pk_ref k = pk_ref k' -> k = k';
}.

(** A username nobody holds: the four random bytes are fresh. *)
Inductive LinkerStep (m : LinkerMemory) : LinkerMemory -> Prop :=
| Lp_add k : pk_ref k = lm_nextRef m -> linkByUsername (pk_suggestedUsername k) m = None -> LinkerStep m (addLink k m)
| Lp_remove u k : In (u, k) (lm_byUsername m) -> LinkerStep m (removePending k m)
| Lp_cancel i : LinkerStep m (cancelLink_ i m)
| Lp_sweep t : LinkerStep m (sweepExpired t m)
| Lp_manager u : LinkerStep m (setManagerUsername u m).

Definition linkerReaches : LinkerMemory -> Prop := rtc LinkerStep emptyLinker.

Lemma linkByUsername_none u m : linkByUsername u m = None -> ~ In u (List.map fst (lm_byUsername m)).
Proof.
  unfold linkByUsername. intros H Hin. apply in_map_iff in Hin as ([u' k] & E & Hin). simpl in E. subst u'.
  destruct (List.find _ _) eqn:Ef; [discriminate|]. eapply List.find_none in Ef; [|exact Hin]. simpl in Ef.
  rewrite str_eqb_refl in Ef. discriminate.
Qed.

Lemma setUsername_new u k l : ~ In u (List.map fst l) -> setUsername u k l = l ++ [(u, k)].
Proof.
  intros Hn. unfold setUsername. destruct (List.existsb _ l) eqn:E; [|reflexivity]. exfalso. apply Hn.
  apply existsb_exists in E as ([u' k'] & Hin & E). simpl in E. apply str_eqb_eq in E as ->. apply (in_map fst _ _ Hin).
Qed.

Lemma dropInstance_lookup k l i k' : dropInstance k l !! i = Some k' -> l !! i = Some k'.
Proof.
  unfold dropInstance. destruct (l !! pk_instanceId k) eqn:E; [|auto]. destruct (sameLink _ _); [|auto].
  intros H. apply lookup_delete_Some in H. tauto.
Qed.

(** Removing the links of a filter keeps the two maps together, as long as the links that go
    leave the map of bots too. *)
Lemma filtered_inv (p : string * PendingLink -> bool) byInstance m manager next : LinkerInv m -> lm_nextRef m <= next ->
  (forall i k, byInstance !! i = Some k -> lm_byInstance m !! i = Some k /\ p (pk_suggestedUsername k, k) = true) ->
  LinkerInv (mkLinkerMemory (List.filter p (lm_byUsername m)) byInstance manager next).
Proof.
  intros [H1 H2 H3 H4 H5 H6] Hn Hb. assert (Hin : forall u k, In (u, k) (List.filter p (lm_byUsername m)) -> In (u, k) (lm_byUsername m)) by (intros u k H; apply filter_In in H; tauto).
  constructor; simpl; intros.
  - apply Hb in H as [H _]. eauto.
  - apply Hb in H as [H E]. apply filter_In. eauto.
  - eauto.
  - clear -H4. induction (lm_byUsername m) as [|a l IH]; simpl in *; [constructor|]. apply NoDup_cons_iff in H4 as [Hn H4].
    destruct (p a); simpl; [|auto]. apply NoDup_cons_iff. split; [|auto]. intros Hin. apply Hn.
    apply in_map_iff in Hin as (x & E & Hin). apply filter_In in Hin as [Hin _]. rewrite <- E. apply in_map, Hin.
  - specialize (H5 _ _ (Hin _ _ H)). lia.
  - eauto.
Qed.

Lemma key_link u k k' m : LinkerInv m -> In (u, k) (lm_byUsername m) -> In (u, k') (lm_byUsername m) -> k = k'.
Proof.
  intros Hi H H'. pose proof (li_keys _ Hi) as Hn. induction (lm_byUsername m) as [|[a b] l IH]; [destruct H|]. simpl in *.
  apply NoDup_cons_iff in Hn as [Hn Hd]. destruct H as [E|H], H' as [E'|H'].
  - congruence.
  - injection E as -> ->. destruct (Hn (in_map fst _ _ H')).
  - injection E' as -> ->. destruct (Hn (in_map fst _ _ H)).
  - auto.
Qed.

Lemma fold_drop_lookup (dead : list (string * PendingLink)) : forall l i k,
  fold_left (fun l p => dropInstance p.2 l) dead l !! i = Some k ->
  l !! i = Some k /\ forall u k', In (u, k') dead -> pk_instanceId k' = i -> pk_ref k' <> pk_ref k.
Proof.
  induction dead as [|[u0 k0] dead IH]; intros l i k H; simpl in H; [split; [exact H | intros ? ? []]|].
  apply IH in H as [H Hd]. split; [exact (dropInstance_lookup _ _ _ _ H)|].
  intros u k' [E|Hin] Ei; [|eauto]. injection E as _ ->. intros Er. unfold dropInstance in H. rewrite Ei in H.
  destruct (l !! i) as [k1|] eqn:El; [|congruence]. unfold sameLink in H. destruct (pk_ref k1 =? pk_ref k') eqn:Es.
  - rewrite lookup_delete_eq in H. discriminate.
  - apply Z.eqb_neq in Es. congruence.
Qed.

Lemma remove_inv u k m : LinkerInv m -> In (u, k) (lm_byUsername m) -> LinkerInv (removePending k m).
Proof.
  intros Hi Hin. pose proof (li_username _ Hi _ _ Hin) as Eu. unfold removePending.
  assert (Ef : linkByUsername (pk_suggestedUsername k) m = Some k).
  { unfold linkByUsername. destruct (List.find _ _) as [[u' k']|] eqn:E.
    - apply find_some in E as [Hin' E]. simpl in E. apply str_eqb_eq in E as ->. rewrite Eu in Hin'. simpl. f_equal.
      exact (key_link u k' k m Hi Hin' Hin).
    - eapply List.find_none in E; [|exact Hin]. simpl in E. rewrite Eu, str_eqb_refl in E. discriminate. }
  rewrite Ef. unfold sameLink at 1. rewrite Z.eqb_refl.
  apply filtered_inv; [exact Hi | lia|]. intros i k' H. split; [exact (dropInstance_lookup _ _ _ _ H)|]. cbn [fst].
  destruct (str_eqb _ _) eqn:E; [|reflexivity]. exfalso. apply str_eqb_eq in E.
  pose proof (dropInstance_lookup _ _ _ _ H) as H'. pose proof (li_both _ Hi _ _ H') as Hin'. rewrite E, Eu in Hin'.
  pose proof (key_link u k' k m Hi Hin' Hin) as ->. pose proof (li_instance _ Hi _ _ H') as Ei. unfold dropInstance in H.
  rewrite Ei, H' in H. unfold sameLink in H. rewrite Z.eqb_refl, lookup_delete_eq in H. discriminate.
Qed.

Lemma sweep_lookup t m i k : LinkerInv m -> lm_byInstance (sweepExpired t m) !! i = Some k ->
  lm_byInstance m !! i = Some k /\ expiredLink t k = false.
Proof.
  intros Hi H. simpl in H. apply fold_drop_lookup in H as [H Hd]. split; [exact H|].
  destruct (expiredLink t k) eqn:E; [|reflexivity]. exfalso.
  refine (Hd (pk_suggestedUsername k) k _ (li_instance _ Hi _ _ H) eq_refl). apply filter_In. split; [exact (li_both _ Hi _ _ H) | exact E].
Qed.

Lemma linker_step_inv m m' : LinkerStep m m' -> LinkerInv m -> LinkerInv m'.
Proof.
  intros Hs Hi. destruct Hs as [k Er Hu|u k Hin|i|t|u].
  - pose proof (linkByUsername_none _ _ Hu) as Hn. destruct Hi as [H1 H2 H3 H4 H5 H6]. unfold addLink.
    rewrite (setUsername_new _ _ _ Hn). constructor; simpl.
    + intros i k' H. apply lookup_insert_Some in H as [[<- <-]|[_ H]]; eauto.
    + intros i k' H. apply in_app_iff. apply lookup_insert_Some in H as [[<- <-]|[_ H]]; [right; left; reflexivity | eauto].
    + intros u k' H. apply in_app_iff in H as [H|[H|[]]]; [eauto | congruence].
    + rewrite map_app. simpl. apply List.NoDup_app; [exact H4 | repeat constructor; intros []|].
      intros u H [<-|[]]. exact (Hn H).
    + intros u k' H. apply in_app_iff in H as [H|[H|[]]]; [specialize (H5 _ _ H); lia | injection H as _ <-; lia].
    + intros u k' u' k'' H H' E. apply in_app_iff in H as [H|[H|[]]], H' as [H'|[H'|[]]]; eauto; try congruence.
      * injection H' as _ <-. specialize (H5 _ _ H). lia.
      * injection H as _ <-. specialize (H5 _ _ H'). lia.
  - exact (remove_inv u k m Hi Hin).
  - unfold cancelLink_. destruct (lm_byInstance m !! i) as [k|] eqn:E; [|exact Hi].
    exact (remove_inv _ _ _ Hi (li_both _ Hi _ _ E)).
  - unfold sweepExpired. apply filtered_inv; [exact Hi | lia|]. intros i k H.
    destruct (sweep_lookup t m i k Hi H) as [H' E]. split; [exact H'|]. cbn [snd]. rewrite E. reflexivity.
  - destruct Hi as [H1 H2 H3 H4 H5 H6]. constructor; assumption.
Qed.

Lemma linker_reaches_inv m : linkerReaches m -> LinkerInv m.
Proof.
  intros H. assert (G : forall m0, rtc LinkerStep m0 m -> LinkerInv m0 -> LinkerInv m) by (induction 1; eauto using linker_step_inv).
  apply (G _ H). constructor; simpl; intros; try (contradiction || constructor); rewrite lookup_empty in *; discriminate.
Qed.

(** An old Telegram link is dead: whatever links were made, answered, cancelled and
    swept before, a link offered to a user or matched with a bot that was made has not
    expired, is the one of that very bot and username, and cancelling it leaves nothing
    that a late update could match. *)
Theorem links_expire (m : LinkerMemory) (t : Z) (i : string) (k : PendingLink)
  (Hm : linkerReaches m) (Hk : lm_byInstance (sweepExpired t m) !! i = Some k) :
  t < pk_expiresAt k /\ pk_instanceId k = i /\
  linkByUsername (pk_suggestedUsername k) (sweepExpired t m) = Some k /\
  let m' := cancelLink_ i (sweepExpired t m) in
  lm_byInstance m' !! i = None /\ linkByUsername (pk_suggestedUsername k) m' = None.
Proof.
  pose proof (linker_reaches_inv m Hm) as Hi. pose proof (sweep_lookup t m i k Hi Hk) as [H E].
  assert (Hs : LinkerInv (sweepExpired t m)) by (apply (linker_step_inv m); [constructor | exact Hi]).
  pose proof (li_both _ Hs _ _ Hk) as Hin. pose proof (li_instance _ Hs _ _ Hk) as Ei.
  assert (Ef : linkByUsername (pk_suggestedUsername k) (sweepExpired t m) = Some k).
  { unfold linkByUsername. destruct (List.find _ _) as [[u' k']|] eqn:Ef.
    - apply find_some in Ef as [Hin' Eu]. apply str_eqb_eq in Eu. cbn [fst] in Eu. subst u'. simpl. f_equal. exact (key_link _ k' k _ Hs Hin' Hin).
    - eapply List.find_none in Ef; [|exact Hin]. cbn [fst] in Ef. rewrite str_eqb_refl in Ef. discriminate. }
  unfold expiredLink in E. split; [lia|]. split; [exact Ei|]. split; [exact Ef|]. cbv zeta. unfold cancelLink_. rewrite Hk.
  unfold removePending. rewrite Ef. unfold sameLink. rewrite Z.eqb_refl. split.
  - cbn [lm_byInstance]. unfold dropInstance, sameLink. rewrite Ei, Hk, Z.eqb_refl. apply lookup_delete_eq.
  - unfold linkByUsername. cbn [lm_byUsername]. destruct (List.find _ _) as [[u' k']|] eqn:Eg; [|reflexivity]. exfalso.
    apply find_some in Eg as [Hin' Eu]. apply filter_In in Hin' as [_ Hne]. cbn [fst] in *. rewrite Eu in Hne. discriminate.
Qed.

Lemma links_expire_witness :
  let k := mkPending 0 "bot" "user" "shop_0a0b_bot" "https://t.me/newbot/m/shop_0a0b_bot" LINK_TTL_MS in
  let m := addLink k emptyLinker in
  linkerReaches m /\ lm_byInstance (sweepExpired 5 m) !! "bot" = Some k /\ 5 < pk_expiresAt k /\
  lm_byInstance (sweepExpired LINK_TTL_MS m) !! "bot" = None.
Proof.
  intros k m. assert (Hm : linkerReaches m) by (apply rtc_once, Lp_add; reflexivity).
  assert (Hk : lm_byInstance (sweepExpired 5 m) !! "bot" = Some k) by (vm_compute; reflexivity).
  split; [exact Hm|]. split; [exact Hk|]. split; [exact (proj1 (links_expire m 5 "bot" k Hm Hk)) | vm_compute; reflexivity].
Defined.

(** ** The attachment *)
Section Attach.
Context {X : Type} `{!ContainerRuntime X, !AgentAdapter X, !Collaborators X, !ManagedBotApi X}.
Context (cfg : AppConfig).

Lemma bind_settle {A B} (m : Fleet X A) (f : OrchError + A -> Fleet X B) w :
  bind (settleOf m) f w = let '(r, w') := m w in f r w'.
Proof. unfold bind, settleOf. destruct (m w). reflexivity. Qed.

Lemma attach_bounded fuel : forall fuel' waits failures k u token w,
  (waits <= PROVISIONING_MAX_ATTEMPTS)%nat -> (failures < TRANSIENT_MAX_ATTEMPTS)%nat ->
  (PROVISIONING_MAX_ATTEMPTS - waits + (TRANSIENT_MAX_ATTEMPTS - failures) <= fuel)%nat -> (fuel <= fuel')%nat ->
  attachChannel cfg fuel' waits failures k u token w = attachChannel cfg fuel waits failures k u token w /\
  (attachChannel cfg fuel waits failures k u token w).1 <> inr None.
Proof.
  induction fuel as [|fuel IH]; intros fuel' waits failures k u token w Hw Hf Hm Hle; [lia|].
  destruct fuel' as [|fuel']; [lia|]. cbn [attachChannel]. rewrite !bind_settle.
  destruct (attachChannelOnce cfg k u token w) as [[e|a] w']; [|split; [reflexivity | discriminate]].
  assert (Hwait : forall e ms, (if (PROVISIONING_MAX_ATTEMPTS <? S waits)%nat then throw e
      else pause ms;;; attachChannel cfg fuel' (S waits) failures k u token) w' =
      (if (PROVISIONING_MAX_ATTEMPTS <? S waits)%nat then throw e
      else pause ms;;; attachChannel cfg fuel (S waits) failures k u token) w' /\
      ((if (PROVISIONING_MAX_ATTEMPTS <? S waits)%nat then throw e
      else pause ms;;; attachChannel cfg fuel (S waits) failures k u token) w').1 <> inr None).
  { intros e' ms. destruct (Nat.ltb_spec PROVISIONING_MAX_ATTEMPTS (S waits)); [split; [reflexivity | discriminate]|].
    unfold bind. destruct (pause ms w') as [[?|[]] w'']; [split; [reflexivity | discriminate]|]. apply IH; lia. }
  assert (Hfail : forall e ms, (if (TRANSIENT_MAX_ATTEMPTS <=? S failures)%nat then throw e
      else pause ms;;; attachChannel cfg fuel' waits (S failures) k u token) w' =
      (if (TRANSIENT_MAX_ATTEMPTS <=? S failures)%nat then throw e
      else pause ms;;; attachChannel cfg fuel waits (S failures) k u token) w' /\
      ((if (TRANSIENT_MAX_ATTEMPTS <=? S failures)%nat then throw e
      else pause ms;;; attachChannel cfg fuel waits (S failures) k u token) w').1 <> inr None).
  { intros e' ms. destruct (Nat.leb_spec TRANSIENT_MAX_ATTEMPTS (S failures)); [split; [reflexivity | discriminate]|].
    unfold bind. destruct (pause ms w') as [[?|[]] w'']; [split; [reflexivity | discriminate]|]. apply IH; lia. }
  destruct e; first [apply Hwait | apply Hfail | split; [reflexivity | discriminate]].
Qed.

(** C38: a bot that was made is attached or given up: whatever the bots, the database and
    the other programs do, the attachment ends within 94 attempts (90 waits for a bot
    that is being created, three failures and the attempt that decides), and it ends with
    an answer or an error. *)
Theorem attach_ends (fuel : nat) (Hfuel : (ATTACH_FUEL <= fuel)%nat) (k : PendingLink) (u : ManagedBotUpdated)
  (token : string) (w : World (FleetDb X) unit) :
  attachChannel cfg fuel 0 0 k u token w = attachChannel cfg ATTACH_FUEL 0 0 k u token w /\
  (attachChannel cfg ATTACH_FUEL 0 0 k u token w).1 <> inr None.
Proof. apply attach_bounded; [unfold PROVISIONING_MAX_ATTEMPTS, TRANSIENT_MAX_ATTEMPTS, ATTACH_FUEL in *; lia..|exact Hfuel]. Qed.
End Attach.

(** ** On the two hosts of [FleetSim] *)
#[local] Instance simCollab : Collaborators Sim := simCollaborators simNext.
Definition simUser (id : Z) (username : option string) : Json :=
  JObj ([("id", JNum (QArith_base.inject_Z id)); ("is_bot", JBool true); ("first_name", JStr "Shop")]
        ++ match username with Some u => [("username", JStr u)] | None => [] end).
Definition tgOk (j : Json) : TelegramReply := Rp_answer 200 (Some (JObj [("ok", JBool true); ("result", j)])).

#[local] Instance simManagedBots : ManagedBotApi Sim := {
  mb_getMe x := (tgOk (simUser 1 (Some "manager")), x);
  mb_getUpdates o x := (tgOk (JArr []), x);
  mb_getManagedBotToken b x := (tgOk (JStr "secret"), x);
  mb_setManagedBotAccessSettings b r x := (tgOk (JBool true), simLog "restrict" x);
  mb_replaceManagedBotToken b x := (tgOk (JStr "other"), simLog ("revoke " +:+ str_of_Z b) x);
  mb_sendMessage t c m x := (tgOk JNull, simLog "welcome" x);
  (** Longer as more was logged, so that two calls differ. *)
  mb_randomHex x := (String.concat "" (List.repeat "a" (S (length (sm_log x)))), simLog "hex" x);
  mb_sleep ms x := (tt, simLog "sleep" x);
}.

Definition simTelegram (botId : Z) : ChannelConfig :=
  Ch_telegram (mkTelegram (Some "old") (Some "old_bot") (Some botId) (Some Tg_allowlist) (Some ["tg:9"])).
Definition simLinkWorld (channels : list ChannelConfig) (statements : list StatementOutcome) : World (FleetDb Sim) unit :=
  simWorld (mkRow (ro_fleet (simRow "a" I_running (Some "c") None None))
    (inr (mkInstanceConfig "Shop" (ic_provider simBotConfig) channels DEFAULT_RESOURCE_LIMITS None, "token")))
    ["bot"] true statements.
Definition simUpdate (botId : Z) (username : string) : ManagedBotUpdated :=
  mkManagedBot (mkTelegramUser 9 None) (mkTelegramUser botId (Some username)).

Lemma attach_ends_witness :
  let k := mkPending 0 "bot" "user" "shop_bot" "" 1000 in
  (ATTACH_FUEL <= 200)%nat /\
  (attachChannel simConfig 200 0 0 k (simUpdate 7 "shop_bot") "secret" (simLinkWorld [] [])).1 = inr (Some ("Shop", [])) /\
  attachChannel simConfig 200 0 0 k (simUpdate 7 "shop_bot") "secret" (simLinkWorld [] []) =
  attachChannel simConfig ATTACH_FUEL 0 0 k (simUpdate 7 "shop_bot") "secret" (simLinkWorld [] []).
Proof.
  intros k. assert (H : (ATTACH_FUEL <= 200)%nat) by (unfold ATTACH_FUEL; lia). split; [exact H|]. split; [vm_compute; reflexivity|].
  exact (proj1 (attach_ends simConfig 200 H k (simUpdate 7 "shop_bot") "secret" (simLinkWorld [] []))).
Defined.

Definition botTelegram (w : World (FleetDb Sim) unit) : option (option Z) :=
  match fd_rows (w_db w) with
  | r :: _ => match ro_settings r with inr s => option_map tg_botId (findTelegramChannel (ic_channels s.1)) | inl _ => None end
  | [] => None
  end.

(** Another program of the orchestrator, run at one await. *)
Definition during {A} (m : Fleet Sim A) (d : FleetDb Sim) : FleetDb Sim := w_db (m (mkWorld d [] 100 [])).2.
Definition interleaved (env : list (FleetDb Sim -> FleetDb Sim)) (w : World (FleetDb Sim) unit) : World (FleetDb Sim) unit :=
  mkWorld (w_db w) env (w_now w) [].
Definition linkerOf (w : World (FleetDb Sim) unit) : LinkerMemory := mm_linker (fd_mem (w_db w)).

(** Two requests that ask for the manager's name at the same time do not share a link, and
    cancelling drops the last of the two: the bot of the other one is attached after the
    disconnect. *)
Definition twoLinks : World (FleetDb Sim) unit :=
  Eval vm_compute in
  (cancelLink "bot" (createLink simConfig "bot" "user" (interleaved [id; id; during (createLink simConfig "bot" "user")] (simLinkWorld [] []))).2).2.
Lemma cancelled_link_survives :
  List.map fst (lm_byUsername (linkerOf twoLinks)) = ["shop_a_bot"] /\ lm_byInstance (linkerOf twoLinks) !! "bot" = None /\
  let w := (handleManagedBot simConfig (simUpdate 7 "shop_a_bot") (interleaved [] twoLinks)).2 in
  botTelegram twoLinks = None /\ botTelegram w = Some (Some 7).
Proof. vm_compute. repeat split. Qed.

(** A link that is cancelled while its bot is being attached is attached all the same. *)
Lemma cancelled_attachment_survives :
  let w := (createLink simConfig "bot" "user" (simLinkWorld [] [])).2 in
  let w' := (handleManagedBot simConfig (simUpdate 7 "shop_a_bot") (interleaved [id; during (cancelLink (X := Sim) "bot")] w)).2 in
  lm_byUsername (linkerOf w') = [] /\ botTelegram w' = Some (Some 7).
Proof. vm_compute. repeat split. Qed.

(** An update that comes a second time revokes the token of the bot it linked the first time. *)
Lemma redelivered_update_revokes :
  let w := (handleManagedBot simConfig (simUpdate 7 "shop_a_bot") ((createLink simConfig "bot" "user" (simLinkWorld [] [])).2)).2 in
  let again := handleManagedBot simConfig (simUpdate 7 "shop_a_bot") w in
  botTelegram again.2 = Some (Some 7) /\ again.1 = inr ([Dt_orphan 7], None).
Proof. vm_compute. repeat split. Qed.

(** When the event of a re-link fails once, the retry takes the new bot for the previous one
    and the bot that was replaced keeps its token. *)
Lemma retried_relink_keeps_old_bot :
  let k := mkPending 0 "bot" "user" "shop_a_bot" "" 1000 in
  let run statements := attachChannel simConfig ATTACH_FUEL 0 0 k (simUpdate 7 "shop_a_bot") "secret" (simLinkWorld [simTelegram 5] statements) in
  (run []).1 = inr (Some ("Shop", [Dt_orphan 5])) /\
  let statements := List.repeat St_done 5 ++ [St_refused] in
  (run statements).1 = inr (Some ("Shop", [])) /\ botTelegram (run statements).2 = Some (Some 7).
Proof. vm_compute. repeat split. Qed.
