(* ===== verification/Cursor.v ===== *)
(** Where a list of bots goes on: the cursor of the orchestrator's [routes/instances.ts].

    [parseIso] is [new Date(...)] on the strings the pattern of the cursor admits, as V8
    reads them: the digits of a fraction past the third are dropped, and a day that the
    month does not have is one of the next. *)
From Stdlib Require Import Ascii.
From S2P Require Import Prelude JsString Json Fleet Dates InstanceManager.
From stdpp Require Import list strings pretty.
#[local] Open Scope Z_scope.

(** ** Reading *)

(** [n] digits and what follows them. *)
Fixpoint digitsN (n : nat) (acc : Z) (s : string) : option (Z * string) :=
  match n, s with
  | O, _ => Some (acc, s)
  | S n, String c s => match digitOf c with Some d => digitsN n (10 * acc + d) s | None => None end
  | S _, EmptyString => None
  end.

Definition expectChar (p : ascii -> bool) (s : string) : option string :=
  match s with String c s => if p c then Some s else None | EmptyString => None end.
Definition eqFold (a c : ascii) : bool := Ascii.eqb (lowerAscii c) a.

(** The milliseconds of [.\d+], and what follows it. *)
Fixpoint fractionDigits (scale acc : Z) (s : string) : Z * string :=
  match s with
  | String c s' =>
      match digitOf c with
      | Some d => fractionDigits (scale / 10) (acc + scale * d) s'
      | None => (acc, s)
      end
  | EmptyString => (acc, s)
  end.
Definition fraction (s : string) : option (Z * string) :=
  match s with
  | String c s' =>
      if Ascii.eqb c "."%char then
        match s' with
        | String d _ => match digitOf d with Some _ => Some (fractionDigits 100 0 s') | None => None end
        | EmptyString => None
        end
      else Some (0, s)
  | EmptyString => None
  end.

Record IsoParts := mkIsoParts { ip_year : Z; ip_month : Z; ip_day : Z; ip_hour : Z; ip_minute : Z; ip_second : Z; ip_ms : Z }.

(** [\d{4}-\d{2}-\d{2}T\d{2}:\d{2}:\d{2}(?:\.\d+)?Z] at the start of a string. *)
Definition isoParts (s : string) : option (IsoParts * string) :=
  '(year, s) ← digitsN 4 0 s;
  s ← expectChar (Ascii.eqb "-"%char) s;
  '(month, s) ← digitsN 2 0 s;
  s ← expectChar (Ascii.eqb "-"%char) s;
  '(dom, s) ← digitsN 2 0 s;
  s ← expectChar (eqFold "t"%char) s;
  '(hour, s) ← digitsN 2 0 s;
  s ← expectChar (Ascii.eqb ":"%char) s;
  '(minute, s) ← digitsN 2 0 s;
  s ← expectChar (Ascii.eqb ":"%char) s;
  '(second, s) ← digitsN 2 0 s;
  '(ms, s) ← fraction s;
  s ← expectChar (eqFold "z"%char) s;
  Some (mkIsoParts year month dom hour minute second ms, s).

(** The time value; [None] is an invalid date. *)
Definition isoTime (p : IsoParts) : option Z :=
  let ms := ip_hour p * 3600000 + ip_minute p * 60000 + ip_second p * 1000 + ip_ms p in
  if (1 <=? ip_month p) && (ip_month p <=? 12) && (1 <=? ip_day p) && (ip_day p <=? 31)
     && (ip_minute p <=? 59) && (ip_second p <=? 59) && (ms <=? DAY_MS)
  then Some (Ecma.make_day (ip_year p) (ip_month p - 1) (ip_day p) * DAY_MS + ms)
  else None.

Definition isUuidChar (c : ascii) : bool :=
  isDigit c || Ascii.eqb c "-"%char
  || (let n := Z.of_nat (nat_of_ascii (lowerAscii c)) in (97 <=? n) && (n <=? 102)).

(** [CURSOR_RE] and the [transform]: [None] does not match. *)
Definition parseCursor (raw : string) : option (option Z * string) :=
  '(parts, s) ← isoParts raw;
  id ← expectChar (Ascii.eqb ":"%char) s;
  if (String.length id =? 36)%nat && allChars isUuidChar id then Some (isoTime parts, id) else None.

(** ** Writing *)
Definition encodeCursor (createdAt : Z) (id : string) : string := toISOString createdAt +:+ ":" +:+ id.

(** ** The round trip *)
Lemma digitsN_app n : forall acc s rest v, digitsN n acc s = Some (v, EmptyString) -> digitsN n acc (s +:+ rest) = Some (v, rest).
Proof.
  induction n as [|n IH]; intros acc s rest v H.
  - injection H as -> ->. reflexivity.
  - destruct s as [|c s]; [discriminate|]. change (String c s +:+ rest) with (String c (s +:+ rest)). cbn [digitsN] in *.
    destruct (digitOf c); [|discriminate]. apply IH, H.
Qed.

Lemma digitsN_snoc n c d : forall acc s v, digitsN n acc s = Some (v, EmptyString) -> digitOf c = Some d ->
  digitsN (S n) acc (s +:+ String c EmptyString) = Some (10 * v + d, EmptyString).
Proof.
  induction n as [|n IH]; intros acc s v H Hc.
  - injection H as -> ->. change (EmptyString +:+ ?s) with s. cbn [digitsN]. rewrite Hc. reflexivity.
  - destruct s as [|a s]; [discriminate|]. change (String a s +:+ ?r) with (String a (s +:+ r)).
    cbn [digitsN] in H. destruct (digitOf a) as [x|] eqn:Ea; [|discriminate].
    specialize (IH _ _ _ H Hc). cbn [digitsN] in IH |- *. rewrite Ea. exact IH.
Qed.

(** The last digit of a number. *)
Definition lastDigit (n : Z) : ascii := pretty_N_char (Z.to_N (n mod 10)).

Lemma digits_checked (p : Z -> bool) d : 0 <= d < 10 -> forallb p (seqZ 0 10) = true -> p d = true.
Proof. intros Hd H. rewrite forallb_forall in H. apply H, list_elem_of_In, elem_of_seqZ. lia. Qed.

Definition digitReads (d : Z) : bool := bool_decide (digitOf (pretty_N_char (Z.to_N d)) = Some d).
Definition digitPrints (d : Z) : bool := bool_decide (pretty d = String (lastDigit d) EmptyString).

Lemma lastDigit_reads n : digitOf (lastDigit n) = Some (n mod 10).
Proof.
  assert (H : digitReads (n mod 10) = true) by (apply digits_checked; [apply Z.mod_pos_bound; lia | vm_compute; reflexivity]).
  exact (bool_decide_eq_true_1 _ H).
Qed.

Lemma pretty_N_go_app x : forall s r, pretty_N_go x (s +:+ r) = pretty_N_go x s +:+ r.
Proof.
  induction (N.lt_wf_0 x) as [x _ IH]; intros s r. destruct (decide (x = 0)%N) as [->|Hx]; [reflexivity|].
  rewrite !(pretty_N_go_step x) by lia. apply (IH _ (N.div_lt x 10 ltac:(lia) eq_refl) (String _ s)).
Qed.

Lemma pretty_snoc n : 10 <= n -> pretty n = pretty (n / 10) +:+ String (lastDigit n) EmptyString.
Proof.
  intros H. destruct n as [|p|p]; [lia| |lia].
  assert (Hq : 1 <= Z.pos p / 10) by (apply Z.div_le_lower_bound; lia).
  assert (Ep : forall z : Z, 1 <= z -> pretty z = pretty_N_go (Z.to_N z) "").
  { intros [|q|q] Hz; try lia. change (pretty (Z.pos q)) with (pretty (N.pos q)). unfold pretty, pretty_N.
    rewrite decide_False by discriminate. reflexivity. }
  rewrite !Ep by lia. rewrite pretty_N_go_step by lia.
  rewrite <- pretty_N_go_app. unfold lastDigit. rewrite Z2N.inj_mod, Z2N.inj_div by lia. reflexivity.
Qed.

Lemma length_snoc s c : String.length (s +:+ String c EmptyString) = S (String.length s).
Proof. induction s as [|a s IH]; [reflexivity|]. exact (f_equal S IH). Qed.

Lemma pad_snoc w n : 10 <= n -> pad (S w) n = pad w (n / 10) +:+ String (lastDigit n) EmptyString.
Proof.
  intros H. unfold pad. cbv zeta. rewrite (pretty_snoc n H), length_snoc, Nat.sub_succ.
  generalize (w - String.length (pretty (n / 10)%Z))%nat as k. induction k as [|k IH]; [reflexivity|].
  exact (f_equal (String "0"%char) IH).
Qed.

Lemma pad_digit w n : 0 <= n < 10 -> digitsN (S w) 0 (pad (S w) n) = Some (n, EmptyString).
Proof.
  intros H. assert (E : pretty n = String (lastDigit n) EmptyString).
  { assert (Hp : digitPrints n = true) by (apply digits_checked; [exact H | vm_compute; reflexivity]). exact (bool_decide_eq_true_1 _ Hp). }
  unfold pad. rewrite E. cbv zeta. change (S w - String.length (String (lastDigit n) ""))%nat with (w - 0)%nat.
  rewrite Nat.sub_0_r. induction w as [|w IH].
  - change (Nat.iter 0 ?f ?x) with x. cbn [digitsN]. rewrite lastDigit_reads, Z.mod_small by lia. reflexivity.
  - exact IH.
Qed.

Lemma pad_reads w : forall n, 0 <= n < 10 ^ Z.of_nat (S w) -> digitsN (S w) 0 (pad (S w) n) = Some (n, EmptyString).
Proof.
  induction w as [|w IH]; intros n H; [apply pad_digit, H|].
  destruct (decide (n < 10)) as [Hn|Hn]; [apply pad_digit; lia|].
  rewrite pad_snoc by lia. rewrite (digitsN_snoc _ _ (n mod 10) 0 _ (n / 10)).
  - rewrite <- Z.div_mod by lia. reflexivity.
  - apply IH. rewrite Nat2Z.inj_succ, Z.pow_succ_r in H by lia.
    split; [apply Z.div_pos; lia | apply Z.div_lt_upper_bound; lia].
  - apply lastDigit_reads.
Qed.

Lemma digitsN_pad w n rest : (w = 2%nat /\ 0 <= n < 100) \/ (w = 3%nat /\ 0 <= n < 1000) \/ (w = 4%nat /\ 0 <= n < 10000) ->
  digitsN w 0 (pad w n +:+ rest) = Some (n, rest).
Proof. intros H. apply digitsN_app. destruct H as [[-> H]|[[-> H]|[-> H]]]; apply pad_reads; exact H. Qed.

Lemma expectChar_hd p c s : p c = true -> expectChar p (String c EmptyString +:+ s) = Some s.
Proof. intros H. change (String c EmptyString +:+ s) with (String c s). cbn [expectChar]. rewrite H. reflexivity. Qed.

Lemma fraction_of s v rest : digitsN 3 0 s = Some (v, EmptyString) -> fraction ("." +:+ s +:+ "Z" +:+ rest) = Some (v, "Z" +:+ rest).
Proof.
  intros H. destruct s as [|a [|b [|c s]]]; cbn [digitsN] in H; try (repeat (destruct (digitOf _); try discriminate); discriminate).
  destruct (digitOf a) as [x|] eqn:Ea; [|discriminate]. destruct (digitOf b) as [y|] eqn:Eb; [|discriminate].
  destruct (digitOf c) as [z|] eqn:Ec; [|discriminate]. injection H as <- ->.
  change (fraction _) with (match digitOf a with Some _ => Some (fractionDigits 100 0 (String a (String b (String c ("Z" +:+ rest))))) | None => None end).
  rewrite Ea. cbn [fractionDigits]. rewrite Ea, Eb, Ec. cbn [fractionDigits].
  change (fractionDigits _ _ ("Z" +:+ rest)) with (0 + 100 * x + 100 / 10 * y + 100 / 10 / 10 * z, "Z" +:+ rest).
  f_equal. f_equal. change (100 / 10) with 10. change (10 / 10) with 1. lia.
Qed.

Lemma fraction_pad n rest : 0 <= n < 1000 -> fraction ("." +:+ pad 3 n +:+ "Z" +:+ rest) = Some (n, "Z" +:+ rest).
Proof. intros H. apply fraction_of. rewrite <- (append_nil_ (pad 3 n)). apply digitsN_pad. auto. Qed.

Lemma parse_encoded (t : Z) (id : string) (Hy : 0 <= Ecma.getUTCFullYear t <= 9999)
  (Hid : ((String.length id =? 36)%nat && allChars isUuidChar id) = true) :
  parseCursor (encodeCursor t id) = Some (Some t, id).
Proof.
  set (ms := Ecma.time_within_day t). assert (Hms : 0 <= ms < DAY_MS) by apply time_within_day_range. unfold DAY_MS in Hms.
  pose proof (Ecma.getUTCMonth_range t) as Hm. pose proof (Ecma.getUTCDate_range t) as Hd.
  pose proof (Ecma.days_in_month_bounds (Ecma.getUTCFullYear t) (Ecma.getUTCMonth t) Hm) as Hb.
  assert (H1 : 0 <= ms / 3600000 < 24) by (split; [apply Z.div_pos; lia|apply Z.div_lt_upper_bound; lia]).
  assert (H2 : 0 <= ms / 60000 mod 60 < 60) by (apply Z.mod_pos_bound; lia).
  assert (H3 : 0 <= ms / 1000 mod 60 < 60) by (apply Z.mod_pos_bound; lia).
  assert (H4 : 0 <= ms mod 1000 < 1000) by (apply Z.mod_pos_bound; lia).
  assert (Hp : isoParts (encodeCursor t id) = Some (mkIsoParts (Ecma.getUTCFullYear t) (Ecma.getUTCMonth t + 1) (Ecma.getUTCDate t)
    (ms / 3600000) (ms / 60000 mod 60) (ms / 1000 mod 60) (ms mod 1000), ":" +:+ id)).
  { unfold encodeCursor, toISOString. fold ms. rewrite !append_assoc_. unfold isoParts.
    repeat (first [rewrite digitsN_pad by lia | rewrite expectChar_hd by reflexivity | rewrite fraction_pad by lia]; cbn [mbind option_bind]).
    reflexivity. }
  unfold parseCursor. rewrite Hp. cbn [mbind option_bind]. rewrite expectChar_hd by reflexivity. cbn [mbind option_bind].
  rewrite Hid. unfold isoTime. cbn [ip_year ip_month ip_day ip_hour ip_minute ip_second ip_ms].
  rewrite Z.add_simpl_r, Ecma.make_day_parts.
  assert (Ems : ms / 3600000 * 3600000 + ms / 60000 mod 60 * 60000 + ms / 1000 mod 60 * 1000 + ms mod 1000 = ms).
  { replace (ms / 3600000) with (ms / 1000 / 60 / 60) by (rewrite !Z.div_div by lia; f_equal; lia).
    replace (ms / 60000) with (ms / 1000 / 60) by (rewrite !Z.div_div by lia; f_equal; lia).
    pose proof (Z.div_mod ms 1000 ltac:(lia)). pose proof (Z.div_mod (ms / 1000) 60 ltac:(lia)).
    pose proof (Z.div_mod (ms / 1000 / 60) 60 ltac:(lia)). lia. }
  rewrite Ems. unfold DAY_MS. repeat match goal with |- context [?a <=? ?b] => destruct (Z.leb_spec a b); try lia end. cbn [andb].
  f_equal. f_equal. f_equal. unfold Ecma.day, ms, Ecma.time_within_day, DAY_MS. pose proof (Z.div_mod t (24 * 60 * 60 * 1000) ltac:(lia)). lia.
Qed.

(** The position in a list survives its text: the cursor made of a bot's creation time
    and id, for a year of four digits, is accepted and read back as the very same pair, so
    that a page starts where the page before it ended. *)
Theorem cursor_roundtrip (t : Z) (id : string) (Hy : 0 <= Ecma.getUTCFullYear t <= 9999)
  (Hid : ((String.length id =? 36)%nat && allChars isUuidChar id) = true) :
  parseCursor (encodeCursor t id) = Some (Some t, id).
Proof. exact (parse_encoded t id Hy Hid). Qed.

Lemma cursor_roundtrip_witness :
  let id := "0123456789abcdef0123456789abcdef0123" in
  let t := 1709251199987 in
  0 <= Ecma.getUTCFullYear t <= 9999 /\ encodeCursor t id = "2024-02-29T23:59:59.987Z:0123456789abcdef0123456789abcdef0123" /\
  parseCursor (encodeCursor t id) = Some (Some t, id).
Proof.
  intros id t. assert (H : 0 <= Ecma.getUTCFullYear t <= 9999) by (vm_compute; split; discriminate).
  split; [exact H|]. split; [vm_compute; reflexivity|]. apply (cursor_roundtrip t id H). reflexivity.
Defined.
