(* ===== verification/RouteSchemas.v ===== *)
(** What the orchestrator's routes accept: the schemas of [routes/instances.ts],
    [routes/pair.ts], [routes/admin.ts], [routes/owner-identity.ts],
    [routes/whatsapp-access.ts], [routes/backup-imports.ts], [routes/integrations.ts] and
    [routes/hosts.ts].

    A schema answers [None] for what it refuses: the texts of the issues are left out.
    A field the schema does not know is dropped, except under [strict].  The numbers of a
    query string are taken after their coercion. *)
From Stdlib Require Import Ascii.
From S2P Require Import Prelude JsString Json Fleet IntegrationTypes OwnerAccess Backups.
From stdpp Require Import list strings.
#[local] Open Scope Z_scope.

(** ** Combinators *)
Definition bothSchema {A B} (s : Schema A) (t : Schema B) : Schema (A * B) := fun j =>
  match s j, t j with Some a, Some b => Some (a, b) | _, _ => None end.
Definition mapSchema {A B} (f : A -> B) (s : Schema A) : Schema B := fun j => option_map f (s j).

Definition zIntBetween (lo hi : Z) : Schema Z := refine (fun n => (lo <=? n) && (n <=? hi)) zInt.
Definition zTrimmed (lo hi : Z) : Schema string := fun j =>
  match j with
  | JStr s => let t := trim s in
              if (lo <=? Z.of_nat (String.length t)) && (Z.of_nat (String.length t) <=? hi) then Some t else None
  | _ => None
  end.
Definition zBetween (lo hi : Z) : Schema string :=
  refine (fun s => (lo <=? Z.of_nat (String.length s)) && (Z.of_nat (String.length s) <=? hi)) zString.
Definition arrayBetween {A} (lo hi : nat) (s : Schema A) : Schema (list A) :=
  refine (fun l => (lo <=? length l)%nat && (length l <=? hi)%nat) (zArray s).
Definition zOneOf {A} (values : list (string * A)) : Schema A := fun j =>
  match j with JStr s => option_map snd (List.find (fun p => str_eqb p.1 s) values) | _ => None end.

(** [.strict()]: no other keys. *)
Definition strict {A} (keys : list string) (s : Schema A) : Schema A := fun j =>
  match j with
  | JObj fields => if forallb (fun p => List.existsb (str_eqb p.1) keys) fields then s j else None
  | _ => None
  end.

(** [key: s.nullable().optional()], told apart: absent, null, a value. *)
Definition presentField {A} (key : string) (s : Schema A) : Schema (option (option A)) := undefinedField key (nullable s).

(** ** Patterns *)
Definition isLower (c : ascii) : bool := let n := Z.of_nat (nat_of_ascii c) in (97 <=? n) && (n <=? 122).
Definition isAlnum (c : ascii) : bool := isDigit c || isLower (lowerAscii c).

(** /^\+[1-9]\d{6,14}$/ and /^\+?[1-9]\d{6,14}$/ *)
Definition isE164 (s : string) : bool :=
  match s with String c s' => Ascii.eqb c "+"%char && isE164Digits s' | EmptyString => false end.
Definition isE164Loose (s : string) : bool := isE164 s || isE164Digits s.

(** /^\+?[1-9]\d{9,14}$/ *)
Definition isPairPhone (s : string) : bool :=
  isE164Loose s &&
  (10 <=? Z.of_nat (String.length s) - match s with String c _ => if Ascii.eqb c "+"%char then 1 else 0 | _ => 0 end).

Definition isTelegramUsername (s : string) : bool :=
  allChars (fun c => isAlnum c || Ascii.eqb c "_"%char) s && (5 <=? String.length s)%nat && (String.length s <=? 32)%nat.

Definition isProviderId (s : string) : bool :=
  match s with
  | String c s' =>
      isAlnum c && (String.length s' <=? 63)%nat
      && allChars (fun c => isAlnum c || Ascii.eqb c "."%char || Ascii.eqb c "_"%char || Ascii.eqb c "-"%char) s'
  | EmptyString => false
  end.

Definition isHostId (s : string) : bool :=
  allChars (fun c => isDigit c || isLower c || Ascii.eqb c "-"%char) s && (1 <=? String.length s)%nat && (String.length s <=? 64)%nat.

(** ** instances.ts *)
Definition TelegramSchema : Schema ChannelConfig := fun j =>
  match undefinedField "botToken" zNonEmpty j, undefinedField "botUsername" (refine isTelegramUsername zString) j,
        undefinedField "botId" zPositive j,
        undefinedField "dmPolicy" (zOneOf [("pairing", Tg_pairing); ("open", Tg_open); ("allowlist", Tg_allowlist)]) j,
        undefinedField "allowFrom" (arrayBetween 0 10 (zBetween 1 64)) j with
  | Some t, Some u, Some b, Some p, Some a => Some (Ch_telegram (mkTelegram t u b p a))
  | _, _, _, _, _ => None
  end.
Definition DiscordSchema : Schema ChannelConfig := fun j =>
  match field "token" zNonEmpty j, undefinedField "guildId" zString j with
  | Some t, Some g => Some (Ch_discord t g)
  | _, _ => None
  end.
Definition SlackSchema : Schema ChannelConfig := fun j =>
  match field "botToken" zNonEmpty j, field "appToken" zNonEmpty j with
  | Some b, Some a => Some (Ch_slack b a)
  | _, _ => None
  end.
Definition WhatsappSchema : Schema ChannelConfig := fun j =>
  match undefinedField "ownerNumber" (refine isE164 zString) j, undefinedField "dmAccess" (zOneOf [("owner", Dm_owner); ("open", Dm_open)]) j with
  | Some o, Some d => Some (Ch_whatsapp (mkWhatsapp o d))
  | _, _ => None
  end.

Definition ChannelSchema : Schema ChannelConfig := fun j =>
  match field "type" (zOneOf [("telegram", TelegramSchema); ("discord", DiscordSchema); ("slack", SlackSchema); ("whatsapp", WhatsappSchema)]) j with
  | Some s => s j
  | None => None
  end.

Definition LLM_PROVIDERS : list (string * LlmProvider) :=
  [("anthropic", Llm_anthropic); ("openai", Llm_openai); ("openrouter", Llm_openrouter); ("gemini", Llm_gemini); ("litellm", Llm_litellm)].
Definition MODEL_INPUT_CAPABILITIES : list string := ["text"; "image"].
Definition PROVIDER_MEDIA_CAPABILITIES : list string := ["image"; "audio"; "video"; "pdf"].

Section Schemas.
Context (wire : Wire).

(** [ProviderSchema.partial()]. *)
Definition ProviderPatchSchema : Schema ProviderPatch := fun j =>
  match undefinedField "name" (zOneOf LLM_PROVIDERS) j, undefinedField "id" (refine isProviderId zString) j,
        undefinedField "apiKey" zNonEmpty j, undefinedField "model" zNonEmpty j, undefinedField "baseUrl" (zUrl wire) j,
        undefinedField "input" (arrayBetween 0 8 (zEnum MODEL_INPUT_CAPABILITIES)) j,
        undefinedField "media" (arrayBetween 0 8 (zEnum PROVIDER_MEDIA_CAPABILITIES)) j,
        undefinedField "fallbacks" (arrayBetween 0 5 zString) j with
  | Some n, Some i, Some k, Some m, Some b, Some inp, Some med, Some f => Some (mkProviderPatch n i k m b inp med f)
  | _, _, _, _, _, _, _, _ => None
  end.

(** The same with its name, key and model there. *)
Definition ProviderSchema : Schema ProviderConfig := fun j =>
  match ProviderPatchSchema j with
  | Some (mkProviderPatch (Some n) i (Some k) (Some m) b inp med f) => Some (mkProviderConfig n i k m b inp med f)
  | _ => None
  end.

Definition ResourcesSchema : Schema ResourcePatch := fun j =>
  match undefinedField "memoryMb" (zIntBetween 256 4096) j, undefinedField "cpuShares" (zIntBetween 128 4096) j with
  | Some m, Some c => Some (mkResourcePatch m c)
  | _, _ => None
  end.

Definition typeOfChannel (ch : ChannelConfig) : string :=
  match ch with
  | Ch_telegram _ => "telegram" | Ch_discord _ _ => "discord" | Ch_slack _ _ => "slack"
  | Ch_whatsapp _ => "whatsapp" | Ch_whatsapp_cloud _ => "whatsapp_cloud"
  end.

Definition CreateInstanceBody : Schema CreateInstanceInput := fun j =>
  match field "displayName" (zTrimmed 1 255) j, undefinedField "provider" ProviderSchema j,
        field "channels" (refine (fun l => (length (unique (List.map typeOfChannel l)) =? length l)%nat) (arrayBetween 1 10 ChannelSchema)) j,
        undefinedField "resources" ResourcesSchema j with
  | Some n, Some p, Some c, Some r => Some (mkCreateInput n p c r None)
  | _, _, _, _ => None
  end.

Definition PatchConfigBody : Schema ConfigPatch := fun j =>
  match undefinedField "displayName" (zTrimmed 1 255) j, undefinedField "provider" ProviderPatchSchema j,
        undefinedField "channels" (arrayBetween 1 10 ChannelSchema) j, undefinedField "resources" ResourcesSchema j with
  | Some None, Some None, Some None, Some None => None
  | Some n, Some p, Some c, Some r => Some (mkConfigPatch n p c r None)
  | _, _, _, _ => None
  end.

Definition LiteLlmBudgetBody : Schema Z := field "budgetCents" (zIntBetween 0 1000000).

(** ** The other routes *)
Definition PhoneBody : Schema string := field "phone" (fun j => match j with JStr s => if isPairPhone (trim s) then Some (trim s) else None | _ => None end).
Definition StartPairBody : Schema (option string) := undefinedField "ownerNumber" (refine isE164 zString).

Definition MoveBody : Schema (string * option bool) :=
  strict ["targetHostId"; "dryRun"]
    (bothSchema (field "targetHostId" (refine isHostId zString)) (undefinedField "dryRun" (fun j => match j with JBool b => Some b | _ => None end))).

Definition E164 : Schema string := fun j =>
  match j with JStr s => if isE164Loose (trim s) then Some (trim s) else None | _ => None end.
Definition OwnerPatchBody : Schema OwnerIdentityUpdate :=
  strict ["whatsappNumber"; "businessNumber"] (fun j =>
    match presentField "whatsappNumber" E164 j, presentField "businessNumber" E164 j with
    | Some None, Some None => None
    | Some w, Some b => Some (mkOwnerUpdate w b)
    | _, _ => None
    end).

Definition AccessPatchBody : Schema WhatsappDmAccess :=
  strict ["access"] (field "access" (zOneOf [("owner", Dm_owner); ("open", Dm_open)])).

(** display name, length, type *)
Definition CreateUploadBody : Schema (string * Z * option string) :=
  bothSchema (bothSchema (field "displayName" (zBetween 1 255)) (field "contentLength" zPositive))
    (undefinedField "contentType" (zBetween 1 128)).
Definition RestoreBody : Schema string := field "restoreToken" zNonEmpty.

(** [AccountLabel]: the control characters among the ASCII ones. *)
Definition INTEGRATION_LABEL_MAX_LENGTH : Z := 40.
Definition isControl (c : ascii) : bool := let n := Z.of_nat (nat_of_ascii c) in (n <? 32) || (n =? 127).
Definition AccountLabel : Schema string := fun j =>
  match j with
  | JStr s =>
      let t := normalizeLabel s in
      if (1 <=? Z.of_nat (String.length t)) && (Z.of_nat (String.length t) <=? INTEGRATION_LABEL_MAX_LENGTH)
         && allChars (fun c => negb (isControl c)) t
      then Some t else None
  | _ => None
  end.
(** return url, label *)
Definition ConnectBody : Schema (string * option string) :=
  strict ["returnUrl"; "label"] (bothSchema (field "returnUrl" (zUrl wire)) (undefinedField "label" AccountLabel)).
Definition RenameBody : Schema string := strict ["label"] (field "label" AccountLabel).

(** address, memory *)
Definition RegisterBody (isPrivateIpv4 : string -> bool) : Schema (string * option Z) :=
  strict ["address"; "memoryMb"]
    (bothSchema (field "address" (refine isPrivateIpv4 zString)) (undefinedField "memoryMb" (zIntBetween 1 4000000))).
End Schemas.
