(* ===== verification/LlmKeys.v ===== *)
(** A bot's key at the LLM gateway: [services/litellm-admin-client.ts] and
    [services/litellm-key-manager.ts] of the orchestrator.

    [LiteLlmWire] is the gateway's HTTP interface.  Amounts are rationals, where
    JavaScript rounds to a double. *)
From Stdlib Require Import Ascii QArith Qround Lqa.
From S2P Require Import Prelude JsString Json Pricing Fleet Hosts FleetStore FleetWorld InstanceManager RouteSchemas.
From stdpp Require Import list strings.
#[local] Open Scope Z_scope.

(** ** litellm-admin-client.ts *)
Record LiteLlmKeyRequest := mkKeyRequest {
  kr_instanceId : string;
  kr_userId : string;
  kr_keyAlias : string;
  kr_models : list string;
  kr_maxBudgetCents : Z;
  kr_budgetDuration : string;
}.
Record LiteLlmKey := mkLiteLlmKey { lk_key : string; lk_keyAlias : string; lk_keyHash : option string }.
Record LiteLlmKeyUsage := mkKeyUsage {
  ku_spendCents : Z;
  ku_maxBudgetCents : option Z;
  ku_budgetDuration : option string;
  ku_budgetResetAt : option string;
  ku_keyAlias : option string;
  ku_models : list string;
}.

(** A response: its text is empty, JSON, or something else. *)
Inductive LlmBody := Lb_empty | Lb_json (j : Json) | Lb_other.
Inductive LlmReply := Lr_lost | Lr_answer (status : Z) (body : LlmBody).

(** The key of an admin call is in its body, or in the address of a read. *)
Inductive AdminCall := Ac_post (path : string) (body : Json) | Ac_get (path key : string).

Class LiteLlmWire (X : Type) := {
  (** with the base URL and the master key *)
  llm_fetch : string -> string -> AdminCall -> X -> LlmReply * X;
}.

Definition GenerateKeyResponse : Schema (string * option string * option string * option string) := fun j =>
  match field "key" zNonEmpty j, undefinedField "key_alias" zString j, undefinedField "key_name" zString j, undefinedField "token" zString j with
  | Some k, Some a, Some n, Some t => Some (k, a, n, t)
  | _, _, _, _ => None
  end.

Definition zNumber : Schema Q := fun j => match j with JNum q => Some q | _ => None end.

Definition dollarsToCents (value : Q) : Z := Z.max 0 (math_round (value * 100)%Q).
Definition centsToDollars (cents : Z) : Q := (inject_Z cents / 100)%Q.

Definition KeyInfo : Schema LiteLlmKeyUsage := fun j =>
  match optionalField "spend" zNumber j, optionalField "max_budget" zNumber j, optionalField "budget_duration" zString j,
        optionalField "budget_reset_at" zString j, optionalField "key_alias" zString j, optionalField "models" (zArray zString) j with
  | Some s, Some b, Some d, Some r, Some a, Some m =>
      Some (mkKeyUsage (dollarsToCents (default 0%Q s)) (option_map dollarsToCents b) d r a (default [] m))
  | _, _, _, _, _, _ => None
  end.
Definition KeyInfoResponse : Schema LiteLlmKeyUsage := field "info" KeyInfo.

Definition generateBody (input : LiteLlmKeyRequest) : Json :=
  JObj ([("key_alias", JStr (kr_keyAlias input)); ("models", JArr (List.map JStr (kr_models input)));
         ("max_budget", JNum (centsToDollars (kr_maxBudgetCents input)))] ++
        (match kr_budgetDuration input with EmptyString => [] | d => [("budget_duration", JStr d)] end) ++
        [("user_id", JStr (kr_userId input));
         ("metadata", JObj [("service", JStr "agentforall"); ("instance_id", JStr (kr_instanceId input)); ("user_id", JStr (kr_userId input))])]).

Definition updateBody (key : string) (maxBudgetCents : Z) : Json :=
  JObj [("key", JStr key); ("max_budget", JNum (centsToDollars maxBudgetCents))].

(** ** litellm-key-manager.ts *)
Record LlmConfig := mkLlmConfig {
  lc_providerName : LlmProvider;
  lc_providerId : option string;
  lc_providerModel : string;
  lc_providerBaseUrl : option string;
  lc_providerApiKey : option string;
  lc_providerInput : option (list string);
  lc_providerMedia : option (list string);
  lc_budgetCents : Z;
  lc_budgetDuration : string;
  lc_masterKey : option string;
}.

#[export] Instance LlmProvider_eq_dec : EqDecision LlmProvider.
Proof. solve_decision. Defined.
Definition isLiteLlm (p : LlmProvider) : bool := bool_decide (p = Llm_litellm).

(** [fromConfig]: the base URL and the master key of the admin client. *)
Definition adminClient (c : LlmConfig) : option (string * string) :=
  match isLiteLlm (lc_providerName c), truthy (lc_providerBaseUrl c), truthy (lc_masterKey c) with
  | true, Some u, Some k => Some (u, k)
  | _, _, _ => None
  end.

(** [.replace(/[^a-z0-9_-]+/g, "-")]; [inRun] is inside a run that was replaced. *)
Definition isAliasChar (c : ascii) : bool := isDigit c || isLower c || Ascii.eqb c "_"%char || Ascii.eqb c "-"%char.
Fixpoint dashRuns (inRun : bool) (s : string) : string :=
  match s with
  | EmptyString => EmptyString
  | String c s' =>
      if isAliasChar c then String c (dashRuns false s')
      else if inRun then dashRuns true s' else String "-"%char (dashRuns true s')
  end.
Fixpoint dropDashes (s : string) : string :=
  match s with String c s' => if Ascii.eqb c "-"%char then dropDashes s' else s | EmptyString => EmptyString end.
Fixpoint dropEndDashes (s : string) : string :=
  match s with
  | EmptyString => EmptyString
  | String c s' =>
      match dropEndDashes s' with
      | EmptyString => if Ascii.eqb c "-"%char then EmptyString else String c EmptyString
      | r => String c r
      end
  end.

Definition keyAlias (instanceId displayName : string) : string :=
  let cleaned := String.substring 0 40 (dropEndDashes (dropDashes (dashRuns false (toLowerCase displayName)))) in
  "agentforall-" +:+ match cleaned with EmptyString => "bot" | c => c end +:+ "-" +:+ String.substring 0 8 instanceId.

(** [keyAlias] is empty and [keyHash] null without a gateway. *)
Record LiteLlmProvisionResult := mkProvisionResult {
  pv_provider : ProviderConfig; pv_keyAlias : string; pv_keyHash : option string; pv_budgetCents : Z; pv_budgetDuration : string }.

Inductive BotUsage :=
| Bu_unsupported
| Bu_supported (usage : LiteLlmKeyUsage) (updatedAt : Z).

Section LlmKeys.
Context {X : Type} `{!LiteLlmWire X}.
Context (c : LlmConfig).
Implicit Types inst : Instance_.

Definition adminError (status : string) : OrchError := PlainError ("LiteLLM admin request failed: " +:+ status).

(** [requestJson]. *)
Definition requestJson (client : string * string) (call : AdminCall) : Fleet X Json := atomic (fun d =>
  let '(r, x) := llm_fetch client.1 client.2 call (fd_x d) in
  (match r with
   | Lr_lost => inl (PlainError "fetch failed")
   | Lr_answer status body =>
       if (200 <=? status) && (status <=? 299) then
         match body with
         | Lb_empty => inr (JObj [])
         | Lb_json j => inr j
         | Lb_other => inl (PlainError "Unexpected token in JSON")
         end
       else inl (adminError (Domain.str_of_Z status))
   end, setX x d)).

Definition unparsed : OrchError := PlainError "ZodError".

Definition generateKey (client : string * string) (input : LiteLlmKeyRequest) : Fleet X LiteLlmKey :=
  let! j := requestJson client (Ac_post "/key/generate" (generateBody input)) in
  match GenerateKeyResponse j with
  | Some (key, alias, name, token) =>
      ret (mkLiteLlmKey key (default (kr_keyAlias input) alias) (match token with Some t => Some t | None => name end))
  | None => throw unparsed
  end.

Definition updateKeyBudget (client : string * string) (key : string) (maxBudgetCents : Z) : Fleet X unit :=
  let! _ := requestJson client (Ac_post "/key/update" (updateBody key maxBudgetCents)) in ret tt.
Definition deleteKey (client : string * string) (key : string) : Fleet X unit :=
  let! _ := requestJson client (Ac_post "/key/delete" (JObj [("keys", JArr [JStr key])])) in ret tt.
Definition getKeyUsage (client : string * string) (key : string) : Fleet X LiteLlmKeyUsage :=
  let! j := requestJson client (Ac_get "/key/info" key) in
  match KeyInfoResponse j with Some u => ret u | None => throw unparsed end.

Definition staticDefaultProvider : OrchError + ProviderConfig :=
  match truthy (lc_providerApiKey c) with
  | None => inl (PlainError "no provider supplied and DEFAULT_PROVIDER_API_KEY is not configured")
  | Some apiKey =>
      inr (mkProviderConfig (lc_providerName c) (truthy (lc_providerId c)) apiKey (lc_providerModel c)
             (truthy (lc_providerBaseUrl c)) (lc_providerInput c) (lc_providerMedia c) None)
  end.

Definition provisionProvider (instanceId userId displayName : string) : Fleet X LiteLlmProvisionResult :=
  if negb (isLiteLlm (lc_providerName c)) then
    let! provider := lift staticDefaultProvider in ret (mkProvisionResult provider "" None 0 "")
  else
    match truthy (lc_providerBaseUrl c), adminClient c with
    | None, _ => throw (PlainError "LiteLLM default provider requires DEFAULT_PROVIDER_BASE_URL")
    | _, None => throw (PlainError "LiteLLM per-bot keys require LITELLM_MASTER_KEY")
    | Some baseUrl, Some client =>
        let! generated := generateKey client (mkKeyRequest instanceId userId (keyAlias instanceId displayName)
          [lc_providerModel c] (lc_budgetCents c) (lc_budgetDuration c)) in
        ret (mkProvisionResult
          (mkProviderConfig Llm_litellm (Some (default "litellm" (lc_providerId c))) (lk_key generated) (lc_providerModel c)
             (Some baseUrl) (lc_providerInput c) (lc_providerMedia c) None)
          (lk_keyAlias generated) (lk_keyHash generated) (lc_budgetCents c) (lc_budgetDuration c))
    end.

Definition usesLiteLlm inst : bool := isLiteLlm (pr_name (ic_provider (in_config inst))).
Definition keyOfBot inst : string := pr_apiKey (ic_provider (in_config inst)).

Definition updateBudget inst (budgetCents : Z) : Fleet X unit :=
  if negb (usesLiteLlm inst) then throw (PlainError "instance is not using LiteLLM")
  else match adminClient c with
       | None => throw (PlainError "LiteLLM budget updates require LITELLM_MASTER_KEY")
       | Some client => updateKeyBudget client (keyOfBot inst) budgetCents
       end.

Definition getUsage inst : Fleet X LiteLlmKeyUsage :=
  if negb (usesLiteLlm inst) then throw (PlainError "instance is not using LiteLLM")
  else match adminClient c with
       | None => throw (PlainError "LiteLLM usage requires LITELLM_MASTER_KEY")
       | Some client => getKeyUsage client (keyOfBot inst)
       end.

Definition getBotUsage inst : Fleet X BotUsage :=
  if negb (usesLiteLlm inst) then ret Bu_unsupported
  else
    let! u := getUsage inst in
    let! t := now in
    ret (Bu_supported (mkKeyUsage (ku_spendCents u) (ku_maxBudgetCents u) (ku_budgetDuration u) (ku_budgetResetAt u)
      (match ku_keyAlias u with Some a => Some a | None => ll_keyAlias (fi_litellm inst) end) (ku_models u)) t).

Definition revoke inst : Fleet X unit :=
  match usesLiteLlm inst, adminClient c with
  | true, Some client => deleteKey client (keyOfBot inst)
  | _, _ => ret tt
  end.

Definition revokeKey (key : string) : Fleet X unit :=
  match adminClient c with Some client => deleteKey client key | None => ret tt end.
End LlmKeys.
