(* ===== verification/InstanceRoutes.v ===== *)
(** The requests about bots: [routes/instances.ts], [routes/telegram.ts],
    [routes/backup-imports.ts], [routes/integrations.ts], [routes/owner-identity.ts] and
    [routes/whatsapp-access.ts].

    A request is its path's ids, its parsed query and its JSON body; the authenticated
    user comes with it ([Access]).  A handler throws what [Access.errorHandler] answers.
    [start], [stop], [restart] and the other operations run under the lock of the bot. *)
From Stdlib Require Import Ascii.
From S2P Require Import Prelude JsString Json Fleet Access Exports Hosts FleetStore IntegrationTypes.
From S2P Require Import FleetWorld InstanceManager Backups OwnerAccess Integrations Linker Cursor RouteSchemas LlmKeys.
From stdpp Require Import list strings gmap.
#[local] Open Scope Z_scope.

(** ** What a bot shows of itself *)
Definition MASK : string := "***".

(** [maskChannel]. *)
Definition maskChannel (ch : ChannelConfig) : ChannelConfig :=
  match ch with
  | Ch_telegram c =>
      match truthy (tg_botToken c) with
      | Some _ => Ch_telegram (mkTelegram (Some MASK) (tg_botUsername c) (tg_botId c) (tg_dmPolicy c) (tg_allowFrom c))
      | None => ch
      end
  | Ch_discord _ guildId => Ch_discord MASK guildId
  | Ch_slack _ _ => Ch_slack MASK MASK
  | Ch_whatsapp _ => ch
  | Ch_whatsapp_cloud c =>
      Ch_whatsapp_cloud (mkWhatsappCloud (wc_wabaId c) (wc_phoneNumberId c) (wc_businessId c) (wc_displayPhoneNumber c)
        (wc_verifiedName c) MASK (Some MASK) (wc_coexistence c) MASK (wc_ownerNumber c))
  end.

(** An instance without its gateway token, the object of its move and its relay token. *)
Record SafeConfig := mkSafeConfig {
  sc_displayName : string; sc_provider : ProviderConfig; sc_channels : list ChannelConfig; sc_resources : ResourceLimits }.
Record SafeFleet := mkSafeFleet {
  sf_id : string; sf_userId : string; sf_hostId : string; sf_runtimeKind : AgentRuntimeKind; sf_displayName : string;
  sf_status : InstanceStatus; sf_containerId : option string; sf_containerName : string; sf_gatewayPort : Z;
  sf_healthFailures : Z; sf_errorMessage : option string; sf_pairingStatus : PairingStatus; sf_pairingStartedAt : option Z;
  sf_whatsappAccountId : option string; sf_hasWhatsappCreds : bool; sf_lastSeenAt : option Z;
  sf_backupImport : InstanceBackupImport; sf_litellm : InstanceLiteLlm; sf_movedFromHostId : option string;
  sf_movedAt : option Z; sf_moveImportedAt : option Z; sf_createdAt : Z; sf_updatedAt : Z; sf_stoppedAt : option Z;
  sf_destroyedAt : option Z }.
Record SafeInstance := mkSafe { sn_fleet : SafeFleet; sn_config : SafeConfig }.

Definition maskProvider (p : ProviderConfig) : ProviderConfig :=
  mkProviderConfig (pr_name p) (pr_id p) MASK (pr_model p) (pr_baseUrl p) (pr_input p) (pr_media p) (pr_fallbacks p).

Definition safeFleet (i : FleetInstance) : SafeFleet :=
  mkSafeFleet (fi_id i) (fi_userId i) (fi_hostId i) (fi_runtimeKind i) (fi_displayName i) (fi_status i) (fi_containerId i)
    (fi_containerName i) (fi_gatewayPort i) (fi_healthFailures i) (fi_errorMessage i) (fi_pairingStatus i) (fi_pairingStartedAt i)
    (fi_whatsappAccountId i) (fi_hasWhatsappCreds i) (fi_lastSeenAt i) (fi_backupImport i) (fi_litellm i) (fi_movedFromHostId i)
    (fi_movedAt i) (fi_moveImportedAt i) (fi_createdAt i) (fi_updatedAt i) (fi_stoppedAt i) (fi_destroyedAt i).

Definition sanitizeInstance (inst : Instance_) : SafeInstance :=
  let config := in_config inst in
  mkSafe (safeFleet inst)
    (mkSafeConfig (ic_displayName config) (maskProvider (ic_provider config)) (List.map maskChannel (ic_channels config)) (ic_resources config)).

(** ** The requests *)
Record ListQuery := mkListQuery { lq_cursor : option string; lq_limit : option Z }.

Inductive BotRequest :=
| Br_create (body : Json)
| Br_list (query : ListQuery)
| Br_get (id : string)
| Br_startExport (id : string)
| Br_export (id jobId : string)
| Br_delete (id : string)
| Br_start (id : string)
| Br_restart (id : string)
| Br_recreate (id : string)
| Br_stop (id : string)
| Br_config (id : string) (body : Json)
| Br_budget (id : string) (body : Json)
| Br_usage (id : string)
| Br_telegramLink (id : string)
| Br_telegramStatus (id : string)
| Br_telegramDisconnect (id : string)
| Br_upload (body : Json)
| Br_restore (body : Json)
| Br_owner (id : string)
| Br_ownerPatch (id : string) (body : Json)
| Br_access (id : string)
| Br_accessPatch (id : string) (body : Json)
| Br_catalog (query : CatalogQuery)
| Br_integrations (id : string)
| Br_connect (id app : string) (body : Json)
| Br_rename (id ref : string) (body : Json)
| Br_disconnect (id ref : string).

Inductive BotReply :=
| Bp_empty
| Bp_instance (status : Z) (i : SafeInstance)
| Bp_described (i : SafeInstance) (stage : option ProvisioningStage) (history : list (ProvisioningStage * Z))
| Bp_page (l : list SafeInstance) (cursor : option string)
| Bp_job (status : Z) (job : BackupExportJob)
| Bp_usage (u : BotUsage)
| Bp_link (l : TelegramLink)
| Bp_linkStatus (s : TelegramLinkStatus)
| Bp_upload (s : BackupUploadSession)
| Bp_owner (v : OwnerIdentityView)
| Bp_access (v : WhatsappAccessView)
| Bp_catalog (p : CatalogPage)
| Bp_connections (l : list IntegrationConnection)
| Bp_connectLink (l : ConnectLink).

Definition isSlug (s : string) : bool :=
  allChars (fun c => isDigit c || isLower c || Ascii.eqb c "_"%char || Ascii.eqb c "-"%char) s
  && (1 <=? String.length s)%nat && (String.length s <=? 64)%nat.
Definition isRef (s : string) : bool :=
  allChars (fun c => isAlnum c || Ascii.eqb c "_"%char || Ascii.eqb c "-"%char) s
  && (1 <=? String.length s)%nat && (String.length s <=? 128)%nat.

Definition CATALOG_MAX_LIMIT : nat := 100.
Definition CATALOG_MAX_OFFSET : nat := 10000.
Definition CATALOG_MAX_SLUGS : nat := 50.
Definition catalogQueryOk (q : CatalogQuery) : bool :=
  match cq_q q with Some s => (String.length s <=? 64)%nat | None => true end &&
  match cq_slugs q with Some l => forallb isSlug l && (length l <=? CATALOG_MAX_SLUGS)%nat | None => true end &&
  (1 <=? cq_limit q)%nat && (cq_limit q <=? CATALOG_MAX_LIMIT)%nat && (cq_offset q <=? CATALOG_MAX_OFFSET)%nat.

Definition zodError : Thrown := Th_zod [].

Section Routes.
Context {X : Type} `{!ContainerRuntime X, !AgentAdapter X, !Collaborators X, !BackupStorage X, !OwnerRuntime X,
  !ManagedBotApi X, !IntegrationProvider X, !LiteLlmWire X}.
Context (cfg : AppConfig) (llm : LlmConfig) (ic : IntegrationConfig) (enc : Encoding) (serviceTokens : list string) (ttlSeconds : Z).
(** Whether the exports, the linking of Telegram bots and the apps are configured. *)
Context (wire : Wire) (exportsConfigured linkerConfigured integrationsConfigured : bool).

Abbreviation Route A := (M (FleetDb X) unit Thrown A).
Definition orch {A} (m : Fleet X A) : Route A := fun w =>
  match m w with (inl e, w') => (inl (Th_error e), w') | (inr a, w') => (inr a, w') end.
Definition uuidParam (id : string) : Route unit := if isUuid wire id then ret tt else throw zodError.
Definition parse {A} (s : Schema A) (body : Json) : Route A := match s body with Some a => ret a | None => throw zodError end.
Definition required (b : bool) (e : OrchError) : Route unit := if b then ret tt else throw (Th_error e).
Definition exportsMissing : OrchError := PlainError "backup export storage is not configured".
Definition onExports {A} (f : ExportState -> A * ExportState) : Fleet X A :=
  onMem (fun m => let '(a, s) := f (mm_exports m) in (a, setExports s m)).

(** ** instances.ts *)
Definition listQuery (q : ListQuery) : Thrown + (option (Z * string) * nat) :=
  let limit := default 50 (lq_limit q) in
  if (1 <=? limit) && (limit <=? 100) then
    match truthy (lq_cursor q) with
    | None => match lq_cursor q with None => inr (None, Z.to_nat limit) | Some _ => inl zodError end
    | Some raw =>
        match parseCursor raw with
        | None => inl zodError
        (** An invalid date: the query that holds it throws. *)
        | Some (None, _) => inl (Th_error (PlainError "Invalid time value"))
        | Some (Some t, id) => inr (Some (t, id), Z.to_nat limit)
        end
    end
  else inl zodError.

(** The rows of a page, and where the next one begins. *)
Definition nextCursor (limit : nat) (l : list Instance_) : option string :=
  match last l with
  | Some i => if (length l =? limit)%nat then Some (encodeCursor (fi_createdAt i) (fi_id i)) else None
  | None => None
  end.

Definition listRoute (userId : string) (q : ListQuery) : Route BotReply :=
  let! p := lift (listQuery q) in
  let! l := orch (readRows (findByUserId (ac_managedHostIds cfg) userId p.1 p.2)) in
  ret (Bp_page (List.map sanitizeInstance l) (nextCursor p.2 l)).

(** The checks of [startDownloadJob] run in the background with the job. *)
Definition startExport (id userId : string) : Route BotReply :=
  required exportsConfigured exportsMissing;;;
  orch (assertAgentBackupReadable cfg id userId);;;
  let! uuid := orch (ext' randomUUID) in
  let! t := now in
  let! job := orch (onExports (startDownloadJob t id userId uuid)) in
  ret (Bp_job 202 job).

Definition exportRoute (id userId jobId : string) : Route BotReply :=
  (if isUuid wire jobId then ret tt else throw zodError);;;
  required exportsConfigured exportsMissing;;;
  let! t := now in
  let! job := orch (onExports (getDownloadJob t id userId jobId)) in
  match job with
  | Some j => ret (Bp_job 200 j)
  | None => throw (Th_error (NotFoundError "export job" jobId))
  end.

Definition botUsage (id userId : string) : Fleet X BotUsage :=
  let! inst := requireOwnedInstance cfg id userId in
  catch (getBotUsage llm inst) (fun _ => throw (UpstreamUnavailableError "LiteLLM" None)).

Definition ok204 {A} (m : Fleet X A) : Route BotReply := let! _ := orch m in ret Bp_empty.

(** The handler of a request whose ids are uuids. *)
Definition botHandler (userId : string) (r : BotRequest) : Route BotReply :=
  match r with
  | Br_create body => let! input := parse (CreateInstanceBody wire) body in
                      let! i := orch (create cfg userId input) in ret (Bp_instance 201 (sanitizeInstance i))
  | Br_list q => listRoute userId q
  | Br_get id => let! d := orch (describe cfg id userId) in ret (Bp_described (sanitizeInstance d.1.1) d.1.2 d.2)
  | Br_startExport id => startExport id userId
  | Br_export id jobId => exportRoute id userId jobId
  | Br_delete id => ok204 (destroyLocked cfg id userId)
  | Br_start id => ok204 (startLocked cfg id userId)
  | Br_restart id => ok204 (restart cfg id userId)
  | Br_recreate id => ok204 (InstanceManager.recreate cfg id userId)
  | Br_stop id => ok204 (stopLocked cfg id userId)
  | Br_config id body => let! patch := parse (PatchConfigBody wire) body in
                         let! i := orch (updateConfig cfg id userId patch) in ret (Bp_instance 200 (sanitizeInstance i))
  | Br_budget id body => let! cents := parse LiteLlmBudgetBody body in
                         let! i := orch (updateLiteLlmBudget cfg id userId cents) in ret (Bp_instance 200 (sanitizeInstance i))
  | Br_usage id => let! u := orch (botUsage id userId) in ret (Bp_usage u)
  (** telegram.ts *)
  | Br_telegramLink id => required linkerConfigured (FeatureUnavailableError "telegram linking");;;
                          let! l := orch (createLink cfg id userId) in ret (Bp_link l)
  | Br_telegramStatus id => required linkerConfigured (FeatureUnavailableError "telegram linking");;;
                            let! s := orch (getStatus cfg id userId) in ret (Bp_linkStatus s)
  | Br_telegramDisconnect id => (when linkerConfigured do orch (cancelLink id));;; ok204 (disconnectTelegram cfg id userId)
  (** backup-imports.ts *)
  | Br_upload body => let! b := parse CreateUploadBody body in
                      let! s := orch (createUploadSession enc serviceTokens ttlSeconds (mkUploadRequest userId b.1.1 b.1.2 b.2)) in
                      ret (Bp_upload s)
  | Br_restore body => let! token := parse RestoreBody body in
                       let! i := orch (restoreUploadedBackup cfg enc serviceTokens userId token) in
                       ret (Bp_instance 201 (sanitizeInstance i))
  (** owner-identity.ts and whatsapp-access.ts *)
  | Br_owner id => let! v := orch (getOwner cfg id userId) in ret (Bp_owner v)
  | Br_ownerPatch id body => let! patch := parse OwnerPatchBody body in
                             let! v := orch (updateOwner cfg id userId patch) in ret (Bp_owner v)
  | Br_access id => let! v := orch (getAccess cfg id userId) in ret (Bp_access v)
  | Br_accessPatch id body => let! access := parse AccessPatchBody body in
                              let! v := orch (updateAccess cfg id userId access) in ret (Bp_access v)
  (** integrations.ts *)
  | Br_catalog q => (if catalogQueryOk q then ret tt else throw zodError);;;
                    required integrationsConfigured (FeatureUnavailableError "integrations");;;
                    let! p := orch (catalog q) in ret (Bp_catalog p)
  | Br_integrations id => required integrationsConfigured (FeatureUnavailableError "integrations");;;
                          let! l := orch (listConnections cfg id userId) in ret (Bp_connections l)
  | Br_connect id app body => (if isSlug app then ret tt else throw zodError);;;
                              let! b := parse (ConnectBody wire) body in
                              required integrationsConfigured (FeatureUnavailableError "integrations");;;
                              let! l := orch (connectApp cfg ic id userId (mkConnectRequest app b.1 b.2)) in ret (Bp_connectLink l)
  | Br_rename id ref body => (if isRef ref then ret tt else throw zodError);;;
                             let! label := parse RenameBody body in
                             required integrationsConfigured (FeatureUnavailableError "integrations");;;
                             ok204 (renameApp cfg id userId ref label)
  | Br_disconnect id ref => (if isRef ref then ret tt else throw zodError);;;
                            required integrationsConfigured (FeatureUnavailableError "integrations");;;
                            ok204 (disconnectApp cfg id userId ref)
  end.

Definition botId (r : BotRequest) : option string :=
  match r with
  | Br_create _ | Br_list _ | Br_upload _ | Br_restore _ | Br_catalog _ => None
  | Br_get id | Br_startExport id | Br_export id _ | Br_delete id | Br_start id | Br_restart id | Br_recreate id | Br_stop id
  | Br_config id _ | Br_budget id _ | Br_usage id | Br_telegramLink id | Br_telegramStatus id | Br_telegramDisconnect id
  | Br_owner id | Br_ownerPatch id _ | Br_access id | Br_accessPatch id _ | Br_integrations id | Br_connect id _ _
  | Br_rename id _ _ | Br_disconnect id _ => Some id
  end.

Definition botRoute (userId : string) (r : BotRequest) : Route BotReply :=
  match botId r with Some id => uuidParam id | None => ret tt end;;;
  botHandler userId r.
End Routes.
