(* ===== verification/AdminRoutes.v ===== *)
(** The requests of the platform itself: [routes/admin.ts] with
    [services/admin-overview.ts], [routes/health.ts] with [services/health-service.ts], and a
    worker's registration, [routes/hosts.ts] with [services/host-registrar.ts],
    [services/google-identity.ts] and [storage/host-repository.ts].

    The usage of the bots is asked for one bot at a time, where the code asks for four at
    once.  The verification of an identity token is the library's: its answer is an
    argument. *)
From Stdlib Require Import Ascii QArith Lqa.
From S2P Require Import Prelude JsString Json Fleet Access Hosts FleetStore FleetWorld InstanceManager Backups.
From S2P Require Import OwnerAccess Integrations Linker RouteSchemas LlmKeys InstanceRoutes.
From stdpp Require Import list strings.
#[local] Open Scope Z_scope.

(** ** admin.ts *)
Inductive AdminRequest :=
| Ar_list
| Ar_move (id : string) (body : Json)
| Ar_recreate (id : string)
| Ar_verify (id : string).

Inductive AdminReply :=
| Ap_list (l : list (SafeInstance * option BotUsage))
| Ap_empty
| Ap_verification (v : InstanceVerification).

Section Admin.
Context {X : Type} `{!ContainerRuntime X, !AgentAdapter X, !Collaborators X, !LiteLlmWire X}.
Context (cfg : AppConfig) (llm : LlmConfig) (wire : Wire) (isOperating : string -> bool).
Abbreviation Route A := (M (FleetDb X) unit Thrown A).

(** [usageOf]: a failed lookup is [None]. *)
Definition usageOf (inst : Instance_) : Fleet X (option BotUsage) :=
  catch (let! u := getBotUsage llm inst in ret (Some u)) (fun _ => ret None).

Definition listInstances : Fleet X (list (Instance_ * option BotUsage)) :=
  let! all := readRows (findAllActive (ac_managedHostIds cfg)) in
  traverse (fun inst => let! u := usageOf inst in ret (inst, u)) all.

Definition adminRoute (r : AdminRequest) : Route AdminReply :=
  match r with
  | Ar_list => let! rows := orch listInstances in ret (Ap_list (List.map (fun p => (sanitizeInstance p.1, p.2)) rows))
  | Ar_move id body =>
      uuidParam wire id;;;
      let! b := parse MoveBody body in
      orch (moveLocked cfg id b.1 (default false b.2));;; ret Ap_empty
  | Ar_recreate id => uuidParam wire id;;; orch (recreateBySystem cfg id);;; ret Ap_empty
  | Ar_verify id => uuidParam wire id;;; let! v := orch (verify cfg isOperating id) in ret (Ap_verification v)
  end.
End Admin.

(** ** health-service.ts *)
Inductive CheckResult := Check_ok | Check_error.
Record HealthReport := mkHealthReport { hp_healthy : bool; hp_checks : list (string * CheckResult); hp_httpStatus : Z }.

Definition checkHealth (databaseAnswers : bool) : HealthReport :=
  let checks := [("database", if databaseAnswers then Check_ok else Check_error)] in
  let allOk := forallb (fun c => match c.2 with Check_ok => true | Check_error => false end) checks in
  mkHealthReport allOk checks (if allOk then 200 else 503).

(** ** google-identity.ts *)
Definition CERTS_FAILURE : string := "Failed to retrieve verification certificates".
(** [message.split(": ")[0]]. *)
Fixpoint beforeColonSpace (s : string) : string :=
  match s with
  | EmptyString => EmptyString
  | String c s' => if String.prefix ": " s then EmptyString else String c (beforeColonSpace s')
  end.
(** The error of the verifier for the library's message. *)
Definition identityError (message : string) : OrchError :=
  if String.prefix CERTS_FAILURE message then UpstreamUnavailableError "google certs" (Some message)
  else PlainError (beforeColonSpace message).

(** ** host-registrar.ts *)
Definition MAX_TOKEN_AGE_S : Z := 300.
Definition MAX_ID_TOKEN_LENGTH : Z := 4096.

Record HostRecord := mkHostRecord {
  hd_id : string; hd_address : option string; hd_memoryMb : option Z; hd_status : HostStatus; hd_lastRegisteredAt : option Z }.

(** [HostRepository.register]: without a capacity the one there is stays. *)
Definition registerHost (now : Z) (id address : string) (memoryMb : option Z) (l : list HostRecord) : list HostRecord :=
  let p := fun h => str_eqb (hd_id h) id in
  if List.existsb p l
  then update_where p (fun h => mkHostRecord (hd_id h) (Some address)
         (match memoryMb with Some m => Some m | None => hd_memoryMb h end) (hd_status h) (Some now)) l
  else l ++ [mkHostRecord id (Some address) memoryMb Host_active (Some now)].

(** issued at, instance id *)
Definition Claims : Schema (Q * string) := fun j =>
  match field "iat" zNumber j, field "email" zString j,
        field "email_verified" (fun v => match v with JBool true => Some tt | _ => None end) j,
        field "google" (field "compute_engine" (field "instance_id" zString)) j with
  | Some iat, Some _, Some _, Some id => Some (iat, id)
  | _, _, _, _ => None
  end.

Section Registrar.
(** [hostByInstanceId], [addressByHost]; what the library says of a token. *)
Context (hostByInstanceId addressByHost : list (string * string)) (verifyIdToken : string -> string + Json).
Context (isPrivateIpv4 : string -> bool).

Definition lookupKey (k : string) (l : list (string * string)) : option string :=
  option_map snd (List.find (fun p => str_eqb p.1 k) l).

Definition verifiedClaims (idToken : string) : OrchError + (Q * string) :=
  match verifyIdToken idToken with
  | inl message => match identityError message with
                   | UpstreamUnavailableError s d => inl (UpstreamUnavailableError s d)
                   | _ => inl HostNotAllowedError
                   end
  | inr payload => match Claims payload with Some c => inr c | None => inl HostNotAllowedError end
  end.

(** The host that registers. *)
Definition registeringHost (now : Z) (idToken address : string) : OrchError + string :=
  match verifiedClaims idToken with
  | inl e => inl e
  | inr (iat, instanceId) =>
      match lookupKey instanceId hostByInstanceId with
      | None => inl HostNotAllowedError
      | Some hostId =>
          if negb (Qle_bool (inject_Z now / 1000 - iat)%Q (inject_Z MAX_TOKEN_AGE_S)) then inl HostNotAllowedError
          else if ostr_eqb (lookupKey hostId addressByHost) (Some address) then inr hostId
          else inl HostNotAllowedError
      end
  end.

(** The table of hosts and the hosts in memory after a registration: the row is written
    before a host that memory does not have is refused. *)
Definition register (now : Z) (idToken address : string) (memoryMb : option Z) (rows : list HostRecord) (hosts : list HostRuntime)
  : (OrchError + list HostRuntime) * list HostRecord :=
  match registeringHost now idToken address with
  | inl e => (inl e, rows)
  | inr hostId =>
      (match memoryMb with Some m => setCapacity hosts hostId m | None => inr hosts end, registerHost now hostId address memoryMb rows)
  end.

Definition registerRoute (now : Z) (authorization : option string) (body : Json) (rows : list HostRecord) (hosts : list HostRuntime)
  : (Thrown + list HostRuntime) * list HostRecord :=
  let idToken := match bearerToken authorization with Some t => trim t | None => EmptyString end in
  let n := Z.of_nat (String.length idToken) in
  if (n =? 0) || (MAX_ID_TOKEN_LENGTH <? n) then (inl (Th_error AuthenticationError), rows)
  else match RegisterBody isPrivateIpv4 body with
       | None => (inl zodError, rows)
       | Some (address, memoryMb) =>
           let '(r, rows) := register now idToken address memoryMb rows hosts in
           (match r with inl e => inl (Th_error e) | inr h => inr h end, rows)
       end.
End Registrar.

(** What a registration promises *)
Lemma lookupKey_in k v l : lookupKey k l = Some v -> In (k, v) l.
Proof.
  unfold lookupKey. destruct (List.find _ l) as [[a b]|] eqn:E; [|discriminate]. intros H. injection H as ->.
  apply find_some in E as [Hin E]. simpl in E. apply str_eqb_eq in E as ->. exact Hin.
Qed.

(** Only a worker of ours changes where bots are dialled: whatever a token's verified
    claims and a body say, a row of the host table changes only when the claims name an
    instance of the configured set, were issued within the last five minutes, and the
    address is the one configured for that host; the row then holds that address, and no
    other row changes. *)
Theorem host_registration (hostByInstanceId addressByHost : list (string * string)) (verifyIdToken : string -> string + Json)
  (isPrivateIpv4 : string -> bool) (now : Z) (authorization : option string) (body : Json) (rows : list HostRecord) (hosts : list HostRuntime)
  (Hchanged : (registerRoute hostByInstanceId addressByHost verifyIdToken isPrivateIpv4 now authorization body rows hosts).2 <> rows) :
  exists token payload iat instanceId hostId address memoryMb,
    bearerToken authorization = Some token /\ verifyIdToken (trim token) = inr payload /\ Claims payload = Some (iat, instanceId) /\
    In (instanceId, hostId) hostByInstanceId /\ In (hostId, address) addressByHost /\
    (inject_Z now / 1000 - iat <= inject_Z MAX_TOKEN_AGE_S)%Q /\
    (registerRoute hostByInstanceId addressByHost verifyIdToken isPrivateIpv4 now authorization body rows hosts).2
      = registerHost now hostId address memoryMb rows.
Proof.
  revert Hchanged. unfold registerRoute. destruct (bearerToken authorization) as [token|] eqn:Eb; [|contradiction].
  destruct (_ || _); [contradiction|]. destruct (RegisterBody isPrivateIpv4 body) as [[address memoryMb]|]; [|contradiction].
  unfold register, registeringHost, verifiedClaims. destruct (verifyIdToken (trim token)) as [m|payload] eqn:Ev.
  { destruct (identityError m); contradiction. }
  destruct (Claims payload) as [[iat instanceId]|] eqn:Ec; [|contradiction].
  destruct (lookupKey instanceId hostByInstanceId) as [hostId|] eqn:Eh; [|contradiction].
  destruct (Qle_bool _ _) eqn:Eq; [|contradiction]. cbn [negb].
  destruct (ostr_eqb _ _) eqn:Ea; [|contradiction]. intros _. apply Qle_bool_iff in Eq.
  exists token, payload, iat, instanceId, hostId, address, memoryMb. split; [reflexivity|]. split; [exact Ev|]. split; [exact Ec|].
  split; [exact (lookupKey_in _ _ _ Eh)|]. split.
  - apply lookupKey_in. destruct (lookupKey hostId addressByHost) as [a|]; [|discriminate]. simpl in Ea. apply str_eqb_eq in Ea as ->. reflexivity.
  - split; [exact Eq | reflexivity].
Qed.

Definition simPayload (iat : Z) : Json :=
  JObj [("iat", JNum (inject_Z iat)); ("email", JStr "w@x"); ("email_verified", JBool true);
        ("google", JObj [("compute_engine", JObj [("instance_id", JStr "42")])])].
Definition simRegister (iat : Z) (address : string) : (Thrown + list HostRuntime) * list HostRecord :=
  registerRoute [("42", "b")] [("b", "10.0.0.2")] (fun _ => inr (simPayload iat)) (fun _ => true) 400000
    (Some "Bearer token") (JObj [("address", JStr address)]) [] [].

Lemma host_registration_witness :
  (simRegister 200 "10.0.0.2").2 = [mkHostRecord "b" (Some "10.0.0.2") None Host_active (Some 400000)] /\
  (simRegister 50 "10.0.0.2").2 = [] /\ (simRegister 200 "10.0.0.3").2 = [] /\
  exists hostId address memoryMb, In (hostId, address) [("b", "10.0.0.2")] /\
    (simRegister 200 "10.0.0.2").2 = registerHost 400000 hostId address memoryMb [].
Proof.
  split; [vm_compute; reflexivity|]. split; [vm_compute; reflexivity|]. split; [vm_compute; reflexivity|].
  destruct (host_registration [("42", "b")] [("b", "10.0.0.2")] (fun _ => inr (simPayload 200)) (fun _ => true) 400000
    (Some "Bearer token") (JObj [("address", JStr "10.0.0.2")]) [] []) as (tok & p & iat & i & h & a & m & _ & _ & _ & _ & Ha & _ & E).
  { vm_compute. discriminate. }
  exists h, a, m. split; [exact Ha | exact E].
Defined.
