(* ===== verification/PairRoutes.v ===== *)
(** The requests of a WhatsApp pairing: [routes/pair.ts] of the orchestrator and the proxy to
    the pairing sidecar, [services/pairing-sidecar-client.ts].

    [SidecarHttp] is the sidecar's HTTP interface; a lost answer is a timeout or a
    connection that failed. *)
From Stdlib Require Import Ascii.
From S2P Require Import Prelude JsString Json Fleet Access Hosts FleetStore FleetWorld InstanceManager PairingManager.
From S2P Require Import Backups OwnerAccess Integrations Linker RouteSchemas LlmKeys InstanceRoutes.
From stdpp Require Import list strings gmap.
#[local] Open Scope Z_scope.

(** ** pairing-sidecar-client.ts *)
Inductive SidecarText := Sx_empty | Sx_json (j : Json) | Sx_raw (s : string).
Inductive SidecarAnswer := Sa_lost | Sa_answer (status : Z) (text : SidecarText).
Inductive SidecarMethod := Sm_get | Sm_post (body : Json).

Class SidecarHttp (X : Type) := {
  (** url, bearer *)
  sidecar_fetch : string -> string -> SidecarMethod -> X -> SidecarAnswer * X;
  sidecar_sleep : Z -> X -> unit * X;
}.

Record ProxyAnswer := mkProxy { px_status : Z; px_body : Json }.

(** [parseResponse]. *)
Definition parseResponse (t : SidecarText) : Json :=
  match t with Sx_empty => JNull | Sx_json j => j | Sx_raw s => JObj [("raw", JStr s)] end.

Definition transientStatus (status : Z) : bool := (status =? 429) || (status =? 503).
Definition maxAttempts (m : SidecarMethod) : nat := match m with Sm_get => 3 | Sm_post _ => 1 end.

(** ** pair.ts *)
Definition ALLOWED_PROXY_STATUSES : list Z := [200; 400; 404; 409; 425; 500].
Definition clampUpstreamStatus (status : Z) : Z := if oneOf ALLOWED_PROXY_STATUSES status then status else 502.

Definition fieldOf (key : string) (j : Json) : option Json := match j with JObj fields => lookupField key fields | _ => None end.
Definition textField (key : string) (j : Json) : option string := match fieldOf key j with Some (JStr s) => Some s | _ => None end.

Definition upperAscii (c : ascii) : ascii := if isLower c then ascii_of_nat (nat_of_ascii c - 32) else c.
Definition toUpperCase (s : string) : string := mapString upperAscii s.

(** What the body of a failed answer becomes: a standard error as it is, or a code and a
    message with the body as its details. *)
Inductive ProxyError := Pr_standard (body : Json) | Pr_error (code message : string) (details : Json).

Definition isStandardError (body : Json) : bool :=
  match textField "code" body, textField "message" body with Some _, Some _ => true | _, _ => false end.

Definition normalizeProxyError (body : Json) : ProxyError :=
  if isStandardError body then Pr_standard body
  else match fieldOf "error" body with
       | Some (JStr error) => Pr_error (toUpperCase error) error body
       | _ => Pr_error "UPSTREAM_ERROR" "upstream request failed" body
       end.

Inductive PairReply :=
| Pa_started (p : PairingStart)
| Pa_empty
| Pa_proxied (status : Z) (body : Json)
| Pa_proxyError (status : Z) (e : ProxyError)
(** the sidecar's fields, overlaid with the row's *)
| Pa_status (sidecar : Json) (pairingStatus : PairingStatus) (whatsappAccountId : option string)
| Pa_databaseStatus (paired : bool) (pairingStatus : PairingStatus) (whatsappAccountId : option string) (ready : bool)
| Pa_emptyBody.

Definition sendProxyResponse (res : ProxyAnswer) : PairReply :=
  let status := clampUpstreamStatus (px_status res) in
  if 400 <=? status then Pa_proxyError status (normalizeProxyError (px_body res)) else Pa_proxied status (px_body res).

(** /^[A-Za-z0-9@._+:-]{1,128}$/ *)
Definition isAccountChar (c : ascii) : bool :=
  isAlnum c || Ascii.eqb c "@"%char || Ascii.eqb c "."%char || Ascii.eqb c "_"%char || Ascii.eqb c "+"%char
  || Ascii.eqb c ":"%char || Ascii.eqb c "-"%char.
(** A header that came more than once is no account id. *)
Definition parseAccountIdHeader (raw : option string) : option string :=
  match raw with
  | None => None
  | Some s =>
      let value := trim s in
      if (1 <=? String.length value)%nat && (String.length value <=? 128)%nat && allChars isAccountChar value then Some value else None
  end.

Inductive PairRequest :=
| Qr_start (id : string) (body : option Json)
| Qr_disconnect (id : string)
| Qr_cancel (id : string)
| Qr_qr (id : string)
| Qr_code (id : string) (body : Json)
| Qr_status (id : string).

Section PairRoutes.
Context {X : Type} `{!ContainerRuntime X, !AgentAdapter X, !Collaborators X, !PairingRuntime X, !SidecarHttp X}.
Context (cfg : AppConfig) (pc : PairingConfig) (wire : Wire).
Abbreviation Route A := (M (FleetDb X) unit Thrown A).

Definition sidecarDown : OrchError := UpstreamUnavailableError "pairing sidecar" None.

Definition fetchOnce (url token : string) (m : SidecarMethod) : Fleet X SidecarAnswer := ext' (sidecar_fetch url token m).

(** [left] attempts, this one included. *)
Fixpoint sidecarFetch (left : nat) (delay : Z) (url token : string) (m : SidecarMethod) : Fleet X (Z * SidecarText) :=
  match left with
  | O => throw sidecarDown
  | S n =>
      let! r := fetchOnce url token m in
      match r, n with
      | Sa_answer status text, O => ret (status, text)
      | Sa_answer status text, S _ =>
          if transientStatus status then ext' (sidecar_sleep delay);;; sidecarFetch n (delay * 2) url token m
          else ret (status, text)
      | Sa_lost, O => throw sidecarDown
      | Sa_lost, S _ => ext' (sidecar_sleep delay);;; sidecarFetch n (delay * 2) url token m
      end
  end.

Definition proxy (instanceId path : string) (m : SidecarMethod) : Fleet X ProxyAnswer :=
  let! session := sessionOf instanceId in
  match session with
  | None => ret (mkProxy 425 (JObj [("code", JStr "PAIRING_NOT_STARTED"); ("message", JStr "pairing has not started")]))
  | Some s =>
      let! r := sidecarFetch (maxAttempts m) 150 (ps_sidecarBaseUrl s +:+ path) (ps_authToken s) m in
      ret (mkProxy r.1 (parseResponse r.2))
  end.

(** [isStatusPayload]. *)
Definition isStatusPayload (j : Json) : bool := match textField "phase" j with Some _ => true | None => false end.

Definition statusRoute (id userId : string) : Route PairReply :=
  let! inst := orch (requireOwnedInstance cfg id userId) in
  let! live := orch (catch (let! res := proxy id "/pair/status" Sm_get in
                            ret (if (px_status res =? 200) && isStatusPayload (px_body res) then Some (px_body res) else None))
                       (fun _ => ret None)) in
  match live with
  | Some body => ret (Pa_status body (fi_pairingStatus inst) (fi_whatsappAccountId inst))
  | None =>
      let paired := bool_decide (fi_pairingStatus inst = P_paired) in
      let! ready := if paired then orch (isReady id) else ret false in
      ret (Pa_databaseStatus paired (fi_pairingStatus inst) (fi_whatsappAccountId inst) ready)
  end.

(** [pair] and [whatsapp/disconnect] are one locked operation each. *)
Definition pairHandler (userId : string) (r : PairRequest) : Route PairReply :=
  match r with
  | Qr_start id body =>
      let! owner := parse StartPairBody (default (JObj []) body) in
      let! inst := orch (ensureWhatsappChannel cfg id userId owner) in
      let! p := orch (startPairingLocked cfg pc inst) in
      ret (Pa_started p)
  | Qr_disconnect id => orch (disconnectWhatsapp cfg id userId);;; ret Pa_empty
  | Qr_cancel id => let! _ := orch (requireOwnedInstance cfg id userId) in orch (cancelPairing cfg id);;; ret Pa_empty
  | Qr_qr id =>
      let! _ := orch (requireOwnedInstance cfg id userId) in
      let! res := orch (proxy id "/pair/qr" Sm_get) in ret (sendProxyResponse res)
  | Qr_code id body =>
      let! phone := parse PhoneBody body in
      let! _ := orch (requireOwnedInstance cfg id userId) in
      let! res := orch (proxy id "/pair/code" (Sm_post (JObj [("phone", JStr phone)]))) in ret (sendProxyResponse res)
  | Qr_status id => statusRoute id userId
  end.

Definition pairId (r : PairRequest) : string :=
  match r with Qr_start id _ | Qr_disconnect id | Qr_cancel id | Qr_qr id | Qr_code id _ | Qr_status id => id end.
Definition pairRoute (userId : string) (r : PairRequest) : Route PairReply :=
  uuidParam wire (pairId r);;; pairHandler userId r.

(** The sidecar's own call: the credentials are its body. *)
Definition completedRoute (id : string) (authorization : option string) (creds : option string) (accountId : option string)
  : Route PairReply :=
  uuidParam wire id;;;
  match creds with
  | Some (String _ _) =>
      let! _ := orch (completePairingCallback cfg id (extractBearer authorization) (parseAccountIdHeader accountId)) in ret Pa_empty
  | _ => ret Pa_emptyBody
  end.
End PairRoutes.
