(* ===== verification/RouteProps.v ===== *)
(** What the requests about bots promise: [InstanceRoutes]. *)
From Stdlib Require Import Ascii Sorted.
From S2P Require Import Prelude JsString Dates Json Fleet Access Exports Hosts FleetStore IntegrationTypes.
From S2P Require Import FleetWorld InstanceManager FleetGuar Backups OwnerAccess Integrations Linker Cursor RouteSchemas.
From S2P Require Import LlmKeys InstanceRoutes.
From stdpp Require Import list strings gmap.
#[local] Open Scope Z_scope.

(** ** Secrets *)
Record Secrets := mkSecrets {
  se_token : string;
  se_pin : option string;
  se_objectName : option string;
  se_integrations : option IntegrationsBinding;
}.

(** The same bot with other secrets. *)
Definition plantChannel (s : Secrets) (ch : ChannelConfig) : ChannelConfig :=
  match ch with
  | Ch_telegram c =>
      match truthy (tg_botToken c) with
      | Some _ => Ch_telegram (mkTelegram (Some (se_token s)) (tg_botUsername c) (tg_botId c) (tg_dmPolicy c) (tg_allowFrom c))
      | None => ch
      end
  | Ch_discord _ guildId => Ch_discord (se_token s) guildId
  | Ch_slack _ _ => Ch_slack (se_token s) (se_token s)
  | Ch_whatsapp _ => ch
  | Ch_whatsapp_cloud c =>
      Ch_whatsapp_cloud (mkWhatsappCloud (wc_wabaId c) (wc_phoneNumberId c) (wc_businessId c) (wc_displayPhoneNumber c)
        (wc_verifiedName c) (se_token s) (se_pin s) (wc_coexistence c) (se_token s) (wc_ownerNumber c))
  end.

Definition plantFleet (s : Secrets) (i : FleetInstance) : FleetInstance :=
  mkFleet (fi_id i) (fi_userId i) (fi_hostId i) (fi_runtimeKind i) (fi_displayName i) (fi_status i) (fi_containerId i)
    (fi_containerName i) (fi_gatewayPort i) (fi_healthFailures i) (fi_errorMessage i) (fi_pairingStatus i) (fi_pairingStartedAt i)
    (fi_whatsappAccountId i) (fi_hasWhatsappCreds i) (fi_lastSeenAt i) (fi_backupImport i) (fi_litellm i) (fi_movedFromHostId i)
    (se_objectName s) (fi_movedAt i) (fi_moveImportedAt i) (fi_createdAt i) (fi_updatedAt i) (fi_stoppedAt i) (fi_destroyedAt i).

Definition plantSecrets (s : Secrets) (i : Instance_) : Instance_ :=
  let c := in_config i in
  let p := ic_provider c in
  mkInstance (plantFleet s i)
    (mkInstanceConfig (ic_displayName c)
       (mkProviderConfig (pr_name p) (pr_id p) (se_token s) (pr_model p) (pr_baseUrl p) (pr_input p) (pr_media p) (pr_fallbacks p))
       (List.map (plantChannel s) (ic_channels c)) (ic_resources c) (se_integrations s))
    (se_token s).

Lemma mask_planted s ch : se_token s <> "" -> maskChannel (plantChannel s ch) = maskChannel ch.
Proof.
  intros Hs. destruct ch as [[t u b p a]|t g|b a|c|c]; try reflexivity. simpl.
  destruct (truthy t) eqn:E; [|simpl; rewrite E; reflexivity]. simpl. destruct s as [[|x0 y0] pin o n]; [contradiction | reflexivity].
Qed.

(** The mask keeps all the rest: planting a secret in what is shown gives the planted bot. *)
Lemma plant_masked s ch : plantChannel s (maskChannel ch) = plantChannel s ch.
Proof. destruct ch as [[t u b p a]|t g|b a|c|c]; try reflexivity. simpl. destruct (truthy t) eqn:E; [reflexivity | simpl; rewrite E; reflexivity]. Qed.

(** The planted bot, from what is shown. *)
Definition showAgain (s : Secrets) (n : SafeInstance) : Instance_ :=
  let f := sn_fleet n in
  let c := sn_config n in
  let p := sc_provider c in
  mkInstance
    (mkFleet (sf_id f) (sf_userId f) (sf_hostId f) (sf_runtimeKind f) (sf_displayName f) (sf_status f) (sf_containerId f)
      (sf_containerName f) (sf_gatewayPort f) (sf_healthFailures f) (sf_errorMessage f) (sf_pairingStatus f) (sf_pairingStartedAt f)
      (sf_whatsappAccountId f) (sf_hasWhatsappCreds f) (sf_lastSeenAt f) (sf_backupImport f) (sf_litellm f) (sf_movedFromHostId f)
      (se_objectName s) (sf_movedAt f) (sf_moveImportedAt f) (sf_createdAt f) (sf_updatedAt f) (sf_stoppedAt f) (sf_destroyedAt f))
    (mkInstanceConfig (sc_displayName c)
       (mkProviderConfig (pr_name p) (pr_id p) (se_token s) (pr_model p) (pr_baseUrl p) (pr_input p) (pr_media p) (pr_fallbacks p))
       (List.map (plantChannel s) (sc_channels c)) (sc_resources c) (se_integrations s))
    (se_token s).

Lemma plant_shown s i : plantSecrets s i = showAgain s (sanitizeInstance i).
Proof.
  unfold showAgain, sanitizeInstance. cbn [sn_config sc_channels]. rewrite map_map, (map_ext _ _ (plant_masked s)). reflexivity.
Qed.

(** C14: what a request shows of a bot carries none of its secrets and all the rest: two bots
    look the same exactly when they are the same bot but for the tokens of their channels,
    the gateway and relay tokens, the provider's key, the pin and the object of a move. *)
Theorem secrets_stay (s : Secrets) (Hs : se_token s <> "") (a b : Instance_) :
  sanitizeInstance a = sanitizeInstance b <-> plantSecrets s a = plantSecrets s b.
Proof.
  split; intros H.
  - transitivity (showAgain s (sanitizeInstance a)); [apply plant_shown|]. rewrite H. symmetry. apply plant_shown.
  - assert (E : forall i, sanitizeInstance (plantSecrets s i) = sanitizeInstance i).
    { intros i. unfold sanitizeInstance. cbn [plantSecrets in_config in_fleet ic_channels ic_displayName ic_provider ic_resources].
      rewrite map_map, (map_ext (fun x => maskChannel (plantChannel s x)) maskChannel) by (intros; apply mask_planted; exact Hs). reflexivity. }
    rewrite <- (E a), <- (E b), H. reflexivity.
Qed.

Definition simSecretBot (token : string) : Instance_ :=
  mkInstance (ro_fleet (simRow "a" I_running (Some "c") None (Some token)))
    (mkInstanceConfig "Bot" (ic_provider simBotConfig)
       [Ch_telegram (mkTelegram (Some token) None (Some 7) None None); Ch_slack token token] DEFAULT_RESOURCE_LIMITS None) token.

Lemma secrets_stay_witness :
  let s := mkSecrets "x" None None None in
  se_token s <> "" /\ simSecretBot "one" <> simSecretBot "two" /\ sanitizeInstance (simSecretBot "one") = sanitizeInstance (simSecretBot "two").
Proof.
  intros s. assert (Hs : se_token s <> "") by discriminate. split; [exact Hs|]. split; [discriminate|].
  apply (secrets_stay s Hs). reflexivity.
Defined.

(** ** Pages *)
Lemma ascii_compare_lt a b c : Ascii.compare a b = Lt -> Ascii.compare b c <> Gt -> Ascii.compare a c = Lt.
Proof.
  unfold Ascii.compare. intros H1 H2. apply N.compare_lt_iff in H1. apply N.compare_lt_iff. destruct (N.compare_spec (N_of_ascii b) (N_of_ascii c)) as [E|E|E]; [rewrite <- E; exact H1 | exact (N.lt_trans _ _ _ H1 E) | congruence].
Qed.

Lemma str_compare_trans : forall a b c, String.compare a b <> Gt -> String.compare b c <> Gt -> String.compare a c <> Gt.
Proof.
  induction a as [|x a IH]; intros [|y b] [|z c]; simpl; try congruence.
  destruct (Ascii.compare x y) eqn:E1; [| |congruence].
  - apply Ascii.compare_eq_iff in E1 as ->. destruct (Ascii.compare y z); [apply IH | discriminate | congruence].
  - destruct (Ascii.compare y z) eqn:E2; intros _ H; [| |congruence].
    + rewrite (ascii_compare_lt x y z E1) by congruence. discriminate.
    + rewrite (ascii_compare_lt x y z E1) by congruence. discriminate.
Qed.

Lemma str_leb_spec a b : String.leb a b = true <-> String.compare a b <> Gt.
Proof. unfold String.leb. destruct (String.compare a b); split; congruence. Qed.

Lemma str_leb_trans a b c : String.leb a b = true -> String.leb b c = true -> String.leb a c = true.
Proof. rewrite !str_leb_spec. apply str_compare_trans. Qed.

Lemma createdLeb_total a b : createdLeb a b = true \/ createdLeb b a = true.
Proof.
  unfold createdLeb. destruct (String.leb_total (fi_id a) (fi_id b)) as [->| ->];
    repeat match goal with |- context [?x <? ?y] => destruct (Z.ltb_spec x y) end;
    repeat match goal with |- context [?x =? ?y] => destruct (Z.eqb_spec x y) end; simpl; auto; lia.
Qed.

Lemma createdLeb_trans a b c : createdLeb a b = true -> createdLeb b c = true -> createdLeb a c = true.
Proof.
  unfold createdLeb. intros H1 H2.
  pose proof (str_leb_trans (fi_id a) (fi_id b) (fi_id c)) as Ht.
  destruct (String.leb (fi_id a) (fi_id b)), (String.leb (fi_id b) (fi_id c)); try rewrite Ht by reflexivity;
    revert H1 H2;
    repeat match goal with |- context [?x <? ?y] => destruct (Z.ltb_spec x y) end;
    repeat match goal with |- context [?x =? ?y] => destruct (Z.eqb_spec x y) end; simpl; intros; try discriminate; try reflexivity; lia.
Qed.

(** What comes after a row, as the query for the next page has it. *)
Lemma after_row (x y : Row) : afterCursor (Some (fi_createdAt x, fi_id x)) y = negb (createdLeb y x).
Proof.
  unfold afterCursor, createdLeb, String.ltb, String.leb. rewrite (String.compare_antisym (fi_id y) (fi_id x)).
  destruct (String.compare (fi_id x) (fi_id y)); simpl;
    destruct (Z.ltb_spec (fi_createdAt x) (fi_createdAt y)), (Z.ltb_spec (fi_createdAt y) (fi_createdAt x)),
      (Z.eqb_spec (fi_createdAt y) (fi_createdAt x)); simpl; try reflexivity; lia.
Qed.

Section Sorting.
Context {A : Type} (leb : A -> A -> bool) (total : forall x y, leb x y = true \/ leb y x = true)
  (trans : forall x y z, leb x y = true -> leb y z = true -> leb x z = true).

Lemma sinsert_filter p x l : StronglySorted (fun a b => leb a b = true) l ->
  List.filter p (sinsert leb x l) = if p x then sinsert leb x (List.filter p l) else List.filter p l.
Proof.
  induction l as [|y l IH]; intros Hs; simpl; [destruct (p x); reflexivity|]. inversion Hs as [|? ? Hs' Hy]; subst.
  destruct (leb x y) eqn:E; simpl.
  - destruct (p x) eqn:Ex; [|reflexivity]. destruct (p y); simpl; [rewrite E; reflexivity|].
    assert (Hx : Forall (fun z => leb x z = true) l) by (eapply Forall_impl; [exact Hy|]; intros z Hz; exact (trans _ _ _ E Hz)).
    clear -Hx. induction l as [|z l IH]; simpl; [reflexivity|]. inversion Hx; subst. destruct (p z); simpl; [|auto].
    replace (leb x z) with true by auto. reflexivity.
  - rewrite (IH Hs'). destruct (p x), (p y); simpl; rewrite ?E; reflexivity.
Qed.

Lemma isort_filter p l : isort leb (List.filter p l) = List.filter p (isort leb l).
Proof.
  induction l as [|x l IH]; [reflexivity|]. simpl. rewrite sinsert_filter by (apply isort_sorted; assumption).
  destruct (p x); simpl; rewrite IH; reflexivity.
Qed.

(** Of a sorted list, what does not come up to [x]. *)
Lemma sorted_after (front : list A) x back : StronglySorted (fun a b => leb a b = true) (front ++ x :: back) ->
  (forall y, In y back -> leb y x = false) -> List.filter (fun y => negb (leb y x)) (front ++ x :: back) = back.
Proof.
  intros Hs Hb. rewrite List.filter_app. replace (List.filter _ front) with (@nil A).
  - simpl. replace (leb x x) with true by (destruct (total x x); auto). simpl.
    clear Hs. induction back as [|y back IH]; simpl; [reflexivity|]. rewrite Hb by (left; reflexivity). simpl. f_equal. apply IH. intros; apply Hb; right; assumption.
  - clear Hb. induction front as [|y front IH]; simpl; [reflexivity|]. inversion Hs as [|? ? Hs' Hy]; subst.
    rewrite Forall_forall in Hy. rewrite (Hy x) by (apply list_elem_of_In, in_app_iff; right; left; reflexivity). simpl. apply IH. exact Hs'.
Qed.
End Sorting.

Lemma cursor_text (x : Row) : 0 <= Ecma.getUTCFullYear (fi_createdAt x) <= 9999 ->
  ((String.length (fi_id x) =? 36)%nat && allChars isUuidChar (fi_id x)) = true ->
  truthy (Some (encodeCursor (fi_createdAt x) (fi_id x))) = Some (encodeCursor (fi_createdAt x) (fi_id x)) /\
  parseCursor (encodeCursor (fi_createdAt x) (fi_id x)) = Some (Some (fi_createdAt x), fi_id x).
Proof.
  intros Hy Hid. pose proof (parse_encoded _ _ Hy Hid) as H. split; [|exact H].
  destruct (encodeCursor (fi_createdAt x) (fi_id x)); [discriminate | reflexivity].
Qed.

Section Pages.
Context (managed : list string) (userId : string) (limit : nat).

(** The user's bots, in the order of the list. *)
Definition mine (r : Row) : bool := owned managed r && str_eqb (fi_userId r) userId && isActive r.
Definition botsOf (rows : list Row) : list Row := isort createdLeb (List.filter mine rows).

(** The pages a client reads who follows the cursors. *)
Fixpoint pages (fuel : nat) (rows : list Row) (cursor : option string) : list Instance_ :=
  match fuel with
  | O => []
  | S fuel =>
      match listQuery (mkListQuery cursor (Some (Z.of_nat limit))) with
      | inl _ => []
      | inr (c, n) =>
          let page := findByUserId managed userId c n rows in
          page ++ match nextCursor n page with Some next => pages fuel rows (Some next) | None => [] end
      end
  end.

(** A row as this program writes it: it reads back, its id is a uuid and it was made in a
    year of four digits. *)
Definition wellRow (r : Row) : Prop :=
  is_Some (match ro_settings r with inr s => Some s | inl _ => None end) /\
  ((String.length (fi_id r) =? 36)%nat && allChars isUuidChar (fi_id r)) = true /\
  0 <= Ecma.getUTCFullYear (fi_createdAt r) <= 9999.

Lemma filter_both {A} (p q : A -> bool) l : List.filter (fun x => p x && q x) l = List.filter q (List.filter p l).
Proof. induction l as [|x l IH]; [reflexivity|]. simpl. destruct (p x); simpl; rewrite IH; reflexivity. Qed.

Lemma page_query cursor n rows :
  findByUserId managed userId cursor n rows = toDomainSafe (take n (List.filter (fun r : Row => afterCursor cursor r) (botsOf rows))).
Proof.
  unfold findByUserId, botsOf. rewrite <- isort_filter; [|apply createdLeb_total | apply createdLeb_trans].
  f_equal. f_equal. f_equal. exact (filter_both mine (fun r => afterCursor cursor r) rows).
Qed.

Lemma toDomainSafe_cons r rows : toDomainSafe (r :: rows) =
  match ro_settings r with inr s => mkInstance (ro_fleet r) s.1 s.2 :: toDomainSafe rows | inl _ => toDomainSafe rows end.
Proof. unfold toDomainSafe at 1, toDomain. simpl. destruct (ro_settings r) as [c|[config token]]; reflexivity. Qed.

Lemma readable_all rows : Forall wellRow rows -> List.map in_fleet (toDomainSafe rows) = List.map ro_fleet rows.
Proof.
  induction 1 as [|r rows ([s E] & _) _ IH]; [reflexivity|]. rewrite toDomainSafe_cons.
  destruct (ro_settings r) as [c|s']; [discriminate|]. cbn [List.map in_fleet]. rewrite IH. reflexivity.
Qed.

Lemma toDomainSafe_app a b : toDomainSafe (a ++ b) = toDomainSafe a ++ toDomainSafe b.
Proof. apply omap_app. Qed.

Lemma bots_sorted rows : StronglySorted (fun a b => createdLeb a b = true) (botsOf rows).
Proof. apply isort_sorted; [apply createdLeb_total | apply createdLeb_trans]. Qed.

Lemma next_row (x : Row) y rows : NoDup (List.map fi_id (List.map ro_fleet (botsOf rows))) ->
  forall front back, botsOf rows = front ++ x :: back -> In y back -> createdLeb y x = false.
Proof.
  intros Hn front back E Hy. pose proof (bots_sorted rows) as Hs. rewrite E in Hs, Hn.
  destruct (createdLeb y x) eqn:Hyx; [|reflexivity]. exfalso.
  assert (Hxy : createdLeb x y = true).
  { clear -Hs Hy. induction front as [|z front IH]; simpl in Hs; inversion Hs as [|? ? Hs' Hf]; subst; [|auto].
    rewrite Forall_forall in Hf. apply Hf, list_elem_of_In, Hy. }
  assert (Eid : fi_id x = fi_id y).
  { unfold createdLeb in Hyx, Hxy. revert Hyx Hxy. repeat match goal with |- context [?a <? ?b] => destruct (Z.ltb_spec a b) end; try lia.
    repeat match goal with |- context [?a =? ?b] => destruct (Z.eqb_spec a b) end; simpl; try lia; try discriminate.
    intros H1 H2. apply String.leb_antisym; assumption. }
  rewrite !map_app in Hn. apply NoDup_app in Hn as (_ & _ & Hn). simpl in Hn. apply NoDup_cons in Hn as [Hn _]. apply Hn.
  rewrite Eid. apply list_elem_of_In, in_map, in_map, Hy.
Qed.

Lemma last_split {A} (l : list A) (x : A) : last l = Some x -> exists front, l = front ++ [x].
Proof. intros H. apply last_Some in H. exact H. Qed.

(** From a row on, the pages are the rest of the list. *)
Lemma pages_from fuel : forall rows front back, (1 <= limit <= 100)%nat ->
  Forall wellRow (botsOf rows) -> NoDup (List.map fi_id (List.map ro_fleet (botsOf rows))) ->
  botsOf rows = front ++ back -> (length back < fuel)%nat ->
  pages fuel rows (match last front with Some x => Some (encodeCursor (fi_createdAt x) (fi_id x)) | None => None end) = toDomainSafe back.
Proof.
  induction fuel as [|fuel IH]; intros rows front back Hl Hw Hn E Hf; [lia|].
  assert (Hq : listQuery (mkListQuery (match last front with Some x => Some (encodeCursor (fi_createdAt x) (fi_id x)) | None => None end) (Some (Z.of_nat limit)))
    = inr (option_map (fun x : Row => (fi_createdAt x, fi_id x)) (last front), limit)).
  { unfold listQuery. cbn [lq_limit lq_cursor]. change (default 50 (Some (Z.of_nat limit))) with (Z.of_nat limit). cbv zeta. replace ((1 <=? Z.of_nat limit) && (Z.of_nat limit <=? 100)) with true by lia.
    rewrite Nat2Z.id. destruct (last front) as [x|] eqn:Ex; [|reflexivity].
    assert (Hx : wellRow x).
    { rewrite Forall_forall in Hw. apply Hw. rewrite E. apply elem_of_app. left. apply last_Some_elem_of, Ex. }
    destruct Hx as (_ & Hid & Hy). destruct (cursor_text x Hy Hid) as [-> ->]. reflexivity. }
  cbn [pages]. rewrite Hq. clear Hq. rewrite page_query.
  assert (Eafter : List.filter (fun r : Row => afterCursor (option_map (fun x : Row => (fi_createdAt x, fi_id x)) (last front)) r) (botsOf rows) = back).
  { destruct (last front) as [x|] eqn:Ex; simpl.
    - apply last_split in Ex as [f Ef]. subst front. rewrite <- app_assoc in E. simpl in E.
      rewrite (List.filter_ext _ (fun y => negb (createdLeb y x))) by (intros y; apply (after_row x y)). rewrite E at 1.
      apply sorted_after; [apply createdLeb_total | rewrite <- E; apply bots_sorted|]. intros y Hy. exact (next_row x y rows Hn f back E Hy).
    - apply last_None in Ex. subst front. rewrite E. simpl. clear. induction back as [|y back IH]; simpl; [reflexivity|]. rewrite IH. reflexivity. }
  rewrite Eafter. assert (Hback : Forall wellRow back) by (rewrite E in Hw; apply Forall_app in Hw; tauto).
  assert (Elen : length (toDomainSafe (take limit back)) = length (take limit back)).
  { rewrite <- (length_map in_fleet), readable_all, length_map; [reflexivity | apply Forall_take, Hback]. }
  unfold nextCursor. rewrite Elen.
  destruct (Nat.le_gt_cases limit (length back)) as [Hle|Hgt].
  - assert (Ht : length (take limit back) = limit) by (rewrite length_take; lia). rewrite Ht, Nat.eqb_refl.
    destruct (last (take limit back)) as [x|] eqn:Ex; [|apply last_None in Ex; rewrite Ex in Ht; simpl in Ht; lia].
    assert (Elast : exists i, last (toDomainSafe (take limit back)) = Some i /\ in_fleet i = ro_fleet x).
    { assert (Em : last (List.map in_fleet (toDomainSafe (take limit back))) = Some (ro_fleet x)).
      { rewrite readable_all by (apply Forall_take, Hback). change (last (ro_fleet <$> take limit back) = Some (ro_fleet x)).
        rewrite fmap_last, Ex. reflexivity. }
      change (last (in_fleet <$> toDomainSafe (take limit back)) = Some (ro_fleet x)) in Em. rewrite fmap_last in Em.
      destruct (last (toDomainSafe (take limit back))) as [i|]; [|discriminate]. exists i. split; [reflexivity|]. injection Em as Em. exact Em. }
    destruct Elast as (i & -> & Ei). rewrite Ei.
    specialize (IH rows (front ++ take limit back) (drop limit back) Hl Hw Hn). rewrite last_app, Ex in IH.
    rewrite IH; [|rewrite <- app_assoc, take_drop; exact E | rewrite length_drop; lia].
    rewrite <- toDomainSafe_app, take_drop. reflexivity.
  - rewrite take_ge by lia. destruct (last (toDomainSafe back)) as [i|]; [|apply app_nil_r].
    destruct (Nat.eqb_spec (length back) limit); [lia | apply app_nil_r].
Qed.

(** A user sees each of their bots: following the cursors from the first page on, with
    any page size the route admits, the pages together are the user's bots in the order of
    their creation, each exactly once, and the walk ends. *)
Theorem list_complete (rows : list Row) (fuel : nat) (Hlimit : (1 <= limit <= 100)%nat) (Hrows : Forall wellRow (botsOf rows))
  (Hids : NoDup (List.map fi_id (List.map ro_fleet (botsOf rows)))) (Hfuel : (length (botsOf rows) < fuel)%nat) :
  pages fuel rows None = toDomainSafe (botsOf rows) /\
  List.map in_fleet (pages fuel rows None) ≡ₚ List.map ro_fleet (List.filter mine rows).
Proof.
  assert (E : pages fuel rows None = toDomainSafe (botsOf rows)) by (apply (pages_from fuel rows [] (botsOf rows)); auto).
  split; [exact E|]. rewrite E, readable_all by exact Hrows. apply Permutation_map, isort_perm.
Qed.
End Pages.

(** A bot of the list: its id ends in [c]. *)
Definition simListed (c : string) (createdAt : Z) (settings : string + InstanceConfig * string) : Row :=
  let i := ro_fleet (simRow "a" I_running (Some "c") None None) in
  mkRow (mkFleet ("0123456789abcdef0123456789abcdef012" +:+ c) (fi_userId i) (fi_hostId i) (fi_runtimeKind i) (fi_displayName i) (fi_status i)
    (fi_containerId i) (fi_containerName i) (fi_gatewayPort i) (fi_healthFailures i) (fi_errorMessage i) (fi_pairingStatus i)
    (fi_pairingStartedAt i) (fi_whatsappAccountId i) (fi_hasWhatsappCreds i) (fi_lastSeenAt i) (fi_backupImport i) (fi_litellm i)
    (fi_movedFromHostId i) (fi_moveObjectName i) (fi_movedAt i) (fi_moveImportedAt i) createdAt 0 None None) settings.
Definition simSettings : string + InstanceConfig * string := inr (simBotConfig, "token").

Definition simListedRows : list Row := [simListed "a" 9 simSettings; simListed "b" 5 simSettings; simListed "c" 5 simSettings].

Lemma list_complete_witness :
  (1 <= 2 <= 100)%nat /\ length (botsOf ["a"] "user" simListedRows) = 3%nat /\
  pages ["a"] "user" 2 4 simListedRows None = toDomainSafe (botsOf ["a"] "user" simListedRows).
Proof.
  split; [lia|]. split; [vm_compute; reflexivity|]. refine (proj1 (list_complete ["a"] "user" 2 simListedRows 4 _ _ _ _)); [lia| | |].
  - repeat (apply Forall_cons; split; [split; [eexists; reflexivity|]; split; [reflexivity | vm_compute; split; discriminate]|]). apply Forall_nil. exact I.
  - apply (bool_decide_eq_true_1 _). vm_compute. reflexivity.
  - vm_compute. lia.
Defined.

(** A row that does not read back shortens its page, which is then taken for the last one:
    the bots after it are on no page. *)
Lemma corrupted_row_ends_list :
  let rows := [simListed "a" 1 (inl "bad"); simListed "b" 2 simSettings; simListed "c" 3 simSettings] in
  List.map (fun i : Instance_ => fi_createdAt i) (pages ["a"] "user" 2 10 rows None) = [2] /\
  List.map (fun i : Instance_ => fi_createdAt i) (toDomainSafe (botsOf ["a"] "user" rows)) = [2; 3].
Proof. vm_compute. split; reflexivity. Qed.

(** A cursor that matches the pattern without being a date is an internal error. *)
Lemma bad_cursor_is_internal :
  exists e, listQuery (mkListQuery (Some "2024-13-01T00:00:00Z:0123456789abcdef0123456789abcdef0123") None) = inl e /\
  er_status (errorHandler e) = 500.
Proof. eexists. split; vm_compute; reflexivity. Qed.
