(* ===== verification/PairingSidecar.v ===== *)
(** The WhatsApp pairing sidecar, [apps/whatsapp-pairing/src]: the container that shows
    the owner a code to scan, links the number and posts the credentials to the orchestrator.

    [sessionStep] is [baileys-session.ts], one step per event of the socket, of the queue of
    saves or of a suspended handler; [processStep] is [server.ts] with [completion.ts] around
    it.  A handler that awaits is a [Wait]; a promise of saves is the number of saves it waits
    for.  The socket's library gives its reasons to disconnect ([DisconnectReason]) and the
    normal form of an account id ([jidNormalizedUser]).  [None] is an event that cannot happen. *)
From Stdlib Require Import Ascii.
From S2P Require Import Prelude JsString Substring Json Fleet InstanceManager OwnerAccess RouteSchemas PairRoutes.
From stdpp Require Import list strings.
#[local] Open Scope Z_scope.

(** ** baileys-session.ts *)
Inductive PairingPhase := Ph_idle | Ph_awaiting_qr | Ph_awaiting_code | Ph_authenticating | Ph_authenticated | Ph_failed.
#[export] Instance PairingPhase_eq_dec : EqDecision PairingPhase.
Proof. solve_decision. Defined.

Record PairingState := mkPairingState {
  pt_phase : PairingPhase;
  pt_qr : option string;
  pt_qrExpiresAt : option Z;
  pt_pairingCode : option string;
  pt_pairingCodeExpiresAt : option Z;
  pt_accountId : option string;
  pt_reason : option string;
  pt_updatedAt : Z;
}.

Definition QR_TTL_MS : Z := 60000.
Definition PAIRING_CODE_TTL_MS : Z := 2 * 60000.
Definition MAX_RECONNECTS : nat := 5.

Record DisconnectReason := mkDisconnectReason {
  dr_loggedOut : Z;
  dr_connectionClosed : Z;
  dr_connectionLost : Z;
  dr_connectionReplaced : Z;
  dr_restartRequired : Z;
  dr_timedOut : Z;
  dr_badSession : Z;
}.

(** [update.connection], and [lastDisconnect.error]: a Boom's status, and the message. *)
Inductive Connection := Cx_connecting | Cx_open | Cx_close (statusCode : option Z) (message : option string).
Record ConnectionUpdate := mkUpdate { cu_qr : option string; cu_connection : option Connection }.

(** A handler suspended at an [await]: after [open] or [close] until the saves queued so far
    are done, or until the socket answers a request for a code. *)
Inductive Wait := Wt_open (target : nat) | Wt_close (target : nat) | Wt_code.

Record Session := mkSession {
  se_state : PairingState;
  se_started : bool;
  (** calls of [connect] under way, and sockets made so far *)
  se_connecting : nat;
  se_made : nat;
  se_sock : bool;
  (** saves queued, and settled *)
  se_queued : nat;
  se_saved : nat;
  se_authenticatedEmitted : bool;
  se_reconnectAttempts : nat;
  se_waits : list Wait;
}.

Definition newSession (now : Z) : Session :=
  mkSession (mkPairingState Ph_idle None None None None None None now) false 0 0 false 0 0 false 0 [].

Definition withState (st : PairingState) (s : Session) : Session :=
  mkSession st (se_started s) (se_connecting s) (se_made s) (se_sock s) (se_queued s) (se_saved s)
    (se_authenticatedEmitted s) (se_reconnectAttempts s) (se_waits s).
Definition withWaits (l : list Wait) (s : Session) : Session :=
  mkSession (se_state s) (se_started s) (se_connecting s) (se_made s) (se_sock s) (se_queued s) (se_saved s)
    (se_authenticatedEmitted s) (se_reconnectAttempts s) l.
Definition withAttempts (n : nat) (s : Session) : Session :=
  mkSession (se_state s) (se_started s) (se_connecting s) (se_made s) (se_sock s) (se_queued s) (se_saved s)
    (se_authenticatedEmitted s) n (se_waits s).
Definition withEmitted (s : Session) : Session :=
  mkSession (se_state s) (se_started s) (se_connecting s) (se_made s) (se_sock s) (se_queued s) (se_saved s)
    true (se_reconnectAttempts s) (se_waits s).
Definition withSaves (queued saved : nat) (s : Session) : Session :=
  mkSession (se_state s) (se_started s) (se_connecting s) (se_made s) (se_sock s) queued saved
    (se_authenticatedEmitted s) (se_reconnectAttempts s) (se_waits s).
(** [connect] begins; it ends with a socket, or fails. *)
Definition beginConnect (s : Session) : Session :=
  mkSession (se_state s) true (S (se_connecting s)) (se_made s) (se_sock s) (se_queued s) (se_saved s)
    (se_authenticatedEmitted s) (se_reconnectAttempts s) (se_waits s).
Definition endConnect (ok : bool) (s : Session) : Session :=
  mkSession (se_state s) (se_started s) (pred (se_connecting s)) (if ok then S (se_made s) else se_made s) (ok || se_sock s)
    (se_queued s) (se_saved s) (se_authenticatedEmitted s) (se_reconnectAttempts s) (se_waits s).
Definition dropSock (s : Session) : Session :=
  mkSession (se_state s) (se_started s) (se_connecting s) (se_made s) false (se_queued s) (se_saved s)
    (se_authenticatedEmitted s) (se_reconnectAttempts s) (se_waits s).

(** What the session emits, and what [requestPairingCode] answers. *)
Inductive SessionOutput :=
| So_state (st : PairingState)
| So_authenticated (accountId : option string)
| So_failed (reason : string)
| So_code (code : string)
| So_codeRefused (message : string).

Definition transition (patch : PairingState -> PairingState) (now : Z) (s : Session) : Session * list SessionOutput :=
  let st := patch (se_state s) in
  let st' := mkPairingState (pt_phase st) (pt_qr st) (pt_qrExpiresAt st) (pt_pairingCode st)
               (pt_pairingCodeExpiresAt st) (pt_accountId st) (pt_reason st) now in
  (withState st' s, [So_state st']).

Definition toQr (qr : string) (now : Z) (st : PairingState) : PairingState :=
  mkPairingState Ph_awaiting_qr (Some qr) (Some (now + QR_TTL_MS)) (pt_pairingCode st) (pt_pairingCodeExpiresAt st)
    (pt_accountId st) (pt_reason st) (pt_updatedAt st).
Definition toCode (code : string) (now : Z) (st : PairingState) : PairingState :=
  mkPairingState Ph_awaiting_code (pt_qr st) (pt_qrExpiresAt st) (Some code) (Some (now + PAIRING_CODE_TTL_MS))
    (pt_accountId st) (pt_reason st) (pt_updatedAt st).
Definition toAuthenticating (st : PairingState) : PairingState :=
  mkPairingState Ph_authenticating (pt_qr st) (pt_qrExpiresAt st) (pt_pairingCode st) (pt_pairingCodeExpiresAt st)
    (pt_accountId st) (pt_reason st) (pt_updatedAt st).
Definition toAuthenticated (accountId : option string) (st : PairingState) : PairingState :=
  mkPairingState Ph_authenticated None (pt_qrExpiresAt st) None (pt_pairingCodeExpiresAt st)
    accountId (pt_reason st) (pt_updatedAt st).
Definition toFailed (reason : string) (st : PairingState) : PairingState :=
  mkPairingState Ph_failed (pt_qr st) (pt_qrExpiresAt st) (pt_pairingCode st) (pt_pairingCodeExpiresAt st)
    (pt_accountId st) (Some reason) (pt_updatedAt st).

(** [/\D/g] and [/[^A-Za-z0-9]/g] removed. *)
Definition onlyDigits (s : string) : string := removeIf (fun c => negb (isDigit c)) s.

Definition normalizePhoneE164 (phone : string) : string + string :=
  let digits := onlyDigits phone in
  let n := Z.of_nat (String.length digits) in
  if n <? 10 then inl "phone too short — include country code (e.g. 972…)"
  else if 15 <? n then inl "phone too long — max 15 digits"
  else match digits with
       | String "0" _ => inl "phone must start with country code, not a leading 0"
       | _ => inr digits
       end.

Definition formatPairingCode (raw : string) : string :=
  let chars := toUpperCase (removeIf (fun c => negb (isAlnum c)) raw) in
  if Nat.eqb (String.length chars) 8 then substring 0 4 chars +:+ "-" +:+ substring 4 4 chars else chars.

Section Session.
Context (dr : DisconnectReason) (jidNormalizedUser : string -> option string).

Definition extractAccountNumber (jid : string) : option string :=
  match jidNormalizedUser jid with
  | None => None
  | Some normalized => Some (before ":" (before "@" normalized))
  end.

Definition describeDisconnect (statusCode : option Z) (message : option string) : string :=
  let on c := oz_eqb statusCode (Some c) in
  if on (dr_loggedOut dr) then "logged_out"
  else if on (dr_connectionClosed dr) then "connection_closed"
  else if on (dr_connectionLost dr) then "connection_lost"
  else if on (dr_connectionReplaced dr) then "connection_replaced"
  else if on (dr_restartRequired dr) then "restart_required"
  else if on (dr_timedOut dr) then "timed_out"
  else if on (dr_badSession dr) then "bad_session"
  else match truthy message with Some m => m | None => "unknown" end.

Definition fail (reason : string) (now : Z) (s : Session) : Session * list SessionOutput :=
  let '(s', out) := transition (toFailed reason) now s in (s', out ++ [So_failed reason]).

(** [connection === "close"], up to the [await] of a reconnection. *)
Definition onClose (statusCode : option Z) (message : option string) (now : Z) (s : Session) : Session * list SessionOutput :=
  let isLoggedOut := oz_eqb statusCode (Some (dr_loggedOut dr)) in
  let reason := describeDisconnect statusCode message in
  if bool_decide (pt_phase (se_state s) = Ph_authenticated) || isLoggedOut then
    if bool_decide (pt_phase (se_state s) = Ph_failed) then (s, []) else fail reason now s
  else if Nat.leb MAX_RECONNECTS (se_reconnectAttempts s) then fail reason now s
  else (withWaits (se_waits s ++ [Wt_close (se_queued s)]) (withAttempts (S (se_reconnectAttempts s)) s), []).

Definition onConnection (c : option Connection) (now : Z) (s : Session) : Session * list SessionOutput :=
  match c with
  | None => (s, [])
  | Some Cx_connecting =>
      if bool_decide (pt_phase (se_state s) = Ph_idle) then transition toAuthenticating now s else (s, [])
  | Some Cx_open => (withWaits (se_waits s ++ [Wt_open (se_queued s)]) (withAttempts 0 s), [])
  | Some (Cx_close statusCode message) => onClose statusCode message now s
  end.

(** [handleConnectionUpdate], up to its [await]. *)
Definition handleConnectionUpdate (u : ConnectionUpdate) (now : Z) (s : Session) : Session * list SessionOutput :=
  let '(s1, out1) := match truthy (cu_qr u) with Some qr => transition (toQr qr now) now s | None => (s, []) end in
  let '(s2, out2) := onConnection (cu_connection u) now s1 in
  (s2, out1 ++ out2).

(** The rest of an [open], once the saves are flushed; [meId] is [sock.user.id]. *)
Definition afterOpen (meId : option string) (now : Z) (s : Session) : Session * list SessionOutput :=
  if se_authenticatedEmitted s then (s, [])
  else
    let accountId := match truthy (if se_sock s then meId else None) with Some id => extractAccountNumber id | None => None end in
    let '(s', out) := transition (toAuthenticated accountId) now (withEmitted s) in
    (s', out ++ [So_authenticated accountId]).

Definition startSession (s : Session) : Session := if se_started s then s else beginConnect s.

(** [requestPairingCode] once [start] has resolved, up to the socket's answer, and after it. *)
Definition requestPairingCode (phone : string) (s : Session) : Session * list SessionOutput :=
  if negb (se_sock s) then (s, [So_codeRefused "socket not initialized"])
  else if bool_decide (pt_phase (se_state s) = Ph_authenticated) then (s, [So_codeRefused "already authenticated"])
  else match normalizePhoneE164 phone with
       | inl message => (s, [So_codeRefused message])
       | inr _ => (withWaits (se_waits s ++ [Wt_code]) s, [])
       end.
Definition afterCode (answer : string + string) (now : Z) (s : Session) : Session * list SessionOutput :=
  match answer with
  | inl message => (s, [So_codeRefused message])
  | inr code =>
      let formatted := formatPairingCode code in
      let '(s', out) := transition (toCode formatted now) now s in (s', out ++ [So_code formatted])
  end.

Inductive SessionEvent :=
| Se_start
| Se_connected (ok : bool)
| Se_creds
| Se_saved
| Se_update (u : ConnectionUpdate)
| Se_requestCode (phone : string)
(** the suspended handler number [i] goes on *)
| Se_opened (i : nat) (meId : option string)
| Se_closed (i : nat)
| Se_codeAnswer (i : nat) (answer : string + string).

Definition removeWait (i : nat) (s : Session) : Session := withWaits (delete i (se_waits s)) s.

Definition sessionStep (e : SessionEvent) (now : Z) (s : Session) : option (Session * list SessionOutput) :=
  match e with
  | Se_start => Some (startSession s, [])
  | Se_connected ok => match se_connecting s with O => None | _ => Some (endConnect ok s, []) end
  | Se_creds => match se_made s with O => None | _ => Some (withSaves (S (se_queued s)) (se_saved s) s, []) end
  | Se_saved => if Nat.ltb (se_saved s) (se_queued s) then Some (withSaves (se_queued s) (S (se_saved s)) s, []) else None
  | Se_update u => match se_made s with O => None | _ => Some (handleConnectionUpdate u now s) end
  | Se_requestCode phone => match se_made s with O => None | _ => Some (requestPairingCode phone s) end
  | Se_opened i meId =>
      match se_waits s !! i with
      | Some (Wt_open target) => if Nat.leb target (se_saved s) then Some (afterOpen meId now (removeWait i s)) else None
      | _ => None
      end
  | Se_closed i =>
      match se_waits s !! i with
      | Some (Wt_close target) => if Nat.leb target (se_saved s) then Some (beginConnect (dropSock (removeWait i s)), []) else None
      | _ => None
      end
  | Se_codeAnswer i answer =>
      match se_waits s !! i with Some Wt_code => Some (afterCode answer now (removeWait i s)) | _ => None end
  end.
End Session.

(** ** auth.ts, routes/pair.ts *)
Definition isAuthorized (header : option string) (expected : string) : bool :=
  match header with
  | Some h => match stripPrefix "Bearer " h with Some candidate => str_eqb candidate expected | None => false end
  | None => false
  end.

Record PairStatusBody := mkStatusBody {
  sb_phase : PairingPhase;
  sb_accountId : option string;
  sb_reason : option string;
  sb_qrAvailable : bool;
  sb_codeAvailable : bool;
  sb_qrExpiresAt : option Z;
  sb_codeExpiresAt : option Z;
  sb_updatedAt : Z;
}.

Definition toStatusBody (st : PairingState) : PairStatusBody :=
  mkStatusBody (pt_phase st) (pt_accountId st) (pt_reason st)
    (isSome (truthy (pt_qr st)) && bool_decide (pt_phase st = Ph_awaiting_qr))
    (isSome (truthy (pt_pairingCode st)) && bool_decide (pt_phase st = Ph_awaiting_code))
    (pt_qrExpiresAt st) (pt_pairingCodeExpiresAt st) (pt_updatedAt st).

(** The code of the answer, and the code to scan with its end. *)
Inductive QrReply := Qr_alreadyAuthenticated | Qr_notReady | Qr_shown (raw : string) (expiresAt : option Z).
Definition qrStatus (r : QrReply) : Z :=
  match r with Qr_alreadyAuthenticated => 409 | Qr_notReady => 425 | Qr_shown _ _ => 200 end.
Definition qrReply (st : PairingState) : QrReply :=
  if bool_decide (pt_phase st = Ph_authenticated) then Qr_alreadyAuthenticated
  else match truthy (pt_qr st) with None => Qr_notReady | Some raw => Qr_shown raw (pt_qrExpiresAt st) end.

(** [phone: z.string().trim().regex(/^\+?[1-9]\d{9,14}$/)]. *)
Definition SidecarPhoneBody : Schema string :=
  field "phone" (fun j => match j with
    | JStr s => if isPairPhone (trim s) then Some (trim s) else None
    | _ => None
    end).

(** ** completion.ts *)
Definition MAX_TAR_BYTES : Z := 8 * 1024 * 1024.
Definition UPLOAD_MAX_ATTEMPTS : nat := 3.

(** [tarDirectoryToBuffer]: the chunks of the archive; [None] when it grows too big. *)
Fixpoint tarDirectoryToBuffer (bytes : Z) (chunks : list string) : option string :=
  match chunks with
  | [] => Some ""
  | chunk :: rest =>
      let bytes' := bytes + Z.of_nat (String.length chunk) in
      if MAX_TAR_BYTES <? bytes' then None
      else option_map (fun blob => chunk +:+ blob) (tarDirectoryToBuffer bytes' rest)
  end.

(** The answer to one POST: [None] is a network error or a timeout. *)
Inductive PostOutcome := Po_done | Po_rejected | Po_failed.
Definition postOnce (answer : option Z) : PostOutcome :=
  match answer with
  | None => Po_failed
  | Some status =>
      if (200 <=? status) && (status <=? 299) then Po_done
      else if (400 <=? status) && (status <? 500) then Po_rejected
      else Po_failed
  end.

(** ** server.ts *)

(** Where [notifyOrchestratorOfCompletion] is: reading the directory, the POST number
    [attempt] under way, or the pause after it. *)
Inductive CredsUpload :=
| Ul_none
| Ul_taring (accountId : option string)
| Ul_posting (accountId : option string) (blob : string) (attempt : nat)
| Ul_pausing (accountId : option string) (blob : string) (attempt : nat)
| Ul_over.

Inductive Exit := Ex_code (code : Z) | Ex_signal.

Record Process := mkProcess {
  pr_session : Session;
  (** the instant the idle timer fires, when it is set *)
  pr_idle : option Z;
  (** [let shuttingDown = false] has been executed *)
  pr_declared : bool;
  (** [shutdown] under way: its code, and the saves it waits for *)
  pr_shutdown : option (Z * nat);
  pr_upload : CredsUpload;
  pr_exit : option Exit;
}.

Inductive ProcessOutput :=
| Out_post (accountId : option string) (blob : string)
| Out_reply (r : SessionOutput).

Definition withBaileys (s : Session) (p : Process) : Process :=
  mkProcess s (pr_idle p) (pr_declared p) (pr_shutdown p) (pr_upload p) (pr_exit p).
Definition withIdle (t : option Z) (p : Process) : Process :=
  mkProcess (pr_session p) t (pr_declared p) (pr_shutdown p) (pr_upload p) (pr_exit p).
Definition withUpload (u : CredsUpload) (p : Process) : Process :=
  mkProcess (pr_session p) (pr_idle p) (pr_declared p) (pr_shutdown p) u (pr_exit p).
Definition withExit (e : Exit) (p : Process) : Process :=
  mkProcess (pr_session p) (pr_idle p) (pr_declared p) (pr_shutdown p) (pr_upload p) (Some e).
Definition declared (p : Process) : Process :=
  mkProcess (pr_session p) (pr_idle p) true (pr_shutdown p) (pr_upload p) (pr_exit p).
Definition shuttingDown (code : Z) (p : Process) : Process :=
  mkProcess (pr_session p) None (pr_declared p) (Some (code, se_queued (pr_session p))) (pr_upload p) (pr_exit p).

(** [shutdown(code)], up to its first [await].  Before the declaration of its flag the
    call throws, and the rejection nobody handles ends the process with code 1. *)
Definition shutdown (code : Z) (p : Process) : Process :=
  if negb (pr_declared p) then withExit (Ex_code 1) p
  else match pr_shutdown p with Some _ => p | None => shuttingDown code p end.

Section Process.
Context (dr : DisconnectReason) (jidNormalizedUser : string -> option string).
Context (authToken : string) (idleTimeoutMs : Z).

Definition newProcess (now : Z) : Process :=
  mkProcess (startSession (newSession now)) (Some (now + idleTimeoutMs)) false None Ul_none None.

(** The listeners of [server.ts], called as the session emits. *)
Definition onOutput (p : Process) (o : SessionOutput) : Process :=
  match o with
  | So_authenticated accountId => withUpload (Ul_taring accountId) (withIdle None p)
  | So_failed _ => shutdown 1 p
  | So_state _ | So_code _ | So_codeRefused _ => p
  end.

Definition replies (out : list SessionOutput) : list ProcessOutput :=
  omap (fun o => match o with So_code _ | So_codeRefused _ => Some (Out_reply o) | _ => None end) out.

(** The end of [notifyOrchestratorOfCompletion]. *)
Definition uploaded (code : Z) (p : Process) : Process := shutdown code (withUpload Ul_over p).

Definition onTar (r : option (list string)) (accountId : option string) (p : Process) : Process * list ProcessOutput :=
  match match r with Some chunks => tarDirectoryToBuffer 0 chunks | None => None end with
  | None | Some "" => (uploaded 1 p, [])
  | Some blob => (withUpload (Ul_posting accountId blob 1) p, [Out_post accountId blob])
  end.

Definition onAnswer (answer : option Z) (accountId : option string) (blob : string) (attempt : nat) (p : Process) : Process :=
  match postOnce answer with
  | Po_done => uploaded 0 p
  | Po_rejected => uploaded 1 p
  | Po_failed => if Nat.ltb attempt UPLOAD_MAX_ATTEMPTS then withUpload (Ul_pausing accountId blob attempt) p else uploaded 1 p
  end.

Inductive ProcessEvent :=
| Ev_session (e : SessionEvent)
| Ev_listening
| Ev_request (path : string) (authorization : option string)
| Ev_idle
(** the archive: its chunks, or an error of the stream *)
| Ev_tar (r : option (list string))
| Ev_answer (answer : option Z)
| Ev_backoff
| Ev_signal
| Ev_exit.

Definition routePath (rawUrl : string) : string := before "?" rawUrl.

(** The two [onRequest] hooks. *)
Definition onRequestHooks (path : string) (authorization : option string) (now : Z) (p : Process) : Process :=
  if str_eqb (routePath path) "/healthz" then p
  else if negb (isAuthorized authorization authToken) then p
  else if bool_decide (pt_phase (se_state (pr_session p)) = Ph_authenticated) then p
  else withIdle (Some (now + idleTimeoutMs)) p.

(** [session.start()] that fails ends the process; the reconnections that fail are logged. *)
Definition startFails (e : SessionEvent) (p : Process) : bool :=
  match e with Se_connected false => Nat.eqb (se_made (pr_session p)) 0 | _ => false end.

Definition processStep (e : ProcessEvent) (now : Z) (p : Process) : option (Process * list ProcessOutput) :=
  match pr_exit p with
  | Some _ => None
  | None =>
      match e with
      | Ev_session e' =>
          if startFails e' p then Some (withExit (Ex_code 1) p, [])
          else match sessionStep dr jidNormalizedUser e' now (pr_session p) with
               | Some (s, out) => Some (fold_left onOutput out (withBaileys s p), replies out)
               | None => None
               end
      | Ev_listening => if Nat.ltb 0 (se_made (pr_session p)) then Some (declared p, []) else None
      | Ev_request path authorization =>
          if Nat.ltb 0 (se_made (pr_session p)) then Some (onRequestHooks path authorization now p, []) else None
      | Ev_idle =>
          match pr_idle p with
          | Some t => if t <=? now then Some (shutdown 1 (withIdle None p), []) else None
          | None => None
          end
      | Ev_tar r => match pr_upload p with Ul_taring accountId => Some (onTar r accountId p) | _ => None end
      | Ev_answer answer =>
          match pr_upload p with
          | Ul_posting accountId blob attempt => Some (onAnswer answer accountId blob attempt p, [])
          | _ => None
          end
      | Ev_backoff =>
          match pr_upload p with
          | Ul_pausing accountId blob attempt =>
              Some (withUpload (Ul_posting accountId blob (S attempt)) p, [Out_post accountId blob])
          | _ => None
          end
      | Ev_signal => Some (if pr_declared p then shutdown 0 p else withExit Ex_signal p, [])
      | Ev_exit =>
          match pr_shutdown p with
          | Some (code, target) => if Nat.leb target (se_saved (pr_session p)) then Some (withExit (Ex_code code) p, []) else None
          | None => None
          end
      end
  end.

(** A run, its events in order and what the process sent. *)
Inductive SidecarRun (t0 : Z) : list ProcessEvent -> list ProcessOutput -> Z -> Process -> Prop :=
| run_start : SidecarRun t0 [] [] t0 (newProcess t0)
| run_step tr out t p e now p' out' :
    SidecarRun t0 tr out t p -> t <= now -> processStep e now p = Some (p', out') ->
    SidecarRun t0 (tr ++ [e]) (out ++ out') now p'.
End Process.

(** ** The session *)
Section SessionFacts.
Context (dr : DisconnectReason) (jidNormalizedUser : string -> option string).
Abbreviation sstep := (sessionStep dr jidNormalizedUser).

Lemma transition_keeps patch now s :
  let s' := (transition patch now s).1 in
  se_queued s' = se_queued s /\ se_saved s' = se_saved s /\ se_authenticatedEmitted s' = se_authenticatedEmitted s /\
  se_reconnectAttempts s' = se_reconnectAttempts s /\ se_waits s' = se_waits s /\ se_made s' = se_made s /\
  se_connecting s' = se_connecting s.
Proof. repeat split. Qed.

(** How many [authenticated] and [failed] an output holds. *)
Definition isAuth (o : SessionOutput) : bool := match o with So_authenticated _ => true | _ => false end.
Definition isFail (o : SessionOutput) : bool := match o with So_failed _ => true | _ => false end.
Definition auths (out : list SessionOutput) : nat := length (List.filter isAuth out).

Lemma auths_app a b : auths (a ++ b) = (auths a + auths b)%nat.
Proof. unfold auths. rewrite List.filter_app, length_app. reflexivity. Qed.

(** An update of the connection emits no [authenticated]. *)
Lemma connection_silent c now s s' out : onConnection dr c now s = (s', out) ->
  auths out = 0%nat /\ se_authenticatedEmitted s' = se_authenticatedEmitted s.
Proof.
  destruct c as [[| |code m]|]; cbn [onConnection]; unfold onClose, fail, transition; repeat case_match;
    intros [= <- <-]; split; reflexivity.
Qed.

Lemma update_silent u now s s' out : handleConnectionUpdate dr u now s = (s', out) ->
  auths out = 0%nat /\ se_authenticatedEmitted s' = se_authenticatedEmitted s.
Proof.
  unfold handleConnectionUpdate, transition.
  destruct (truthy (cu_qr u)); cbn zeta; destruct (onConnection _ _ _ _) as [s2 o2] eqn:E; intros [= <- <-];
    destruct (connection_silent _ _ _ _ _ E) as [H1 H2]; (split; [exact H1 | exact H2]).
Qed.

(** What one step does to the flag, by its outputs. *)
Lemma step_flag e now s s' out : sstep e now s = Some (s', out) ->
  (auths out = 0%nat /\ se_authenticatedEmitted s' = se_authenticatedEmitted s) \/
  (auths out = 1%nat /\ se_authenticatedEmitted s = false /\ se_authenticatedEmitted s' = true).
Proof.
  destruct e; cbn [sessionStep].
  - intros [= <- <-]. left. unfold startSession. destruct (se_started s); split; reflexivity.
  - case_match; [discriminate|]. intros [= <- <-]. left. split; reflexivity.
  - case_match; [discriminate|]. intros [= <- <-]. left. split; reflexivity.
  - case_match; [|discriminate]. intros [= <- <-]. left. split; reflexivity.
  - case_match; [discriminate|]. intros [= E]. left. exact (update_silent _ _ _ _ _ E).
  - case_match; [discriminate|]. intros HX. left. revert HX. unfold requestPairingCode. repeat case_match; intros [= <- <-]; split; reflexivity.
  - repeat case_match; try discriminate. intros [= HX]. revert HX. unfold afterOpen.
    change (se_authenticatedEmitted (removeWait i s)) with (se_authenticatedEmitted s).
    destruct (se_authenticatedEmitted s) eqn:E; [intros [= <- <-]; left; split; [reflexivity | exact E]|].
    unfold transition. intros [= <- <-]. right. repeat split.
  - repeat case_match; try discriminate. intros [= <- <-]. left. split; reflexivity.
  - repeat case_match; try discriminate. intros [= HX]. left. revert HX. unfold afterCode, transition.
    destruct answer; intros [= <- <-]; split; reflexivity.
Qed.
End SessionFacts.

(** ** Runs of a session *)
Section SessionRuns.
Context (dr : DisconnectReason) (jidNormalizedUser : string -> option string).
Abbreviation sstep := (sessionStep dr jidNormalizedUser).

Inductive SessionRun (t0 : Z) : list SessionEvent -> list SessionOutput -> Session -> Prop :=
| srun_start : SessionRun t0 [] [] (newSession t0)
| srun_step tr out s e now s' out' :
    SessionRun t0 tr out s -> sstep e now s = Some (s', out') -> SessionRun t0 (tr ++ [e]) (out ++ out') s'.

Definition isCreds (e : SessionEvent) : bool := match e with Se_creds => true | _ => false end.
Definition isSaved (e : SessionEvent) : bool := match e with Se_saved => true | _ => false end.
Definition isOpen (e : SessionEvent) : bool :=
  match e with Se_update u => match cu_connection u with Some Cx_open => true | _ => false end | _ => false end.
Definition countEv (p : SessionEvent -> bool) (tr : list SessionEvent) : nat := length (List.filter p tr).

Lemma countEv_app p a b : countEv p (a ++ b) = (countEv p a + countEv p b)%nat.
Proof. unfold countEv. rewrite List.filter_app, length_app. reflexivity. Qed.

(** An [open] before which [target] saves were queued. *)
Definition openedAt (tr : list SessionEvent) (target : nat) : Prop :=
  exists before e after, tr = before ++ e :: after /\ isOpen e = true /\ countEv isCreds before = target.

Lemma openedAt_app tr e target : openedAt tr target -> openedAt (tr ++ [e]) target.
Proof. intros (b & x & a & -> & H). exists b, x, (a ++ [e]). rewrite <- app_assoc. split; [reflexivity | exact H]. Qed.

(** What one step does to the two counters and the suspended handlers. *)
Definition addedWaits (e : SessionEvent) (s s' : Session) : Prop :=
  forall w, w ∈ se_waits s' -> w ∈ se_waits s \/
    match w with Wt_open target => isOpen e = true /\ target = se_queued s | _ => True end.

Lemma addedWaits_same e s s' : se_waits s' = se_waits s -> addedWaits e s s'.
Proof. intros E w. rewrite E. left. assumption. Qed.
Lemma addedWaits_delete e s s' i : se_waits s' = delete i (se_waits s) -> addedWaits e s s'.
Proof. intros E w. rewrite E. intros Hin. left. eapply list_elem_of_delete_inv, Hin. Qed.

Lemma update_counters u now s :
  let s' := (handleConnectionUpdate dr u now s).1 in
  se_queued s' = se_queued s /\ se_saved s' = se_saved s /\ addedWaits (Se_update u) s s'.
Proof.
  unfold handleConnectionUpdate, transition.
  assert (H : forall s0, se_waits s0 = se_waits s -> se_queued s0 = se_queued s -> se_saved s0 = se_saved s ->
    let s2 := (onConnection dr (cu_connection u) now s0).1 in
    se_queued s2 = se_queued s /\ se_saved s2 = se_saved s /\ addedWaits (Se_update u) s s2).
  { intros s0 Hw Hq Hs. unfold addedWaits, isOpen. rewrite <- Hw, <- Hq, <- Hs.
    destruct (cu_connection u) as [[| |c m]|]; cbn [onConnection]; unfold onClose, fail, transition; repeat case_match;
      cbn [fst se_waits se_queued se_saved withWaits withAttempts withState]; repeat split; intros w Hin;
      try (left; exact Hin); apply elem_of_app in Hin as [Hin | Hin]; try (left; exact Hin);
      apply list_elem_of_singleton in Hin; subst w; right; try split; trivial. }
  destruct (truthy (cu_qr u)); cbn zeta;
    match goal with |- context [onConnection dr ?c ?n ?x] =>
      pose proof (H x eq_refl eq_refl eq_refl) as HU; cbn zeta in HU; destruct (onConnection dr c n x) end; exact HU.
Qed.

Lemma step_counters e now s s' out : sstep e now s = Some (s', out) ->
  se_queued s' = (se_queued s + countEv isCreds [e])%nat /\
  se_saved s' = (se_saved s + countEv isSaved [e])%nat /\
  addedWaits e s s'.
Proof.
  destruct e; cbn [sessionStep]; unfold countEv; cbn [List.filter isCreds isSaved length]; rewrite ?Nat.add_0_r, ?Nat.add_1_r.
  - intros [= <- <-]. unfold startSession. destruct (se_started s); repeat split; apply addedWaits_same; reflexivity.
  - case_match; [discriminate|]. intros [= <- <-]. repeat split; apply addedWaits_same; reflexivity.
  - case_match; [discriminate|]. intros [= <- <-]. repeat split; apply addedWaits_same; reflexivity.
  - case_match; [|discriminate]. intros [= <- <-]. repeat split; apply addedWaits_same; reflexivity.
  - case_match; [discriminate|]. intros [= E]. pose proof (update_counters u now s) as HX. rewrite E in HX. exact HX.
  - case_match; [discriminate|]. intros HX. revert HX. unfold requestPairingCode.
    repeat case_match; intros [= <- <-]; repeat split; try (apply addedWaits_same; reflexivity).
    intros w Hin. apply elem_of_app in Hin as [Hin | Hin]; [left; exact Hin|].
    apply list_elem_of_singleton in Hin. subst w. right. trivial.
  - repeat case_match; try discriminate. intros [= HX]. revert HX. unfold afterOpen, transition.
    repeat case_match; intros [= <- <-]; repeat split; apply (addedWaits_delete _ _ _ i); reflexivity.
  - repeat case_match; try discriminate. intros [= <- <-]. repeat split; apply (addedWaits_delete _ _ _ i); reflexivity.
  - repeat case_match; try discriminate. intros [= HX]. revert HX. unfold afterCode, transition.
    repeat case_match; intros [= <- <-]; repeat split; apply (addedWaits_delete _ _ _ i); reflexivity.
Qed.

(** Only the end of an [open] whose saves are written emits [authenticated]. *)
Lemma step_authenticates e now s s' out : sstep e now s = Some (s', out) -> auths out <> 0%nat ->
  exists target, Wt_open target ∈ se_waits s /\ (target <= se_saved s)%nat.
Proof.
  intros H Ha. destruct e; cbn [sessionStep] in H;
    try (match type of H with context [afterOpen] => fail 1 | _ => exfalso; apply Ha; clear Ha; revert H end).
  - intros [= <- <-]. reflexivity.
  - case_match; [discriminate|]. intros [= <- <-]. reflexivity.
  - case_match; [discriminate|]. intros [= <- <-]. reflexivity.
  - case_match; [|discriminate]. intros [= <- <-]. reflexivity.
  - case_match; [discriminate|]. intros [= E]. exact (proj1 (update_silent _ _ _ _ _ _ E)).
  - case_match; [discriminate|]. unfold requestPairingCode. repeat case_match; intros [= <- <-]; reflexivity.
  - repeat case_match; try discriminate. exists target. split.
    + eapply list_elem_of_lookup_2. eassumption.
    + apply Nat.leb_le. assumption.
  - repeat case_match; try discriminate. intros [= <- <-]. reflexivity.
  - repeat case_match; try discriminate. unfold afterCode, transition. repeat case_match; intros [= <- <-]; reflexivity.
Qed.

Record SessionInv (tr : list SessionEvent) (out : list SessionOutput) (s : Session) : Prop := {
  si_flag : auths out = if se_authenticatedEmitted s then 1%nat else 0%nat;
  si_queued : se_queued s = countEv isCreds tr;
  si_saved : se_saved s = countEv isSaved tr;
  si_waits : forall target, Wt_open target ∈ se_waits s -> openedAt tr target;
  si_flushed : se_authenticatedEmitted s = true -> exists target, openedAt tr target /\ (target <= countEv isSaved tr)%nat;
}.

Lemma sessionInv t0 tr out s : SessionRun t0 tr out s -> SessionInv tr out s.
Proof.
  induction 1 as [|tr out s e now s' out' Hrun IH Hstep].
  { constructor; try reflexivity; [intros target H; apply list_elem_of_In in H; destruct H | discriminate]. }
  destruct IH as [Hf Hq Hs Hw Hfl]. destruct (step_counters _ _ _ _ _ Hstep) as (Hq' & Hs' & Hw').
  constructor.
  - rewrite auths_app, Hf. destruct (step_flag _ _ _ _ _ _ _ Hstep) as [[-> ->] | (-> & -> & ->)]; [lia | reflexivity].
  - rewrite countEv_app, Hq', Hq. reflexivity.
  - rewrite countEv_app, Hs', Hs. reflexivity.
  - intros target Hin. destruct (Hw' _ Hin) as [Hold | [Ho ->]]; [apply openedAt_app, Hw, Hold|].
    exists tr, e, []. rewrite Hq. repeat split; assumption.
  - intros He. destruct (se_authenticatedEmitted s) eqn:E.
    + destruct (Hfl eq_refl) as (target & Ho & Hle). exists target. split; [apply openedAt_app, Ho|].
      rewrite countEv_app. lia.
    + destruct (step_authenticates _ _ _ _ _ Hstep) as (target & Hin & Hle).
      { destruct (step_flag _ _ _ _ _ _ _ Hstep) as [[H1 H2] | (H1 & _ & _)]; [congruence | rewrite H1; discriminate]. }
      exists target. split; [apply openedAt_app, Hw, Hin|]. rewrite countEv_app, <- Hs. lia.
Qed.
End SessionRuns.
