(* ===== verification/SidecarProps.v ===== *)
(** What the pairing sidecar guarantees: the link is announced once and with the
    credentials on disk, reconnections and uploads are bounded, a process always ends, and
    code 0 means that the orchestrator has the credentials; with runs that can be evaluated
    and the behaviours they show. *)
From Stdlib Require Import Ascii.
From S2P Require Import Prelude JsString Substring Json Fleet OwnerAccess RouteSchemas PairingSidecar.
From stdpp Require Import list strings.
#[local] Open Scope Z_scope.

Section SessionTheorems.
Context (dr : DisconnectReason) (jidNormalizedUser : string -> option string).


(** Reconnections: what has been opened, is being opened or will be, against the attempts
    spent and the connections that worked. *)
Definition isCloseWait (w : Wait) : bool := match w with Wt_close _ => true | _ => false end.
Definition pendingCloses (s : Session) : nat := length (List.filter isCloseWait (se_waits s)).
Definition sockets (s : Session) : nat := (se_made s + se_connecting s + pendingCloses s)%nat.
Definition startedOnce (s : Session) : nat := if se_started s then 1 else 0.

Lemma pendingCloses_add s s' w : se_waits s' = se_waits s ++ [w] ->
  pendingCloses s' = (pendingCloses s + if isCloseWait w then 1 else 0)%nat.
Proof. intros E. unfold pendingCloses. rewrite E, List.filter_app, length_app. cbn. destruct (isCloseWait w); reflexivity. Qed.

Lemma pendingCloses_del s s' i w : se_waits s !! i = Some w -> se_waits s' = delete i (se_waits s) ->
  pendingCloses s = (pendingCloses s' + if isCloseWait w then 1 else 0)%nat.
Proof.
  unfold pendingCloses. intros H ->. rewrite <- (take_drop_middle _ _ _ H) at 1.
  rewrite delete_take_drop, !List.filter_app, !length_app. cbn [List.filter]. destruct (isCloseWait w); cbn [length]; lia.
Qed.

Record Budgeted (opens : nat) (s : Session) : Prop := {
  bg_attempts : (se_reconnectAttempts s <= MAX_RECONNECTS)%nat;
  bg_sockets : (sockets s <= startedOnce s + se_reconnectAttempts s + MAX_RECONNECTS * opens)%nat;
  bg_started : (0 < sockets s)%nat -> se_started s = true;
}.

(** A step that touches none of these. *)
Lemma budgeted_same opens s s' : Budgeted opens s -> se_reconnectAttempts s' = se_reconnectAttempts s ->
  se_made s' = se_made s -> se_connecting s' = se_connecting s -> se_waits s' = se_waits s -> se_started s' = se_started s ->
  Budgeted opens s'.
Proof.
  intros [H1 H2 H3] E1 E2 E3 E4 E5. unfold sockets, pendingCloses, startedOnce in *.
  constructor; unfold sockets, pendingCloses, startedOnce; rewrite ?E1, ?E2, ?E3, ?E4, ?E5; assumption.
Qed.

(** The end of a suspended handler that touches none of these. *)
Lemma budgeted_after opens s s' i w : Budgeted opens s -> se_waits s !! i = Some w -> isCloseWait w = false ->
  se_reconnectAttempts s' = se_reconnectAttempts s /\ se_made s' = se_made s /\ se_connecting s' = se_connecting s /\
  se_started s' = se_started s /\ se_waits s' = delete i (se_waits s) -> Budgeted opens s'.
Proof.
  intros [H1 H2 H3] Hi Hw (E1 & E2 & E3 & E4 & E5). pose proof (pendingCloses_del s s' i w Hi E5) as Hp. rewrite Hw in Hp. cbn [isCloseWait] in Hp.
  unfold sockets, startedOnce, MAX_RECONNECTS in *. constructor; unfold sockets, startedOnce, MAX_RECONNECTS; rewrite ?E1, ?E2, ?E3, ?E4; try lia.
  intros. apply H3. lia.
Qed.

Lemma budgeted_close opens code m now s : Budgeted opens s -> (0 < se_made s)%nat -> Budgeted opens (onClose dr code m now s).1.
Proof.
  intros B Hm. unfold onClose. destruct (bool_decide _ || _).
  { case_match; [exact B|]. eapply budgeted_same; [exact B | reflexivity..]. }
  destruct (Nat.leb _ _) eqn:E; [eapply budgeted_same; [exact B | reflexivity..]|].
  apply Nat.leb_gt in E. destruct B as [H1 H2 H3]. cbn [fst].
  match goal with |- Budgeted _ ?x => pose proof (pendingCloses_add s x _ eq_refl) as Hp; cbn [isCloseWait] in Hp end.
  unfold sockets, startedOnce, MAX_RECONNECTS in *. constructor; unfold sockets, startedOnce, MAX_RECONNECTS; rewrite ?Hp; cbn; try lia.
  intros _. apply H3. lia.
Qed.

Lemma budgeted_open opens s : Budgeted opens s ->
  Budgeted (S opens) (withWaits (se_waits s ++ [Wt_open (se_queued s)]) (withAttempts 0 s)).
Proof.
  intros [H1 H2 H3]. match goal with |- Budgeted _ ?x => pose proof (pendingCloses_add s x _ eq_refl) as Hp; cbn [isCloseWait] in Hp end.
  unfold sockets, startedOnce, MAX_RECONNECTS in *. constructor; unfold sockets, startedOnce, MAX_RECONNECTS; rewrite ?Hp; cbn; try lia.
  intros. apply H3. cbn in *. lia.
Qed.

Lemma budgeted_update opens u now s : Budgeted opens s -> (0 < se_made s)%nat ->
  Budgeted (opens + countEv isOpen [Se_update u]) (handleConnectionUpdate dr u now s).1.
Proof.
  intros B Hm. unfold handleConnectionUpdate, transition.
  assert (H : forall s0, Budgeted opens s0 -> (0 < se_made s0)%nat ->
    Budgeted (opens + countEv isOpen [Se_update u]) (onConnection dr (cu_connection u) now s0).1).
  { intros s0 B0 Hm0. unfold countEv. cbn [List.filter isOpen].
    destruct (cu_connection u) as [[| |c m]|]; cbn [length onConnection]; rewrite ?Nat.add_0_r.
    - case_match; [eapply budgeted_same; [exact B0 | reflexivity..] | exact B0].
    - rewrite Nat.add_1_r. apply budgeted_open, B0.
    - apply budgeted_close; assumption.
    - exact B0. }
  destruct (truthy (cu_qr u)); cbn zeta;
    match goal with |- context [onConnection dr ?c ?n ?x] =>
      assert (HB : Budgeted opens x) by (eapply budgeted_same; [exact B | reflexivity..]);
      specialize (H x HB Hm); destruct (onConnection dr c n x) end; exact H.
Qed.

Lemma budgeted_step opens e now s s' out : sessionStep dr jidNormalizedUser e now s = Some (s', out) ->
  Budgeted opens s -> Budgeted (opens + countEv isOpen [e]) s'.
Proof.
  intros H B. destruct e; cbn [sessionStep] in H; try (change (countEv isOpen _) with 0%nat; rewrite Nat.add_0_r).
  - injection H as <- <-. unfold startSession. destruct (se_started s) eqn:E; [exact B|].
    destruct B as [H1 H2 H3]. constructor; [exact H1| |reflexivity].
    assert (sockets s = 0)%nat by (destruct (sockets s); [reflexivity | specialize (H3 ltac:(lia)); congruence]).
    change (sockets (beginConnect s)) with (se_made s + S (se_connecting s) + pendingCloses s)%nat.
    unfold sockets in *. cbn [startedOnce se_started beginConnect se_reconnectAttempts]. unfold startedOnce. cbn. lia.
  - destruct (se_connecting s) eqn:E; [discriminate|]. injection H as <- <-. destruct B as [H1 H2 H3].
    unfold sockets, startedOnce, pendingCloses in *. constructor; unfold sockets, startedOnce, pendingCloses; cbn in *;
      rewrite ?E in *; cbn; destruct ok; try lia; intros; apply H3; lia.
  - case_match; [discriminate|]. injection H as <- <-. eapply budgeted_same; [exact B | reflexivity..].
  - case_match; [|discriminate]. injection H as <- <-. eapply budgeted_same; [exact B | reflexivity..].
  - destruct (se_made s) eqn:E; [discriminate|]. injection H as H. apply (f_equal fst) in H; cbn [fst] in H; rewrite <- H. apply budgeted_update; [exact B | lia].
  - case_match; [discriminate|]. injection H as H. apply (f_equal fst) in H; cbn [fst] in H; rewrite <- H. unfold requestPairingCode.
    repeat case_match; try exact B. destruct B as [B1 B2 B3]. cbn [fst].
    match goal with |- Budgeted _ ?x => pose proof (pendingCloses_add s x _ eq_refl) as Hp; cbn [isCloseWait] in Hp end.
    unfold sockets, startedOnce, MAX_RECONNECTS in *. constructor; unfold sockets, startedOnce, MAX_RECONNECTS; rewrite ?Hp; cbn; [exact B1 | lia|].
    intros. apply B3. cbn in *. lia.
  - repeat case_match; try discriminate. injection H as H. eapply budgeted_after; [exact B | eassumption | reflexivity|].
    unfold afterOpen, transition in H. revert H. repeat case_match; intros [= <- _]; repeat split.
  - repeat case_match; try discriminate. injection H as <- <-. destruct B as [B1 B2 B3].
    match goal with HL : _ !! _ = _ |- Budgeted _ ?x => pose proof (pendingCloses_del s x _ _ HL eq_refl) as Hp; cbn [isCloseWait] in Hp end.
    unfold sockets, startedOnce, MAX_RECONNECTS in *.
    constructor; unfold sockets, startedOnce, MAX_RECONNECTS; cbn in *; destruct (se_started s); lia || reflexivity.
  - repeat case_match; try discriminate. injection H as H. eapply budgeted_after; [exact B | eassumption | reflexivity|].
    unfold afterCode, transition in H. revert H. repeat case_match; intros [= <- _]; repeat split.
Qed.

Lemma budgeted_run t0 tr out s : SessionRun dr jidNormalizedUser t0 tr out s -> Budgeted (countEv isOpen tr) s.
Proof.
  induction 1 as [|tr out s e now s' out' Hrun IH Hstep]; [constructor; cbn; lia|].
  rewrite countEv_app. eapply budgeted_step; eassumption.
Qed.

(** However the connection fails, the sidecar opens at most six sockets, and five more
    for each connection that worked. *)
Theorem sockets_bounded t0 tr out s : SessionRun dr jidNormalizedUser t0 tr out s ->
  (se_made s <= 1 + MAX_RECONNECTS * S (countEv isOpen tr))%nat.
Proof.
  intros H. apply budgeted_run in H as [H1 H2 _]. unfold sockets, startedOnce in H2.
  unfold MAX_RECONNECTS in *. destruct (se_started s); lia.
Qed.
End SessionTheorems.

(** ** The process *)
Section ProcessFacts.
Context (dr : DisconnectReason) (jidNormalizedUser : string -> option string).
Context (authToken : string) (idleTimeoutMs : Z).
Abbreviation pstep := (processStep dr jidNormalizedUser authToken idleTimeoutMs).
Abbreviation Run := (SidecarRun dr jidNormalizedUser authToken idleTimeoutMs).

Definition uploading (p : Process) : bool :=
  match pr_upload p with Ul_taring _ | Ul_posting _ _ _ | Ul_pausing _ _ _ => true | Ul_none | Ul_over => false end.

(** A signal came, or the orchestrator accepted the credentials. *)
Definition isSignal (e : ProcessEvent) : bool := match e with Ev_signal => true | _ => false end.
Definition isAccepted (e : ProcessEvent) : bool :=
  match e with Ev_answer answer => match postOnce answer with Po_done => true | _ => false end | _ => false end.
Definition mayEndWell (tr : list ProcessEvent) : bool := List.existsb isSignal tr || List.existsb isAccepted tr.

(** A process that goes on has a timer, an upload or a shutdown; code 0 is deserved; the
    timer is never more than the timeout away. *)
Definition alive (p : Process) : Prop :=
  pr_exit p = None -> pr_idle p <> None \/ uploading p = true \/ pr_shutdown p <> None.
Definition wellEnding (ok : bool) (p : Process) : Prop :=
  (forall target, pr_shutdown p = Some (0, target) -> ok = true) /\ (pr_exit p = Some (Ex_code 0) -> ok = true).
Definition timerWithin (now : Z) (p : Process) : Prop := forall t, pr_idle p = Some t -> t <= now + idleTimeoutMs.

Lemma shutdown_alive code p : alive (shutdown code p).
Proof.
  unfold alive, shutdown. destruct (pr_declared p); cbn; [|discriminate].
  destruct (pr_shutdown p) eqn:E; cbn; intros _; right; right; [rewrite E|]; discriminate.
Qed.

Lemma shutdown_wellEnding ok code p : wellEnding ok p -> (code = 0 -> ok = true) -> wellEnding ok (shutdown code p).
Proof.
  unfold wellEnding, shutdown. intros [H1 H2] Hc. destruct (pr_declared p); cbn.
  - destruct (pr_shutdown p) eqn:E; cbn; [rewrite E; split; assumption|].
    split; [intros target [= -> _]; apply Hc; reflexivity | exact H2].
  - split; [exact H1 | discriminate].
Qed.

Lemma shutdown_timer now code p : timerWithin now p -> timerWithin now (shutdown code p).
Proof. unfold timerWithin, shutdown. intros H. destruct (pr_declared p), (pr_shutdown p) eqn:E; cbn; try exact H; discriminate. Qed.

Lemma shutdown_keeps code p : pr_upload (shutdown code p) = pr_upload p /\ pr_session (shutdown code p) = pr_session p.
Proof. unfold shutdown. destruct (pr_declared p), (pr_shutdown p); split; reflexivity. Qed.

(** The listeners keep what the process promises. *)
Record SoundProcess (ok : bool) (now : Z) (p : Process) : Prop := {
  sd_alive : alive p;
  sd_ending : wellEnding ok p;
  sd_timer : timerWithin now p;
}.

Lemma shutdown_sound ok now code p : wellEnding ok p -> timerWithin now p -> (code = 0 -> ok = true) -> SoundProcess ok now (shutdown code p).
Proof. intros. constructor; [apply shutdown_alive | apply shutdown_wellEnding | apply shutdown_timer]; assumption. Qed.

Lemma onOutput_sound ok now p o : SoundProcess ok now p -> SoundProcess ok now (onOutput p o).
Proof.
  intros [Ha He Ht]. destruct o; cbn [onOutput]; try (constructor; assumption).
  - constructor; [intros _; right; left; reflexivity | exact He | discriminate].
  - apply shutdown_sound; [exact He | exact Ht | discriminate].
Qed.

Lemma outputs_sound ok now out p : SoundProcess ok now p -> SoundProcess ok now (fold_left onOutput out p).
Proof. revert p. induction out as [|o l IH]; intros p H; [exact H|]. apply IH, onOutput_sound, H. Qed.

(** What they do to the upload. *)
Lemma outputs_upload out : forall p,
  pr_session (fold_left onOutput out p) = pr_session p /\
  (pr_upload (fold_left onOutput out p) = pr_upload p \/
   (auths out <> 0%nat /\ exists a, pr_upload (fold_left onOutput out p) = Ul_taring a)).
Proof.
  induction out as [|o l IH]; intros p; [split; [|left]; reflexivity|]. cbn [fold_left].
  destruct (IH (onOutput p o)) as [E1 E2].
  assert (HO : pr_session (onOutput p o) = pr_session p /\
    (pr_upload (onOutput p o) = pr_upload p \/ (isAuth o = true /\ exists a, pr_upload (onOutput p o) = Ul_taring a))).
  { destruct o; cbn; try (split; [|left]; reflexivity); [split; [reflexivity|]; right; eauto|].
    destruct (shutdown_keeps 1 p) as [F1 F2]. split; [exact F2 | left; exact F1]. }
  destruct HO as [F1 F2]. split; [congruence|].
  unfold auths. cbn [List.filter]. fold (auths l). destruct E2 as [E2 | [E2 E3]].
  - rewrite E2. destruct F2 as [F2 | [F2 F3]]; [left; exact F2 | right; rewrite F2; split; [discriminate | exact F3]].
  - right. split; [|exact E3]. destruct (isAuth o); cbn; [discriminate | exact E2].
Qed.

Lemma mayEndWell_app tr e : mayEndWell (tr ++ [e]) = mayEndWell tr || isSignal e || isAccepted e.
Proof.
  unfold mayEndWell. rewrite !List.existsb_app. cbn. rewrite !orb_false_r.
  destruct (List.existsb isSignal tr), (List.existsb isAccepted tr), (isSignal e), (isAccepted e); reflexivity.
Qed.

Lemma wellEnding_mono ok ok' p : (ok = true -> ok' = true) -> wellEnding ok p -> wellEnding ok' p.
Proof. intros H [H1 H2]. split; [intros t E; eapply H, H1, E | intros E; apply H, H2, E]. Qed.

Lemma uploaded_sound ok now code p : wellEnding ok p -> timerWithin now p -> (code = 0 -> ok = true) -> SoundProcess ok now (uploaded code p).
Proof. intros [H1 H2] Ht Hc. apply shutdown_sound; [split; [exact H1 | exact H2] | exact Ht | exact Hc]. Qed.

Lemma step_sound tr t e now p p' out : pstep e now p = Some (p', out) -> t <= now ->
  SoundProcess (mayEndWell tr) t p -> SoundProcess (mayEndWell (tr ++ [e])) now p'.
Proof.
  intros H Ht [Ha He Hi].
  assert (He' : wellEnding (mayEndWell (tr ++ [e])) p).
  { eapply wellEnding_mono; [|exact He]. rewrite mayEndWell_app. intros ->. reflexivity. }
  assert (Hi' : timerWithin now p) by (intros x E; specialize (Hi x E); lia).
  unfold processStep in H. destruct (pr_exit p) eqn:Ex; [discriminate|].
  destruct e as [e'| |path auth| |r|answer| | |].
  - destruct (startFails e' p).
    { injection H as <- <-. constructor; [discriminate | split; [exact (proj1 He') | discriminate] | exact Hi']. }
    destruct (sessionStep _ _ _ _ _) as [[s o]|]; [|discriminate]. injection H as <- <-. apply outputs_sound.
    constructor; [exact Ha | exact He' | exact Hi'].
  - destruct (Nat.ltb _ _); [|discriminate]. injection H as <- <-. constructor; [exact Ha | exact He' | exact Hi'].
  - destruct (Nat.ltb _ _); [|discriminate]. injection H as <- <-. unfold onRequestHooks.
    repeat case_match; try (constructor; assumption).
    constructor; [intros _; left; discriminate | exact He' | intros x [= <-]; lia].
  - destruct (pr_idle p) as [x|]; [|discriminate]. destruct (x <=? now); [|discriminate]. injection H as <- <-.
    apply shutdown_sound; [exact He' | discriminate | discriminate].
  - destruct (pr_upload p) eqn:Eu; try discriminate. injection H as H. unfold onTar in H. revert H.
    assert (HU : SoundProcess (mayEndWell (tr ++ [Ev_tar r])) now (uploaded 1 p)) by (apply uploaded_sound; [assumption.. | discriminate]).
    repeat case_match; intros [= <- <-];
      first [exact HU | constructor; [intros _; right; left; reflexivity | exact He' | exact Hi']].
  - destruct (pr_upload p) eqn:Eu; try discriminate. injection H as <- <-. unfold onAnswer.
    destruct (postOnce answer) eqn:Ep.
    + apply uploaded_sound; [assumption.. |]. intros _. rewrite mayEndWell_app. cbn. rewrite Ep. rewrite !orb_true_r. reflexivity.
    + apply uploaded_sound; [assumption.. | discriminate].
    + destruct (Nat.ltb _ _); [|apply uploaded_sound; [assumption.. | discriminate]].
      constructor; [intros _; right; left; reflexivity | exact He' | exact Hi'].
  - destruct (pr_upload p) eqn:Eu; try discriminate. injection H as <- <-.
    constructor; [intros _; right; left; reflexivity | exact He' | exact Hi'].
  - injection H as <- <-. destruct (pr_declared p).
    + apply shutdown_sound; [exact He' | exact Hi'|]. intros _. rewrite mayEndWell_app. cbn. rewrite !orb_true_r. reflexivity.
    + constructor; [discriminate | split; [exact (proj1 He') | discriminate] | exact Hi'].
  - destruct (pr_shutdown p) as [[code target]|] eqn:Es; [|discriminate]. destruct (Nat.leb _ _); [|discriminate].
    injection H as <- <-. constructor; [discriminate | split; [exact (proj1 He') | intros [= ->]; exact (proj1 He' _ Es)] | exact Hi'].
Qed.

Lemma run_sound t0 tr out t p : 0 <= idleTimeoutMs -> Run t0 tr out t p -> SoundProcess (mayEndWell tr) t p.
Proof.
  intros Hi. induction 1 as [|tr out t p e now p' out' Hrun IH Ht Hstep]; [|eapply step_sound; eassumption].
  constructor; [intros _; left; discriminate | split; [intros x [=] | discriminate] | intros x [= <-]; lia].
Qed.

(** C13: The sidecar is never left behind: a process that goes on has an idle timer that
    fires within the timeout, is sending the credentials, or is shutting down. *)
Theorem never_stranded t0 tr out t p : 0 <= idleTimeoutMs -> Run t0 tr out t p -> pr_exit p = None ->
  (exists fires, pr_idle p = Some fires /\ fires <= t + idleTimeoutMs) \/ uploading p = true \/ pr_shutdown p <> None.
Proof.
  intros Hi H Hx. apply run_sound in H as [Ha _ Ht]; [|exact Hi]. destruct (Ha Hx) as [H1 | H1]; [|right; exact H1].
  left. destruct (pr_idle p) as [x|] eqn:E; [|contradiction]. exists x. split; [reflexivity | apply Ht; exact E].
Qed.

(** C12: The sidecar exits with code 0 only when it was told to stop, or once the
    orchestrator accepted the credentials. *)
Theorem exit_zero_deserved t0 tr out t p : 0 <= idleTimeoutMs -> Run t0 tr out t p -> pr_exit p = Some (Ex_code 0) ->
  In Ev_signal tr \/ exists status, In (Ev_answer (Some status)) tr /\ 200 <= status <= 299.
Proof.
  intros Hi H Hx. apply run_sound in H as [_ [_ He] _]; [|exact Hi]. specialize (He Hx). unfold mayEndWell in He.
  apply orb_prop in He as [He | He]; apply existsb_exists in He as (e & Hin & He); destruct e; try discriminate He.
  - left. exact Hin.
  - right. cbn in He. destruct answer as [status|]; [|discriminate]. exists status. split; [exact Hin|].
    unfold postOnce in He. destruct ((200 <=? status) && (status <=? 299)) eqn:E; [bools; lia|].
    destruct ((400 <=? status) && (status <? 500)); discriminate.
Qed.
End ProcessFacts.

(** ** The uploads *)
Section UploadFacts.
Context (dr : DisconnectReason) (jidNormalizedUser : string -> option string).
Context (authToken : string) (idleTimeoutMs : Z).
Abbreviation pstep := (processStep dr jidNormalizedUser authToken idleTimeoutMs).
Abbreviation Run := (SidecarRun dr jidNormalizedUser authToken idleTimeoutMs).

Definition postsOf (out : list ProcessOutput) : list string :=
  omap (fun o => match o with Out_post _ blob => Some blob | _ => None end) out.
Definition sized (blob : string) : Prop := blob <> EmptyString /\ Z.of_nat (String.length blob) <= MAX_TAR_BYTES.

Lemma tar_bounded chunks : forall bytes blob, bytes <= MAX_TAR_BYTES ->
  tarDirectoryToBuffer bytes chunks = Some blob -> bytes + Z.of_nat (String.length blob) <= MAX_TAR_BYTES.
Proof.
  induction chunks as [|c l IH]; cbn [tarDirectoryToBuffer]; intros bytes blob Hb.
  - intros [= <-]. cbn. lia.
  - destruct (MAX_TAR_BYTES <? _) eqn:E; [discriminate|]. apply Z.ltb_ge in E.
    destruct (tarDirectoryToBuffer _ l) as [b|] eqn:Et; [|discriminate]. intros [= <-].
    specialize (IH _ _ E Et). rewrite append_length. lia.
Qed.

Lemma replies_no_post out : postsOf (replies out) = [].
Proof. induction out as [|o l IH]; [reflexivity | destruct o; exact IH]. Qed.

Record PostInv (out : list ProcessOutput) (p : Process) : Prop := {
  po_linked : pr_upload p <> Ul_none -> se_authenticatedEmitted (pr_session p) = true;
  po_count : match pr_upload p with
             | Ul_none | Ul_taring _ => postsOf out = []
             | Ul_posting _ blob k => length (postsOf out) = k /\ (k <= UPLOAD_MAX_ATTEMPTS)%nat /\ sized blob
             | Ul_pausing _ blob k => length (postsOf out) = k /\ (k < UPLOAD_MAX_ATTEMPTS)%nat /\ sized blob
             | Ul_over => (length (postsOf out) <= UPLOAD_MAX_ATTEMPTS)%nat
             end;
  po_sized : Forall sized (postsOf out);
}.

Lemma postInv_same out p p' : PostInv out p -> pr_upload p' = pr_upload p -> pr_session p' = pr_session p -> PostInv out p'.
Proof. intros [H1 H2 H3] E1 E2. constructor; rewrite ?E1, ?E2; assumption. Qed.

Lemma postInv_over out p code : PostInv out p -> pr_upload p <> Ul_none -> PostInv out (uploaded code p).
Proof.
  intros [H1 H2 H3] Hn. destruct (shutdown_keeps code (withUpload Ul_over p)) as [E1 E2]. unfold uploaded.
  constructor; [intros _; rewrite E2; exact (H1 Hn) | rewrite E1; cbn | exact H3].
  destruct (pr_upload p); try (rewrite H2; cbn; lia); try exact H2; destruct H2 as (-> & Hk & _); lia.
Qed.

Lemma postInv_session out p s s' o : PostInv out p -> s = pr_session p ->
  (auths o = 0%nat /\ se_authenticatedEmitted s' = se_authenticatedEmitted s) \/
  (auths o = 1%nat /\ se_authenticatedEmitted s = false /\ se_authenticatedEmitted s' = true) ->
  PostInv (out ++ replies o) (fold_left onOutput o (withBaileys s' p)).
Proof.
  intros I -> Hf. destruct (outputs_upload o (withBaileys s' p)) as [E1 E2]. cbn in E1, E2. destruct I as [H1 H2 H3].
  assert (Hpo : postsOf (out ++ replies o) = postsOf out).
  { unfold postsOf. rewrite omap_app. fold (postsOf (replies o)). rewrite replies_no_post. apply app_nil_r. }
  destruct Hf as [[Ea Ef] | (Ea & Ef & Ef')].
  + destruct E2 as [E2 | [E2 _]]; [|congruence].
    constructor; rewrite ?E1, ?E2, ?Hpo, ?Ef; assumption.
  + assert (Hn : pr_upload p = Ul_none).
    { destruct (pr_upload p); try reflexivity; rewrite H1 in Ef; discriminate. }
    rewrite Hn in H2. constructor; rewrite ?E1, ?Hpo; [intros _; exact Ef' | | exact H3].
    destruct E2 as [-> | [_ [a ->]]]; [rewrite Hn|]; exact H2.
Qed.

Lemma postInv_tar out p p' r accountId out' : PostInv out p -> pr_upload p = Ul_taring accountId ->
  onTar r accountId p = (p', out') -> PostInv (out ++ out') p'.
Proof.
  intros I Eu H. unfold onTar in H.
  assert (HU : PostInv (out ++ []) (uploaded 1 p)) by (rewrite app_nil_r; apply postInv_over; [exact I | congruence]).
  destruct r as [chunks|]; [|injection H as <- <-; exact HU].
  destruct (tarDirectoryToBuffer 0 chunks) as [[|c blob]|] eqn:Et; injection H as <- <-; try exact HU.
  destruct I as [H1 H2 H3]. rewrite Eu in H1, H2.
  assert (Hpo : postsOf (out ++ [Out_post accountId (String c blob)]) = [String c blob]).
  { unfold postsOf. rewrite omap_app. fold (postsOf out). rewrite H2. reflexivity. }
  assert (Hs : sized (String c blob)).
  { split; [discriminate|]. pose proof (tar_bounded chunks 0 _ ltac:(unfold MAX_TAR_BYTES; lia) Et). lia. }
  constructor; [intros _; apply H1; discriminate | cbn; rewrite Hpo | rewrite Hpo; constructor; [exact Hs | constructor]].
  split; [reflexivity|]. split; [unfold UPLOAD_MAX_ATTEMPTS; lia | exact Hs].
Qed.

Lemma postInv_step out e now p p' out' : pstep e now p = Some (p', out') -> PostInv out p -> PostInv (out ++ out') p'.
Proof.
  intros H I. unfold processStep in H. destruct (pr_exit p) eqn:Ex; [discriminate|].
  assert (Hsame : forall q, pr_upload q = pr_upload p -> pr_session q = pr_session p -> PostInv (out ++ []) q).
  { intros q E1 E2. rewrite app_nil_r. exact (postInv_same out p q I E1 E2). }
  assert (Hshut : forall code q, pr_upload q = pr_upload p -> pr_session q = pr_session p -> PostInv (out ++ []) (shutdown code q)).
  { intros code q E1 E2. destruct (shutdown_keeps code q) as [F1 F2]. apply Hsame; congruence. }
  destruct e as [e'| |path auth| |r|answer| | |].
  - destruct (startFails e' p); [injection H as <- <-; apply Hsame; reflexivity|].
    destruct (sessionStep _ _ _ _ _) as [[s o]|] eqn:Es; [|discriminate]. injection H as <- <-.
    eapply postInv_session; [exact I | reflexivity | exact (step_flag _ _ _ _ _ _ _ Es)].
  - destruct (Nat.ltb _ _); [|discriminate]. injection H as <- <-. apply Hsame; reflexivity.
  - destruct (Nat.ltb _ _); [|discriminate]. injection H as <- <-. unfold onRequestHooks. repeat case_match; apply Hsame; reflexivity.
  - destruct (pr_idle p) as [x|]; [|discriminate]. destruct (x <=? now); [|discriminate]. injection H as <- <-. apply Hshut; reflexivity.
  - destruct (pr_upload p) eqn:Eu; try discriminate. injection H as H. eapply postInv_tar; eassumption.
  - destruct (pr_upload p) as [|a|a b k|a b k|] eqn:Eu; try discriminate. injection H as <- <-. rewrite app_nil_r. unfold onAnswer.
    repeat case_match; try (apply postInv_over; [exact I | congruence]). destruct I as [H1 H2 H3]. rewrite Eu in H1, H2.
    constructor; [intros _; apply H1; discriminate | | exact H3]. cbn. destruct H2 as (-> & _ & Hs). repeat split; try apply Hs.
    apply Nat.ltb_lt. assumption.
  - destruct (pr_upload p) as [|a|a b k|a b k|] eqn:Eu; try discriminate. injection H as <- <-.
    destruct I as [H1 H2 H3]. rewrite Eu in H1, H2. destruct H2 as (E & Hk & Hs).
    assert (Hpo : postsOf (out ++ [Out_post a b]) = postsOf out ++ [b]) by (unfold postsOf; rewrite omap_app; reflexivity).
    constructor; [intros _; apply H1; discriminate | | rewrite Hpo; apply Forall_app; split; [exact H3 | constructor; [exact Hs | constructor]]].
    cbn. rewrite Hpo, length_app, E. cbn. split; [lia|]. split; [lia | exact Hs].
  - injection H as <- <-. destruct (pr_declared p); [apply Hshut | apply Hsame]; reflexivity.
  - destruct (pr_shutdown p) as [[code target]|]; [|discriminate]. destruct (Nat.leb _ _); [|discriminate].
    injection H as <- <-. apply Hsame; reflexivity.
Qed.

(** Whatever the orchestrator answers, the credentials are posted at most three times
    in the life of a sidecar, and every post carries a non-empty archive of at most 8 MiB. *)
Theorem posts_bounded t0 tr out t p : Run t0 tr out t p ->
  (length (postsOf out) <= UPLOAD_MAX_ATTEMPTS)%nat /\
  Forall (fun blob => blob <> EmptyString /\ Z.of_nat (String.length blob) <= MAX_TAR_BYTES) (postsOf out).
Proof.
  intros H. assert (I : PostInv out p).
  { induction H as [|tr out t p e now p' out' Hrun IH Ht Hstep]; [|eapply postInv_step; eassumption].
    constructor; [intros E; contradiction E; reflexivity | reflexivity | constructor]. }
  destruct I as [_ H2 H3]. split; [|exact H3].
  destruct (pr_upload p); try (rewrite H2; cbn; lia); try exact H2; destruct H2 as (-> & Hk & _); lia.
Qed.
End UploadFacts.

(** ** Runs that can be evaluated *)
Section Evaluate.
Context (dr : DisconnectReason) (jidNormalizedUser : string -> option string).
Context (authToken : string) (idleTimeoutMs : Z).

Fixpoint runSession (evs : list (SessionEvent * Z)) (s : Session) : option (Session * list SessionOutput) :=
  match evs with
  | [] => Some (s, [])
  | (e, now) :: rest =>
      match sessionStep dr jidNormalizedUser e now s with
      | Some (s', out) => option_map (fun r => (r.1, out ++ r.2)) (runSession rest s')
      | None => None
      end
  end.

Lemma runSession_sound t0 evs : forall tr out s s' out', SessionRun dr jidNormalizedUser t0 tr out s ->
  runSession evs s = Some (s', out') -> SessionRun dr jidNormalizedUser t0 (tr ++ List.map fst evs) (out ++ out') s'.
Proof.
  induction evs as [|[e now] l IH]; cbn [runSession List.map]; intros tr out s s' out' H.
  - intros [= <- <-]. rewrite !app_nil_r. exact H.
  - destruct (sessionStep _ _ _ _ _) as [[s1 o1]|] eqn:E; [|discriminate].
    destruct (runSession l s1) as [[s2 o2]|] eqn:E2; [|discriminate]. intros [= <- <-]. cbn [fst snd].
    specialize (IH (tr ++ [e]) (out ++ o1) s1 s2 o2 (srun_step _ _ _ _ _ _ _ _ _ _ H E) E2).
    rewrite <- !app_assoc in IH. exact IH.
Qed.

(** The events of a process, one millisecond apart. *)
Fixpoint runProcess (evs : list ProcessEvent) (now : Z) (p : Process) : option (Process * list ProcessOutput) :=
  match evs with
  | [] => Some (p, [])
  | e :: rest =>
      match processStep dr jidNormalizedUser authToken idleTimeoutMs e (now + 1) p with
      | Some (p', out) => option_map (fun r => (r.1, out ++ r.2)) (runProcess rest (now + 1) p')
      | None => None
      end
  end.

Lemma runProcess_sound t0 evs : forall tr out t p p' out', SidecarRun dr jidNormalizedUser authToken idleTimeoutMs t0 tr out t p ->
  runProcess evs t p = Some (p', out') ->
  SidecarRun dr jidNormalizedUser authToken idleTimeoutMs t0 (tr ++ evs) (out ++ out') (t + Z.of_nat (length evs)) p'.
Proof.
  induction evs as [|e l IH]; cbn [runProcess]; intros tr out t p p' out' H.
  - intros [= <- <-]. rewrite !app_nil_r, Z.add_0_r. exact H.
  - destruct (processStep _ _ _ _ _ _ _) as [[p1 o1]|] eqn:E; [|discriminate].
    destruct (runProcess l (t + 1) p1) as [[p2 o2]|] eqn:E2; [|discriminate]. intros [= <- <-]. cbn [fst snd].
    assert (Ht : t <= t + 1) by lia.
    specialize (IH (tr ++ [e]) (out ++ o1) (t + 1) p1 p2 o2 (run_step _ _ _ _ _ _ _ _ _ _ _ _ _ H Ht E) E2).
    rewrite <- !app_assoc in IH. replace (t + Z.of_nat (length (e :: l))) with (t + 1 + Z.of_nat (length l)) by (cbn [length]; lia).
    exact IH.
Qed.
End Evaluate.

Definition demoReasons : DisconnectReason := mkDisconnectReason 401 428 408 440 515 408 500.
Definition demoJid (jid : string) : option string := Some jid.
Definition onUpdate (c : Connection) : SessionEvent := Se_update (mkUpdate None (Some c)).
Definition demoClose : Connection := Cx_close (Some 515) None.

(** A link: two saves around the opening, the second one not waited for. *)
Definition linking : list SessionEvent :=
  [Se_connected true; Se_creds; onUpdate Cx_open; Se_creds; Se_saved; Se_opened 0 (Some "972501234567:4@s.whatsapp.net")].
Definition demoSteps : list (SessionEvent * Z) := List.map (fun e => (e, 5)) (Se_start :: linking).
Definition demoSession : Session * list SessionOutput :=
  Eval vm_compute in default (newSession 0, []) (runSession demoReasons demoJid demoSteps (newSession 0)).
Definition demoProcess (evs : list ProcessEvent) : option (Process * list ProcessOutput) :=
  runProcess demoReasons demoJid "token" 600000 evs 0 (newProcess 600000 0).

Lemma demoSession_run : SessionRun demoReasons demoJid 0 (Se_start :: linking) demoSession.2 demoSession.1.
Proof.
  apply (runSession_sound demoReasons demoJid 0 demoSteps [] [] (newSession 0)); [constructor | vm_compute; reflexivity].
Qed.


Lemma sockets_bounded_witness : se_made demoSession.1 = 1%nat /\ (se_made demoSession.1 <= 11)%nat.
Proof. split; [reflexivity | exact (sockets_bounded _ _ _ _ _ _ demoSession_run)]. Defined.

(** Linked, the upload answered 503 then 204, and the exit. *)
Definition delivery : list ProcessEvent :=
  Ev_session (Se_connected true) :: Ev_listening :: List.map Ev_session (tail linking)
  ++ [Ev_tar (Some ["creds"]); Ev_answer (Some 503); Ev_backoff; Ev_answer (Some 204); Ev_session Se_saved; Ev_exit].
Definition delivered : Process * list ProcessOutput :=
  Eval vm_compute in default (newProcess 600000 0, []) (demoProcess delivery).

Lemma demoProcess_run evs p out : demoProcess evs = Some (p, out) ->
  SidecarRun demoReasons demoJid "token" 600000 0 evs out (Z.of_nat (length evs)) p.
Proof. intros H. exact (runProcess_sound _ _ _ _ 0 evs [] [] 0 _ _ _ (run_start _ _ _ _ 0) H). Qed.

Lemma delivered_run : SidecarRun demoReasons demoJid "token" 600000 0 delivery delivered.2 (Z.of_nat (length delivery)) delivered.1.
Proof. apply (demoProcess_run delivery). vm_compute. reflexivity. Qed.

Lemma posts_bounded_witness :
  postsOf delivered.2 = ["creds"; "creds"] /\ (length (postsOf delivered.2) <= 3)%nat.
Proof. split; [reflexivity | exact (proj1 (posts_bounded _ _ _ _ _ _ _ _ _ delivered_run))]. Defined.

Lemma exit_zero_deserved_witness :
  pr_exit delivered.1 = Some (Ex_code 0) /\
  (In Ev_signal delivery \/ exists status, In (Ev_answer (Some status)) delivery /\ 200 <= status <= 299).
Proof.
  split; [reflexivity|]. apply (exit_zero_deserved demoReasons demoJid "token" 600000 _ _ _ _ _ ltac:(lia) delivered_run). reflexivity.
Defined.

(** Waiting for the owner to scan. *)
Definition scanning : list ProcessEvent :=
  [Ev_session (Se_connected true); Ev_listening; Ev_request "/pair/qr?n=1" (Some "Bearer token")].
Definition waiting : Process * list ProcessOutput :=
  Eval vm_compute in default (newProcess 600000 0, []) (demoProcess scanning).
Lemma waiting_run : SidecarRun demoReasons demoJid "token" 600000 0 scanning waiting.2 (Z.of_nat (length scanning)) waiting.1.
Proof. apply (demoProcess_run scanning). vm_compute. reflexivity. Qed.

Lemma never_stranded_witness :
  (exists fires, pr_idle waiting.1 = Some fires /\ fires <= 3 + 600000) \/ uploading waiting.1 = true \/ pr_shutdown waiting.1 <> None.
Proof. apply (never_stranded demoReasons demoJid "token" 600000 _ _ _ _ _ ltac:(lia) waiting_run). reflexivity. Defined.

(** ** Phone numbers and codes *)

Lemma removeIf_keep p s : allChars (fun c => negb (p c)) s = true -> removeIf p s = s.
Proof.
  induction s as [|c s IH]; cbn; [reflexivity|]. intros H. apply andb_prop in H as [H1 H2].
  destruct (p c); [discriminate|]. rewrite IH by exact H2. reflexivity.
Qed.

Lemma digits_only s : allChars isDigit s = true -> onlyDigits s = s.
Proof.
  intros H. apply removeIf_keep. revert H. induction s as [|c s IH]; cbn; [reflexivity|].
  intros H. apply andb_prop in H as [-> H]. exact (IH H).
Qed.

(** A number of the accepted shape: a digit that is not 0, then nine to fourteen. *)
Lemma digits_normalize c s : isDigit c = true -> Ascii.eqb c "0" = false -> allChars isDigit s = true ->
  9 <= Z.of_nat (String.length s) <= 14 ->
  normalizePhoneE164 (String c s) = inr (String c s) /\ normalizePhoneE164 (String "+" (String c s)) = inr (String c s).
Proof.
  intros Hc H0 Hs Hl.
  assert (E : onlyDigits (String c s) = String c s) by (apply digits_only; cbn; rewrite Hc; exact Hs).
  assert (E' : onlyDigits (String "+" (String c s)) = String c s) by (unfold onlyDigits; cbn [removeIf]; exact E).
  unfold normalizePhoneE164. rewrite E, E'.
  replace (Z.of_nat (String.length (String c s)) <? 10) with false by (symmetry; apply Z.ltb_ge; cbn [String.length]; lia).
  replace (15 <? Z.of_nat (String.length (String c s))) with false by (symmetry; apply Z.ltb_ge; cbn [String.length]; lia).
  destruct c as [[] [] [] [] [] [] [] []]; try (split; reflexivity). discriminate.
Qed.

Lemma e164_shape s : isE164Digits s = true -> exists c r, s = String c r /\ isDigit c = true /\ Ascii.eqb c "0" = false /\
  allChars isDigit r = true /\ Z.of_nat (String.length r) <= 14.
Proof.
  destruct s as [|c r]; cbn; [discriminate|]. intros H. bools. exists c, r. repeat split; try assumption; try lia.
Qed.

(** A number the orchestrator accepts for a pairing code is one the sidecar accepts: the
    body it is sent passes the sidecar's schema, and the code is asked for the number's
    digits, country code included. *)
Theorem phone_accepted j phone : PhoneBody j = Some phone ->
  SidecarPhoneBody (JObj [("phone", JStr phone)]) = Some phone /\
  exists digits, normalizePhoneE164 phone = inr digits /\ (phone = digits \/ phone = String "+" digits).
Proof.
  intros H.
  assert (Hp : exists raw, phone = trim raw /\ isPairPhone (trim raw) = true).
  { unfold PhoneBody, field in H. destruct j as [| | | | |l]; try discriminate. destruct (lookupField _ l) as [[| | |s| |]|]; try discriminate.
    destruct (isPairPhone (trim s)) eqn:E; [|discriminate]. injection H as <-. exists s. split; [reflexivity | exact E]. }
  clear H. destruct Hp as (raw & -> & Hp).
  assert (Hd : exists d, normalizePhoneE164 (trim raw) = inr d /\ (trim raw = d \/ trim raw = String "+" d) /\ allChars isDigit d = true).
  { unfold isPairPhone in Hp. apply andb_prop in Hp as [Hp Hl]. apply orb_prop in Hp as [Hp | Hp].
    - unfold isE164 in Hp. destruct (trim raw) as [|p s]; [discriminate|]. apply andb_prop in Hp as [Hc Hs].
      apply Ascii.eqb_eq in Hc. subst p. apply e164_shape in Hs as (c & r & -> & H1 & H2 & H3 & H4).
      exists (String c r). change (Ascii.eqb "+" "+") with true in Hl. cbv iota in Hl.
      apply Z.leb_le in Hl. cbn [String.length] in Hl.
      split; [apply digits_normalize; [assumption.. | lia]|]. split; [right; reflexivity | cbn; rewrite H1; exact H3].
    - apply e164_shape in Hp as (c & r & E & H1 & H2 & H3 & H4). rewrite E in *. exists (String c r).
      assert (Ep : Ascii.eqb c "+" = false) by (destruct (Ascii.eqb c "+") eqn:Ep; [apply Ascii.eqb_eq in Ep; subst c; discriminate | reflexivity]).
      rewrite Ep in Hl. apply Z.leb_le in Hl. cbn [String.length] in Hl.
      split; [apply digits_normalize; [assumption.. | lia]|]. split; [left; reflexivity | cbn; rewrite H1; exact H3]. }
  destruct Hd as (d & Hn & Hs & Ha). split; [|exists d; split; assumption].
  assert (Ht : trim (trim raw) = trim raw).
  { apply trim_plain. assert (Hw : allChars (fun c => negb (isWhite c)) d = true).
    { clear -Ha. induction d as [|c d IH]; [reflexivity|]. cbn in *. apply andb_prop in Ha as [H1 H2]. rewrite (IH H2), andb_true_r.
      destruct (isWhite c) eqn:E; [|reflexivity]. exfalso. revert H1 E. destruct c as [[] [] [] [] [] [] [] []]; vm_compute; discriminate. }
    destruct Hs as [-> | ->]; [exact Hw | cbn; exact Hw]. }
  unfold SidecarPhoneBody, field. cbn [lookupField List.find fst snd option_map str_eqb]. change (str_eqb "phone" "phone") with true.
  cbn. rewrite Ht, Hp. reflexivity.
Qed.

Lemma phone_accepted_witness :
  SidecarPhoneBody (JObj [("phone", JStr "+972501234567")]) = Some "+972501234567" /\
  exists digits, normalizePhoneE164 "+972501234567" = inr digits /\
    ("+972501234567" = digits \/ "+972501234567" = String "+" digits).
Proof. apply (phone_accepted (JObj [("phone", JStr " +972501234567 ")])). vm_compute. reflexivity. Defined.

(** ** What the runs show *)

(** [failed] is not emitted once: every close after the last reconnection emits it again. *)
Lemma failed_twice :
  exists s out, runSession demoReasons demoJid (List.map (fun e => (e, 1))
      (Se_start :: Se_connected true :: List.concat (repeat [onUpdate demoClose; Se_closed 0; Se_connected true] 5)
       ++ [onUpdate demoClose; onUpdate demoClose])) (newSession 0) = Some (s, out) /\
    length (List.filter isFail out) = 2%nat.
Proof. vm_compute. repeat eexists. Qed.

(** A code that arrives after the link hides it: the phase is [awaiting_code] again. *)
Lemma late_code_hides_link :
  exists s out, runSession demoReasons demoJid (List.map (fun e => (e, 1))
      [Se_start; Se_connected true; Se_requestCode "+972501234567"; onUpdate Cx_open; Se_opened 1 (Some "972501234567@s.whatsapp.net");
       Se_codeAnswer 0 (inr "ABCD1234")]) (newSession 0) = Some (s, out) /\
    se_authenticatedEmitted s = true /\ pt_phase (se_state s) = Ph_awaiting_code.
Proof. vm_compute. repeat eexists. Qed.

(** A connection that closes while the credentials are being sent ends the process with
    code 1, the upload unanswered. *)
Lemma close_cuts_upload :
  exists p out, demoProcess (Ev_session (Se_connected true) :: Ev_listening
      :: List.map Ev_session [onUpdate Cx_open; Se_opened 0 None]
      ++ [Ev_tar (Some ["creds"]); Ev_session (onUpdate demoClose); Ev_exit]) = Some (p, out) /\
    uploading p = true /\ pr_exit p = Some (Ex_code 1).
Proof. vm_compute. repeat eexists. Qed.

(** A link made before the server listens ends the process with code 1, though the
    orchestrator accepted the credentials. *)
Lemma early_link_exits_one :
  exists p out, demoProcess (List.map Ev_session [Se_connected true; onUpdate Cx_open; Se_opened 0 None]
      ++ [Ev_tar (Some ["creds"]); Ev_answer (Some 204)]) = Some (p, out) /\ pr_exit p = Some (Ex_code 1).
Proof. vm_compute. repeat eexists. Qed.
