(* ===== verification/Watches.v ===== *)
(** The watches over the fleet: [services/capacity-watch.ts] and
    [services/memory-watch.ts] of the orchestrator.

    A sweep is one step of the memory watch: the answers of the database, of the hosts'
    gates and of the containers are its arguments, and what it tells its observer is its
    result.  One sweep runs at a time ([currentSweep]), and so does one evaluation of the
    capacity ([evaluating]).  Log lines are kept where they are the effect: the warnings of
    the capacity watch. *)
From Stdlib Require Import QArith Qround.
From S2P Require Import Prelude Pricing Fleet Hosts.
From stdpp Require Import list strings gmap.
#[local] Open Scope Z_scope.

(** ** capacity-watch.ts *)
Definition REPEAT_WARNING_MS : Z := 6 * 60 * 60000.
Definition RECOVERY_MARGIN_BOTS : Z := 5.

Record CapacityWatchState := mkCapacityWatch { wt_lastLowWarningAt : option Z; wt_evaluating : bool }.
Definition newCapacityWatch : CapacityWatchState := mkCapacityWatch None false.

Inductive CapacityLog := Cl_low (room : Z) | Cl_restored (room : Z).

(** The start of [evaluate]: whether the placement is asked. *)
Definition beginEvaluate (s : CapacityWatchState) : bool * CapacityWatchState :=
  if wt_evaluating s then (false, s) else (true, mkCapacityWatch (wt_lastLowWarningAt s) true).

(** Its end, with the placement's answer. *)
Definition endEvaluate (now warnBots : Z) (answer : option FleetCapacity) (s : CapacityWatchState) : option CapacityLog * CapacityWatchState :=
  match answer with
  | None => (None, mkCapacityWatch (wt_lastLowWarningAt s) false)
  | Some c =>
      let room := fc_room c in
      if room <? warnBots then
        if match wt_lastLowWarningAt s with None => true | Some t => REPEAT_WARNING_MS <=? now - t end
        then (Some (Cl_low room), mkCapacityWatch (Some now) false)
        else (None, mkCapacityWatch (wt_lastLowWarningAt s) false)
      else
        match wt_lastLowWarningAt s with
        | Some t => if warnBots + RECOVERY_MARGIN_BOTS <=? room then (Some (Cl_restored room), mkCapacityWatch None false)
                    else (None, mkCapacityWatch (Some t) false)
        | None => (None, mkCapacityWatch None false)
        end
  end.

(** ** memory-watch.ts *)
Definition MB : Z := 1024 * 1024.

Record ContainerMemory := mkContainerMemory { me_usedBytes : Z; me_limitBytes : Z }.

Record MemoryWatchState := mkMemoryWatch {
  mw_high : gset string;
  mw_usedByHost : gmap string Z;
  mw_measuredByHost : gmap string (gset string);
}.
Definition newMemoryWatch : MemoryWatchState := mkMemoryWatch ∅ ∅ ∅.

Inductive MemoryNotice := Mn_high (instanceId : string) (usedMb limitMb : Z) | Mn_normal (instanceId : string).

(** [usedMb] and [measured], as the placement reads them. *)
Definition usedMb (hostId : string) (s : MemoryWatchState) : Z := default 0 (mw_usedByHost s !! hostId).
Definition measured (instanceId : string) (s : MemoryWatchState) : bool :=
  List.existsb (fun p : string * gset string => bool_decide (instanceId ∈ p.2)) (map_to_list (mw_measuredByHost s)).

Definition megabytes (bytes : Z) : Z := math_round (inject_Z bytes / inject_Z MB)%Q.

Section MemoryWatch.
Context (warnFraction : Q).
(** What a container answers: nothing when it cannot be asked or has no figures. *)
Context (memoryUsage : string -> option ContainerMemory).

(** [check]: the bytes used, and the notice. *)
Definition checkMemory (inst : FleetInstance) (high : gset string) : option Z * list MemoryNotice * gset string :=
  match truthy (fi_containerId inst) with
  | None => (None, [], high)
  | Some c =>
      match memoryUsage c with
      | None => (None, [], high)
      | Some m =>
          if me_limitBytes m <=? 0 then (Some (me_usedBytes m), [], high)
          else if Qle_bool warnFraction (inject_Z (me_usedBytes m) / inject_Z (me_limitBytes m))%Q then
            (Some (me_usedBytes m), [Mn_high (fi_id inst) (megabytes (me_usedBytes m)) (megabytes (me_limitBytes m))], {[fi_id inst]} ∪ high)
          else if bool_decide (fi_id inst ∈ high) then
            (Some (me_usedBytes m), [Mn_normal (fi_id inst)], high ∖ {[fi_id inst]})
          else (Some (me_usedBytes m), [], high)
      end
  end.

Fixpoint checkAll (group : list FleetInstance) (high : gset string) : list (string * Z) * list MemoryNotice * gset string :=
  match group with
  | [] => ([], [], high)
  | inst :: group =>
      let '(used, notices, high) := checkMemory inst high in
      let '(l, notices', high) := checkAll group high in
      (match used with Some u => [(fi_id inst, u)] | None => [] end ++ l, notices ++ notices', high)
  end.

(** A host the registry does not have is [None]; [Some] is the answer of its gate. *)
Context (gate : string -> option bool).

(** [sweepHost]: whether it threw. *)
Definition sweepHost (hostId : string) (group : list FleetInstance) (s : MemoryWatchState) : bool * list MemoryNotice * MemoryWatchState :=
  match gate hostId with
  | None => (true, [], s)
  | Some false => (false, [], s)
  | Some true =>
      let '(l, notices, high) := checkAll group (mw_high s) in
      (false, notices,
       mkMemoryWatch high (<[hostId := megabytes (sumZ snd l)]> (mw_usedByHost s))
         (<[hostId := list_to_set (List.map fst l)]> (mw_measuredByHost s)))
  end.

Fixpoint sweepHosts (groups : list (string * list FleetInstance)) (s : MemoryWatchState) : bool * list MemoryNotice * MemoryWatchState :=
  match groups with
  | [] => (false, [], s)
  | (h, group) :: groups =>
      let '(threw, notices, s) := sweepHost h group s in
      let '(threw', notices', s) := sweepHosts groups s in
      (threw || threw', notices ++ notices', s)
  end.

(** [runSweep], with the active bots the database gave: the notices, the state, and whether
    the sweep's listener is called.  When a host is unknown the other hosts are still swept,
    and what is gone is not forgotten. *)
Definition runSweep (active : option (list FleetInstance)) (s : MemoryWatchState) : list MemoryNotice * MemoryWatchState * bool :=
  match active with
  | None => ([], s, false)
  | Some active =>
      let groups := groupByHost fi_hostId active in
      let '(threw, notices, s) := sweepHosts groups s in
      if threw : bool then (notices, s, false)
      else
        let gone := List.filter (fun id => negb (List.existsb (fun i => str_eqb (fi_id i) id) active)) (elements (mw_high s)) in
        let known := fun p : string => List.existsb (fun g => str_eqb g.1 p) groups in
        (notices ++ List.map Mn_normal gone,
         mkMemoryWatch (mw_high s ∖ list_to_set gone)
           (filter (fun p => known p.1 = true) (mw_usedByHost s))
           (filter (fun p => known p.1 = true) (mw_measuredByHost s)), true)
  end.
End MemoryWatch.
