(* ===== verification/Onboarding.v ===== *)
(** The first days of a bot: [services/onboarding-checkins.ts] of the orchestrator, with the
    owner's clock, [domain/tenant.ts], and the jobs a turn becomes,
    [services/agent-runtime/openclaw/owner-turns.ts].

    A local date is its year, month and day.  [zoneOffset], in milliseconds, is what the time
    zone adds to an instant: the rules of Asia/Jerusalem are an argument.  The text of the
    check-ins is an argument too.  [callGateway] is [callOpenclawGateway]. *)
From S2P Require Import Prelude Json Dates Fleet Hosts FleetStore FleetWorld InstanceManager Backups.
From stdpp Require Import list strings gmap.
#[local] Open Scope Z_scope.

(** ** domain/tenant.ts *)
Record LocalDate := mkLocalDate { ld_year : Z; ld_month : Z; ld_day : Z }.

Definition utcTime (year month dom hour minute second : Z) : Z :=
  Ecma.make_day year (month - 1) dom * DAY_MS + hour * 3600000 + minute * 60000 + second * 1000.

Section Tenant.
Context (zoneOffset : Z -> Z).

(** [tenantParts]: the parts of the wall clock, to the second. *)
Definition wallClockOf (instant : Z) : Z := instant + zoneOffset instant.
Definition tenantDate (instant : Z) : LocalDate :=
  let w := wallClockOf instant in mkLocalDate (Ecma.getUTCFullYear w) (Ecma.getUTCMonth w + 1) (Ecma.getUTCDate w).
Definition tenantHour (instant : Z) : Z := Ecma.time_within_day (wallClockOf instant) / 3600000.

Definition addDays (d : LocalDate) (days : Z) : LocalDate :=
  let t := utcTime (ld_year d) (ld_month d) (ld_day d + days) 0 0 0 in
  mkLocalDate (Ecma.getUTCFullYear t) (Ecma.getUTCMonth t + 1) (Ecma.getUTCDate t).

Definition offsetAt (instant : Z) : Z :=
  let w := wallClockOf instant in
  let ms := Ecma.time_within_day w in
  utcTime (Ecma.getUTCFullYear w) (Ecma.getUTCMonth w + 1) (Ecma.getUTCDate w) (ms / 3600000) (ms / 60000 mod 60) (ms / 1000 mod 60)
  - instant / 1000 * 1000.

Definition atTenantHour (d : LocalDate) (hour : Z) : Z :=
  let wallClock := utcTime (ld_year d) (ld_month d) (ld_day d) hour 0 0 in
  let firstGuess := wallClock - offsetAt wallClock in
  wallClock - offsetAt firstGuess.

(** ** onboarding-checkins.ts *)
Definition NEW_BOT_WINDOW_MS : Z := 2 * 24 * 60 * 60000.
Definition FIRST_CHECKIN_MIN_LEAD_MS : Z := 3 * 60 * 60000.
Definition MAX_REFUSALS : Z := 6.
Definition SETTLED_EVENT : string := "onboarding.checkins_settled".
Definition LIVE_STATUSES : list InstanceStatus := [I_running; I_degraded].
Definition LINK_EVENTS : list string := ["telegram.linked"; "pair.authenticated"].

(** Day offset and hour. *)
Definition CHECKINS : list (Z * Z) := [(0, 19); (1, 9); (2, 12)].

Record OwnerTurn := mkTurn { tn_key : string; tn_name : string; tn_at : Z; tn_message : string; tn_toolsAllow : option (list string) }.

(** The text of a check-in due at an instant. *)
Context (checkinMessage : nat -> Z -> string).

Definition firstDay (linkedAt : Z) : LocalDate :=
  let linkDay := tenantDate linkedAt in
  let eveningLead := atTenantHour linkDay 19 - linkedAt in
  if FIRST_CHECKIN_MIN_LEAD_MS <=? eveningLead then linkDay else addDays linkDay 1.

Definition planOnboardingCheckins (linkedAt : Z) : list OwnerTurn :=
  imap (fun i c =>
    let at_ := atTenantHour (addDays (firstDay linkedAt) c.1) c.2 in
    let n := Domain.str_of_Z (Z.of_nat i + 1) in
    mkTurn ("agentforall:onboarding-checkin-" +:+ n) ("Getting-started check-in " +:+ n +:+ " of 3") at_ (checkinMessage i at_) None) CHECKINS.
End Tenant.

(** ** owner-turns.ts *)
Inductive GatewayAnswer := Ga_ok (payload : Json) | Ga_unreachable (reason : string) | Ga_refused (reason : string).
Definition TURN_TIMEOUT_SECONDS : Z := 600.

Definition ownerTurnJob (mainAgent ownerSession : string) (route : OwnerRoute) (turn : OwnerTurn) : Json :=
  JObj [("declarationKey", JStr (tn_key turn)); ("name", JStr (tn_name turn)); ("agentId", JStr mainAgent);
        ("schedule", JObj [("kind", JStr "at"); ("at", JStr (toISOString (tn_at turn)))]);
        ("sessionTarget", JStr ("session:" +:+ ownerSession)); ("deleteAfterRun", JBool true);
        ("payload", JObj ([("kind", JStr "agentTurn"); ("message", JStr (tn_message turn)); ("timeoutSeconds", JInt TURN_TIMEOUT_SECONDS)] ++
           match tn_toolsAllow turn with Some l => [("toolsAllow", JArr (List.map JStr l))] | None => [] end));
        ("delivery", JObj [("mode", JStr "announce");
           ("channel", JStr (match or_channel route with Via_telegram => "telegram" | Via_whatsapp => "whatsapp" end));
           ("to", JStr (or_to route)); ("bestEffort", JBool true)]);
        ("failureAlert", JBool false)].

(** The cron job's id, or the error. *)
Definition cronAdded (redact : string -> string) (key : string) (a : GatewayAnswer) : OrchError + string :=
  let detail := fun reason => "cron.add " +:+ key +:+ ": " +:+ redact reason in
  match a with
  | Ga_unreachable reason => inl (UpstreamUnavailableError "openclaw" (Some (detail reason)))
  | Ga_refused reason => inl (ValidationError ("openclaw refused " +:+ detail reason))
  | Ga_ok payload =>
      match field "job" (field "id" zNonEmpty) payload with
      | Some id => inr id
      | None => inl (ValidationError ("openclaw answered " +:+ detail "unexpected cron.add response"))
      end
  end.

Inductive TurnDelivery := Td_pending | Td_delivered | Td_failed.

(** status, delivery status *)
Definition runSchema : Schema (option string * option string) := fun j =>
  match undefinedField "status" zString j, undefinedField "deliveryStatus" zString j with
  | Some s, Some d => Some (s, d)
  | _, _ => None
  end.

Definition turnDelivery (a : GatewayAnswer) : TurnDelivery :=
  match a with
  | Ga_unreachable _ => Td_pending
  | Ga_refused _ => Td_failed
  | Ga_ok payload =>
      match field "entries" (zArray runSchema) payload with
      | None => Td_failed
      | Some [] => Td_pending
      | Some ((status, delivery) :: _) =>
          if ostr_eqb delivery (Some "delivered") then Td_delivered
          else if ostr_eqb status (Some "error") then Td_pending
          else if ostr_eqb status (Some "ok") && ostr_eqb delivery (Some "unknown") then Td_delivered
          else Td_failed
      end
  end.

(** ** The sweep *)
Inductive TurnsOutcome := To_scheduled | To_unsupported.
Inductive Settlement :=
| Sl_scheduled (channel : OwnerChannel) (at_ : list Z)
| Sl_unsupported | Sl_restored | Sl_expired
| Sl_abandoned (refusals : Z).

Class OwnerTurns (X : Type) := {
  ad_scheduleOwnerTurns : string -> string -> OwnerRoute -> list OwnerTurn -> Ext X TurnsOutcome;
}.

Section Checkins.
Context {X : Type} `{!ContainerRuntime X, !AgentAdapter X, !Collaborators X, !OwnerTurns X}.
Context (cfg : AppConfig) (zoneOffset : Z -> Z) (checkinMessage : nat -> Z -> string).
Implicit Types bot : Instance_.

(** The refusals of a sweep's process, by bot. *)
Definition Refusals : Type := gmap string Z.

Definition record_ bot (s : Settlement) (refusals : Refusals) : Fleet X Refusals :=
  append (fi_id bot) SETTLED_EVENT None;;; ret (delete (fi_id bot) refusals).

(** The body of [settle]; [None] leaves the bot for the next sweep. *)
Definition settlementOf bot : Fleet X (option Settlement) :=
  if negb (bool_decide (bi_status (fi_backupImport bot) = BI_none)) then ret (Some Sl_restored)
  else
    match truthy (fi_containerId bot), ownerRouteOf bot with
    | Some containerId, Some route =>
        let! h := host cfg (fi_hostId bot) in
        let! up := ext' (gate_check (ho_hostId h)) in
        if negb up then ret None
        else
          let! linked := statement (fun d => (inr (firstAt (fi_id bot) LINK_EVENTS (fd_events d)), d)) in
          let! t := now in
          let turns := List.filter (fun turn => t <? tn_at turn)
            (planOnboardingCheckins zoneOffset checkinMessage (default (fi_createdAt bot) linked)) in
          match turns with
          | [] => ret (Some Sl_expired)
          | _ =>
              let! outcome := ext (ad_scheduleOwnerTurns (fi_hostId bot) containerId route turns) in
              ret (Some match outcome with
                        | To_scheduled => Sl_scheduled (or_channel route) (List.map tn_at turns)
                        | To_unsupported => Sl_unsupported
                        end)
          end
    | _, _ => ret None
    end.

(** [failed]. *)
Definition settleFailed bot (e : OrchError) (refusals : Refusals) : Fleet X Refusals :=
  match e with
  | ValidationError _ =>
      let n := default 0 (refusals !! fi_id bot) + 1 in
      let counted := <[fi_id bot := n]> refusals in
      if n <? MAX_REFUSALS then ret counted
      else catch (record_ bot (Sl_abandoned n) counted) (fun _ => ret counted)
  | _ => ret refusals
  end.

Definition settleBot (refusals : Refusals) bot : Fleet X Refusals :=
  catch
    (let! s := settlementOf bot in
     match s with Some s => record_ bot s refusals | None => ret refusals end)
    (fun e => settleFailed bot e refusals).

(** [sweep]; one runs at a time ([sweeping]). *)
Definition sweepCheckins (refusals : Refusals) : Fleet X Refusals :=
  let! t := now in
  let! bots := statement (fun d =>
    (inr (findCreatedSinceWithoutEvent (ac_managedHostIds cfg) (t - NEW_BOT_WINDOW_MS) LIVE_STATUSES SETTLED_EVENT (fd_events d) (fd_rows d)), d)) in
  foldM settleBot refusals bots.
End Checkins.

(** ** The owner's clock *)

(** A zone that changes its offset once. *)
Definition zoneWith (before_ after_ change : Z) (instant : Z) : Z := if instant <? change then before_ else after_.

Lemma utcTime_wall w : utcTime (Ecma.getUTCFullYear w) (Ecma.getUTCMonth w + 1) (Ecma.getUTCDate w)
    (Ecma.time_within_day w / 3600000) (Ecma.time_within_day w / 60000 mod 60) (Ecma.time_within_day w / 1000 mod 60)
  = w / 1000 * 1000.
Proof.
  unfold utcTime. rewrite Z.add_simpl_r, Ecma.make_day_parts. set (ms := Ecma.time_within_day w).
  replace (ms / 3600000) with (ms / 1000 / 60 / 60) by (rewrite !Z.div_div by lia; f_equal; lia).
  replace (ms / 60000) with (ms / 1000 / 60) by (rewrite !Z.div_div by lia; f_equal; lia).
  pose proof (Z.div_mod (ms / 1000) 60 ltac:(lia)). pose proof (Z.div_mod (ms / 1000 / 60) 60 ltac:(lia)).
  assert (Ew : w / 1000 = Ecma.day w * 86400 + ms / 1000).
  { unfold ms, Ecma.day, Ecma.time_within_day, DAY_MS. rewrite (Z.div_mod w (24 * 60 * 60 * 1000)) at 1 by lia.
    replace (24 * 60 * 60 * 1000 * (w / (24 * 60 * 60 * 1000))) with (w / (24 * 60 * 60 * 1000) * 86400 * 1000) by lia.
    rewrite Z.div_add_l by lia. lia. }
  unfold DAY_MS. lia.
Qed.

(** Of an offset of whole seconds. *)
Lemma offset_exact zone instant : zone instant mod 1000 = 0 -> offsetAt zone instant = zone instant.
Proof.
  intros H. unfold offsetAt. cbv zeta. rewrite utcTime_wall. unfold wallClockOf.
  pose proof (Z.div_mod (zone instant) 1000 ltac:(lia)) as E. rewrite H in E.
  rewrite E at 1. replace (1000 * (zone instant / 1000) + 0) with (zone instant / 1000 * 1000) by lia.
  rewrite Z.div_add by lia. lia.
Qed.

(** The second guess of the offset is the right one where one instant shows [w]. *)
Lemma second_guess before_ after_ change w instant :
  instant + zoneWith before_ after_ change instant = w ->
  (forall other, other + zoneWith before_ after_ change other = w -> other = instant) ->
  w - zoneWith before_ after_ change (w - zoneWith before_ after_ change w) = instant.
Proof.
  intros Hw Honce. pose proof (Honce (w - before_)) as H1. pose proof (Honce (w - after_)) as H2. clear Honce. unfold zoneWith in *.
  destruct (Z.ltb_spec instant change), (Z.ltb_spec w change);
    repeat match goal with
    | |- context [?a <? ?b] => destruct (Z.ltb_spec a b)
    | H : context [?a <? ?b] |- _ => destruct (Z.ltb_spec a b)
    end; lia.
Qed.

Lemma zoneWith_seconds before_ after_ change t : before_ mod 1000 = 0 -> after_ mod 1000 = 0 ->
  offsetAt (zoneWith before_ after_ change) t = zoneWith before_ after_ change t.
Proof. intros Hb Ha. apply offset_exact. unfold zoneWith. destruct (t <? change); assumption. Qed.

(** An hour of the owner's day is the right instant also around a change of the clock:
    in a zone whose offset changes at any instant by any amount, when an instant shows the
    hour on the owner's clock and no other instant does, [atTenantHour] gives that one. *)
Theorem tenant_hour_exact (before_ after_ change : Z) (d : LocalDate) (hour instant : Z)
  (Hseconds : before_ mod 1000 = 0 /\ after_ mod 1000 = 0)
  (Hshows : wallClockOf (zoneWith before_ after_ change) instant = utcTime (ld_year d) (ld_month d) (ld_day d) hour 0 0)
  (Honce : forall other, wallClockOf (zoneWith before_ after_ change) other = utcTime (ld_year d) (ld_month d) (ld_day d) hour 0 0 -> other = instant) :
  atTenantHour (zoneWith before_ after_ change) d hour = instant.
Proof.
  destruct Hseconds as [Hb Ha]. unfold atTenantHour. cbv zeta. rewrite !(zoneWith_seconds _ _ _ _ Hb Ha).
  exact (second_guess _ _ _ _ _ Hshows Honce).
Qed.

(** The evening of the day the clock goes forward in Israel in 2026. *)
Lemma tenant_hour_exact_witness :
  let zone := zoneWith 7200000 10800000 1774569600000 in
  let d := mkLocalDate 2026 3 27 in
  wallClockOf zone 1774627200000 = utcTime 2026 3 27 19 0 0 /\ atTenantHour zone d 19 = 1774627200000.
Proof.
  intros zone d. assert (H : wallClockOf zone 1774627200000 = utcTime 2026 3 27 19 0 0) by (vm_compute; reflexivity).
  split; [exact H|]. apply (tenant_hour_exact 7200000 10800000 1774569600000 d 19 1774627200000); [split; reflexivity | exact H|].
  intros other. change (utcTime _ _ _ _ 0 0) with 1774638000000. unfold wallClockOf, zoneWith.
  destruct (Z.ltb_spec other 1774569600000); lia.
Defined.
