(* ===== verification/OpenclawConfig.v ===== *)
(** The configuration of an OpenClaw bot: the orchestrator's
    [services/agent-runtime/openclaw/config.ts] and [schema.ts], with the relay's addresses
    ([services/relay.ts]) as an argument.

    A configuration is a JSON tree whose objects keep their fields in order and hold each
    key once; a field that JavaScript leaves [undefined] is absent.  [JSON.parse] undoes
    [JSON.stringify].  The tar archives the files travel in are not modelled. *)
From Stdlib Require Import Ascii QArith.
From S2P Require Import Prelude JsString Json Fleet IntegrationTypes Backups OwnerAccess RouteSchemas PairRoutes.
From stdpp Require Import list strings.
#[local] Open Scope Z_scope.

(** ** constants.ts *)
Definition OPENCLAW_INTERNAL_PORT : Z := 18789.
Definition OPENCLAW_STATE_ROOT : string := "/home/node/.openclaw".
Definition OPENCLAW_WORKSPACE_PATH : string := OPENCLAW_STATE_ROOT +:+ "/workspace".
Definition OPENCLAW_BUSINESS_WORKSPACE_PATH : string := OPENCLAW_STATE_ROOT +:+ "/workspace-business".
Definition OPENCLAW_WHATSAPP_SESSION_PATH : string := OPENCLAW_STATE_ROOT +:+ "/whatsapp-session".

Definition PROVIDER_ENV_KEY (p : LlmProvider) : string :=
  match p with
  | Llm_anthropic => "ANTHROPIC_API_KEY" | Llm_openai => "OPENAI_API_KEY" | Llm_openrouter => "OPENROUTER_API_KEY"
  | Llm_gemini => "GEMINI_API_KEY" | Llm_litellm => "LITELLM_API_KEY"
  end.
Definition OPENCLAW_PROVIDER_PREFIX (p : LlmProvider) : string :=
  match p with
  | Llm_anthropic => "anthropic" | Llm_openai => "openai" | Llm_openrouter => "openrouter"
  | Llm_gemini => "google" | Llm_litellm => "litellm"
  end.

Definition CREDIT_PLUGIN_ID : string := "agentforall-credit".
Definition CREDIT_HOOK_TIMEOUT_MS : Z := 3000.
Definition MEDIA_PLUGIN_ID : string := "agentforall-media".
Definition MEDIA_ENV_KEY : string := "AGENTFORALL_MEDIA_API_KEY".
Definition MEMORY_PLUGIN_ID : string := "memory-core".
Definition MAIN_AGENT_ID : string := "main".
Definition BUSINESS_AGENT_ID : string := "business".
Definition OWNER_IDENTITY : string := "owner".
Definition OWNER_SESSION_KEY : string := "agent:main:direct:owner".
Definition MCP_RELAY_SERVER_NAME : string := "agentforall".
Definition WHATSAPP_CLOUD_PLUGIN_ID : string := "agentforall-whatsapp-cloud".
Definition WHATSAPP_CLOUD_CHANNEL_ID : string := "whatsapp_cloud".
Definition WHATSAPP_CLOUD_RELAY_TOKEN_ENV : string := "WHATSAPP_CLOUD_RELAY_TOKEN".
Definition WHATSAPP_CLOUD_ESCALATE_TOOL : string := "whatsapp_cloud_escalate".
Definition WHATSAPP_CLOUD_HANDOFF_TOOL : string := "whatsapp_cloud_handoff".
Definition WHATSAPP_CLOUD_REPLY_TOOL : string := "whatsapp_cloud_reply".
Definition TENANT_TIMEZONE : string := "Asia/Jerusalem".

Definition JStrs (l : list string) : Json := JArr (List.map JStr l).
(** [...(v ? { key: v } : {})]. *)
Definition opt (key : string) (v : option Json) : list (string * Json) := match v with Some j => [(key, j)] | None => [] end.
Definition whenB (b : bool) (l : list (string * Json)) : list (string * Json) := if b then l else [].

Definition STRANGER_TOOL_POLICY : Json :=
  JObj [("deny", JStrs ["group:runtime"; "group:fs"; "group:sessions"; "group:messaging"; "group:automation"; "group:web"; "group:ui";
           "group:media"; "group:agents"; "group:nodes"; "group:memory"; "group:openclaw"; "bundle-mcp";
           MCP_RELAY_SERVER_NAME +:+ "__*"; "intent"; WHATSAPP_CLOUD_HANDOFF_TOOL; WHATSAPP_CLOUD_REPLY_TOOL]);
        ("alsoAllow", JStrs [WHATSAPP_CLOUD_ESCALATE_TOOL])].

Definition HEARTBEAT (agentId : option string) : Json :=
  JObj ([("every", JStr "8h");
         ("activeHours", JObj [("start", JStr "08:00"); ("end", JStr "22:00"); ("timezone", JStr TENANT_TIMEZONE)]);
         ("isolatedSession", JBool true); ("target", JStr "owner"); ("directPolicy", JStr "allow")]
        ++ opt "agentId" (option_map JStr agentId)).

(** ** Providers *)
Definition openclawProviderId (p : ProviderConfig) : string := default (OPENCLAW_PROVIDER_PREFIX (pr_name p)) (pr_id p).

Definition envChar (c : ascii) : ascii := if isAlnum c then upperAscii c else "_"%char.
Definition providerEnvKey (p : ProviderConfig) : string :=
  match truthy (pr_baseUrl p) with
  | None => PROVIDER_ENV_KEY (pr_name p)
  | Some _ => mapString envChar (openclawProviderId p) +:+ "_API_KEY"
  end.

Definition qualifyModel (p : ProviderConfig) (model : string) : string :=
  if includes "/" model then model else openclawProviderId p +:+ "/" +:+ model.

Definition isGatewayProvider (p : ProviderConfig) : bool := match truthy (pr_baseUrl p) with Some _ => true | None => false end.

Definition validateProvider (p : ProviderConfig) : OrchError + unit :=
  match truthy (pr_id p), truthy (pr_baseUrl p) with
  | Some _, None => inl (PlainError "provider id requires provider baseUrl")
  | _, None => match pr_name p with
               | Llm_litellm => inl (PlainError "LiteLLM provider requires DEFAULT_PROVIDER_BASE_URL")
               | _ => inr tt
               end
  | _, Some _ => inr tt
  end.

Definition buildModelSelection (p : ProviderConfig) : Json :=
  JObj ([("primary", JStr (qualifyModel p (pr_model p)))] ++
    match pr_fallbacks p with
    | Some (f :: l) => [("fallbacks", JStrs (List.map (qualifyModel p) (f :: l)))]
    | _ => []
    end).

Definition keyReference (name : string) : string := "${" +:+ name +:+ "}".

Definition buildModelsConfig (p : ProviderConfig) : option Json :=
  match truthy (pr_baseUrl p) with
  | None => None
  | Some baseUrl =>
      Some (JObj [("mode", JStr "merge");
        ("providers", JObj
          (let main := (openclawProviderId p, JObj [("api", JStr "openai-completions"); ("baseUrl", JStr baseUrl);
             ("apiKey", JStr (keyReference (providerEnvKey p)));
             ("models", JArr [JObj [("id", JStr (pr_model p)); ("name", JStr (pr_model p)); ("reasoning", JBool false);
                ("input", JStrs (default ["text"] (pr_input p)));
                ("cost", JObj [("input", JInt 0); ("output", JInt 0); ("cacheRead", JInt 0); ("cacheWrite", JInt 0)]);
                ("contextWindow", JInt 200000); ("maxTokens", JInt 8192);
                ("compat", JObj [("supportsUsageInStreaming", JBool true)])]]);
             ("timeoutSeconds", JInt 300)]) in
           let mediaAuth := JObj [("api", JStr "openai-completions"); ("baseUrl", JStr baseUrl);
             ("apiKey", JStr (keyReference MEDIA_ENV_KEY)); ("models", JArr [])] in
           if str_eqb (openclawProviderId p) MEDIA_PLUGIN_ID then [(MEDIA_PLUGIN_ID, mediaAuth)]
           else [main; (MEDIA_PLUGIN_ID, mediaAuth)]))])
  end.

(** ** Media tools *)
Definition hasMedia (p : ProviderConfig) (m : string) : bool := List.existsb (str_eqb m) (default [] (pr_media p)).

(** provider, model, base url *)
Record MediaModel := mkMediaModel { mm_provider : string; mm_model : string; mm_baseUrl : option string; mm_capability : string }.
Definition mediaModelJson (m : MediaModel) : Json :=
  JObj ([("provider", JStr (mm_provider m)); ("model", JStr (mm_model m)); ("capabilities", JStrs [mm_capability m])]
        ++ opt "baseUrl" (option_map JStr (mm_baseUrl m))).
Definition mediaModelRef (m : MediaModel) : string := mm_provider m +:+ "/" +:+ mm_model m.

Definition audioMediaModel (p : ProviderConfig) : MediaModel :=
  match truthy (pr_baseUrl p) with
  | None => mkMediaModel (openclawProviderId p) (pr_model p) None "audio"
  | Some u => mkMediaModel MEDIA_PLUGIN_ID (pr_model p) (Some u) "audio"
  end.

(** The entries with the block of each: name, bytes, seconds. *)
Definition mediaModels (p : ProviderConfig) : list (MediaModel * (Z * Z)) :=
  (if hasMedia p "image" then [(mkMediaModel (openclawProviderId p) (pr_model p) None "image", (20 * 1024 * 1024, 180))] else []) ++
  (if hasMedia p "audio" then [(audioMediaModel p, (20 * 1024 * 1024, 90))] else []) ++
  (if hasMedia p "video" && negb (isGatewayProvider p)
   then [(mkMediaModel (openclawProviderId p) (pr_model p) None "video", (50 * 1024 * 1024, 180))] else []).

Definition mediaBlock (e : MediaModel * (Z * Z)) : string * Json :=
  (mm_capability e.1,
   JObj [("enabled", JBool true); ("preferredModel", JStr (mediaModelRef e.1)); ("maxBytes", JInt e.2.1); ("timeoutSeconds", JInt e.2.2)]).

(** ** The owner and strangers *)
Definition buildToolsBySender (identity : OwnerIdentity) : list (string * Json) :=
  match truthy (oi_telegramUserId identity) with Some id => [("channel:telegram:" +:+ id, JObj [])] | None => [] end ++
  match truthy (oi_whatsappNumber identity) with Some n => [("e164:" +:+ n, JObj [])] | None => [] end ++
  match truthy (oi_businessOwnerNumber identity) with Some n => [("channel:" +:+ WHATSAPP_CLOUD_CHANNEL_ID +:+ ":" +:+ n, JObj [])] | None => [] end ++
  [("*", STRANGER_TOOL_POLICY)].

Definition buildToolsConfig (p : ProviderConfig) (toolsBySender : option (list (string * Json))) : option Json :=
  let models := mediaModels p in
  let tools :=
    match models with
    | [] => []
    | _ => [("media", JObj ([("concurrency", JInt 2); ("models", JArr (List.map (fun e => mediaModelJson e.1) models))] ++ List.map mediaBlock models))]
    end ++
    match toolsBySender with
    | Some l => [("exec", JObj [("security", JStr "deny")]); ("toolsBySender", JObj l);
                 ("sessions", JObj [("visibility", JStr "all")]);
                 ("agentToAgent", JObj [("enabled", JBool true); ("allow", JStrs [MAIN_AGENT_ID; BUSINESS_AGENT_ID])])]
    | None => []
    end in
  match tools with [] => None | _ => Some (JObj tools) end.

Definition buildMcp (integrations : option IntegrationsBinding) (relayUrl : string) : option Json :=
  option_map (fun b =>
    JObj [("servers", JObj [(MCP_RELAY_SERVER_NAME,
      JObj [("transport", JStr "streamable-http"); ("url", JStr relayUrl);
            ("headers", JObj [("Authorization", JStr ("Bearer " +:+ ib_relayToken b))]);
            ("requestTimeoutMs", JInt 120000); ("connectionTimeoutMs", JInt 15000)])])]) integrations.

Definition buildSession (owner : list string) : Json :=
  JObj ([("dmScope", JStr "per-peer")] ++
    match owner with [] => [] | _ => [("identityLinks", JObj [(OWNER_IDENTITY, JStrs owner)])] end).

(** ** Channels *)
Definition dmPolicyStr (p : TelegramDmPolicy) : string :=
  match p with Tg_pairing => "pairing" | Tg_open => "open" | Tg_allowlist => "allowlist" end.

Definition whatsappDmPolicy (c : WhatsappChannelConfig) : list (string * Json) :=
  match wa_dmAccess c with
  | Some Dm_owner =>
      match truthy (wa_ownerNumber c) with
      | Some n => [("dmPolicy", JStr "allowlist"); ("allowFrom", JStrs [n])]
      | None => [("dmPolicy", JStr "pairing")]
      end
  | _ => [("dmPolicy", JStr "open"); ("allowFrom", JStrs ["*"])]
  end.

Definition buildWhatsappCloudChannel (c : WhatsappCloudChannel) (relayUrl : string) : Json :=
  JObj [("enabled", JBool true); ("dmPolicy", JStr "open"); ("allowFrom", JStrs ["*"]); ("defaultAccount", JStr "default");
        ("accounts", JObj [("default", JObj [("enabled", JBool true); ("phoneNumberId", JStr (wc_phoneNumberId c));
           ("displayPhoneNumber", JStr (wc_displayPhoneNumber c)); ("relayUrl", JStr relayUrl)])])].

(** The block of a channel; none while a Telegram bot is not linked. *)
Definition channelBlock (relayUrl : string) (ch : ChannelConfig) : option Json :=
  match ch with
  | Ch_telegram c =>
      option_map (fun token =>
        JObj ([("enabled", JBool true); ("botToken", JStr token); ("dmPolicy", JStr (dmPolicyStr (default Tg_pairing (tg_dmPolicy c))))]
          ++ match tg_allowFrom c with Some (a :: l) => [("allowFrom", JStrs (a :: l))] | _ => [] end
          ++ [("errorPolicy", JStr "once"); ("streaming", JObj [("mode", JStr "partial")]); ("groupPolicy", JStr "open");
              ("groups", JObj [("*", JObj [("requireMention", JBool true)])])])) (truthy (tg_botToken c))
  | Ch_discord token guildId =>
      Some (JObj ([("enabled", JBool true); ("token", JStr token); ("groupPolicy", JStr "allowlist")]
        ++ match truthy guildId with
           | Some g => [("guilds", JObj [(g, JObj [("requireMention", JBool false); ("channels", JObj [("*", JObj [("allow", JBool true)])])])])]
           | None => []
           end))
  | Ch_slack botToken appToken => Some (JObj [("enabled", JBool true); ("botToken", JStr botToken); ("appToken", JStr appToken)])
  | Ch_whatsapp c =>
      Some (JObj ([("enabled", JBool true)] ++ whatsappDmPolicy c ++
        [("defaultAccount", JStr "default");
         ("accounts", JObj [("default", JObj [("enabled", JBool true); ("authDir", JStr OPENCLAW_WHATSAPP_SESSION_PATH)])]);
         ("actions", JObj [("sendMessage", JBool true); ("reactions", JBool true)])]))
  | Ch_whatsapp_cloud c => Some (buildWhatsappCloudChannel c relayUrl)
  end.

(** ** Trees *)
Definition setField (key : string) (v : Json) (fields : list (string * Json)) : list (string * Json) :=
  if List.existsb (fun p => str_eqb p.1 key) fields
  then List.map (fun p => if str_eqb p.1 key then (key, v) else p) fields
  else fields ++ [(key, v)].
Definition delField (key : string) (fields : list (string * Json)) : list (string * Json) :=
  List.filter (fun p => negb (str_eqb p.1 key)) fields.

Definition buildChannels (relayUrl : string) (channels : list ChannelConfig) : list (string * Json) :=
  fold_left (fun block ch => match channelBlock relayUrl ch with Some j => setField (typeOfChannel ch) j block | None => block end) channels [].

Definition isCloud (ch : ChannelConfig) : bool := str_eqb (typeOfChannel ch) WHATSAPP_CLOUD_CHANNEL_ID.

Definition buildPlugins (channels : list ChannelConfig) : list (string * Json) :=
  let business := List.existsb isCloud channels in
  [(CREDIT_PLUGIN_ID, JObj [("enabled", JBool true);
      ("hooks", JObj [("allowConversationAccess", JBool true); ("timeoutMs", JInt CREDIT_HOOK_TIMEOUT_MS)])]);
   (MEDIA_PLUGIN_ID, JObj [("enabled", JBool true)]);
   (MEMORY_PLUGIN_ID, JObj [("enabled", JBool true);
      ("config", JObj ([("dreaming", JObj [("enabled", JBool true)])] ++
         whenB business [("memoryPolicy", JObj [("excludeSessions", JObj [("channels", JStrs [WHATSAPP_CLOUD_CHANNEL_ID])])])]))])]
  ++ whenB (List.existsb (fun ch => str_eqb (typeOfChannel ch) "whatsapp") channels) [("whatsapp", JObj [("enabled", JBool true)])]
  ++ [(WHATSAPP_CLOUD_PLUGIN_ID, JObj [("enabled", JBool true)])].

Definition expectedOpenclawPlugins (channels : list ChannelConfig) : list string :=
  List.filter (fun id => negb (str_eqb id WHATSAPP_CLOUD_PLUGIN_ID) || List.existsb isCloud channels) (List.map fst (buildPlugins channels)).

Definition businessNameOf (config : InstanceConfig) : option string :=
  option_map (fun b => match trim (wc_verifiedName b) with EmptyString => trim (ic_displayName config) | n => n end)
    (findWhatsappCloudChannel (ic_channels config)).

Definition buildBusinessAgent (config : InstanceConfig) : Json :=
  JObj (match truthy (businessNameOf config) with Some n => [("identity", JObj [("name", JStr n)])] | None => [] end ++
    [("workspace", JStr OPENCLAW_BUSINESS_WORKSPACE_PATH); ("skills", JArr []); ("memory", JObj [("search", JObj [("enabled", JBool false)])]);
     ("tools", JObj [("allow", JStrs [WHATSAPP_CLOUD_ESCALATE_TOOL])])]).

Definition binding (agentId channel : string) (peer : option string) : Json :=
  JObj [("agentId", JStr agentId);
        ("match", JObj ([("channel", JStr channel); ("accountId", JStr "*")]
           ++ opt "peer" (option_map (fun id => JObj [("kind", JStr "direct"); ("id", JStr id)]) peer)))].

Definition mainBindings (channels : list string) : list Json :=
  List.map (fun c => binding MAIN_AGENT_ID c None) (List.filter (fun c => negb (str_eqb c WHATSAPP_CLOUD_CHANNEL_ID)) channels).

Definition buildBindings (channels : list string) (identity : OwnerIdentity) : list Json :=
  match truthy (oi_businessOwnerNumber identity) with
  | Some n => [binding MAIN_AGENT_ID WHATSAPP_CLOUD_CHANNEL_ID (Some n)]
  | None => []
  end ++ [binding BUSINESS_AGENT_ID WHATSAPP_CLOUD_CHANNEL_ID None] ++ mainBindings channels.

(** ** The whole *)
Record RelayUrls := mkRelayUrls { ru_mcp : string; ru_whatsappCloud : string }.

Definition generateOpenclawConfig (config : InstanceConfig) (gatewayToken : string) (relay : RelayUrls)
  : OrchError + list (string * Json) :=
  let p := ic_provider config in
  match validateProvider p with
  | inl e => inl e
  | inr _ =>
      let model := buildModelSelection p in
      let business := match findWhatsappCloudChannel (ic_channels config) with Some _ => true | None => false end in
      let identity := ownerIdentityOf (ic_channels config) in
      let owner := ownerPeerIds identity in
      let name := trim (ic_displayName config) in
      let mainAgent := match name with EmptyString => [] | _ => [("identity", JObj [("name", JStr name)])] end in
      let channels := buildChannels (ru_whatsappCloud relay) (ic_channels config) in
      inr (
        [("agents", JObj (
           whenB business [("ownership", JStr "explicit")] ++
           [("defaults", JObj ([("model", model)] ++ whenB (hasMedia p "image") [("imageModel", model)] ++ whenB (hasMedia p "pdf") [("pdfModel", model)] ++
              [("workspace", JStr OPENCLAW_WORKSPACE_PATH); ("maxConcurrent", JInt 2);
               ("heartbeat", HEARTBEAT (if business then Some MAIN_AGENT_ID else None))] ++
              whenB business [("systemAgent", JObj [("agentId", JStr MAIN_AGENT_ID)])]));
            ("entries", JObj (if business
              then [(MAIN_AGENT_ID, JObj (mainAgent ++ [("workspace", JStr OPENCLAW_WORKSPACE_PATH)])); (BUSINESS_AGENT_ID, buildBusinessAgent config)]
              else [(MAIN_AGENT_ID, JObj mainAgent)]))]))] ++
        whenB business [("bindings", JArr (buildBindings (List.map fst channels) identity))] ++
        opt "models" (buildModelsConfig p) ++
        [("channels", JObj channels)] ++
        opt "tools" (buildToolsConfig p (if business then Some (buildToolsBySender identity) else None)) ++
        opt "mcp" (buildMcp (ic_integrations config) (ru_mcp relay)) ++
        [("plugins", JObj [("entries", JObj (buildPlugins (ic_channels config)))]);
         ("gateway", JObj [("port", JInt OPENCLAW_INTERNAL_PORT); ("mode", JStr "local"); ("bind", JStr "lan");
            ("auth", JObj [("mode", JStr "token"); ("token", JStr gatewayToken)])]);
         ("browser", JObj [("headless", JBool true); ("noSandbox", JBool true)]);
         ("session", buildSession (ownerSessionPeerIds identity))] ++
        match owner with [] => [] | _ => [("commands", JObj [("ownerAllowFrom", JStrs owner)])] end)
  end.

(** ** The environment *)
Definition isBreak (c : ascii) : bool := Ascii.eqb c "010"%char || Ascii.eqb c "013"%char || Ascii.eqb c "000"%char.

Definition addEnvLine (lines : OrchError + list string) (line : string * string) : OrchError + list string :=
  match lines with
  | inl e => inl e
  | inr l => if allChars (fun c => negb (isBreak c)) line.2 then inr (l ++ [line.1 +:+ "=" +:+ line.2])
             else inl (PlainError ("value for " +:+ line.1 +:+ " contains invalid characters"))
  end.

Definition channelEnv (ch : ChannelConfig) : list (string * string) :=
  match ch with
  | Ch_telegram c => match truthy (tg_botToken c) with Some t => [("TELEGRAM_BOT_TOKEN", t)] | None => [] end
  | Ch_discord token _ => [("DISCORD_BOT_TOKEN", token)]
  | Ch_slack botToken appToken => [("SLACK_BOT_TOKEN", botToken); ("SLACK_APP_TOKEN", appToken)]
  | Ch_whatsapp _ => []
  | Ch_whatsapp_cloud c => [(WHATSAPP_CLOUD_RELAY_TOKEN_ENV, wc_relayToken c)]
  end.

(** The variables of a bot, in the order of their lines. *)
Definition envEntries (config : InstanceConfig) (gatewayToken : string) : list (string * string) :=
  let p := ic_provider config in
  [("OPENCLAW_GATEWAY_TOKEN", gatewayToken); (providerEnvKey p, pr_apiKey p)] ++
  match pr_name p, truthy (pr_baseUrl p) with
  | Llm_litellm, Some u => [("AGENTFORALL_CREDIT_BASE_URL", u); ("AGENTFORALL_CREDIT_API_KEY", pr_apiKey p)]
  | _, _ => []
  end ++
  match truthy (pr_baseUrl p) with
  | Some u => [("AGENTFORALL_MEDIA_BASE_URL", u); (MEDIA_ENV_KEY, pr_apiKey p)]
  | None => []
  end ++
  flat_map channelEnv (ic_channels config).

Definition newline : string := String "010"%char EmptyString.

Definition generateOpenclawEnv (config : InstanceConfig) (gatewayToken : string) : OrchError + string :=
  match fold_left addEnvLine (envEntries config gatewayToken) (inr []) with
  | inl e => inl e
  | inr lines => inr (String.concat newline lines +:+ newline)
  end.

(** ** Paths *)
Fixpoint readPath (source : Json) (path : list string) : option Json :=
  match path with
  | [] => Some source
  | key :: rest =>
      match source with
      | JObj fields => match lookupField key fields with Some j => readPath j rest | None => None end
      | _ => None
      end
  end.

Fixpoint setPath (path : list string) (value : option Json) (target : list (string * Json)) : list (string * Json) :=
  match path with
  | [] => target
  | key :: rest =>
      match rest with
      | [] => match value with Some v => setField key v target | None => delField key target end
      | _ =>
          let inside := fun child =>
            let child' := setPath rest value child in
            match value, child' with
            | None, [] => delField key target
            | _, _ => setField key (JObj child') target
            end in
          match lookupField key target, value with
          | Some (JObj child), _ => inside child
          | _, None => target
          | _, Some _ => inside []
          end
      end
  end.

Definition isRecord (j : option Json) : bool := match j with Some (JObj _) => true | _ => false end.

Definition OWNED_PATHS : list (list string) :=
  [["agents"; "defaults"; "model"]; ["agents"; "defaults"; "imageModel"]; ["agents"; "defaults"; "pdfModel"];
   ["agents"; "defaults"; "heartbeat"]; ["agents"; "entries"; MAIN_AGENT_ID; "identity"; "name"];
   ["models"]; ["tools"]; ["gateway"; "port"]; ["gateway"; "mode"]; ["gateway"; "bind"]; ["gateway"; "auth"];
   ["session"]; ["commands"; "ownerAllowFrom"]; ["plugins"; "entries"; "whatsapp"]; ["plugins"; "entries"; CREDIT_PLUGIN_ID];
   ["plugins"; "entries"; MEDIA_PLUGIN_ID]; ["plugins"; "entries"; MEMORY_PLUGIN_ID]; ["plugins"; "entries"; WHATSAPP_CLOUD_PLUGIN_ID];
   ["mcp"; "servers"; MCP_RELAY_SERVER_NAME]].

Inductive ChannelType := Ct_telegram | Ct_discord | Ct_slack | Ct_whatsapp | Ct_whatsapp_cloud.
Definition channelTypeStr (t : ChannelType) : string :=
  match t with
  | Ct_telegram => "telegram" | Ct_discord => "discord" | Ct_slack => "slack" | Ct_whatsapp => "whatsapp" | Ct_whatsapp_cloud => "whatsapp_cloud"
  end.
Definition CHANNEL_TYPES : list ChannelType := [Ct_telegram; Ct_discord; Ct_slack; Ct_whatsapp; Ct_whatsapp_cloud].

Definition CHANNEL_OWNED_PATHS (t : ChannelType) : list (list string) :=
  match t with
  | Ct_telegram => [["enabled"]; ["botToken"]; ["dmPolicy"]; ["allowFrom"]; ["errorPolicy"]; ["streaming"; "mode"]]
  | Ct_discord => [["enabled"]; ["token"]; ["groupPolicy"]; ["guilds"]]
  | Ct_slack => [["enabled"]; ["botToken"]; ["appToken"]]
  | Ct_whatsapp => [["enabled"]; ["dmPolicy"]; ["allowFrom"]; ["defaultAccount"]; ["actions"]; ["accounts"; "default"; "enabled"];
                    ["accounts"; "default"; "authDir"]]
  | Ct_whatsapp_cloud => [["enabled"]; ["dmPolicy"]; ["allowFrom"]; ["defaultAccount"]; ["accounts"]]
  end.
Definition CHANNEL_DEFAULT_PATHS (t : ChannelType) : list (list string) :=
  match t with Ct_telegram => [["groupPolicy"]; ["groups"]] | _ => [] end.
Definition BUSINESS_OWNED_PATHS : list (list string) := [["agents"; "defaults"; "systemAgent"]; ["agents"; "entries"; BUSINESS_AGENT_ID]].
Definition HEARTBEAT_AGENT_PATH : list string := ["agents"; "defaults"; "heartbeat"; "agentId"].

Definition at_ (fields : list (string * Json)) (path : list string) : option Json := readPath (JObj fields) path.
Definition rendersBusiness (config : list (string * Json)) : bool :=
  match at_ config ["agents"; "entries"; BUSINESS_AGENT_ID] with Some _ => true | None => false end.

Definition channelPaths (generated live : list (string * Json)) (t : ChannelType) : list (list string) :=
  if isRecord (at_ generated ["channels"; channelTypeStr t]) then
    List.map (fun path => ["channels"; channelTypeStr t] ++ path)
      (CHANNEL_OWNED_PATHS t ++
       List.filter (fun path => match at_ live (["channels"; channelTypeStr t] ++ path) with None => true | Some _ => false end) (CHANNEL_DEFAULT_PATHS t))
  else [["channels"; channelTypeStr t]].

Definition ownedPaths (generated live : list (string * Json)) : list (list string) :=
  OWNED_PATHS ++
  (if rendersBusiness generated || rendersBusiness live then BUSINESS_OWNED_PATHS else []) ++
  flat_map (channelPaths generated live) CHANNEL_TYPES.

(** ** The roster *)
(** [String(binding.agentId)], as far as it can name an agent. *)
Fixpoint agentIdText (j : Json) : string :=
  match j with JStr s => s | JArr (x :: []) => agentIdText x | _ => EmptyString end.
Definition isOurs (binding : Json) : bool :=
  match binding with
  | JObj fields => match lookupField "agentId" fields with
                   | Some j => oneOf [MAIN_AGENT_ID; BUSINESS_AGENT_ID] (agentIdText j)
                   | None => false
                   end
  | _ => false
  end.
Definition entriesOf (config : list (string * Json)) : list Json :=
  match at_ config ["agents"; "entries"] with Some (JObj fields) => List.map snd fields | _ => [] end.
Definition isDefaultAgent (entry : Json) : bool :=
  match entry with JObj fields => match lookupField "default" fields with Some (JBool true) => true | _ => false end | _ => false end.

Definition reconcileBindings (multi : bool) (generated live : list (string * Json)) : list Json :=
  let theirs := match lookupField "bindings" live with Some (JArr l) => List.filter (fun b => negb (isOurs b)) l | _ => [] end in
  let rendered := match lookupField "channels" generated with Some (JObj l) => List.map fst l | _ => [] end in
  let ours := match lookupField "bindings" generated with Some (JArr l) => l | _ => if multi then mainBindings rendered else [] end in
  theirs ++ ours.

Definition reconcileRoster (patched generated live : list (string * Json)) : list (string * Json) :=
  let roster := entriesOf patched in
  let multi := (1 <? length roster)%nat in
  let bindings := reconcileBindings multi generated live in
  let patched := setPath ["bindings"] (match bindings with [] => None | _ => Some (JArr bindings) end) patched in
  if List.existsb isDefaultAgent roster then patched
  else
    let only := fun j : Json => if multi then Some j else None in
    setPath HEARTBEAT_AGENT_PATH (only (JStr MAIN_AGENT_ID))
      (setPath ["agents"; "defaults"; "systemAgent"] (only (JObj [("agentId", JStr MAIN_AGENT_ID)]))
        (setPath ["agents"; "entries"; MAIN_AGENT_ID; "workspace"] (only (JStr OPENCLAW_WORKSPACE_PATH))
          (setPath ["agents"; "ownership"] (only (JStr "explicit")) patched))).

(** The loop over the owned paths. *)
Definition patchOwned (generated : list (string * Json)) (paths : list (list string)) (live : list (string * Json)) : list (string * Json) :=
  fold_left (fun target path => setPath path (at_ generated path) target) paths live.

(** [generateRuntimePatchedOpenclawFiles], the configuration's side. *)
Definition patchConfig (generated live : list (string * Json)) : list (string * Json) :=
  let patched := patchOwned generated (ownedPaths generated live) live in
  if rendersBusiness generated || rendersBusiness live then reconcileRoster patched generated live
  else setPath HEARTBEAT_AGENT_PATH (at_ live HEARTBEAT_AGENT_PATH) patched.

(** [None]: a live configuration that is not an object. *)
Definition generateRuntimePatchedOpenclawFiles (live : Json) (config : InstanceConfig) (gatewayToken : string) (relay : RelayUrls)
  : OrchError + (list (string * Json) * string) :=
  match live with
  | JObj live =>
      match generateOpenclawConfig config gatewayToken relay with
      | inl e => inl e
      | inr generated =>
          match generateOpenclawEnv config gatewayToken with
          | inl e => inl e
          | inr env => inr (patchConfig generated live, env)
          end
      end
  | _ => inl (PlainError "openclaw config must be an object")
  end.

(** ** Comparing *)
(** [isDeepStrictEqual] of parsed trees: the order of an object's keys does not count. *)
Fixpoint jsonEq (a b : Json) {struct a} : bool :=
  match a, b with
  | JNull, JNull => true
  | JBool x, JBool y => Bool.eqb x y
  | JNum x, JNum y => Qeq_bool x y
  | JStr x, JStr y => str_eqb x y
  | JArr l, JArr m =>
      (fix go (l m : list Json) : bool :=
         match l, m with
         | [], [] => true
         | x :: l, y :: m => jsonEq x y && go l m
         | _, _ => false
         end) l m
  | JObj l, JObj m =>
      (length l =? length m)%nat &&
      (fix go (l : list (string * Json)) : bool :=
         match l with
         | [] => true
         | (k, x) :: l => match lookupField k m with Some y => jsonEq x y | None => false end && go l
         end) l
  | _, _ => false
  end.

Definition withoutRuntimeStamp (config : list (string * Json)) : list (string * Json) := delField "meta" config.
Definition configMatches (live desired : option Json) : bool :=
  match live, desired with
  | Some (JObj l), Some (JObj d) => jsonEq (JObj (withoutRuntimeStamp l)) (JObj (withoutRuntimeStamp d))
  | _, _ => false
  end.

Definition readOwnerAllowFrom (config : list (string * Json)) : list string :=
  match lookupField "commands" config with
  | Some (JObj commands) =>
      match lookupField "ownerAllowFrom" commands with
      | Some (JArr l) => omap (fun j => match j with JStr s => Some s | _ => None end) l
      | _ => []
      end
  | _ => []
  end.
