(* ===== verification/OpenclawProps.v ===== *)
(** What a change of a bot's configuration promises: [OpenclawConfig]. *)
From Stdlib Require Import Ascii.
From S2P Require Import Prelude JsString Json Fleet Backups OwnerAccess RouteSchemas PairRoutes OpenclawConfig.
From stdpp Require Import list strings.
#[local] Open Scope Z_scope.

(** ** Trees *)
Lemma lookup_set_same key v fields : lookupField key (setField key v fields) = Some v.
Proof.
  unfold lookupField, setField. destruct (List.existsb _ fields) eqn:E.
  - induction fields as [|[k j] fields IH]; [discriminate|]. simpl in *. destruct (str_eqb k key) eqn:Ek; simpl.
    + rewrite str_eqb_refl. reflexivity.
    + rewrite Ek. auto.
  - induction fields as [|[k j] fields IH]; simpl in *; [rewrite str_eqb_refl; reflexivity|].
    apply orb_false_iff in E as [Ek E]. rewrite Ek. auto.
Qed.

Lemma lookup_set_other key key' v fields : str_eqb key key' = false -> lookupField key' (setField key v fields) = lookupField key' fields.
Proof.
  unfold lookupField, setField. intros Hne. destruct (List.existsb _ fields) eqn:E; clear E.
  - induction fields as [|[k j] fields IH]; [reflexivity|]. simpl. destruct (str_eqb k key) eqn:Ek; simpl.
    + apply str_eqb_eq in Ek as ->. rewrite Hne. exact IH.
    + destruct (str_eqb k key'); [reflexivity | exact IH].
  - induction fields as [|[k j] fields IH]; simpl; [rewrite Hne; reflexivity|]. destruct (str_eqb k key'); [reflexivity | exact IH].
Qed.

Lemma lookup_del_same key fields : lookupField key (delField key fields) = None.
Proof.
  unfold lookupField, delField. induction fields as [|[k j] fields IH]; [reflexivity|]. simpl. destruct (str_eqb k key) eqn:E; simpl; [exact IH|].
  rewrite E. exact IH.
Qed.

Lemma lookup_del_other key key' fields : str_eqb key key' = false -> lookupField key' (delField key fields) = lookupField key' fields.
Proof.
  unfold lookupField, delField. intros Hne. induction fields as [|[k j] fields IH]; [reflexivity|]. simpl. destruct (str_eqb k key) eqn:E; simpl.
  - apply str_eqb_eq in E as ->. rewrite Hne. exact IH.
  - destruct (str_eqb k key'); [reflexivity | exact IH].
Qed.

(** Neither path leads through the other. *)
Fixpoint apart (p q : list string) : bool :=
  match p, q with a :: p, b :: q => if str_eqb a b then apart p q else true | _, _ => false end.

Lemma apart_sym : forall p q, apart p q = apart q p.
Proof.
  induction p as [|a p IH]; intros [|b q]; try reflexivity. simpl. unfold str_eqb. rewrite String.eqb_sym.
  destruct (String.eqb b a); [apply IH | reflexivity].
Qed.

Lemma at_cons fields key rest : at_ fields (key :: rest) = match lookupField key fields with Some j => readPath j rest | None => None end.
Proof. reflexivity. Qed.

Definition setInside (key : string) (child' : list (string * Json)) (value : option Json) (target : list (string * Json)) :=
  match value, child' with None, [] => delField key target | _, _ => setField key (JObj child') target end.

Lemma setPath_deep key k rest value target : setPath (key :: k :: rest) value target =
  match lookupField key target, value with
  | Some (JObj child), _ => setInside key (setPath (k :: rest) value child) value target
  | _, None => target
  | _, Some _ => setInside key (setPath (k :: rest) value []) value target
  end.
Proof. reflexivity. Qed.

(** Reading through the block that was set. *)
Lemma read_inside key child' value target rest : rest <> [] ->
  at_ (setInside key child' value target) (key :: rest) = at_ child' rest.
Proof.
  intros Hr. rewrite at_cons. unfold setInside. destruct value as [v|]; [rewrite lookup_set_same; reflexivity|].
  destruct child' as [|f child']; [|rewrite lookup_set_same; reflexivity]. rewrite lookup_del_same.
  destruct rest; [contradiction | reflexivity].
Qed.

Lemma read_beside key key' child' value target rest : str_eqb key key' = false ->
  at_ (setInside key child' value target) (key' :: rest) = at_ target (key' :: rest).
Proof.
  intros Hne. rewrite !at_cons. unfold setInside.
  destruct value, child'; rewrite ?lookup_set_other, ?lookup_del_other by exact Hne; reflexivity.
Qed.

(** A block that is no object holds nothing. *)
Lemma read_through key target rest : isRecord (lookupField key target) = false -> rest <> [] -> at_ target (key :: rest) = None.
Proof.
  intros H Hr. rewrite at_cons. destruct (lookupField key target) as [j|]; [|reflexivity]. destruct rest; [contradiction|].
  destruct j; try reflexivity. discriminate.
Qed.

Lemma read_set : forall path value target, path <> [] -> at_ (setPath path value target) path = value.
Proof.
  induction path as [|key rest IH]; intros value target Hne; [contradiction|]. destruct rest as [|k rest].
  - cbn [setPath]. rewrite at_cons. destruct value; [rewrite lookup_set_same | rewrite lookup_del_same]; reflexivity.
  - rewrite setPath_deep. assert (Hin : forall child, at_ (setInside key (setPath (k :: rest) value child) value target) (key :: k :: rest) = value)
      by (intros child; rewrite read_inside by discriminate; apply IH; discriminate).
    destruct (lookupField key target) as [j|] eqn:E; [destruct j|]; destruct value; try apply Hin; apply read_through; rewrite ?E; reflexivity || discriminate.
Qed.

Lemma read_frame : forall path other value target, apart path other = true -> at_ (setPath path value target) other = at_ target other.
Proof.
  induction path as [|key rest IH]; intros [|key' rest'] value target Ha; try discriminate. simpl in Ha.
  destruct (str_eqb key key') eqn:Ek.
  - apply str_eqb_eq in Ek as <-. destruct rest as [|k rest]; [discriminate|]. destruct rest' as [|k' rest']; [discriminate|].
    rewrite setPath_deep.
    assert (Hin : forall child, at_ (setInside key (setPath (k :: rest) value child) value target) (key :: k' :: rest') = at_ child (k' :: rest'))
      by (intros child; rewrite read_inside by discriminate; apply IH; exact Ha).
    destruct (lookupField key target) as [j|] eqn:E; [destruct j|]; destruct value; try reflexivity;
      rewrite Hin; first [rewrite (at_cons target), E; reflexivity | rewrite read_through; rewrite ?E; reflexivity || discriminate].
  - clear IH. destruct rest as [|k rest].
    + cbn [setPath]. rewrite !at_cons. destruct value; rewrite ?lookup_set_other, ?lookup_del_other by exact Ek; reflexivity.
    + rewrite setPath_deep. destruct (lookupField key target) as [j|]; [destruct j|]; destruct value; try reflexivity; apply read_beside; exact Ek.
Qed.

(** ** The owned paths *)
Fixpoint pairwiseApart (l : list (list string)) : bool :=
  match l with [] => true | p :: l => forallb (apart p) l && pairwiseApart l end.

Lemma patchOwned_frame generated paths other : forall live, forallb (apart other) paths = true ->
  at_ (patchOwned generated paths live) other = at_ live other.
Proof.
  unfold patchOwned. induction paths as [|p paths IH]; intros live H; [reflexivity|]. simpl in *. apply andb_prop in H as [Hp H].
  rewrite IH by exact H. apply read_frame. rewrite apart_sym. exact Hp.
Qed.

Lemma patchOwned_set generated path : forall paths live, pairwiseApart paths = true -> path <> [] -> In path paths ->
  at_ (patchOwned generated paths live) path = at_ generated path.
Proof.
  induction paths as [|p paths IH]; intros live Ha Hne Hin; [destruct Hin|]. simpl in Ha. apply andb_prop in Ha as [Hp Ha].
  destruct Hin as [->|Hin]; [|exact (IH _ Ha Hne Hin)].
  change (patchOwned generated (path :: paths) live) with (patchOwned generated paths (setPath path (at_ generated path) live)).
  rewrite patchOwned_frame by exact Hp. apply read_set, Hne.
Qed.

Lemma owned_apart generated live : pairwiseApart (ownedPaths generated live) = true.
Proof.
  unfold ownedPaths. cbn [flat_map CHANNEL_TYPES]. unfold channelPaths.
  destruct (rendersBusiness generated || rendersBusiness live); cbn [CHANNEL_OWNED_PATHS CHANNEL_DEFAULT_PATHS List.filter];
    destruct (isRecord (at_ generated ["channels"; channelTypeStr Ct_telegram])),
      (at_ live (["channels"; channelTypeStr Ct_telegram] ++ ["groupPolicy"])), (at_ live (["channels"; channelTypeStr Ct_telegram] ++ ["groups"])),
      (isRecord (at_ generated ["channels"; channelTypeStr Ct_discord])), (isRecord (at_ generated ["channels"; channelTypeStr Ct_slack])),
      (isRecord (at_ generated ["channels"; channelTypeStr Ct_whatsapp])), (isRecord (at_ generated ["channels"; channelTypeStr Ct_whatsapp_cloud]));
    vm_compute; reflexivity.
Qed.

Lemma owned_nonempty generated live path : In path (ownedPaths generated live) -> path <> [].
Proof.
  intros Hin ->. pose proof (owned_apart generated live) as H. apply in_split in Hin as (a & b & E).
  destruct a as [|x a]; [discriminate E|]. rewrite E in H. clear E. simpl in H. apply andb_prop in H as [H _].
  rewrite forallb_app in H. apply andb_prop in H as [_ H]. simpl in H. destruct x; discriminate.
Qed.

(** What the roster decides. *)
Definition ROSTER_PATHS : list (list string) :=
  [["bindings"]; HEARTBEAT_AGENT_PATH; ["agents"; "defaults"; "systemAgent"]; ["agents"; "entries"; MAIN_AGENT_ID; "workspace"]; ["agents"; "ownership"]].

Lemma patchConfig_frame generated live path : forallb (apart path) ROSTER_PATHS = true ->
  at_ (patchConfig generated live) path = at_ (patchOwned generated (ownedPaths generated live) live) path.
Proof.
  intros H. assert (Hr : forall p, In p ROSTER_PATHS -> apart p path = true) by (intros p Hp; rewrite apart_sym; rewrite forallb_forall in H; auto).
  unfold patchConfig. destruct (_ || _); [|apply read_frame, Hr; right; left; reflexivity].
  unfold reconcileRoster. destruct (List.existsb _ _); repeat (rewrite read_frame by (apply Hr; simpl; auto 8)); reflexivity.
Qed.


(** A live configuration with a group's settings and a hand edit. *)
Definition simLive : list (string * Json) :=
  [("agents", JObj [("defaults", JObj [("model", JStr "old"); ("theirs", JStr "kept")])]);
   ("channels", JObj [("telegram", JObj [("botToken", JStr "old"); ("groups", JObj [("-100", JNull)])]); ("slack", JObj [("enabled", JBool true)])])].
Definition simGenerated : list (string * Json) :=
  match generateOpenclawConfig (mkInstanceConfig "Bot" (mkProviderConfig Llm_openai None "key" "gpt" None None None None)
      [Ch_telegram (mkTelegram (Some "token") None None None None)] DEFAULT_RESOURCE_LIMITS None) "gateway" (mkRelayUrls "mcp" "cloud") with
  | inr g => g
  | inl _ => []
  end.


(** ** The environment *)
Definition envLine (e : string * string) : string := e.1 +:+ "=" +:+ e.2.
Definition unbroken (s : string) : bool := allChars (fun c => negb (isBreak c)) s.

Lemma addEnvLines_spec entries : forall lines,
  (forallb (fun e => unbroken e.2) entries = true /\ fold_left addEnvLine entries (inr lines) = inr (lines ++ List.map envLine entries)) \/
  (forallb (fun e => unbroken e.2) entries = false /\ exists e, fold_left addEnvLine entries (inr lines) = inl e).
Proof.
  induction entries as [|[k v] entries IH]; intros lines; [left; rewrite app_nil_r; split; reflexivity|]. cbn [fold_left addEnvLine fst snd].
  cbn [forallb snd]. unfold unbroken at 1 3. destruct (allChars _ v); cbn [andb].
  - destruct (IH (lines ++ [k +:+ "=" +:+ v])) as [[H E]|[H E]]; [left | right]; (split; [exact H|]); [|exact E].
    rewrite E. rewrite <- app_assoc. reflexivity.
  - right. split; [reflexivity|]. clear. assert (H : forall e, fold_left addEnvLine entries (inl e) = inl e) by (induction entries; auto).
    rewrite H. eauto.
Qed.

Definition noNewline (s : string) : bool := allChars (fun c => negb (Ascii.eqb c "010"%char)) s.
Lemma split_line a b : noNewline a = true -> splitOn "010" (a +:+ newline +:+ b) = a :: splitOn "010" b.
Proof. exact (splitOn_app "010" a b). Qed.

Lemma split_lines lines : Forall (fun l => noNewline l = true) lines -> lines <> [] ->
  splitOn "010" (String.concat newline lines +:+ newline) = lines ++ [EmptyString].
Proof.
  induction 1 as [|a lines Ha Hl IH]; intros Hne; [contradiction|]. destruct lines as [|b lines].
  - exact (split_line a EmptyString Ha).
  - change (String.concat newline (a :: b :: lines)) with (a +:+ newline +:+ String.concat newline (b :: lines)).
    rewrite !append_assoc_, (split_line a _ Ha), (IH ltac:(discriminate)). reflexivity.
Qed.

Lemma unbroken_noNewline s : unbroken s = true -> noNewline s = true.
Proof.
  unfold unbroken, noNewline. induction s as [|c s IH]; [reflexivity|]. simpl. intros H. apply andb_prop in H as [Hc H].
  rewrite (IH H), andb_true_r. unfold isBreak in Hc. destruct (Ascii.eqb c "010"); [discriminate | reflexivity].
Qed.

Lemma keys_noNewline config token : Forall (fun e => noNewline e.1 = true) (envEntries config token).
Proof.
  unfold envEntries. repeat (apply Forall_app; split).
  - repeat (apply Forall_cons; split; [first [reflexivity | idtac]|]); [|apply Forall_nil; exact I]. cbn [fst]. unfold providerEnvKey, noNewline.
    destruct (truthy (pr_baseUrl (ic_provider config))); [|destruct (pr_name (ic_provider config)); reflexivity]. rewrite allChars_app, andb_true_r.
    induction (openclawProviderId (ic_provider config)) as [|c0 s0 IH]; [reflexivity|]. cbn [mapString allChars]. rewrite IH, andb_true_r.
    unfold envChar. destruct c0 as [[] [] [] [] [] [] [] []]; reflexivity.
  - destruct (pr_name (ic_provider config)), (truthy (pr_baseUrl (ic_provider config))); repeat constructor.
  - destruct (truthy (pr_baseUrl (ic_provider config))); repeat constructor.
  - induction (ic_channels config) as [|ch l IH]; [constructor|]. cbn [flat_map]. apply Forall_app. split; [|exact IH].
    destruct ch as [c|t g|b a|c|c]; simpl; try destruct (truthy (tg_botToken c)); repeat constructor.
Qed.

(** C29: no secret or setting of a bot can smuggle a variable into its environment: the file
    is refused exactly when some value holds a line break or a zero byte, and otherwise its
    lines are the variables the orchestrator means, one line each, and nothing more. *)
Theorem env_no_injection (config : InstanceConfig) (token : string) :
  match generateOpenclawEnv config token with
  | inr file => splitOn "010" file = List.map envLine (envEntries config token) ++ [EmptyString] /\
                forallb (fun e => unbroken e.2) (envEntries config token) = true
  | inl _ => forallb (fun e => unbroken e.2) (envEntries config token) = false
  end.
Proof.
  unfold generateOpenclawEnv. destruct (addEnvLines_spec (envEntries config token) []) as [[H E]|[H [e E]]]; rewrite E; [|exact H].
  split; [|exact H]. cbn [app]. apply split_lines.
  - apply Forall_map. pose proof (keys_noNewline config token) as Hk. rewrite forallb_forall in H.
    rewrite Forall_forall in Hk |- *. intros e He. specialize (Hk e He). unfold envLine. cbn [compose]. unfold noNewline in *.
    rewrite !allChars_app, Hk. apply list_elem_of_In in He. exact (unbroken_noNewline _ (H e He)).
  - unfold envEntries. discriminate.
Qed.
