(* ===== verification/CloudManager.v ===== *)
(** A bot's WhatsApp Business number:
    [orchestrator/src/services/whatsapp-cloud/manager.ts], with [owner-alerts.ts]
    and [pin.ts].

    The programs run in the world of the bots ([FleetWorld]), whose rows are the
    instances the WhatsApp tables join with; [CloudWorld] is the interface of
    Meta's Graph API, the owner's Telegram and the dispatcher.
    [connectLocked], [disconnectLocked], [cleanupForDestroy] and
    [applyPartnerRemovals] are the bodies that run under the channel lock.  The
    watch over an alert to the owner's agent is noted as launched and run by
    [watchAlert].  Log lines are left out, and
    so are the fields of an event's payload. *)
From Stdlib Require Import Ascii.
From S2P Require Import Prelude JsString Json Fleet Access CloudInbox TokenBucket CloudTypes Hosts FleetStore.
From S2P Require Import IntegrationTypes FleetWorld InstanceManager.
From stdpp Require Import list strings pretty gmap.
#[local] Open Scope Z_scope.

(** ** What the manager calls *)

(** What a call to the Graph API throws: a [MetaGraphError] with its status and
    code, a [DomainError], or anything else. *)
Inductive GraphError := Ge_meta (status : Z) (code : option Z) | Ge_domain (e : OrchError) | Ge_other.
Abbreviation Graph X A := (X -> (GraphError + A) * X).

(** [OwnerTurnDelivery]. *)
Inductive OwnerTurnDelivery := Del_pending | Del_delivered | Del_failed.
#[export] Instance OwnerTurnDelivery_eq_dec : EqDecision OwnerTurnDelivery.
Proof. solve_decision. Defined.

Class CloudWorld (X : Type) := {
  graph_subscribeApp : string -> string -> Graph X unit;
  graph_unsubscribeApp : string -> string -> Graph X unit;
  graph_registerNumber : string -> string -> string -> Graph X unit;
  graph_deregisterNumber : string -> string -> Graph X unit;
  graph_getPhoneNumber : string -> string -> Graph X PhoneNumberFacts;
  graph_listPhoneNumbers : string -> string -> Graph X (list ListedPhoneNumber);
  graph_startAppDataSync : string -> string -> AppDataSyncType -> Graph X unit;
  graph_sendText : string -> string -> SendTextInput -> Graph X string;
  graph_markRead : string -> string -> string -> bool -> Graph X unit;
  (** url, mime type *)
  graph_getMediaLocation : string -> string -> Graph X (string * string);
  (** content type, body *)
  graph_downloadMedia : string * string -> string -> Graph X (string * string);
  inbox_wait : string -> Z -> Ext X (list InboxItem);
  inbox_idle : Z -> Ext X unit;
  owner_sendMessage : string -> Z -> string -> X -> (TelegramError + unit) * X;
  alert_start : string -> string -> OwnerRoute -> string -> string -> Ext X (option string);
  alert_delivery : string -> string -> string -> Ext X OwnerTurnDelivery;
  alert_cancel : string -> string -> string -> Ext X unit;
  (** How long the sleep of a watch and its question took. *)
  alertPollTook : X -> Z * X;
  freshPin : X -> string * X;
  freshRelayToken : X -> string * X;
}.


(** ** Programs *)
Definition POLL_INTERVAL_MS : Z := 5000.
Definition DELIVERY_DEADLINE_MS : Z := 3 * 60000.
Definition WATCH_FUEL : nat := 36.

Section Cloud.
Context {X : Type} `{!ContainerRuntime X, !AgentAdapter X, !Collaborators X, !CloudWorld X}.
Context (cfg : AppConfig) (sha256 : string -> string).
Implicit Types inst : Instance_.
Implicit Types channel : WhatsappCloudChannel.

(** *** Accesses *)

(** The tables, with the instances they join with. *)
Definition tablesOf (d : FleetDb X) : CloudDb :=
  let t := fd_cloud d in
  mkCloudDb (cd_nextId t) (cd_inbox t) (cd_convs t) (cd_sends t) (cd_numbers t)
    (List.map (fun r : Row => (fi_id r, fi_status r)) (fd_rows d)).

Definition onTables {A} (f : Z -> CloudDb -> (OrchError + A) * CloudDb) : Fleet X A :=
  let! t := now in
  statement (fun d => let '(r, c) := f t (tablesOf d) in (r, setCloud c d)).
Definition writeTables (f : Z -> CloudDb -> CloudDb) : Fleet X unit := onTables (fun t d => (inr tt, f t d)).
Definition readTables {A} (f : CloudDb -> A) : Fleet X A := onTables (fun _ d => (inr (f d), d)).

Definition onCloud {A} (f : CloudMemory -> A * CloudMemory) : Fleet X A :=
  onMem (fun m => let '(a, c) := f (mm_cloud m) in (a, setCloudMemory c m)).
Definition writeCloud (f : CloudMemory -> CloudMemory) : Fleet X unit := onCloud (fun m => (tt, f m)).
Definition readCloud {A} (f : CloudMemory -> A) : Fleet X A := readMem (fun m => f (mm_cloud m)).

Definition onCloudMemory (f : CloudMemory -> CloudMemory) (d : FleetDb X) : FleetDb X :=
  setMem (setCloudMemory (f (mm_cloud (fd_mem d))) (fd_mem d)) d.

(** Programs that throw what the Graph API throws. *)
Abbreviation GraphM A := (M (FleetDb X) unit GraphError A).
Definition graph {A} (op : Graph X A) : GraphM A :=
  atomic (fun d => let '(r, x) := op (fd_x d) in (r, setX x d)).

(** *** The owner *)
Definition messageOwner inst (target : OwnerTarget) (text : string) : Fleet X unit :=
  let! t := now in
  atomic (fun d =>
    let '(r, x) := owner_sendMessage (ot_botToken target) (ot_chatId target) text (fd_x d) in
    match r with
    | inr _ => (inr tt, onCloudMemory (noteTold (mkTold (fi_id inst) text t)) (setX x d))
    | inl (Te_api (Some code)) =>
        (inl (if (code =? 403) || (code =? 400) then OwnerUnreachableError else UpstreamUnavailableError "Telegram" None),
         setX x d)
    | inl _ => (inl (UpstreamUnavailableError "Telegram" None), setX x d)
    end).

Definition tokenInvalidText channel : string :=
  "החיבור של המספר העסקי " +:+ wc_displayPhoneNumber channel
  +:+ " ל-Meta פג. הסוכן לא עונה ללקוחות עד שמחברים אותו מחדש מהדשבורד.".

(** The message of [reportTokenInvalid]: whether there is nothing to try again. *)
Definition tellTokenInvalid inst channel : Fleet X bool :=
  match ownerTarget inst with
  | None => ret true
  | Some target =>
      catch (messageOwner inst target (tokenInvalidText channel);;; ret true)
        (fun err => ret (match err with OwnerUnreachableError => true | _ => false end))
  end.

Definition reportTokenInvalid inst channel : Fleet X unit :=
  let! reported := readCloud (fun m => bool_decide (fi_id inst ∈ km_tokenInvalidReported m)) in
  if reported : bool then ret tt
  else
    let! told := tellTokenInvalid inst channel in
    if negb told then ret tt
    else
      writeCloud (fun m => setReported ({[fi_id inst]} ∪ km_tokenInvalidReported m) m);;;
      attempt (append (fi_id inst) "whatsapp_cloud.token_invalid" None).

(** *** Failures of Meta *)
Definition upstreamFailed {A} (ctx : option RelayContext) (e : GraphError) : Fleet X A :=
  match e with
  | Ge_domain e => throw e
  | Ge_other => throw (UpstreamUnavailableError "WhatsApp" None)
  | Ge_meta status code =>
      (match ctx with
       | Some c =>
           when isCredentialFailure status code do
             (let! t := now in
              writeCloud (fun m => setHealthCache
                (<[fi_id (rx_instance c) := mkCached Ch_token_invalid t]> (km_healthCache m)) m);;;
              reportTokenInvalid (rx_instance c) (rx_channel c))
       | None => ret tt
       end);;;
      throw (metaFailure status code)
  end.

Definition upstream {A} (ctx : option RelayContext) (m : GraphM A) : Fleet X A :=
  fun w => match m w with
           | (inr a, w') => (inr a, w')
           | (inl e, w') => upstreamFailed ctx e w'
           end.

(** *** Connecting *)
Definition onlyNumberOf (input : ConnectInput) : Fleet X string :=
  let! numbers := upstream None (graph (graph_listPhoneNumbers (cn_wabaId input) (cn_accessToken input))) in
  match pickNumber numbers with
  | Some n => ret (ln_id n)
  | None => throw (ValidationError ("the WhatsApp Business account has " +:+ pretty (length numbers)
                     +:+ " numbers and none stands out; connect one number"))
  end.

Definition registerAtMeta (phoneNumberId : string) (input : ConnectInput) (pin : option string) : Fleet X PhoneNumberFacts :=
  upstream None
    (let! facts := graph (graph_getPhoneNumber phoneNumberId (cn_accessToken input)) in
     (match pf_isOnBizApp facts with
      | Some b => if Bool.eqb b (cn_coexistence input) then ret tt else throw (Ge_domain (NumberModeMismatchError b))
      | None => ret tt
      end);;;
     graph (graph_subscribeApp (cn_wabaId input) (cn_accessToken input));;;
     (match pin with
      | Some p => graph (graph_registerNumber phoneNumberId (cn_accessToken input) p)
      | None => ret tt
      end);;;
     ret facts).

(** One sync: whether it succeeded. *)
Definition startSync (instanceId : string) channel (syncType : AppDataSyncType) : Fleet X bool :=
  let! started := (fun w => match graph (graph_startAppDataSync (wc_phoneNumberId channel) (wc_accessToken channel) syncType) w with
                            | (inr _, w') => (inr true, w')
                            | (inl _, w') => (inr false, w')
                            end) in
  if negb started then attempt (append instanceId "whatsapp_cloud.sync_failed" None);;; ret false
  else
    let! t := now in
    writeTables (fun _ => markAppDataSynced (wc_phoneNumberId channel) syncType t);;;
    ret true.

Fixpoint syncFrom (types : list AppDataSyncType) (instanceId : string) channel (synced : list AppDataSyncType)
  : Fleet X (list AppDataSyncType) :=
  match types with
  | [] => ret synced
  | s :: rest =>
      if oneOf synced s then syncFrom rest instanceId channel synced
      else
        let! ok := startSync instanceId channel s in
        if ok : bool then syncFrom rest instanceId channel (synced ++ [s]) else ret synced
  end.

Definition syncAppData (instanceId : string) channel (done : list AppDataSyncType) : Fleet X (list AppDataSyncType) :=
  syncFrom APP_DATA_SYNC_TYPES instanceId channel done.

(** The row says another bot that is alive has the number. *)
Definition heldByOther (instanceId : string) (known : option NumberRecord) : bool :=
  match known with
  | Some k => match truthy (nu_instanceId k) with Some i => negb (str_eqb i instanceId) | None => false end
  | None => false
  end.

Definition numberTaken : OrchError := ConflictError "this WhatsApp number is already connected to a bot".

Definition orElse {A} (a b : option A) : option A := match a with Some _ => a | None => b end.
Definition knownPin (known : option NumberRecord) : option string := match known with Some k => nu_pin k | None => None end.

(** [input.pin ?? known?.pin ?? freshPin()], or none for a coexistence number. *)
Definition choosePin (coexistence : bool) (pin : option string) : Fleet X (option string) :=
  if coexistence then ret None
  else match pin with
       | Some p => ret (Some p)
       | None => let! p := ext' freshPin in ret (Some p)
       end.

Definition bind_ (phoneNumberId instanceId wabaId : string) (pin : option string) : Fleet X unit :=
  onTables (fun t => bindNumber t (mkNumberBinding phoneNumberId instanceId wabaId pin)).

Definition refreshed (existing : WhatsappCloudChannel) (facts : PhoneNumberFacts) (input : ConnectInput) (pin : option string)
  : WhatsappCloudChannel :=
  mkWhatsappCloud (cn_wabaId input) (wc_phoneNumberId existing) (orElse (cn_businessId input) (wc_businessId existing))
    (pf_displayPhoneNumber facts) (pf_verifiedName facts) (cn_accessToken input) pin (wc_coexistence existing)
    (wc_relayToken existing) (wc_ownerNumber existing).

Definition refresh (instanceId userId : string) (existing : WhatsappCloudChannel) (input : ConnectInput)
  : Fleet X WhatsappCloudView :=
  let! known := readTables (findNumber (wc_phoneNumberId existing)) in
  if heldByOther instanceId known then throw numberTaken
  else
    let! pin := choosePin (wc_coexistence existing) (orElse (orElse (cn_pin input) (knownPin known)) (wc_pin existing)) in
    let! facts := registerAtMeta (wc_phoneNumberId existing) input pin in
    bind_ (wc_phoneNumberId existing) instanceId (cn_wabaId input) pin;;;
    let channel := refreshed existing facts input pin in
    let! _ := updateChannels cfg instanceId userId (fun l => inr (Some (replaceWhatsappCloudChannel l channel))) in
    writeCloud (forgetHealth instanceId);;;
    let! synced := if wc_coexistence channel
      then syncAppData instanceId channel (match known with Some k => nu_appDataSynced k | None => [] end)
      else ret [] in
    append instanceId "whatsapp_cloud.reconnected" (Some userId);;;
    ret (viewOf channel Ch_ok (syncPendingOf channel synced)).

Definition releaseNumber_ (instanceId : string) : Fleet X unit := writeTables (fun t => releaseNumber t instanceId).

(** A number this bot did not have. *)
Definition connectNew (instanceId userId phoneNumberId : string) (input : ConnectInput) : Fleet X WhatsappCloudView :=
  let! known := readTables (findNumber phoneNumberId) in
  if heldByOther instanceId known then throw numberTaken
  else
    let! pin := choosePin (cn_coexistence input) (orElse (cn_pin input) (knownPin known)) in
    let! facts := registerAtMeta phoneNumberId input pin in
    releaseNumber_ instanceId;;;
    bind_ phoneNumberId instanceId (cn_wabaId input) pin;;;
    let! relayToken := ext' freshRelayToken in
    let channel := mkWhatsappCloud (cn_wabaId input) phoneNumberId (cn_businessId input) (pf_displayPhoneNumber facts)
      (pf_verifiedName facts) (cn_accessToken input) pin (cn_coexistence input) relayToken None in
    catch
      (let! _ := updateChannels cfg instanceId userId (fun l =>
         match findWhatsappCloudChannel l with Some _ => inr None | None => inr (Some (l ++ [Ch_whatsapp_cloud channel])) end) in ret tt)
      (fun err => attempt (releaseNumber_ instanceId);;; throw err);;;
    writeCloud (forgetHealth instanceId);;;
    (when wc_coexistence channel do writeTables (fun t => clearAppDataSync t phoneNumberId));;;
    let! synced := if wc_coexistence channel then syncAppData instanceId channel [] else ret [] in
    append instanceId "whatsapp_cloud.connected" (Some userId);;;
    ret (viewOf channel Ch_ok (syncPendingOf channel synced)).

Definition connectLocked (instanceId userId : string) (input : ConnectInput) : Fleet X WhatsappCloudView :=
  let! inst := requireOwnedInstance cfg instanceId userId in
  if negb (acceptsChannels inst) then throw (invalid (fi_status inst) "whatsapp cloud connect")
  else
    let! phoneNumberId := match cn_phoneNumberId input with Some n => ret n | None => onlyNumberOf input end in
    match findWhatsappCloudChannel (ic_channels (in_config inst)) with
    | Some existing =>
        if negb (str_eqb (wc_phoneNumberId existing) phoneNumberId)
        then throw (ConflictError "this bot already has a WhatsApp Business number; disconnect it first")
        else if negb (Bool.eqb (wc_coexistence existing) (cn_coexistence input))
        then throw (ConflictError "this number is connected the other way; disconnect it first")
        else refresh instanceId userId existing input
    | None => connectNew instanceId userId phoneNumberId input
    end.

(** *** Disconnecting *)
Definition stillOurs (instanceId : string) channel : Fleet X bool :=
  let! record := readTables (findNumber (wc_phoneNumberId channel)) in
  ret (match record with
       | None => true
       | Some r => match nu_instanceId r with None => true | Some i => str_eqb i instanceId end
       end).

(** A call to Meta whose failure is only logged. *)
Definition tryGraph (op : Graph X unit) : Fleet X unit :=
  fun w => match graph op w with (_, w') => (inr tt, w') end.

Definition leaveMeta channel : Fleet X unit :=
  tryGraph (graph_unsubscribeApp (wc_wabaId channel) (wc_accessToken channel));;;
  (when negb (wc_coexistence channel) do
     tryGraph (graph_deregisterNumber (wc_phoneNumberId channel) (wc_accessToken channel))).

Definition purge_ (instanceId : string) : Fleet X unit := writeTables (fun _ => purgeInstance instanceId).

Definition withoutCloud (l : list ChannelConfig) : list ChannelConfig := List.filter (fun c => negb (isCloudChannel c)) l.

Definition disconnectLocked (instanceId userId : string) : Fleet X unit :=
  let! inst := requireOwnedInstance cfg instanceId userId in
  let channel := findWhatsappCloudChannel (ic_channels (in_config inst)) in
  releaseNumber_ instanceId;;;
  (match channel with
   | Some ch =>
       (let! ours := stillOurs instanceId ch in when ours do leaveMeta ch);;;
       (let! _ := updateChannels cfg instanceId userId (fun l =>
          inr (if List.existsb isCloudChannel l then Some (withoutCloud l) else None)) in ret tt)
   | None => ret tt
   end);;;
  purge_ instanceId;;;
  writeCloud (forgetHealth instanceId);;;
  (match channel with
   | Some _ => append instanceId "whatsapp_cloud.disconnected" (Some userId)
   | None => ret tt
   end).

Definition cleanupForDestroy inst : Fleet X unit :=
  match findWhatsappCloudChannel (ic_channels (in_config inst)) with
  | None => ret tt
  | Some ch =>
      releaseNumber_ (fi_id inst);;;
      (let! ours := stillOurs (fi_id inst) ch in when ours do leaveMeta ch);;;
      purge_ (fi_id inst);;;
      writeCloud (forgetHealth (fi_id inst))
  end.

(** *** Health *)
Definition probeHealth inst channel : Fleet X ChannelHealth :=
  fun w => match graph (graph_getPhoneNumber (wc_phoneNumberId channel) (wc_accessToken channel)) w with
           | (inr _, w') => (inr Ch_ok, w')
           | (inl (Ge_meta status code), w') =>
               if isCredentialFailure status code
               then (let! _ := reportTokenInvalid inst channel in ret Ch_token_invalid) w'
               else (inr Ch_unknown, w')
           | (inl _, w') => (inr Ch_unknown, w')
           end.

Definition freshHealth (now : Z) (cached : option CachedHealth) : option ChannelHealth :=
  match cached with Some c => if now - hc_at c <? HEALTH_CACHE_MS then Some (hc_health c) else None | None => None end.

Definition health inst channel : Fleet X ChannelHealth :=
  let! cached := readCloud (fun m => km_healthCache m !! fi_id inst) in
  let! t := now in
  match freshHealth t cached with
  | Some h => ret h
  | None =>
      let! h := probeHealth inst channel in
      writeCloud (fun m => setHealthCache (<[fi_id inst := mkCached h t]> (km_healthCache m)) m);;;
      ret h
  end.

Definition status (instanceId userId : string) : Fleet X WhatsappCloudView :=
  let! inst := requireOwnedInstance cfg instanceId userId in
  match findWhatsappCloudChannel (ic_channels (in_config inst)) with
  | None => ret NOT_CONNECTED
  | Some channel =>
      let! synced := if wc_coexistence channel
        then let! n := readTables (findNumber (wc_phoneNumberId channel)) in
             ret (match n with Some k => nu_appDataSynced k | None => [] end)
        else ret [] in
      let! h := health inst channel in
      ret (viewOf channel h (syncPendingOf channel synced))
  end.

(** *** The relay *)
Definition tokensMatch (presented expected : string) : bool := str_eqb (sha256 presented) (sha256 expected).

Definition resolveRelay (instanceId bearer : string) : Fleet X RelayContext :=
  let! o := findInstance cfg instanceId in
  match o with
  | None => throw AuthenticationError
  | Some inst =>
      if negb (isLive inst) then throw AuthenticationError
      else match findWhatsappCloudChannel (ic_channels (in_config inst)) with
           | Some channel =>
               if tokensMatch bearer (wc_relayToken channel) then ret (mkRelay inst channel) else throw AuthenticationError
           | None => throw AuthenticationError
           end
  end.

Definition recordHandoff (instanceId : string) : Fleet X unit := attempt (append instanceId "whatsapp_cloud.handoff" None).

Definition removalText channel : string :=
  "המספר העסקי " +:+ wc_displayPhoneNumber channel
  +:+ " נותק מהסוכן מתוך אפליקציית WhatsApp Business. כדי שהסוכן יענה בו שוב, חברו אותו מחדש מהדשבורד.".

Definition applyPartnerRemovals (instanceId : string) (wabaIds : list string) : Fleet X bool :=
  let! o := findInstance cfg instanceId in
  match o with
  | None => ret false
  | Some inst =>
      match findWhatsappCloudChannel (ic_channels (in_config inst)) with
      | None => ret false
      | Some channel =>
          if negb (List.existsb (str_eqb (wc_wabaId channel)) wabaIds) then ret false
          else
            releaseNumber_ instanceId;;;
            (let! _ := updateChannels cfg instanceId (fi_userId inst) (fun l => inr (Some (withoutCloud l))) in ret tt);;;
            purge_ instanceId;;;
            writeCloud (forgetHealth instanceId);;;
            attempt (append instanceId "whatsapp_cloud.partner_removed" None);;;
            (match ownerTarget inst with
             | Some target => attempt (messageOwner inst target (removalText channel))
             | None => ret tt
             end);;;
            ret true
      end
  end.

Definition removalOf (i : InboxItem) : option (Z * string) :=
  match i with It_partner_removed id _ waba _ => Some (id, waba) | _ => None end.
Definition echoOf (i : InboxItem) : option OwnerEchoHold :=
  match i with It_owner_echo id _ to t => Some (mkEchoHold id to t) | _ => None end.
Definition isCustomerMessage (i : InboxItem) : bool := match i with It_message _ _ _ _ _ _ => true | _ => false end.

Definition ackIds (instanceId : string) (ids : list Z) : Fleet X Z :=
  onTables (fun t d => let '(n, d') := ack t instanceId ids d in (inr n, d')).

Definition applyEchoes (instanceId : string) (echoes : list OwnerEchoHold) : Fleet X unit :=
  match echoes with
  | [] => ret tt
  | _ =>
      let! held := onTables (fun t d => let '(l, d') := applyOwnerEchoes t instanceId echoes OWNER_HOLD_MS d in (inr l, d')) in
      forM held (fun _ => recordHandoff instanceId)
  end.

Definition idlesFor (now : Z) (h : option CachedHealth) : bool :=
  match h with
  | Some h => bool_decide (hc_health h = Ch_token_invalid) && (now - hc_at h <? TOKEN_INVALID_IDLE_MS)
  | None => false
  end.

Definition pull (instanceId : string) (waitMs : Z) : Fleet X (list InboxItem) :=
  let! h := readCloud (fun m => km_healthCache m !! instanceId) in
  let! t := now in
  if idlesFor t h then ext (inbox_idle waitMs);;; ret []
  else
    let! items := ext (inbox_wait instanceId waitMs) in
    let! detached := match omap removalOf items with
      | [] => ret false
      | removals =>
          let! detached := applyPartnerRemovals instanceId (List.map snd removals) in
          let! _ := ackIds instanceId (List.map fst removals) in
          ret detached
      end in
    if detached : bool then ret []
    else
      applyEchoes instanceId (omap echoOf items);;;
      ret (List.filter isCustomerMessage items).

(** *** Sending *)
Definition takeToken channel : Fleet X bool :=
  let! t := now in
  onCloud (fun m =>
    let b := wc_coexistence channel in
    let '(ok, buckets) := take_ (if b then COEXISTENCE_SEND_RATE_PER_SECOND else SEND_RATE_PER_SECOND) BUCKET_IDLE_MS t
      (wc_phoneNumberId channel) (if b then km_coexistenceSendBuckets m else km_sendBuckets m) in
    (ok, setBuckets b buckets m)).

(** The call that makes Meta send; what Meta took is noted. *)
Definition sendAtMeta channel (input : SendTextInput) : GraphM string :=
  let! t := now in
  atomic (fun d =>
    let '(r, x) := graph_sendText (wc_phoneNumberId channel) (wc_accessToken channel) input (fd_x d) in
    (r, match r with
        | inr wamid => onCloudMemory (noteSent (mkSent (wc_phoneNumberId channel) (st_to input) t wamid)) (setX x d)
        | inl _ => setX x d
        end)).

Definition send (ctx : RelayContext) (input : SendTextInput) : Fleet X string :=
  let instanceId := fi_id (rx_instance ctx) in
  let! conversation := readTables (findConversation instanceId (st_to input)) in
  let! t := now in
  if negb (isWithinCustomerWindow (match conversation with Some c => cv_lastInboundAt c | None => None end) t)
  then throw CustomerWindowClosedError
  else if bool_decide (st_kind input = Send_reply) && match conversation with Some c => isHeldByOwner c t | None => false end
  then throw ConversationHeldByOwnerError
  else
    let! taken := takeToken (rx_channel ctx) in
    if negb taken then throw (UpstreamRateLimitedError "WhatsApp")
    else
      let! wamid := upstream (Some ctx) (sendAtMeta (rx_channel ctx) input) in
      attempt
        (writeTables (fun _ => touchOutbound instanceId (st_to input) t);;;
         writeTables (fun t => recordSend t instanceId (st_to input) wamid (st_kind input)));;;
      ret wamid.

Definition markRead (ctx : RelayContext) (wamid : string) (typing : bool) : Fleet X unit :=
  upstream (Some ctx)
    (graph (graph_markRead (wc_phoneNumberId (rx_channel ctx)) (wc_accessToken (rx_channel ctx)) wamid typing)).

Definition media (ctx : RelayContext) (mediaId : string) : Fleet X (string * string) :=
  upstream (Some ctx)
    (let! location := graph (graph_getMediaLocation mediaId (wc_accessToken (rx_channel ctx))) in
     graph (graph_downloadMedia location (wc_accessToken (rx_channel ctx)))).

(** *** Conversations *)
Definition withMode (mode : ConversationMode) (c : Conversation) : Conversation :=
  mkConversation (cv_instanceId c) (cv_waId c) (cv_profileName c) (cv_lastInboundAt c) (cv_lastOutboundAt c) mode
    (cv_heldUntil c) (cv_modeChangedAt c) (cv_updatedAt c).

Definition conversation (ctx : RelayContext) (waId : string) : Fleet X (option Conversation) :=
  let! found := readTables (findConversation (fi_id (rx_instance ctx)) waId) in
  let! t := now in
  ret (option_map (fun c => withMode (if isHeldByOwner c t then Mode_human else Mode_bot) c) found).

Definition writeMode (instanceId waId : string) (mode : ConversationMode) : Fleet X (option Conversation) :=
  onTables (fun t d => let '(o, d') := CloudInbox.setMode t instanceId waId mode d in (inr o, d')).

Definition setMode_ (ctx : RelayContext) (waId : string) (mode : ConversationMode) : Fleet X Conversation :=
  let inst := rx_instance ctx in
  if bool_decide (mode = Mode_human) && negb (wc_coexistence (rx_channel ctx)) && isNone (ownerTarget inst)
  then throw (ValidationError "this bot has no Telegram owner to hand the conversation to")
  else
    let! updated := writeMode (fi_id inst) waId mode in
    match updated with
    | None => throw (NotFoundError "conversation" waId)
    | Some c => append (fi_id inst) "whatsapp_cloud.handoff" None;;; ret c
    end.

(** *** Escalating *)
Definition handBackToBot (ctx : RelayContext) (waId : string) : Fleet X EscalationResult :=
  let! _ := writeMode (fi_id (rx_instance ctx)) waId Mode_bot in
  append (fi_id (rx_instance ctx)) "whatsapp_cloud.handoff" None;;;
  ret (mkEscalated false true).

Definition escalationText (input : EscalationInput) (c : Conversation) : string :=
  let name := match truthy (cv_profileName c) with Some n => oneLine n PROFILE_NAME_MAX_CHARS | None => EmptyString end in
  let who := match truthy (Some name) with
             | Some n => n +:+ " (+" +:+ es_waId input +:+ ")"
             | None => "+" +:+ es_waId input
             end in
  let lead := match es_kind input with
              | Esc_forward => "לקוח ב-" +:+ CHANNEL_LABEL +:+ " כתב לך (השיחה אצלך):"
              | Esc_request => "לקוח ב-" +:+ CHANNEL_LABEL +:+ " מבקש אותך."
              end in
  lead +:+ String "010"%char "מי: " +:+ who +:+ String "010"%char "מה: " +:+ oneLine (es_summary input) OWNER_MESSAGE_MAX_CHARS.

(** [AgentOwnerAlerts.start]: whether the agent took the alert; the watch is launched. *)
Definition startAlert inst (route : OwnerRoute) (waId : string) (target : OwnerTarget) (text : string) : Fleet X bool :=
  match truthy (fi_containerId inst) with
  | None => ret false
  | Some c =>
      catch
        (let! _ := host cfg (fi_hostId inst) in
         let! key := ext' randomUUID in
         let! id := ext (alert_start (fi_hostId inst) c route key waId) in
         match truthy id with
         | None => ret false
         | Some id => writeCloud (launchAlert (mkAlert inst c id target waId text));;; ret true
         end)
        (fun _ => ret false)
  end.

(** Nobody to tell on Telegram. *)
Definition escalateWithoutTarget (ctx : RelayContext) (input : EscalationInput) : Fleet X EscalationResult :=
  let instanceId := fi_id (rx_instance ctx) in
  if wc_coexistence (rx_channel ctx) then
    let! held := onTables (fun t d => let '(b, d') := holdIn instanceId (es_waId input) t OWNER_HOLD_MS t d in (inr b, d')) in
    (when held do recordHandoff instanceId);;;
    ret (mkEscalated true false)
  else match es_kind input with
       | Esc_forward => handBackToBot ctx (es_waId input)
       | Esc_request => throw (ValidationError "this bot has no Telegram owner to escalate to")
       end.

(** A slot is taken: through the owner's agent, or directly. *)
Definition escalateTo (ctx : RelayContext) (input : EscalationInput) (target : OwnerTarget) (slot : Slot) (text : string)
  : Fleet X EscalationResult :=
  let inst := rx_instance ctx in
  let! viaAgent := match es_kind input, ownerRouteOf inst with
    | Esc_request, Some route => startAlert inst route (es_waId input) target text
    | _, _ => ret false
    end in
  if viaAgent : bool then append (fi_id inst) "whatsapp_cloud.escalated" None;;; ret (mkEscalated true false)
  else
    let! failed := catch (messageOwner inst target text;;; ret None)
      (fun err => writeCloud (releaseSlot (fi_id inst) (es_waId input) (es_kind input) slot);;; ret (Some err)) in
    match failed, es_kind input with
    | None, _ => append (fi_id inst) "whatsapp_cloud.escalated" None;;; ret (mkEscalated true false)
    | Some OwnerUnreachableError, Esc_forward => handBackToBot ctx (es_waId input)
    | Some err, _ => throw err
    end.

Definition escalate (ctx : RelayContext) (input : EscalationInput) : Fleet X EscalationResult :=
  let inst := rx_instance ctx in
  let! found := readTables (findConversation (fi_id inst) (es_waId input)) in
  match found with
  | None => throw (NotFoundError "conversation" (es_waId input))
  | Some c =>
      if bool_decide (es_kind input = Esc_forward) && wc_coexistence (rx_channel ctx) then ret (mkEscalated true false)
      else match ownerTarget inst with
           | None => escalateWithoutTarget ctx input
           | Some target =>
               let! t := now in
               let! slot := onCloud (reserveEscalation t (fi_id inst) (es_waId input) (es_kind input)) in
               match slot with
               | None => ret (mkEscalated false false)
               | Some slot => escalateTo ctx input target slot (escalationText input c)
               end
           end
  end.

(** *** Watching an alert

    [elapsed] is the time since the alert was started; [fuel] bounds the questions. *)
Fixpoint awaitDelivery (fuel : nat) (elapsed : Z) (a : OwnerAlert) (outcome : OwnerTurnDelivery) : Fleet X OwnerTurnDelivery :=
  match fuel with
  | O => ret outcome
  | S fuel' =>
      if negb (bool_decide (outcome = Del_pending)) || (DELIVERY_DEADLINE_MS <=? elapsed) then ret outcome
      else
        let! took := ext' alertPollTook in
        let! next := ext (alert_delivery (fi_hostId (oa_instance a)) (oa_containerId a) (oa_alertId a)) in
        awaitDelivery fuel' (elapsed + took) a next
  end.

Definition watchAlert (a : OwnerAlert) : Fleet X unit :=
  let! outcome := awaitDelivery WATCH_FUEL 0 a Del_pending in
  attempt (ext (alert_cancel (fi_hostId (oa_instance a)) (oa_containerId a) (oa_alertId a)));;;
  if bool_decide (outcome = Del_delivered) then ret tt
  else
    attempt (messageOwner (oa_instance a) (oa_target a) (oa_text a);;;
             append (fi_id (oa_instance a)) "whatsapp_cloud.escalated" None).
End Cloud.

(** ** The requests

    The requests about a bot's WhatsApp Business number: the dashboard's, in
    [orchestrator/src/routes/whatsapp-cloud.ts], and the container's, in
    [routes/whatsapp-cloud-relay.ts].

    A body is what its schema accepted, [None] one it refused; an id in a path is a
    well-formed uuid.  [connect], [disconnect] and the removals in [pull] run under the
    channel lock of the bot. *)
(** ** whatsapp-cloud.ts *)
Inductive CloudRequest :=
| Cr_connect (body : option ConnectInput)
| Cr_disconnect
| Cr_status.

(** ** whatsapp-cloud-relay.ts *)
Inductive RelayRequest :=
| Rr_inbox (wait : Z)
| Rr_ack (ids : list Z)
| Rr_send (body : SendTextInput)
| Rr_read (wamid : string) (typing : bool)
| Rr_media (mediaId : string)
| Rr_escalate (body : EscalationInput)
| Rr_conversation (waId : string)
| Rr_mode (waId : string) (mode : ConversationMode).

Inductive CloudReply :=
| Cp_view (status : Z) (v : WhatsappCloudView)
| Cp_empty
| Cp_items (l : list InboxItem)
| Cp_acked (n : Z)
| Cp_sent (wamid : string)
| Cp_media (contentType body : string)
| Cp_escalated (r : EscalationResult)
| Cp_conversation (c : option Conversation)
| Cp_invalid.

(** What the two [refine]s of the connect body check. *)
Definition connectBodyOk (b : ConnectInput) : bool :=
  (cn_coexistence b || (isSome (cn_phoneNumberId b) && isSome (cn_businessId b)))
  && (negb (cn_coexistence b) || isNone (cn_pin b)).

Section Routes.
Context {X : Type} `{!ContainerRuntime X, !AgentAdapter X, !Collaborators X, !CloudWorld X}.
Context (cfg : AppConfig) (sha256 : string -> string).

(** [userId] is the authenticated user. *)
Definition whatsappCloudRoute (id userId : string) (r : CloudRequest) : Fleet X CloudReply :=
  match r with
  | Cr_connect None => ret Cp_invalid
  | Cr_connect (Some body) =>
      if connectBodyOk body then
        let! view := connectLocked cfg id userId body in ret (Cp_view 201 view)
      else ret Cp_invalid
  | Cr_disconnect => disconnectLocked cfg id userId;;; ret Cp_empty
  | Cr_status => let! view := status cfg id userId in ret (Cp_view 200 view)
  end.

(** The [preHandler]. *)
Definition relayContext (instanceId : string) (authorization : option string) : Fleet X RelayContext :=
  match extractBearer authorization with
  | None => throw AuthenticationError
  | Some bearer => resolveRelay cfg sha256 instanceId bearer
  end.

Definition relayHandler (ctx : RelayContext) (r : RelayRequest) : Fleet X CloudReply :=
  let id := fi_id (rx_instance ctx) in
  match r with
  | Rr_inbox wait => let! items := pull cfg id wait in ret (Cp_items items)
  | Rr_ack ids => let! n := ackIds id ids in ret (Cp_acked n)
  | Rr_send body => let! wamid := send ctx body in ret (Cp_sent wamid)
  | Rr_read wamid typing => markRead ctx wamid typing;;; ret Cp_empty
  | Rr_media mediaId => let! m := media ctx mediaId in ret (Cp_media m.1 m.2)
  | Rr_escalate body => let! r := escalate cfg ctx body in ret (Cp_escalated r)
  | Rr_conversation waId => let! c := conversation ctx waId in ret (Cp_conversation c)
  | Rr_mode waId mode => let! c := setMode_ ctx waId mode in ret (Cp_conversation (Some c))
  end.

Definition relayRoute (instanceId : string) (authorization : option string) (body : option RelayRequest) : Fleet X CloudReply :=
  let! ctx := relayContext instanceId authorization in
  match body with
  | Some r => relayHandler ctx r
  | None => ret Cp_invalid
  end.
End Routes.
