(* ===== verification/CloudTenants.v ===== *)
(** That bots do not touch each other's WhatsApp Business data:
    [orchestrator/src/services/whatsapp-cloud/manager.ts]. *)
From S2P Require Import Prelude Fleet Access Hosts FleetStore FleetWorld InstanceManager FleetLogic FleetGuar.
From S2P Require Import CloudInbox TokenBucket CloudTypes CloudManager.
From stdpp Require Import list strings gmap.
#[local] Open Scope Z_scope.

(** ** Tenants *)
Definition phones (t : CloudDb) : list string := List.map nr_phoneNumberId (cd_numbers t).
Definition holders (t : CloudDb) : list string := omap nr_instanceId (cd_numbers t).

(** The primary key and the unique index of the numbers. *)
Definition NumbersOk (t : CloudDb) : Prop := NoDup (phones t) /\ NoDup (holders t).

(** What a number is bound to. *)
Definition bindingOf (n : NumberRow) : string * option string * string * option string :=
  (nr_phoneNumberId n, nr_instanceId n, nr_wabaId n, nr_pin n).

Definition ofOther {A} (b : string) (key : A -> string) (l : list A) : list A :=
  List.filter (fun a => negb (str_eqb (key a) b)) l.

(** A step of bot [b]'s on the tables: numbers of other bots that are alive stay bound
    to them, and the rows of other bots stay. *)
Record TablesOwn (b : string) (t t' : CloudDb) : Prop := mkTablesOwn {
  to_numbers : NumbersOk t -> NumbersOk t' /\
    forall n a, In n (cd_numbers t) -> nr_instanceId n = Some a -> a <> b -> isGone a t = false ->
      exists n', In n' (cd_numbers t') /\ bindingOf n' = bindingOf n;
  to_inbox : ofOther b ib_instanceId (cd_inbox t') = ofOther b ib_instanceId (cd_inbox t);
  to_convs : ofOther b cv_instanceId (cd_convs t') = ofOther b cv_instanceId (cd_convs t);
  to_sends : ofOther b sr_instanceId (cd_sends t') = ofOther b sr_instanceId (cd_sends t);
}.

Record MemoryOwn (b : string) (m m' : CloudMemory) : Prop := mkMemoryOwn {
  mo_health : forall a, a <> b -> km_healthCache m' !! a = km_healthCache m !! a;
  mo_tokens : forall a, a <> b -> km_escalationsPerBot m' !! a = km_escalationsPerBot m !! a;
  mo_reported : forall a, a <> b -> (a ∈ km_tokenInvalidReported m' <-> a ∈ km_tokenInvalidReported m);
}.

Record CloudOwn (b : string) {X} (d d' : FleetDb X) : Prop := mkCloudOwn {
  co_tables : TablesOwn b (tablesOf d) (fd_cloud d');
  co_memory : MemoryOwn b (mm_cloud (fd_mem d)) (mm_cloud (fd_mem d'));
}.

Lemma memoryOwn_refl b m : MemoryOwn b m m.
Proof. constructor; auto. Qed.

Lemma tablesOwn_same b (t t' : CloudDb) :
  cd_numbers t' = cd_numbers t -> cd_inbox t' = cd_inbox t -> cd_convs t' = cd_convs t -> cd_sends t' = cd_sends t ->
  TablesOwn b t t'.
Proof.
  intros En Ei Ec Es. constructor; try (rewrite ?Ei, ?Ec, ?Es; reflexivity).
  unfold NumbersOk, phones, holders. rewrite En. intros H. split; [exact H|]. intros n a Hin _ _ _. exists n. auto.
Qed.

Lemma cloudOwn_idle b {X} (d d' : FleetDb X) :
  fd_cloud d' = fd_cloud d -> mm_cloud (fd_mem d') = mm_cloud (fd_mem d) -> CloudOwn b d d'.
Proof.
  intros E E'. constructor; [apply tablesOwn_same; rewrite E; reflexivity | rewrite E'; apply memoryOwn_refl].
Qed.

#[export] Instance cloudOwn_step b {X} : FleetStep (@CloudOwn b X).
Proof. constructor; [intros; apply cloudOwn_idle; reflexivity | intros x d d' []; constructor; assumption]. Qed.

(** *** The statements *)
Lemma ofOther_update {A} b (key : A -> string) (p : A -> bool) (f : A -> A) l :
  (forall a, p a = true -> key a = b) -> (forall a, key (f a) = key a) ->
  ofOther b key (update_where p f l) = ofOther b key l.
Proof.
  intros Hp Hf. unfold ofOther, update_where. induction l as [|a l IH]; simpl; [reflexivity|].
  destruct (p a) eqn:E; simpl; [|rewrite IH; reflexivity].
  rewrite Hf, (Hp a E), str_eqb_refl. exact IH.
Qed.

Lemma ofOther_snoc {A} b (key : A -> string) l (a : A) : key a = b -> ofOther b key (l ++ [a]) = ofOther b key l.
Proof. intros E. unfold ofOther. rewrite List.filter_app. simpl. rewrite E, str_eqb_refl. simpl. apply app_nil_r. Qed.

Lemma ofOther_purge {A} b (key : A -> string) l :
  ofOther b key (List.filter (fun r => negb (str_eqb (key r) b)) l) = ofOther b key l.
Proof.
  unfold ofOther. induction l as [|a l IH]; simpl; [reflexivity|].
  destruct (str_eqb (key a) b) eqn:E; simpl; [exact IH | rewrite E; simpl; rewrite IH; reflexivity].
Qed.

(** A statement on the numbers only. *)
Lemma own_numbers b t f :
  (NumbersOk t -> NumbersOk (setNumbers f t) /\
     forall n a, In n (cd_numbers t) -> nr_instanceId n = Some a -> a <> b -> isGone a t = false ->
       exists n', In n' f /\ bindingOf n' = bindingOf n) ->
  TablesOwn b t (setNumbers f t).
Proof. intros H. constructor; try reflexivity. exact H. Qed.

(** An update of numbers that binds nothing anew. *)
Lemma own_update_numbers b t (p : NumberRow -> bool) (f : NumberRow -> NumberRow) :
  (forall n, nr_phoneNumberId (f n) = nr_phoneNumberId n) ->
  (forall n, nr_instanceId (f n) = nr_instanceId n \/ nr_instanceId (f n) = None) ->
  (forall n a, p n = true -> nr_instanceId n = Some a -> a <> b -> bindingOf (f n) = bindingOf n) ->
  TablesOwn b t (setNumbers (update_where p f (cd_numbers t)) t).
Proof.
  intros H1 H2 H3. apply own_numbers. intros [Hp Hh]. split; [split|].
  - unfold phones in *. simpl. rewrite map_update_where; [exact Hp | intros n _; apply H1].
  - unfold holders in *. simpl. eapply sublist_NoDup; [exact Hh|]. clear -H2. unfold update_where.
    induction (cd_numbers t) as [|n l IH]; simpl; [constructor|].
    assert (E : nr_instanceId (if p n then f n else n) = nr_instanceId n \/ nr_instanceId (if p n then f n else n) = None).
    { destruct (p n); [apply H2 | left; reflexivity]. }
    destruct E as [->| ->]; destruct (nr_instanceId n); try exact IH; [apply sublist_skip | apply sublist_cons]; exact IH.
  - intros n a Hin Ha Hne _. destruct (p n) eqn:E.
    + exists (f n). split; [|eapply H3; eassumption]. apply in_update_where. exists n. rewrite E. auto.
    + exists n. split; [|reflexivity]. apply in_update_where. exists n. rewrite E. auto.
Qed.

Lemma own_release b now t : TablesOwn b t (releaseNumber now b t).
Proof.
  apply own_update_numbers; [reflexivity | right; reflexivity|].
  intros n a Hp Ha Hne. unfold holdsNumber in Hp. rewrite Ha in Hp. simpl in Hp. apply str_eqb_eq in Hp. congruence.
Qed.

Lemma own_mark b t phone s at_ : TablesOwn b t (markAppDataSynced phone s at_ t).
Proof. apply own_update_numbers; intros n; destruct s; auto. Qed.

Lemma own_clear b now t phone : TablesOwn b t (clearAppDataSync now phone t).
Proof. apply own_update_numbers; intros n; auto. Qed.

Lemma holders_in (l : list NumberRow) a : a ∈ omap nr_instanceId l <-> exists n, In n l /\ nr_instanceId n = Some a.
Proof.
  rewrite list_elem_of_omap. split; intros (n & Hn & E); exists n; split; try assumption; apply list_elem_of_In; assumption.
Qed.

Lemma phone_unique t n n' : NoDup (phones t) -> In n (cd_numbers t) -> In n' (cd_numbers t) ->
  nr_phoneNumberId n = nr_phoneNumberId n' -> n = n'.
Proof.
  unfold phones. induction (cd_numbers t) as [|x l IH]; simpl; [intros _ []|].
  intros Hnd Hn Hn' E. apply NoDup_cons in Hnd as [Hx Hl].
  assert (Hnot : forall y, In y l -> nr_phoneNumberId y <> nr_phoneNumberId x).
  { intros y Hy Ey. apply Hx. rewrite <- Ey. apply list_elem_of_In, in_map. exact Hy. }
  destruct Hn as [->|Hn], Hn' as [->|Hn']; auto; exfalso; [eapply Hnot | eapply Hnot]; eauto.
Qed.

Lemma existsb_false {A} (p : A -> bool) l : List.existsb p l = false <-> forall x, In x l -> p x = false.
Proof.
  induction l as [|x l IH]; simpl; [split; [intros _ _ [] | auto]|].
  rewrite Bool.orb_false_iff, IH. split; [intros [E H] y [<-|Hy]; auto | auto].
Qed.

Lemma split_number t phone n : NoDup (phones t) -> List.find (isNumber phone) (cd_numbers t) = Some n ->
  exists l1 l2, cd_numbers t = l1 ++ n :: l2 /\ isNumber phone n = true /\
    forall f, update_where (isNumber phone) f (cd_numbers t) = l1 ++ f n :: l2.
Proof.
  unfold phones. induction (cd_numbers t) as [|x l IH]; simpl; [discriminate|].
  intros Hnd H. apply NoDup_cons in Hnd as [Hx Hl]. destruct (isNumber phone x) eqn:E.
  - injection H as <-. exists [], l. split; [reflexivity|]. split; [exact E|]. intros f. simpl. unfold update_where. f_equal.
    rewrite <- (List.map_id l) at 2. apply List.map_ext_in. intros y Hy. destruct (isNumber phone y) eqn:Ey; [|reflexivity].
    exfalso. apply Hx. apply str_eqb_eq in E, Ey. rewrite E, <- Ey. apply list_elem_of_In, in_map. exact Hy.
  - destruct (IH Hl H) as (l1 & l2 & -> & En & Hf). exists (x :: l1), l2. split; [reflexivity|]. split; [exact En|].
    intros f. simpl. rewrite <- Hf. reflexivity.
Qed.

Lemma own_bind b now (nb : NumberBinding) t : nb_instanceId nb = b -> TablesOwn b t (bindNumber now nb t).2.
Proof.
  intros <-. unfold bindNumber. destruct (List.find _ (cd_numbers t)) as [n|] eqn:Ef.
  - destruct (mayClaim nb t n) eqn:Em; simpl; [|apply tablesOwn_same; reflexivity].
    destruct (List.existsb _ (cd_numbers t)) eqn:Et; simpl; [apply tablesOwn_same; reflexivity|].
    apply own_numbers. intros [Hp Hh]. pose proof Hp as Hnd. unfold NumbersOk, phones, holders in *.
    destruct (split_number t _ n Hnd Ef) as (l1 & l2 & El & En & Hf). rewrite Hf. clear Hf.
    assert (Hfree : forall x, In x (l1 ++ l2) -> nr_instanceId x <> Some (nb_instanceId nb)).
    { intros x Hx Ex. rewrite existsb_false in Et. specialize (Et x).
      assert (Hin : In x (cd_numbers t)) by (rewrite El; apply in_app_iff in Hx; apply in_app_iff; simpl; tauto).
      specialize (Et Hin). apply Bool.andb_false_iff in Et as [Et|Et].
      - apply Bool.negb_false_iff in Et. apply str_eqb_eq in Et, En. rewrite El, List.map_app in Hp. simpl in Hp.
        apply NoDup_app in Hp as (_ & Hdis & Hp2). apply NoDup_cons in Hp2 as [Hp2 _].
        apply in_app_iff in Hx as [Hx|Hx].
        + apply (Hdis (nr_phoneNumberId x)); [apply list_elem_of_In, in_map; exact Hx|]. rewrite Et, <- En. left.
        + apply Hp2. rewrite En, <- Et. apply list_elem_of_In, in_map. exact Hx.
      - unfold holdsNumber in Et. rewrite Ex in Et. simpl in Et. rewrite str_eqb_refl in Et. discriminate. }
    split; [split|].
    + simpl. rewrite El, List.map_app in Hp. rewrite List.map_app. exact Hp.
    + simpl. rewrite El in Hh. rewrite omap_app in Hh |- *. simpl in Hh |- *.
      assert (Hl : NoDup (omap nr_instanceId l1 ++ omap nr_instanceId l2)).
      { eapply sublist_NoDup; [exact Hh|]. apply sublist_app; [reflexivity|].
        destruct (nr_instanceId n); [apply sublist_cons|]; reflexivity. }
      apply (NoDup_Permutation_proper _ (nb_instanceId nb :: omap nr_instanceId l1 ++ omap nr_instanceId l2)).
      { symmetry. apply Permutation_middle. }
      apply NoDup_cons. split; [|exact Hl]. rewrite <- omap_app, holders_in. intros (x & Hx & Ex). exact (Hfree x Hx Ex).
    + intros x a Hin Ea Hne Hg. rewrite El in Hin. apply in_app_iff in Hin as [Hin|[<-|Hin]].
      * exists x. split; [apply in_app_iff; left; exact Hin | reflexivity].
      * exfalso. unfold mayClaim in Em. rewrite Ea, Hg in Em. rewrite Bool.orb_false_r in Em. apply str_eqb_eq in Em. congruence.
      * exists x. split; [apply in_app_iff; right; right; exact Hin | reflexivity].
  - destruct (List.existsb _ (cd_numbers t)) eqn:Et; simpl; [apply tablesOwn_same; reflexivity|].
    assert (Hno : forall x, In x (cd_numbers t) -> isNumber (nb_phoneNumberId nb) x = false) by (intros x; apply find_none; exact Ef).
    rewrite existsb_false in Et.
    apply own_numbers. intros [Hp Hh]. unfold NumbersOk, phones, holders in *. simpl. split; [split|].
    + rewrite List.map_app. apply NoDup_app. split; [exact Hp|]. split; [|apply NoDup_singleton].
      intros x Hx Hx'. apply list_elem_of_singleton in Hx' as ->. apply list_elem_of_In, in_map_iff in Hx as (y & Ey & Hy).
      specialize (Hno y Hy). unfold isNumber in Hno. simpl in Ey. rewrite Ey, str_eqb_refl in Hno. discriminate.
    + rewrite omap_app. simpl. apply NoDup_app. split; [exact Hh|]. split; [|apply NoDup_singleton].
      intros x Hx Hx'. apply list_elem_of_singleton in Hx' as ->. apply holders_in in Hx as (y & Hy & Ey).
      specialize (Et y Hy). rewrite (Hno y Hy) in Et. unfold holdsNumber in Et. rewrite Ey in Et. simpl in Et.
      rewrite str_eqb_refl in Et. discriminate.
    + intros x a Hin _ _ _. exists x. split; [apply in_app_iff; left; exact Hin | reflexivity].
Qed.

(** Statements on the other tables. *)
Lemma own_rows b t inbox convs sends :
  ofOther b ib_instanceId inbox = ofOther b ib_instanceId (cd_inbox t) ->
  ofOther b cv_instanceId convs = ofOther b cv_instanceId (cd_convs t) ->
  ofOther b sr_instanceId sends = ofOther b sr_instanceId (cd_sends t) ->
  TablesOwn b t (mkCloudDb (cd_nextId t) inbox convs sends (cd_numbers t) (cd_statuses t)).
Proof.
  intros. constructor; try assumption. intros Hok. split; [exact Hok|]. intros n a Hin _ _ _. exists n. auto.
Qed.

Lemma convs_upsert b fresh merge t :
  cv_instanceId fresh = b -> (forall c, cv_instanceId (merge c) = cv_instanceId c) ->
  exists l, upsertConv fresh merge t = setConvs l t /\ ofOther b cv_instanceId l = ofOther b cv_instanceId (cd_convs t).
Proof.
  intros E Hm. unfold upsertConv. destruct (List.existsb _ (cd_convs t)); eexists; (split; [reflexivity|]).
  - apply ofOther_update; [|exact Hm]. intros c Hc. unfold isConv in Hc. bools. congruence.
  - apply ofOther_snoc. exact E.
Qed.

Lemma own_convs b t l : ofOther b cv_instanceId l = ofOther b cv_instanceId (cd_convs t) -> TablesOwn b t (setConvs l t).
Proof. intros. apply own_rows; auto. Qed.

Lemma own_touch b waId at_ t : TablesOwn b t (touchOutbound b waId at_ t).
Proof. unfold touchOutbound. edestruct (convs_upsert b) as (l & -> & E); [..|apply own_convs, E]; reflexivity. Qed.

Lemma own_recordSend b now waId wamid kind t : TablesOwn b t (recordSend now b waId wamid kind t).
Proof. apply own_rows; [reflexivity | reflexivity | apply ofOther_snoc; reflexivity]. Qed.

Lemma own_setMode b now waId mode t : TablesOwn b t (CloudInbox.setMode now b waId mode t).2.
Proof.
  apply own_convs. apply ofOther_update; [|reflexivity]. intros c Hc. unfold isConv in Hc. bools. assumption.
Qed.

Lemma own_purge b t : TablesOwn b t (purgeInstance b t).
Proof. apply own_rows; apply ofOther_purge. Qed.

Lemma inbox_acked b now ids t : exists l,
  (ack now b ids t).2 = setInbox l t /\ ofOther b ib_instanceId l = ofOther b ib_instanceId (cd_inbox t).
Proof.
  assert (E : t = setInbox (cd_inbox t) t) by (destruct t; reflexivity).
  unfold ack. destruct ids; [exists (cd_inbox t); auto|].
  eexists; split; [reflexivity|]. apply ofOther_update; [|reflexivity].
  intros r Hr. unfold ackable in Hr. bools. assumption.
Qed.

Lemma own_ack b now ids t : TablesOwn b t (ack now b ids t).2.
Proof. destruct (inbox_acked b now ids t) as (l & -> & E). apply own_rows; auto. Qed.

Lemma convs_holdIn b waId at_ holdMs now t : exists l,
  (holdIn b waId at_ holdMs now t).2 = setConvs l t /\ ofOther b cv_instanceId l = ofOther b cv_instanceId (cd_convs t).
Proof.
  assert (E : t = setConvs (cd_convs t) t) by (destruct t; reflexivity).
  unfold holdIn. destruct (_ <=? now); [exists (cd_convs t); auto|].
  destruct (match findConversation b waId t with Some c => _ | None => false end); [exists (cd_convs t); auto|].
  cbn [snd]. apply convs_upsert; reflexivity.
Qed.

Lemma own_holdIn b waId at_ holdMs now t : TablesOwn b t (holdIn b waId at_ holdMs now t).2.
Proof. destruct (convs_holdIn b waId at_ holdMs now t) as (l & -> & E). apply own_convs, E. Qed.

Lemma convs_holds b holdMs now l acc t : ofOther b cv_instanceId acc = ofOther b cv_instanceId (cd_convs t) ->
  forall held, exists l', (fold_left (holdStep b holdMs now) l (held, setConvs acc t)).2 = setConvs l' t /\
    ofOther b cv_instanceId l' = ofOther b cv_instanceId (cd_convs t).
Proof.
  revert acc. induction l as [|e l IH]; intros acc E held; [exists acc; auto|].
  cbn [fold_left holdStep].
  destruct (convs_holdIn b (eh_to e) (eh_at e) holdMs now (setConvs acc t)) as (l' & E' & Eo).
  destruct (holdIn _ _ _ _ _ _) as [changed d']. cbn [snd] in E'. subst d'. apply (IH l'). rewrite Eo. exact E.
Qed.

Lemma own_echoes b now echoes holdMs t : TablesOwn b t (applyOwnerEchoes now b echoes holdMs t).2.
Proof.
  unfold applyOwnerEchoes. destruct echoes as [|e echoes]; [apply tablesOwn_same; reflexivity|].
  assert (E : t = setConvs (cd_convs t) t) by (destruct t; reflexivity).
  destruct (convs_holds b holdMs now (isort echoLeb (e :: echoes)) (cd_convs t) t eq_refl []) as (l & El & Eo).
  rewrite <- E in El. destruct (fold_left _ _ _) as [held d1]. cbn [snd] in *. subst d1.
  destruct (inbox_acked b now (List.map eh_id (e :: echoes)) (setConvs l t)) as (l2 & -> & E2).
  exact (own_rows b t l2 l (cd_sends t) E2 Eo eq_refl).
Qed.

(** *** The memory *)
Definition MemoryMove (b : string) (f : CloudMemory -> CloudMemory) : Prop := forall m, MemoryOwn b m (f m).

Lemma own_setHealth b h t m : MemoryOwn b m (setHealthCache (<[b := mkCached h t]> (km_healthCache m)) m).
Proof. constructor; auto. intros a Ha. simpl. apply lookup_insert_ne. congruence. Qed.

Lemma own_reported b m : MemoryOwn b m (setReported ({[b]} ∪ km_tokenInvalidReported m) m).
Proof. constructor; auto. intros a Ha. simpl. set_solver. Qed.

Lemma own_forget b m : MemoryOwn b m (forgetHealth b m).
Proof.
  constructor; intros a Ha; cbn -[String.prefix].
  - apply lookup_delete_ne. congruence.
  - apply lookup_delete_ne. congruence.
  - set_solver.
Qed.

Lemma own_reserve b t waId kind m : MemoryOwn b m (reserveEscalation t b waId kind m).2.
Proof.
  unfold reserveEscalation. destruct (_ <=? _)%nat; cbn [snd];
    [|destruct (bool_decide _ && _); cbn [snd]; [|destruct (bool_decide _)]];
    constructor; auto; intros a Ha; simpl; apply lookup_insert_ne; congruence.
Qed.

Lemma own_releaseSlot b waId kind slot m : MemoryOwn b m (releaseSlot b waId kind slot m).
Proof.
  unfold releaseSlot. destruct (km_escalationsPerBot m !! b); destruct (bool_decide _); constructor; auto;
    intros a Ha; simpl; apply lookup_insert_ne; congruence.
Qed.

Lemma own_launch b a m : MemoryOwn b m (launchAlert a m).
Proof. constructor; auto. Qed.
Lemma own_told b s m : MemoryOwn b m (noteTold s m).
Proof. constructor; auto. Qed.
Lemma own_sent b s m : MemoryOwn b m (noteSent s m).
Proof. constructor; auto. Qed.
Lemma own_buckets b c s m : MemoryOwn b m (setBuckets c s m).
Proof. constructor; auto. Qed.

Create HintDb own discriminated.
#[export] Hint Resolve own_release own_mark own_clear own_bind own_touch own_recordSend own_setMode own_purge own_ack own_holdIn
  own_echoes own_setHealth own_reported own_forget own_reserve own_releaseSlot own_launch own_told own_sent own_buckets : own.

(** *** The programs *)
Section Tenants.
Context {X : Type} `{!ContainerRuntime X, !AgentAdapter X, !Collaborators X, !CloudWorld X}.
Context (cfg : AppConfig) (sha256 : string -> string) (b : string).
Implicit Types inst : Instance_.
Abbreviation Keeps m := (FleetGuar.Keeps (X := X) (CloudOwn b) m).

Lemma keeps_onTables {A} (f : Z -> CloudDb -> (OrchError + A) * CloudDb) :
  (forall t d, TablesOwn b d (f t d).2) -> Keeps (onTables f).
Proof.
  intros H. apply keeps_bind; [apply keeps_now | intros t]. apply gives_statement; [apply _|]. intros d. split; [|auto].
  specialize (H t (tablesOf d)). destruct (f t (tablesOf d)) as [r c]. constructor; [exact H | apply memoryOwn_refl].
Qed.
Lemma keeps_writeTables f : (forall t d, TablesOwn b d (f t d)) -> Keeps (writeTables f).
Proof. intros H. apply keeps_onTables. exact H. Qed.
Lemma keeps_readTables {A} (f : CloudDb -> A) : Keeps (readTables f).
Proof. apply keeps_onTables. intros. apply tablesOwn_same; reflexivity. Qed.

Lemma keeps_onCloud {A} (f : CloudMemory -> A * CloudMemory) : (forall m, MemoryOwn b m (f m).2) -> Keeps (onCloud f).
Proof.
  intros H. apply keeps_atomic. intros d. split; [|auto]. specialize (H (mm_cloud (fd_mem d))).
  destruct (f (mm_cloud (fd_mem d))) as [a c]. constructor; [apply tablesOwn_same; reflexivity | exact H].
Qed.
Lemma keeps_writeCloud f : (forall m, MemoryOwn b m (f m)) -> Keeps (writeCloud f).
Proof. intros H. apply keeps_onCloud. exact H. Qed.
Lemma keeps_readCloud {A} (f : CloudMemory -> A) : Keeps (readCloud f).
Proof. apply keeps_readMem. apply _. Qed.

(** What touches neither the tables nor the manager's memory. *)
Lemma keeps_statement {A} (f : FleetDb X -> (OrchError + A) * FleetDb X) :
  (forall d, fd_cloud (f d).2 = fd_cloud d /\ mm_cloud (fd_mem (f d).2) = mm_cloud (fd_mem d)) -> Keeps (statement f).
Proof. intros H. apply gives_statement; [apply _|]. intros d. split; [|auto]. apply cloudOwn_idle; apply H. Qed.

Lemma own_append id ev actor : Keeps (append id ev actor).
Proof. apply keeps_bind; [apply keeps_now | intros t]. apply keeps_statement. auto. Qed.
Lemma keeps_rows {A} (f : list Row -> (OrchError + A) * list Row) : Keeps (onRows f).
Proof. apply keeps_statement. intros d. destruct (f (fd_rows d)). auto. Qed.

Local Hint Resolve keeps_readTables keeps_readCloud own_append keeps_rows : keeps.
Local Hint Extern 1 (FleetGuar.Keeps _ (writeTables _)) => apply keeps_writeTables; intros ? ?; solve [eauto with own nocore] : keeps.
Local Hint Extern 1 (FleetGuar.Keeps _ (writeCloud _)) => apply keeps_writeCloud; intros ?; solve [eauto with own nocore] : keeps.

Lemma keeps_requireOwned userId : Keeps (requireOwnedInstance cfg b userId).
Proof. unfold requireOwnedInstance, requireInstance. keeps. Qed.
Local Hint Resolve keeps_requireOwned : keeps.

Lemma keeps_applyConfig userId patch : Keeps (applyConfigLocked cfg b userId patch).
Proof. unfold applyConfigLocked, writeConfigRow, restartContainer. keeps. Qed.
Local Hint Resolve keeps_applyConfig : keeps.

Lemma keeps_updateChannels userId mutate : Keeps (updateChannels cfg b userId mutate).
Proof. unfold updateChannels, updateChannelsNoting. keeps. Qed.
Local Hint Resolve keeps_updateChannels : keeps.

(** **** The owner, and Meta *)
Lemma keeps_messageOwner inst target text : Keeps (messageOwner inst target text).
Proof.
  apply keeps_bind; [apply keeps_now | intros t]. apply keeps_atomic. intros d. split; [|auto].
  destruct (owner_sendMessage _ _ _ _) as [[[[code|]|]|[]] x]; simpl;
    try (apply cloudOwn_idle; reflexivity).
  constructor; [apply tablesOwn_same; reflexivity | apply own_told].
Qed.
Local Hint Resolve keeps_messageOwner : keeps.

Lemma keeps_reportTokenInvalid inst channel : fi_id inst = b -> Keeps (reportTokenInvalid inst channel).
Proof. intros E. unfold reportTokenInvalid, tellTokenInvalid. rewrite E. keeps. Qed.

(** A program that throws what the Graph API throws. *)
Definition KeepsG {A} (m : M (FleetDb X) unit GraphError A) : Prop :=
  forall G, StepRel G -> (forall d d', CloudOwn b d d' -> G d d') -> Guar (fun _ => True) G m.

Lemma keepsG_graph {A} (op : Graph X A) : KeepsG (graph op).
Proof.
  intros G HG Hi. apply spec_atomic; [assumption|]. intros d _. destruct (op (fd_x d)) as [r x]. simpl.
  split; [exact I|]. split; [|destruct r; exact I]. apply Hi, cloudOwn_idle; reflexivity.
Qed.
Lemma keepsG_ret {A} (a : A) : KeepsG (ret a).
Proof. intros G HG Hi. apply guar_ret. assumption. Qed.
Lemma keepsG_throw {A} e : KeepsG (throw e : M _ _ _ A).
Proof. intros G HG Hi. apply spec_throw. assumption. Qed.
Lemma keepsG_bind {A B} (m : M (FleetDb X) unit GraphError A) (k : A -> M (FleetDb X) unit GraphError B) :
  KeepsG m -> (forall a, KeepsG (k a)) -> KeepsG (bind m k).
Proof. intros Hm Hk G HG Hi. apply guar_bind; [assumption | apply Hm; assumption | intros a; apply Hk; assumption]. Qed.

(** Whatever runs next on what the program gave back. *)
Lemma keeps_after {A B} (m : M (FleetDb X) unit GraphError A) (k : GraphError + A -> Fleet X B) :
  KeepsG m -> (forall r, Keeps (k r)) -> Keeps (fun w => let '(r, w') := m w in k r w').
Proof.
  intros Hm Hk G HG Hi w r w' _ He Hw. destruct (m w) as [r1 w1] eqn:E.
  destruct (Hm G HG Hi w r1 w1 I He E) as (_ & G1 & L1 & _).
  destruct (Hk r1 G HG Hi w1 r w' I (rely_later _ _ _ _ L1 He) Hw) as (_ & G2 & L2 & HQ).
  split; [exact I|]. split; [eapply step_trans; eassumption|]. split; [eapply later_trans; eassumption | exact HQ].
Qed.

Lemma keeps_ext_eq {A} (m m' : Fleet X A) : (forall w, m w = m' w) -> Keeps m' -> Keeps m.
Proof. intros E H G HG Hi w r w' Hw He Hr. rewrite E in Hr. exact (H G HG Hi w r w' Hw He Hr). Qed.

Lemma keeps_upstreamFailed {A} ctx e :
  match ctx with Some c => fi_id (rx_instance c) = b | None => True end -> Keeps (upstreamFailed (A := A) ctx e).
Proof.
  intros H. destruct e as [status code|e|]; simpl; [|keeps|keeps]. destruct ctx as [c|]; [|keeps].
  pose proof (keeps_reportTokenInvalid (rx_instance c) (rx_channel c) H) as Hr. rewrite H. keeps; exact Hr.
Qed.

Lemma keeps_upstream {A} ctx (m : M (FleetDb X) unit GraphError A) :
  match ctx with Some c => fi_id (rx_instance c) = b | None => True end -> KeepsG m -> Keeps (upstream ctx m).
Proof.
  intros Hc Hm. eapply keeps_ext_eq; [|apply (keeps_after m (fun r => match r with inr a => ret a | inl e => upstreamFailed ctx e end))].
  - intros w. unfold upstream. destruct (m w) as [[e|a] w']; reflexivity.
  - exact Hm.
  - intros [e|a]; [apply keeps_upstreamFailed; exact Hc | keeps].
Qed.

Ltac keepsG :=
  repeat match goal with
  | |- KeepsG (graph _) => apply keepsG_graph
  | |- KeepsG (ret _) => apply keepsG_ret
  | |- KeepsG (throw _) => apply keepsG_throw
  | |- KeepsG (bind _ _) => apply keepsG_bind; [|intros ?]
  | |- KeepsG (match ?x with _ => _ end) => destruct x
  end.
Local Hint Extern 1 (FleetGuar.Keeps _ (upstream None _)) => apply keeps_upstream; [exact I | solve [keepsG]] : keeps.

(** **** Connecting *)
Lemma keeps_onlyNumberOf input : Keeps (onlyNumberOf input).
Proof. unfold onlyNumberOf. keeps. Qed.
Lemma keeps_registerAtMeta phone input pin : Keeps (registerAtMeta phone input pin).
Proof. apply keeps_upstream; [exact I|]. keepsG. Qed.
Local Hint Resolve keeps_onlyNumberOf keeps_registerAtMeta : keeps.

Lemma keeps_tryGraph op : Keeps (tryGraph op).
Proof.
  eapply keeps_ext_eq; [|apply (keeps_after (graph op) (fun _ => ret tt)); [apply keepsG_graph | intros; keeps]].
  intros w. unfold tryGraph. cbv beta. destruct (graph op w). reflexivity.
Qed.
Local Hint Resolve keeps_tryGraph : keeps.

Lemma keeps_startSync channel s : Keeps (startSync b channel s).
Proof.
  unfold startSync. apply keeps_bind; [|intros started; keeps].
  eapply keeps_ext_eq; [|apply (keeps_after (graph (graph_startAppDataSync (wc_phoneNumberId channel) (wc_accessToken channel) s))
    (fun r => match r with inr _ => ret true | inl _ => ret false end)); [apply keepsG_graph | intros []; keeps]].
  intros w. cbv beta. destruct (graph _ w) as [[e|u] w']; reflexivity.
Qed.
Local Hint Resolve keeps_startSync : keeps.

Lemma keeps_syncAppData channel done : Keeps (syncAppData b channel done).
Proof.
  unfold syncAppData. revert done. induction APP_DATA_SYNC_TYPES as [|s l IH]; intros done; simpl; [keeps|].
  destruct (oneOf done s); [apply IH|]. apply keeps_bind; [keeps|]. intros []; [apply IH | keeps].
Qed.
Lemma keeps_choosePin c pin : Keeps (choosePin c pin).
Proof. unfold choosePin. keeps. Qed.
Lemma keeps_bind_ phone waba pin : Keeps (bind_ phone b waba pin).
Proof. apply keeps_onTables. intros. apply own_bind. reflexivity. Qed.
Lemma keeps_release : Keeps (releaseNumber_ b).
Proof. unfold releaseNumber_. keeps. Qed.
Lemma keeps_purge : Keeps (purge_ b).
Proof. unfold purge_. keeps. Qed.
Local Hint Resolve keeps_syncAppData keeps_choosePin keeps_bind_ keeps_release keeps_purge : keeps.

Lemma keeps_refresh userId existing input : Keeps (refresh cfg b userId existing input).
Proof. unfold refresh. keeps. Qed.
Lemma keeps_connectNew userId phone input : Keeps (connectNew cfg b userId phone input).
Proof. unfold connectNew. keeps. Qed.
Local Hint Resolve keeps_refresh keeps_connectNew : keeps.
Lemma keeps_connect userId input : Keeps (connectLocked cfg b userId input).
Proof. unfold connectLocked. keeps. Qed.

(** **** Disconnecting *)
Lemma keeps_stillOurs channel : Keeps (stillOurs b channel).
Proof. unfold stillOurs. keeps. Qed.
Lemma keeps_leaveMeta channel : Keeps (leaveMeta channel).
Proof. unfold leaveMeta. keeps. Qed.
Local Hint Resolve keeps_stillOurs keeps_leaveMeta : keeps.
Lemma keeps_disconnect userId : Keeps (disconnectLocked cfg b userId).
Proof. unfold disconnectLocked. keeps. Qed.
Lemma keeps_cleanup inst : fi_id inst = b -> Keeps (cleanupForDestroy inst).
Proof. intros E. unfold cleanupForDestroy. rewrite E. keeps. Qed.

Lemma keeps_removals wabaIds : Keeps (applyPartnerRemovals cfg b wabaIds).
Proof. unfold applyPartnerRemovals. keeps. Qed.
Lemma keeps_recordHandoff : Keeps (recordHandoff b).
Proof. unfold recordHandoff. keeps. Qed.
Lemma keeps_ackIds ids : Keeps (ackIds b ids).
Proof.
  apply keeps_onTables. intros t d. pose proof (own_ack b t ids d) as H. destruct (ack t b ids d). exact H.
Qed.
Local Hint Resolve keeps_removals keeps_recordHandoff keeps_ackIds : keeps.
Lemma keeps_applyEchoes echoes : Keeps (applyEchoes b echoes).
Proof.
  unfold applyEchoes. destruct echoes as [|e l]; [keeps|]. apply keeps_bind.
  - apply keeps_onTables. intros t d. pose proof (own_echoes b t (e :: l) OWNER_HOLD_MS d) as H.
    destruct (applyOwnerEchoes _ _ _ _ _). exact H.
  - intros held. apply keeps_forM. intros. keeps.
Qed.
Local Hint Resolve keeps_applyEchoes : keeps.
Lemma keeps_pull waitMs : Keeps (pull cfg b waitMs).
Proof. unfold pull. keeps. Qed.

(** **** Health *)
Lemma keeps_probeHealth inst channel : fi_id inst = b -> Keeps (probeHealth inst channel).
Proof.
  intros E. pose proof (keeps_reportTokenInvalid inst channel E) as Hr.
  eapply keeps_ext_eq; [|apply (keeps_after (graph (graph_getPhoneNumber (wc_phoneNumberId channel) (wc_accessToken channel)))
    (fun r => match r with
              | inr _ => ret Ch_ok
              | inl (Ge_meta status code) =>
                  if isCredentialFailure status code
                  then (let! _ := reportTokenInvalid inst channel in ret Ch_token_invalid) else ret Ch_unknown
              | inl _ => ret Ch_unknown
              end)); [apply keepsG_graph | intros [[]|]; keeps; exact Hr]].
  intros w. unfold probeHealth. cbv beta. destruct (graph _ w) as [[[]|u] w']; try reflexivity.
  destruct (isCredentialFailure status code); reflexivity.
Qed.
Lemma keeps_health inst channel : fi_id inst = b -> Keeps (health inst channel).
Proof. intros E. unfold health. pose proof (keeps_probeHealth inst channel E) as Hp. rewrite E. keeps; exact Hp. Qed.
Local Hint Resolve keeps_health : keeps.

(** **** A bot's own row *)
Lemma findById_id managed id rows inst : findById managed id rows = inr (Some inst) -> fi_id inst = id.
Proof.
  unfold findById. destruct (List.find _ rows) as [r|] eqn:E; [|discriminate].
  apply List.find_some in E as [_ Hr]. unfold ownedRow, isRow in Hr. bools. unfold toDomain.
  destruct (ro_settings r) as [|[c t]]; [discriminate|]. intros [= <-]. assumption.
Qed.

Lemma gives_findInstance :
  FleetGuar.Gives (X := X) (CloudOwn b) (findInstance cfg b) (fun o => forall inst, o = Some inst -> fi_id inst = b).
Proof.
  eapply gives_weaken; [apply gives_onRows_read; apply _|]. intros o (rows & E) inst ->. eapply findById_id. exact E.
Qed.

Lemma keeps_findOwn {A} (k : option Instance_ -> Fleet X A) Q :
  (forall inst, fi_id inst = b -> FleetGuar.Gives (CloudOwn b) (k (Some inst)) Q) ->
  FleetGuar.Gives (CloudOwn b) (k None) Q -> FleetGuar.Gives (CloudOwn b) (bind (findInstance cfg b) k) Q.
Proof. intros Hs Hn. eapply gives_bind; [apply gives_findInstance|]. intros [inst|] H; auto. Qed.

Lemma keeps_status userId : Keeps (status cfg b userId).
Proof.
  unfold status. eapply (gives_bind _ _ _ (fun inst => fi_id inst = b)); [|intros inst E; keeps].
  unfold requireOwnedInstance. eapply (gives_bind _ _ _ (fun inst => fi_id inst = b)).
  - unfold requireInstance. apply keeps_findOwn; [|apply gives_throw]. intros inst E.
    destruct (bool_decide _); [apply gives_throw | apply gives_ret; exact E].
  - intros inst E. destruct (str_eqb _ _); [apply gives_ret; exact E | apply gives_throw].
Qed.

(** **** The relay *)
Definition OwnRelay (ctx : RelayContext) : Prop := fi_id (rx_instance ctx) = b.

Lemma gives_resolveRelay bearer : FleetGuar.Gives (X := X) (CloudOwn b) (resolveRelay cfg sha256 b bearer) OwnRelay.
Proof.
  unfold resolveRelay. apply keeps_findOwn; [|apply gives_throw]. intros inst E. destruct (negb (isLive inst)); [apply gives_throw|].
  destruct (findWhatsappCloudChannel _) as [ch|]; [|apply gives_throw].
  destruct (tokensMatch _ _ _); [apply gives_ret; exact E | apply gives_throw].
Qed.

Lemma keeps_takeToken channel : Keeps (takeToken channel).
Proof.
  apply keeps_bind; [apply keeps_now | intros t]. apply keeps_onCloud. intros m.
  cbv zeta. destruct (take_ _ _ _ _ _) as [ok buckets]. apply own_buckets.
Qed.
Lemma keepsG_sendAtMeta channel input : KeepsG (sendAtMeta channel input).
Proof.
  apply keepsG_bind; [intros G HG Hi; apply guar_now; assumption|]. intros t G HG Hi. apply spec_atomic; [assumption|].
  intros d _. destruct (graph_sendText _ _ _ _) as [[e|wamid] x]; simpl; (split; [exact I|]); (split; [|exact I]); apply Hi.
  - apply cloudOwn_idle; reflexivity.
  - constructor; [apply tablesOwn_same; reflexivity | apply own_sent].
Qed.

Section Context.
Context (ctx : RelayContext) (Hctx : OwnRelay ctx).

Lemma keeps_upstream_ctx {A} (m : M (FleetDb X) unit GraphError A) : KeepsG m -> Keeps (upstream (Some ctx) m).
Proof. apply keeps_upstream. exact Hctx. Qed.

Lemma keeps_send input : Keeps (send ctx input).
Proof.
  pose proof (keeps_upstream_ctx _ (keepsG_sendAtMeta (rx_channel ctx) input)) as Hu.
  pose proof (keeps_takeToken (rx_channel ctx)) as Ht. unfold send. rewrite Hctx. keeps; assumption.
Qed.
Lemma keeps_markRead wamid typing : Keeps (markRead ctx wamid typing).
Proof. apply keeps_upstream_ctx, keepsG_graph. Qed.
Lemma keeps_media mediaId : Keeps (media ctx mediaId).
Proof. apply keeps_upstream_ctx. keepsG. Qed.
Lemma keeps_conversation waId : Keeps (conversation ctx waId).
Proof. unfold conversation. keeps. Qed.

Lemma keeps_writeMode waId mode : Keeps (writeMode b waId mode).
Proof.
  apply keeps_onTables. intros t d. pose proof (own_setMode b t waId mode d) as H.
  destruct (CloudInbox.setMode _ _ _ _ _). exact H.
Qed.
Local Hint Resolve keeps_writeMode : keeps.
Lemma keeps_setMode waId mode : Keeps (setMode_ ctx waId mode).
Proof. unfold setMode_. rewrite Hctx. keeps. Qed.

Lemma keeps_handBack waId : Keeps (handBackToBot ctx waId).
Proof. unfold handBackToBot. rewrite Hctx. keeps. Qed.
Lemma keeps_startAlert inst route waId target text : Keeps (startAlert cfg inst route waId target text).
Proof. unfold startAlert. keeps. Qed.
Local Hint Resolve keeps_handBack keeps_startAlert keeps_messageOwner : keeps.

Lemma keeps_withoutTarget input : Keeps (escalateWithoutTarget ctx input).
Proof.
  unfold escalateWithoutTarget. rewrite Hctx. destruct (wc_coexistence _); [|keeps]. apply keeps_bind; [|intros; keeps].
  apply keeps_onTables. intros t d. pose proof (own_holdIn b (es_waId input) t OWNER_HOLD_MS t d) as H.
  destruct (holdIn _ _ _ _ _ _). exact H.
Qed.
Lemma keeps_escalateTo input target slot text : Keeps (escalateTo cfg ctx input target slot text).
Proof. unfold escalateTo. rewrite Hctx. keeps. Qed.
Local Hint Resolve keeps_withoutTarget keeps_escalateTo : keeps.

Lemma keeps_escalate input : Keeps (escalate cfg ctx input).
Proof.
  unfold escalate. rewrite Hctx. apply keeps_bind; [keeps | intros [c|]; [|keeps]].
  destruct (bool_decide _ && _); [keeps|]. destruct (ownerTarget _) as [target|]; [|keeps].
  apply keeps_bind; [keeps | intros t]. apply keeps_bind; [|intros; keeps].
  apply keeps_onCloud. intros m. apply own_reserve.
Qed.
End Context.

Lemma keeps_watch a : Keeps (watchAlert a).
Proof.
  unfold watchAlert. apply keeps_bind; [|intros; keeps]. generalize 0 Del_pending. induction WATCH_FUEL as [|n IH]; intros z o.
  - keeps.
  - simpl. destruct (_ || _); [keeps|]. apply keeps_bind; [keeps | intros took]. apply keeps_bind; [keeps | intros next]. apply IH.
Qed.

(** *** The requests *)
Lemma keeps_cloudRoute userId r : Keeps (whatsappCloudRoute cfg b userId r).
Proof.
  pose proof (keeps_status userId). pose proof (keeps_disconnect userId). pose proof (keeps_connect userId).
  destruct r as [[body|]| |]; simpl; [destruct (connectBodyOk body)|..]; keeps; auto.
Qed.

Lemma keeps_relayHandler ctx r : OwnRelay ctx -> Keeps (relayHandler cfg ctx r).
Proof.
  intros Hc. assert (E : fi_id (rx_instance ctx) = b) by exact Hc.
  destruct r; unfold relayHandler; rewrite ?E; (apply keeps_bind; [|intros; keeps]).
  - apply keeps_pull.
  - apply keeps_ackIds.
  - apply keeps_send. exact Hc.
  - apply keeps_markRead. exact Hc.
  - apply keeps_media. exact Hc.
  - apply keeps_escalate. exact Hc.
  - apply keeps_conversation; exact Hc.
  - apply keeps_setMode; exact Hc.
Qed.

Lemma keeps_relayRoute authorization body : Keeps (relayRoute cfg sha256 b authorization body).
Proof.
  unfold relayRoute. eapply (gives_bind _ _ _ OwnRelay).
  - unfold relayContext. destruct (extractBearer _); [apply gives_resolveRelay | apply gives_throw].
  - intros ctx Hc. destruct body; [apply keeps_relayHandler; exact Hc | keeps].
Qed.
End Tenants.

(** Everything that runs for one bot's business number: the requests of its owner and
    of its container, the watch over an alert, and the clean-up when it is destroyed. *)
Inductive CloudWork :=
| Wk_dashboard (userId : string) (r : CloudRequest)
| Wk_container (authorization : option string) (body : option RelayRequest)
| Wk_destroy
| Wk_watch (a : OwnerAlert).

Section Works.
Context {X : Type} `{!ContainerRuntime X, !AgentAdapter X, !Collaborators X, !CloudWorld X}.
Context (cfg : AppConfig) (sha256 : string -> string).

Definition runWork (b : string) (k : CloudWork) : Fleet X unit :=
  match k with
  | Wk_dashboard userId r => let! _ := whatsappCloudRoute cfg b userId r in ret tt
  | Wk_container authorization body => let! _ := relayRoute cfg sha256 b authorization body in ret tt
  | Wk_destroy =>
      let! o := findInstance cfg b in
      match o with Some inst => cleanupForDestroy inst | None => ret tt end
  | Wk_watch a => watchAlert a
  end.

(** C7: bots do not touch each other's WhatsApp Business data.  Whatever is asked for bot
    [b] - by its owner, by its own container with whatever bearer, when it is destroyed,
    by an alert's watch - each access it makes of the tables and of the manager's memory
    is a step of [b]'s own: the numbers stay one per bot, a number held by another bot
    that is alive stays bound to it with its account and its PIN, and the inbox rows,
    conversations, sends, health, escalation slots and reports of other bots stay as
    they are.  Other requests may run in between. *)
Theorem tenant_isolation (b : string) (k : CloudWork) : FleetGuar.Keeps (X := X) (CloudOwn b) (runWork b k).
Proof.
  destruct k as [userId r|authorization body| |a]; simpl.
  - apply keeps_bind; [apply keeps_cloudRoute | intros; apply keeps_ret].
  - apply keeps_bind; [apply keeps_relayRoute | intros; apply keeps_ret].
  - apply keeps_findOwn; [intros inst E; apply keeps_cleanup; exact E | apply keeps_ret].
  - apply keeps_watch.
Qed.
End Works.
