(* ===== verification/CloudProps.v ===== *)
(** What the WhatsApp Business manager promises: sends, escalations and alerts
    ([orchestrator/src/services/whatsapp-cloud/manager.ts], [owner-alerts.ts]). *)
From S2P Require Import Prelude JsString Fleet Access Hosts FleetStore FleetWorld InstanceManager FleetGuar.
From S2P Require Import CloudInbox TokenBucket CloudTypes CloudManager.
From stdpp Require Import list strings gmap.
#[local] Open Scope Z_scope.

Section Runs.
Context {X : Type} `{!ContainerRuntime X, !AgentAdapter X, !Collaborators X, !CloudWorld X}.
Abbreviation W := (World (FleetDb X) unit).

(** The store the first access of a program finds. *)
Definition arrives (w : W) : FleetDb X := match w_env w with [] => w_db w | f :: _ => f (w_db w) end.
Definition afterFirst (w : W) (d : FleetDb X) : W :=
  mkWorld d (match w_env w with [] => [] | _ :: fs => fs end) (w_now w) (w_calls w).

Lemma run_atomic {E A} (op : FleetDb X -> (E + A) * FleetDb X) (w : W) :
  atomic op w = ((op (arrives w)).1, afterFirst w (op (arrives w)).2).
Proof.
  unfold atomic, arrives, afterFirst. destruct (w_env w) as [|f fs]; [destruct (op (w_db w)) | destruct (op (f (w_db w)))]; reflexivity.
Qed.

(** A read of the tables either fails or answers from the tables it found. *)
Lemma run_readTables {A} (f : CloudDb -> A) (w : W) r w' : readTables f w = (r, w') ->
  match r with inr a => a = f (tablesOf (arrives w)) | inl _ => True end.
Proof.
  unfold readTables, onTables. intros H. apply bind_inv in H as [(e & _ & ->)|(t & w1 & Ht & H)]; [exact I|].
  injection Ht as <- <-. unfold statement in H. rewrite run_atomic in H. injection H as <- _.
  destruct (db_next (fd_x (arrives w))) as [[] x]; simpl; try exact I. destruct (arrives w); reflexivity.
Qed.

(** ** Sends *)
Definition sentOf (w : W) : list SentMessage := km_sent (mm_cloud (fd_mem (w_db w))).
Definition SameSent (d d' : FleetDb X) : Prop := km_sent (mm_cloud (fd_mem d')) = km_sent (mm_cloud (fd_mem d)).

#[local] Instance sameSent_rel : StepRel SameSent.
Proof. constructor; unfold SameSent; congruence. Qed.
#[local] Instance sameSent_step : FleetStep SameSent.
Proof. constructor; unfold SameSent; auto. Qed.

(** A program that sends nothing, among others that send nothing. *)
Definition Silent {A E} (m : M (FleetDb X) unit E A) : Prop := Guar (fun _ => True) SameSent m.
Abbreviation Keeps m := (FleetGuar.Keeps (X := X) SameSent m).

Lemma keeps_silent {A} (m : Fleet X A) : Keeps m -> Silent m.
Proof. intros H. apply H; [apply _ | auto]. Qed.

Lemma quiet_tables {A} (f : Z -> CloudDb -> (OrchError + A) * CloudDb) : Keeps (onTables f).
Proof.
  apply keeps_bind; [apply keeps_now | intros t]. apply gives_statement; [apply _|]. intros d. split; [|auto].
  destruct (f t (tablesOf d)). reflexivity.
Qed.
Lemma quiet_cloud {A} (f : CloudMemory -> A * CloudMemory) : (forall m, km_sent (f m).2 = km_sent m) -> Keeps (onCloud f).
Proof.
  intros H. apply keeps_atomic. intros d. split; [|auto]. specialize (H (mm_cloud (fd_mem d))).
  destruct (f (mm_cloud (fd_mem d))). exact H.
Qed.
Lemma quiet_read {A} (f : CloudDb -> A) : Keeps (readTables f).
Proof. apply quiet_tables. Qed.
Lemma quiet_write f : Keeps (writeTables f).
Proof. apply quiet_tables. Qed.
Lemma silent_append id ev actor : Keeps (append id ev actor).
Proof. apply keeps_bind; [apply keeps_now | intros t]. apply gives_statement; [apply _|]. intros d. split; [reflexivity | auto]. Qed.
Lemma quiet_takeToken channel : Keeps (takeToken channel).
Proof.
  apply keeps_bind; [apply keeps_now | intros t]. apply quiet_cloud. intros m. cbv zeta.
  destruct (take_ _ _ _ _ _). reflexivity.
Qed.
Lemma quiet_readCloud {A} (f : CloudMemory -> A) : Keeps (readCloud f).
Proof. apply keeps_readMem. apply _. Qed.
Lemma quiet_message inst target text : Keeps (messageOwner inst target text).
Proof.
  apply keeps_bind; [apply keeps_now | intros t]. apply keeps_atomic. intros d. split; [|auto].
  destruct (owner_sendMessage _ _ _ _) as [[[[code|]|]|[]] x]; reflexivity.
Qed.
Local Hint Resolve quiet_read quiet_write silent_append quiet_takeToken quiet_readCloud quiet_message : keeps.
Local Hint Extern 1 (FleetGuar.Keeps _ (writeCloud _)) => apply quiet_cloud; reflexivity : keeps.

Lemma quiet_failed {A} ctx e : Keeps (upstreamFailed (A := A) ctx e).
Proof. unfold upstreamFailed, reportTokenInvalid, tellTokenInvalid. keeps. Qed.

Lemma later_first (w : W) d : later w (afterFirst w d).
Proof. unfold later, afterFirst. simpl. destruct (w_env w) as [|f fs]; (split; [|reflexivity]); [exists [] | exists [f]]; reflexivity. Qed.

Lemma arrives_sent (w : W) : rely (fun _ => True) SameSent (w_env w) -> km_sent (mm_cloud (fd_mem (arrives w))) = sentOf w.
Proof.
  unfold arrives, sentOf. intros He. destruct (w_env w) as [|f fs]; [reflexivity|].
  apply Forall_cons in He as [Hf _]. apply (Hf (w_db w) I).
Qed.

(** What Meta took, and only that, is noted. *)
Lemma sendAtMeta_sent channel input (w : W) r w' :
  rely (fun _ => True) SameSent (w_env w) -> sendAtMeta channel input w = (r, w') ->
  later w w' /\ sentOf w' = sentOf w ++
    match r with inr wamid => [mkSent (wc_phoneNumberId channel) (st_to input) (w_now w) wamid] | inl _ => [] end.
Proof.
  intros He H. unfold sendAtMeta in H. apply bind_inv in H as [(e & H & _)|(t & w1 & Ht & H)]; [discriminate|].
  injection Ht as <- <-. rewrite run_atomic in H. injection H as <- <-. split; [apply later_first|].
  rewrite <- (arrives_sent w He). unfold sentOf, afterFirst. cbn [w_db].
  destruct (graph_sendText _ _ _ _) as [[e|wamid] x]; simpl; [rewrite app_nil_r|]; reflexivity.
Qed.

(** The program after a part that sends nothing. *)
Lemma silent_bind {A B} (m : Fleet X A) (k : A -> Fleet X B) (w : W) r w' :
  Silent m -> rely (fun _ => True) SameSent (w_env w) -> bind m k w = (r, w') ->
  (exists e, r = inl e /\ sentOf w' = sentOf w) \/
  (exists a w1, m w = (inr a, w1) /\ k a w1 = (r, w') /\ sentOf w1 = sentOf w /\
     rely (fun _ => True) SameSent (w_env w1) /\ w_now w1 = w_now w).
Proof.
  intros Hm He H. apply bind_inv in H as [(e & H & ->)|(a & w1 & H & H1)].
  - left. exists e. split; [reflexivity|]. apply (Hm w (inl e) w' I He H).
  - right. destruct (Hm w (inr a) w1 I He H) as (_ & Hs & Hl & _). exists a, w1.
    split; [exact H|]. split; [exact H1|]. split; [exact Hs|]. split; [exact (rely_later _ _ _ _ Hl He) | apply Hl].
Qed.

End Runs.

(** ** Escalations *)
Inductive SlotEvent :=
| Se_reserve (instanceId waId : string) (kind : EscalationKind)
| Se_release (instanceId waId : string) (kind : EscalationKind) (slot : Slot)
| Se_forget (instanceId : string).

Definition slotStep (now : Z) (ev : SlotEvent) (m : CloudMemory) : CloudMemory :=
  match ev with
  | Se_reserve i w k => (reserveEscalation now i w k m).2
  | Se_release i w k slot => releaseSlot i w k slot m
  | Se_forget i => forgetHealth i m
  end.

(** The escalations of bot [b] that were admitted and not given back, since its number
    was last connected or dropped. *)
Definition admittedStep (b : string) (now : Z) (ev : SlotEvent) (m : CloudMemory) (l : list EscalationToken)
  : list EscalationToken :=
  match ev with
  | Se_reserve i w k =>
      if str_eqb i b then match (reserveEscalation now i w k m).1 with Some slot => l ++ [sl_token slot] | None => l end else l
  | Se_release i _ _ slot =>
      if str_eqb i b then List.filter (fun t => negb (et_id t =? et_id (sl_token slot))) l else l
  | Se_forget i => if str_eqb i b then [] else l
  end.

Fixpoint runSlots (b : string) (evs : list (Z * SlotEvent)) (m : CloudMemory) (l : list EscalationToken)
  : CloudMemory * list EscalationToken :=
  match evs with
  | [] => (m, l)
  | (now, ev) :: evs => runSlots b evs (slotStep now ev m) (admittedStep b now ev m l)
  end.

Definition inWindowOf (t : Z) (tk : EscalationToken) : bool := (t - ESCALATION_WINDOW_MS <? et_at tk) && (et_at tk <=? t).
Definition tokensOf (b : string) (m : CloudMemory) : list EscalationToken := default [] (km_escalationsPerBot m !! b).

(** What the memory holds is the recent end of what was admitted. *)
Record SlotsMirror (b : string) (t : Z) (m : CloudMemory) (l : list EscalationToken) : Prop := mkMirror {
  sl_split : exists old, l = old ++ tokensOf b m /\ Forall (fun tk => et_at tk <= t - ESCALATION_WINDOW_MS) old;
  sl_past : Forall (fun tk => et_at tk <= t) l;
  sl_cap : forall u, (length (List.filter (inWindowOf u) l) <= ESCALATIONS_PER_BOT_PER_MINUTE)%nat;
}.

Lemma dropExpired_split now l : exists old, l = old ++ dropExpired now l /\ Forall (fun tk => et_at tk <= now - ESCALATION_WINDOW_MS) old.
Proof.
  induction l as [|t l IH]; simpl; [exists []; auto|]. destruct (ESCALATION_WINDOW_MS <=? now - et_at t) eqn:E.
  - destruct IH as (old & E1 & Ho). exists (t :: old). split; [simpl; rewrite <- E1; reflexivity|].
    constructor; [bools; lia | exact Ho].
  - exists []. auto.
Qed.

Lemma filter_length_le {A} (p : A -> bool) l : (length (List.filter p l) <= length l)%nat.
Proof. induction l as [|x l IH]; simpl; [lia|]. destruct (p x); simpl; lia. Qed.

Lemma filter_filter_le {A} (p q : A -> bool) l : (length (List.filter p (List.filter q l)) <= length (List.filter p l))%nat.
Proof.
  induction l as [|x l IH]; simpl; [lia|]. destruct (q x); simpl; destruct (p x); simpl; lia.
Qed.

Lemma old_outside u t (l : list EscalationToken) : t <= u -> Forall (fun tk => et_at tk <= t - ESCALATION_WINDOW_MS) l ->
  List.filter (inWindowOf u) l = [].
Proof.
  intros Hu H. induction H as [|x l Hx _ IH]; [reflexivity|]. simpl.
  assert (E : inWindowOf u x = false) by (unfold inWindowOf; apply andb_false_iff; left; apply Z.ltb_ge; lia).
  rewrite E. exact IH.
Qed.

Lemma mirror_later b t t' m l : t <= t' -> SlotsMirror b t m l -> SlotsMirror b t' m l.
Proof.
  intros Ht [(old & E & Ho) Hp Hc]. split; [exists old; split; [exact E|]| |exact Hc];
    (eapply Forall_impl; [eassumption|]; simpl; intros; lia).
Qed.

(** Steps that leave the bot's own slots alone. *)
Lemma mirror_other b t m m' l : tokensOf b m' = tokensOf b m -> SlotsMirror b t m l -> SlotsMirror b t m' l.
Proof. intros E [H Hp Hc]. split; [rewrite E; exact H | exact Hp | exact Hc]. Qed.

Lemma tokensOf_prune b t m : km_escalationsPerBot m = <[b := t]> (km_escalationsPerBot m) -> tokensOf b m = t.
Proof. intros E. unfold tokensOf. rewrite E, lookup_insert_eq. reflexivity. Qed.

Lemma mirror_reserve b t i waId kind m l :
  SlotsMirror b t m l -> SlotsMirror b t (slotStep t (Se_reserve i waId kind) m) (admittedStep b t (Se_reserve i waId kind) m l).
Proof.
  intros Hm. cbn [slotStep admittedStep]. unfold reserveEscalation.
  destruct (str_eqb i b) eqn:Eb.
  - apply str_eqb_eq in Eb as ->. set (tokens := dropExpired t (default [] (km_escalationsPerBot m !! b))).
    destruct Hm as [(old & El & Ho) Hp Hc].
    destruct (dropExpired_split t (tokensOf b m)) as (mid & Em & Hmid). fold (tokensOf b m) in tokens. fold tokens in Em.
    assert (Hpruned : forall m', tokensOf b m' = tokens -> SlotsMirror b t m' l).
    { intros m' E. split; [|exact Hp|exact Hc]. exists (old ++ mid). rewrite E, <- app_assoc, <- Em.
      split; [exact El | apply Forall_app; auto]. }
    assert (Hins : forall v n m', tokensOf b (setTokens (<[b := v]> (km_escalationsPerBot m')) n m') = v)
      by (intros; unfold tokensOf; simpl; rewrite lookup_insert_eq; reflexivity).
    destruct (ESCALATIONS_PER_BOT_PER_MINUTE <=? length tokens)%nat eqn:Efull; cbn [fst snd]; [apply Hpruned, Hins|].
    destruct (bool_decide _ && _); cbn [fst snd sl_token]; [apply Hpruned, Hins|].
    set (tk := mkToken (km_nextToken m) t).
    assert (Hnew : forall m', tokensOf b m' = tokens ++ [tk] -> SlotsMirror b t m' (l ++ [tk])).
    { intros m' E. split.
      - exists (old ++ mid). rewrite E. split; [rewrite El, Em, <- !app_assoc; reflexivity | apply Forall_app; auto].
      - apply Forall_app. split; [exact Hp | constructor; [simpl; lia | constructor]].
      - intros u. rewrite List.filter_app, length_app. destruct (Z_le_gt_dec t u) as [Hu|Hu].
        + rewrite El, Em, !List.filter_app, !length_app, (old_outside u t old Hu Ho), (old_outside u t mid Hu Hmid).
          pose proof (filter_length_le (inWindowOf u) tokens). pose proof (filter_length_le (inWindowOf u) [tk]).
          apply Nat.leb_gt in Efull. simpl in *. lia.
        + specialize (Hc u).
          assert (E0 : inWindowOf u tk = false) by (unfold inWindowOf; apply andb_false_iff; right; apply Z.leb_gt; simpl; lia).
          simpl. rewrite E0. simpl. lia. }
    destruct (bool_decide _); apply Hnew; [|apply Hins]. unfold tokensOf. simpl. rewrite lookup_insert_eq. reflexivity.
  - assert (Hne : i <> b) by (intros ->; rewrite str_eqb_refl in Eb; discriminate).
    eapply mirror_other; [|exact Hm]. unfold tokensOf.
    destruct (_ <=? _)%nat; cbn [snd]; [|destruct (bool_decide _ && _); cbn [snd]; [|destruct (bool_decide _)]];
      simpl; rewrite lookup_insert_ne by exact Hne; reflexivity.
Qed.

Lemma mirror_release b t i waId kind slot m l :
  SlotsMirror b t m l -> SlotsMirror b t (slotStep t (Se_release i waId kind slot) m) (admittedStep b t (Se_release i waId kind slot) m l).
Proof.
  intros Hm. cbn [slotStep admittedStep].
  assert (E : tokensOf b (releaseSlot i waId kind slot m) =
    if str_eqb i b then List.filter (fun t => negb (et_id t =? et_id (sl_token slot))) (tokensOf b m) else tokensOf b m).
  { unfold releaseSlot, tokensOf. destruct (str_eqb i b) eqn:Eb.
    - apply str_eqb_eq in Eb as ->. destruct (km_escalationsPerBot m !! b) eqn:Em; destruct (bool_decide _); simpl;
        rewrite ?lookup_insert_eq, ?Em; reflexivity.
    - assert (Hne : i <> b) by (intros ->; rewrite str_eqb_refl in Eb; discriminate).
      destruct (km_escalationsPerBot m !! i) eqn:Em; destruct (bool_decide _); simpl;
        rewrite ?lookup_insert_ne by exact Hne; reflexivity. }
  destruct (str_eqb i b); [|exact (mirror_other b t _ _ l E Hm)].
  destruct Hm as [(old & El & Ho) Hp Hc]. split.
  - eexists. rewrite E, El, List.filter_app. split; [reflexivity|]. apply List.Forall_forall. intros x Hx.
    apply filter_In in Hx as [Hx _]. rewrite List.Forall_forall in Ho. exact (Ho x Hx).
  - apply List.Forall_forall. intros x Hx. apply filter_In in Hx as [Hx _]. rewrite List.Forall_forall in Hp. exact (Hp x Hx).
  - intros u. pose proof (filter_filter_le (inWindowOf u) (fun t => negb (et_id t =? et_id (sl_token slot))) l). specialize (Hc u). lia.
Qed.

Lemma mirror_forget b t i m l :
  SlotsMirror b t m l -> SlotsMirror b t (slotStep t (Se_forget i) m) (admittedStep b t (Se_forget i) m l).
Proof.
  intros Hm. cbn [slotStep admittedStep]. destruct (str_eqb i b) eqn:Eb.
  - apply str_eqb_eq in Eb as ->. split; [|constructor | simpl; lia]. exists []. split; [|constructor].
    unfold tokensOf. cbn -[String.prefix]. rewrite lookup_delete_eq. reflexivity.
  - eapply mirror_other; [|exact Hm]. unfold tokensOf. cbn -[String.prefix]. rewrite lookup_delete_ne; [reflexivity|].
    intros ->. rewrite str_eqb_refl in Eb. discriminate.
Qed.

(** The instants do not go back. *)
Fixpoint ordered (t : Z) (evs : list (Z * SlotEvent)) : Prop :=
  match evs with [] => True | (now, _) :: evs => t <= now /\ ordered now evs end.

Lemma mirror_run b evs : forall t m l, ordered t evs -> SlotsMirror b t m l ->
  exists t', SlotsMirror b t' (runSlots b evs m l).1 (runSlots b evs m l).2.
Proof.
  induction evs as [|[now ev] evs IH]; intros t m l Ho Hm; [exists t; exact Hm|]. destruct Ho as [Ht Ho].
  apply (mirror_later b t now m l Ht) in Hm. simpl. apply (IH now); [exact Ho|].
  destruct ev; [apply mirror_reserve | apply mirror_release | apply mirror_forget]; exact Hm.
Qed.

(** A bot cannot flood its owner: in the minute up to any instant at most sixty of
    its escalations were admitted and not given back, however its customers' requests,
    failed messages and those of other bots interleave. *)
Theorem escalation_cap (b : string) (evs : list (Z * SlotEvent)) (t u : Z) (Ho : ordered t evs) :
  (length (List.filter (inWindowOf u) (runSlots b evs emptyCloud []).2) <= ESCALATIONS_PER_BOT_PER_MINUTE)%nat.
Proof.
  destruct (mirror_run b evs t emptyCloud [] Ho) as [t' H]; [|apply H].
  split; [|constructor | simpl; lia]. exists []. split; [|constructor]. unfold tokensOf. simpl. rewrite lookup_empty. reflexivity.
Qed.

Lemma escalation_cap_witness :
  let evs := [(0, Se_reserve "b" "1" Esc_request); (1, Se_reserve "b" "1" Esc_request); (2, Se_reserve "b" "2" Esc_forward);
              (3, Se_release "b" "2" Esc_forward (mkSlot (mkToken 1 2) None))] in
  ordered 0 evs /\ (runSlots "b" evs emptyCloud []).2 = [mkToken 0 0] /\
  (length (List.filter (inWindowOf 100) (runSlots "b" evs emptyCloud []).2) <= ESCALATIONS_PER_BOT_PER_MINUTE)%nat.
Proof.
  intros evs. split; [simpl; lia|]. split; [vm_compute; reflexivity|]. apply (escalation_cap "b" evs 0 100). simpl. lia.
Defined.

(** A customer's second request within two minutes of the first is not passed on. *)
Lemma request_spaced now now' b waId m slot m1 :
  reserveEscalation now b waId Esc_request m = (Some slot, m1) -> now' - now < ESCALATION_MIN_INTERVAL_MS ->
  (reserveEscalation now' b waId Esc_request m1).1 = None.
Proof.
  intros H Hn.
  assert (Hstamp : lookupKey (escalationKey b waId) (km_lastEscalationAt m1) = Some now).
  { unfold reserveEscalation in H. destruct (_ <=? _)%nat; [discriminate|]. destruct (bool_decide _ && _); [discriminate|].
    injection H as _ <-. cbn [setLast km_lastEscalationAt setTokens]. unfold stampCustomer.
    assert (Hno : forall l, Forall (fun p => p.1 <> escalationKey b waId) l ->
      lookupKey (escalationKey b waId) (l ++ [(escalationKey b waId, now)]) = Some now).
    { induction 1 as [|[k v] l Hk _ IH]; simpl; [rewrite str_eqb_refl; reflexivity|].
      simpl in Hk. destruct (str_eqb k _) eqn:E; [apply str_eqb_eq in E; congruence | exact IH]. }
    apply Hno. assert (Hf : Forall (fun p : string * Z => p.1 <> escalationKey b waId)
      (removeKey (escalationKey b waId) (km_lastEscalationAt m))).
    { apply List.Forall_forall. intros p Hp. apply filter_In in Hp as [_ Hp]. intros E. rewrite E, str_eqb_refl in Hp. discriminate. }
    destruct (_ <=? _); [|exact Hf]. destruct Hf; [constructor | assumption]. }
  unfold reserveEscalation. destruct (_ <=? _)%nat; [reflexivity|]. rewrite Hstamp.
  apply Z.ltb_lt in Hn. rewrite Hn. reflexivity.
Qed.

(** ** Alerts *)
Section Alerts.
Context {X : Type} `{!ContainerRuntime X, !AgentAdapter X, !Collaborators X, !CloudWorld X}.
Abbreviation W := (World (FleetDb X) unit).

(** A poll sleeps, and the question about the run answers. *)
Definition Polls : Prop :=
  (forall x, POLL_INTERVAL_MS <= (alertPollTook x).1) /\
  (forall h c i x, exists o x', alert_delivery h c i x = (inr o, x')).
Definition OwnerReachable : Prop := forall token chat text x, exists x', owner_sendMessage token chat text x = (inr tt, x').

Lemma run_op {A} (op : Ext X A) (w : W) :
  ext op w = ((op (fd_x (arrives w))).1, afterFirst w (setX (op (fd_x (arrives w))).2 (arrives w))).
Proof. unfold ext. rewrite run_atomic. destruct (op (fd_x (arrives w))). reflexivity. Qed.

Lemma run_poll (Hp : Polls) (w : W) : exists took w1, ext' alertPollTook w = (inr took, w1) /\ POLL_INTERVAL_MS <= took.
Proof.
  unfold ext'. rewrite run_op. pose proof (proj1 Hp (fd_x (arrives w))) as H. destruct (alertPollTook _) as [took x].
  exists took. eexists. split; [reflexivity | exact H].
Qed.
Lemma run_ask (Hp : Polls) a (w : W) : exists o w1,
  ext (alert_delivery (fi_hostId (oa_instance a)) (oa_containerId a) (oa_alertId a)) w = (inr o, w1).
Proof.
  rewrite run_op. destruct (proj2 Hp (fi_hostId (oa_instance a)) (oa_containerId a) (oa_alertId a) (fd_x (arrives w))) as (o & x & E).
  rewrite E. eexists _, _. reflexivity.
Qed.

(** Enough fuel is enough. *)
Lemma await_fuel (Hp : Polls) a : forall n m elapsed o (w : W),
  0 <= elapsed -> DELIVERY_DEADLINE_MS <= elapsed + Z.of_nat n * POLL_INTERVAL_MS -> (n <= m)%nat ->
  awaitDelivery m elapsed a o w = awaitDelivery n elapsed a o w /\
  exists o' w', awaitDelivery n elapsed a o w = (inr o', w').
Proof.
  induction n as [|n IH]; intros m elapsed o w He Hd Hm.
  - assert (E : (DELIVERY_DEADLINE_MS <=? elapsed) = true) by (apply Z.leb_le; lia).
    split; [|simpl; eexists _, _; reflexivity]. destruct m; simpl; [reflexivity|]. rewrite E, orb_true_r. reflexivity.
  - destruct m as [|m]; [lia|]. cbn [awaitDelivery].
    destruct (negb _ || _) eqn:Eo; [split; [reflexivity | eexists _, _; reflexivity]|].
    destruct (run_poll Hp w) as (took & w1 & E1 & Ht). rewrite !(bind_ok _ _ w took w1 E1).
    destruct (run_ask Hp a w1) as (next & w2 & E2). rewrite !(bind_ok _ _ w1 next w2 E2).
    apply IH; unfold POLL_INTERVAL_MS in *; lia.
Qed.

Definition toldOf (w : W) : list ToldOwner := km_told (mm_cloud (fd_mem (w_db w))).
Definition SameTold (d d' : FleetDb X) : Prop := km_told (mm_cloud (fd_mem d')) = km_told (mm_cloud (fd_mem d)).
#[local] Instance sameTold_rel : StepRel SameTold.
Proof. constructor; unfold SameTold; congruence. Qed.
#[local] Instance sameTold_step : FleetStep SameTold.
Proof. constructor; unfold SameTold; auto. Qed.

Lemma untold_append id ev actor : FleetGuar.Keeps (X := X) SameTold (append id ev actor).
Proof. apply keeps_bind; [apply keeps_now | intros t]. apply gives_statement; [apply _|]. intros d. split; [reflexivity | auto]. Qed.
Local Hint Resolve untold_append : keeps.

Lemma untold_await a n : forall elapsed o, FleetGuar.Keeps (X := X) SameTold (awaitDelivery n elapsed a o).
Proof.
  induction n as [|n IH]; intros elapsed o; simpl; [apply keeps_ret|]. destruct (_ || _); [apply keeps_ret|].
  apply keeps_bind; [keeps | intros took]. apply keeps_bind; [keeps | intros next; apply IH].
Qed.

(** What a program that tells the owner nothing leaves of a world where nothing else runs. *)
Lemma untold_alone {A} (m : Fleet X A) (w : W) r w' : FleetGuar.Keeps (X := X) SameTold m -> w_env w = [] -> m w = (r, w') ->
  toldOf w' = toldOf w /\ w_env w' = [] /\ w_now w' = w_now w.
Proof.
  intros Hm He Hw. destruct (Hm SameTold _ (fun _ _ H => H) w r w' I) as (_ & Hs & Hl & _); [rewrite He; constructor | exact Hw|].
  split; [exact Hs|]. split; [exact (later_alone _ _ Hl He) | apply Hl].
Qed.

(** An alert handed to the owner's agent is not lost.  The watch ends within its 36
    polls, more would change nothing; then the run is cancelled, and unless the agent
    delivered the alert the owner is told directly - once, whatever becomes of the
    cancellation and of the event. *)
Theorem alert_not_lost (a : OwnerAlert) (w : W) (He : w_env w = []) (Hp : Polls) (Hr : OwnerReachable) :
  exists o w1 w', awaitDelivery WATCH_FUEL 0 a Del_pending w = (inr o, w1) /\
    (forall n, (WATCH_FUEL <= n)%nat -> awaitDelivery n 0 a Del_pending w = (inr o, w1)) /\
    watchAlert a w = (inr tt, w') /\
    toldOf w' = toldOf w ++
      (if decide (o = Del_delivered) then [] else [mkTold (fi_id (oa_instance a)) (oa_text a) (w_now w)]).
Proof.
  destruct (await_fuel Hp a WATCH_FUEL WATCH_FUEL 0 Del_pending w ltac:(lia) ltac:(vm_compute; discriminate) ltac:(lia))
    as [_ (o & w1 & E1)].
  exists o, w1. destruct (untold_alone _ w _ w1 (untold_await a WATCH_FUEL 0 Del_pending) He E1) as (T1 & He1 & N1).
  unfold watchAlert. rewrite (bind_ok _ _ w o w1 E1).
  destruct (attempt (ext (alert_cancel (fi_hostId (oa_instance a)) (oa_containerId a) (oa_alertId a))) w1) as [r2 w2] eqn:E2.
  assert (Hc : FleetGuar.Keeps (X := X) SameTold
    (attempt (ext (alert_cancel (fi_hostId (oa_instance a)) (oa_containerId a) (oa_alertId a))))) by keeps.
  destruct (untold_alone _ w1 _ w2 Hc He1 E2) as (T2 & He2 & N2).
  assert (r2 = inr tt) as ->.
  { unfold attempt in E2. apply catch_inv in E2 as [([] & _ & ->)|(e & w3 & _ & E3)]; [reflexivity | injection E3 as <- _; reflexivity]. }
  rewrite (bind_ok _ _ w1 tt w2 E2).
  assert (Hfuel : forall n, (WATCH_FUEL <= n)%nat -> awaitDelivery n 0 a Del_pending w = (inr o, w1)).
  { intros n Hn. rewrite <- E1. apply (await_fuel Hp a WATCH_FUEL n); [lia | vm_compute; discriminate | exact Hn]. }
  case_bool_decide as Ho.
  - exists w2. split; [exact E1|]. split; [exact Hfuel|]. split; [reflexivity|].
    rewrite decide_True by exact Ho. rewrite app_nil_r, T2, T1. reflexivity.
  - destruct (messageOwner (oa_instance a) (oa_target a) (oa_text a) w2) as [r3 w3] eqn:E3.
    assert (H3 : r3 = inr tt /\ toldOf w3 = toldOf w2 ++ [mkTold (fi_id (oa_instance a)) (oa_text a) (w_now w2)] /\ w_env w3 = []).
    { unfold messageOwner in E3. rewrite (bind_ok now _ w2 (w_now w2) w2 eq_refl), run_atomic in E3.
      assert (Ea : arrives w2 = w_db w2) by (unfold arrives; rewrite He2; reflexivity). rewrite Ea in E3.
      destruct (Hr (ot_botToken (oa_target a)) (ot_chatId (oa_target a)) (oa_text a) (fd_x (w_db w2))) as (x & Ex).
      rewrite Ex in E3. injection E3 as <- <-. split; [reflexivity|]. split; [reflexivity|]. unfold afterFirst. rewrite He2. reflexivity. }
    destruct H3 as (-> & T3 & He3). unfold attempt, catch. rewrite (bind_ok _ _ w2 tt w3 E3).
    destruct (append (fi_id (oa_instance a)) "whatsapp_cloud.escalated" None w3) as [r4 w4] eqn:E4.
    destruct (untold_alone _ w3 _ w4 (untold_append _ _ _) He3 E4) as (T4 & _ & _).
    assert (Et : toldOf w4 = toldOf w ++ [mkTold (fi_id (oa_instance a)) (oa_text a) (w_now w)])
      by (rewrite T4, T3, T2, T1, N2, N1; reflexivity).
    rewrite decide_False by exact Ho. destruct r4 as [e|[]]; exists w4; auto.
Qed.
End Alerts.

(** ** A business to try it on

    Meta takes every call and the owner's Telegram every message; an alert is never
    delivered by the agent. *)
#[export] Instance simCloud : CloudWorld Sim := {
  graph_subscribeApp w t x := (inr tt, simLog "subscribe" x);
  graph_unsubscribeApp w t x := (inr tt, x);
  graph_registerNumber p t n x := (inr tt, x);
  graph_deregisterNumber p t x := (inr tt, x);
  graph_getPhoneNumber p t x := (inr (mkFacts "+1 555" "Shop" None), x);
  graph_listPhoneNumbers w t x := (inr [mkListed "111" (mkFacts "+1 555" "Shop" (Some true))], x);
  graph_startAppDataSync p t s x :=
    (inr tt, simLog (match s with Sync_app_state => "sync contacts" | Sync_history => "sync history" end) x);
  graph_sendText p t i x := (inr "wamid.1", simLog "send" x);
  graph_markRead p t i b x := (inr tt, x);
  graph_getMediaLocation m t x := (inr ("https://media", "image/png"), x);
  graph_downloadMedia l t x := (inr ("image/png", "bytes"), x);
  inbox_wait i ms x := (inr [], x);
  inbox_idle ms x := (inr tt, x);
  owner_sendMessage t c s x := (inr tt, simLog "tell owner" x);
  alert_start h c r k i x := (inr (Some "alert"), x);
  alert_delivery h c i x := (inr Del_pending, x);
  alert_cancel h c i x := (inl (PlainError "gone"), x);
  alertPollTook x := (6000, x);
  freshPin x := ("123456", x);
  freshRelayToken x := ("relay", x);
}.

Definition simChannel (coexistence : bool) : WhatsappCloudChannel :=
  mkWhatsappCloud "222" "111" None "+1 555" "Shop" "access" (if coexistence then None else Some "123456") coexistence "relay" None.

Definition simBusiness (channels : list ChannelConfig) : Row :=
  mkRow (ro_fleet (simRow "a" I_running (Some "c") None None))
    (inr (withChannels channels simBotConfig, "token")).
Definition simInstance (channels : list ChannelConfig) : Instance_ :=
  mkInstance (ro_fleet (simRow "a" I_running (Some "c") None None)) (withChannels channels simBotConfig) "token".

Definition simCloudWorld (row : Row) (t : CloudDb) (statements : list StatementOutcome) : World (FleetDb Sim) unit :=
  mkWorld (mkFleetDb [row] [] [] [] [] [] t [] emptyMemory (mkSim true statements [])) [] 100000 [].

Definition simTalk : Conversation := mkConversation "bot" "972500000000" None (Some 50000) None Mode_bot None None 50000.
Definition simTables : CloudDb := mkCloudDb 1 [] [simTalk] [] [mkNumberRow "111" (Some "bot") "222" None None None 0] [].
Definition simRelay (coexistence : bool) : RelayContext :=
  mkRelay (simInstance [Ch_whatsapp_cloud (simChannel coexistence)]) (simChannel coexistence).

#[local] Existing Instances simRuntime simAdapter.
Definition simStore : Collaborators Sim := simCollaborators simNext.
#[local] Existing Instance simStore.


Definition simAlert : OwnerAlert := mkAlert (simInstance []) "c" "alert" (mkTarget "bot-token" 7) "972500000000" "a customer asks for you".

Lemma simPolls : Polls (X := Sim).
Proof.
  split; [intros x; vm_compute; discriminate | intros h c i x; exists Del_pending, x; reflexivity].
Qed.
Lemma simReachable : OwnerReachable (X := Sim).
Proof. intros token chat text x. exists (simLog "tell owner" x). reflexivity. Qed.

Lemma alert_not_lost_witness :
  let w := simCloudWorld (simBusiness []) simTables [] in
  Polls (X := Sim) /\ OwnerReachable (X := Sim) /\
  exists o w1 w', awaitDelivery WATCH_FUEL 0 simAlert Del_pending w = (inr o, w1) /\
    watchAlert simAlert w = (inr tt, w') /\
    toldOf w' = toldOf w ++ (if decide (o = Del_delivered) then [] else [mkTold "bot" "a customer asks for you" 100000]).
Proof.
  intros w. split; [exact simPolls|]. split; [exact simReachable|].
  destruct (alert_not_lost simAlert w eq_refl simPolls simReachable) as (o & w1 & w' & E1 & _ & E2 & Et).
  exists o, w1, w'. split; [exact E1|]. split; [exact E2 | exact Et].
Defined.

(** *** A signup whose sync never starts

    The business signs up again on a number whose contacts and history were synced at
    an earlier signup.  The channel is saved, then the statement that clears the old
    syncs fails: the connect fails, and the user runs it again, as its comment allows
    ("every step is idempotent").  The second run finds the channel and refreshes it
    with the old syncs: the syncs of this signup are never asked for, and the view
    shows nothing pending. *)
Definition simSigned : CloudDb := mkCloudDb 1 [] [] [] [mkNumberRow "111" None "222" None (Some 5) (Some 5) 5] [].
Definition simSignup : ConnectInput := mkConnect "access" (Some "111") "222" None None true.
Definition connectTwice (statements : list StatementOutcome) : (OrchError + WhatsappCloudView) * list string :=
  let w1 := (connectLocked simConfig "bot" "user" simSignup (simCloudWorld (simBusiness []) simSigned statements)).2 in
  let '(r, w2) := connectLocked simConfig "bot" "user" simSignup w1 in
  (r, sm_log (fd_x (w_db w2))).

Definition connectOnce : (OrchError + WhatsappCloudView) * list string :=
  let '(r, w) := connectLocked simConfig "bot" "user" simSignup (simCloudWorld (simBusiness []) simSigned []) in
  (r, sm_log (fd_x (w_db w))).
Lemma half_finished_signup_skips_syncs :
  connectOnce.2 = ["subscribe"; "sync contacts"; "sync history"] /\
  (connectTwice (repeat St_done 9 ++ [St_refused])).2 = ["subscribe"; "subscribe"] /\
  exists v, (connectTwice (repeat St_done 9 ++ [St_refused])).1 = inr v /\ vw_syncPending v = false.
Proof. split; [vm_compute; reflexivity|]. split; [vm_compute; reflexivity|]. eexists. split; vm_compute; reflexivity. Qed.

(** *** The relay *)
Section Relay.
Context {X : Type} `{!ContainerRuntime X, !AgentAdapter X, !Collaborators X, !CloudWorld X}.
Context (cfg : AppConfig) (sha256 : string -> string).

Lemma run_findInstance id (w : World (FleetDb X) unit) r w' : findInstance cfg id w = (r, w') ->
  match r with inr o => findById (ac_managedHostIds cfg) id (fd_rows (arrives w)) = inr o | inl _ => True end.
Proof.
  unfold findInstance, onRows, statement. rewrite run_atomic. intros H. injection H as <- _.
  destruct (db_next (fd_x (arrives w))) as [[] x]; simpl; try exact I.
  destruct (findById _ id (fd_rows (arrives w))); [exact I | reflexivity].
Qed.

(** The container's door opens to its bot's token alone: a relay request is answered
    only if its bearer hashes to the relay token of the number connected to the very bot
    the path names, a bot that is there and not being destroyed; anything else is an
    authentication error, or the database's, before any of the request is acted on. *)
Theorem relay_needs_token (id : string) (authorization : option string) (body : option RelayRequest)
  (w w' : World (FleetDb X) unit) (reply : CloudReply)
  (Hw : relayRoute cfg sha256 id authorization body w = (inr reply, w')) :
  exists bearer inst channel, extractBearer authorization = Some bearer /\
    findById (ac_managedHostIds cfg) id (fd_rows (arrives w)) = inr (Some inst) /\ isLive inst = true /\
    findWhatsappCloudChannel (ic_channels (in_config inst)) = Some channel /\ sha256 bearer = sha256 (wc_relayToken channel).
Proof.
  unfold relayRoute in Hw. apply bind_inv in Hw as [(e & _ & [=])|(ctx & w1 & Hc & _)].
  unfold relayContext in Hc. destruct (extractBearer authorization) as [bearer|]; [|discriminate].
  unfold resolveRelay in Hc. apply bind_inv in Hc as [(e & _ & [=])|(o & w2 & Ho & Hc)].
  apply run_findInstance in Ho. destruct o as [inst|]; [|discriminate].
  destruct (isLive inst) eqn:El; [|discriminate]. cbn [negb] in Hc.
  destruct (findWhatsappCloudChannel _) as [channel|] eqn:Ech; [|discriminate].
  destruct (tokensMatch sha256 bearer (wc_relayToken channel)) eqn:Et; [|discriminate].
  exists bearer, inst, channel. unfold tokensMatch in Et. bools. auto.
Qed.
End Relay.

Lemma relay_needs_token_witness :
  let w := simCloudWorld (simBusiness [Ch_whatsapp_cloud (simChannel false)]) simTables [] in
  exists w' bearer, relayRoute simConfig (fun s => s) "bot" (Some "Bearer relay") (Some (Rr_conversation "972500000000")) w
    = (inr (Cp_conversation (Some simTalk)), w') /\ extractBearer (Some "Bearer relay") = Some bearer.
Proof.
  intros w. set (w' := (relayRoute simConfig (fun s => s) "bot" (Some "Bearer relay") (Some (Rr_conversation "972500000000")) w).2).
  assert (E : relayRoute simConfig (fun s => s) "bot" (Some "Bearer relay") (Some (Rr_conversation "972500000000")) w
    = (inr (Cp_conversation (Some simTalk)), w')) by (vm_compute; reflexivity).
  destruct (relay_needs_token simConfig (fun s => s) "bot" (Some "Bearer relay") _ w w' _ E) as (bearer & inst & channel & Hb & _).
  exists w', bearer. split; [exact E | exact Hb].
Defined.
