(* ===== verification/WebIngress.v ===== *)
(** The WhatsApp webhook of the web application, [web/src/lib/whatsapp-cloud]: [schemas.ts],
    [ingress.ts], and the connection of a number, [signup-message.ts], [meta-oauth.ts],
    [config.ts] and [service.ts].

    A webhook runs over the tables of [CloudInbox]; each query is one access of the database,
    so that others may write between two of them.  What is logged is recorded without the
    number of issues.  [Text] names what the code takes from libraries: [JSON.parse],
    [JSON.stringify], the text of a number, the digests and the signatures. *)
From Stdlib Require Import Ascii QArith.
From S2P Require Import Prelude JsString Substring Json Fleet Provider CloudInbox CloudTypes.
From stdpp Require Import list strings gmap.
#[local] Open Scope Z_scope.

Record Text := mkText {
  tx_parse : string -> option Json;
  tx_stringify : Json -> string;
  tx_showNumber : Q -> string;
  tx_sha256Hex : string -> string;
  tx_hmacHex : string -> string -> string;
}.

(** ** schemas.ts *)
Definition zMatching (p : string -> bool) : Schema string := refine p zString.
Definition zSized (n m : nat) : Schema string :=
  zMatching (fun s => (n <=? String.length s)%nat && (String.length s <=? m)%nat).
Definition MetaId : Schema string := zMatching matchesPhoneNumberId.
Definition WaId : Schema string := zMatching matchesWaId.
Definition zSeconds : Schema string := zMatching (digitsBetween 1 10).
Definition zTrue : Schema bool := fun j => match j with JBool b => Some b | _ => None end.
Definition fieldsOf (j : Json) : list (string * Json) := match j with JObj fields => fields | _ => [] end.

(** A passed-through object is its typed fields and all of its fields. *)
Record InboundMessage := mkInboundMessage {
  im_id : string; im_from : string; im_timestamp : string; im_type : string; im_fields : list (string * Json) }.
Definition InboundMessageSchema : Schema InboundMessage := fun j =>
  match field "id" (zSized 1 255) j, field "from" WaId j, field "timestamp" zSeconds j, field "type" zNonEmpty j with
  | Some id, Some from, Some timestamp, Some type => Some (mkInboundMessage id from timestamp type (fieldsOf j))
  | _, _, _, _ => None
  end.

Record OwnerEcho := mkOwnerEcho { oe_id : string; oe_to : string; oe_timestamp : string; oe_fields : list (string * Json) }.
Definition OwnerEchoSchema : Schema OwnerEcho := fun j =>
  match field "id" (zSized 1 255) j, field "to" WaId j, field "timestamp" zSeconds j with
  | Some id, Some to, Some timestamp => Some (mkOwnerEcho id to timestamp (fieldsOf j))
  | _, _, _ => None
  end.

Record AccountUpdate := mkAccountUpdate { au_event : string; au_wabaId : option string }.
Definition AccountUpdateSchema : Schema AccountUpdate := fun j =>
  match field "event" zString j, undefinedField "waba_info" (field "waba_id" MetaId) j with
  | Some event, Some wabaId => Some (mkAccountUpdate event wabaId)
  | _, _ => None
  end.

(** [profile?.name]. *)
Record Contact := mkContact { co_waId : string; co_name : option string }.
Definition ContactSchema : Schema Contact := fun j =>
  match field "wa_id" WaId j, undefinedField "profile" (undefinedField "name" (zSized 0 255)) j with
  | Some waId, Some profile => Some (mkContact waId (match profile with Some name => name | None => None end))
  | _, _ => None
  end.

Record ChangeValue := mkChangeValue {
  cg_phoneNumberId : string;
  cg_contacts : option (list Json);
  cg_messages : option (list Json);
  cg_echoes : option (list Json);
}.
Definition zMetadata : Schema string := fun j =>
  match field "phone_number_id" MetaId j, undefinedField "display_phone_number" zString j with
  | Some id, Some _ => Some id
  | _, _ => None
  end.
Definition WebhookChangeValueSchema : Schema ChangeValue := fun j =>
  match field "messaging_product" (zLiteral "whatsapp") j, field "metadata" zMetadata j,
        undefinedField "contacts" (zArray zUnknown) j, undefinedField "messages" (zArray zUnknown) j,
        undefinedField "message_echoes" (zArray zUnknown) j with
  | Some _, Some id, Some contacts, Some messages, Some echoes => Some (mkChangeValue id contacts messages echoes)
  | _, _, _, _, _ => None
  end.

(** An absent value is [null]: every schema above refuses both. *)
Record Change := mkChange { ch_field : string; ch_value : Json }.
Record Entry := mkEntry { en_id : string; en_time : option Q; en_changes : list Change }.
Definition zAnyNumber : Schema Q := fun j => match j with JNum q => Some q | _ => None end.
Definition zChange : Schema Change := fun j =>
  match field "field" zString j, undefinedField "value" zUnknown j with
  | Some name, Some value => Some (mkChange name (default JNull value))
  | _, _ => None
  end.
Definition zEntry : Schema Entry := fun j =>
  match field "id" zString j, undefinedField "time" zAnyNumber j, field "changes" (zArray zChange) j with
  | Some id, Some time, Some changes => Some (mkEntry id time changes)
  | _, _, _ => None
  end.
Definition WebhookEnvelopeSchema : Schema (list Entry) := fun j =>
  match field "object" (zLiteral "whatsapp_business_account") j, field "entry" (zArray zEntry) j with
  | Some _, Some entries => Some entries
  | _, _ => None
  end.

Definition MESSAGES_FIELD : string := "messages".
Definition OWNER_ECHOES_FIELD : string := "smb_message_echoes".
Definition ACCOUNT_UPDATE_FIELD : string := "account_update".
Definition PARTNER_REMOVED_EVENT : string := "PARTNER_REMOVED".

(** ** ingress.ts *)
Inductive IngressError := Ig_invalid_signature | Ig_invalid_payload | Ig_verify_token_mismatch.
Definition ingressStatus (e : IngressError) : Z :=
  match e with Ig_invalid_signature => 401 | Ig_invalid_payload => 400 | Ig_verify_token_mismatch => 403 end.

Record IngressOutcome := mkIngressOutcome { io_received : Z; io_enqueued : Z; io_unknownNumbers : Z; io_rejected : Z }.
Record InboxRequest := mkInboxRequest { wq_rawBody : string; wq_signature : option string }.

Inductive IngressLog :=
| Lg_unknownNumber (phoneNumberId : string)
| Lg_changeRejected (entryId : string)
| Lg_itemRejected (entryId : string)
| Lg_partnerRemoved (wabaId : option string).

Definition SIGNATURE_PREFIX : string := "sha256=".

(** The reviver of [JSON.parse]: every string value loses its U+0000. *)
Fixpoint stripNul (j : Json) : Json :=
  match j with
  | JStr s => JStr (removeAll zero s)
  | JArr l => JArr (List.map stripNul l)
  | JObj fields => JObj (List.map (fun p => (p.1, stripNul p.2)) fields)
  | JNull | JBool _ | JNum _ => j
  end.

Definition secondsToMs (timestamp : string) : Z := default 0 (decimal timestamp) * 1000.
Definition orNull (s : option string) : Json := match s with Some v => JStr v | None => JNull end.

Definition toRow (instanceId : string) (message : InboundMessage) (profileName : option string) (receivedAt : Z) : InboundRow :=
  mkInboundRow In_message (im_id message) instanceId (Some (im_from message)) profileName (secondsToMs (im_timestamp message))
    receivedAt [("from", JStr (im_from message)); ("profileName", orNull profileName); ("message", JObj (im_fields message))].

Definition toEchoRow (instanceId : string) (echo : OwnerEcho) (receivedAt : Z) : InboundRow :=
  mkInboundRow In_owner_echo (oe_id echo) instanceId (Some (oe_to echo)) None (secondsToMs (oe_timestamp echo))
    receivedAt [("kind", JStr WHATSAPP_CLOUD_OWNER_ECHO_KIND); ("to", JStr (oe_to echo))].

Definition toRemovalRow (digest wabaId : string) (receivedAt : Z) (instanceId : string) : InboundRow :=
  mkInboundRow In_partner_removed ("partner_removed:" +:+ instanceId +:+ ":" +:+ digest) instanceId None None receivedAt
    receivedAt [("kind", JStr WHATSAPP_CLOUD_PARTNER_REMOVED_KIND); ("wabaId", JStr wabaId)].

(** The names of the contacts of one change; a later contact wins. *)
Definition noteContact (names : gmap string string) (raw : Json) : gmap string string :=
  match ContactSchema raw with
  | Some contact => match truthy (co_name contact) with Some name => <[co_waId contact := name]> names | None => names end
  | None => names
  end.
Definition contactNames (contacts : option (list Json)) : gmap string string :=
  fold_left noteContact (default [] contacts) ∅.

Record Tally := mkTally { ta_received : Z; ta_unknownNumbers : Z; ta_rejected : Z }.

(** What one webhook has gathered: the rows, the counts, and the bots looked up. *)
Record Ingest := mkIngest { ig_rows : list InboundRow; ig_tally : Tally; ig_instanceByNumber : gmap string (option string) }.

Definition emptyIngest : Ingest := mkIngest [] (mkTally 0 0 0) ∅.
Definition addRows (rows : list InboundRow) (st : Ingest) : Ingest :=
  mkIngest (ig_rows st ++ rows) (ig_tally st) (ig_instanceByNumber st).
Definition addReceived (n : Z) (st : Ingest) : Ingest :=
  let t := ig_tally st in
  mkIngest (ig_rows st) (mkTally (ta_received t + n) (ta_unknownNumbers t) (ta_rejected t)) (ig_instanceByNumber st).
Definition addUnknown (n : Z) (st : Ingest) : Ingest :=
  let t := ig_tally st in
  mkIngest (ig_rows st) (mkTally (ta_received t) (ta_unknownNumbers t + n) (ta_rejected t)) (ig_instanceByNumber st).
Definition addRejected (n : Z) (st : Ingest) : Ingest :=
  let t := ig_tally st in
  mkIngest (ig_rows st) (mkTally (ta_received t) (ta_unknownNumbers t) (ta_rejected t + n)) (ig_instanceByNumber st).
Definition rememberNumber (phoneNumberId : string) (instanceId : option string) (st : Ingest) : Ingest :=
  mkIngest (ig_rows st) (ig_tally st) (<[phoneNumberId := instanceId]> (ig_instanceByNumber st)).

Section Ingress.
Context (text : Text) (appSecret verifyToken : string).
Abbreviation Hook A := (M CloudDb IngressLog IngressError A).

Definition secretsMatch (presented expected : string) : bool :=
  str_eqb (tx_sha256Hex text presented) (tx_sha256Hex text expected).

(** A query string is its pairs; a repeated key keeps its last value. *)
Definition queryField (key : string) (query : list (string * string)) : option string :=
  option_map snd (List.find (fun p => str_eqb p.1 key) (rev query)).

Definition verifyChallenge (query : list (string * string)) : IngressError + string :=
  match queryField "hub.mode" query, truthy (queryField "hub.verify_token" query), truthy (queryField "hub.challenge" query) with
  | Some mode, Some token, Some challenge =>
      if negb (str_eqb mode "subscribe") then inl Ig_invalid_payload
      else if secretsMatch token verifyToken then inr challenge else inl Ig_verify_token_mismatch
  | _, _, _ => inl Ig_invalid_payload
  end.

Definition signatureMatches (req : InboxRequest) : bool :=
  match wq_signature req with
  | None => false
  | Some signature =>
      match stripPrefix SIGNATURE_PREFIX signature with
      | None => false
      | Some hex => verifyBodySignature (tx_hmacHex text) appSecret (wq_rawBody req) (Some hex)
      end
  end.

Definition route (phoneNumberId : string) (count : Z) (st : Ingest) : Hook (option string * Ingest) :=
  let! r := match ig_instanceByNumber st !! phoneNumberId with
            | Some instanceId => ret (instanceId, st)
            | None =>
                let! instanceId := query (findInstanceIdByPhoneNumberId phoneNumberId) in
                ret (instanceId, rememberNumber phoneNumberId instanceId st)
            end in
  match r.1 with
  | None => record (Lg_unknownNumber phoneNumberId);;; ret (None, addUnknown count r.2)
  | Some _ => ret r
  end.

(** The items of a batch the schema accepts; each of the others is logged. *)
Fixpoint acceptedOf {T} (schema : Schema T) (entryId : string) (raw : list Json) : Hook (list T) :=
  match raw with
  | [] => ret []
  | item :: rest =>
      match schema item with
      | Some data => let! out := acceptedOf schema entryId rest in ret (data :: out)
      | None => record (Lg_itemRejected entryId);;; acceptedOf schema entryId rest
      end
  end.
Definition accepted {T} (raw : option (list Json)) (schema : Schema T) (entryId : string) (st : Ingest) : Hook (list T * Ingest) :=
  let items := default [] raw in
  let! out := acceptedOf schema entryId items in
  ret (out, addRejected (Z.of_nat (length items - length out)) st).

Definition removalDigest (entry : Entry) (value : Json) : string :=
  substring 0 32 (tx_sha256Hex text
    (en_id entry +:+ ":" +:+ match en_time entry with Some t => tx_showNumber text t | None => "" end
     +:+ ":" +:+ tx_stringify text value)).

Definition partnerRemovals (entry : Entry) (value : Json) (receivedAt : Z) : Hook (list InboundRow) :=
  match AccountUpdateSchema value with
  | None => ret []
  | Some update =>
      if negb (str_eqb (au_event update) PARTNER_REMOVED_EVENT) then ret []
      else
        record (Lg_partnerRemoved (au_wabaId update));;;
        match au_wabaId update with
        | None => ret []
        | Some wabaId =>
            let! instanceIds := query (findInstanceIdsByWabaId wabaId) in
            ret (List.map (toRemovalRow (removalDigest entry value) wabaId receivedAt) instanceIds)
        end
  end.

(** The rows of one kind of item of a change, for the bot that has the number. *)
Definition intake {T} (schema : Schema T) (raw : option (list Json)) (build : string -> T -> InboundRow)
    (entry : Entry) (phoneNumberId : string) (st : Ingest) : Hook Ingest :=
  let! r := accepted raw schema (en_id entry) st in
  let '(items, st1) := r in
  match items with
  | [] => ret st1
  | _ =>
      let count := Z.of_nat (length items) in
      let! routed := route phoneNumberId count (addReceived count st1) in
      match routed.1 with
      | None => ret routed.2
      | Some instanceId => ret (addRows (List.map (build instanceId) items) routed.2)
      end
  end.

Definition onChange (receivedAt : Z) (entry : Entry) (st : Ingest) (change : Change) : Hook Ingest :=
  let name := ch_field change in
  if str_eqb name ACCOUNT_UPDATE_FIELD then
    let! rows := partnerRemovals entry (ch_value change) receivedAt in ret (addRows rows st)
  else if negb (str_eqb name MESSAGES_FIELD) && negb (str_eqb name OWNER_ECHOES_FIELD) then ret st
  else match WebhookChangeValueSchema (ch_value change) with
       | None => record (Lg_changeRejected (en_id entry));;; ret (addRejected 1 st)
       | Some value =>
           if str_eqb name OWNER_ECHOES_FIELD then
             intake OwnerEchoSchema (cg_echoes value) (fun instanceId echo => toEchoRow instanceId echo receivedAt)
               entry (cg_phoneNumberId value) st
           else
             let names := contactNames (cg_contacts value) in
             intake InboundMessageSchema (cg_messages value)
               (fun instanceId message => toRow instanceId message (names !! im_from message) receivedAt)
               entry (cg_phoneNumberId value) st
       end.

Definition onWebhookEntry (receivedAt : Z) (st : Ingest) (entry : Entry) : Hook Ingest :=
  foldM (onChange receivedAt entry) st (en_changes entry).

Definition readWebhook (req : InboxRequest) : IngressError + list Entry :=
  if negb (signatureMatches req) then inl Ig_invalid_signature
  else match tx_parse text (wq_rawBody req) with
       | None => inl Ig_invalid_payload
       | Some json =>
           match WebhookEnvelopeSchema (stripNul json) with None => inl Ig_invalid_payload | Some entries => inr entries end
       end.

(** [handle]; the transaction of [enqueue] runs at [receivedAt]. *)
Definition handleInbox (req : InboxRequest) : Hook IngressOutcome :=
  let! entries := lift (readWebhook req) in
  let! receivedAt := now in
  let! st := foldM (onWebhookEntry receivedAt) emptyIngest entries in
  let! r := exec (enqueue receivedAt (ig_rows st)) in
  ret (mkIngressOutcome (ta_received (ig_tally st)) r.1 (ta_unknownNumbers (ig_tally st)) (ta_rejected (ig_tally st))).
End Ingress.

(** ** config.ts *)
Record WhatsappCloudConfig := mkWhatsappCloudConfig {
  wf_appId : string;
  wf_appSecret : string;
  wf_webhookVerifyToken : string;
  wf_embeddedSignupConfigId : string;
  wf_graphApiVersion : string;
}.
Definition DEFAULT_GRAPH_API_VERSION : string := "v24.0".

Section Config.
Context (env : string -> option string).

Definition trimmed (name : string) : option string := truthy (option_map trim (env name)).

Definition readWhatsappCloudConfig : option WhatsappCloudConfig :=
  match trimmed "NEXT_PUBLIC_META_APP_ID", trimmed "META_APP_SECRET", trimmed "META_WEBHOOK_VERIFY_TOKEN",
        trimmed "NEXT_PUBLIC_META_EMBEDDED_SIGNUP_CONFIG_ID" with
  | Some appId, Some appSecret, Some verifyToken, Some configId =>
      Some (mkWhatsappCloudConfig appId appSecret verifyToken configId
              (default DEFAULT_GRAPH_API_VERSION (trimmed "META_GRAPH_API_VERSION")))
  | _, _, _, _ => None
  end.

Definition previewUserIds : list string :=
  List.filter (fun id => negb (str_eqb id "")) (List.map trim (splitOn "," (default "" (env "WHATSAPP_CLOUD_PREVIEW_USER_IDS")))).

Definition isWhatsappCloudEnabledFor (userId : string) : bool :=
  match readWhatsappCloudConfig with
  | None => false
  | Some _ =>
      ostr_eqb (option_map trim (env "WHATSAPP_CLOUD_ENABLED")) (Some "true") || List.existsb (str_eqb userId) previewUserIds
  end.
End Config.

(** ** signup-message.ts *)
Definition SIGNUP_TYPE : string := "WA_EMBEDDED_SIGNUP".
Definition COEXISTENCE_FINISH_EVENT : string := "FINISH_WHATSAPP_BUSINESS_APP_ONBOARDING".

Record SignupIds := mkSignupIds {
  sg_coexistence : bool; sg_wabaId : string; sg_phoneNumberId : option string; sg_businessId : option string }.
Inductive SignupEvent := Sg_finish (ids : SignupIds) | Sg_cancel | Sg_no_number.

Definition metaId (value : option Json) : option string :=
  match value with Some (JStr s) => if matchesPhoneNumberId s then Some s else None | _ => None end.

Definition readSignup (payload : Json) : option SignupEvent :=
  match payload with
  | JObj fields =>
      match lookupField "type" fields, lookupField "event" fields with
      | Some (JStr type), Some (JStr event) =>
          if negb (str_eqb type SIGNUP_TYPE) then None
          else if str_eqb event "CANCEL" then Some Sg_cancel
          else if str_eqb event "FINISH_ONLY_WABA" then Some Sg_no_number
          else
            let data := match lookupField "data" fields with Some (JObj data) => data | _ => [] end in
            let phoneNumberId := metaId (lookupField "phone_number_id" data) in
            let businessId := metaId (lookupField "business_id" data) in
            match metaId (lookupField "waba_id" data) with
            | None => None
            | Some wabaId =>
                if str_eqb event "FINISH" then
                  match phoneNumberId, businessId with
                  | Some _, Some _ => Some (Sg_finish (mkSignupIds false wabaId phoneNumberId businessId))
                  | _, _ => None
                  end
                else if str_eqb event COEXISTENCE_FINISH_EVENT then
                  Some (Sg_finish (mkSignupIds true wabaId phoneNumberId businessId))
                else None
            end
      | _, _ => None
      end
  | _ => None
  end.
Definition parseSignupMessage (text : Text) (raw : string) : option SignupEvent :=
  match tx_parse text raw with Some payload => readSignup payload | None => None end.

(** ** The connect request: WhatsappBusinessConnectFlow.tsx, schemas.ts *)
Definition isPin : string -> bool := digitsBetween 6 6.
Definition optionalKey (key : string) (value : option string) : list (string * Json) :=
  match truthy value with Some v => [(key, JStr v)] | None => [] end.

(** The body the popup's page posts; [pin] is what its field holds. *)
Definition connectRequest (code : string) (signup : SignupIds) (pin : string) : Json :=
  JObj ([("code", JStr code); ("wabaId", JStr (sg_wabaId signup))]
        ++ optionalKey "phoneNumberId" (sg_phoneNumberId signup) ++ optionalKey "businessId" (sg_businessId signup)
        ++ (if sg_coexistence signup then [("coexistence", JBool true)] else if isPin pin then [("pin", JStr pin)] else [])).

(** [z.object({...}).strict()]. *)
Definition strictKeys (keys : list string) (j : Json) : bool :=
  match j with JObj fields => List.forallb (fun p => List.existsb (str_eqb p.1) keys) fields | _ => false end.

Record WebConnectBody := mkConnectBody {
  cb_code : string;
  cb_phoneNumberId : option string;
  cb_wabaId : string;
  cb_businessId : option string;
  cb_pin : option string;
  cb_coexistence : option bool;
}.
Definition connectRefined (b : WebConnectBody) : bool :=
  let coexistence := match cb_coexistence b with Some true => true | _ => false end in
  (coexistence || (match cb_phoneNumberId b, cb_businessId b with Some _, Some _ => true | _, _ => false end))
  && (negb coexistence || match cb_pin b with None => true | Some _ => false end).

Definition WhatsappCloudConnectBodySchema : Schema WebConnectBody := fun j =>
  if negb (strictKeys ["code"; "phoneNumberId"; "wabaId"; "businessId"; "pin"; "coexistence"] j) then None
  else
    match field "code" (zSized 1 2048) j, undefinedField "phoneNumberId" MetaId j, field "wabaId" MetaId j,
          undefinedField "businessId" MetaId j, undefinedField "pin" (zMatching isPin) j, undefinedField "coexistence" zTrue j with
    | Some code, Some phoneNumberId, Some wabaId, Some businessId, Some pin, Some coexistence =>
        let body := mkConnectBody code phoneNumberId wabaId businessId pin coexistence in
        if connectRefined body then Some body else None
    | _, _, _, _, _, _ => None
    end.

(** ** meta-oauth.ts *)
Definition META_MAX_ATTEMPTS : nat := 2.
Record MetaOAuthError := mkMetaOAuthError { mo_status : Z; mo_code : option Q; mo_message : string }.

(** One GET: it throws, or it answers. *)
Inductive FetchAnswer := Fa_failed (message : string) | Fa_answer (status : Z) (body : string).

Definition TokenResponse : Schema string := field "access_token" zNonEmpty.

Section OAuth.
Context (text : Text) (appSecret : string).

Definition safeJson (body : string) : Json := default JNull (tx_parse text body).
Definition errorCodeOf (body : string) : option Q := field "error" (field "code" zAnyNumber) (safeJson body).
Definition redactSecret (s : string) : string := replaceAll appSecret "[redacted]" s.
Definition okStatus (status : Z) : bool := (200 <=? status) && (status <=? 299).
Definition transientMeta (status : Z) : bool := negb (status <? 500) || (status =? 429).

(** The end of one attempt: the token, an error to throw, or one that allows another try. *)
Inductive AttemptEnd := At_token (token : string) | At_throw (e : MetaOAuthError) | At_retry (e : MetaOAuthError).
Definition attemptEnd (answer : FetchAnswer) : AttemptEnd :=
  match answer with
  | Fa_failed message => At_retry (mkMetaOAuthError 0 None (redactSecret message))
  | Fa_answer status body =>
      if okStatus status then
        match TokenResponse (safeJson body) with
        | Some token => At_token token
        | None => At_throw (mkMetaOAuthError status None "unexpected token response")
        end
      else
        let e := mkMetaOAuthError status (errorCodeOf body) (redactSecret (substring 0 200 body)) in
        if transientMeta status then At_retry e else At_throw e
  end.

(** [left] attempts remain; the requests made are counted. *)
Fixpoint exchangeLoop (left : nat) (lastError : MetaOAuthError) (answers : list FetchAnswer) : (MetaOAuthError + string) * nat :=
  match left, answers with
  | S n, answer :: rest =>
      match attemptEnd answer with
      | At_token token => (inr token, 1%nat)
      | At_throw e => (inl e, 1%nat)
      | At_retry e => let '(r, requests) := exchangeLoop n e rest in (r, S requests)
      end
  | _, _ => (inl lastError, 0%nat)
  end.
(** [answers] are the answers the requests get, at least as many as the attempts. *)
Definition exchangeCode (answers : list FetchAnswer) : (MetaOAuthError + string) * nat :=
  exchangeLoop META_MAX_ATTEMPTS (mkMetaOAuthError 0 None "no attempt") answers.
End OAuth.

(** ** service.ts, connect/route.ts *)
Definition connectInput (accessToken : string) (b : WebConnectBody) : ConnectInput :=
  mkConnect accessToken (truthy (cb_phoneNumberId b)) (cb_wabaId b) (truthy (cb_businessId b)) (truthy (cb_pin b))
    (match cb_coexistence b with Some true => true | _ => false end).

(** An answer of the orchestrator: the view, or the code in the body of its error. *)
Inductive ConnectError := Ce_unavailable | Ce_oauth (e : MetaOAuthError) | Ce_orchestrator (code : option string).

Definition webConnect (text : Text) (config : option WhatsappCloudConfig) (enabled : bool) (answers : list FetchAnswer)
    (port : ConnectInput -> option string + WhatsappCloudView) (body : WebConnectBody) : ConnectError + WhatsappCloudView :=
  match config with
  | None => inl Ce_unavailable
  | Some c =>
      if negb enabled then inl Ce_unavailable
      else match (exchangeCode text (wf_appSecret c) answers).1 with
           | inl e => inl (Ce_oauth e)
           | inr accessToken =>
               match port (connectInput accessToken body) with inl code => inl (Ce_orchestrator code) | inr view => inr view end
           end
  end.

Definition isMetaOutage (e : MetaOAuthError) : bool :=
  (mo_status e =? 0) || (mo_status e <? 400) || (500 <=? mo_status e).

(** The route's answer to an error; [None] is one it throws on. *)
Definition connectErrorReply (e : ConnectError) : option (string * Z) :=
  match e with
  | Ce_unavailable => Some ("feature_unavailable", 503)
  | Ce_oauth err => Some (if isMetaOutage err then ("meta_unavailable", 502) else ("signup_code_rejected", 409))
  | Ce_orchestrator code =>
      if ostr_eqb code (Some "CHANNEL_PIN_REQUIRED") then Some ("pin_required", 409)
      else if ostr_eqb code (Some "INVALID_STATE") then Some ("bot_not_ready", 409)
      else if ostr_eqb code (Some "NUMBER_MODE_MISMATCH") then Some ("number_mode_mismatch", 409)
      else None
  end.

(** ** app/api/webhooks/whatsapp-cloud/route.ts *)
Definition MAX_BODY_BYTES : Z := 1024 * 1024.
Inductive WebhookReply := Wh_notFound | Wh_tooLarge | Wh_rejected (e : IngressError) | Wh_ok (outcome : IngressOutcome).
Definition webhookStatus (r : WebhookReply) : Z :=
  match r with Wh_notFound => 404 | Wh_tooLarge => 413 | Wh_rejected e => ingressStatus e | Wh_ok _ => 200 end.

(** The POST, with a database that answers. *)
Definition webhookPost (text : Text) (config : option WhatsappCloudConfig) (contentLength : Z) (req : InboxRequest)
    : M CloudDb IngressLog IngressError WebhookReply :=
  match config with
  | None => ret Wh_notFound
  | Some c =>
      if (MAX_BODY_BYTES <? contentLength) || (MAX_BODY_BYTES <? Z.of_nat (String.length (wq_rawBody req))) then ret Wh_tooLarge
      else catch (let! outcome := handleInbox text (wf_appSecret c) req in ret (Wh_ok outcome)) (fun e => ret (Wh_rejected e))
  end.
