(* ===== verification/WebProps.v ===== *)
(** What the webhook and the connection of a number guarantee: the effect of a webhook by
    the tables alone, rows the orchestrator reads back, repeated requests without effect,
    no U+0000 in what is stored, and a popup's outcome that both schemas accept. *)
From Stdlib Require Import Ascii QArith.
From S2P Require Import Prelude JsString Substring Json Fleet Provider CloudInbox CloudTypes InboxDedupe CloudManager WebIngress.
From stdpp Require Import list strings gmap.
#[local] Open Scope Z_scope.

(** ** The webhook alone *)

(** What a webhook does by the tables as they are, without a memory of what it looked up. *)
Section Reference.
Context (text : Text) (d : CloudDb) (receivedAt : Z).

Definition plus (a b : Tally) : Tally :=
  mkTally (ta_received a + ta_received b) (ta_unknownNumbers a + ta_unknownNumbers b) (ta_rejected a + ta_rejected b).
Definition both (a b : list InboundRow * Tally) : list InboundRow * Tally := (a.1 ++ b.1, plus a.2 b.2).
Definition nothing : list InboundRow * Tally := ([], mkTally 0 0 0).

Definition intakeOf {T} (schema : Schema T) (raw : option (list Json)) (build : string -> T -> InboundRow) (phoneNumberId : string)
    : list InboundRow * Tally :=
  let items := omap schema (default [] raw) in
  let count := Z.of_nat (length items) in
  let rejected := Z.of_nat (length (default [] raw)) - count in
  match findInstanceIdByPhoneNumberId phoneNumberId d with
  | Some instanceId => (List.map (build instanceId) items, mkTally count 0 rejected)
  | None => ([], mkTally count count rejected)
  end.

Definition removalsOf (entry : Entry) (value : Json) : list InboundRow :=
  match AccountUpdateSchema value with
  | Some (mkAccountUpdate event (Some wabaId)) =>
      if str_eqb event PARTNER_REMOVED_EVENT
      then List.map (toRemovalRow (removalDigest text entry value) wabaId receivedAt) (findInstanceIdsByWabaId wabaId d) else []
  | _ => []
  end.

Definition changeOf (entry : Entry) (change : Change) : list InboundRow * Tally :=
  if str_eqb (ch_field change) ACCOUNT_UPDATE_FIELD then (removalsOf entry (ch_value change), mkTally 0 0 0)
  else if str_eqb (ch_field change) OWNER_ECHOES_FIELD then
    match WebhookChangeValueSchema (ch_value change) with
    | None => ([], mkTally 0 0 1)
    | Some v => intakeOf OwnerEchoSchema (cg_echoes v) (fun id echo => toEchoRow id echo receivedAt) (cg_phoneNumberId v)
    end
  else if str_eqb (ch_field change) MESSAGES_FIELD then
    match WebhookChangeValueSchema (ch_value change) with
    | None => ([], mkTally 0 0 1)
    | Some v => intakeOf InboundMessageSchema (cg_messages v)
                  (fun id message => toRow id message (contactNames (cg_contacts v) !! im_from message) receivedAt) (cg_phoneNumberId v)
    end
  else nothing.

Definition entryRows (entry : Entry) : list InboundRow * Tally :=
  List.fold_right both nothing (List.map (changeOf entry) (en_changes entry)).
Definition webhookOf (entries : list Entry) : list InboundRow * Tally :=
  List.fold_right both nothing (List.map entryRows entries).
End Reference.

Lemma tally_eq a b : ta_received a = ta_received b -> ta_unknownNumbers a = ta_unknownNumbers b -> ta_rejected a = ta_rejected b -> a = b.
Proof. destruct a, b; cbn; congruence. Qed.
Lemma plus_assoc a b c : plus (plus a b) c = plus a (plus b c).
Proof. apply tally_eq; cbn; lia. Qed.
Lemma plus_zero a : plus a (mkTally 0 0 0) = a.
Proof. apply tally_eq; cbn; lia. Qed.

(** The result of a program that runs alone and only reads. *)
Definition reads {A} (m : M CloudDb IngressLog IngressError A) (d : CloudDb) (Q : A -> Prop) : Prop :=
  forall t calls, exists a calls', m (mkWorld d [] t calls) = (inr a, mkWorld d [] t calls') /\ Q a.

Section Alone.
Context (text : Text) (appSecret : string) (d : CloudDb).

Lemma reads_ret {A} (a : A) (Q : A -> Prop) : Q a -> reads (ret a) d Q.
Proof. intros H t calls. exists a, calls. split; [reflexivity | exact H]. Qed.
Lemma reads_query {A} (q : CloudDb -> A) (Q : A -> Prop) : Q (q d) -> reads (query q) d Q.
Proof. intros H t calls. exists (q d), calls. split; [reflexivity | exact H]. Qed.
Lemma reads_record c : reads (record c) d (fun _ => True).
Proof. intros t calls. eexists _, _. split; [reflexivity | exact I]. Qed.
Lemma reads_bind {A B} (m : M CloudDb IngressLog IngressError A) (k : A -> M CloudDb IngressLog IngressError B) P Q :
  reads m d P -> (forall a, P a -> reads (k a) d Q) -> reads (bind m k) d Q.
Proof.
  intros Hm Hk t calls. destruct (Hm t calls) as (a & calls1 & E & Ha). destruct (Hk a Ha t calls1) as (b & calls2 & E2 & Hb).
  exists b, calls2. unfold bind. rewrite E. split; [exact E2 | exact Hb].
Qed.
Lemma reads_weaken {A} (m : M CloudDb IngressLog IngressError A) (P Q : A -> Prop) : reads m d P -> (forall a, P a -> Q a) -> reads m d Q.
Proof. intros H HPQ t calls. destruct (H t calls) as (a & c & E & Ha). exists a, c. auto. Qed.

(** The memory of the lookups agrees with the tables. *)
Definition remembers (st : Ingest) : Prop :=
  forall p i, ig_instanceByNumber st !! p = Some i -> i = findInstanceIdByPhoneNumberId p d.
(** [st'] is [st] with these rows and counts. *)
Definition gained (st : Ingest) (g : list InboundRow * Tally) (st' : Ingest) : Prop :=
  ig_rows st' = ig_rows st ++ g.1 /\ ig_tally st' = plus (ig_tally st) g.2 /\ remembers st'.

Lemma route_reads p count st : remembers st ->
  reads (route p count st) d (fun r => r.1 = findInstanceIdByPhoneNumberId p d /\ ig_rows r.2 = ig_rows st /\ remembers r.2 /\
    ig_tally r.2 = plus (ig_tally st) (mkTally 0 (match r.1 with None => count | Some _ => 0 end) 0)).
Proof.
  intros Hr. unfold route.
  apply (reads_bind _ _ (fun r => r.1 = findInstanceIdByPhoneNumberId p d /\ ig_rows r.2 = ig_rows st /\ ig_tally r.2 = ig_tally st /\ remembers r.2)).
  - destruct (ig_instanceByNumber st !! p) as [i|] eqn:E; [apply reads_ret; rewrite (Hr _ _ E); auto|].
    eapply reads_bind; [apply (reads_query _ (fun i => i = findInstanceIdByPhoneNumberId p d)); reflexivity|].
    intros i ->. apply reads_ret. repeat split. intros q j. cbn. rewrite lookup_insert_Some. intros [[<- <-] | [_ H]]; [reflexivity | exact (Hr _ _ H)].
  - intros [o st1] (E1 & E2 & E3 & E4). cbn in *. destruct o as [i|]; [apply reads_ret | eapply reads_bind; [apply reads_record | intros _ _; apply reads_ret]];
      cbn; repeat split; try assumption; rewrite <- E3; [rewrite plus_zero; reflexivity | apply tally_eq; cbn; lia].
Qed.

Lemma accepted_reads {T} (raw : option (list Json)) (schema : Schema T) entryId st :
  reads (accepted raw schema entryId st) d (fun r => r.1 = omap schema (default [] raw) /\
    r.2 = addRejected (Z.of_nat (length (default [] raw)) - Z.of_nat (length r.1)) st).
Proof.
  assert (H : forall l, reads (acceptedOf schema entryId l) d (fun out => out = omap schema l)).
  { induction l as [|x l IH]; cbn [acceptedOf]; [apply reads_ret; reflexivity|]. cbn. destruct (schema x) as [a|].
    - eapply reads_bind; [exact IH|]. intros out ->. apply reads_ret. reflexivity.
    - eapply reads_bind; [apply reads_record | intros _ _; exact IH]. }
  unfold accepted. eapply reads_bind; [apply H|]. intros out ->. apply reads_ret. cbn. split; [reflexivity|].
  f_equal. assert (length (omap schema (default [] raw)) <= length (default [] raw))%nat; [|lia].
  generalize (default [] raw). intros l. induction l as [|x l IH]; cbn; [lia|]. destruct (schema x); cbn; lia.
Qed.

Lemma intake_reads {T} (schema : Schema T) raw build entry p st : remembers st ->
  reads (intake schema raw build entry p st) d (gained st (intakeOf d schema raw build p)).
Proof.
  intros Hr. unfold intake, gained, intakeOf. eapply reads_bind; [apply accepted_reads|]. intros [items st1] [E1 E2]. cbn in E1, E2.
  rewrite <- E1. subst st1. destruct items as [|x l].
  - apply reads_ret. cbn. rewrite Z.sub_0_r. destruct (findInstanceIdByPhoneNumberId p d); cbn;
      (split; [rewrite app_nil_r; reflexivity|]; split; [apply tally_eq; cbn; lia | exact Hr]).
  - eapply reads_bind; [apply route_reads; exact Hr|]. intros [o st2] (F1 & F2 & F3 & F4). cbn [fst snd] in *. rewrite <- F1.
    destruct o as [i|]; apply reads_ret; cbn [addRows ig_rows ig_tally fst snd]; rewrite F2, F4; cbn;
      (split; [rewrite ?app_nil_r; reflexivity|]; split; [apply tally_eq; cbn; lia | exact F3]).
Qed.

Lemma removals_reads entry value receivedAt :
  reads (partnerRemovals text entry value receivedAt) d (fun rows => rows = removalsOf text d receivedAt entry value).
Proof.
  unfold partnerRemovals, removalsOf. destruct (AccountUpdateSchema value) as [[event wabaId]|]; [|apply reads_ret; reflexivity]. cbn.
  destruct (str_eqb event PARTNER_REMOVED_EVENT); cbn [negb]; [|apply reads_ret; destruct wabaId; reflexivity].
  eapply reads_bind; [apply reads_record|]. intros _ _. destruct wabaId as [w|]; [|apply reads_ret; reflexivity].
  eapply reads_bind; [apply (reads_query _ (fun l => l = findInstanceIdsByWabaId w d)); reflexivity|].
  intros l ->. apply reads_ret. reflexivity.
Qed.

Lemma change_reads receivedAt entry st change : remembers st ->
  reads (onChange text receivedAt entry st change) d (gained st (changeOf text d receivedAt entry change)).
Proof.
  intros Hr. unfold onChange, changeOf. destruct (str_eqb (ch_field change) ACCOUNT_UPDATE_FIELD).
  { eapply reads_bind; [apply removals_reads|]. intros rows ->. apply reads_ret.
    split; [reflexivity|]. split; [cbn; rewrite plus_zero; reflexivity | exact Hr]. }
  destruct (str_eqb (ch_field change) OWNER_ECHOES_FIELD); [|destruct (str_eqb (ch_field change) MESSAGES_FIELD)];
    cbn [negb andb]; rewrite ?andb_false_r; cbv iota.
  3: { apply reads_ret. split; [cbn; rewrite app_nil_r; reflexivity|]. split; [cbn; rewrite plus_zero; reflexivity | exact Hr]. }
  all: destruct (WebhookChangeValueSchema (ch_value change)); [apply intake_reads; exact Hr|].
  all: eapply reads_bind; [apply reads_record|]; intros _ _; apply reads_ret.
  all: split; [cbn; rewrite app_nil_r; reflexivity|]; split; [apply tally_eq; cbn; lia | exact Hr].
Qed.

Lemma gained_app st a b st1 st2 : gained st a st1 -> gained st1 b st2 -> gained st (both a b) st2.
Proof.
  intros (E1 & E2 & _) (F1 & F2 & F3). split; [|split; [|exact F3]]; cbn.
  - rewrite F1, E1, app_assoc. reflexivity.
  - rewrite F2, E2, plus_assoc. reflexivity.
Qed.

Lemma fold_reads {A} (f : Ingest -> A -> M CloudDb IngressLog IngressError Ingest) (g : A -> list InboundRow * Tally) :
  (forall st a, remembers st -> reads (f st a) d (gained st (g a))) ->
  forall l st, remembers st -> reads (foldM f st l) d (gained st (List.fold_right both nothing (List.map g l))).
Proof.
  intros Hf. induction l as [|a l IH]; intros st Hr; cbn [foldM List.map List.fold_right].
  - apply reads_ret. split; [cbn; rewrite app_nil_r; reflexivity|]. split; [cbn; rewrite plus_zero; reflexivity | exact Hr].
  - eapply reads_bind; [apply Hf; exact Hr|]. intros st1 H1. eapply reads_weaken; [apply IH; apply H1|].
    intros st2 H2. exact (gained_app _ _ _ _ _ H1 H2).
Qed.

Lemma webhook_run t calls req :
  match readWebhook text appSecret req with
  | inl e => handleInbox text appSecret req (mkWorld d [] t calls) = (inl e, mkWorld d [] t calls)
  | inr entries =>
      let '(rows, tally) := webhookOf text d t entries in
      exists calls', handleInbox text appSecret req (mkWorld d [] t calls) =
        (inr (mkIngressOutcome (ta_received tally) (enqueue t rows d).1.1 (ta_unknownNumbers tally) (ta_rejected tally)),
         mkWorld (enqueue t rows d).2 [] t calls')
  end.
Proof.
  unfold handleInbox. destruct (readWebhook text appSecret req) as [e|entries]; [reflexivity|].
  assert (H : reads (foldM (onWebhookEntry text t) emptyIngest entries) d (gained emptyIngest (webhookOf text d t entries))).
  { apply fold_reads; [|intros p i H; cbn in H; rewrite lookup_empty in H; discriminate].
    intros st entry Hr. apply fold_reads; [intros; apply change_reads; assumption | exact Hr]. }
  destruct (webhookOf text d t entries) as [rows tally]. destruct (H t calls) as (st & calls' & E & E1 & E2 & _). cbn in E1, E2.
  exists calls'. unfold bind, lift, now. cbn [w_now]. rewrite E. unfold exec, atomic. cbn. rewrite E1, E2.
  destruct (enqueue t rows d) as [[n woken] d']. reflexivity.
Qed.

(** C8: A webhook whose signature or shape is refused changes nothing; any other has exactly
    the effect of the tables as they are: each message and each owner's answer goes to the
    bot that has its number, each removal to every live bot of the account, all in one
    transaction, and the four counts are right.  The memory of the numbers looked up is
    never seen. *)
Theorem webhook_routes t calls req :
  match readWebhook text appSecret req with
  | inl e => handleInbox text appSecret req (mkWorld d [] t calls) = (inl e, mkWorld d [] t calls)
  | inr entries =>
      let '(rows, tally) := webhookOf text d t entries in
      exists calls', handleInbox text appSecret req (mkWorld d [] t calls) =
        (inr (mkIngressOutcome (ta_received tally) (enqueue t rows d).1.1 (ta_unknownNumbers tally) (ta_rejected tally)),
         mkWorld (enqueue t rows d).2 [] t calls')
  end.
Proof. apply webhook_run. Qed.
End Alone.

(** ** What the rows hold *)
Section Rows.
Context (text : Text) (d : CloudDb) (receivedAt : Z).

Lemma in_both a b row : In row (both a b).1 <-> In row a.1 \/ In row b.1.
Proof. apply in_app_iff. Qed.

Lemma in_webhook entries row : In row (webhookOf text d receivedAt entries).1 <->
  exists entry change, In entry entries /\ In change (en_changes entry) /\ In row (changeOf text d receivedAt entry change).1.
Proof.
  assert (H : forall {A} (g : A -> list InboundRow * Tally) l,
    In row (List.fold_right both nothing (List.map g l)).1 <-> exists a, In a l /\ In row (g a).1).
  { intros A g l. induction l as [|a l IH]; cbn [List.map List.fold_right]; [split; [intros [] | intros (a & [] & _)]|].
    rewrite in_both, IH. split.
    - intros [H | (b & Hb & H)]; [exists a | exists b]; split; cbn; auto.
    - intros (b & [<- | Hb] & H); eauto. }
  unfold webhookOf. rewrite H. unfold entryRows. split.
  - intros (entry & He & Hr). apply H in Hr as (change & Hc & Hr). eauto.
  - intros (entry & change & He & Hc & Hr). exists entry. split; [exact He|]. apply H. eauto.
Qed.

Lemma in_intake {T} (schema : Schema T) raw build p row : In row (intakeOf d schema raw build p).1 ->
  exists item a instanceId, In item (default [] raw) /\ schema item = Some a /\
    findInstanceIdByPhoneNumberId p d = Some instanceId /\ row = build instanceId a.
Proof.
  unfold intakeOf. destruct (findInstanceIdByPhoneNumberId p d) as [i|]; cbn [fst]; [|intros []].
  intros H. apply in_map_iff in H as (a & <- & Ha). apply list_elem_of_In, list_elem_of_omap in Ha as (item & Hi & E).
  exists item, a, i. repeat split; [apply list_elem_of_In, Hi | exact E].
Qed.

(** Where a row comes from: a message, an owner's answer or a removal of one change. *)
Inductive FromChange (entry : Entry) (change : Change) : InboundRow -> Prop :=
| from_message v item m instanceId :
    WebhookChangeValueSchema (ch_value change) = Some v -> In item (default [] (cg_messages v)) ->
    InboundMessageSchema item = Some m -> findInstanceIdByPhoneNumberId (cg_phoneNumberId v) d = Some instanceId ->
    FromChange entry change (toRow instanceId m (contactNames (cg_contacts v) !! im_from m) receivedAt)
| from_echo v item m instanceId :
    WebhookChangeValueSchema (ch_value change) = Some v -> In item (default [] (cg_echoes v)) ->
    OwnerEchoSchema item = Some m -> findInstanceIdByPhoneNumberId (cg_phoneNumberId v) d = Some instanceId ->
    FromChange entry change (toEchoRow instanceId m receivedAt)
| from_removal wabaId instanceId :
    AccountUpdateSchema (ch_value change) = Some (mkAccountUpdate PARTNER_REMOVED_EVENT (Some wabaId)) ->
    In instanceId (findInstanceIdsByWabaId wabaId d) ->
    FromChange entry change (toRemovalRow (removalDigest text entry (ch_value change)) wabaId receivedAt instanceId).

Lemma change_rows entry change row : In row (changeOf text d receivedAt entry change).1 -> FromChange entry change row.
Proof.
  unfold changeOf. destruct (str_eqb (ch_field change) ACCOUNT_UPDATE_FIELD); cbn [fst].
  { unfold removalsOf. destruct (AccountUpdateSchema (ch_value change)) as [[event [wabaId|]]|] eqn:E; try (intros []).
    destruct (str_eqb event PARTNER_REMOVED_EVENT) eqn:Ee; [|intros []]. apply str_eqb_eq in Ee. subst event.
    intros H. apply in_map_iff in H as (i & <- & Hi). apply from_removal; assumption. }
  destruct (str_eqb (ch_field change) OWNER_ECHOES_FIELD); [|destruct (str_eqb (ch_field change) MESSAGES_FIELD); [|intros []]].
  all: destruct (WebhookChangeValueSchema (ch_value change)) as [v|] eqn:E; [|intros []]; intros H;
    apply in_intake in H as (item & a & i & Hi & Ha & Hf & ->).
  - eapply from_echo; eassumption.
  - eapply from_message; eassumption.
Qed.

Lemma webhook_rows entries row : In row (webhookOf text d receivedAt entries).1 ->
  exists entry change, In entry entries /\ In change (en_changes entry) /\ FromChange entry change row.
Proof. intros H. apply in_webhook in H as (entry & change & He & Hc & Hr). exists entry, change. auto using change_rows. Qed.
End Rows.

Lemma field_refined {p : string -> bool} {key j s} : field key (zMatching p) j = Some s -> p s = true.
Proof.
  unfold field, zMatching, refine, zString. destruct j as [| | | | |fields]; try discriminate.
  destruct (lookupField key fields) as [[| | |v| |]|]; try discriminate. destruct (p v) eqn:E; [|discriminate]. intros [= <-]. exact E.
Qed.

(** The row of the inbox that [enqueue] makes of [row]. *)
Definition storedRow (id now : Z) (row : InboundRow) : InboxRow :=
  mkInboxRow id (iw_wamid row) (iw_instanceId row) (iw_waTimestamp row) (Some (JObj (iw_payload row))) now 0 None None None.

(** What the dispatcher should read back. *)
Definition meant (id : Z) (row : InboundRow) (item : InboxItem) : Prop :=
  match item with
  | It_message i wamid from profileName timestamp _ =>
      iw_kind row = In_message /\ i = id /\ wamid = iw_wamid row /\ iw_waId row = Some from /\ profileName = iw_profileName row /\
      timestamp = iw_waTimestamp row
  | It_owner_echo i wamid to timestamp =>
      iw_kind row = In_owner_echo /\ i = id /\ wamid = iw_wamid row /\ iw_waId row = Some to /\ timestamp = iw_waTimestamp row
  | It_partner_removed i wamid wabaId timestamp =>
      iw_kind row = In_partner_removed /\ i = id /\ wamid = iw_wamid row /\ In ("wabaId", JStr wabaId) (iw_payload row) /\
      timestamp = iw_waTimestamp row
  end.

(** C10: The two ends of the inbox agree: every row a webhook stores is read back by the
    orchestrator as the item it was, a message with its sender, name and time, an owner's
    answer, or a removal; none is ever dropped as malformed. *)
Theorem stored_rows_readable text d receivedAt entries row id now :
  In row (webhookOf text d receivedAt entries).1 ->
  exists item, toInboxItem (storedRow id now row) = Some item /\ meant id row item.
Proof.
  intros H. apply webhook_rows in H as (entry & change & _ & _ & H). destruct H as [v item m i _ _ Hm _ | v item m i _ _ Hm _ | w i Hu _].
  - eexists. split; [reflexivity|]. cbn. repeat split. destruct (contactNames _ !! im_from m); reflexivity.
  - assert (Ht : matchesWaId (oe_to m) = true).
    { unfold OwnerEchoSchema in Hm. destruct (field "id" _ item); [|discriminate]. destruct (field "to" WaId item) as [to|] eqn:E; [|discriminate].
      destruct (field "timestamp" _ item); [|discriminate]. injection Hm as <-. exact (field_refined E). }
    exists (It_owner_echo id (oe_id m) (oe_to m) (secondsToMs (oe_timestamp m))). split; [|repeat split].
    unfold toInboxItem, storedRow, toEchoRow. cbn [ib_payload iw_payload].
    change (jsonField "to" _) with (Some (JStr (oe_to m))). cbv iota. rewrite Ht. reflexivity.
  - assert (Hw : matchesPhoneNumberId w = true).
    { unfold AccountUpdateSchema in Hu. destruct (field "event" _ _); [|discriminate].
      destruct (undefinedField "waba_info" _ _) as [o|] eqn:E; [|discriminate]. injection Hu as _ ->.
      unfold undefinedField in E. destruct (ch_value change) as [| | | | |fields]; try discriminate.
      destruct (lookupField "waba_info" fields) as [j|]; [|discriminate].
      destruct (field "waba_id" MetaId j) as [x|] eqn:Ej; [|discriminate]. injection E as ->. exact (field_refined Ej). }
    exists (It_partner_removed id (iw_wamid (toRemovalRow (removalDigest text entry (ch_value change)) w receivedAt i)) w receivedAt).
    split; [|repeat split; cbn; auto].
    unfold toInboxItem, storedRow, toRemovalRow. cbn [ib_payload iw_payload].
    change (jsonField "wabaId" _) with (Some (JStr w)). cbv iota. rewrite Hw. reflexivity.
Qed.

(** ** A webhook delivered again *)

(** The tables route every number and account as they did. *)
Definition sameRoutes (d d' : CloudDb) : Prop :=
  (forall p, findInstanceIdByPhoneNumberId p d' = findInstanceIdByPhoneNumberId p d) /\
  (forall w, findInstanceIdsByWabaId w d' = findInstanceIdsByWabaId w d).

Section Again.
Context (text : Text).

(** The same messages and counts, received at another instant. *)
Definition alikeRows (a b : list InboundRow * Tally) : Prop :=
  List.map iw_wamid a.1 = List.map iw_wamid b.1 /\ a.2 = b.2.

Lemma alike_fold {A} (g g' : A -> list InboundRow * Tally) l : (forall a, alikeRows (g a) (g' a)) ->
  alikeRows (List.fold_right both nothing (List.map g l)) (List.fold_right both nothing (List.map g' l)).
Proof.
  intros H. induction l as [|a l [IH1 IH2]]; [split; reflexivity|]. destruct (H a) as [E1 E2].
  split; cbn; [rewrite !List.map_app, E1, IH1 | rewrite E2, IH2]; reflexivity.
Qed.

Lemma alike_webhook d d' t t' entries : sameRoutes d d' -> alikeRows (webhookOf text d t entries) (webhookOf text d' t' entries).
Proof.
  intros [Hp Hw]. apply alike_fold. intros entry. apply alike_fold. intros change. unfold changeOf.
  destruct (str_eqb (ch_field change) ACCOUNT_UPDATE_FIELD).
  { split; [|reflexivity]. unfold removalsOf. cbn [fst]. destruct (AccountUpdateSchema _) as [[e [w|]]|]; try reflexivity.
    destruct (str_eqb e _); [|reflexivity]. rewrite Hw, !List.map_map. reflexivity. }
  destruct (str_eqb (ch_field change) OWNER_ECHOES_FIELD); [|destruct (str_eqb (ch_field change) MESSAGES_FIELD); [|split; reflexivity]].
  all: destruct (WebhookChangeValueSchema (ch_value change)); [|split; reflexivity].
  all: unfold intakeOf; rewrite Hp; destruct (findInstanceIdByPhoneNumberId _ d); (split; [cbn; rewrite ?List.map_map|]; reflexivity).
Qed.

(** C9: Meta may post a webhook again for as long as it retries: if its messages were new
    the first time and its numbers are still with the same bots, the second request queues
    nothing, wakes nobody and leaves every table as it is, whatever was delivered, answered
    or swept in between, and it answers the same counts with none enqueued. *)
Theorem webhook_again appSecret req entries d t0 t1 d1 calls :
  readWebhook text appSecret req = inr entries ->
  Forall (fun row => ~ In (iw_wamid row) (List.map ib_wamid (cd_inbox d))) (webhookOf text d t0 entries).1 ->
  LaterRun t0 (enqueue t0 (webhookOf text d t0 entries).1 d).2 t1 d1 -> t1 <= t0 + INBOX_RETAIN_ACKED_MS -> sameRoutes d d1 ->
  exists calls', handleInbox text appSecret req (mkWorld d1 [] t1 calls) =
    (inr (mkIngressOutcome (ta_received (webhookOf text d t0 entries).2) 0 (ta_unknownNumbers (webhookOf text d t0 entries).2)
            (ta_rejected (webhookOf text d t0 entries).2)),
     mkWorld (bumped (length (webhookOf text d t0 entries).1) d1) [] t1 calls').
Proof.
  intros Hread Hnew Hrun Hb Hs. pose proof (webhook_run text appSecret d1 t1 calls req) as H. rewrite Hread in H.
  destruct (alike_webhook d d1 t0 t1 entries Hs) as [Ew Et]. destruct (webhookOf text d1 t1 entries) as [rows' tally'].
  cbn [fst snd] in Ew, Et. destruct H as [calls' H]. exists calls'. rewrite H, Et.
  rewrite (redelivered t0 _ d t1 d1 rows' Hnew Hrun Hb); [|rewrite Ew; apply incl_refl].
  cbn [fst snd]. replace (length rows') with (length (webhookOf text d t0 entries).1); [reflexivity|].
  rewrite <- (List.length_map iw_wamid rows'), <- Ew, List.length_map. reflexivity.
Qed.
End Again.

(** ** No U+0000 *)
Fixpoint cleanValues (j : Json) : bool :=
  match j with
  | JStr s => allChars (fun c => negb (Ascii.eqb c zero)) s
  | JArr l => List.forallb cleanValues l
  | JObj fields => List.forallb (fun p => cleanValues p.2) fields
  | JNull | JBool _ | JNum _ => true
  end.
Definition cleanString (s : string) : bool := cleanValues (JStr s).

Lemma removeAll_clean c s : allChars (fun x => negb (Ascii.eqb x c)) (removeAll c s) = true.
Proof. induction s as [|x s IH]; [reflexivity|]. cbn. destruct (Ascii.eqb x c) eqn:E; [exact IH|]. cbn. rewrite E. exact IH. Qed.

Fixpoint stripNul_clean (j : Json) : cleanValues (stripNul j) = true.
Proof.
  destruct j as [| | |s|l|fields]; cbn; try reflexivity.
  - apply removeAll_clean.
  - induction l as [|x l IH]; cbn; [reflexivity|]. rewrite stripNul_clean. exact IH.
  - induction fields as [|[k x] l IH]; cbn; [reflexivity|]. rewrite stripNul_clean. exact IH.
Qed.

(** What a schema reads of a clean value is clean. *)
Lemma lookupField_clean key fields j : cleanValues (JObj fields) = true -> lookupField key fields = Some j -> cleanValues j = true.
Proof.
  cbn. intros H E. unfold lookupField in E. destruct (List.find _ fields) as [[k x]|] eqn:F; [|discriminate]. injection E as <-.
  apply find_some in F as [F _]. rewrite forallb_forall in H. exact (H _ F).
Qed.
Lemma field_clean {A} key (s : Schema A) j a (P : A -> Prop) : cleanValues j = true -> field key s j = Some a ->
  (forall x, cleanValues x = true -> s x = Some a -> P a) -> P a.
Proof.
  unfold field. destruct j as [| | | | |fields]; try discriminate. intros Hc. destruct (lookupField key fields) as [x|] eqn:E; [|discriminate].
  intros H HP. exact (HP x (lookupField_clean _ _ _ Hc E) H).
Qed.
Lemma undefinedField_clean {A} key (s : Schema A) j a (P : A -> Prop) : cleanValues j = true -> undefinedField key s j = Some (Some a) ->
  (forall x, cleanValues x = true -> s x = Some a -> P a) -> P a.
Proof.
  unfold undefinedField. destruct j as [| | | | |fields]; try discriminate. intros Hc. destruct (lookupField key fields) as [x|] eqn:E; [|discriminate].
  destruct (s x) as [y|] eqn:Es; [|discriminate]. intros [= ->] HP. exact (HP x (lookupField_clean _ _ _ Hc E) Es).
Qed.
Lemma zString_clean p x s : cleanValues x = true -> zMatching p x = Some s -> cleanString s = true.
Proof. unfold zMatching, refine, zString. destruct x; try discriminate. intros H. destruct (p s0); [|discriminate]. intros [= <-]. exact H. Qed.
Lemma text_clean {p key j s} : cleanValues j = true -> field key (zMatching p) j = Some s -> cleanString s = true.
Proof. intros Hc H. apply (field_clean key _ j s (fun s => cleanString s = true) Hc H). intros x Hx E. eapply zString_clean; eassumption. Qed.

Lemma mapOption_in {A B} (f : A -> option B) l : forall out b, mapOption f l = Some out -> In b out -> exists a, In a l /\ f a = Some b.
Proof.
  induction l as [|x l IH]; cbn; intros out b; [intros [= <-] []|]. destruct (f x) as [y|] eqn:E; [|discriminate].
  destruct (mapOption f l) as [ys|]; [|discriminate]. intros [= <-] [<- | H]; [exists x; auto|].
  destruct (IH _ _ eq_refl H) as (a & Ha & Hf). exists a. auto.
Qed.
Lemma array_clean {A} (s : Schema A) x l (P : A -> Prop) : cleanValues x = true -> zArray s x = Some l ->
  (forall y a, cleanValues y = true -> s y = Some a -> P a) -> forall a, In a l -> P a.
Proof.
  unfold zArray. destruct x as [| | | |items|]; try discriminate. cbn. intros Hc H HP a Ha.
  destruct (mapOption_in _ _ _ _ H Ha) as (y & Hy & E). rewrite forallb_forall in Hc. exact (HP y a (Hc y Hy) E).
Qed.

Lemma envelope_clean j entries entry change : cleanValues j = true -> WebhookEnvelopeSchema j = Some entries ->
  In entry entries -> In change (en_changes entry) -> cleanValues (ch_value change) = true.
Proof.
  unfold WebhookEnvelopeSchema. intros Hc H. destruct (field "object" _ j); [|discriminate].
  destruct (field "entry" _ j) as [l|] eqn:E; [|discriminate]. injection H as <-. revert entry change.
  apply (field_clean _ _ _ _ (fun l => forall entry change, In entry l -> In change (en_changes entry) -> cleanValues (ch_value change) = true) Hc E).
  clear Hc E. intros x Hx E entry change He. revert change.
  refine (array_clean _ x l (fun entry => forall change, In change (en_changes entry) -> cleanValues (ch_value change) = true) Hx E _ entry He).
  clear. intros y [id time changes] Hy E change. unfold zEntry in E. destruct (field "id" _ y); [|discriminate].
  destruct (undefinedField "time" _ y); [|discriminate]. destruct (field "changes" _ y) as [l|] eqn:El; [|discriminate].
  injection E as _ _ <-. cbn [en_changes]. revert change.
  apply (field_clean _ _ _ _ (fun l => forall change, In change l -> cleanValues (ch_value change) = true) Hy El).
  clear. intros x Hx E. refine (array_clean _ x l _ Hx E _). clear. intros y [name value] Hy E. unfold zChange in E.
  destruct (field "field" _ y); [|discriminate]. destruct (undefinedField "value" _ y) as [[v|]|] eqn:Ev; [| |discriminate];
    injection E as _ <-; [|reflexivity].
  apply (undefinedField_clean _ _ _ _ (fun v => cleanValues v = true) Hy Ev). intros x Hx [= <-]. exact Hx.
Qed.

Lemma items_clean key j l : cleanValues j = true -> undefinedField key (zArray zUnknown) j = Some l ->
  forall item, In item (default [] l) -> cleanValues item = true.
Proof.
  intros Hc E item. destruct l as [l|]; [|intros []]. cbn. revert item.
  apply (undefinedField_clean _ _ _ _ (fun l => forall item, In item l -> cleanValues item = true) Hc E).
  intros x Hx El. refine (array_clean _ x l _ Hx El _). intros y a Hy [= <-]. exact Hy.
Qed.

Lemma change_items_clean j v : cleanValues j = true -> WebhookChangeValueSchema j = Some v ->
  forall item, In item (default [] (cg_contacts v)) \/ In item (default [] (cg_messages v)) \/ In item (default [] (cg_echoes v)) ->
  cleanValues item = true.
Proof.
  unfold WebhookChangeValueSchema. intros Hc H. destruct (field "messaging_product" _ j); [|discriminate].
  destruct (field "metadata" _ j); [|discriminate]. destruct (undefinedField "contacts" _ j) eqn:E1; [|discriminate].
  destruct (undefinedField "messages" _ j) eqn:E2; [|discriminate]. destruct (undefinedField "message_echoes" _ j) eqn:E3; [|discriminate].
  injection H as <-. cbn [cg_contacts cg_messages cg_echoes].
  intros item [Hi | [Hi | Hi]]; [exact (items_clean _ _ _ Hc E1 _ Hi) | exact (items_clean _ _ _ Hc E2 _ Hi) | exact (items_clean _ _ _ Hc E3 _ Hi)].
Qed.

Lemma contact_clean raw contact name : cleanValues raw = true -> ContactSchema raw = Some contact -> co_name contact = Some name ->
  cleanString name = true.
Proof.
  unfold ContactSchema. intros Hc H Hn. destruct (field "wa_id" _ raw); [|discriminate].
  destruct (undefinedField "profile" _ raw) as [[[n|]|]|] eqn:E; try discriminate; injection H as <-; cbn in Hn; try discriminate.
  injection Hn as ->.
  apply (undefinedField_clean _ _ _ _ (fun o => match o with Some n => cleanString n = true | None => True end) Hc E).
  intros x Hx Ex. apply (undefinedField_clean _ _ _ _ (fun n => cleanString n = true) Hx Ex).
  intros y Hy. apply zString_clean. exact Hy.
Qed.

Lemma names_clean contacts key name : (forall item, In item (default [] contacts) -> cleanValues item = true) ->
  contactNames contacts !! key = Some name -> cleanString name = true.
Proof.
  unfold contactNames. intros Hc.
  assert (H : forall l m, (forall item, In item l -> cleanValues item = true) -> (forall k n, m !! k = Some n -> cleanString n = true) ->
    forall k n, fold_left noteContact l m !! k = Some n -> cleanString n = true).
  { induction l as [|x l IH]; cbn [fold_left]; intros m Hl Hm; [exact Hm|]. apply IH; [intros i Hi; apply Hl; right; exact Hi|].
    unfold noteContact. destruct (ContactSchema x) as [c|] eqn:Ex; [|exact Hm]. destruct (co_name c) as [n0|] eqn:En; [|exact Hm].
    destruct (truthy (Some n0)) as [n1|] eqn:Et; [|exact Hm]. intros k n. rewrite lookup_insert_Some. intros [[_ <-] | [_ Hk]]; [|exact (Hm _ _ Hk)].
    assert (n1 = n0) as -> by (unfold truthy in Et; destruct n0; congruence).
    exact (contact_clean _ _ _ (Hl x (or_introl eq_refl)) Ex En). }
  apply H; [exact Hc | intros k n E; rewrite lookup_empty in E; discriminate].
Qed.

Lemma message_clean item m : cleanValues item = true -> InboundMessageSchema item = Some m ->
  cleanString (im_id m) = true /\ cleanString (im_from m) = true /\ cleanValues (JObj (im_fields m)) = true.
Proof.
  unfold InboundMessageSchema. intros Hc H. destruct (field "id" _ item) eqn:E1; [|discriminate]. destruct (field "from" _ item) eqn:E2; [|discriminate].
  destruct (field "timestamp" _ item); [|discriminate]. destruct (field "type" _ item); [|discriminate]. injection H as <-. cbn [im_id im_from im_fields].
  split; [exact (text_clean Hc E1)|]. split; [exact (text_clean Hc E2)|]. destruct item; try reflexivity. exact Hc.
Qed.

Lemma echo_clean item m : cleanValues item = true -> OwnerEchoSchema item = Some m ->
  cleanString (oe_id m) = true /\ cleanString (oe_to m) = true.
Proof.
  unfold OwnerEchoSchema. intros Hc H. destruct (field "id" _ item) eqn:E1; [|discriminate]. destruct (field "to" _ item) eqn:E2; [|discriminate].
  destruct (field "timestamp" _ item); [|discriminate]. injection H as <-. split; [exact (text_clean Hc E1) | exact (text_clean Hc E2)].
Qed.


(** The keys are not stripped: a message whose object has U+0000 in a key keeps it, and the
    database refuses the whole batch. *)
Lemma nul_in_key_survives : stripNul (JObj [(String zero "", JNull)]) = JObj [(String zero "", JNull)].
Proof. reflexivity. Qed.

(** ** Connecting a number *)
Lemma metaId_matches v s : metaId v = Some s -> matchesPhoneNumberId s = true.
Proof. unfold metaId. destruct v as [[| | |x| |]|]; try discriminate. destruct (matchesPhoneNumberId x) eqn:E; [|discriminate]. intros [= <-]. exact E. Qed.

Definition goodId (o : option string) : Prop := match o with Some s => matchesPhoneNumberId s = true | None => True end.
Lemma metaId_good v : goodId (metaId v).
Proof. destruct (metaId v) eqn:E; [exact (metaId_matches _ _ E) | exact I]. Qed.

Lemma signup_ids payload ids : readSignup payload = Some (Sg_finish ids) ->
  matchesPhoneNumberId (sg_wabaId ids) = true /\ goodId (sg_phoneNumberId ids) /\ goodId (sg_businessId ids) /\
  (sg_coexistence ids = false -> sg_phoneNumberId ids <> None /\ sg_businessId ids <> None).
Proof.
  unfold readSignup. destruct payload as [| | | | |fields]; try discriminate.
  destruct (lookupField "type" fields) as [[| | |ty| |]|]; try discriminate.
  destruct (lookupField "event" fields) as [[| | |ev| |]|]; try discriminate.
  destruct (negb _); [discriminate|]. destruct (str_eqb ev "CANCEL"); [discriminate|]. destruct (str_eqb ev "FINISH_ONLY_WABA"); [discriminate|].
  cbv zeta. set (data := match lookupField "data" fields with Some (JObj x) => x | _ => [] end).
  pose proof (metaId_good (lookupField "phone_number_id" data)) as Hp. pose proof (metaId_good (lookupField "business_id" data)) as Hb.
  destruct (metaId (lookupField "waba_id" data)) as [w|] eqn:Ew; [|discriminate]. apply metaId_matches in Ew.
  destruct (metaId (lookupField "phone_number_id" data)) as [p|], (metaId (lookupField "business_id" data)) as [b|];
    destruct (str_eqb ev "FINISH"); try discriminate; try (destruct (str_eqb ev COEXISTENCE_FINISH_EVENT); [|discriminate]);
    intros [= <-]; cbn; repeat split; try assumption; discriminate.
Qed.

Lemma truthy_id s : matchesPhoneNumberId s = true -> truthy (Some s) = Some s.
Proof. destruct s; [vm_compute; discriminate | reflexivity]. Qed.
Lemma truthy_pin s : isPin s = true -> truthy (Some s) = Some s.
Proof. destruct s; [vm_compute; discriminate | reflexivity]. Qed.



(** ** The exchange of the code *)
Section Exchange.
Context (text : Text) (appSecret : string).

(** At most two requests; the second only after an outage or a rate limit; a token is never
    asked for again, and it is what an accepted answer holds. *)
Lemma exchange_requests answers : let r := exchangeCode text appSecret answers in
  (r.2 <= META_MAX_ATTEMPTS)%nat /\
  (r.2 = 2%nat -> match answers with
                  | Fa_failed _ :: _ => True
                  | Fa_answer status _ :: _ => transientMeta status = true
                  | [] => False
                  end) /\
  (forall token, r.1 = inr token -> exists status body, nth_error answers (pred r.2) = Some (Fa_answer status body) /\
     okStatus status = true /\ TokenResponse (safeJson text body) = Some token).
Proof.
  assert (Hone : forall a token, attemptEnd text appSecret a = At_token token -> exists status body, a = Fa_answer status body /\
    okStatus status = true /\ TokenResponse (safeJson text body) = Some token).
  { intros [m|status body] token; cbn [attemptEnd]; [discriminate|]. destruct (okStatus status) eqn:E.
    - destruct (TokenResponse (safeJson text body)) eqn:Et; [|discriminate]. intros [= <-]. eauto.
    - destruct (transientMeta status); discriminate. }
  assert (Hretry : forall a e, attemptEnd text appSecret a = At_retry e ->
    match a with Fa_failed _ => True | Fa_answer status _ => transientMeta status = true end).
  { intros [m|status body] e; cbn [attemptEnd]; [intros _; exact I|]. destruct (okStatus status); [destruct (TokenResponse _); discriminate|].
    destruct (transientMeta status) eqn:Et; [reflexivity | discriminate]. }
  unfold exchangeCode, META_MAX_ATTEMPTS. cbn zeta. destruct answers as [|a l]; cbn [exchangeLoop]; [cbn; repeat split; try lia; discriminate|].
  destruct (attemptEnd text appSecret a) as [tk|e|e] eqn:Ea; cbn [fst snd].
  - repeat split; [lia | discriminate|]. intros token [= <-]. destruct (Hone _ _ Ea) as (s & b & -> & H). exists s, b. split; [reflexivity | exact H].
  - repeat split; [lia | discriminate | discriminate].
  - specialize (Hretry _ _ Ea). destruct l as [|a2 l]; cbn [fst snd]; [repeat split; [lia | discriminate | discriminate]|].
    destruct (attemptEnd text appSecret a2) as [tk|e2|e2] eqn:Ea2; cbn [fst snd].
    + repeat split; [lia | intros _; destruct a; exact Hretry|]. intros token [= <-]. destruct (Hone _ _ Ea2) as (s & b & -> & H).
      exists s, b. split; [reflexivity | exact H].
    + repeat split; [lia | intros _; destruct a; exact Hretry | discriminate].
    + destruct l; cbn; (repeat split; [lia | intros _; destruct a; exact Hretry | discriminate]).
Qed.

(** No error shows the whole app secret. *)
Lemma exchange_secret answers : appSecret <> EmptyString -> unbracketed appSecret = true ->
  occurs appSecret "[redacted]" = false -> occurs appSecret "unexpected token response" = false -> occurs appSecret "no attempt" = false ->
  match (exchangeCode text appSecret answers).1 with inl e => occurs appSecret (mo_message e) = false | inr _ => True end.
Proof.
  intros H1 H2 H3 H4 H5.
  assert (Hgone : forall s, occurs appSecret (redactSecret appSecret s) = false).
  { intros s. unfold redactSecret. exact (replaceAll_gone appSecret "redacted" s H1 H2 (occurs_infix _ "[" "redacted" "]" H3)). }
  assert (Hend : forall a, match attemptEnd text appSecret a with At_token _ => True | At_throw e | At_retry e => occurs appSecret (mo_message e) = false end).
  { intros [m|status body]; cbn [attemptEnd]; [apply Hgone|]. destruct (okStatus status); [destruct (TokenResponse _); [exact I | exact H4]|].
    destruct (transientMeta status); apply Hgone. }
  unfold exchangeCode. assert (Hl : occurs appSecret (mo_message (mkMetaOAuthError 0 None "no attempt")) = false) by exact H5.
  revert Hl. generalize (mkMetaOAuthError 0 None "no attempt"). revert answers. induction META_MAX_ATTEMPTS as [|n IH]; intros answers e0 H0; [exact H0|].
  destruct answers as [|a l]; [exact H0|]. cbn [exchangeLoop]. specialize (Hend a). destruct (attemptEnd text appSecret a); [exact I | exact Hend|].
  specialize (IH l e Hend). destruct (exchangeLoop text appSecret n e l) as [r k]. exact IH.
Qed.
End Exchange.

(** The text is cut before it is redacted: a secret across the cut leaves its beginning. *)
Lemma secret_prefix_kept text :
  attemptEnd text "0123456789abcdef0123456789abcdef" (Fa_answer 400 (String.concat "" (repeat "x" 184) +:+ "0123456789abcdef0123456789abcdef")) =
  At_throw (mkMetaOAuthError 400 (errorCodeOf text (String.concat "" (repeat "x" 184) +:+ "0123456789abcdef0123456789abcdef"))
              (String.concat "" (repeat "x" 184) +:+ "0123456789abcdef")).
Proof. vm_compute. reflexivity. Qed.

(** A rate limit that outlasts the second attempt is reported as a code Meta rejected. *)
Lemma rate_limit_rejects_code e : mo_status e = 429 ->
  transientMeta 429 = true /\ connectErrorReply (Ce_oauth e) = Some ("signup_code_rejected", 409).
Proof. intros H. unfold connectErrorReply, isMetaOutage. rewrite H. split; reflexivity. Qed.

(** ** A webhook to evaluate *)

(** A message with a name and a U+0000, an answer of the owner, a removal, and an item of an
    unexpected shape. *)
Definition demoJson : Json :=
  JObj [("object", JStr "whatsapp_business_account");
    ("entry", JArr [JObj [("id", JStr "e1"); ("changes", JArr [
      JObj [("field", JStr "messages"); ("value", JObj [
        ("messaging_product", JStr "whatsapp"); ("metadata", JObj [("phone_number_id", JStr "100")]);
        ("contacts", JArr [JObj [("wa_id", JStr "972500000001"); ("profile", JObj [("name", JStr "Dana")])]]);
        ("messages", JArr [
          JObj [("id", JStr "wamid.1"); ("from", JStr "972500000001"); ("timestamp", JStr "1700000000"); ("type", JStr "text");
                ("text", JObj [("body", JStr (String "h" (String zero "i")))])];
          JObj [("id", JStr "wamid.2")]])])];
      JObj [("field", JStr "smb_message_echoes"); ("value", JObj [
        ("messaging_product", JStr "whatsapp"); ("metadata", JObj [("phone_number_id", JStr "100")]);
        ("message_echoes", JArr [JObj [("id", JStr "wamid.3"); ("to", JStr "972500000001"); ("timestamp", JStr "1700000001")]])])];
      JObj [("field", JStr "account_update"); ("value", JObj [
        ("event", JStr "PARTNER_REMOVED"); ("waba_info", JObj [("waba_id", JStr "200")])])]])]])].

Definition demoText : Text :=
  mkText (fun raw => if str_eqb raw "body" then Some demoJson else None) (fun _ => "{}") (fun _ => "0")
    (fun s => s) (fun _ _ => "ab01").
Definition demoRequest : InboxRequest := mkInboxRequest "body" (Some "sha256=ab01").
Definition demoTables : CloudDb :=
  mkCloudDb 1 [] [] [] [mkNumberRow "100" (Some "bot-1") "200" None None None 0] [("bot-1", I_running)].
Definition demoEntries : list Entry :=
  Eval vm_compute in match readWebhook demoText "secret" demoRequest with inr l => l | inl _ => [] end.

Lemma demoRead : readWebhook demoText "secret" demoRequest = inr demoEntries.
Proof. vm_compute. reflexivity. Qed.

Example demoRows : List.map (fun r => (iw_kind r, iw_instanceId r, iw_profileName r)) (webhookOf demoText demoTables 5 demoEntries).1 =
  [(In_message, "bot-1", Some "Dana"); (In_owner_echo, "bot-1", None); (In_partner_removed, "bot-1", None)].
Proof. vm_compute. reflexivity. Qed.
Example demoTally : (webhookOf demoText demoTables 5 demoEntries).2 = mkTally 2 0 1.
Proof. vm_compute. reflexivity. Qed.

Definition firstRow : InboundRow :=
  Eval vm_compute in nth 0 (webhookOf demoText demoTables 5 demoEntries).1
    (mkInboundRow In_partner_removed "" "" None None 0 0 []).

Lemma stored_rows_readable_witness :
  exists item, toInboxItem (storedRow 7 5 firstRow) = Some item /\ meant 7 firstRow item.
Proof. apply (stored_rows_readable demoText demoTables 5 demoEntries). vm_compute. left. reflexivity. Defined.


Definition demoAfter : CloudDb :=
  Eval vm_compute in (enqueue 5 (webhookOf demoText demoTables 5 demoEntries).1 demoTables).2.

Lemma demoAfter_eq : (enqueue 5 (webhookOf demoText demoTables 5 demoEntries).1 demoTables).2 = demoAfter.
Proof. vm_compute. reflexivity. Qed.

Lemma webhook_again_witness :
  exists calls', handleInbox demoText "secret" demoRequest (mkWorld demoAfter [] 9 []) =
    (inr (mkIngressOutcome 2 0 0 1), mkWorld (bumped 3 demoAfter) [] 9 calls').
Proof.
  refine (webhook_again demoText "secret" demoRequest demoEntries demoTables 5 9 demoAfter [] demoRead _ _ _ _).
  - apply List.Forall_forall. intros row _ [].
  - rewrite demoAfter_eq. apply (laterRun_wait _ _ 5); [apply laterRun_refl | lia].
  - unfold INBOX_RETAIN_ACKED_MS. lia.
  - split; intros x; reflexivity.
Defined.
