(* ===== verification/WebBots.v ===== *)
(** The web application's view of the bots: its client of the orchestrator,
    [web/src/lib/orchestrator/client.ts], the service behind its routes,
    [bots/service.ts], what it shows of a bot, [bots/snapshot.ts], and the progress of
    a creation, [bots/creation-progress.ts]; and what the deletion of an account does before
    it, [auth/delete-user.ts].

    The service is a program over any orchestrator ([BotOrchestratorPort]) and any billing
    ([BotLifecycleHooks]).  [Date.parse], the exponential and [JSON.parse] are parameters;
    the answers of the network to a request are a list.  Pauses and log lines are left out. *)
From Stdlib Require Import Ascii QArith Qround Sorted Permutation Lqa.
From S2P Require Import Prelude JsString Substring Json Domain Fleet.
From stdpp Require Import list strings.
#[local] Open Scope Z_scope.

(** ** orchestrator/client.ts *)
Inductive HttpMethod := Hm_get | Hm_post | Hm_delete | Hm_patch.

(** One answer: the request failed, or a status and a text. *)
Inductive ClientAnswer := Ha_lost | Ha_answer (status : Z) (body : string).

Inductive OrchestratorError :=
| Oe_failed
| Oe_unexpected204
| Oe_notJson (status : Z) (body : string)
| Oe_refused (status : Z) (body : Json)
| Oe_schema (status : Z) (body : Json).
Definition errorStatus (e : OrchestratorError) : Z :=
  match e with Oe_failed => 0 | Oe_unexpected204 => 204 | Oe_notJson s _ | Oe_refused s _ | Oe_schema s _ => s end.
Definition isClientError (e : OrchestratorError) : bool := (400 <=? errorStatus e) && (errorStatus e <? 500).

Definition isTransientStatus (status : Z) : bool := (status =? 429) || (status =? 503).
Definition fetchAttempts (m : HttpMethod) : nat := match m with Hm_get | Hm_delete => 3 | Hm_post | Hm_patch => 1 end.

(** [left] attempts, this one included; the requests made are counted. *)
Fixpoint fetchLoop (left : nat) (answers : list ClientAnswer) : option (Z * string) * nat :=
  match left, answers with
  | S n, a :: rest =>
      match a with
      | Ha_answer status body =>
          if negb (isTransientStatus status) || Nat.eqb n 0 then (Some (status, body), 1%nat)
          else let '(r, k) := fetchLoop n rest in (r, S k)
      | Ha_lost => if Nat.eqb n 0 then (None, 1%nat) else let '(r, k) := fetchLoop n rest in (r, S k)
      end
  | _, _ => (None, 0%nat)
  end.
Definition fetchWithRetries (m : HttpMethod) (answers : list ClientAnswer) : option (Z * string) * nat :=
  fetchLoop (fetchAttempts m) answers.

Record CallOptions (T : Type) := mkCall {
  co_method : HttpMethod;
  co_path : string;
  co_userId : option string;
  co_body : option Json;
  co_schema : Schema T;
  (** what an empty answer is, when it is allowed *)
  co_empty : option T;
  co_timeoutMs : option Z;
}.
Arguments mkCall {T}. Arguments co_method {T}. Arguments co_path {T}. Arguments co_userId {T}. Arguments co_body {T}.
Arguments co_schema {T}. Arguments co_empty {T}. Arguments co_timeoutMs {T}.

Definition REQUEST_TIMEOUT_MS : Z := 10000.
Definition requestTimeout {T} (o : CallOptions T) : Z := default REQUEST_TIMEOUT_MS (co_timeoutMs o).
Definition requestHeaders {T} (serviceToken : string) (o : CallOptions T) : list (string * string) :=
  [("authorization", "Bearer " +:+ serviceToken)]
  ++ match co_userId o with Some userId => [("x-act-as-user", userId)] | None => [] end
  ++ match co_body o with Some _ => [("content-type", "application/json")] | None => [] end.

Definition callClient {T} (parseJson : string -> option Json) (o : CallOptions T) (answers : list ClientAnswer) : OrchestratorError + T :=
  match (fetchWithRetries (co_method o) answers).1 with
  | None => inl Oe_failed
  | Some (status, text) =>
      if status =? 204 then match co_empty o with Some t => inr t | None => inl Oe_unexpected204 end
      else match (if str_eqb text "" then Some JNull else parseJson text) with
           | None => inl (Oe_notJson status text)
           | Some parsed =>
               if negb ((200 <=? status) && (status <=? 299)) then inl (Oe_refused status parsed)
               else match co_schema o parsed with None => inl (Oe_schema status parsed) | Some t => inr t end
           end
  end.

Definition instancePath (id suffix : string) : string := "/api/v1/instances/" +:+ encodeURIComponent id +:+ suffix.

(** The calls, one per method; [out] is the schema of what is answered.

    [listBots] reads the first page: no cursor is sent, the one answered is dropped. *)
Definition zAnything : Schema unit := fun _ => Some tt.
Definition dataOf {A} (s : Schema A) : Schema A := field "data" s.
Definition ListBotsSchema {B} (bot : Schema B) : Schema (list B) := fun j =>
  match dataOf (zArray bot) j, undefinedField "cursor" zString j with Some l, Some _ => Some l | _, _ => None end.
(** A key whose value is undefined is not written. *)
Definition optionalString (key : string) (value : option string) : list (string * Json) :=
  match value with Some v => [(key, JStr v)] | None => [] end.

Definition createBotCall {B} (out : Schema B) (userId displayName channel : string) : CallOptions B :=
  mkCall Hm_post "/api/v1/instances" (Some userId) (Some (JObj [("displayName", JStr displayName); ("channels", JArr [JObj [("type", JStr channel)]])])) out None (Some 30000).
Definition listBotsCall {B} (out : Schema B) (userId : string) : CallOptions (list B) :=
  mkCall Hm_get "/api/v1/instances" (Some userId) None (ListBotsSchema out) None None.
Definition getBotCall {B} (out : Schema B) (userId id : string) : CallOptions B :=
  mkCall Hm_get (instancePath id "") (Some userId) None out None None.
Definition deleteBotCall (userId id : string) : CallOptions unit :=
  mkCall Hm_delete (instancePath id "") (Some userId) None zAnything (Some tt) (Some 60000).
Definition restartBotCall (userId id : string) : CallOptions unit :=
  mkCall Hm_post (instancePath id "/restart") (Some userId) None zAnything (Some tt) (Some 60000).
Definition getBotUsageCall {B} (out : Schema B) (userId id : string) : CallOptions B :=
  mkCall Hm_get (instancePath id "/usage") (Some userId) None out None None.
Definition updateBotBudgetCall (userId id : string) (budgetCents : Z) : CallOptions unit :=
  mkCall Hm_patch (instancePath id "/litellm-budget") (Some userId) (Some (JObj [("budgetCents", JNum (inject_Z budgetCents))])) zAnything None None.
Definition startBotBackupExportCall {B} (out : Schema B) (userId id : string) : CallOptions B :=
  mkCall Hm_post (instancePath id "/exports") (Some userId) None out None (Some 10000).
Definition getBotBackupExportCall {B} (out : Schema B) (userId id jobId : string) : CallOptions B :=
  mkCall Hm_get (instancePath id ("/exports/" +:+ encodeURIComponent jobId)) (Some userId) None out None (Some 10000).
Definition createBackupUploadSessionCall {B} (out : Schema B) (userId displayName : string) (contentLength : Z) (contentType : option string) : CallOptions B :=
  mkCall Hm_post "/api/v1/backup-imports" (Some userId) (Some (JObj ([("displayName", JStr displayName); ("contentLength", JNum (inject_Z contentLength))] ++ optionalString "contentType" contentType))) out None None.
Definition restoreBackupUploadCall {B} (out : Schema B) (userId restoreToken : string) : CallOptions B :=
  mkCall Hm_post "/api/v1/backup-imports/restore" (Some userId) (Some (JObj [("restoreToken", JStr restoreToken)])) out None (Some 120000).
Definition startPairingCall {B} (out : Schema B) (userId id : string) (ownerNumber : option string) : CallOptions B :=
  mkCall Hm_post (instancePath id "/pair") (Some userId) (Some (JObj (optionalString "ownerNumber" (truthy ownerNumber)))) out None None.
Definition cancelPairingCall (userId id : string) : CallOptions unit :=
  mkCall Hm_post (instancePath id "/pair/cancel") (Some userId) None zAnything (Some tt) None.
Definition getPairQrCall {B} (out : Schema B) (userId id : string) : CallOptions B :=
  mkCall Hm_get (instancePath id "/pair/qr") (Some userId) None out None None.
Definition requestPairCodeCall {B} (out : Schema B) (userId id phone : string) : CallOptions B :=
  mkCall Hm_post (instancePath id "/pair/code") (Some userId) (Some (JObj [("phone", JStr phone)])) out None None.
Definition startTelegramLinkCall {B} (out : Schema B) (userId id : string) : CallOptions B :=
  mkCall Hm_post (instancePath id "/telegram/link") (Some userId) None out None None.
Definition getTelegramLinkStatusCall {B} (out : Schema B) (userId id : string) : CallOptions B :=
  mkCall Hm_get (instancePath id "/telegram/status") (Some userId) None out None None.
Definition listIntegrationsCall {B} (out : Schema B) (userId id : string) : CallOptions (list B) :=
  mkCall Hm_get (instancePath id "/integrations") (Some userId) None (dataOf (zArray out)) None None.
Definition connectIntegrationCall {B} (out : Schema B) (userId id app returnUrl : string) (label : option string) : CallOptions B :=
  mkCall Hm_post (instancePath id ("/integrations/" +:+ encodeURIComponent app +:+ "/connect")) (Some userId) (Some (JObj (("returnUrl", JStr returnUrl) :: optionalString "label" label))) out None (Some 30000).
Definition renameIntegrationCall (userId id ref label : string) : CallOptions unit :=
  mkCall Hm_patch (instancePath id ("/integrations/" +:+ encodeURIComponent ref)) (Some userId) (Some (JObj [("label", JStr label)])) zAnything (Some tt) None.
Definition disconnectIntegrationCall (userId id ref : string) : CallOptions unit :=
  mkCall Hm_delete (instancePath id ("/integrations/" +:+ encodeURIComponent ref)) (Some userId) None zAnything (Some tt) None.
Definition disconnectWhatsappCall (userId id : string) : CallOptions unit :=
  mkCall Hm_post (instancePath id "/whatsapp/disconnect") (Some userId) None zAnything (Some tt) (Some 60000).
Definition connectWhatsappCloudCall {B} (out : Schema B) (userId id : string) (input : Json) : CallOptions B :=
  mkCall Hm_post (instancePath id "/whatsapp-cloud/connect") (Some userId) (Some input) out None (Some 60000).
Definition getWhatsappCloudStatusCall {B} (out : Schema B) (userId id : string) : CallOptions B :=
  mkCall Hm_get (instancePath id "/whatsapp-cloud/status") (Some userId) None out None None.
Definition disconnectWhatsappCloudCall (userId id : string) : CallOptions unit :=
  mkCall Hm_post (instancePath id "/whatsapp-cloud/disconnect") (Some userId) None zAnything (Some tt) (Some 60000).
Definition disconnectTelegramCall (userId id : string) : CallOptions unit :=
  mkCall Hm_post (instancePath id "/telegram/disconnect") (Some userId) None zAnything (Some tt) (Some 60000).
Definition getWhatsappAccessCall {B} (out : Schema B) (userId id : string) : CallOptions B :=
  mkCall Hm_get (instancePath id "/whatsapp/access") (Some userId) None out None None.
Definition updateWhatsappAccessCall {B} (out : Schema B) (userId id access : string) : CallOptions B :=
  mkCall Hm_patch (instancePath id "/whatsapp/access") (Some userId) (Some (JObj [("access", JStr access)])) out None (Some 60000).
Definition getOwnerIdentityCall {B} (out : Schema B) (userId id : string) : CallOptions B :=
  mkCall Hm_get (instancePath id "/owner") (Some userId) None out None None.
Definition updateOwnerIdentityCall {B} (out : Schema B) (userId id : string) (patch : Json) : CallOptions B :=
  mkCall Hm_patch (instancePath id "/owner") (Some userId) (Some patch) out None (Some 60000).
Definition listAdminInstancesCall {B} (out : Schema B) : CallOptions (list B) :=
  mkCall Hm_get "/api/v1/admin/instances" None None (dataOf (zArray out)) None (Some 30000).
Definition getPairStatusCall {B} (out : Schema B) (userId id : string) : CallOptions B :=
  mkCall Hm_get (instancePath id "/pair/status") (Some userId) None out None None.

(** ** bots/service.ts *)
Record WebChannel := mkWebChannel { wc_type : string; wc_fields : list (string * Json) }.
Record HistoryEvent := mkHistoryEvent { he_stage : string; he_at : string }.
Record WebBot := mkWebBot {
  wb_id : string;
  wb_displayName : string;
  wb_status : InstanceStatus;
  wb_containerId : option string;
  wb_provisioningStage : option string;
  wb_provisioningHistory : list HistoryEvent;
  wb_pairingStatus : PairingStatus;
  wb_whatsappAccountId : option string;
  wb_hasWhatsappCreds : bool;
  wb_lastSeenAt : option string;
  wb_channels : list WebChannel;
}.

Definition GONE_BOT_STATUSES : list InstanceStatus := [I_destroying; I_destroyed; I_error].
Definition isActiveBot (b : WebBot) : bool := negb (oneOf [I_destroyed; I_error] (wb_status b)).

Inductive BotSource := Bs_new | Bs_backup.
(** The product event a call to [track] sends. *)
Inductive BotTracked := Bt_created (userId : string) (source : BotSource).

Class BotOrchestratorPort (D E : Type) := {
  port_listBots : string -> M D BotTracked E (list WebBot);
  port_createBot : string -> string -> string -> M D BotTracked E WebBot;
  port_getBot : string -> string -> M D BotTracked E WebBot;
  port_deleteBot : string -> string -> M D BotTracked E unit;
  port_restoreBackupUpload : string -> string -> M D BotTracked E WebBot;
}.
Class BotLifecycleHooks (D E : Type) := {
  hook_beforeBotCreate : BillingUser -> M D BotTracked E unit;
  hook_afterBotCreated : string -> M D BotTracked E unit;
  hook_beforeBotDelete : string -> string -> M D BotTracked E unit;
}.

Section BotService.
Context {D E : Type} `{!BotOrchestratorPort D E, !BotLifecycleHooks D E}.
Abbreviation Svc A := (M D BotTracked E A).

Definition findActiveBot (userId : string) : Svc (option WebBot) :=
  let! bots := port_listBots userId in ret (List.find isActiveBot bots).

(** A failed synchronisation after the creation is logged. *)
Definition afterCreation (userId : string) : Svc unit := catch (hook_afterBotCreated userId) (fun _ => ret tt).

(** The bot, and whether it was created. *)
Definition createBot (owner : BillingUser) (displayName channel : string) : Svc (WebBot * bool) :=
  let! active := findActiveBot (bu_id owner) in
  match active with
  | Some bot => ret (bot, false)
  | None =>
      hook_beforeBotCreate owner;;;
      let! bot := port_createBot (bu_id owner) displayName channel in
      record (Bt_created (bu_id owner) Bs_new);;;
      afterCreation (bu_id owner);;;
      ret (bot, true)
  end.

Definition deleteBot (userId id : string) : Svc unit :=
  let! bot := port_getBot userId id in
  (when negb (oneOf GONE_BOT_STATUSES (wb_status bot)) do hook_beforeBotDelete userId id);;;
  port_deleteBot userId id.

Definition restoreBackupUpload (owner : BillingUser) (restoreToken : string) : Svc WebBot :=
  hook_beforeBotCreate owner;;;
  let! bot := port_restoreBackupUpload (bu_id owner) restoreToken in
  record (Bt_created (bu_id owner) Bs_backup);;;
  afterCreation (bu_id owner);;;
  ret bot.

Definition deleteAllForUser (userId : string) : Svc unit :=
  let! bots := port_listBots userId in
  forM bots (fun bot => when negb (bool_decide (wb_status bot = I_destroyed)) do port_deleteBot userId (wb_id bot)).
End BotService.

(** ** auth/delete-user.ts

    A rejected cleanup aborts the deletion: [beforeDelete]'s error is the one the account's
    owner is answered. *)
Section AccountDeletion.
Context {D E : Type}.
Inductive DeleteError := De_conflict (message : string) | De_thrown (err : E).

(** [refusal] is the answer of the two billing errors a cancellation may refuse with. *)
Context (refusal : E -> option string).
Definition beforeDelete (cancelBilling deleteBots : string -> M D BotTracked E unit) (userId : string) : M D BotTracked DeleteError unit :=
  fun w => match cancelBilling userId w with
           | (inl err, w1) => (inl match refusal err with Some message => De_conflict message | None => De_thrown err end, w1)
           | (inr _, w1) => match deleteBots userId w1 with
                            | (inl err, w2) => (inl (De_thrown err), w2)
                            | (inr _, w2) => (inr tt, w2)
                            end
           end.
End AccountDeletion.

(** ** bots/creation-progress.ts *)
#[export] Instance ProvisioningStage_eq_dec : EqDecision ProvisioningStage.
Proof. solve_decision. Defined.

Inductive CreationStep := Step_registering | Step_uploading | Step_restoring | Step_booting | Step_starting | Step_healthcheck.
#[export] Instance CreationStep_eq_dec : EqDecision CreationStep.
Proof. solve_decision. Defined.

Record TimelineEntry := mkTimelineEntry { te_id : CreationStep; te_startedAt : option Z; te_endedAt : option Z }.
Record ProvisioningEvent := mkProvisioningEvent { pe_stage : ProvisioningStage; pe_at : Z }.
Record StepSpec := mkStepSpec { ss_id : CreationStep; ss_weight : Z; ss_typicalSeconds : Z }.

Definition FRESH_STEPS : list StepSpec :=
  [mkStepSpec Step_registering 12 3; mkStepSpec Step_booting 13 3; mkStepSpec Step_starting 15 3; mkStepSpec Step_healthcheck 60 18].
Definition RESTORE_STEPS : list StepSpec :=
  [mkStepSpec Step_uploading 30 30; mkStepSpec Step_restoring 10 4; mkStepSpec Step_booting 10 3; mkStepSpec Step_starting 15 8;
   mkStepSpec Step_healthcheck 35 18].
Definition creationSteps (restoring : bool) : list StepSpec := if restoring then RESTORE_STEPS else FRESH_STEPS.
Definition IN_STEP_CAP : Q := 9 # 10.

(** A map from stages to events, in the order of insertion; of the known events the last of a stage counts. *)
Definition hasStage (s : ProvisioningStage) (e : ProvisioningEvent) : bool := bool_decide (pe_stage e = s).
Definition setEvent (l : list ProvisioningEvent) (e : ProvisioningEvent) : list ProvisioningEvent :=
  if List.existsb (hasStage (pe_stage e)) l then List.map (fun x => if hasStage (pe_stage e) x then e else x) l else l ++ [e].
Definition addEvent (l : list ProvisioningEvent) (e : ProvisioningEvent) : list ProvisioningEvent :=
  if List.existsb (hasStage (pe_stage e)) l then l else l ++ [e].
Definition earlierEvent (a b : ProvisioningEvent) : bool := pe_at a <=? pe_at b.
Definition mergeHistory (known incoming : list ProvisioningEvent) : list ProvisioningEvent :=
  isort earlierEvent (fold_left addEvent incoming (fold_left setEvent known [])).

Record TimelineInput := mkTimelineInput {
  ti_local : list TimelineEntry;
  ti_history : list ProvisioningEvent;
  ti_rowKnownAt : option Z;
  ti_readyAt : option Z;
}.
Definition known (a : option Z) : bool := match a with Some _ => true | None => false end.
Definition orElseZ (a b : option Z) : option Z := match a with Some _ => a | None => b end.
Definition stageAt (s : ProvisioningStage) (l : list ProvisioningEvent) : option Z := option_map pe_at (List.find (hasStage s) l).

Definition buildTimeline (i : TimelineInput) : list TimelineEntry :=
  let reserved := orElseZ (stageAt Stage_reserved (ti_history i)) (ti_rowKnownAt i) in
  let containerCreated := stageAt Stage_container_created (ti_history i) in
  let started := stageAt Stage_started (ti_history i) in
  let running := orElseZ (stageAt Stage_running (ti_history i)) (ti_readyAt i) in
  if negb (known reserved || known containerCreated || known started || known running) then ti_local i
  else
    ti_local i
    ++ [mkTimelineEntry Step_booting reserved (orElseZ containerCreated (orElseZ started running))]
    ++ (if known containerCreated || known started || known running
        then [mkTimelineEntry Step_starting containerCreated (orElseZ started running)] else [])
    ++ (if known started || known running then [mkTimelineEntry Step_healthcheck started running] else []).

(** [Math.round]. *)
Definition mathRound (q : Q) : Z := Qfloor (q + (1 # 2)).
Definition qclamp (q : Q) : Q := if Qle_bool q 0 then 0 else if Qle_bool 1 q then 1 else q.
Definition qmin (a b : Q) : Q := if Qle_bool a b then a else b.

(** [exp1 q] is [Math.exp(-q)]; a negative index is a step not reached. *)
Definition resolvePercent (exp1 : Q -> Q) (steps : list StepSpec) (activeIndex : Z) (secondsInStep : Q) (uploadPercent : option Q) : Z :=
  if activeIndex <? 0 then 0
  else
    let floor := sumZ ss_weight (take (Z.to_nat activeIndex) steps) in
    match steps !! Z.to_nat activeIndex with
    | None => Z.min 100 floor
    | Some active =>
        let fraction := match uploadPercent with
                        | Some u => if bool_decide (ss_id active = Step_uploading) then qclamp (u / 100)
                                    else (1 - exp1 ((if Qle_bool secondsInStep 0 then 0 else secondsInStep) / inject_Z (ss_typicalSeconds active)))%Q
                        | None => (1 - exp1 ((if Qle_bool secondsInStep 0 then 0 else secondsInStep) / inject_Z (ss_typicalSeconds active)))%Q
                        end in
        mathRound (inject_Z floor + inject_Z (ss_weight active) * qmin IN_STEP_CAP fraction)
    end.

(** ** bots/snapshot.ts *)
Record CloudSnapshot := mkCloudSnapshot {
  cs_phoneNumberId : string; cs_displayPhoneNumber : option string; cs_verifiedName : option string; cs_health : option string }.
Record AccessSnapshot := mkAccessSnapshot { as_access : string; as_configured : bool }.
Record OwnerSnapshot := mkOwnerSnapshot { os_telegramLinked : bool; os_whatsappNumber : option string; os_businessNumber : option string }.
Record TelegramSnapshot := mkTelegramSnapshot { tn_linked : bool; tn_botUsername : option string }.
Record BotSnapshot := mkBotSnapshot {
  sn_id : string;
  sn_displayName : string;
  sn_status : InstanceStatus;
  sn_provisioningStage : option ProvisioningStage;
  sn_provisioningHistory : list ProvisioningEvent;
  sn_pairingStatus : PairingStatus;
  sn_whatsappAccountId : option string;
  sn_hasWhatsappCreds : bool;
  sn_hasWhatsappChannel : bool;
  sn_whatsappAccess : option AccessSnapshot;
  sn_owner : OwnerSnapshot;
  sn_telegram : option TelegramSnapshot;
  sn_whatsappCloud : option CloudSnapshot;
  sn_whatsappCloudEnabled : bool;
  sn_lastSeenAt : option string;
}.

Definition PROVISIONING_STAGES : list (string * ProvisioningStage) :=
  [("reserved", Stage_reserved); ("container_created", Stage_container_created); ("backup_restored", Stage_backup_restored);
   ("started", Stage_started); ("running", Stage_running)].
Definition toStage (s : string) : option ProvisioningStage := option_map snd (List.find (fun p => str_eqb p.1 s) PROVISIONING_STAGES).
Definition WHATSAPP_DM_ACCESS : list string := ["owner"; "open"].

Section Snapshot.
Context (dateParse : string -> option Z).

Definition channelOf (type : string) (channels : list WebChannel) : option WebChannel :=
  List.find (fun c => str_eqb (wc_type c) type) channels.
Definition stringField (key : string) (c : WebChannel) : option string :=
  match lookupField key (wc_fields c) with Some (JStr s) => Some s | _ => None end.

Definition whatsappCloudSnapshot (channels : list WebChannel) (health : option string) : option CloudSnapshot :=
  match channelOf "whatsapp_cloud" channels with
  | None => None
  | Some ch =>
      match stringField "phoneNumberId" ch with
      | None => None
      | Some id => Some (mkCloudSnapshot id (stringField "displayPhoneNumber" ch) (stringField "verifiedName" ch) health)
      end
  end.

Definition whatsappAccessSnapshot (channels : list WebChannel) : option AccessSnapshot :=
  match channelOf "whatsapp" channels with
  | None => None
  | Some ch =>
      let access := match stringField "dmAccess" ch with Some a => List.find (str_eqb a) WHATSAPP_DM_ACCESS | None => None end in
      Some (mkAccessSnapshot (default "open" access) (match access with Some _ => true | None => false end))
  end.

(** /^(?:tg:|telegram:)?\d+$/ *)
Definition isTelegramEntry (s : string) : bool :=
  let digits := match stripPrefix "tg:" s with
                | Some r => r
                | None => match stripPrefix "telegram:" s with Some r => r | None => s end
                end in
  negb (str_eqb digits "") && allChars isDigit digits.

Definition ownerSnapshot (channels : list WebChannel) : OwnerSnapshot :=
  let allowFrom := match channelOf "telegram" channels with
                   | Some ch => match lookupField "allowFrom" (wc_fields ch) with Some (JArr l) => l | _ => [] end
                   | None => []
                   end in
  let ownerNumber type := match channelOf type channels with Some ch => stringField "ownerNumber" ch | None => None end in
  mkOwnerSnapshot (List.existsb (fun e => match e with JStr s => isTelegramEntry s | _ => false end) allowFrom)
    (ownerNumber "whatsapp") (ownerNumber "whatsapp_cloud").

Definition telegramSnapshot (channels : list WebChannel) : option TelegramSnapshot :=
  match channelOf "telegram" channels with
  | None => None
  | Some ch => Some (mkTelegramSnapshot (match stringField "botToken" ch with Some _ => true | None => false end) (stringField "botUsername" ch))
  end.

Definition botStageOf (b : WebBot) : option ProvisioningStage :=
  match match wb_provisioningStage b with Some s => toStage s | None => None end with
  | Some stage => Some stage
  | None =>
      if negb (bool_decide (wb_status b = I_provisioning)) then None
      else match truthy (wb_containerId b) with Some _ => Some Stage_container_created | None => Some Stage_reserved end
  end.

Definition botHistoryOf (b : WebBot) : list ProvisioningEvent :=
  omap (fun e => match toStage (he_stage e), dateParse (he_at e) with
                 | Some stage, Some at_ => Some (mkProvisioningEvent stage at_)
                 | _, _ => None
                 end) (wb_provisioningHistory b).

Definition toBotSnapshot (b : WebBot) (health : option string) (enabled : bool) : BotSnapshot :=
  let channels := wb_channels b in
  mkBotSnapshot (wb_id b) (wb_displayName b) (wb_status b) (botStageOf b) (botHistoryOf b) (wb_pairingStatus b)
    (wb_whatsappAccountId b) (wb_hasWhatsappCreds b) (List.existsb (fun c => str_eqb (wc_type c) "whatsapp") channels)
    (whatsappAccessSnapshot channels) (ownerSnapshot channels) (telegramSnapshot channels)
    (whatsappCloudSnapshot channels health) enabled (wb_lastSeenAt b).
End Snapshot.

(** ** The client's requests *)

(** Whether the client sends a request again after this answer. *)
Definition goesAgain (a : ClientAnswer) : bool :=
  match a with Ha_lost => true | Ha_answer status _ => isTransientStatus status end.
Definition answerOf (a : ClientAnswer) : option (Z * string) :=
  match a with Ha_lost => None | Ha_answer status body => Some (status, body) end.

Lemma str_eqb_neq_ s t : str_eqb s t = false -> s <> t.
Proof. intros H ->. rewrite str_eqb_refl in H. discriminate. Qed.

Lemma fetchLoop_spec left answers : (0 < left)%nat -> (left <= length answers)%nat ->
  exists before a rest, answers = before ++ a :: rest /\ Forall (fun b => goesAgain b = true) before /\
    (length before < left)%nat /\ (goesAgain a = false \/ S (length before) = left) /\
    fetchLoop left answers = (answerOf a, S (length before)).
Proof.
  revert answers. induction left as [|n IH]; intros [|a rest] Hleft Hlen; cbn in Hlen; try lia.
  destruct (goesAgain a) eqn:Ha.
  - destruct (decide (n = 0%nat)) as [->|Hn].
    + exists [], a, rest. split_and!; [reflexivity|constructor|cbn; lia|right; reflexivity|].
      destruct a as [|status body]; cbn; [reflexivity|]. rewrite orb_true_r. reflexivity.
    + destruct (IH rest ltac:(lia) ltac:(lia)) as (before & b & tail & -> & Hbefore & Hlt & Hend & Hrun).
      exists (a :: before), b, tail. split_and!; [reflexivity|constructor; assumption|cbn; lia|cbn; intuition lia|].
      assert (Hn' : Nat.eqb n 0 = false) by (apply Nat.eqb_neq; exact Hn).
      destruct a as [|status body]; cbn [fetchLoop]; rewrite Hn', ?Hrun; [reflexivity|]. cbn in Ha. rewrite Ha. reflexivity.
  - exists [], a, rest. split_and!; [reflexivity|constructor|cbn; lia|left; exact Ha|].
    destruct a as [|status body]; [discriminate|]. cbn in Ha |- *. rewrite Ha. reflexivity.
Qed.

(** A read or a deletion is sent again while the orchestrator is lost or busy, three times at
    most; the answer is the first that is neither, or the last. *)
Lemma fetchWithRetry_spec m answers : (fetchAttempts m <= length answers)%nat ->
  exists before a rest, answers = before ++ a :: rest /\ Forall (fun b => goesAgain b = true) before /\
    (length before < fetchAttempts m)%nat /\ (goesAgain a = false \/ S (length before) = fetchAttempts m) /\
    fetchWithRetries m answers = (answerOf a, S (length before)).
Proof. apply fetchLoop_spec. destruct m; cbn; lia. Qed.

(** A request that changes something other than by deleting it is sent once, whatever comes back. *)
Lemma writes_once m a rest : m = Hm_post \/ m = Hm_patch -> fetchWithRetries m (a :: rest) = (answerOf a, 1%nat).
Proof. intros [-> | ->]; destruct a as [|s b]; cbn; try reflexivity; rewrite orb_true_r; reflexivity. Qed.

(** A value is returned only for an answer of success: a body its schema accepts, or none where none is due. *)
Lemma call_answers {T} parseJson (o : CallOptions T) answers t : callClient parseJson o answers = inr t ->
  exists status text, (fetchWithRetries (co_method o) answers).1 = Some (status, text) /\
    ((status = 204 /\ co_empty o = Some t) \/
     (200 <= status <= 299 /\ status <> 204 /\
      exists j, (text = "" /\ j = JNull \/ text <> "" /\ parseJson text = Some j) /\ co_schema o j = Some t)).
Proof.
  unfold callClient. destruct (fetchWithRetries _ _).1 as [[status text]|]; [|discriminate]. intros H. exists status, text.
  split; [reflexivity|]. destruct (status =? 204) eqn:H204.
  - left. split; [lia|]. destruct (co_empty o); congruence.
  - right. destruct (str_eqb text "") eqn:Htext.
    + apply str_eqb_eq in Htext. destruct ((200 <=? status) && (status <=? 299)) eqn:Hok; [|discriminate]. cbn [negb] in H.
      destruct (co_schema o JNull) eqn:Hj; [|discriminate]. injection H as ->. split; [lia|]. split; [lia|]. exists JNull. auto.
    + apply str_eqb_neq_ in Htext. destruct (parseJson text) as [j|] eqn:Hp; [|discriminate].
      destruct ((200 <=? status) && (status <=? 299)) eqn:Hok; [|discriminate]. cbn [negb] in H.
      destruct (co_schema o j) eqn:Hj; [|discriminate]. injection H as ->. split; [lia|]. split; [lia|]. exists j. auto.
Qed.

(** ** The progress of a creation *)

Lemma hasStage_true s e : hasStage s e = true <-> pe_stage e = s.
Proof. unfold hasStage. apply bool_decide_eq_true. Qed.

Lemma existsb_stage s l : List.existsb (hasStage s) l = true <-> In s (List.map pe_stage l).
Proof.
  rewrite existsb_exists, in_map_iff. split.
  - intros (e & He & Hs). apply hasStage_true in Hs. eauto.
  - intros (e & Hs & He). exists e. rewrite hasStage_true. auto.
Qed.

Lemma map_setEvent l e : List.map pe_stage (setEvent l e) =
  if List.existsb (hasStage (pe_stage e)) l then List.map pe_stage l else List.map pe_stage l ++ [pe_stage e].
Proof.
  unfold setEvent. case_match; [|rewrite map_app; reflexivity]. rewrite map_map. apply map_ext. intros x.
  destruct (hasStage (pe_stage e) x) eqn:Hx; [symmetry; apply hasStage_true, Hx|reflexivity].
Qed.

Lemma addEvent_map l e : List.map pe_stage (addEvent l e) =
  if List.existsb (hasStage (pe_stage e)) l then List.map pe_stage l else List.map pe_stage l ++ [pe_stage e].
Proof. unfold addEvent. case_match; [reflexivity|]. rewrite map_app. reflexivity. Qed.

(** A map's keys stay distinct, whichever of the two ways it grows. *)
Lemma stages_distinct (f : list ProvisioningEvent -> ProvisioningEvent -> list ProvisioningEvent) events l :
  (forall l e, List.map pe_stage (f l e) =
    if List.existsb (hasStage (pe_stage e)) l then List.map pe_stage l else List.map pe_stage l ++ [pe_stage e]) ->
  NoDup (List.map pe_stage l) -> NoDup (List.map pe_stage (fold_left f events l)).
Proof.
  intros Hf. revert l. induction events as [|e events IH]; intros l Hl; [exact Hl|]. apply IH. rewrite Hf.
  destruct (List.existsb _ l) eqn:He; [exact Hl|]. apply NoDup_app. split_and!; [exact Hl| |apply NoDup_singleton].
  intros s Hs ->%list_elem_of_singleton. apply list_elem_of_In, existsb_stage in Hs. congruence.
Qed.

Lemma setEvent_fresh events l : NoDup (List.map pe_stage (l ++ events)) -> fold_left setEvent events l = l ++ events.
Proof.
  revert l. induction events as [|e events IH]; intros l Hl; cbn; [rewrite app_nil_r; reflexivity|].
  assert (He : setEvent l e = l ++ [e]).
  { unfold setEvent. destruct (List.existsb _ l) eqn:He; [|reflexivity]. exfalso. apply existsb_stage in He.
    rewrite map_app in Hl. apply NoDup_app in Hl as (_ & Hl & _). apply (Hl (pe_stage e)); [apply list_elem_of_In, He|]. left. }
  rewrite He, IH, <- app_assoc; [reflexivity|]. rewrite <- app_assoc. exact Hl.
Qed.

Lemma addEvents_keep events l e : In e l -> In e (fold_left addEvent events l).
Proof.
  revert l. induction events as [|x events IH]; intros l He; [exact He|]. apply IH. unfold addEvent.
  case_match; [exact He|]. apply in_or_app. auto.
Qed.

Lemma addEvents_stages events l s :
  In s (List.map pe_stage (fold_left addEvent events l)) <-> In s (List.map pe_stage l) \/ In s (List.map pe_stage events).
Proof.
  revert l. induction events as [|e events IH]; intros l; cbn; [tauto|]. rewrite IH, addEvent_map.
  destruct (List.existsb _ l) eqn:He.
  - apply existsb_stage in He. intuition congruence.
  - rewrite in_app_iff. cbn. intuition congruence.
Qed.

Lemma earlierEvent_total a b : earlierEvent a b = true \/ earlierEvent b a = true.
Proof. unfold earlierEvent. lia. Qed.
Lemma earlierEvent_trans a b c : earlierEvent a b = true -> earlierEvent b c = true -> earlierEvent a c = true.
Proof. unfold earlierEvent. lia. Qed.

Lemma merge_perm k i : NoDup (List.map pe_stage k) -> mergeHistory k i ≡ₚ fold_left addEvent i k.
Proof. intros Hk. unfold mergeHistory. rewrite isort_perm, (setEvent_fresh k []) by exact Hk. reflexivity. Qed.

(** The history is ascending and names each stage once. *)
Lemma merge_shape k i : StronglySorted (fun a b => earlierEvent a b = true) (mergeHistory k i) /\ NoDup (List.map pe_stage (mergeHistory k i)).
Proof.
  split; [apply isort_sorted; [apply earlierEvent_total|apply earlierEvent_trans]|].
  unfold mergeHistory. rewrite isort_perm. apply stages_distinct; [apply addEvent_map|].
  apply stages_distinct; [apply map_setEvent|constructor].
Qed.

Lemma stageAt_in l e : NoDup (List.map pe_stage l) -> In e l -> stageAt (pe_stage e) l = Some (pe_at e).
Proof.
  unfold stageAt. induction l as [|x l IH]; cbn; [tauto|]. intros [Hx Hl]%NoDup_cons [->|He].
  - rewrite (proj2 (hasStage_true _ _) eq_refl). reflexivity.
  - destruct (hasStage (pe_stage e) x) eqn:Hs; [|exact (IH Hl He)]. apply hasStage_true in Hs. exfalso. apply Hx.
    apply list_elem_of_In. rewrite Hs. apply in_map, He.
Qed.

Lemma stageAt_some s l t : stageAt s l = Some t -> exists e, In e l /\ pe_stage e = s /\ pe_at e = t.
Proof.
  unfold stageAt. destruct (List.find _ l) as [e|] eqn:Hf; [|discriminate]. intros [= <-].
  apply find_some in Hf as [He Hs]. apply hasStage_true in Hs. eauto.
Qed.

(** A poll can only add knowledge: a stage known keeps its time, and the stages known after
    are those known before and those the poll reports. *)
Lemma merge_adds k i : NoDup (List.map pe_stage k) ->
  (forall s t, stageAt s k = Some t -> stageAt s (mergeHistory k i) = Some t) /\
  (forall s, In s (List.map pe_stage (mergeHistory k i)) <-> In s (List.map pe_stage k) \/ In s (List.map pe_stage i)).
Proof.
  intros Hk. split.
  - intros s t (e & He & <- & <-)%stageAt_some. apply stageAt_in; [apply merge_shape|].
    apply (Permutation_in _ (symmetry (merge_perm k i Hk))), addEvents_keep, He.
  - intros s. rewrite (Permutation_map pe_stage (merge_perm k i Hk)) . apply addEvents_stages.
Qed.

Lemma polls_add polls k s t : NoDup (List.map pe_stage k) -> stageAt s k = Some t -> stageAt s (fold_left mergeHistory polls k) = Some t.
Proof.
  revert k. induction polls as [|i polls IH]; intros k Hk Ht; [exact Ht|]. apply IH; [apply merge_shape|].
  apply (proj1 (merge_adds k i Hk)), Ht.
Qed.

(** Of two steps in a row: the first has ended, and where the second has a start it is the first's end. *)
Inductive Chained : list TimelineEntry -> Prop :=
| Ch_nil : Chained []
| Ch_one e : Chained [e]
| Ch_next a b l : known (te_endedAt a) = true -> (forall t, te_startedAt b = Some t -> te_endedAt a = Some t) ->
    Chained (b :: l) -> Chained (a :: b :: l).

(** The container's steps follow the client's own, in order, none left out; only the last can be
    open, and it is the probe's, closed, exactly when the bot was seen running. *)
Lemma timeline_chain i : exists server, buildTimeline i = ti_local i ++ server /\ Chained server /\
  List.map te_id server = take (length server) [Step_booting; Step_starting; Step_healthcheck] /\
  (known (orElseZ (stageAt Stage_running (ti_history i)) (ti_readyAt i)) = true <->
   exists from until, List.last server (mkTimelineEntry Step_registering None None) = mkTimelineEntry Step_healthcheck from (Some until)).
Proof.
  unfold buildTimeline.
  set (running := orElseZ (stageAt Stage_running _) _). set (reserved := orElseZ (stageAt Stage_reserved _) _).
  destruct running as [r|], (stageAt Stage_started _) as [s|], (stageAt Stage_container_created _) as [c|], reserved as [v|];
    cbn [known orElseZ orb negb app];
    first [ exists []; rewrite app_nil_r; split; [reflexivity|]
          | eexists; split; [reflexivity|] ];
    (split; [repeat constructor; cbn; congruence|]; split; [reflexivity|]; cbn; split;
     [intros H; first [discriminate H | do 2 eexists; reflexivity] | intros (f & u & H); first [reflexivity | discriminate H]]).
Qed.

Section Percent.
Context (exp1 : Q -> Q).
Hypothesis exp1_unit : forall q, (0 <= q)%Q -> (0 <= exp1 q <= 1)%Q.

Definition floorOf (steps : list StepSpec) (index : nat) : Z := sumZ ss_weight (take index steps).
(** The weights are at least ten, so that nine tenths of one round to less than it. *)
Definition Weighted (steps : list StepSpec) : Prop := Forall (fun s => 10 <= ss_weight s /\ 0 < ss_typicalSeconds s) steps.

Lemma creationSteps_weighted restoring : Weighted (creationSteps restoring) /\ sumZ ss_weight (creationSteps restoring) = 100.
Proof. destruct restoring; (split; [repeat (apply Forall_cons; split; [cbn; lia|]); apply Forall_nil_2|reflexivity]). Qed.

Lemma mathRound_bounds floor w (q : Q) : 10 <= w -> (0 <= q <= IN_STEP_CAP)%Q ->
  floor <= mathRound (inject_Z floor + inject_Z w * q) < floor + w.
Proof.
  intros Hw [Hq0 Hq1]. unfold mathRound. assert (Hw' : (10 <= inject_Z w)%Q) by (change 10%Q with (inject_Z 10); rewrite <- Zle_Qle; exact Hw).
  split.
  - rewrite <- (Qfloor_Z floor) at 1. apply Qfloor_resp_le. unfold IN_STEP_CAP in *. nra.
  - apply Z.le_lt_trans with (m := Qfloor (inject_Z (floor + w) - (1 # 2))).
    + apply Qfloor_resp_le. rewrite inject_Z_plus. unfold IN_STEP_CAP in *. nra.
    + rewrite Zlt_Qlt. eapply Qle_lt_trans; [apply Qfloor_le|]. lra.
Qed.

Lemma qclamp_unit q : (0 <= qclamp q <= 1)%Q.
Proof.
  unfold qclamp. destruct (Qle_bool q 0) eqn:H0; [lra|]. destruct (Qle_bool 1 q) eqn:H1; [lra|].
  assert (~ (q <= 0)%Q) by (rewrite <- Qle_bool_iff; congruence). assert (~ (1 <= q)%Q) by (rewrite <- Qle_bool_iff; congruence). lra.
Qed.

Lemma qmin_cap q : (0 <= q)%Q -> (0 <= qmin IN_STEP_CAP q <= IN_STEP_CAP)%Q.
Proof.
  intros Hq. unfold qmin, IN_STEP_CAP in *. destruct (Qle_bool _ q) eqn:H; [lra|].
  assert (~ ((9 # 10) <= q)%Q) by (rewrite <- Qle_bool_iff; congruence). lra.
Qed.

Lemma easing_unit seconds s : 0 < ss_typicalSeconds s ->
  (0 <= 1 - exp1 ((if Qle_bool seconds 0 then 0 else seconds) / inject_Z (ss_typicalSeconds s)))%Q.
Proof.
  intros Hs. enough (H : (0 <= (if Qle_bool seconds 0 then 0 else seconds) / inject_Z (ss_typicalSeconds s))%Q).
  { apply exp1_unit in H. lra. }
  assert (Hts : (0 < inject_Z (ss_typicalSeconds s))%Q) by (change 0%Q with (inject_Z 0); rewrite <- Zlt_Qlt; exact Hs).
  apply Qle_shift_div_l; [exact Hts|]. destruct (Qle_bool seconds 0) eqn:H; [lra|].
  assert (~ (seconds <= 0)%Q) by (rewrite <- Qle_bool_iff; congruence). lra.
Qed.

(** Inside a step the bar stays in the step's share, and never completes it. *)
Lemma percent_in_step steps index active seconds upload : Weighted steps -> steps !! index = Some active ->
  floorOf steps index <= resolvePercent exp1 steps (Z.of_nat index) seconds upload < floorOf steps index + ss_weight active.
Proof.
  intros Hsteps Hactive. assert (Hspec := proj1 (Forall_lookup _ _) Hsteps _ _ Hactive). destruct Hspec as [Hw Hs].
  unfold resolvePercent. replace (Z.of_nat index <? 0) with false by (symmetry; apply Z.ltb_ge; lia). rewrite Nat2Z.id, Hactive. fold (floorOf steps index).
  apply mathRound_bounds; [exact Hw|]. apply qmin_cap. destruct upload as [u|]; [|apply easing_unit, Hs].
  destruct (bool_decide _); [apply qclamp_unit|apply easing_unit, Hs].
Qed.

Lemma floorOf_step steps index active : steps !! index = Some active -> floorOf steps (S index) = floorOf steps index + ss_weight active.
Proof. intros H. unfold floorOf. rewrite (take_S_r _ _ _ H), sumZ_app. cbn. lia. Qed.

Lemma floorOf_mono steps i j : Weighted steps -> (i <= j)%nat -> floorOf steps i <= floorOf steps j.
Proof.
  intros Hsteps Hij. unfold floorOf. replace (take j steps) with (take i steps ++ take (j - i) (drop i steps)).
  - rewrite sumZ_app. enough (0 <= sumZ ss_weight (take (j - i) (drop i steps))) by lia. apply sumZ_nonneg.
    intros s Hs%list_elem_of_In. apply elem_of_take in Hs as (k & Hk & _). rewrite lookup_drop in Hk.
    apply (proj1 (Forall_lookup _ _) Hsteps) in Hk. lia.
  - rewrite take_take_drop. f_equal. lia.
Qed.

(** The bar never goes back: a later step shows more than an earlier one ever did, whatever the
    time spent and the part uploaded; a hundred is shown only past the last step. *)
Lemma percent_grows restoring i j a seconds seconds' upload upload' : (i < j)%nat -> creationSteps restoring !! i = Some a ->
  resolvePercent exp1 (creationSteps restoring) (Z.of_nat i) seconds upload
    < resolvePercent exp1 (creationSteps restoring) (Z.of_nat j) seconds' upload' <= 100.
Proof.
  destruct (creationSteps_weighted restoring) as [Hsteps Hsum]. set (steps := creationSteps restoring) in *. intros Hij Ha.
  destruct (percent_in_step steps i a seconds upload Hsteps Ha) as [_ Hi]. rewrite <- (floorOf_step _ _ _ Ha) in Hi.
  assert (Hj := floorOf_mono steps (S i) j Hsteps ltac:(lia)).
  assert (Hall : forall n, floorOf steps n <= 100).
  { intros n. rewrite <- Hsum. transitivity (floorOf steps (n `max` length steps)); [apply floorOf_mono; [assumption|lia]|].
    unfold floorOf. rewrite take_ge by lia. lia. }
  destruct (steps !! j) as [b|] eqn:Hb.
  - destruct (percent_in_step steps j b seconds' upload' Hsteps Hb) as [Hlo Hhi]. rewrite <- (floorOf_step _ _ _ Hb) in Hhi.
    specialize (Hall (S j)). lia.
  - unfold resolvePercent at 2 3. replace (Z.of_nat j <? 0) with false by (symmetry; apply Z.ltb_ge; lia). rewrite Nat2Z.id, Hb. fold (floorOf steps j).
    specialize (Hall j). lia.
Qed.
End Percent.

(** ** The service over a paged orchestrator

    What the service relies on: [GET /api/v1/instances] answers the first page, of [PAGE] bots
    not destroyed, oldest first; a creation adds the bot it answers; a deletion destroys the bot
    it names and no other; billing's hooks leave the bots alone.  Any of them may be rejected. *)
Definition PAGE : nat := 50.
Definition undestroyed (b : WebBot) : bool := negb (bool_decide (wb_status b = I_destroyed)).
Definition sameBot (id : string) (b : WebBot) : bool := str_eqb (wb_id b) id.

Class PagedOrchestrator (D E : Type) `{!BotOrchestratorPort D E, !BotLifecycleHooks D E} (bots : string -> D -> list WebBot) := {
  paged_list u w r w' : port_listBots (E := E) u w = (r, w') ->
    w' = w /\ (forall l, r = inr l -> l = take PAGE (List.filter undestroyed (bots u (w_db w))));
  paged_create u name channel w b w' : port_createBot (E := E) u name channel w = (inr b, w') -> bots u (w_db w') = bots u (w_db w) ++ [b];
  paged_get u id w r w' : port_getBot (E := E) u id w = (r, w') -> w' = w /\ (forall b, r = inr b -> List.find (sameBot id) (bots u (w_db w)) = Some b);
  paged_delete u id w w' : port_deleteBot (E := E) u id w = (inr tt, w') ->
    List.filter undestroyed (bots u (w_db w')) = List.filter (fun b => negb (sameBot id b)) (List.filter undestroyed (bots u (w_db w)));
  paged_before owner w r w' : hook_beforeBotCreate (E := E) owner w = (r, w') -> bots (bu_id owner) (w_db w') = bots (bu_id owner) (w_db w);
  paged_after u w r w' : hook_afterBotCreated (E := E) u w = (r, w') -> bots u (w_db w') = bots u (w_db w);
  paged_beforeDelete u id w r w' : hook_beforeBotDelete (E := E) u id w = (r, w') -> bots u (w_db w') = bots u (w_db w);
}.

Lemma filter_notIn (b : WebBot) l : ~ In (wb_id b) (List.map wb_id l) -> List.filter (fun x => negb (sameBot (wb_id b) x)) l = l.
Proof.
  induction l as [|x l IH]; cbn; [reflexivity|]. intros H. unfold sameBot at 1. destruct (str_eqb (wb_id x) (wb_id b)) eqn:Hx.
  - apply str_eqb_eq in Hx. tauto.
  - cbn. f_equal. apply IH. tauto.
Qed.

Section Paged.
Context {D E : Type} `{!BotOrchestratorPort D E, !BotLifecycleHooks D E} (bots : string -> D -> list WebBot).
Context `{!PagedOrchestrator D E bots}.
Implicit Types w : World D BotTracked.

(** The bots named one after the other are gone, in any order their rows come. *)
Lemma deleteEach u page rest w w' : NoDup (List.map wb_id (page ++ rest)) -> Forall (fun b => undestroyed b = true) page ->
  List.filter undestroyed (bots u (w_db w)) = page ++ rest ->
  forM page (fun bot => when negb (bool_decide (wb_status bot = I_destroyed)) do port_deleteBot (E := E) u (wb_id bot)) w = (inr tt, w') ->
  List.filter undestroyed (bots u (w_db w')) = rest.
Proof.
  revert w. induction page as [|b page IH]; intros w Hids Hlive Hbots Hrun; [injection Hrun as <-; exact Hbots|].
  cbn [forM] in Hrun. apply Forall_cons in Hlive as [Hb Hlive]. fold (undestroyed b) in Hrun. rewrite Hb in Hrun.
  apply bind_inv in Hrun as [(e & _ & H)|([] & w1 & Hdel & Hrun)]; [discriminate H|].
  cbn in Hids. apply NoDup_cons in Hids as [Hnew Hids]. apply (IH w1 Hids Hlive); [|exact Hrun].
  rewrite (paged_delete _ _ _ _ Hdel), Hbots. cbn. unfold sameBot at 1. rewrite str_eqb_refl. cbn.
  apply filter_notIn. intros H. apply Hnew, list_elem_of_In, H.
Qed.

(** Deleting an account's bots destroys those of the first page, and leaves the others. *)
Lemma deleteAll_first_page u w w' : NoDup (List.map wb_id (List.filter undestroyed (bots u (w_db w)))) ->
  deleteAllForUser (E := E) u w = (inr tt, w') ->
  List.filter undestroyed (bots u (w_db w')) = drop PAGE (List.filter undestroyed (bots u (w_db w))).
Proof.
  intros Hids Hrun. unfold deleteAllForUser in Hrun.
  apply bind_inv in Hrun as [(e & _ & H)|(page & w1 & Hlist & Hrun)]; [discriminate H|].
  apply paged_list in Hlist as [-> Hpage]. specialize (Hpage _ eq_refl). subst page.
  eapply deleteEach; [| |symmetry; apply take_drop|exact Hrun]; [rewrite take_drop; exact Hids|].
  apply Forall_take, Forall_forall. intros b Hb%list_elem_of_In. apply filter_In in Hb. tauto.
Qed.

Lemma account_bots_run (cancel : string -> M D BotTracked E unit) (refusal : E -> option string) u w w' :
  (forall w r w', cancel u w = (r, w') -> bots u (w_db w') = bots u (w_db w)) ->
  NoDup (List.map wb_id (List.filter undestroyed (bots u (w_db w)))) ->
  beforeDelete refusal cancel (deleteAllForUser (E := E)) u w = (inr tt, w') ->
  List.filter undestroyed (bots u (w_db w')) = drop PAGE (List.filter undestroyed (bots u (w_db w))).
Proof.
  intros Hcancel Hids. unfold beforeDelete. destruct (cancel u w) as [[e|[]] w1] eqn:Hc; [discriminate|].
  destruct (deleteAllForUser u w1) as [[e|[]] w2] eqn:Hd; [discriminate|]. intros [= ->].
  rewrite <- (Hcancel _ _ _ Hc) in Hids |- *. apply deleteAll_first_page; assumption.
Qed.

(** A refused cancellation, or a failed listing or deletion, aborts the deletion of the account:
    no bot is asked for before billing has let go. *)
Lemma refused_keeps_account (cancel deleteBots : string -> M D BotTracked E unit) (refusal : E -> option string) u w e w1 :
  cancel u w = (inl e, w1) ->
  beforeDelete refusal cancel deleteBots u w = (inl match refusal e with Some m => De_conflict m | None => De_thrown e end, w1).
Proof. intros H. unfold beforeDelete. rewrite H. reflexivity. Qed.

(** The orchestrator is asked to delete a bot only after its spend was charged, or when it has none left to read. *)
Lemma delete_after_charge u id w w' : deleteBot (E := E) u id w = (inr tt, w') ->
  exists b w1, List.find (sameBot id) (bots u (w_db w)) = Some b /\ port_deleteBot (E := E) u id w1 = (inr tt, w') /\
    ((oneOf GONE_BOT_STATUSES (wb_status b) = true /\ w1 = w) \/ hook_beforeBotDelete (E := E) u id w = (inr tt, w1)).
Proof.
  unfold deleteBot. intros [(e & _ & H)|(b & w0 & Hget & Hrun)]%bind_inv; [discriminate H|].
  apply paged_get in Hget as [-> Hget]. specialize (Hget _ eq_refl).
  apply bind_inv in Hrun as [(e & _ & H)|([] & w1 & Hhook & Hdel)]; [discriminate H|]. exists b, w1. split; [exact Hget|].
  split; [exact Hdel|]. destruct (oneOf _ _); [left; injection Hhook as <-; auto|right; exact Hhook].
Qed.

Definition activeBots (u : string) (d : D) : list WebBot := List.filter isActiveBot (bots u d).

(** With no more than a page of bots, an owner never has a second active bot by creating one. *)
Lemma one_active_bot owner name channel w b created w' : let u := bu_id owner in
  (length (List.filter undestroyed (bots u (w_db w))) <= PAGE)%nat -> (length (activeBots u (w_db w)) <= 1)%nat ->
  createBot (E := E) owner name channel w = (inr (b, created), w') ->
  (length (activeBots u (w_db w')) <= 1)%nat /\ In b (bots u (w_db w')) /\
  (created = false <-> activeBots u (w_db w) <> []) /\ (created = false -> w' = w).
Proof.
  intros u Hfew Hone. unfold createBot, findActiveBot.
  intros [(e & _ & H)|(a & w1 & Hfind & Hrun)]%bind_inv; [discriminate H|].
  apply bind_inv in Hfind as [(e & _ & H)|(page & w2 & Hlist & Hfind)]; [discriminate H|]. injection Hfind as <- <-.
  apply paged_list in Hlist as [-> Hpage]. specialize (Hpage _ eq_refl). fold u in Hpage. rewrite take_ge in Hpage by exact Hfew.
  destruct (List.find isActiveBot page) as [x|] eqn:Hx.
  - injection Hrun as <- <- <-. subst page. apply find_some in Hx as [Hin Hact]. apply filter_In in Hin as [Hin _].
    split_and!; [exact Hone|exact Hin| |reflexivity]. split; [|reflexivity]. intros _ Hnil.
    enough (In x (activeBots u (w_db w))) as H by (rewrite Hnil in H; exact H). apply filter_In. auto.
  - assert (Hnone : activeBots u (w_db w) = []).
    { unfold activeBots. destruct (List.filter isActiveBot _) as [|x l] eqn:Hl; [reflexivity|exfalso].
      assert (Hin : In x (List.filter isActiveBot (bots u (w_db w)))) by (rewrite Hl; left; reflexivity).
      apply filter_In in Hin as [Hin Hact]. enough (Hin' : In x page) by (apply (find_none _ _ Hx) in Hin'; congruence). subst page. apply filter_In. split; [exact Hin|].
      clear - Hact. unfold isActiveBot, oneOf, undestroyed in *. destruct (wb_status x); first [reflexivity | vm_compute in Hact; discriminate Hact]. }
    apply bind_inv in Hrun as [(e & _ & H)|([] & w3 & Hbefore & Hrun)]; [discriminate H|]. apply paged_before in Hbefore.
    apply bind_inv in Hrun as [(e & _ & H)|(y & w4 & Hcreate & Hrun)]; [discriminate H|]. apply paged_create in Hcreate.
    apply bind_inv in Hrun as [(e & _ & H)|([] & w5 & Htrack & Hrun)]; [discriminate H|]. injection Htrack as <-.
    apply bind_inv in Hrun as [(e & _ & H)|([] & w6 & Hafter & Hrun)]; [discriminate H|]. injection Hrun as <- <- <-.
    assert (Hbots : bots u (w_db w6) = bots u (w_db w) ++ [y]).
    { fold u in Hbefore, Hcreate, Hafter. rewrite <- Hbefore, <- Hcreate.
      apply catch_inv in Hafter as [(? & Hafter & _)|(e & w7 & Hafter & Hret)]; [|injection Hret as <-]; exact (paged_after _ _ _ _ Hafter). }
    split_and!.
    + unfold activeBots in *. rewrite Hbots, List.filter_app, Hnone. cbn. case_match; cbn; lia.
    + rewrite Hbots. apply in_or_app. right. left. reflexivity.
    + split; [discriminate|]. intros H. contradiction.
    + discriminate.
Qed.
End Paged.

(** ** One such orchestrator, for the examples: one owner's bots, in a list *)
Module Own.
Definition destroyBot (id : string) (b : WebBot) : WebBot :=
  if sameBot id b
  then mkWebBot (wb_id b) (wb_displayName b) I_destroyed None (wb_provisioningStage b) (wb_provisioningHistory b) (wb_pairingStatus b)
         (wb_whatsappAccountId b) (wb_hasWhatsappCreds b) (wb_lastSeenAt b) (wb_channels b)
  else b.
Definition ownBot (id : string) (status : InstanceStatus) : WebBot := mkWebBot id "bot" status None None [] P_none None false None [].

#[export] Instance port : BotOrchestratorPort (list WebBot) string := {
  port_listBots _ := fun w => (inr (take PAGE (List.filter undestroyed (w_db w))), w);
  port_createBot _ name _ := fun w =>
    let b := ownBot name I_provisioning in (inr b, mkWorld (w_db w ++ [b]) (w_env w) (w_now w) (w_calls w));
  port_getBot _ id := fun w => (match List.find (sameBot id) (w_db w) with Some b => inr b | None => inl "not found" end, w);
  port_deleteBot _ id := fun w => (inr tt, mkWorld (List.map (destroyBot id) (w_db w)) (w_env w) (w_now w) (w_calls w));
  port_restoreBackupUpload _ _ := throw "no archive";
}.
#[export] Instance hooks : BotLifecycleHooks (list WebBot) string := {
  hook_beforeBotCreate _ := ret tt; hook_afterBotCreated _ := throw "no ledger"; hook_beforeBotDelete _ _ := ret tt;
}.

Lemma filter_destroy id l : List.filter undestroyed (List.map (destroyBot id) l) = List.filter (fun b => negb (sameBot id b)) (List.filter undestroyed l).
Proof.
  induction l as [|b l IH]; [reflexivity|]. cbn [List.map List.filter]. unfold destroyBot at 1 2. destruct (sameBot id b) eqn:Hb.
  - unfold undestroyed at 1. cbn [wb_status]. rewrite bool_decide_true by reflexivity. cbn [negb]. rewrite IH. destruct (undestroyed b); [|reflexivity].
    cbn [List.filter]. rewrite Hb. reflexivity.
  - destruct (undestroyed b); [|exact IH]. cbn [List.filter]. rewrite Hb. cbn [negb]. rewrite IH. reflexivity.
Qed.

#[export] Instance paged : PagedOrchestrator (list WebBot) string (fun _ d => d).
Proof.
  split.
  - intros u w r w' [= <- <-]. split; [reflexivity|]. intros l [= <-]. reflexivity.
  - intros u name ch w b w' [= <- <-]. reflexivity.
  - intros u id w r w' [= <- <-]. split; [reflexivity|]. intros b H. destruct (List.find _ _); [congruence|discriminate].
  - intros u id w w' [= <-]. apply filter_destroy.
  - intros owner w r w' [= _ <-]. reflexivity.
  - intros u w r w' [= _ <-]. reflexivity.
  - intros u id w r w' [= _ <-]. reflexivity.
Qed.

Definition manyBots : list WebBot := List.map (fun n => ownBot (String "b" (String (ascii_of_nat n) EmptyString)) I_error) (seq 0 52).
End Own.

(** ** Properties *)
Import Own.

(** C34: An account is deleted only after its billing was cancelled and the deletion of its bots
    was asked for; the bots destroyed are those of the orchestrator's first page.  With up to
    fifty bots none is left; the bots past the fiftieth outlive the account. *)
Theorem account_bots_deleted {D E : Type} `{!BotOrchestratorPort D E, !BotLifecycleHooks D E} (bots : string -> D -> list WebBot)
  `{!PagedOrchestrator D E bots} (cancelBilling : string -> M D BotTracked E unit) (refusal : E -> option string)
  (userId : string) (w w' : World D BotTracked)
  (Hcancel : forall w r w', cancelBilling userId w = (r, w') -> bots userId (w_db w') = bots userId (w_db w))
  (Hids : NoDup (List.map wb_id (List.filter undestroyed (bots userId (w_db w)))))
  (Hrun : beforeDelete refusal cancelBilling (deleteAllForUser (E := E)) userId w = (inr tt, w')) :
  (exists w1, cancelBilling userId w = (inr tt, w1)) /\
  List.filter undestroyed (bots userId (w_db w')) = drop PAGE (List.filter undestroyed (bots userId (w_db w))) /\
  ((length (List.filter undestroyed (bots userId (w_db w))) <= PAGE)%nat <-> List.filter undestroyed (bots userId (w_db w')) = []).
Proof.
  assert (H := account_bots_run bots cancelBilling refusal userId w w' Hcancel Hids Hrun). split; [|split; [exact H|]].
  - unfold beforeDelete in Hrun. destruct (cancelBilling userId w) as [[e|[]] w1]; [discriminate|eauto].
  - rewrite H, <- length_zero_iff_nil, length_drop. lia.
Qed.

Definition manyWorld : World (list WebBot) BotTracked := mkWorld manyBots [] 0 [].
Definition afterMany : World (list WebBot) BotTracked :=
  Eval vm_compute in (beforeDelete (fun _ : string => None) (fun _ => ret tt) deleteAllForUser "user" manyWorld).2.

Lemma account_bots_deleted_witness :
  beforeDelete (fun _ : string => None) (fun _ => ret tt) deleteAllForUser "user" manyWorld = (inr tt, afterMany) /\
  List.filter undestroyed (w_db afterMany) = [ownBot (String "b" (String (ascii_of_nat 50) EmptyString)) I_error;
                                       ownBot (String "b" (String (ascii_of_nat 51) EmptyString)) I_error].
Proof.
  assert (Hrun : beforeDelete (fun _ : string => None) (fun _ => ret tt) deleteAllForUser "user" manyWorld = (inr tt, afterMany))
    by (vm_compute; reflexivity).
  assert (Hids : NoDup (List.map wb_id (List.filter undestroyed (w_db manyWorld)))) by (apply (bool_decide_unpack _); vm_compute; exact I).
  split; [exact Hrun|].
  refine (eq_trans (proj1 (proj2 (account_bots_deleted (fun _ d => d) (fun _ => ret tt) (fun _ => None) "user" manyWorld afterMany _ Hids Hrun))) _).
  - intros w r w1 [= _ <-]. reflexivity.
  - vm_compute. reflexivity.
Defined.


