(* ===== verification/ChannelProps.v ===== *)
(** One channel of a kind: what the code makes of a bot's channels.

    The lists a bot's channels go through, from its creation on, are the ones
    [channelsReach] builds out of the program's own edits: the create body, the patch of
    the dashboard, the owner's numbers, the access, the Telegram linker and the WhatsApp
    Business manager. *)
From S2P Require Import Prelude JsString Json Fleet IntegrationTypes FleetWorld InstanceManager OwnerAccess Linker.
From S2P Require Import RouteSchemas CloudManager.
From stdpp Require Import list strings.
#[local] Open Scope Z_scope.

Section Channels.
Context (wire : Wire).

Definition kinds (l : list ChannelConfig) : list string := List.map typeOfChannel l.

Inductive channelsReach : list ChannelConfig -> Prop :=
| Cr_create j input : CreateInstanceBody wire j = Some input -> channelsReach (applyChannelDefaults (ci_channels input))
| Cr_patch l j p given l' : channelsReach l -> PatchConfigBody wire j = Some p -> cp_channels p = Some given -> NoDup (kinds given) ->
    cp_channels (keepOrchestratorChannels l p) = Some l' -> channelsReach l'
| Cr_pair l number l' : channelsReach l -> withWhatsappOwnerNumber l number = Some l' -> channelsReach l'
| Cr_owner l patch id l' b : channelsReach l -> ownerChange patch id l = inr (Some l', b) -> channelsReach l'
| Cr_access l access id l' : channelsReach l -> accessChange access id l = inr (Some l') -> channelsReach l'
| Cr_telegram l update token : channelsReach l -> channelsReach (withTelegram (ownedTelegram update token) l)
| Cr_noTelegram l : channelsReach l -> channelsReach (stripTelegram l)
| Cr_business l c : channelsReach l -> findWhatsappCloudChannel l = None -> channelsReach (l ++ [Ch_whatsapp_cloud c])
| Cr_refresh l c : channelsReach l -> channelsReach (replaceWhatsappCloudChannel l c)
| Cr_noBusiness l : channelsReach l -> channelsReach (withoutCloud l).

(** ** Edits that keep the kinds *)
Lemma kinds_map (f : ChannelConfig -> ChannelConfig) l : (forall c, typeOfChannel (f c) = typeOfChannel c) -> kinds (List.map f l) = kinds l.
Proof. intros H. unfold kinds. rewrite List.map_map. apply List.map_ext, H. Qed.

Lemma kinds_defaults l : kinds (applyChannelDefaults l) = kinds l.
Proof. apply kinds_map. intros [| | |c|]; try reflexivity. destruct (wa_dmAccess c); reflexivity. Qed.

Lemma kinds_replaceWhatsapp l c : kinds (replaceWhatsappChannel l c) = kinds l.
Proof. apply kinds_map. intros []; reflexivity. Qed.

Lemma kinds_replaceCloud l c : kinds (replaceWhatsappCloudChannel l c) = kinds l.
Proof. apply kinds_map. intros []; reflexivity. Qed.

(** ** Edits that drop and add *)
Lemma kinds_filter p l : NoDup (kinds l) -> NoDup (kinds (List.filter p l)).
Proof.
  induction l as [|c l IH]; [auto|]. cbn [kinds List.map List.filter]. intros [Hc Hl]%NoDup_cons.
  destruct (p c); [|exact (IH Hl)]. cbn [List.map]. apply NoDup_cons. split; [|exact (IH Hl)].
  intros H. apply Hc. apply list_elem_of_In in H. apply list_elem_of_In. apply in_map_iff in H as [x [Hx Hi]]. apply filter_In in Hi as [Hi _].
  apply in_map_iff. exists x. auto.
Qed.

Lemma kinds_app l m : NoDup (kinds l) -> NoDup (kinds m) -> (forall c d, In c l -> In d m -> typeOfChannel c <> typeOfChannel d) ->
  NoDup (kinds (l ++ m)).
Proof.
  intros Hl Hm Hd. unfold kinds. rewrite List.map_app. apply NoDup_app. repeat split; [exact Hl | | exact Hm].
  intros x Hx Hy. apply list_elem_of_In, in_map_iff in Hx as [c [Hc Ic]]. apply list_elem_of_In, in_map_iff in Hy as [d [Hd' Id]].
  apply (Hd c d Ic Id). congruence.
Qed.

Lemma kinds_snoc l c : NoDup (kinds l) -> (forall d, In d l -> typeOfChannel d <> typeOfChannel c) -> NoDup (kinds (l ++ [c])).
Proof.
  intros Hl Hc. apply kinds_app; [exact Hl | apply NoDup_singleton |]. intros d x Hd [->|[]]. exact (Hc d Hd).
Qed.

(** A kind no channel of which is found is not there. *)
Lemma findMap_none {A B} (f : A -> option B) l a : findMap f l = None -> In a l -> f a = None.
Proof.
  induction l as [|x l IH]; [intros _ []|]. cbn [findMap]. destruct (f x) eqn:E; [discriminate|]. intros H [->|Hi]; [exact E | exact (IH H Hi)].
Qed.

Lemma findMap_only (f : ChannelConfig -> option _) kind (l : list ChannelConfig) ch (c : TelegramChannelConfig) :
  NoDup (kinds l) -> In ch l -> f ch = Some c -> typeOfChannel ch = kind -> (forall x, In x l -> f x <> None -> typeOfChannel x = kind) ->
  findMap f l = Some c.
Proof.
  intros Hn Hi Hf Hk Hu. induction l as [|x l IH]; [destruct Hi|]. cbn [findMap]. apply NoDup_cons in Hn as [Hx Hl].
  destruct Hi as [->|Hi]; [rewrite Hf; reflexivity|]. destruct (f x) eqn:E; [|apply IH; auto; intros y Hy; apply Hu; right; exact Hy].
  exfalso. apply Hx. apply list_elem_of_In, in_map_iff. exists ch. split; [|exact Hi]. rewrite Hk. symmetry. apply Hu; [left; reflexivity | congruence].
Qed.

Lemma kinds_pair l number l' : NoDup (kinds l) -> withWhatsappOwnerNumber l number = Some l' -> NoDup (kinds l').
Proof.
  intros Hl. unfold withWhatsappOwnerNumber. destruct (findWhatsappChannel l) eqn:E.
  - destruct (truthy number); [|discriminate]. destruct (ostr_eqb _ _); [discriminate|]. intros [= <-]. rewrite kinds_replaceWhatsapp. exact Hl.
  - intros [= <-]. rewrite kinds_defaults. apply kinds_snoc; [exact Hl|]. intros d Hd. apply (findMap_none _ _ _ E) in Hd. destruct d; easy.
Qed.

Lemma kinds_owner l patch id l' b : NoDup (kinds l) -> ownerChange patch id l = inr (Some l', b) -> NoDup (kinds l').
Proof.
  intros Hl. unfold ownerChange.
  destruct (match ou_whatsappNumber patch with Some _ => _ | None => _ end) as [e|first] eqn:E; [discriminate|].
  assert (Hfirst : kinds (default l first) = kinds l).
  { destruct (ou_whatsappNumber patch); [|injection E as <-; reflexivity]. unfold withWhatsappOwner in E.
    destruct (findWhatsappChannel l); [|discriminate]. destruct (normalizedOwnerNumber _ _); [discriminate|].
    destruct (ostr_eqb _ _); injection E as <-; [reflexivity | apply kinds_replaceWhatsapp]. }
  destruct (ou_businessNumber patch) as [n|].
  - destruct (withBusinessOwner _ n id) as [|[l2|]] eqn:E2; [discriminate | |intros [= -> _]; cbn in Hfirst; unfold kinds; rewrite Hfirst; exact Hl].
    intros [= -> _]. unfold withBusinessOwner in E2. destruct (findWhatsappCloudChannel _); [|discriminate].
    destruct (normalizedOwnerNumber _ _) as [|number]; [discriminate|].
    destruct (match number with Some _ => _ | None => _ end); [discriminate|]. destruct (ostr_eqb _ _); [discriminate|]. injection E2 as <-. rewrite kinds_replaceCloud, Hfirst. exact Hl.
  - intros [= -> _]. cbn in Hfirst. unfold kinds. rewrite Hfirst. exact Hl.
Qed.

Lemma kinds_access l access id l' : NoDup (kinds l) -> accessChange access id l = inr (Some l') -> NoDup (kinds l').
Proof.
  intros Hl. unfold accessChange. destruct (findWhatsappChannel l); [|discriminate]. destruct (bool_decide _); [discriminate|].
  intros [= <-]. rewrite kinds_replaceWhatsapp. exact Hl.
Qed.

Lemma kinds_patch l p given l' : NoDup (kinds l) -> cp_channels p = Some given -> NoDup (kinds given) ->
  cp_channels (keepOrchestratorChannels l p) = Some l' -> NoDup (kinds l').
Proof.
  intros Hl Hp Hg. unfold keepOrchestratorChannels. rewrite Hp. intros [= <-].
  apply kinds_app; [apply kinds_filter, Hg | apply kinds_filter, Hl |].
  intros c d Hc Hd. apply filter_In in Hc as [_ Hc]. apply filter_In in Hd as [_ Hd]. destruct c; destruct d; easy.
Qed.

(** The set of the create body has as many kinds as there are channels. *)
Lemma unique_length (l acc : list string) : (length (fold_left uniqueStep l acc) <= length acc + length l)%nat.
Proof.
  revert acc. induction l as [|x l IH]; intros acc; cbn [fold_left length]; [lia|]. specialize (IH (uniqueStep acc x)).
  assert (length (uniqueStep acc x) <= S (length acc))%nat by (unfold uniqueStep; destruct (List.existsb _ _); [lia | rewrite List.length_app; cbn; lia]).
  lia.
Qed.

Lemma unique_NoDup (l : list string) : forall acc, NoDup acc -> length (fold_left uniqueStep l acc) = (length acc + length l)%nat -> NoDup (acc ++ l).
Proof.
  induction l as [|x l IH]; intros acc Ha; cbn [fold_left length]; [rewrite app_nil_r; auto|]. intros Hl.
  pose proof (unique_length l (uniqueStep acc x)) as Hb. unfold uniqueStep in *. destruct (List.existsb (str_eqb x) acc) eqn:E; [lia|].
  replace (acc ++ x :: l) with ((acc ++ [x]) ++ l) by (rewrite <- app_assoc; reflexivity). apply IH; [|rewrite Hl, List.length_app; cbn; lia].
  apply NoDup_app. split; [exact Ha|]. split; [|apply NoDup_singleton]. intros y Hy Hx. apply list_elem_of_singleton in Hx as ->.
  apply list_elem_of_In in Hy. assert (List.existsb (str_eqb x) acc = true) by (apply existsb_exists; exists x; split; [exact Hy | apply String.eqb_refl]).
  congruence.
Qed.

Lemma create_kinds j input : CreateInstanceBody wire j = Some input -> NoDup (kinds (ci_channels input)).
Proof.
  unfold CreateInstanceBody. destruct (field "displayName" _ j); [|discriminate]. destruct (undefinedField "provider" _ j); [|discriminate].
  destruct (field "channels" _ j) as [l|] eqn:E; [|discriminate]. destruct (undefinedField "resources" _ j); [|discriminate]. intros [= <-]. cbn [ci_channels].
  unfold field in E. destruct j as [| | | | |fields]; try discriminate. destruct (lookupField "channels" fields) as [v|]; [|discriminate].
  unfold refine in E. destruct (arrayBetween 1 10 ChannelSchema v) as [l'|] eqn:Ea; [|discriminate].
  destruct (_ =? _)%nat eqn:Eu; [|discriminate]. injection E as <-. apply Nat.eqb_eq in Eu.
  apply (unique_NoDup (kinds l') []); [constructor|]. unfold unique in Eu. unfold kinds. rewrite List.length_map in *. exact Eu.
Qed.

(** C33: a bot has one channel of a kind: from its creation on, whatever the owner, the
    Telegram linker, a pairing and the WhatsApp Business manager make of its channels, no
    two are of the same kind, as long as the lists the dashboard patches in have none
    twice (the create body checks its own); so the Telegram channel that is found is the
    only one, and its token the one that is revoked. *)
Theorem one_channel_of_a_kind (l : list ChannelConfig) (Hl : channelsReach l) :
  NoDup (kinds l) /\ forall c, In (Ch_telegram c) l -> findTelegramChannel l = Some c.
Proof.
  assert (H : NoDup (kinds l)).
  { induction Hl as [j input H|l j p given l' _ IH _ Hp Hg H|l n l' _ IH H|l patch id l' b _ IH H|l access id l' _ IH H|l u t _ IH|l _ IH|l c _ IH Hf|l c _ IH|l _ IH].
    - rewrite kinds_defaults. exact (create_kinds _ _ H).
    - exact (kinds_patch _ _ _ _ IH Hp Hg H).
    - exact (kinds_pair _ _ _ IH H).
    - exact (kinds_owner _ _ _ _ _ IH H).
    - exact (kinds_access _ _ _ _ IH H).
    - apply kinds_snoc; [apply kinds_filter, IH|]. intros d Hd. apply filter_In in Hd as [_ Hd]. destruct d; easy.
    - apply kinds_filter, IH.
    - apply kinds_snoc; [exact IH|]. intros d Hd. apply (findMap_none _ _ _ Hf) in Hd. destruct d; easy.
    - rewrite kinds_replaceCloud. exact IH.
    - apply kinds_filter, IH. }
  split; [exact H|]. intros c Hi. apply (findMap_only _ "telegram" _ (Ch_telegram c)); [exact H | exact Hi | reflexivity | reflexivity |].
  intros x _. destruct x; cbn; congruence.
Qed.

End Channels.

(** ** A run *)
Definition simWire : Wire := mkWire (fun _ => None) (fun _ => true) (fun _ => true).
Definition createJson : Json := JObj [("displayName", JStr "Dana"); ("channels", JArr [JObj [("type", JStr "whatsapp")]; JObj [("type", JStr "telegram")]])].
Definition linkedUpdate : ManagedBotUpdated := mkManagedBot (mkTelegramUser 7 None) (mkTelegramUser 99 (Some "dana_bot")).

Lemma one_channel_of_a_kind_witness :
  findTelegramChannel (withTelegram (ownedTelegram linkedUpdate "99:token") [Ch_whatsapp (mkWhatsapp None (Some Dm_owner)); Ch_telegram (mkTelegram None None None None None)])
    = Some (mkTelegram (Some "99:token") (Some "dana_bot") (Some 99) (Some Tg_allowlist) (Some ["tg:7"])).
Proof.
  apply (one_channel_of_a_kind simWire).
  - apply Cr_telegram. exact (Cr_create simWire createJson _ eq_refl).
  - right. left. vm_compute. reflexivity.
Defined.

(** The patch does not check what the create body does: two Telegram channels get through,
    and the bot then has two tokens of which one is ever found. *)
Lemma patch_doubles_channel :
  let two := [JObj [("type", JStr "telegram"); ("botToken", JStr "1:a")]; JObj [("type", JStr "telegram"); ("botToken", JStr "2:b")]] in
  CreateInstanceBody simWire (JObj [("displayName", JStr "Dana"); ("channels", JArr two)]) = None /\
  option_map (fun p => kinds (default [] (cp_channels (keepOrchestratorChannels [] p)))) (PatchConfigBody simWire (JObj [("channels", JArr two)]))
    = Some ["telegram"; "telegram"].
Proof. vm_compute. split; reflexivity. Qed.
