(* ===== verification/RestoreArchive.v ===== *)
(** A bot's archive: what is taken of its files, and what of an archive is laid back into its
    volume.  The orchestrator's [services/agent-runtime/openclaw/backup.ts] and
    [hermes/backup.ts].

    An archive is the entries that [tar-stream] reads of it, with how the reading ends: at
    the end, or with an error of the stream.  What is written is the entries packed, in
    order, with how the packing ends.  A name is text of one byte a character. *)
From Stdlib Require Import Ascii.
From S2P Require Import Prelude JsString Domain Fleet RouteSchemas Substring.
From stdpp Require Import list strings.
#[local] Open Scope Z_scope.

Record RuntimeUser := mkUser { ru_uid : Z; ru_gid : Z; ru_uname : string; ru_gname : string }.
Definition OPENCLAW_USER : RuntimeUser := mkUser 1000 1000 "node" "node".
Definition HERMES_USER : RuntimeUser := mkUser 10000 10000 "hermes" "hermes".

(** tar-stream's [Headers], as far as they are read. *)
Record TarHeader := mkHeader {
  th_name : string;
  th_type : option string;
  th_size : option Z;
  th_linkname : option string;
  th_mode : Z;
  th_user : RuntimeUser;
}.
Record TarEntry := mkEntry { te_header : TarHeader; te_body : string }.

(** ** Names *)
Definition slash : ascii := "/"%char.
Definition segments (s : string) : list string := splitOn slash s.

(** [name.replace(/\\/g, "/")] *)
Definition forwardSlashes (s : string) : string := mapString (fun c => if Ascii.eqb c "\"%char then slash else c) s.

Fixpoint dropSlashes (s : string) : string :=
  match s with String c s' => if Ascii.eqb c slash then dropSlashes s' else s | EmptyString => EmptyString end.
(** [s.replace(/^\.\/+/, "")] *)
Definition dropDotSlash (s : string) : string :=
  match s with
  | String a (String b s') => if Ascii.eqb a "."%char && Ascii.eqb b slash then dropSlashes s' else s
  | _ => s
  end.
(** [/^[A-Za-z]:\//] *)
Definition isDrive (s : string) : bool :=
  match s with
  | String a (String b (String c _)) => isLower (lowerAscii a) && Ascii.eqb b ":"%char && Ascii.eqb c slash
  | _ => false
  end.
Definition hasNul (s : string) : bool := negb (allChars (fun c => negb (Ascii.eqb c "000"%char)) s).
Definition climbs (s : string) : bool := List.existsb (str_eqb "..") (segments s).
Definition isUnsafePath (s : string) : bool := startsWith "/" s || isDrive s || hasNul s || climbs s.

Definition isSafeLinkName (linkname : option string) : bool :=
  match linkname with
  | None | Some EmptyString => false
  | Some l => negb (isUnsafePath (forwardSlashes l))
  end.

Definition isSupportedArchiveEntry (h : TarHeader) : bool :=
  match th_type h with Some t => str_eqb t "file" || str_eqb t "directory" || str_eqb t "symlink" | None => false end.
Definition isType (t : string) (h : TarHeader) : bool := match th_type h with Some t' => str_eqb t' t | None => false end.
Definition isMetadataOnlyEntry (h : TarHeader) : bool := isType "directory" h || isType "symlink" h.

Definition topLevelOf (relative : string) : string := default "" (head (segments relative)).

(** ** openclaw/backup.ts *)
Definition OPENCLAW_MAX_BACKUP_BYTES : Z := 512 * 1024 * 1024.
Definition EXCLUDED_TOP_LEVEL_ENTRIES : list string := [".env"; "logs"; "npm"; "whatsapp-session"].
Definition ARCHIVE_STATE_PREFIX : string := "payload/posix/home/node/.openclaw/".
Definition BACKUP_TMP_PREFIX : string := "/tmp/openclaw-backup.".

(** [secret] of [stripSecretsScript]: what is left out of the archive the owner downloads. *)
Definition secret (name : string) : bool :=
  match cut ARCHIVE_STATE_PREFIX name with
  | Some (_, rest) => List.existsb (str_eqb (topLevelOf rest)) EXCLUDED_TOP_LEVEL_ENTRIES
  | None => false
  end.
Definition stripSecretsScript (archive : list TarEntry) : list TarEntry :=
  List.filter (fun e => negb (secret (th_name (te_header e)))) archive.

Section ArchiveFile.
(** [Number] of a text, when the result is a safe integer. *)
Context (safeInteger : string -> option Z).

Record ContainerArchiveFile := mkArchiveFile { af_path : string; af_sizeBytes : Z }.

(** [split(/\r?\n/)] *)
Definition dropCr (s : string) : string :=
  if endsWith (String "013" EmptyString) s then String.substring 0 (String.length s - 1) s else s.
Definition splitLines (s : string) : list string :=
  match splitOn "010"%char s with
  | [] => []
  | l => List.map dropCr (removelast l) ++ [List.last l EmptyString]
  end.

Definition parseArchiveFile (tmpPrefix : string) (maxBytes : Z) (output : string) : OrchError + ContainerArchiveFile :=
  match splitLines (trim output) with
  | path :: size :: _ =>
      match safeInteger size with
      | Some n =>
          if negb (startsWith tmpPrefix path) then inl (PlainError "invalid backup archive metadata")
          else if maxBytes <? n then inl (PlainError ("archive exceeds " +:+ Domain.str_of_Z maxBytes +:+ " bytes"))
          else inr (mkArchiveFile path n)
      | None => inl (PlainError "invalid backup archive metadata")
      end
  | _ => inl (PlainError "invalid backup archive metadata")
  end.
Definition parseOpenclawArchiveFile : string -> OrchError + ContainerArchiveFile :=
  parseArchiveFile BACKUP_TMP_PREFIX OPENCLAW_MAX_BACKUP_BYTES.
Definition parseHermesArchiveFile : string -> OrchError + ContainerArchiveFile :=
  parseArchiveFile "/tmp/hermes-backup." (512 * 1024 * 1024).
End ArchiveFile.

Definition isRuntimeArchiveEntry (name : string) : bool :=
  match segments (dropTrailingSlashes name) with
  | [root] => endsWith "-openclaw-backup" root
  | _ :: second :: _ => str_eqb second "manifest.json" || str_eqb second "payload"
  | [] => false
  end.

(** [None] is not of the state; [inl] is thrown. *)
Definition normalizeOpenclawEntryName (name : string) : OrchError + option string :=
  let normalized := dropDotSlash (forwardSlashes name) in
  if isUnsafePath normalized then inl (PlainError "backup archive contains an unsafe path") else
  match cut ARCHIVE_STATE_PREFIX normalized with
  | Some (_, rest) => inr (Some rest)
  | None =>
      if isRuntimeArchiveEntry normalized then inr None
      else if str_eqb normalized ".openclaw" || str_eqb normalized ".openclaw/" then inr (Some "")
      else inr (Some (default normalized (stripPrefix ".openclaw/" normalized)))
  end.
Definition shouldRestoreOpenclawEntry (relative : string) : bool :=
  negb (List.existsb (str_eqb (topLevelOf relative)) EXCLUDED_TOP_LEVEL_ENTRIES).

(** ** hermes/backup.ts *)
Definition HERMES_STATE_DIR : string := "data".
Definition normalizeHermesEntryName (name : string) : OrchError + option string :=
  let normalized := dropDotSlash (forwardSlashes name) in
  let withoutRoot :=
    if str_eqb normalized HERMES_STATE_DIR || str_eqb normalized (HERMES_STATE_DIR +:+ "/") then ""
    else default normalized (stripPrefix (HERMES_STATE_DIR +:+ "/") normalized) in
  if startsWith "/" normalized || isDrive normalized || hasNul withoutRoot || climbs withoutRoot
  then inl (PlainError "backup archive contains an unsafe path")
  else inr (Some withoutRoot).
Definition shouldRestoreHermesEntry (relative : string) : bool :=
  negb (List.existsb (str_eqb (topLevelOf relative)) [".env"; "logs"]).

(** ** Laying an archive back *)
Record Restore := mkRestore {
  rs_dir : string;
  rs_user : RuntimeUser;
  rs_maxEntries : Z;
  rs_maxBytes : Z;
  rs_normalize : string -> OrchError + option string;
  rs_restores : string -> bool;
}.

(** How the packing ends. *)
Inductive Packing :=
| Pk_open
| Pk_finalized
| Pk_destroyed (e : OrchError)
(** An exception out of the listener: this code neither ends nor destroys the stream. *)
| Pk_threw (e : OrchError).

Record RestoreState := mkRestoreState {
  rt_entries : Z;
  rt_totalBytes : Z;
  rt_packed : list TarEntry;
  rt_packing : Packing;
}.

Definition packed (e : TarEntry) (s : RestoreState) : RestoreState :=
  mkRestoreState (rt_entries s) (rt_totalBytes s) (rt_packed s ++ [e]) (rt_packing s).
Definition failed (e : OrchError) (s : RestoreState) : RestoreState :=
  mkRestoreState (rt_entries s) (rt_totalBytes s) (rt_packed s) (Pk_destroyed e).
Definition threw (e : OrchError) (s : RestoreState) : RestoreState :=
  mkRestoreState (rt_entries s) (rt_totalBytes s) (rt_packed s) (Pk_threw e).
Definition countEntry (s : RestoreState) : RestoreState :=
  mkRestoreState (rt_entries s + 1) (rt_totalBytes s) (rt_packed s) (rt_packing s).
Definition weighed (n : Z) (s : RestoreState) : RestoreState :=
  mkRestoreState (rt_entries s) (rt_totalBytes s + n) (rt_packed s) (rt_packing s).

Section Rewrap.
Context (r : Restore).

(** The entry the archive begins with. *)
Definition leadingEntry : TarEntry :=
  mkEntry (mkHeader (rs_dir r +:+ "/") (Some "directory") None None 493 (rs_user r)) "".

(** [{ ...header, name, ...USER }] *)
Definition mappedHeader (h : TarHeader) (relative : string) : TarHeader :=
  mkHeader (rs_dir r +:+ "/" +:+ relative) (th_type h) (th_size h) (th_linkname h) (th_mode h) (rs_user r).

Definition packEntry (h : TarHeader) (body relative : string) (s : RestoreState) : RestoreState :=
  if isType "symlink" h && negb (isSafeLinkName (th_linkname h)) then s
  else packed (mkEntry (mappedHeader h relative) (if isMetadataOnlyEntry h then "" else body)) s.

(** The listener of an entry. *)
Definition onEntry (e : TarEntry) (s : RestoreState) : RestoreState :=
  let h := te_header e in
  let s := countEntry s in
  if rs_maxEntries r <? rt_entries s then failed (PlainError "backup archive contains too many entries") s
  else if negb (isSupportedArchiveEntry h) then
    failed (PlainError ("backup archive contains unsupported entry type " +:+ default "null" (th_type h))) s
  else
    match rs_normalize r (th_name h) with
    | inl error => threw error s
    | inr None => s
    | inr (Some relative) =>
        if negb (rs_restores r relative) then s
        else if isType "file" h then
          let s := weighed (default 0 (th_size h)) s in
          if rs_maxBytes r <? rt_totalBytes s then failed (PlainError "backup archive expands beyond restore limit") s
          else packEntry h (te_body e) relative s
        else packEntry h (te_body e) relative s
    end.

(** What follows the end of the packing is not read. *)
Definition step (s : RestoreState) (e : TarEntry) : RestoreState :=
  match rt_packing s with Pk_open => onEntry e s | _ => s end.

(** [ending]: the error the stream breaks with, if it does. *)
Definition rewrapStateTarGzip (archive : list TarEntry) (ending : option OrchError) : RestoreState :=
  let s := fold_left step archive (mkRestoreState 0 0 [leadingEntry] Pk_open) in
  match rt_packing s with
  | Pk_open =>
      match ending with
      | Some e => failed e s
      | None => mkRestoreState (rt_entries s) (rt_totalBytes s) (rt_packed s) Pk_finalized
      end
  | _ => s
  end.
End Rewrap.

(** The OpenClaw archive's own root directory is given by the leading entry. *)
Definition openclawRestore : Restore :=
  mkRestore ".openclaw" OPENCLAW_USER 50000 (1024 * 1024 * 1024) normalizeOpenclawEntryName
    (fun relative => negb (str_eqb relative "") && shouldRestoreOpenclawEntry relative).
Definition rewrapOpenclawStateTarGzip : list TarEntry -> option OrchError -> RestoreState := rewrapStateTarGzip openclawRestore.
Definition hermesRestore : Restore :=
  mkRestore HERMES_STATE_DIR HERMES_USER 50000 (1024 * 1024 * 1024) normalizeHermesEntryName shouldRestoreHermesEntry.
Definition rewrapHermesStateTarGzip : list TarEntry -> option OrchError -> RestoreState := rewrapStateTarGzip hermesRestore.

(** ** Where a path leads *)
(** The lookup of a path from the directory [cur], whose links are [links]: an absolute link
    starts at the root of the file system, and [..] above where the archive is laid leaves it. *)
Inductive Place := Within (path : list string) | Outside | TooManyLinks.

Fixpoint follow (fuel : nat) (links : list string -> option string) (cur todo : list string) : Place :=
  match fuel with
  | O => TooManyLinks
  | S fuel =>
      match todo with
      | [] => Within cur
      | seg :: todo =>
          if str_eqb seg "" || str_eqb seg "." then follow fuel links cur todo
          else if str_eqb seg ".." then match cur with [] => Outside | _ => follow fuel links (removelast cur) todo end
          else
            match links (cur ++ [seg]) with
            | Some target => if startsWith "/" target then Outside else follow fuel links cur (segments target ++ todo)
            | None => follow fuel links (cur ++ [seg]) todo
            end
      end
  end.

Definition restoreOf (kind : AgentRuntimeKind) : Restore := match kind with Openclaw => openclawRestore | Hermes => hermesRestore end.

(** What every entry written is. *)
Definition laid (r : Restore) (e : TarEntry) : Prop :=
  exists relative, th_name (te_header e) = rs_dir r +:+ "/" +:+ relative /\ climbs relative = false /\
  rs_user r = th_user (te_header e) /\ isSupportedArchiveEntry (te_header e) = true /\
  (isType "symlink" (te_header e) = true -> isSafeLinkName (th_linkname (te_header e)) = true).

Definition fileBytes (e : TarEntry) : Z := if isType "file" (te_header e) then default 0 (th_size (te_header e)) else 0.

(** [rt_packed] at any time, also of a packing that fails. *)
Record Laying (r : Restore) (s : RestoreState) : Prop := {
  ly_entries : Forall (laid r) (rt_packed s);
  ly_count : Z.of_nat (length (rt_packed s)) <= rs_maxEntries r + 1;
  ly_bytes : sumZ fileBytes (rt_packed s) <= rs_maxBytes r;
  ly_open : rt_packing s = Pk_open ->
    Z.of_nat (length (rt_packed s)) <= rt_entries s + 1 /\ sumZ fileBytes (rt_packed s) = rt_totalBytes s;
}.

(** ** Segments *)
Lemma splitOn_sep c x y : splitOn c (x +:+ String c y) = splitOn c x ++ splitOn c y.
Proof.
  induction x as [|a x IH].
  - rewrite append_nil_l. cbn [splitOn]. rewrite Ascii.eqb_refl. reflexivity.
  - rewrite append_cons. cbn [splitOn]. rewrite IH. destruct (Ascii.eqb a c); [reflexivity|].
    destruct (splitOn c x) eqn:E; [|reflexivity].
    exfalso. destruct x as [|b x]; cbn [splitOn] in E; [discriminate|]. destruct (Ascii.eqb b c); [discriminate|].
    destruct (splitOn c x); discriminate.
Qed.

Lemma climbs_join x y : climbs (x +:+ "/" +:+ y) = climbs x || climbs y.
Proof. unfold climbs, segments. change ("/" +:+ y) with (String slash y). rewrite splitOn_sep, existsb_app. reflexivity. Qed.

Definition consHead (c : ascii) (l : list string) : list string :=
  match l with [] => [String c EmptyString] | p :: ps => String c p :: ps end.
Lemma splitOn_cons sep c s : splitOn sep (String c s) = if Ascii.eqb c sep then EmptyString :: splitOn sep s else consHead c (splitOn sep s).
Proof. reflexivity. Qed.
Lemma splitOn_some sep s : splitOn sep s <> [].
Proof. destruct s as [|c s]; [discriminate|]. rewrite splitOn_cons. destruct (Ascii.eqb c sep); [discriminate|]. destruct (splitOn sep s); discriminate. Qed.
Lemma consHead_app c l l' : l <> [] -> consHead c (l ++ l') = consHead c l ++ l'.
Proof. destruct l; [congruence|reflexivity]. Qed.

(** The segments of a converted text are those of its segments, converted. *)
Lemma segments_forward l : segments (forwardSlashes l) = flat_map (fun g => segments (forwardSlashes g)) (segments l).
Proof.
  unfold segments, forwardSlashes. set (f := fun c : ascii => if Ascii.eqb c "\"%char then slash else c).
  induction l as [|c l IH]; [reflexivity|]. cbn [mapString]. rewrite !splitOn_cons, IH.
  destruct (Ascii.eqb_spec c slash) as [->|Hc]; [reflexivity|].
  destruct (splitOn slash l) as [|p ps] eqn:E; [destruct (splitOn_some _ _ E)|]. cbn [flat_map consHead mapString].
  rewrite splitOn_cons. destruct (Ascii.eqb (f c) slash); [reflexivity|]. apply consHead_app, splitOn_some.
Qed.

Lemma climbs_forward l : climbs (forwardSlashes l) = false -> climbs l = false.
Proof.
  unfold climbs. rewrite segments_forward. destruct (List.existsb (str_eqb "..") (segments l)) eqn:E; [|reflexivity].
  intros H. apply existsb_exists in E as (g & Hg & Eg). apply str_eqb_eq in Eg. subst g. rewrite <- H. symmetry. apply existsb_exists.
  exists "..". split; [|reflexivity]. apply in_flat_map. exists "..". split; [exact Hg|]. left. reflexivity.
Qed.

Lemma safe_link t : isSafeLinkName (Some t) = true -> startsWith "/" t = false /\ climbs t = false.
Proof.
  intros H. destruct t as [|c t]; [discriminate H|]. unfold isSafeLinkName in H. apply negb_true_iff in H. unfold isUnsafePath in H.
  apply orb_false_elim in H as [H Hc]. apply orb_false_elim in H as [H _]. apply orb_false_elim in H as [Hs _].
  split; [|apply climbs_forward, Hc].
  unfold startsWith, forwardSlashes in *. cbn [stripPrefix mapString] in *. destruct (Ascii.eqb_spec "/" c) as [<-|]; [discriminate Hs|reflexivity].
Qed.

Lemma climbs_in s : climbs s = false -> Forall (fun g => str_eqb g ".." = false) (segments s).
Proof.
  unfold climbs. intros H. apply Forall_forall. intros g Hg. destruct (str_eqb g "..") eqn:E; [|reflexivity].
  apply str_eqb_eq in E. subst g. apply list_elem_of_In in Hg.
  assert (List.existsb (str_eqb "..") (segments s) = true) by (apply existsb_exists; exists ".."; split; [exact Hg|reflexivity]). congruence.
Qed.

(** ** A lookup that does not leave *)
Lemma follow_stays links : (forall at_ t, links at_ = Some t -> isSafeLinkName (Some t) = true) ->
  forall fuel cur todo, Forall (fun g => str_eqb g ".." = false) todo -> follow fuel links cur todo <> Outside.
Proof.
  intros Hl. induction fuel as [|fuel IH]; intros cur todo Ht; [discriminate|]. cbn [follow].
  destruct Ht as [|g todo Hg Ht]; [discriminate|]. destruct (_ || _); [apply IH, Ht|]. rewrite Hg.
  destruct (links (cur ++ [g])) as [t|] eqn:E; [|apply IH, Ht].
  destruct (safe_link t (Hl _ _ E)) as [-> Hc]. apply IH, Forall_app. split; [apply climbs_in, Hc|exact Ht].
Qed.

Lemma follow_plain : forall todo cur, Forall (fun g => str_eqb g ".." = false) todo ->
  exists rest, follow (S (length todo)) (fun _ => None) cur todo = Within (cur ++ rest).
Proof.
  induction todo as [|g todo IH]; intros cur H; [exists []; rewrite app_nil_r; reflexivity|].
  apply Forall_cons in H as [Hg H]. change (length (g :: todo)) with (S (length todo)). set (fuel := S (length todo)) in *.
  cbn [follow]. destruct (_ || _); [apply IH, H|]. rewrite Hg. destruct (IH (cur ++ [g]) H) as [rest ->]. exists (g :: rest). rewrite <- app_assoc. reflexivity.
Qed.

(** ** What is laid *)
Lemma normalize_openclaw name relative : normalizeOpenclawEntryName name = inr (Some relative) -> climbs relative = false.
Proof.
  unfold normalizeOpenclawEntryName. cbv zeta. set (n := dropDotSlash (forwardSlashes name)). destruct (isUnsafePath n) eqn:Hu; [discriminate|].
  assert (Hn : climbs n = false) by (unfold isUnsafePath in Hu; apply orb_false_elim in Hu; tauto).
  destruct (cut ARCHIVE_STATE_PREFIX n) as [[a b]|] eqn:Ec.
  - intros [= <-]. apply cut_app in Ec. assert (En : n = (a +:+ "payload/posix/home/node/.openclaw") +:+ "/" +:+ b) by (rewrite append_assoc_; exact Ec).
    rewrite En, climbs_join in Hn. apply orb_false_elim in Hn. tauto.
  - destruct (isRuntimeArchiveEntry n); [discriminate|]. destruct (_ || _); [intros [= <-]; reflexivity|].
    destruct (stripPrefix ".openclaw/" n) as [rest|] eqn:Es; intros [= <-]; [|exact Hn].
    apply stripPrefix_iff in Es. change (n = ".openclaw" +:+ "/" +:+ rest) in Es. rewrite Es, climbs_join in Hn. apply orb_false_elim in Hn. tauto.
Qed.

Lemma normalize_hermes name relative : normalizeHermesEntryName name = inr (Some relative) -> climbs relative = false.
Proof.
  unfold normalizeHermesEntryName. cbv zeta. destruct (_ || climbs _) eqn:E; [discriminate|]. intros [= <-]. apply orb_false_elim in E. tauto.
Qed.

Lemma normalize_climbs kind name relative : rs_normalize (restoreOf kind) name = inr (Some relative) -> climbs relative = false.
Proof. destruct kind; [apply normalize_openclaw | apply normalize_hermes]. Qed.

Section Laid.
Context (r : Restore) (Hr : forall name relative, rs_normalize r name = inr (Some relative) -> climbs relative = false)
  (Hmax : 0 <= rs_maxEntries r /\ 0 <= rs_maxBytes r).

Lemma sumZ_snoc (l : list TarEntry) e : sumZ fileBytes (l ++ [e]) = sumZ fileBytes l + fileBytes e.
Proof. rewrite sumZ_app. unfold sumZ at 2. cbn [List.map fold_right foldr]. lia. Qed.

Lemma pack_laid h body relative s : isSupportedArchiveEntry h = true -> climbs relative = false ->
  rt_packing s = Pk_open -> Forall (laid r) (rt_packed s) ->
  Z.of_nat (length (rt_packed s)) <= rt_entries s -> rt_entries s <= rs_maxEntries r ->
  sumZ fileBytes (rt_packed s) + (if isType "file" h then default 0 (th_size h) else 0) = rt_totalBytes s -> rt_totalBytes s <= rs_maxBytes r ->
  Laying r (packEntry r h body relative s).
Proof.
  intros Hsup Hc Hop Hf Hn Hmx Hb Hby. unfold packEntry. destruct (isType "symlink" h && negb (isSafeLinkName (th_linkname h))) eqn:El.
  - assert (Ef : isType "file" h = false).
    { apply andb_prop in El as [El _]. unfold isType in *. destruct (th_type h) as [t|]; [|reflexivity]. apply str_eqb_eq in El. subst t. reflexivity. }
    rewrite Ef, Z.add_0_r in Hb. constructor; [exact Hf | lia | lia | intros _; split; lia].
  - assert (He : fileBytes (mkEntry (mappedHeader r h relative) (if isMetadataOnlyEntry h then "" else body)) = if isType "file" h then default 0 (th_size h) else 0) by reflexivity.
    constructor; cbn [packed rt_packed rt_entries rt_totalBytes rt_packing].
    + apply Forall_app. split; [exact Hf|]. constructor; [|constructor]. exists relative. repeat split; try assumption.
      intros Hs. change (isType "symlink" h = true) in Hs. rewrite Hs in El. cbn [andb] in El. apply negb_false_iff, El.
    + rewrite length_app. cbn [length]. lia.
    + rewrite sumZ_snoc, He. lia.
    + intros _. rewrite length_app, sumZ_snoc, He. cbn [length]. lia.
Qed.

Lemma step_laid s e : Laying r s -> Laying r (step r s e).
Proof.
  intros [Hf Hn Hb Ho]. unfold step. destruct (rt_packing s) eqn:Ep; try (constructor; try assumption; congruence).
  destruct (Ho eq_refl) as [Hn' Hb']. unfold onEntry. cbv zeta. cbn [countEntry rt_entries].
  destruct (Z.ltb_spec (rs_maxEntries r) (rt_entries s + 1)); [constructor; [exact Hf | exact Hn | exact Hb | discriminate]|].
  destruct (isSupportedArchiveEntry (te_header e)) eqn:Es; cbn [negb]; [|constructor; [exact Hf | exact Hn | exact Hb | discriminate]].
  assert (Hskip : Laying r (countEntry s)) by (constructor; cbn [countEntry rt_packed rt_entries rt_totalBytes]; [exact Hf | exact Hn | exact Hb | intros _; lia]).
  destruct (rs_normalize r _) as [er|[relative|]] eqn:En; [constructor; [exact Hf | exact Hn | exact Hb | discriminate]| |exact Hskip].
  destruct (rs_restores r relative); cbn [negb]; [|exact Hskip]. apply Hr in En.
  destruct (isType "file" (te_header e)) eqn:Ef; cbn [weighed countEntry rt_totalBytes].
  - destruct (Z.ltb_spec (rs_maxBytes r) (rt_totalBytes s + default 0 (th_size (te_header e)))); [constructor; [exact Hf | exact Hn | exact Hb | discriminate]|].
    apply pack_laid; cbn [weighed countEntry rt_packed rt_entries rt_totalBytes rt_packing]; rewrite ?Ef; try assumption; lia.
  - apply pack_laid; cbn [weighed countEntry rt_packed rt_entries rt_totalBytes rt_packing]; rewrite ?Ef; try assumption; lia.
Qed.

Lemma steps_laid archive : forall s, Laying r s -> Laying r (fold_left (step r) archive s).
Proof. induction archive as [|e archive IH]; intros s H; [exact H|]. apply IH, step_laid, H. Qed.

Lemma rewrap_laid archive ending : Laying r (rewrapStateTarGzip r archive ending).
Proof.
  assert (H0 : Laying r (mkRestoreState 0 0 [leadingEntry r] Pk_open)).
  { constructor; cbn [rt_packed rt_entries rt_totalBytes length].
    - constructor; [|constructor]. exists "". repeat split; try reflexivity. discriminate.
    - lia.
    - change (sumZ fileBytes [leadingEntry r]) with 0. lia.
    - intros _. split; [lia|reflexivity]. }
  pose proof (steps_laid archive _ H0) as H. unfold rewrapStateTarGzip. cbv zeta.
  destruct (rt_packing _) eqn:Ep; [|exact H ..]. destruct H as [Hf Hn Hb _]. destruct ending; constructor; try assumption; discriminate.
Qed.
End Laid.

(** ** What is restored of an archive that is accepted *)
Definition restored (r : Restore) (e : TarEntry) : list TarEntry :=
  let h := te_header e in
  match rs_normalize r (th_name h) with
  | inr (Some relative) =>
      if rs_restores r relative && negb (isType "symlink" h && negb (isSafeLinkName (th_linkname h)))
      then [mkEntry (mappedHeader r h relative) (if isMetadataOnlyEntry h then "" else te_body e)]
      else []
  | _ => []
  end.
Definition acceptable (r : Restore) (e : TarEntry) : bool :=
  isSupportedArchiveEntry (te_header e) && (0 <=? default 0 (th_size (te_header e))) &&
  match rs_normalize r (th_name (te_header e)) with inr _ => true | inl _ => false end.

Lemma restored_bytes r e : 0 <= default 0 (th_size (te_header e)) -> 0 <= sumZ fileBytes (restored r e).
Proof.
  intros H. unfold restored. destruct (rs_normalize r _) as [er|[relative|]]; [apply Z.le_refl| |apply Z.le_refl].
  destruct (_ && _); [|apply Z.le_refl]. apply sumZ_nonneg. intros x [<-|[]]. unfold fileBytes. cbn [te_header mappedHeader th_size].
  destruct (isType _ _); lia.
Qed.

Lemma step_accepts r e n b l : acceptable r e = true -> n + 1 <= rs_maxEntries r ->
  b + sumZ fileBytes (restored r e) <= rs_maxBytes r ->
  step r (mkRestoreState n b l Pk_open) e = mkRestoreState (n + 1) (b + sumZ fileBytes (restored r e)) (l ++ restored r e) Pk_open.
Proof.
  intros Ha Hn Hb. unfold acceptable in Ha. apply andb_prop in Ha as [Ha Hnorm]. apply andb_prop in Ha as [Hs _].
  unfold step, onEntry, packEntry. cbn [rt_packing]. cbv zeta. cbn [countEntry rt_entries]. rewrite (proj2 (Z.ltb_ge _ _) Hn), Hs. cbn [negb].
  unfold restored in *. destruct (rs_normalize r _) as [er|[relative|]]; [discriminate| |unfold countEntry; cbn [rt_entries rt_totalBytes rt_packed rt_packing]; rewrite app_nil_r; f_equal; change (sumZ fileBytes []) with 0; lia].
  destruct (rs_restores r relative); cbn [negb andb] in *; [|unfold countEntry; cbn [rt_entries rt_totalBytes rt_packed rt_packing]; rewrite app_nil_r; f_equal; change (sumZ fileBytes []) with 0; lia].
  set (link := isType "symlink" (te_header e) && negb (isSafeLinkName (th_linkname (te_header e)))) in *.
  assert (Hfl : isType "file" (te_header e) = true -> link = false).
  { intros Ef. unfold link, isType in *. destruct (th_type (te_header e)) as [t|]; [|discriminate]. apply str_eqb_eq in Ef. subst t. reflexivity. }
  assert (Es : forall x y, sumZ fileBytes [mkEntry (mappedHeader r (te_header e) x) y] = if isType "file" (te_header e) then default 0 (th_size (te_header e)) else 0).
  { intros x y. unfold sumZ, fileBytes. cbn [List.fold_right te_header]. change (isType "file" (mappedHeader r (te_header e) x)) with (isType "file" (te_header e)). cbn [mappedHeader th_size]. lia. }
  destruct (isType "file" (te_header e)).
  - rewrite (Hfl eq_refl) in *. cbn [negb] in *. rewrite Es in *. unfold weighed, countEntry, packed. cbn [rt_entries rt_totalBytes rt_packed rt_packing].
    rewrite (proj2 (Z.ltb_ge _ _) Hb). reflexivity.
  - destruct link; cbn [negb] in *; [rewrite app_nil_r|rewrite Es in *]; unfold countEntry, packed; cbn [rt_entries rt_totalBytes rt_packed rt_packing]; f_equal; change (sumZ fileBytes []) with 0; lia.
Qed.

Lemma steps_accept r : forall archive n b l, forallb (acceptable r) archive = true -> n + Z.of_nat (length archive) <= rs_maxEntries r ->
  b + sumZ fileBytes (flat_map (restored r) archive) <= rs_maxBytes r ->
  fold_left (step r) archive (mkRestoreState n b l Pk_open)
  = mkRestoreState (n + Z.of_nat (length archive)) (b + sumZ fileBytes (flat_map (restored r) archive)) (l ++ flat_map (restored r) archive) Pk_open.
Proof.
  induction archive as [|e archive IH]; intros n b l Ha Hn Hb.
  - cbn [fold_left flat_map length]. rewrite app_nil_r. f_equal; [|change (sumZ fileBytes []) with 0]; lia.
  - cbn [forallb] in Ha. apply andb_prop in Ha as [He Ha]. cbn [flat_map length] in *. rewrite sumZ_app in *. 
    assert (Hrest : 0 <= sumZ fileBytes (flat_map (restored r) archive)).
    { clear -Ha. induction archive as [|x archive IH]; [apply Z.le_refl|]. cbn [forallb] in Ha. apply andb_prop in Ha as [Hx Ha].
      cbn [flat_map]. rewrite sumZ_app. unfold acceptable in Hx. apply andb_prop in Hx as [Hx _]. apply andb_prop in Hx as [_ Hx].
      apply Z.leb_le, (restored_bytes r) in Hx. specialize (IH Ha). lia. }
    cbn [fold_left]. rewrite step_accepts by (assumption || lia). rewrite IH by (assumption || lia). rewrite <- app_assoc. f_equal; lia.
Qed.

(** C19: what of an archive gets into a bot's volume: whatever the archive holds and however
    its stream ends, each entry written is a file, a directory or a link owned by the
    bot's user, at a path inside the state directory, and they stay within the limits of
    number and size; and also through the links of the archive, wherever they end up, no
    path of it leads out of the directory it is laid in. *)
Theorem restore_confined (kind : AgentRuntimeKind) (archive : list TarEntry) (ending : option OrchError) :
  let r := restoreOf kind in
  let out := rt_packed (rewrapStateTarGzip r archive ending) in
  Forall (fun e => isSupportedArchiveEntry (te_header e) = true /\ th_user (te_header e) = rs_user r /\
    exists rest, follow (S (length (segments (th_name (te_header e))))) (fun _ => None) [] (segments (th_name (te_header e)))
      = Within (rs_dir r :: rest)) out /\
  Z.of_nat (length out) <= 50001 /\ sumZ fileBytes out <= 1073741824 /\
  forall links, (forall at_ t, links at_ = Some t -> exists e, In e out /\ isType "symlink" (te_header e) = true /\ th_linkname (te_header e) = Some t) ->
  forall e fuel, In e out -> follow fuel links [] (segments (th_name (te_header e))) <> Outside.
Proof.
  cbv zeta. set (r := restoreOf kind). set (s := rewrapStateTarGzip r archive ending).
  assert (Hd : segments (rs_dir r) = [rs_dir r] /\ str_eqb (rs_dir r) "" || str_eqb (rs_dir r) "." = false /\ str_eqb (rs_dir r) ".." = false)
    by (destruct kind; repeat split).
  assert (Hmx : rs_maxEntries r = 50000 /\ rs_maxBytes r = 1073741824) by (destruct kind; split; reflexivity).
  assert (Hl : Laying r s) by (apply rewrap_laid; [apply normalize_climbs | destruct kind; split; discriminate]).
  assert (Hsegs : forall e, laid r e -> exists todo, segments (th_name (te_header e)) = rs_dir r :: todo /\ Forall (fun g => str_eqb g ".." = false) todo).
  { intros e (relative & -> & Hc & _). exists (segments relative). split; [|apply climbs_in, Hc].
    unfold segments. change ("/" +:+ relative) with (String slash relative). rewrite splitOn_sep. fold (segments (rs_dir r)).
    rewrite (proj1 Hd). reflexivity. }
  destruct Hd as (_ & Hd1 & Hd2). destruct Hmx as [Hm1 Hm2]. destruct Hl as [Hf Hn Hb _].
  repeat split; [| lia | lia |].
  - eapply Forall_impl; [exact Hf|]. intros e He. destruct (Hsegs e He) as (todo & -> & Ht). destruct He as (_ & _ & _ & Hu & Hs & _).
    split; [exact Hs|]. split; [congruence|]. destruct (follow_plain todo [rs_dir r] Ht) as [rest Hrest]. exists rest.
    set (fuel := length (rs_dir r :: todo)). cbn [follow]. rewrite Hd1, Hd2. exact Hrest.
  - intros links Hlinks e fuel He. rewrite Forall_forall in Hf.
    destruct (Hsegs e (Hf e (proj2 (list_elem_of_In _ _) He))) as (todo & -> & Ht). apply follow_stays; [|constructor; [exact Hd2|exact Ht]].
    intros at_ t Ht'. destruct (Hlinks _ _ Ht') as (l & Hin & Hsym & Hlink).
    destruct (Hf l (proj2 (list_elem_of_In _ _) Hin)) as (_ & _ & _ & _ & _ & Hsafe). rewrite <- Hlink. apply Hsafe, Hsym.
Qed.

Definition simEntry (name type : string) (linkname : option string) (body : string) : TarEntry :=
  mkEntry (mkHeader name (Some type) (Some (Z.of_nat (String.length body))) linkname 420 (mkUser 0 0 "root" "root")) body.
Definition simArchive : list TarEntry :=
  [simEntry "./openclaw.json" "file" None "{}"; simEntry "./.env" "file" None "SECRET=1";
   simEntry "./workspace/" "directory" None ""; simEntry "./workspace/latest" "symlink" (Some "../../etc") "";
   simEntry "./workspace/here" "symlink" (Some "notes.md") ""; simEntry "./workspace/notes.md" "file" None "hello"].

Lemma restore_confined_witness :
  let out := rt_packed (rewrapOpenclawStateTarGzip simArchive None) in
  List.map (fun e => th_name (te_header e)) out
  = [".openclaw/"; ".openclaw/openclaw.json"; ".openclaw/workspace/"; ".openclaw/workspace/here"; ".openclaw/workspace/notes.md"] /\
  forall e fuel, In e out ->
    follow fuel (fun p => if decide (p = [".openclaw"; "workspace"; "here"]) then Some "notes.md" else None) [] (segments (th_name (te_header e))) <> Outside.
Proof.
  split; [vm_compute; reflexivity|]. destruct (restore_confined Openclaw simArchive None) as (_ & _ & _ & H). apply H.
  intros at_ t. destruct (decide _); [|discriminate]. intros [= <-].
  eexists (mkEntry _ _). split; [right; right; right; left; reflexivity|]. split; reflexivity.
Defined.



(** The secrets an archive can smuggle back: the first of two [./] is all that is dropped, an
    empty segment hides the one after it, and a link to the directory itself is followed. *)
Lemma secrets_smuggled :
  let names := fun archive => List.map (fun e => th_name (te_header e)) (rt_packed (rewrapOpenclawStateTarGzip archive None)) in
  let leads := fun links name => follow 9 links [] (segments name) in
  names [simEntry "././.env" "file" None "SECRET=1"] = [".openclaw/"; ".openclaw/./.env"] /\
  names [simEntry ".openclaw//.env" "file" None "SECRET=1"] = [".openclaw/"; ".openclaw//.env"] /\
  names [simEntry "x" "symlink" (Some ".") ""; simEntry "x/.env" "file" None "SECRET=1"] = [".openclaw/"; ".openclaw/x"; ".openclaw/x/.env"] /\
  leads (fun _ => None) ".openclaw/./.env" = Within [".openclaw"; ".env"] /\
  leads (fun _ => None) ".openclaw//.env" = Within [".openclaw"; ".env"] /\
  leads (fun p => if decide (p = [".openclaw"; "x"]) then Some "." else None) ".openclaw/x/.env" = Within [".openclaw"; ".env"].
Proof. vm_compute. repeat split. Qed.

(** An unsafe path is thrown out of the listener, where the other refusals destroy the stream. *)
Lemma unsafe_path_thrown :
  rt_packing (rewrapOpenclawStateTarGzip [simEntry "../x" "file" None ""] None) = Pk_threw (PlainError "backup archive contains an unsafe path") /\
  rt_packing (rewrapOpenclawStateTarGzip [simEntry "x" "fifo" None ""] None) = Pk_destroyed (PlainError "backup archive contains unsupported entry type fifo").
Proof. vm_compute. split; reflexivity. Qed.
