(* ===== verification/RuntimeProps.v ===== *)
(** What holds of an OpenClaw bot's runtime ([OpenclawRuntime]): what of a bot's secrets a
    text of its gateway can carry, the guidance in its workspace, the order in which a configuration and the
    files it names are written, and what a verdict on a configuration says. *)
From Stdlib Require Import Ascii QArith.
From S2P Require Import Prelude JsString Substring Domain Json Fleet FleetWorld OwnerAccess PairingManager.
From S2P Require Import FleetStore IntegrationTypes FleetGuar Backups Onboarding OpenclawConfig RestoreArchive.
From S2P Require Import OpenclawRuntime.
From stdpp Require Import countable list strings.
#[local] Open Scope Z_scope.

(** ** Redaction *)
Definition redactable (secret : string) : bool :=
  unbracketed secret && negb (occurs secret "redacted") && negb (str_eqb secret "").

Lemma redactAll_keeps q : redactable q = true -> forall secrets text, occurs q text = false -> occurs q (redactAll secrets text) = false.
Proof.
  intros Hq. apply andb_prop in Hq as [Hq Hn]. apply andb_prop in Hq as [Hu Hm]. apply negb_true_iff in Hm, Hn.
  assert (Hne : q <> EmptyString) by (intros ->; discriminate Hn).
  induction secrets as [|s secrets IH]; intros text H; [exact H|]. cbn [redactAll fold_left].
  apply IH. exact (replaceAll_keeps s q "redacted" text Hne Hu Hm H).
Qed.

Lemma redactAll_gone : forall secrets text q, redactable q = true -> In q secrets -> occurs q (redactAll secrets text) = false.
Proof.
  induction secrets as [|s secrets IH]; intros text q Hq Hin; [destruct Hin|]. cbn [redactAll fold_left]. destruct Hin as [->|Hin].
  - apply redactAll_keeps; [exact Hq|]. apply andb_prop in Hq as [Hq Hn]. apply andb_prop in Hq as [Hu Hm]. apply negb_true_iff in Hm, Hn.
    apply (replaceAll_gone q "redacted" text); [intros ->; discriminate Hn | exact Hu | exact Hm].
  - apply IH; assumption.
Qed.


(** *** Numbers *)
Fixpoint longestRun (s : string) : nat :=
  match s with EmptyString => O | String c s' => Nat.max (digitRun s) (longestRun s') end.

Lemma longestRun_app_marker s : longestRun ("[redacted]" +:+ s) = longestRun s.
Proof. reflexivity. Qed.

Lemma dropChars_length : forall n s, String.length (dropChars n s) = (String.length s - n)%nat.
Proof. induction n as [|n IH]; intros [|c s]; try reflexivity. apply IH. Qed.

Lemma redactFrom_runs : forall fuel s, (String.length s < fuel)%nat ->
  (digitRun (redactFrom fuel s) <= digitRun s /\ digitRun (redactFrom fuel s) < 7 /\ longestRun (redactFrom fuel s) < 7)%nat.
Proof.
  induction fuel as [|fuel IH]; intros s Hf; [lia|]. destruct s as [|c s]; [cbn; lia|]. cbn [redactFrom].
  set (plus := if Ascii.eqb c "+"%char then 1%nat else 0%nat). set (rest := if Ascii.eqb c "+"%char then s else String c s).
  destruct (Nat.leb_spec 7 (digitRun rest)) as [H7|H7].
  - change (digitRun ("[redacted]" +:+ ?x)) with 0%nat. rewrite longestRun_app_marker.
    destruct (IH (dropChars (plus + digitRun rest) (String c s))) as (_ & _ & Hl); [rewrite dropChars_length; cbn [String.length] in *; lia|]. lia.
  - cbn [String.length] in Hf. destruct (IH s ltac:(lia)) as (H1 & H2 & H3). cbn [longestRun digitRun].
    assert (Hd : ((if isDigit c then S (digitRun s) else 0) < 7)%nat).
    { destruct (isDigit c) eqn:Ed; [|lia]. unfold rest in H7. destruct (Ascii.eqb_spec c "+"%char) as [->|]; [discriminate Ed|].
      cbn [digitRun] in H7. rewrite Ed in H7. exact H7. }
    destruct (isDigit c); lia.
Qed.

(** No number of an owner or a customer, however it is written, is left in a text that is redacted. *)
Lemma peer_ids_redacted text : (longestRun (redactPeerIds text) < 7)%nat.
Proof. apply redactFrom_runs. lia. Qed.

(** ** The guidance in a workspace *)
Definition isBlock (g : string) : bool := bool_decide (guidanceBlock g = Some (EmptyString, EmptyString)).
(** Every begin marker has its end: [existing] has none, or a whole block. *)
Definition closedMarkers (existing : string) : bool :=
  negb (occurs GUIDANCE_BEGIN existing) || match guidanceBlock existing with Some _ => true | None => false end.

Lemma cut_skip p c : p <> EmptyString -> allChars (fun x => negb (Ascii.eqb x c)) p = true -> forall a s u v, occurs p a = false ->
  cut p s = Some (u, v) -> cut p (a +:+ String c s) = Some (a +:+ String c u, v).
Proof.
  intros Hn Hp. induction a as [|b a IH]; intros s u v Ha Hs.
  - rewrite !append_nil_l. cbn [cut]. rewrite Hs. pose proof (startsWith_sep c p EmptyString s Hp) as E. rewrite append_nil_l in E.
    unfold startsWith in E. destruct (stripPrefix p (String c s)); [|reflexivity]. destruct p; [congruence|discriminate E].
  - rewrite !append_cons. rewrite occurs_cons in Ha. apply orb_false_elim in Ha as [H1 H2]. cbn [cut]. rewrite (IH s u v H2 Hs).
    pose proof (startsWith_sep c p (String b a) s Hp) as E. rewrite H1, append_cons in E. unfold startsWith in E.
    destruct (stripPrefix p (String b (a +:+ String c s))); [discriminate|reflexivity].
Qed.

Lemma trimEnd_prefix s : exists w, s = trimEnd s +:+ w.
Proof.
  induction s as [|c s [w IH]]; [exists EmptyString; reflexivity|]. cbn [trimEnd]. destruct (trimEnd s) as [|b t] eqn:E.
  - destruct (isWhite c); [exists (String c s); reflexivity|]. exists s. reflexivity.
  - exists w. rewrite append_cons. f_equal. exact IH.
Qed.

Lemma cut_self p s : cut p (p +:+ s) = Some (EmptyString, s).
Proof. assert (E : stripPrefix p (p +:+ s) = Some s) by (apply stripPrefix_iff; reflexivity). destruct (p +:+ s); cbn [cut]; rewrite E; reflexivity. Qed.

(** A block where a begin marker would be found is found whole. *)
Lemma block_found before g after : isBlock g = true -> (forall x, cut GUIDANCE_BEGIN (before +:+ GUIDANCE_BEGIN +:+ x) = Some (before, x)) ->
  guidanceBlock (before +:+ g +:+ after) = Some (before, after).
Proof.
  intros Hg Hb. apply bool_decide_eq_true_1 in Hg. unfold guidanceBlock in *.
  destruct (cut GUIDANCE_BEGIN g) as [[a r]|] eqn:Eg; [|discriminate].
  destruct (cut GUIDANCE_END (GUIDANCE_BEGIN +:+ r)) as [[x y]|] eqn:Ee; [|discriminate]. injection Hg as -> ->.
  apply cut_app in Eg. rewrite append_nil_l in Eg. subst g. rewrite append_assoc_, Hb. pose proof (cut_app _ _ _ _ Ee) as Er.
  rewrite append_nil_ in Er. rewrite <- append_assoc_, Er, append_assoc_. rewrite Er in Ee. rewrite <- (append_nil_ GUIDANCE_END) in Ee at 2.
  rewrite (cut_stable _ _ after _ Ee). reflexivity.
Qed.

(** Where the block goes: what stands before and after it is the tenant's. *)
Lemma merge_place existing : closedMarkers existing = true ->
  exists before after, (forall x, cut GUIDANCE_BEGIN (before +:+ GUIDANCE_BEGIN +:+ x) = Some (before, x)) /\
    (forall g, mergeGuidance existing g = before +:+ g +:+ after) /\
    ((exists old, existing = before +:+ old +:+ after) \/
     (before = match trimEnd existing with EmptyString => EmptyString | body => body +:+ blankLine end /\ after = newline)).
Proof.
  intros Hc. unfold mergeGuidance. destruct (guidanceBlock existing) as [[before after]|] eqn:E.
  - exists before, after. unfold guidanceBlock in E.
    destruct (cut GUIDANCE_BEGIN existing) as [[a r]|] eqn:Eb; [|discriminate]. destruct (cut GUIDANCE_END _) as [[u v]|] eqn:Eu; [|discriminate].
    injection E as -> ->. pose proof (cut_app _ _ _ _ Eb) as Ex. apply cut_app in Eu. split; [subst existing; intros x; exact (cut_stable _ _ x _ Eb)|].
    split; [reflexivity|]. left. exists (u +:+ GUIDANCE_END). rewrite Ex, Eu, append_assoc_. reflexivity.
  - unfold closedMarkers in Hc. rewrite E, orb_false_r in Hc. apply negb_true_iff in Hc.
    assert (Ht : occurs GUIDANCE_BEGIN (trimEnd existing) = false).
    { destruct (trimEnd_prefix existing) as [w Ew]. rewrite Ew in Hc. exact (occurs_infix _ EmptyString _ w Hc). }
    destruct (trimEnd existing) as [|c body].
    + exists EmptyString, newline. split; [intros x; rewrite !append_nil_l; apply cut_self|]. split; [reflexivity|]. right. split; reflexivity.
    + exists (String c body +:+ blankLine), newline. split; [|split; [intros g; rewrite !append_assoc_; reflexivity | right; split; reflexivity]].
      intros x. rewrite append_assoc_.
      apply (cut_skip GUIDANCE_BEGIN "010"%char); [discriminate | reflexivity | exact Ht |].
      apply (cut_skip GUIDANCE_BEGIN "010"%char ltac:(discriminate) eq_refl EmptyString (GUIDANCE_BEGIN +:+ x) EmptyString x eq_refl), cut_self.
Qed.



(** A begin marker without its end: the second merge takes all that follows it for the block. *)
Lemma guidance_eats_notes :
  let notes := "kept" +:+ newline +:+ GUIDANCE_BEGIN +:+ newline +:+ "my own notes" in
  occurs "my own notes" (mergeGuidance notes AGENTFORALL_GUIDANCE) = true /\
  occurs "my own notes" (mergeGuidance (mergeGuidance notes AGENTFORALL_GUIDANCE) AGENTFORALL_GUIDANCE) = false.
Proof. vm_compute. split; reflexivity. Qed.

(** ** What is written before what *)
Section Order.
Context {X : Type} {KC : Container X} (cfg : AdapterConfig).

(** [m] only appends to what was asked for, and only such actions. *)
Definition Writes {A} (P : Action -> Prop) (m : @AdapterRun X A) : Prop := forall s, exists l, (m s).2.1 = s.1 ++ l /\ Forall P l.

Lemma writes_ret {A} P (a : A) : Writes P (fun s => (inr a, s)).
Proof. intros s. exists []. rewrite app_nil_r. split; [reflexivity|constructor]. Qed.
Lemma writes_lift {A} P (r : OrchError + A) : Writes P (lift_ r).
Proof. intros s. exists []. rewrite app_nil_r. split; [reflexivity|constructor]. Qed.
Lemma writes_ask {A} P (f : Ext X A) : Writes P (ask f).
Proof. intros s. exists []. unfold ask. destruct (f s.2). rewrite app_nil_r. split; [reflexivity|constructor]. Qed.
Lemma writes_act {A} (P : Action -> Prop) a (f : Ext X A) : (forall b, P (a b)) -> Writes P (act a f).
Proof. intros H s. unfold act. destruct (f s.2) as [r x]. eexists. split; [reflexivity|]. constructor; [apply H|constructor]. Qed.
Lemma writes_bind {A B} P (m : @AdapterRun X A) (k : A -> @AdapterRun X B) : Writes P m -> (forall a, Writes P (k a)) -> Writes P (Run_bind A B k m).
Proof.
  intros Hm Hk s. unfold Run_bind. destruct (Hm s) as (l & E & Hl). destruct (m s) as [[e|a] s1]; [exists l; split; assumption|].
  destruct (Hk a s1) as (l' & E' & Hl'). exists (l ++ l'). cbn [snd] in E. rewrite E', E, <- app_assoc. split; [reflexivity|]. apply Forall_app. split; assumption.
Qed.
Lemma writes_map {A B} P (f : A -> B) (m : @AdapterRun X A) : Writes P m -> Writes P (Run_map A B f m).
Proof. intros H s. unfold Run_map. destruct (H s) as (l & E & Hl). destruct (m s) as [[e|a] s1]; exists l; split; assumption. Qed.
Lemma writes_attempt {A} P (m : @AdapterRun X A) : Writes P m -> Writes P (attempted m).
Proof. intros H s. unfold attempted. destruct (H s) as (l & E & Hl). destruct (m s) as [r s1]. exists l. split; assumption. Qed.
Lemma writes_fail {A} P e : Writes P (@fail_ X A e).
Proof. intros s. exists []. rewrite app_nil_r. split; [reflexivity|constructor]. Qed.

Definition anything (a : Action) : Prop := True.
End Order.

Ltac writes_step :=
  lazymatch goal with
  | |- Writes _ (mret _) => apply writes_ret
  | |- Writes _ (Run_ret _ _) => apply writes_ret
  | |- Writes _ (fail_ _) => apply writes_fail
  | |- Writes _ (lift_ _) => apply writes_lift
  | |- Writes _ (ask _) => apply writes_ask
  | |- Writes _ (act _ _) => apply writes_act; intros ?
  | |- Writes _ (attempted _) => apply writes_attempt
  | |- Writes _ (mbind _ _) => apply writes_bind; [|intros ?]
  | |- Writes _ (fmap _ _) => apply writes_map
  | |- Writes _ (let _ := _ in _) => cbv zeta
  | |- Writes _ (if ?b then _ else _) => destruct b
  | |- Writes _ (match ?x with _ => _ end) => destruct x
  end.

#[local] Create HintDb writing.
Ltac writes := repeat first [writes_step | solve [auto with writing] | progress intros].

Section Ordered.
Context {X : Type} {KC : Container X} (cfg : AdapterConfig).

(** An action that hands the container a configuration: its file, or the program that applies one. *)
Definition configWrite (a : Action) : bool :=
  match a with
  | Act_put _ _ archive _ => List.existsb (fun e => str_eqb (th_name (te_header e)) ".openclaw/openclaw.json") archive
  | Act_exec _ cmd _ _ => bool_decide (cmd = buildConfigApplyCommand cfg OPENCLAW_CONFIG_APPLY_TIMEOUT_MS)
  end.
Definition harmless (a : Action) : Prop := configWrite a = false.

Lemma read_writes P id : @Writes X (option string) P (readConfig id).
Proof. unfold readConfig. writes. Qed.
Lemma image_writes P id : @Writes X bool P (isOnCurrentImage cfg id).
Proof. unfold isOnCurrentImage. writes. Qed.
Lemma require_writes P id : @Writes X string P (requireConfig id).
Proof. unfold requireConfig. writes. apply read_writes. Qed.

Lemma workspace_writes id b : @Writes X unit anything (seedOpenclawWorkspace id b).
Proof. unfold seedOpenclawWorkspace, putArchive. writes; exact I. Qed.
Lemma env_writes P id dotEnv : @Writes X bool P (envMatches id dotEnv).
Proof. unfold envMatches. writes. Qed.
Lemma holds_writes P id t : @Writes X bool P (holdsConfig cfg id t).
Proof. unfold holdsConfig. writes. apply read_writes. Qed.
Lemma apply_writes id t : @Writes X ConfigApplyResult anything (execConfigApply cfg id t).
Proof. unfold execConfigApply, execBuffer. writes; exact I. Qed.

(** The business agent's own files are no configuration. *)
Lemma seed_writes id inst b : @Writes X unit harmless (seedBusinessAgent id inst b).
Proof.
  unfold seedBusinessAgent, seedOpenclawBusinessWorkspace, clearOpenclawBusinessMemory, putArchive, execBuffer. writes.
  - reflexivity.
  - apply bool_decide_eq_false_2. discriminate.
Qed.

Definition seeded (id name : string) (l : list Action) : Prop :=
  exists current, In (Act_put id OPENCLAW_STATE_PARENT (buildOpenclawWorkspaceTar OPENCLAW_BUSINESS_WORKSPACE_DIR (businessFiles name current)) true) l.

Lemma seed_done id inst b name (s s' : list Action * X) u : businessNameOf (in_config inst) = Some name ->
  seedBusinessAgent id inst b s = (inr u, s') -> seeded id name s'.1.
Proof.
  intros Hn. unfold seedBusinessAgent. rewrite Hn. unfold mbind, Run_bind, seedOpenclawBusinessWorkspace, mbind, Run_bind, ask.
  destruct (k_readFile _ _ _ _) as [[e|existing] x1]; [discriminate|]. unfold putArchive, act. cbn [fst snd].
  destruct (k_putArchive _ _ _ x1) as [[e|t] x2]; [discriminate|]. 
  set (s1 := (s.1 ++ _, x2)). assert (H1 : seeded id name s1.1) by (exists (default "" existing); apply in_or_app; right; left; reflexivity).
  intros E. destruct b.
  - assert (Hw : Writes anything (clearOpenclawBusinessMemory (X := X) id)) by (unfold clearOpenclawBusinessMemory, execBuffer; writes; exact I).
    destruct (Hw s1) as (l & El & _). rewrite E in El. cbn [snd] in El. rewrite El. destruct H1 as [c Hc]. exists c. apply in_or_app. left. exact Hc.
  - injection E as _ <-. exact H1.
Qed.

(** Whatever configuration was handed over, the files it names were there. *)
Definition safe (id name : string) (l : list Action) : Prop :=
  forall pre a post, l = pre ++ a :: post -> configWrite a = true -> seeded id name pre.

Lemma safe_harmless id name l l' : safe id name l -> Forall harmless l' -> safe id name (l ++ l').
Proof.
  intros H Hl pre a post E Ha. apply app_eq_inv in E as [(k & E1 & E2)|(k & E1 & E2)].
  - destruct k as [|b k].
    + rewrite app_nil_l in E2. subst l'. apply Forall_cons in Hl as [Hb _]. unfold harmless in Hb. congruence.
    + injection E2 as -> E2. apply (H pre b k); [exact E1|exact Ha].
  - subst l'. apply Forall_app in Hl as [_ Hl]. apply Forall_cons in Hl as [Hb _]. unfold harmless in Hb. congruence.
Qed.

Lemma safe_seeded id name l l' : safe id name l -> seeded id name l -> safe id name (l ++ l').
Proof.
  intros H [c Hs] pre a post E Ha. apply app_eq_inv in E as [(k & E1 & E2)|(k & E1 & E2)].
  - destruct k as [|b k].
    + rewrite app_nil_r in E1. subst pre. exists c. exact Hs.
    + injection E2 as -> E2. apply (H pre b k); [exact E1|exact Ha].
  - subst pre. exists c. apply in_or_app. left. exact Hs.
Qed.

Definition Orders {A} (id name : string) (m : @AdapterRun X A) : Prop := forall s, safe id name s.1 -> safe id name (m s).2.1.

Lemma orders_harmless {A} id name (m : @AdapterRun X A) : Writes harmless m -> Orders id name m.
Proof. intros H s Hs. destruct (H s) as (l & -> & Hl). apply safe_harmless; assumption. Qed.
Lemma orders_bind {A B} id name (m : @AdapterRun X A) (k : A -> @AdapterRun X B) : Orders id name m -> (forall a, Orders id name (k a)) -> Orders id name (Run_bind A B k m).
Proof.
  intros Hm Hk s Hs. unfold Run_bind. specialize (Hm s Hs). destruct (m s) as [[e|a] s1]; [exact Hm|]. apply Hk, Hm.
Qed.
(** Once the business agent's files are there, anything may follow. *)
Lemma orders_seed {B} id inst b name (k : unit -> @AdapterRun X B) : businessNameOf (in_config inst) = Some name -> (forall u, Writes anything (k u)) ->
  Orders id name (Run_bind unit B k (seedBusinessAgent id inst b)).
Proof.
  intros Hn Hk s Hs. unfold Run_bind. pose proof (orders_harmless id name _ (seed_writes id inst b) s Hs) as H1.
  destruct (seedBusinessAgent id inst b s) as [[e|u] s1] eqn:E; [exact H1|]. destruct (Hk u s1) as (l & -> & _).
  apply safe_seeded; [exact H1|]. exact (seed_done id inst b name s s1 u Hn E).
Qed.

Lemma stage_orders id inst name : businessNameOf (in_config inst) = Some name -> Orders id name (stageConfig cfg id inst).
Proof. intros Hn. unfold stageConfig. apply orders_seed; [exact Hn|]. intros u. unfold putArchive. writes; [apply read_writes | exact I]. Qed.

Lemma write_orders id inst name : businessNameOf (in_config inst) = Some name -> Orders id name (writeConfig cfg id inst).
Proof.
  intros Hn. unfold writeConfig. apply orders_bind; [apply orders_harmless, image_writes|]. intros b.
  destruct (negb b); [apply orders_harmless, writes_fail | apply stage_orders, Hn].
Qed.

Lemma apply_orders id inst name : businessNameOf (in_config inst) = Some name -> Orders id name (applyConfig cfg id inst).
Proof.
  intros Hn. unfold applyConfig. apply orders_bind; [apply orders_harmless, writes_ask|]. intros running.
  apply orders_bind; [apply orders_harmless, image_writes|]. intros current.
  destruct (negb current); [apply orders_harmless; writes|].
  destruct (negb running); [apply orders_bind; [apply stage_orders, Hn | intros u; apply orders_harmless, writes_ret]|].
  apply orders_bind; [apply orders_harmless, require_writes|]. intros existing. apply orders_seed; [exact Hn|]. intros u.
  unfold putArchive. writes; first [apply env_writes | apply workspace_writes | apply apply_writes | apply holds_writes | exact I].
Qed.
End Ordered.

(** C20: the bot of a business fails closed: whether a configuration is staged for the next boot
    or applied to a running gateway, and wherever the container fails meanwhile, no
    configuration is handed to it unless the files of the business agent it names
    were put in place before, so that a customer is never answered from a stranger's template. *)
Theorem config_after_business {X : Type} {KC : Container X} (cfg : AdapterConfig) (id : string) (inst : Instance_) (name : string) (x : X)
  (Hbusiness : businessNameOf (in_config inst) = Some name) :
  safe cfg id name (writeConfig cfg id inst ([], x)).2.1 /\ safe cfg id name (applyConfig cfg id inst ([], x)).2.1.
Proof.
  assert (H0 : safe cfg id name []) by (intros [|b pre] a post E; discriminate E).
  split; [apply write_orders | apply apply_orders]; assumption.
Qed.

(** *** A container that answers *)
Definition simShop : Instance_ :=
  mkInstance (ro_fleet (simRow "a" I_running (Some "c") None None))
    (mkInstanceConfig "Shop" (mkProviderConfig Llm_openai None "sk-key" "gpt" None None None None)
       [Ch_whatsapp_cloud (mkWhatsappCloud "waba" "phone" None "+1 555" "Dana's flowers" "access" None false "relay" (Some "+972501234567"))]
       DEFAULT_RESOURCE_LIMITS None) "gateway-token".
Definition simAdapter : AdapterConfig :=
  mkAdapterConfig "image" "http://orchestrator" (fun path base => base +:+ path) "call" "apply" (fun _ => "REQUEST") (fun _ => "NEW")
    (fun s => if str_eqb s "LIVE" then Some (JObj []) else if str_eqb s "NEW" then Some (JObj [("a", JNull)]) else
              if str_eqb s "OK" then Some (JObj [("ok", JBool true)]) else None) (fun _ => None) "backup".
(** Its only state is whether it runs. *)
#[local] Instance simContainer : Container bool := {|
  k_isRunning := fun _ x => (inr x, x);
  k_isOnImage := fun _ _ x => (inr true, x);
  k_containerState := fun _ x => (inr None, x);
  k_findContainerByName := fun _ x => (inr None, x);
  k_readFile := fun _ path _ x => (inr (if str_eqb path OPENCLAW_CONFIG_PATH then Some "LIVE" else None), x);
  k_putArchive := fun _ _ _ x => (inr tt, x);
  k_putArchiveUnderDir := fun _ _ _ _ _ x => (inr tt, x);
  k_getArchive := fun _ _ x => (inr [], x);
  k_putStream := fun _ _ _ _ x => (inr tt, x);
  k_streamFile := fun _ _ _ x => (inr ("", None), x);
  k_removeFile := fun _ _ x => (inr tt, x);
  k_execCommand := fun _ _ _ x => (inr 0, x);
  k_execCommandWithOutput := fun _ _ _ x => (inr (mkExec 0 "OK" ""), x);
  k_execCommandBuffer := fun _ _ _ _ _ x => (inr (mkExec 0 "OK" ""), x);
  k_runOneOff := fun _ x => (inr (0, ""), x);
  k_fetchStatus := fun _ _ x => (Some 200, x);
|}.

Lemma config_after_business_witness :
  businessNameOf (in_config simShop) = Some "Dana's flowers" /\
  List.map (configWrite simAdapter) (applyConfig simAdapter "c" simShop ([], true)).2.1 = [false; false; true; false; false] /\
  List.map (configWrite simAdapter) (writeConfig simAdapter "c" simShop ([], false)).2.1 = [false; true] /\
  safe simAdapter "c" "Dana's flowers" (applyConfig simAdapter "c" simShop ([], true)).2.1.
Proof.
  split; [reflexivity|]. split; [vm_compute; reflexivity|]. split; [vm_compute; reflexivity|].
  apply (config_after_business simAdapter "c" simShop "Dana's flowers" true). reflexivity.
Defined.


(** ** What a verdict says *)
Definition GatewayEvent : Type := string * Json * (ProgramError + Json).

Section Verdict.
Context {G : Type} `{Gateway G} (stringify : Json -> string) (parseJson : string -> option Json).

(** A gateway whose answers are kept. *)
#[local] Instance traced : Gateway (list GatewayEvent * G) := {|
  gw_open := fun scopes token s => let '(r, g) := gw_open scopes token s.2 in (r, (s.1, g));
  gw_send := fun method params s => let '(r, g) := gw_send method params s.2 in (r, (s.1 ++ [(method, params, r)], g));
  gw_close := fun s => (s.1, gw_close s.2);
  gw_sleep := fun ms s => let '(t, g) := gw_sleep ms s.2 in (t, (s.1, g));
|}.

(** The gateway's last answer is to the write of this configuration. *)
Definition answered (configRaw : string) (l : list GatewayEvent) (r : ProgramError + Json) : Prop :=
  exists l' hash, l = l' ++ [("config.apply", JObj [("raw", JStr configRaw); ("baseHash", JStr hash)], r)].

Definition Backed (configRaw : string) (out : ((ApplyStage * ProgramError) + unit) * (list GatewayEvent * G)) : Prop :=
  match out.1 with
  | inr _ => exists payload, answered configRaw out.2.1 (inr payload)
  | inl (Ap_write, e) => pe_transport e = true \/ answered configRaw out.2.1 (inl e)
  | inl _ => True
  end.

Lemma once_backed token configRaw s : Backed configRaw (applyOnce token configRaw s).
Proof.
  unfold applyOnce, applyInSession. cbn [gw_open gw_send gw_close traced].
  match goal with |- context [@gw_open ?a ?b ?sc ?tk ?st] => destruct (@gw_open a b sc tk st) as [[e|t] g0] end; [exact I|]. cbn [fst snd].
  match goal with |- context [@gw_send ?a ?b "config.get" ?p ?st] => destruct (@gw_send a b "config.get" p st) as [[e|current] g1] end; [exact I|]. cbn [fst snd].
  destruct (getKey "hash" current) as [| | |hash| |]; try exact I.
  match goal with |- context [@gw_send ?a ?b "config.apply" ?p ?st] => destruct (@gw_send a b "config.apply" p st) as [[e|payload] g2] end;
    unfold Backed, answered; cbn [fst snd]; eauto.
Qed.

Lemma until_backed : forall fuel deadline now token configRaw last_ s, pe_transport last_.2 = true ->
  Backed configRaw (applyUntilAcknowledged fuel deadline now token configRaw last_ s).
Proof.
  induction fuel as [|fuel IH]; intros deadline now token configRaw [stage last_] s Hl.
  - destruct stage; try exact I. left. exact Hl.
  - cbn [applyUntilAcknowledged]. destruct (now <? deadline - 2000); [|destruct stage; try exact I; left; exact Hl].
    destruct (gw_sleep 500 s) as [t s1]. pose proof (once_backed token configRaw s1) as Hb.
    destruct (applyOnce token configRaw s1) as [[e|u] s2]; [|exact Hb]. destruct (pe_transport e.2) eqn:Ee; [|exact Hb].
    destruct (gw_sleep 0 s2) as [now' s3]. apply IH, Ee.
Qed.

Lemma program_backed configFile timeoutMs start_ configRaw s :
  Backed configRaw (configApplyProgram parseJson configFile timeoutMs start_ configRaw s).
Proof.
  unfold configApplyProgram. destruct (parseJson configRaw); [|exact I]. destruct (match configFile with Some t => parseJson t | None => None end); [|exact I].
  cbv zeta. destruct (negb _); [exact I|]. match goal with |- context [applyOnce ?t configRaw s] => pose proof (once_backed t configRaw s) as Hb; destruct (applyOnce t configRaw s) as [[[stage e]|u] s1] end; [|exact Hb].
  destruct (_ || _); [exact Hb|]. destruct (gw_sleep 0 s1) as [now s2]. apply until_backed. reflexivity.
Qed.

(** The printed object is read back as it was. *)
Context (Hcodec : forall o, parseJson (lastLine (stringify (applyOutputJson o))) = Some (applyOutputJson o)).

Lemma output_read o : (forall c m stage t, o = Ao_failed stage t c m -> truthy c = c) -> parseConfigApplyOutput parseJson (stringify (applyOutputJson o)) = verdictOf o.
Proof.
  intros Hc. unfold parseConfigApplyOutput. rewrite Hcodec. destruct o as [|stage t c m]; [reflexivity|]. specialize (Hc c m stage t eq_refl).
  destruct stage, t, c as [c|]; cbn [applyOutputJson]; rewrite Hc; reflexivity.
Qed.
End Verdict.

(** C22: the orchestrator's verdict on a configuration is the gateway's: through the program
    that runs beside the gateway, with its retries, and the parsing of what it prints, a
    configuration is called applied only if the gateway's last answer acknowledged
    exactly that configuration, and rejected only if that answer refused it and was not
    one the gateway gives while it is busy; a run that is cut off says neither. *)
Theorem verdict_backed {G : Type} `{Gateway G} (stringify : Json -> string) (parseJson : string -> option Json)
  (Hcodec : forall o, parseJson (lastLine (stringify (applyOutputJson o))) = Some (applyOutputJson o))
  (configFile : option string) (timeoutMs start_ : Z) (configRaw : string) (g : G) :
  let out := configApplyProgram (H := traced) parseJson configFile timeoutMs start_ configRaw ([], g) in
  match parseConfigApplyOutput parseJson (stringify (applyOutputJson (outputOf out.1))) with
  | Ca_applied => exists payload, answered configRaw out.2.1 (inr payload)
  | Ca_rejected reason => exists e, answered configRaw out.2.1 (inl e) /\ pe_message e = reason /\ truthy (pe_code e) <> Some "UNAVAILABLE"
  | _ => True
  end /\
  parseConfigApplyOutput parseJson (stringify (applyOutputJson (Ao_failed Ap_write true None "timeout"))) = Ca_unreachable "timeout".
Proof.
  cbv zeta. split; [|rewrite (output_read stringify parseJson Hcodec); [reflexivity|intros c m stage t E; injection E as _ _ <- _; reflexivity]].
  set (out := configApplyProgram _ _ _ _ _ _). pose proof (program_backed parseJson configFile timeoutMs start_ configRaw ([], g)) as Hb. fold out in Hb.
  rewrite (output_read stringify parseJson Hcodec).
  - unfold Backed in Hb. destruct out as [[[stage e]|u] s]; cbn [fst snd outputOf verdictOf] in *; [|exact Hb].
    destruct stage; cbn [verdictOf]; [exact I | destruct (pe_transport e); exact I |].
    destruct (pe_transport e) eqn:Et; [exact I|]. cbn [orb]. destruct (ostr_eqb (truthy (pe_code e)) (Some "UNAVAILABLE")) eqn:Ec; [exact I|].
    destruct Hb as [Hb|Hb]; [congruence|]. exists e. split; [exact Hb|]. split; [reflexivity|]. intros E. rewrite E in Ec. discriminate Ec.
  - intros c m stage t. destruct out as [[[st e]|u] s]; cbn [fst outputOf]; [|discriminate]. intros [= _ _ <- _].
    destruct (pe_code e) as [[|a b]|]; reflexivity.
Qed.

Lemma lastLine_plain s : allChars (fun c => negb (isWhite c)) s = true -> lastLine s = s.
Proof.
  intros H. unfold lastLine, splitLines. rewrite trim_plain by exact H. rewrite splitOn_none; [reflexivity|].
  revert H. induction s as [|c s IH]; [reflexivity|]. cbn [allChars]. intros H. apply andb_prop in H as [Hc H]. rewrite (IH H), andb_true_r.
  destruct (Ascii.eqb_spec c "010"%char) as [->|]; [discriminate Hc|reflexivity].
Qed.
Lemma bits_unwhite p : allChars (fun c => negb (isWhite c)) (bits p) = true.
Proof. induction p as [p IH|p IH|]; simpl; [exact IH..|]; reflexivity. Qed.

(** A codec of what the program prints. *)
Definition flatOutput (o : ApplyOutput) : option (string * bool * (option string * string)) :=
  match o with Ao_ok => None | Ao_failed stage transport code message => Some (stageStr stage, transport, (code, message)) end.
Definition outputOfFlat (t : option (string * bool * (option string * string))) : option ApplyOutput :=
  match t with
  | None => Some Ao_ok
  | Some (stage, transport, (code, message)) => option_map (fun s => Ao_failed s transport code message) (zStage (JStr stage))
  end.
Definition simStringify (j : Json) : string := bits (encode (flatOutput (default Ao_ok (applyOutputSchema j)))).
Definition simParse (s : string) : option Json :=
  match decode (unbits s) with Some t => option_map applyOutputJson (outputOfFlat t) | None => None end.

Lemma sim_codec o : simParse (lastLine (simStringify (applyOutputJson o))) = Some (applyOutputJson o).
Proof.
  unfold simStringify. rewrite lastLine_plain by apply bits_unwhite. unfold simParse. rewrite unbits_bits, decode_encode.
  destruct o as [|stage transport [[|a b]|] message]; [reflexivity|..]; destruct stage, transport; reflexivity.
Qed.

(** A gateway that refuses the first configuration and takes the next. *)
#[local] Instance simGateway : Gateway bool := {|
  gw_open := fun _ _ g => (inr tt, g);
  gw_send := fun method _ g => if str_eqb method "config.get" then (inr (JObj [("hash", JStr "h")]), g)
    else if (g : bool) then (inr JNull, g) else (inl (mkProgramError false (Some "INVALID_REQUEST") "bad channel"), true);
  gw_close := fun g => g;
  gw_sleep := fun ms g => (ms, g);
|}.
Definition simFiles (s : string) : option Json :=
  if str_eqb s "FILE" then Some (JObj [("gateway", JObj [("auth", JObj [("token", JStr "t")])])]) else simParse s.

Lemma verdict_backed_witness :
  (forall o, simFiles (lastLine (simStringify (applyOutputJson o))) = Some (applyOutputJson o)) /\
  outputOf (configApplyProgram (H := traced) simFiles (Some "FILE") 20000 0 "FILE" ([], false)).1
  = Ao_failed Ap_write false (Some "INVALID_REQUEST") "bad channel" /\
  match parseConfigApplyOutput simFiles (simStringify (applyOutputJson (outputOf
          (configApplyProgram (H := traced) simFiles (Some "FILE") 20000 0 "FILE" ([], false)).1))) with
  | Ca_rejected reason => reason = "bad channel" | _ => False end /\
  parseConfigApplyOutput simFiles (simStringify (applyOutputJson (Ao_failed Ap_write true None "timeout"))) = Ca_unreachable "timeout".
Proof.
  assert (Hc : forall o, simFiles (lastLine (simStringify (applyOutputJson o))) = Some (applyOutputJson o)).
  { intros o. unfold simFiles. destruct (str_eqb (lastLine _) "FILE") eqn:E; [|apply sim_codec].
    exfalso. apply str_eqb_eq in E. unfold simStringify in E. rewrite lastLine_plain in E by apply bits_unwhite. destruct (encode _); discriminate E. }
  split; [exact Hc|]. split; [vm_compute; reflexivity|].
  pose proof (verdict_backed simStringify simFiles Hc (Some "FILE") 20000 0 "FILE" false) as [_ Ht]. split; [|exact Ht].
  rewrite (output_read simStringify simFiles Hc); [vm_compute; reflexivity|]. vm_compute. intros c m stage t [= _ _ <- _]. reflexivity.
Defined.

(** ** The retries end *)
Section Ends.
Context {G : Type} `{Gateway G} (clock : G -> Z).

(** Waiting takes the time it is asked for, and no request turns the clock back. *)
Record ClockLaws : Prop := {
  cl_sleep : forall ms g, 0 <= ms -> let '(t, g') := gw_sleep ms g in clock g + ms <= t /\ clock g' = t;
  cl_open : forall scopes token g, clock g <= clock (gw_open scopes token g).2;
  cl_send : forall method params g, clock g <= clock (gw_send method params g).2;
  cl_close : forall g, clock g <= clock (gw_close g);
}.
Context (laws : ClockLaws).

Lemma once_clock token configRaw g : clock g <= clock (applyOnce token configRaw g).2.
Proof.
  unfold applyOnce, applyInSession. pose proof (cl_open laws [JStr "operator.read"; JStr "operator.admin"] token g) as Ho.
  destruct (gw_open _ token g) as [[e|u] g1]; [exact Ho|]. cbn [snd] in Ho.
  pose proof (cl_send laws "config.get" (JObj []) g1) as Hg. destruct (gw_send "config.get" (JObj []) g1) as [[e|current] g2]; cbn [snd] in *.
  { pose proof (cl_close laws g2). lia. }
  destruct (getKey "hash" current) as [|b|q|hash|l|l]; try (pose proof (cl_close laws g2); cbn [snd]; lia).
  match goal with |- context [gw_send "config.apply" ?p g2] => pose proof (cl_send laws "config.apply" p g2) as Ha; destruct (gw_send "config.apply" p g2) as [[e|u'] g3] end;
    cbn [snd] in *; pose proof (cl_close laws g3); lia.
Qed.

(** The fuel is enough: with more of it, nothing else happens. *)
Lemma apply_loop_ends deadline token configRaw k : forall fuel now last_ g, now <= clock g -> deadline - 2000 - now <= 500 * Z.of_nat fuel ->
  applyUntilAcknowledged (fuel + k) deadline now token configRaw last_ g = applyUntilAcknowledged fuel deadline now token configRaw last_ g.
Proof.
  induction fuel as [|fuel IH]; intros now last_ g Hn Hf.
  - cbn [plus applyUntilAcknowledged]. destruct k; [reflexivity|]. cbn [applyUntilAcknowledged]. rewrite (proj2 (Z.ltb_ge _ _)) by lia. reflexivity.
  - cbn [plus applyUntilAcknowledged]. destruct (Z.ltb_spec now (deadline - 2000)); [|reflexivity].
    pose proof (cl_sleep laws 500 g ltac:(lia)) as Hs. destruct (gw_sleep 500 g) as [t g1]. pose proof (once_clock token configRaw g1) as Ho.
    destruct (applyOnce token configRaw g1) as [[e|u] g2]; [|reflexivity]. destruct (pe_transport e.2); [|reflexivity]. cbn [snd] in Ho.
    pose proof (cl_sleep laws 0 g2 ltac:(lia)) as Hz. destruct (gw_sleep 0 g2) as [now' g3]. apply IH; lia.
Qed.

Lemma apply_fuel_enough start_ timeoutMs now token configRaw last_ g k : start_ <= now -> now <= clock g ->
  applyUntilAcknowledged (APPLY_FUEL timeoutMs + k) (start_ + timeoutMs) now token configRaw last_ g
  = applyUntilAcknowledged (APPLY_FUEL timeoutMs) (start_ + timeoutMs) now token configRaw last_ g.
Proof.
  intros Hs Hn. apply apply_loop_ends; [exact Hn|]. unfold APPLY_FUEL. pose proof (Z.div_mod timeoutMs 500 ltac:(lia)).
  pose proof (Z.mod_pos_bound timeoutMs 500 ltac:(lia)). lia.
Qed.
End Ends.
